(* ===== verification/_CoqProject ===== *)
-Q . S2P
Prelude.v
State.v
Monad.v
Mem.v
Spinlock.v
Sample.v
Kalloc.v
ConsoleOut.v
Ports.v
Vm.v
VmFacts.v
Uvm.v
Kvm.v
User.v
UserFacts.v
Sched.v
Policy.v
SleepWake.v
Sleeplock.v
Bio.v
Memide.v
BioFacts.v
Cache.v
Log.v
LogFacts.v
Writes.v
LogSpec.v
Inode.v
LogOps.v
Console.v
Input.v
Ide.v
Fs.v
FsFacts.v
FileFacts.v
PathFacts.v
WriteFacts.v
Pipe.v
PipeFacts.v
File.v
Proc.v
ProcFacts.v
ForkFacts.v
ExitFacts.v
SampleFs.v
Exec.v
Syscall.v
Sysfile.v
Trap.v
TrapFacts.v
Boot.v
Asm.v
AsmFacts.v
Regex.v
UserProg.v
Ulib.v
UlibFacts.v
Programs.v
ProgramFacts.v
TestPrograms.v
Shell.v
ShellFacts.v
Grammar.v
ShellWords.v
ShellRun.v
Umalloc.v
UmallocFacts.v
MallocFacts.v
BootLoader.v
Mkfs.v
MkfsFacts.v
MkfsImage.v
Mount.v
SchedTheorems.v
FsTheorems.v
MemTheorems.v
VmTheorems.v
ProcTheorems.v
UserTheorems.v
BootTheorems.v
