(* ===== verification/Prelude.v ===== *)
(** * A verification development for the xv6 kernel with four schedulers

    The program is a teaching kernel for x86 (C, under src/) extended with
    four scheduling policies, process accounting (creation, run, end and queue
    times), a [nice] system call, and waits that report times.  This library
    models the kernel as functions on one kernel state, the user programs as
    trees of system calls and the assembly as code of a small machine, and
    proves what they do.

    ** How the code is modelled

    - [Prelude]: C integers as [Z] with the wrap-around of their type, record
      updates, generic lemmas on lists and options.
    - [State]: the constants and structs of the headers, and the record
      [kernel] of all global variables.  Pointers into static tables (processes,
      buffers, inodes, files) are indices; pointers to pages are addresses in
      the byte memory [k_mem].
    - [Monad]: a kernel function is a computation [K A].  It returns, stops with
      a fault (panic, spinning on a held lock, undefined behaviour, a hang) or
      gives up the processor ([Swtch s k]: the state at [swtch], and the rest of
      the function as a function of the state in which it is resumed).  What
      other processes do in the meantime is in that state; statements about
      blocking code quantify over it.
    - Between two switches a thread runs alone on its processor; the
      interleaving of processors at a spin lock is a machine of its own
      ([Spinlock.Machine]), which is where mutual exclusion is proved.

    ** The components

    - [Mem]: string.c, and the integers in blocks and pages.
    - [Spinlock], [Sleeplock]: spinlock.c and sleeplock.c.
    - [Kalloc], [Vm], [User]: kalloc.c, vm.c, and access to user memory.  [VmFacts],
      [Uvm] and [Kvm] relate the page tables in memory to what the processor
      makes of them; [UserFacts] is about user memory.
    - [Sched], [SleepWake], [Proc]: proc.c.  [Sched.scheduler_round] is one
      turn of the loop of [scheduler] under the value of [strategy].
      [ProcFacts], [ForkFacts], [ExitFacts]: fork, exit, wait and growproc.
    - [Trap], [TrapFacts]: trap.c, with the tick, the accounting of times and
      the preemption of the four strategies.
    - [Bio], [BioFacts], [Cache]: bio.c.
      [Memide] and [Ide] are the two drivers; the cache uses them through the
      class [BlockDev], whose law [SyncDev] memide.c satisfies.
    - [Log], [LogFacts], [Writes], [LogSpec], [LogOps]: log.c.
    - [Inode], [Fs], [FsFacts]: fs.c.  [FileFacts] says what the bytes of a file
      are and that readi delivers them, [PathFacts] what a path leads to and that
      namei finds it, [WriteFacts] what writei and the block allocator do to the
      files and blocks of a volume.  [File], [Pipe], [PipeFacts]: file.c, pipe.c.
    - [Exec], [Syscall], [Sysfile]: exec.c, syscall.c with sysproc.c, and
      sysfile.c.
    - [ConsoleOut], [Console], [Input]: console.c, kbd.c and uart.c.
    - [Ports]: picirq.c, ioapic.c, lapic.c, mp.c on devices given by the class
      [Ports].
    - [Boot], [BootLoader]: main.c with timer.c, and bootmain.c on the ports of a
      disk (class [AtaPorts], whose law is [AtaDisk]).
    - [Asm], [AsmFacts]: a machine with the registers, segments, flags and bytes
      of the processor, and the code of swtch.S, trapasm.S, vectors.pl, usys.S,
      initcode.S, entry.S and the 32-bit part of entryother.S.
    - [UserProg]: user programs as trees of system calls, and their runs: the
      calls with the replies of the kernel.  [Ulib], [UlibFacts]: ulib.c and
      printf.c.  [Programs], [ProgramFacts], [Regex]: cat, echo, grep, init,
      kill, ln, ls, mkdir, rm and wc.  [TestPrograms]: the test programs of fork
      and of the scheduler.
    - [Shell], [ShellFacts], [Grammar], [ShellWords], [ShellRun]: sh.c.  The
      parser works on the bytes of the line; [Grammar] is the language it is
      meant to read, [ShellRun] runs a command and says what a command means.
    - [Umalloc], [UmallocFacts], [MallocFacts]: umalloc.c, on headers in memory;
      sbrk is the class [Sbrk].
    - [Mkfs], [MkfsFacts], [MkfsImage]: mkfs.c, on an image of blocks.  [Mount]:
      that image as the root device of the kernel.
    - [Sample], [SampleFs]: concrete machines on which the hypotheses of the
      theorems hold.

    ** What the theorems show

    - [Policy], [SchedTheorems]: which process each strategy runs in which
      state, the bound on waiting under FIFO, the length of the quantum, that
      wakeups are not lost, that spin locks exclude each other, the branches of
      kill, nice, sched, acquire, release and the sleep locks.
    - [FsTheorems]: the cache is transparent; a transaction is atomic across a
      crash at any write; the encodings of inodes, directory entries and the
      log header are read back; bitmaps and pipes; readi delivers the bytes of
      a file, namei follows a path and gives back what it does not return, and
      together they find and read the files that mkfs has written; writei puts
      the bytes in place and touches no other file, and a write is atomic
      across a crash.  The write theorems take the blocks beyond the direct ones
      to be there already: bmap then holds one buffer at a time.
    - [MemTheorems]: the page allocator is a stack of pages; memmove and the
      string functions; printint; the scan of the MP table.
    - [VmTheorems]: what setupkvm, allocuvm, deallocuvm, copyuvm, freevm and
      copyout do to an address space and to the free pages, with the number of
      pages that is enough for them to succeed.
    - [ProcTheorems]: fork, exit, wait and growproc on every branch.
    - [UserTheorems]: the shell runs what its grammar means; malloc and free keep
      the arrays of a program apart; grep, wc, cat and printf write what they
      should.
    - [BootTheorems]: the boot loader loads the kernel; swtch, the trap entry and
      trapret save and resume threads, and start a forked child as its parent
      with 0 for a result; mkfs builds an image in which every file is found.

    ** Parameters and bounds

    - [Linker]: addresses of linker symbols; [LinkerOk] says that the kernel is
      below the top of memory.
    - [FsImage]: the size of the disk image that is linked in for memide.c.
    - [Ports]: what the device registers read; [MmioQuiet] says that they are
      not variables of the kernel.
    - [Fuel]: the bound of loops that can sleep.  A loop that uses it up stops
      with [FFuel], which no theorem takes for a result: theorems either show
      the result for every positive bound, or the state in which the loop
      gives up the processor, whichever is before the bound.  Loops that do
      not sleep recurse on a count computed from their arguments (pages in
      a range, bytes of a transfer, characters of a string).

    ** What is not modelled

    - bootasm.S and the 16-bit half of entryother.S: real-mode code, which runs
      before any other code and which the 32-bit machine of [Asm] cannot run.
    - usertests.c: a suite of tests of the system calls, whose subject is the
      kernel.  par2.c is not valid C.  vectors.S is the output of vectors.pl.
    - The field [pcs] of a spin lock is left out.  The number of the processor
      is a variable of the state instead of a register of its interrupt
      controller.
    - User programs run against replies, not against the kernel of the model:
      the composition is in what the theorems assume of the replies. *)

From stdpp Require Export base numbers list gmap strings.
From Stdlib Require Export ZArith Lia.

#[global] Open Scope Z_scope.

(** ** Machine integers

    A C integer is a [Z] in the range of its type; the operations that can
    leave the range are followed by the wrap-around of that type. *)

Definition u8 (z : Z) : Z := z mod 2 ^ 8.
Definition u16 (z : Z) : Z := z mod 2 ^ 16.
Definition u32 (z : Z) : Z := z mod 2 ^ 32.

Definition i8 (z : Z) : Z := (z + 2 ^ 7) mod 2 ^ 8 - 2 ^ 7.
Definition i16 (z : Z) : Z := (z + 2 ^ 15) mod 2 ^ 16 - 2 ^ 15.
Definition i32 (z : Z) : Z := (z + 2 ^ 31) mod 2 ^ 32 - 2 ^ 31.

Declare Scope c_scope.
Delimit Scope c_scope with c.
Notation "a +u b" := (u32 (a + b)) (at level 50, left associativity) : c_scope.
Notation "a -u b" := (u32 (a - b)) (at level 50, left associativity) : c_scope.
Notation "a *u b" := (u32 (a * b)) (at level 40, left associativity) : c_scope.
#[global] Open Scope c_scope.

Definition is_u32 (z : Z) : Prop := 0 <= z < 2 ^ 32.

Create HintDb cint.

Lemma u32_range z : is_u32 (u32 z).
Proof. unfold is_u32, u32. apply Z.mod_pos_bound. lia. Qed.
Lemma u32_small z : 0 <= z < 2 ^ 32 -> u32 z = z.
Proof. intros H. by apply Z.mod_small. Qed.
Lemma u16_range z : 0 <= u16 z < 2 ^ 16.
Proof. unfold u16. apply Z.mod_pos_bound. lia. Qed.
Lemma u16_small z : 0 <= z < 2 ^ 16 -> u16 z = z.
Proof. intros H. by apply Z.mod_small. Qed.
Lemma u32_add_l a b : u32 a +u b = a +u b.
Proof. unfold u32. by rewrite Zplus_mod_idemp_l. Qed.
Lemma u32_add_r a b : a +u u32 b = a +u b.
Proof. unfold u32. by rewrite Zplus_mod_idemp_r. Qed.
Lemma u32_sub_l a b : u32 a -u b = a -u b.
Proof. unfold u32. by rewrite Zminus_mod_idemp_l. Qed.
Lemma u32_sub_r a b : a -u u32 b = a -u b.
Proof. unfold u32. by rewrite Zminus_mod_idemp_r. Qed.
Lemma i16_u16 z : - 2 ^ 15 <= z < 2 ^ 15 -> i16 (u16 z) = z.
Proof. intros H. unfold i16, u16. rewrite Zplus_mod_idemp_l, Z.mod_small by lia. lia. Qed.
Lemma i32_small z : - 2 ^ 31 <= z < 2 ^ 31 -> i32 z = z.
Proof. intros H. unfold i32. rewrite Z.mod_small by lia. lia. Qed.
#[export] Hint Resolve u32_range u16_range : cint.
#[export] Hint Rewrite u32_add_l u32_add_r u32_sub_l u32_sub_r : cint.

(** ** Record update

    [r <| f := v |>] is the record [r] with field [f] set to [v]; every field
    that the code assigns has a [Setter] instance. *)

Class Setter {R T : Type} (proj : R -> T) := set_to : T -> R -> R.
Arguments set_to {R T} proj {_} _ _ : assert.

Notation "r <| f := v |>" := (set_to f v r)
  (at level 1, left associativity, f constr at level 10, v at level 99).

(** ** Tables

    A C array is a list updated by index with [alter] and [insert]. *)

Lemma list_alter_alter {A} (f g : A -> A) (i : nat) (l : list A) :
  alter f i (alter g i l) = alter (f ∘ g) i l.
Proof.
  apply list_eq. intros j. destruct (decide (i = j)) as [<-|Hj].
  - rewrite !list_lookup_alter_eq. by destruct (l !! i).
  - by rewrite !list_lookup_alter_ne.
Qed.

Lemma list_alter_insert {A} (f : A -> A) (l : list A) (i : nat) x :
  l !! i = Some x -> alter f i l = <[i := f x]> l.
Proof.
  intros H. apply list_eq. intros j. destruct (decide (i = j)) as [<-|Hij].
  - rewrite list_lookup_alter_eq, H, list_lookup_insert_eq by (by eapply lookup_lt_Some). done.
  - by rewrite list_lookup_alter_ne, list_lookup_insert_ne.
Qed.

Lemma list_alter_id {A} (f : A -> A) (l : list A) (i : nat) x :
  l !! i = Some x -> f x = x -> alter f i l = l.
Proof. intros H Hf. by rewrite (list_alter_insert _ _ _ _ H), Hf, list_insert_id. Qed.

(** ** Flag bits *)

Lemma land_pow2 z n : 0 <= n -> Z.land z (2 ^ n) = if Z.testbit z n then 2 ^ n else 0.
Proof.
  intros Hn. apply Z.bits_inj'. intros k Hk. rewrite Z.land_spec, Z.pow2_bits_eqb by done.
  destruct (Z.eqb_spec n k) as [<-|Hne].
  - destruct (Z.testbit z n) eqn:E; [by rewrite Z.pow2_bits_true|by rewrite Z.bits_0].
  - rewrite andb_false_r. destruct (Z.testbit z n); [by rewrite Z.pow2_bits_false by lia|by rewrite Z.bits_0].
Qed.

Lemma land_flag z n : 0 <= n -> negb (Z.land z (2 ^ n) =? 0) = Z.testbit z n.
Proof.
  intros Hn. rewrite land_pow2 by done. destruct (Z.testbit z n); [|done].
  apply negb_true_iff, Z.eqb_neq. pose proof (Z.pow_pos_nonneg 2 n). lia.
Qed.

Lemma testbit_inj_eq z z' n : z = z' -> Z.testbit z n = Z.testbit z' n.
Proof. by intros ->. Qed.

(** ** Lists as collections *)

(** Permutations of lists of integers, up to the order of their parts. *)
Ltac solve_perm :=
  apply (Stdlib.Sorting.Permutation.Permutation_count_occ Z.eq_dec); let x := fresh "x" in intros x;
  repeat match goal with H : @Permutation Z _ _ |- _ =>
    generalize (proj1 (Stdlib.Sorting.Permutation.Permutation_count_occ Z.eq_dec _ _) H x); clear H end;
  clear; rewrite ?count_occ_app; cbn [count_occ]; rewrite ?count_occ_app; cbn [count_occ];
  repeat (case (Z.eq_dec _ _); intros ?); intros; lia.

(** Inclusions between lists that are put together from the same parts. *)
Ltac solve_sub :=
  let q := fresh "q" in intros q;
  rewrite ?elem_of_app, ?elem_of_cons, ?elem_of_app, ?elem_of_cons, ?elem_of_nil; tauto.
