(* ===== verification/State.v ===== *)
(** * Constants and data types of the kernel

    The constants of [param.h], [mmu.h], [memlayout.h], [fs.h], [traps.h] and
    the structs of [proc.h], [spinlock.h], [sleeplock.h], [buf.h], [file.h],
    [fs.h], [log.c], [pipe.c], [console.c] and [x86.h].  A pointer into a
    static table of the kernel is the index into that table ([option nat] where
    it can be null); a pointer to a page is its kernel virtual address, a [Z].
    The record [kernel] gathers the global variables of all the C files.

    The debug field [pcs] of [struct spinlock] (a call-stack snapshot that no
    code reads back) is the only field that is left out. *)

From S2P Require Import Prelude.

(** ** Constants *)

(** [param.h] *)
Definition NPROC : nat := 64.
Definition KSTACKSIZE : Z := 4096.
Definition NCPU : nat := 8.
Definition NOFILE : nat := 16.
Definition NFILE : nat := 100.
Definition NINODE : nat := 50.
Definition NDEV : Z := 10.
Definition ROOTDEV : Z := 1.
Definition MAXARG : nat := 32.
Definition MAXOPBLOCKS : Z := 10.
Definition LOGSIZE : Z := MAXOPBLOCKS * 3.
Definition NBUF : nat := 30.
Definition FSSIZE : Z := 1000.
Definition QUANTA : Z := 5.

(** [mmu.h] *)
Definition FL_IF : Z := 0x200.
Definition SEG_KCODE : Z := 1.
Definition SEG_KDATA : Z := 2.
Definition SEG_KCPU : Z := 3.
Definition SEG_UCODE : Z := 4.
Definition SEG_UDATA : Z := 5.
Definition SEG_TSS : Z := 6.
Definition DPL_USER : Z := 3.
Definition NPDENTRIES : Z := 1024.
Definition NPTENTRIES : Z := 1024.
Definition PGSIZE : Z := 4096.
Definition PTE_P : Z := 1.
Definition PTE_W : Z := 2.
Definition PTE_U : Z := 4.

(** [memlayout.h] *)
Definition EXTMEM : Z := 0x100000.
Definition PHYSTOP : Z := 0xE000000.
Definition DEVSPACE : Z := 0xFE000000.
Definition KERNBASE : Z := 0x80000000.
Definition KERNLINK : Z := KERNBASE + EXTMEM.
Definition V2P (a : Z) : Z := a -u KERNBASE.
Definition P2V (a : Z) : Z := a +u KERNBASE.

(** [fs.h], [stat.h], [buf.h], [file.h], [fcntl.h] *)
Definition ROOTINO : Z := 1.
Definition BSIZE : Z := 512.
Definition NDIRECT : Z := 12.
Definition NINDIRECT : Z := BSIZE / 4.
Definition MAXFILE : Z := NDIRECT + NINDIRECT.
Definition IPB : Z := BSIZE / 64.
Definition BPB : Z := BSIZE * 8.
Definition DIRSIZ : Z := 14.
Definition T_DIR : Z := 1.
Definition T_FILE : Z := 2.
Definition T_DEV : Z := 3.
Definition B_VALID : Z := 2.
Definition B_DIRTY : Z := 4.
Definition I_VALID : Z := 2.
Definition PIPESIZE : Z := 512.
Definition INPUT_BUF : Z := 128.

(** [traps.h] *)
Definition T_SYSCALL : Z := 64.
Definition T_IRQ0 : Z := 32.
Definition IRQ_TIMER : Z := 0.
Definition IRQ_KBD : Z := 1.
Definition IRQ_COM1 : Z := 4.
Definition IRQ_IDE : Z := 14.
Definition IRQ_SPURIOUS : Z := 31.

(** ** Symbols from the linker and the assembly files

    [end] and [data] come from kernel.ld; [trapret] and [forkret] are code
    addresses; [initcode] is the image of the first process; [sym_ts i] and
    [sym_cpu i] are the addresses of [cpus[i].ts] and [cpus[i].cpu]. *)
Class Linker := {
  sym_end : Z;
  sym_data : Z;
  sym_trapret : Z;
  sym_forkret : Z;
  sym_initcode : list Z;
  sym_ts : nat -> Z;
  sym_cpu : nat -> Z
}.

(** What kernel.ld says of them: the kernel is linked at [KERNLINK], its data
    starts on a page boundary, and the image ends below [PHYSTOP]. *)
Class LinkerOk (L : Linker) : Prop := {
  sym_data_range : KERNLINK < sym_data < sym_end;
  sym_data_aligned : sym_data mod PGSIZE = 0;
  sym_end_range : sym_end <= KERNBASE + PHYSTOP
}.

(** ** Locks and sleep channels *)

(** The spin locks of the kernel, one constructor per object of type
    [struct spinlock]; a sleep lock carries one ([L_buf], [L_inode]), and a
    pipe has one inside its page ([L_pipe]). *)
Inductive lockid :=
| L_ptable | L_tickslock | L_kmem | L_bcache | L_log | L_icache | L_ftable
| L_idelock | L_cons
| L_buf (i : nat) | L_inode (i : nat) | L_pipe (p : Z).

#[export] Instance lockid_eq_dec : EqDecision lockid.
Proof. solve_decision. Defined.

Definition lockid_code (l : lockid) : nat * Z :=
  match l with
  | L_ptable => (0%nat, 0) | L_tickslock => (0%nat, 1) | L_kmem => (0%nat, 2)
  | L_bcache => (0%nat, 3) | L_log => (0%nat, 4) | L_icache => (0%nat, 5)
  | L_ftable => (0%nat, 6) | L_idelock => (0%nat, 7) | L_cons => (0%nat, 8)
  | L_buf i => (1%nat, Z.of_nat i) | L_inode i => (2%nat, Z.of_nat i)
  | L_pipe p => (3%nat, p)
  end.

Definition lockid_decode (c : nat * Z) : option lockid :=
  match c with
  | (0%nat, 0) => Some L_ptable | (0%nat, 1) => Some L_tickslock
  | (0%nat, 2) => Some L_kmem | (0%nat, 3) => Some L_bcache
  | (0%nat, 4) => Some L_log | (0%nat, 5) => Some L_icache
  | (0%nat, 6) => Some L_ftable | (0%nat, 7) => Some L_idelock
  | (0%nat, 8) => Some L_cons
  | (1%nat, i) => Some (L_buf (Z.to_nat i))
  | (2%nat, i) => Some (L_inode (Z.to_nat i))
  | (3%nat, p) => Some (L_pipe p)
  | _ => None
  end.

#[export] Instance lockid_countable : Countable lockid.
Proof.
  refine (inj_countable lockid_code lockid_decode _).
  intros []; simpl; rewrite ?Nat2Z.id; reflexivity.
Defined.

(** The addresses that [sleep] and [wakeup] are called with. *)
Inductive chan :=
| CNull
| CProc (i : nat)        (* a process: [wait] *)
| CTicks                 (* [&ticks] *)
| CLog                   (* [&log] *)
| CBuf (i : nat)         (* a buffer: [iderw] *)
| CBufLock (i : nat)     (* the sleep lock of a buffer *)
| CInodeLock (i : nat)   (* the sleep lock of an inode *)
| CPipeRead (p : Z)      (* [&p->nread] *)
| CPipeWrite (p : Z)     (* [&p->nwrite] *)
| CInput.                (* [&input.r] *)

#[export] Instance chan_eq_dec : EqDecision chan.
Proof. solve_decision. Defined.

(** [struct spinlock] *)
Record spinlock := MkSpinlock {
  lk_locked : Z;
  lk_name : string;
  lk_cpu : option nat
}.

#[export] Instance set_lk_locked : Setter lk_locked := fun v r => MkSpinlock v (lk_name r)
    (lk_cpu r).
#[export] Instance set_lk_name : Setter lk_name := fun v r => MkSpinlock (lk_locked r) v (lk_cpu
    r).
#[export] Instance set_lk_cpu : Setter lk_cpu := fun v r => MkSpinlock (lk_locked r) (lk_name r)
    v.

(** [struct sleeplock]; its spin lock is named by the [lockid] of its owner *)
Record sleeplock := MkSleeplock {
  sl_locked : Z;
  sl_name : string;
  sl_pid : Z
}.

#[export] Instance set_sl_locked : Setter sl_locked := fun v r => MkSleeplock v (sl_name r)
    (sl_pid r).
#[export] Instance set_sl_name : Setter sl_name := fun v r => MkSleeplock (sl_locked r) v
    (sl_pid r).
#[export] Instance set_sl_pid : Setter sl_pid := fun v r => MkSleeplock (sl_locked r) (sl_name
    r) v.

(** ** Processors and processes *)

(** [struct segdesc] *)
Record segdesc := MkSegdesc {
  sd_lim_15_0 : Z;
  sd_base_15_0 : Z;
  sd_base_23_16 : Z;
  sd_type : Z;
  sd_s : Z;
  sd_dpl : Z;
  sd_p : Z;
  sd_lim_19_16 : Z;
  sd_avl : Z;
  sd_rsv1 : Z;
  sd_db : Z;
  sd_g : Z;
  sd_base_31_24 : Z
}.

#[export] Instance set_sd_s : Setter sd_s := fun v r => MkSegdesc (sd_lim_15_0 r) (sd_base_15_0
    r) (sd_base_23_16 r) (sd_type r) v (sd_dpl r) (sd_p r) (sd_lim_19_16 r) (sd_avl r) (sd_rsv1
    r) (sd_db r) (sd_g r) (sd_base_31_24 r).

(** [struct cpu] with the control registers the kernel sets: [c_if] is the
    interrupt flag of eflags, [c_cr3] the page-table base, [c_tr] the task
    register; [c_esp0], [c_ss0] and [c_iomb] are the fields of [ts] in use *)
Record cpu := MkCpu {
  c_apicid : Z;
  c_started : Z;
  c_ncli : Z;
  c_intena : bool;
  c_if : bool;
  c_proc : option nat;
  c_gdt : gmap Z segdesc;
  c_esp0 : Z;
  c_ss0 : Z;
  c_iomb : Z;
  c_tr : Z;
  c_cr3 : Z
}.

#[export] Instance set_c_apicid : Setter c_apicid := fun v r => MkCpu v (c_started r) (c_ncli r)
    (c_intena r) (c_if r) (c_proc r) (c_gdt r) (c_esp0 r) (c_ss0 r) (c_iomb r) (c_tr r) (c_cr3
    r).
#[export] Instance set_c_started : Setter c_started := fun v r => MkCpu (c_apicid r) v (c_ncli
    r) (c_intena r) (c_if r) (c_proc r) (c_gdt r) (c_esp0 r) (c_ss0 r) (c_iomb r) (c_tr r)
    (c_cr3 r).
#[export] Instance set_c_ncli : Setter c_ncli := fun v r => MkCpu (c_apicid r) (c_started r) v
    (c_intena r) (c_if r) (c_proc r) (c_gdt r) (c_esp0 r) (c_ss0 r) (c_iomb r) (c_tr r) (c_cr3
    r).
#[export] Instance set_c_intena : Setter c_intena := fun v r => MkCpu (c_apicid r) (c_started r)
    (c_ncli r) v (c_if r) (c_proc r) (c_gdt r) (c_esp0 r) (c_ss0 r) (c_iomb r) (c_tr r) (c_cr3
    r).
#[export] Instance set_c_if : Setter c_if := fun v r => MkCpu (c_apicid r) (c_started r) (c_ncli
    r) (c_intena r) v (c_proc r) (c_gdt r) (c_esp0 r) (c_ss0 r) (c_iomb r) (c_tr r) (c_cr3 r).
#[export] Instance set_c_proc : Setter c_proc := fun v r => MkCpu (c_apicid r) (c_started r)
    (c_ncli r) (c_intena r) (c_if r) v (c_gdt r) (c_esp0 r) (c_ss0 r) (c_iomb r) (c_tr r) (c_cr3
    r).
#[export] Instance set_c_gdt : Setter c_gdt := fun v r => MkCpu (c_apicid r) (c_started r)
    (c_ncli r) (c_intena r) (c_if r) (c_proc r) v (c_esp0 r) (c_ss0 r) (c_iomb r) (c_tr r)
    (c_cr3 r).
#[export] Instance set_c_esp0 : Setter c_esp0 := fun v r => MkCpu (c_apicid r) (c_started r)
    (c_ncli r) (c_intena r) (c_if r) (c_proc r) (c_gdt r) v (c_ss0 r) (c_iomb r) (c_tr r) (c_cr3
    r).
#[export] Instance set_c_ss0 : Setter c_ss0 := fun v r => MkCpu (c_apicid r) (c_started r)
    (c_ncli r) (c_intena r) (c_if r) (c_proc r) (c_gdt r) (c_esp0 r) v (c_iomb r) (c_tr r)
    (c_cr3 r).
#[export] Instance set_c_iomb : Setter c_iomb := fun v r => MkCpu (c_apicid r) (c_started r)
    (c_ncli r) (c_intena r) (c_if r) (c_proc r) (c_gdt r) (c_esp0 r) (c_ss0 r) v (c_tr r) (c_cr3
    r).
#[export] Instance set_c_tr : Setter c_tr := fun v r => MkCpu (c_apicid r) (c_started r) (c_ncli
    r) (c_intena r) (c_if r) (c_proc r) (c_gdt r) (c_esp0 r) (c_ss0 r) (c_iomb r) v (c_cr3 r).
#[export] Instance set_c_cr3 : Setter c_cr3 := fun v r => MkCpu (c_apicid r) (c_started r)
    (c_ncli r) (c_intena r) (c_if r) (c_proc r) (c_gdt r) (c_esp0 r) (c_ss0 r) (c_iomb r) (c_tr
    r) v.

Inductive procstate := UNUSED | EMBRYO | SLEEPING | RUNNABLE | RUNNING | ZOMBIE.

#[export] Instance procstate_eq_dec : EqDecision procstate.
Proof. solve_decision. Defined.

(** [struct proc] *)
Record proc := MkProc {
  p_sz : Z;
  p_ctime : Z;
  p_etime : Z;
  p_rtime : Z;
  p_GRT : Z;
  p_cid : Z;
  p_q3rtime : Z;
  p_q3tatime : Z;
  p_q2rtime : Z;
  p_q2tatime : Z;
  p_priority : Z;
  p_queuelevel : Z;
  p_myquantum : Z;
  p_pgdir : Z;
  p_kstack : Z;
  p_state : procstate;
  p_pid : Z;
  p_parent : option nat;
  p_tf : Z;
  p_context : Z;
  p_chan : chan;
  p_killed : Z;
  p_ofile : list (option nat);
  p_cwd : option nat;
  p_name : list Z
}.

#[export] Instance set_p_sz : Setter p_sz := fun v r => MkProc v (p_ctime r) (p_etime r)
    (p_rtime r) (p_GRT r) (p_cid r) (p_q3rtime r) (p_q3tatime r) (p_q2rtime r) (p_q2tatime r)
    (p_priority r) (p_queuelevel r) (p_myquantum r) (p_pgdir r) (p_kstack r) (p_state r) (p_pid
    r) (p_parent r) (p_tf r) (p_context r) (p_chan r) (p_killed r) (p_ofile r) (p_cwd r) (p_name
    r).
#[export] Instance set_p_ctime : Setter p_ctime := fun v r => MkProc (p_sz r) v (p_etime r)
    (p_rtime r) (p_GRT r) (p_cid r) (p_q3rtime r) (p_q3tatime r) (p_q2rtime r) (p_q2tatime r)
    (p_priority r) (p_queuelevel r) (p_myquantum r) (p_pgdir r) (p_kstack r) (p_state r) (p_pid
    r) (p_parent r) (p_tf r) (p_context r) (p_chan r) (p_killed r) (p_ofile r) (p_cwd r) (p_name
    r).
#[export] Instance set_p_etime : Setter p_etime := fun v r => MkProc (p_sz r) (p_ctime r) v
    (p_rtime r) (p_GRT r) (p_cid r) (p_q3rtime r) (p_q3tatime r) (p_q2rtime r) (p_q2tatime r)
    (p_priority r) (p_queuelevel r) (p_myquantum r) (p_pgdir r) (p_kstack r) (p_state r) (p_pid
    r) (p_parent r) (p_tf r) (p_context r) (p_chan r) (p_killed r) (p_ofile r) (p_cwd r) (p_name
    r).
#[export] Instance set_p_rtime : Setter p_rtime := fun v r => MkProc (p_sz r) (p_ctime r)
    (p_etime r) v (p_GRT r) (p_cid r) (p_q3rtime r) (p_q3tatime r) (p_q2rtime r) (p_q2tatime r)
    (p_priority r) (p_queuelevel r) (p_myquantum r) (p_pgdir r) (p_kstack r) (p_state r) (p_pid
    r) (p_parent r) (p_tf r) (p_context r) (p_chan r) (p_killed r) (p_ofile r) (p_cwd r) (p_name
    r).
#[export] Instance set_p_GRT : Setter p_GRT := fun v r => MkProc (p_sz r) (p_ctime r) (p_etime
    r) (p_rtime r) v (p_cid r) (p_q3rtime r) (p_q3tatime r) (p_q2rtime r) (p_q2tatime r)
    (p_priority r) (p_queuelevel r) (p_myquantum r) (p_pgdir r) (p_kstack r) (p_state r) (p_pid
    r) (p_parent r) (p_tf r) (p_context r) (p_chan r) (p_killed r) (p_ofile r) (p_cwd r) (p_name
    r).
#[export] Instance set_p_cid : Setter p_cid := fun v r => MkProc (p_sz r) (p_ctime r) (p_etime
    r) (p_rtime r) (p_GRT r) v (p_q3rtime r) (p_q3tatime r) (p_q2rtime r) (p_q2tatime r)
    (p_priority r) (p_queuelevel r) (p_myquantum r) (p_pgdir r) (p_kstack r) (p_state r) (p_pid
    r) (p_parent r) (p_tf r) (p_context r) (p_chan r) (p_killed r) (p_ofile r) (p_cwd r) (p_name
    r).
#[export] Instance set_p_q3rtime : Setter p_q3rtime := fun v r => MkProc (p_sz r) (p_ctime r)
    (p_etime r) (p_rtime r) (p_GRT r) (p_cid r) v (p_q3tatime r) (p_q2rtime r) (p_q2tatime r)
    (p_priority r) (p_queuelevel r) (p_myquantum r) (p_pgdir r) (p_kstack r) (p_state r) (p_pid
    r) (p_parent r) (p_tf r) (p_context r) (p_chan r) (p_killed r) (p_ofile r) (p_cwd r) (p_name
    r).
#[export] Instance set_p_q3tatime : Setter p_q3tatime := fun v r => MkProc (p_sz r) (p_ctime r)
    (p_etime r) (p_rtime r) (p_GRT r) (p_cid r) (p_q3rtime r) v (p_q2rtime r) (p_q2tatime r)
    (p_priority r) (p_queuelevel r) (p_myquantum r) (p_pgdir r) (p_kstack r) (p_state r) (p_pid
    r) (p_parent r) (p_tf r) (p_context r) (p_chan r) (p_killed r) (p_ofile r) (p_cwd r) (p_name
    r).
#[export] Instance set_p_q2rtime : Setter p_q2rtime := fun v r => MkProc (p_sz r) (p_ctime r)
    (p_etime r) (p_rtime r) (p_GRT r) (p_cid r) (p_q3rtime r) (p_q3tatime r) v (p_q2tatime r)
    (p_priority r) (p_queuelevel r) (p_myquantum r) (p_pgdir r) (p_kstack r) (p_state r) (p_pid
    r) (p_parent r) (p_tf r) (p_context r) (p_chan r) (p_killed r) (p_ofile r) (p_cwd r) (p_name
    r).
#[export] Instance set_p_q2tatime : Setter p_q2tatime := fun v r => MkProc (p_sz r) (p_ctime r)
    (p_etime r) (p_rtime r) (p_GRT r) (p_cid r) (p_q3rtime r) (p_q3tatime r) (p_q2rtime r) v
    (p_priority r) (p_queuelevel r) (p_myquantum r) (p_pgdir r) (p_kstack r) (p_state r) (p_pid
    r) (p_parent r) (p_tf r) (p_context r) (p_chan r) (p_killed r) (p_ofile r) (p_cwd r) (p_name
    r).
#[export] Instance set_p_priority : Setter p_priority := fun v r => MkProc (p_sz r) (p_ctime r)
    (p_etime r) (p_rtime r) (p_GRT r) (p_cid r) (p_q3rtime r) (p_q3tatime r) (p_q2rtime r)
    (p_q2tatime r) v (p_queuelevel r) (p_myquantum r) (p_pgdir r) (p_kstack r) (p_state r)
    (p_pid r) (p_parent r) (p_tf r) (p_context r) (p_chan r) (p_killed r) (p_ofile r) (p_cwd r)
    (p_name r).
#[export] Instance set_p_queuelevel : Setter p_queuelevel := fun v r => MkProc (p_sz r) (p_ctime
    r) (p_etime r) (p_rtime r) (p_GRT r) (p_cid r) (p_q3rtime r) (p_q3tatime r) (p_q2rtime r)
    (p_q2tatime r) (p_priority r) v (p_myquantum r) (p_pgdir r) (p_kstack r) (p_state r) (p_pid
    r) (p_parent r) (p_tf r) (p_context r) (p_chan r) (p_killed r) (p_ofile r) (p_cwd r) (p_name
    r).
#[export] Instance set_p_myquantum : Setter p_myquantum := fun v r => MkProc (p_sz r) (p_ctime
    r) (p_etime r) (p_rtime r) (p_GRT r) (p_cid r) (p_q3rtime r) (p_q3tatime r) (p_q2rtime r)
    (p_q2tatime r) (p_priority r) (p_queuelevel r) v (p_pgdir r) (p_kstack r) (p_state r) (p_pid
    r) (p_parent r) (p_tf r) (p_context r) (p_chan r) (p_killed r) (p_ofile r) (p_cwd r) (p_name
    r).
#[export] Instance set_p_pgdir : Setter p_pgdir := fun v r => MkProc (p_sz r) (p_ctime r)
    (p_etime r) (p_rtime r) (p_GRT r) (p_cid r) (p_q3rtime r) (p_q3tatime r) (p_q2rtime r)
    (p_q2tatime r) (p_priority r) (p_queuelevel r) (p_myquantum r) v (p_kstack r) (p_state r)
    (p_pid r) (p_parent r) (p_tf r) (p_context r) (p_chan r) (p_killed r) (p_ofile r) (p_cwd r)
    (p_name r).
#[export] Instance set_p_kstack : Setter p_kstack := fun v r => MkProc (p_sz r) (p_ctime r)
    (p_etime r) (p_rtime r) (p_GRT r) (p_cid r) (p_q3rtime r) (p_q3tatime r) (p_q2rtime r)
    (p_q2tatime r) (p_priority r) (p_queuelevel r) (p_myquantum r) (p_pgdir r) v (p_state r)
    (p_pid r) (p_parent r) (p_tf r) (p_context r) (p_chan r) (p_killed r) (p_ofile r) (p_cwd r)
    (p_name r).
#[export] Instance set_p_state : Setter p_state := fun v r => MkProc (p_sz r) (p_ctime r)
    (p_etime r) (p_rtime r) (p_GRT r) (p_cid r) (p_q3rtime r) (p_q3tatime r) (p_q2rtime r)
    (p_q2tatime r) (p_priority r) (p_queuelevel r) (p_myquantum r) (p_pgdir r) (p_kstack r) v
    (p_pid r) (p_parent r) (p_tf r) (p_context r) (p_chan r) (p_killed r) (p_ofile r) (p_cwd r)
    (p_name r).
#[export] Instance set_p_pid : Setter p_pid := fun v r => MkProc (p_sz r) (p_ctime r) (p_etime
    r) (p_rtime r) (p_GRT r) (p_cid r) (p_q3rtime r) (p_q3tatime r) (p_q2rtime r) (p_q2tatime r)
    (p_priority r) (p_queuelevel r) (p_myquantum r) (p_pgdir r) (p_kstack r) (p_state r) v
    (p_parent r) (p_tf r) (p_context r) (p_chan r) (p_killed r) (p_ofile r) (p_cwd r) (p_name
    r).
#[export] Instance set_p_parent : Setter p_parent := fun v r => MkProc (p_sz r) (p_ctime r)
    (p_etime r) (p_rtime r) (p_GRT r) (p_cid r) (p_q3rtime r) (p_q3tatime r) (p_q2rtime r)
    (p_q2tatime r) (p_priority r) (p_queuelevel r) (p_myquantum r) (p_pgdir r) (p_kstack r)
    (p_state r) (p_pid r) v (p_tf r) (p_context r) (p_chan r) (p_killed r) (p_ofile r) (p_cwd r)
    (p_name r).
#[export] Instance set_p_tf : Setter p_tf := fun v r => MkProc (p_sz r) (p_ctime r) (p_etime r)
    (p_rtime r) (p_GRT r) (p_cid r) (p_q3rtime r) (p_q3tatime r) (p_q2rtime r) (p_q2tatime r)
    (p_priority r) (p_queuelevel r) (p_myquantum r) (p_pgdir r) (p_kstack r) (p_state r) (p_pid
    r) (p_parent r) v (p_context r) (p_chan r) (p_killed r) (p_ofile r) (p_cwd r) (p_name r).
#[export] Instance set_p_context : Setter p_context := fun v r => MkProc (p_sz r) (p_ctime r)
    (p_etime r) (p_rtime r) (p_GRT r) (p_cid r) (p_q3rtime r) (p_q3tatime r) (p_q2rtime r)
    (p_q2tatime r) (p_priority r) (p_queuelevel r) (p_myquantum r) (p_pgdir r) (p_kstack r)
    (p_state r) (p_pid r) (p_parent r) (p_tf r) v (p_chan r) (p_killed r) (p_ofile r) (p_cwd r)
    (p_name r).
#[export] Instance set_p_chan : Setter p_chan := fun v r => MkProc (p_sz r) (p_ctime r) (p_etime
    r) (p_rtime r) (p_GRT r) (p_cid r) (p_q3rtime r) (p_q3tatime r) (p_q2rtime r) (p_q2tatime r)
    (p_priority r) (p_queuelevel r) (p_myquantum r) (p_pgdir r) (p_kstack r) (p_state r) (p_pid
    r) (p_parent r) (p_tf r) (p_context r) v (p_killed r) (p_ofile r) (p_cwd r) (p_name r).
#[export] Instance set_p_killed : Setter p_killed := fun v r => MkProc (p_sz r) (p_ctime r)
    (p_etime r) (p_rtime r) (p_GRT r) (p_cid r) (p_q3rtime r) (p_q3tatime r) (p_q2rtime r)
    (p_q2tatime r) (p_priority r) (p_queuelevel r) (p_myquantum r) (p_pgdir r) (p_kstack r)
    (p_state r) (p_pid r) (p_parent r) (p_tf r) (p_context r) (p_chan r) v (p_ofile r) (p_cwd r)
    (p_name r).
#[export] Instance set_p_ofile : Setter p_ofile := fun v r => MkProc (p_sz r) (p_ctime r)
    (p_etime r) (p_rtime r) (p_GRT r) (p_cid r) (p_q3rtime r) (p_q3tatime r) (p_q2rtime r)
    (p_q2tatime r) (p_priority r) (p_queuelevel r) (p_myquantum r) (p_pgdir r) (p_kstack r)
    (p_state r) (p_pid r) (p_parent r) (p_tf r) (p_context r) (p_chan r) (p_killed r) v (p_cwd
    r) (p_name r).
#[export] Instance set_p_cwd : Setter p_cwd := fun v r => MkProc (p_sz r) (p_ctime r) (p_etime
    r) (p_rtime r) (p_GRT r) (p_cid r) (p_q3rtime r) (p_q3tatime r) (p_q2rtime r) (p_q2tatime r)
    (p_priority r) (p_queuelevel r) (p_myquantum r) (p_pgdir r) (p_kstack r) (p_state r) (p_pid
    r) (p_parent r) (p_tf r) (p_context r) (p_chan r) (p_killed r) (p_ofile r) v (p_name r).
#[export] Instance set_p_name : Setter p_name := fun v r => MkProc (p_sz r) (p_ctime r) (p_etime
    r) (p_rtime r) (p_GRT r) (p_cid r) (p_q3rtime r) (p_q3tatime r) (p_q2rtime r) (p_q2tatime r)
    (p_priority r) (p_queuelevel r) (p_myquantum r) (p_pgdir r) (p_kstack r) (p_state r) (p_pid
    r) (p_parent r) (p_tf r) (p_context r) (p_chan r) (p_killed r) (p_ofile r) (p_cwd r) v.

(** A process-table slot as the loader leaves it (the table is in bss). *)
Definition proc_zero : proc :=
  MkProc 0 0 0 0 0 0 0 0 0 0 0 0 0 0 0 UNUSED 0 None 0 0 CNull 0
    (replicate NOFILE None) None (replicate 16 0).

(** ** Files *)

(** [struct buf]; [b_prev] and [b_next] are buffer indices, [NBUF] for the list
    head [bcache.head] *)
Record buf := MkBuf {
  b_flags : Z;
  b_dev : Z;
  b_blockno : Z;
  b_lock : sleeplock;
  b_refcnt : Z;
  b_prev : nat;
  b_next : nat;
  b_qnext : option nat;
  b_data : list Z
}.

#[export] Instance set_b_flags : Setter b_flags := fun v r => MkBuf v (b_dev r) (b_blockno r)
    (b_lock r) (b_refcnt r) (b_prev r) (b_next r) (b_qnext r) (b_data r).
#[export] Instance set_b_dev : Setter b_dev := fun v r => MkBuf (b_flags r) v (b_blockno r)
    (b_lock r) (b_refcnt r) (b_prev r) (b_next r) (b_qnext r) (b_data r).
#[export] Instance set_b_blockno : Setter b_blockno := fun v r => MkBuf (b_flags r) (b_dev r) v
    (b_lock r) (b_refcnt r) (b_prev r) (b_next r) (b_qnext r) (b_data r).
#[export] Instance set_b_lock : Setter b_lock := fun v r => MkBuf (b_flags r) (b_dev r)
    (b_blockno r) v (b_refcnt r) (b_prev r) (b_next r) (b_qnext r) (b_data r).
#[export] Instance set_b_refcnt : Setter b_refcnt := fun v r => MkBuf (b_flags r) (b_dev r)
    (b_blockno r) (b_lock r) v (b_prev r) (b_next r) (b_qnext r) (b_data r).
#[export] Instance set_b_prev : Setter b_prev := fun v r => MkBuf (b_flags r) (b_dev r)
    (b_blockno r) (b_lock r) (b_refcnt r) v (b_next r) (b_qnext r) (b_data r).
#[export] Instance set_b_next : Setter b_next := fun v r => MkBuf (b_flags r) (b_dev r)
    (b_blockno r) (b_lock r) (b_refcnt r) (b_prev r) v (b_qnext r) (b_data r).
#[export] Instance set_b_qnext : Setter b_qnext := fun v r => MkBuf (b_flags r) (b_dev r)
    (b_blockno r) (b_lock r) (b_refcnt r) (b_prev r) (b_next r) v (b_data r).
#[export] Instance set_b_data : Setter b_data := fun v r => MkBuf (b_flags r) (b_dev r)
    (b_blockno r) (b_lock r) (b_refcnt r) (b_prev r) (b_next r) (b_qnext r) v.

(** [struct logheader] of [log.c] *)
Record logheader := MkLogheader {
  lh_n : Z;
  lh_block : list Z
}.

#[export] Instance set_lh_n : Setter lh_n := fun v r => MkLogheader v (lh_block r).
#[export] Instance set_lh_block : Setter lh_block := fun v r => MkLogheader (lh_n r) v.

(** [struct log] of [log.c] *)
Record logstate := MkLog {
  log_start : Z;
  log_size : Z;
  log_outstanding : Z;
  log_committing : Z;
  log_dev : Z;
  log_lh : logheader
}.

#[export] Instance set_log_start : Setter log_start := fun v r => MkLog v (log_size r)
    (log_outstanding r) (log_committing r) (log_dev r) (log_lh r).
#[export] Instance set_log_size : Setter log_size := fun v r => MkLog (log_start r) v
    (log_outstanding r) (log_committing r) (log_dev r) (log_lh r).
#[export] Instance set_log_outstanding : Setter log_outstanding := fun v r => MkLog (log_start
    r) (log_size r) v (log_committing r) (log_dev r) (log_lh r).
#[export] Instance set_log_committing : Setter log_committing := fun v r => MkLog (log_start r)
    (log_size r) (log_outstanding r) v (log_dev r) (log_lh r).
#[export] Instance set_log_dev : Setter log_dev := fun v r => MkLog (log_start r) (log_size r)
    (log_outstanding r) (log_committing r) v (log_lh r).
#[export] Instance set_log_lh : Setter log_lh := fun v r => MkLog (log_start r) (log_size r)
    (log_outstanding r) (log_committing r) (log_dev r) v.

(** [struct superblock] *)
Record superblock := MkSuperblock {
  sb_size : Z;
  sb_nblocks : Z;
  sb_ninodes : Z;
  sb_nlog : Z;
  sb_logstart : Z;
  sb_inodestart : Z;
  sb_bmapstart : Z
}.


(** [struct inode] *)
Record inode := MkInode {
  i_dev : Z;
  i_inum : Z;
  i_ref : Z;
  i_lock : sleeplock;
  i_flags : Z;
  i_type : Z;
  i_major : Z;
  i_minor : Z;
  i_nlink : Z;
  i_size : Z;
  i_addrs : list Z
}.

#[export] Instance set_i_dev : Setter i_dev := fun v r => MkInode v (i_inum r) (i_ref r) (i_lock
    r) (i_flags r) (i_type r) (i_major r) (i_minor r) (i_nlink r) (i_size r) (i_addrs r).
#[export] Instance set_i_inum : Setter i_inum := fun v r => MkInode (i_dev r) v (i_ref r)
    (i_lock r) (i_flags r) (i_type r) (i_major r) (i_minor r) (i_nlink r) (i_size r) (i_addrs
    r).
#[export] Instance set_i_ref : Setter i_ref := fun v r => MkInode (i_dev r) (i_inum r) v (i_lock
    r) (i_flags r) (i_type r) (i_major r) (i_minor r) (i_nlink r) (i_size r) (i_addrs r).
#[export] Instance set_i_lock : Setter i_lock := fun v r => MkInode (i_dev r) (i_inum r) (i_ref
    r) v (i_flags r) (i_type r) (i_major r) (i_minor r) (i_nlink r) (i_size r) (i_addrs r).
#[export] Instance set_i_flags : Setter i_flags := fun v r => MkInode (i_dev r) (i_inum r)
    (i_ref r) (i_lock r) v (i_type r) (i_major r) (i_minor r) (i_nlink r) (i_size r) (i_addrs
    r).
#[export] Instance set_i_type : Setter i_type := fun v r => MkInode (i_dev r) (i_inum r) (i_ref
    r) (i_lock r) (i_flags r) v (i_major r) (i_minor r) (i_nlink r) (i_size r) (i_addrs r).
#[export] Instance set_i_major : Setter i_major := fun v r => MkInode (i_dev r) (i_inum r)
    (i_ref r) (i_lock r) (i_flags r) (i_type r) v (i_minor r) (i_nlink r) (i_size r) (i_addrs
    r).
#[export] Instance set_i_minor : Setter i_minor := fun v r => MkInode (i_dev r) (i_inum r)
    (i_ref r) (i_lock r) (i_flags r) (i_type r) (i_major r) v (i_nlink r) (i_size r) (i_addrs
    r).
#[export] Instance set_i_nlink : Setter i_nlink := fun v r => MkInode (i_dev r) (i_inum r)
    (i_ref r) (i_lock r) (i_flags r) (i_type r) (i_major r) (i_minor r) v (i_size r) (i_addrs
    r).
#[export] Instance set_i_size : Setter i_size := fun v r => MkInode (i_dev r) (i_inum r) (i_ref
    r) (i_lock r) (i_flags r) (i_type r) (i_major r) (i_minor r) (i_nlink r) v (i_addrs r).
#[export] Instance set_i_addrs : Setter i_addrs := fun v r => MkInode (i_dev r) (i_inum r)
    (i_ref r) (i_lock r) (i_flags r) (i_type r) (i_major r) (i_minor r) (i_nlink r) (i_size r)
    v.

Inductive filetype := FD_NONE | FD_PIPE | FD_INODE.

(** [struct file] *)
Record file := MkFile {
  f_type : filetype;
  f_ref : Z;
  f_readable : Z;
  f_writable : Z;
  f_pipe : Z;
  f_ip : option nat;
  f_off : Z
}.

#[export] Instance set_f_type : Setter f_type := fun v r => MkFile v (f_ref r) (f_readable r)
    (f_writable r) (f_pipe r) (f_ip r) (f_off r).
#[export] Instance set_f_ref : Setter f_ref := fun v r => MkFile (f_type r) v (f_readable r)
    (f_writable r) (f_pipe r) (f_ip r) (f_off r).
#[export] Instance set_f_readable : Setter f_readable := fun v r => MkFile (f_type r) (f_ref r)
    v (f_writable r) (f_pipe r) (f_ip r) (f_off r).
#[export] Instance set_f_writable : Setter f_writable := fun v r => MkFile (f_type r) (f_ref r)
    (f_readable r) v (f_pipe r) (f_ip r) (f_off r).
#[export] Instance set_f_pipe : Setter f_pipe := fun v r => MkFile (f_type r) (f_ref r)
    (f_readable r) (f_writable r) v (f_ip r) (f_off r).
#[export] Instance set_f_ip : Setter f_ip := fun v r => MkFile (f_type r) (f_ref r) (f_readable
    r) (f_writable r) (f_pipe r) v (f_off r).
#[export] Instance set_f_off : Setter f_off := fun v r => MkFile (f_type r) (f_ref r)
    (f_readable r) (f_writable r) (f_pipe r) (f_ip r) v.

(** [struct pipe] of [pipe.c] *)
Record pipe := MkPipe {
  pi_data : list Z;
  pi_nread : Z;
  pi_nwrite : Z;
  pi_readopen : Z;
  pi_writeopen : Z
}.

#[export] Instance set_pi_data : Setter pi_data := fun v r => MkPipe v (pi_nread r) (pi_nwrite
    r) (pi_readopen r) (pi_writeopen r).
#[export] Instance set_pi_nread : Setter pi_nread := fun v r => MkPipe (pi_data r) v (pi_nwrite
    r) (pi_readopen r) (pi_writeopen r).
#[export] Instance set_pi_nwrite : Setter pi_nwrite := fun v r => MkPipe (pi_data r) (pi_nread
    r) v (pi_readopen r) (pi_writeopen r).
#[export] Instance set_pi_readopen : Setter pi_readopen := fun v r => MkPipe (pi_data r)
    (pi_nread r) (pi_nwrite r) v (pi_writeopen r).
#[export] Instance set_pi_writeopen : Setter pi_writeopen := fun v r => MkPipe (pi_data r)
    (pi_nread r) (pi_nwrite r) (pi_readopen r) v.

(** ** The console *)

(** The static variables of [console.c] and [uart.c] ([cons], [panicked],
    [input], [uart]) with what the devices hold: the cursor register and the
    cells of the CGA screen, and the bytes sent to the serial port so far *)
Record console := MkConsole {
  cons_locking : Z;
  cons_panicked : Z;
  crt_pos : Z;
  crt_mem : gmap Z Z;
  uart : Z;
  uart_out : list Z;
  input_buf : list Z;
  input_r : Z;
  input_w : Z;
  input_e : Z
}.

#[export] Instance set_cons_locking : Setter cons_locking := fun v r => MkConsole v
    (cons_panicked r) (crt_pos r) (crt_mem r) (uart r) (uart_out r) (input_buf r) (input_r r)
    (input_w r) (input_e r).
#[export] Instance set_cons_panicked : Setter cons_panicked := fun v r => MkConsole
    (cons_locking r) v (crt_pos r) (crt_mem r) (uart r) (uart_out r) (input_buf r) (input_r r)
    (input_w r) (input_e r).
#[export] Instance set_crt_pos : Setter crt_pos := fun v r => MkConsole (cons_locking r)
    (cons_panicked r) v (crt_mem r) (uart r) (uart_out r) (input_buf r) (input_r r) (input_w r)
    (input_e r).
#[export] Instance set_crt_mem : Setter crt_mem := fun v r => MkConsole (cons_locking r)
    (cons_panicked r) (crt_pos r) v (uart r) (uart_out r) (input_buf r) (input_r r) (input_w r)
    (input_e r).
#[export] Instance set_uart : Setter uart := fun v r => MkConsole (cons_locking r)
    (cons_panicked r) (crt_pos r) (crt_mem r) v (uart_out r) (input_buf r) (input_r r) (input_w
    r) (input_e r).
#[export] Instance set_uart_out : Setter uart_out := fun v r => MkConsole (cons_locking r)
    (cons_panicked r) (crt_pos r) (crt_mem r) (uart r) v (input_buf r) (input_r r) (input_w r)
    (input_e r).
#[export] Instance set_input_buf : Setter input_buf := fun v r => MkConsole (cons_locking r)
    (cons_panicked r) (crt_pos r) (crt_mem r) (uart r) (uart_out r) v (input_r r) (input_w r)
    (input_e r).
#[export] Instance set_input_r : Setter input_r := fun v r => MkConsole (cons_locking r)
    (cons_panicked r) (crt_pos r) (crt_mem r) (uart r) (uart_out r) (input_buf r) v (input_w r)
    (input_e r).
#[export] Instance set_input_w : Setter input_w := fun v r => MkConsole (cons_locking r)
    (cons_panicked r) (crt_pos r) (crt_mem r) (uart r) (uart_out r) (input_buf r) (input_r r) v
    (input_e r).
#[export] Instance set_input_e : Setter input_e := fun v r => MkConsole (cons_locking r)
    (cons_panicked r) (crt_pos r) (crt_mem r) (uart r) (uart_out r) (input_buf r) (input_r r)
    (input_w r) v.

(** ** The kernel state *)

(** [struct devsw]: the pair of functions of a device; the console is the
    only device that sets one. *)
Inductive devops := DevConsole.

(** The global variables of the kernel.  [k_cpunum] is the processor that
    executes; [k_mem] the bytes of physical memory by their kernel virtual
    address; [k_pipes] the contents of the pages that hold pipes; [k_disk] the
    blocks of the disks by device and block number; [k_devsw] the entries of
    [devsw] that are set; [k_ports] the last byte written to each I/O port;
    [k_writes] the history of the writes to the disks, oldest first (what a
    crash can cut short; no variable of the kernel); [k_strategy] the variable
    [strategy] that [proc.c] and [trap.c] read and no file defines; [k_shift] the
    variable [shift] of [kbdgetc]; the last six are the variables of the
    interrupt controllers and of mp.c *)
Record kernel := MkKernel {
  k_cpunum : nat;
  k_cpus : list cpu;
  k_locks : gmap lockid spinlock;
  k_strategy : Z;
  k_ticks : Z;
  k_procs : list proc;
  k_initproc : option nat;
  k_nextpid : Z;
  k_first : Z;
  k_mem : gmap Z Z;
  k_use_lock : Z;
  k_freelist : Z;
  k_kpgdir : Z;
  k_cons : console;
  k_disk : gmap (Z * Z) (list Z);
  k_idequeue : option nat;
  k_havedisk1 : Z;
  k_bufs : list buf;
  k_bhead : nat * nat;
  k_log : logstate;
  k_sb : superblock;
  k_inodes : list inode;
  k_files : list file;
  k_pipes : gmap Z pipe;
  k_devsw : gmap Z devops;
  k_ports : gmap Z Z;
  k_writes : list (Z * Z * list Z);
  k_shift : Z;
  k_lapic : Z;
  k_ioapic : Z;
  k_ismp : Z;
  k_ncpu : Z;
  k_ioapicid : Z;
  k_irqmask : Z
}.

#[export] Instance set_k_cpunum : Setter k_cpunum := fun v r => MkKernel v (k_cpus r) (k_locks
    r) (k_strategy r) (k_ticks r) (k_procs r) (k_initproc r) (k_nextpid r) (k_first r) (k_mem r)
    (k_use_lock r) (k_freelist r) (k_kpgdir r) (k_cons r) (k_disk r) (k_idequeue r) (k_havedisk1
    r) (k_bufs r) (k_bhead r) (k_log r) (k_sb r) (k_inodes r) (k_files r) (k_pipes r) (k_devsw
    r) (k_ports r) (k_writes r) (k_shift r) (k_lapic r) (k_ioapic r) (k_ismp r) (k_ncpu r)
    (k_ioapicid r) (k_irqmask r).
#[export] Instance set_k_cpus : Setter k_cpus := fun v r => MkKernel (k_cpunum r) v (k_locks r)
    (k_strategy r) (k_ticks r) (k_procs r) (k_initproc r) (k_nextpid r) (k_first r) (k_mem r)
    (k_use_lock r) (k_freelist r) (k_kpgdir r) (k_cons r) (k_disk r) (k_idequeue r) (k_havedisk1
    r) (k_bufs r) (k_bhead r) (k_log r) (k_sb r) (k_inodes r) (k_files r) (k_pipes r) (k_devsw
    r) (k_ports r) (k_writes r) (k_shift r) (k_lapic r) (k_ioapic r) (k_ismp r) (k_ncpu r)
    (k_ioapicid r) (k_irqmask r).
#[export] Instance set_k_locks : Setter k_locks := fun v r => MkKernel (k_cpunum r) (k_cpus r) v
    (k_strategy r) (k_ticks r) (k_procs r) (k_initproc r) (k_nextpid r) (k_first r) (k_mem r)
    (k_use_lock r) (k_freelist r) (k_kpgdir r) (k_cons r) (k_disk r) (k_idequeue r) (k_havedisk1
    r) (k_bufs r) (k_bhead r) (k_log r) (k_sb r) (k_inodes r) (k_files r) (k_pipes r) (k_devsw
    r) (k_ports r) (k_writes r) (k_shift r) (k_lapic r) (k_ioapic r) (k_ismp r) (k_ncpu r)
    (k_ioapicid r) (k_irqmask r).
#[export] Instance set_k_strategy : Setter k_strategy := fun v r => MkKernel (k_cpunum r)
    (k_cpus r) (k_locks r) v (k_ticks r) (k_procs r) (k_initproc r) (k_nextpid r) (k_first r)
    (k_mem r) (k_use_lock r) (k_freelist r) (k_kpgdir r) (k_cons r) (k_disk r) (k_idequeue r)
    (k_havedisk1 r) (k_bufs r) (k_bhead r) (k_log r) (k_sb r) (k_inodes r) (k_files r) (k_pipes
    r) (k_devsw r) (k_ports r) (k_writes r) (k_shift r) (k_lapic r) (k_ioapic r) (k_ismp r)
    (k_ncpu r) (k_ioapicid r) (k_irqmask r).
#[export] Instance set_k_ticks : Setter k_ticks := fun v r => MkKernel (k_cpunum r) (k_cpus r)
    (k_locks r) (k_strategy r) v (k_procs r) (k_initproc r) (k_nextpid r) (k_first r) (k_mem r)
    (k_use_lock r) (k_freelist r) (k_kpgdir r) (k_cons r) (k_disk r) (k_idequeue r) (k_havedisk1
    r) (k_bufs r) (k_bhead r) (k_log r) (k_sb r) (k_inodes r) (k_files r) (k_pipes r) (k_devsw
    r) (k_ports r) (k_writes r) (k_shift r) (k_lapic r) (k_ioapic r) (k_ismp r) (k_ncpu r)
    (k_ioapicid r) (k_irqmask r).
#[export] Instance set_k_procs : Setter k_procs := fun v r => MkKernel (k_cpunum r) (k_cpus r)
    (k_locks r) (k_strategy r) (k_ticks r) v (k_initproc r) (k_nextpid r) (k_first r) (k_mem r)
    (k_use_lock r) (k_freelist r) (k_kpgdir r) (k_cons r) (k_disk r) (k_idequeue r) (k_havedisk1
    r) (k_bufs r) (k_bhead r) (k_log r) (k_sb r) (k_inodes r) (k_files r) (k_pipes r) (k_devsw
    r) (k_ports r) (k_writes r) (k_shift r) (k_lapic r) (k_ioapic r) (k_ismp r) (k_ncpu r)
    (k_ioapicid r) (k_irqmask r).
#[export] Instance set_k_initproc : Setter k_initproc := fun v r => MkKernel (k_cpunum r)
    (k_cpus r) (k_locks r) (k_strategy r) (k_ticks r) (k_procs r) v (k_nextpid r) (k_first r)
    (k_mem r) (k_use_lock r) (k_freelist r) (k_kpgdir r) (k_cons r) (k_disk r) (k_idequeue r)
    (k_havedisk1 r) (k_bufs r) (k_bhead r) (k_log r) (k_sb r) (k_inodes r) (k_files r) (k_pipes
    r) (k_devsw r) (k_ports r) (k_writes r) (k_shift r) (k_lapic r) (k_ioapic r) (k_ismp r)
    (k_ncpu r) (k_ioapicid r) (k_irqmask r).
#[export] Instance set_k_nextpid : Setter k_nextpid := fun v r => MkKernel (k_cpunum r) (k_cpus
    r) (k_locks r) (k_strategy r) (k_ticks r) (k_procs r) (k_initproc r) v (k_first r) (k_mem r)
    (k_use_lock r) (k_freelist r) (k_kpgdir r) (k_cons r) (k_disk r) (k_idequeue r) (k_havedisk1
    r) (k_bufs r) (k_bhead r) (k_log r) (k_sb r) (k_inodes r) (k_files r) (k_pipes r) (k_devsw
    r) (k_ports r) (k_writes r) (k_shift r) (k_lapic r) (k_ioapic r) (k_ismp r) (k_ncpu r)
    (k_ioapicid r) (k_irqmask r).
#[export] Instance set_k_first : Setter k_first := fun v r => MkKernel (k_cpunum r) (k_cpus r)
    (k_locks r) (k_strategy r) (k_ticks r) (k_procs r) (k_initproc r) (k_nextpid r) v (k_mem r)
    (k_use_lock r) (k_freelist r) (k_kpgdir r) (k_cons r) (k_disk r) (k_idequeue r) (k_havedisk1
    r) (k_bufs r) (k_bhead r) (k_log r) (k_sb r) (k_inodes r) (k_files r) (k_pipes r) (k_devsw
    r) (k_ports r) (k_writes r) (k_shift r) (k_lapic r) (k_ioapic r) (k_ismp r) (k_ncpu r)
    (k_ioapicid r) (k_irqmask r).
#[export] Instance set_k_mem : Setter k_mem := fun v r => MkKernel (k_cpunum r) (k_cpus r)
    (k_locks r) (k_strategy r) (k_ticks r) (k_procs r) (k_initproc r) (k_nextpid r) (k_first r)
    v (k_use_lock r) (k_freelist r) (k_kpgdir r) (k_cons r) (k_disk r) (k_idequeue r)
    (k_havedisk1 r) (k_bufs r) (k_bhead r) (k_log r) (k_sb r) (k_inodes r) (k_files r) (k_pipes
    r) (k_devsw r) (k_ports r) (k_writes r) (k_shift r) (k_lapic r) (k_ioapic r) (k_ismp r)
    (k_ncpu r) (k_ioapicid r) (k_irqmask r).
#[export] Instance set_k_use_lock : Setter k_use_lock := fun v r => MkKernel (k_cpunum r)
    (k_cpus r) (k_locks r) (k_strategy r) (k_ticks r) (k_procs r) (k_initproc r) (k_nextpid r)
    (k_first r) (k_mem r) v (k_freelist r) (k_kpgdir r) (k_cons r) (k_disk r) (k_idequeue r)
    (k_havedisk1 r) (k_bufs r) (k_bhead r) (k_log r) (k_sb r) (k_inodes r) (k_files r) (k_pipes
    r) (k_devsw r) (k_ports r) (k_writes r) (k_shift r) (k_lapic r) (k_ioapic r) (k_ismp r)
    (k_ncpu r) (k_ioapicid r) (k_irqmask r).
#[export] Instance set_k_freelist : Setter k_freelist := fun v r => MkKernel (k_cpunum r)
    (k_cpus r) (k_locks r) (k_strategy r) (k_ticks r) (k_procs r) (k_initproc r) (k_nextpid r)
    (k_first r) (k_mem r) (k_use_lock r) v (k_kpgdir r) (k_cons r) (k_disk r) (k_idequeue r)
    (k_havedisk1 r) (k_bufs r) (k_bhead r) (k_log r) (k_sb r) (k_inodes r) (k_files r) (k_pipes
    r) (k_devsw r) (k_ports r) (k_writes r) (k_shift r) (k_lapic r) (k_ioapic r) (k_ismp r)
    (k_ncpu r) (k_ioapicid r) (k_irqmask r).
#[export] Instance set_k_kpgdir : Setter k_kpgdir := fun v r => MkKernel (k_cpunum r) (k_cpus r)
    (k_locks r) (k_strategy r) (k_ticks r) (k_procs r) (k_initproc r) (k_nextpid r) (k_first r)
    (k_mem r) (k_use_lock r) (k_freelist r) v (k_cons r) (k_disk r) (k_idequeue r) (k_havedisk1
    r) (k_bufs r) (k_bhead r) (k_log r) (k_sb r) (k_inodes r) (k_files r) (k_pipes r) (k_devsw
    r) (k_ports r) (k_writes r) (k_shift r) (k_lapic r) (k_ioapic r) (k_ismp r) (k_ncpu r)
    (k_ioapicid r) (k_irqmask r).
#[export] Instance set_k_cons : Setter k_cons := fun v r => MkKernel (k_cpunum r) (k_cpus r)
    (k_locks r) (k_strategy r) (k_ticks r) (k_procs r) (k_initproc r) (k_nextpid r) (k_first r)
    (k_mem r) (k_use_lock r) (k_freelist r) (k_kpgdir r) v (k_disk r) (k_idequeue r)
    (k_havedisk1 r) (k_bufs r) (k_bhead r) (k_log r) (k_sb r) (k_inodes r) (k_files r) (k_pipes
    r) (k_devsw r) (k_ports r) (k_writes r) (k_shift r) (k_lapic r) (k_ioapic r) (k_ismp r)
    (k_ncpu r) (k_ioapicid r) (k_irqmask r).
#[export] Instance set_k_disk : Setter k_disk := fun v r => MkKernel (k_cpunum r) (k_cpus r)
    (k_locks r) (k_strategy r) (k_ticks r) (k_procs r) (k_initproc r) (k_nextpid r) (k_first r)
    (k_mem r) (k_use_lock r) (k_freelist r) (k_kpgdir r) (k_cons r) v (k_idequeue r)
    (k_havedisk1 r) (k_bufs r) (k_bhead r) (k_log r) (k_sb r) (k_inodes r) (k_files r) (k_pipes
    r) (k_devsw r) (k_ports r) (k_writes r) (k_shift r) (k_lapic r) (k_ioapic r) (k_ismp r)
    (k_ncpu r) (k_ioapicid r) (k_irqmask r).
#[export] Instance set_k_idequeue : Setter k_idequeue := fun v r => MkKernel (k_cpunum r)
    (k_cpus r) (k_locks r) (k_strategy r) (k_ticks r) (k_procs r) (k_initproc r) (k_nextpid r)
    (k_first r) (k_mem r) (k_use_lock r) (k_freelist r) (k_kpgdir r) (k_cons r) (k_disk r) v
    (k_havedisk1 r) (k_bufs r) (k_bhead r) (k_log r) (k_sb r) (k_inodes r) (k_files r) (k_pipes
    r) (k_devsw r) (k_ports r) (k_writes r) (k_shift r) (k_lapic r) (k_ioapic r) (k_ismp r)
    (k_ncpu r) (k_ioapicid r) (k_irqmask r).
#[export] Instance set_k_havedisk1 : Setter k_havedisk1 := fun v r => MkKernel (k_cpunum r)
    (k_cpus r) (k_locks r) (k_strategy r) (k_ticks r) (k_procs r) (k_initproc r) (k_nextpid r)
    (k_first r) (k_mem r) (k_use_lock r) (k_freelist r) (k_kpgdir r) (k_cons r) (k_disk r)
    (k_idequeue r) v (k_bufs r) (k_bhead r) (k_log r) (k_sb r) (k_inodes r) (k_files r) (k_pipes
    r) (k_devsw r) (k_ports r) (k_writes r) (k_shift r) (k_lapic r) (k_ioapic r) (k_ismp r)
    (k_ncpu r) (k_ioapicid r) (k_irqmask r).
#[export] Instance set_k_bufs : Setter k_bufs := fun v r => MkKernel (k_cpunum r) (k_cpus r)
    (k_locks r) (k_strategy r) (k_ticks r) (k_procs r) (k_initproc r) (k_nextpid r) (k_first r)
    (k_mem r) (k_use_lock r) (k_freelist r) (k_kpgdir r) (k_cons r) (k_disk r) (k_idequeue r)
    (k_havedisk1 r) v (k_bhead r) (k_log r) (k_sb r) (k_inodes r) (k_files r) (k_pipes r)
    (k_devsw r) (k_ports r) (k_writes r) (k_shift r) (k_lapic r) (k_ioapic r) (k_ismp r) (k_ncpu
    r) (k_ioapicid r) (k_irqmask r).
#[export] Instance set_k_bhead : Setter k_bhead := fun v r => MkKernel (k_cpunum r) (k_cpus r)
    (k_locks r) (k_strategy r) (k_ticks r) (k_procs r) (k_initproc r) (k_nextpid r) (k_first r)
    (k_mem r) (k_use_lock r) (k_freelist r) (k_kpgdir r) (k_cons r) (k_disk r) (k_idequeue r)
    (k_havedisk1 r) (k_bufs r) v (k_log r) (k_sb r) (k_inodes r) (k_files r) (k_pipes r)
    (k_devsw r) (k_ports r) (k_writes r) (k_shift r) (k_lapic r) (k_ioapic r) (k_ismp r) (k_ncpu
    r) (k_ioapicid r) (k_irqmask r).
#[export] Instance set_k_log : Setter k_log := fun v r => MkKernel (k_cpunum r) (k_cpus r)
    (k_locks r) (k_strategy r) (k_ticks r) (k_procs r) (k_initproc r) (k_nextpid r) (k_first r)
    (k_mem r) (k_use_lock r) (k_freelist r) (k_kpgdir r) (k_cons r) (k_disk r) (k_idequeue r)
    (k_havedisk1 r) (k_bufs r) (k_bhead r) v (k_sb r) (k_inodes r) (k_files r) (k_pipes r)
    (k_devsw r) (k_ports r) (k_writes r) (k_shift r) (k_lapic r) (k_ioapic r) (k_ismp r) (k_ncpu
    r) (k_ioapicid r) (k_irqmask r).
#[export] Instance set_k_sb : Setter k_sb := fun v r => MkKernel (k_cpunum r) (k_cpus r)
    (k_locks r) (k_strategy r) (k_ticks r) (k_procs r) (k_initproc r) (k_nextpid r) (k_first r)
    (k_mem r) (k_use_lock r) (k_freelist r) (k_kpgdir r) (k_cons r) (k_disk r) (k_idequeue r)
    (k_havedisk1 r) (k_bufs r) (k_bhead r) (k_log r) v (k_inodes r) (k_files r) (k_pipes r)
    (k_devsw r) (k_ports r) (k_writes r) (k_shift r) (k_lapic r) (k_ioapic r) (k_ismp r) (k_ncpu
    r) (k_ioapicid r) (k_irqmask r).
#[export] Instance set_k_inodes : Setter k_inodes := fun v r => MkKernel (k_cpunum r) (k_cpus r)
    (k_locks r) (k_strategy r) (k_ticks r) (k_procs r) (k_initproc r) (k_nextpid r) (k_first r)
    (k_mem r) (k_use_lock r) (k_freelist r) (k_kpgdir r) (k_cons r) (k_disk r) (k_idequeue r)
    (k_havedisk1 r) (k_bufs r) (k_bhead r) (k_log r) (k_sb r) v (k_files r) (k_pipes r) (k_devsw
    r) (k_ports r) (k_writes r) (k_shift r) (k_lapic r) (k_ioapic r) (k_ismp r) (k_ncpu r)
    (k_ioapicid r) (k_irqmask r).
#[export] Instance set_k_files : Setter k_files := fun v r => MkKernel (k_cpunum r) (k_cpus r)
    (k_locks r) (k_strategy r) (k_ticks r) (k_procs r) (k_initproc r) (k_nextpid r) (k_first r)
    (k_mem r) (k_use_lock r) (k_freelist r) (k_kpgdir r) (k_cons r) (k_disk r) (k_idequeue r)
    (k_havedisk1 r) (k_bufs r) (k_bhead r) (k_log r) (k_sb r) (k_inodes r) v (k_pipes r)
    (k_devsw r) (k_ports r) (k_writes r) (k_shift r) (k_lapic r) (k_ioapic r) (k_ismp r) (k_ncpu
    r) (k_ioapicid r) (k_irqmask r).
#[export] Instance set_k_pipes : Setter k_pipes := fun v r => MkKernel (k_cpunum r) (k_cpus r)
    (k_locks r) (k_strategy r) (k_ticks r) (k_procs r) (k_initproc r) (k_nextpid r) (k_first r)
    (k_mem r) (k_use_lock r) (k_freelist r) (k_kpgdir r) (k_cons r) (k_disk r) (k_idequeue r)
    (k_havedisk1 r) (k_bufs r) (k_bhead r) (k_log r) (k_sb r) (k_inodes r) (k_files r) v
    (k_devsw r) (k_ports r) (k_writes r) (k_shift r) (k_lapic r) (k_ioapic r) (k_ismp r) (k_ncpu
    r) (k_ioapicid r) (k_irqmask r).
#[export] Instance set_k_devsw : Setter k_devsw := fun v r => MkKernel (k_cpunum r) (k_cpus r)
    (k_locks r) (k_strategy r) (k_ticks r) (k_procs r) (k_initproc r) (k_nextpid r) (k_first r)
    (k_mem r) (k_use_lock r) (k_freelist r) (k_kpgdir r) (k_cons r) (k_disk r) (k_idequeue r)
    (k_havedisk1 r) (k_bufs r) (k_bhead r) (k_log r) (k_sb r) (k_inodes r) (k_files r) (k_pipes
    r) v (k_ports r) (k_writes r) (k_shift r) (k_lapic r) (k_ioapic r) (k_ismp r) (k_ncpu r)
    (k_ioapicid r) (k_irqmask r).
#[export] Instance set_k_ports : Setter k_ports := fun v r => MkKernel (k_cpunum r) (k_cpus r)
    (k_locks r) (k_strategy r) (k_ticks r) (k_procs r) (k_initproc r) (k_nextpid r) (k_first r)
    (k_mem r) (k_use_lock r) (k_freelist r) (k_kpgdir r) (k_cons r) (k_disk r) (k_idequeue r)
    (k_havedisk1 r) (k_bufs r) (k_bhead r) (k_log r) (k_sb r) (k_inodes r) (k_files r) (k_pipes
    r) (k_devsw r) v (k_writes r) (k_shift r) (k_lapic r) (k_ioapic r) (k_ismp r) (k_ncpu r)
    (k_ioapicid r) (k_irqmask r).
#[export] Instance set_k_writes : Setter k_writes := fun v r => MkKernel (k_cpunum r) (k_cpus r)
    (k_locks r) (k_strategy r) (k_ticks r) (k_procs r) (k_initproc r) (k_nextpid r) (k_first r)
    (k_mem r) (k_use_lock r) (k_freelist r) (k_kpgdir r) (k_cons r) (k_disk r) (k_idequeue r)
    (k_havedisk1 r) (k_bufs r) (k_bhead r) (k_log r) (k_sb r) (k_inodes r) (k_files r) (k_pipes
    r) (k_devsw r) (k_ports r) v (k_shift r) (k_lapic r) (k_ioapic r) (k_ismp r) (k_ncpu r)
    (k_ioapicid r) (k_irqmask r).
#[export] Instance set_k_shift : Setter k_shift := fun v r => MkKernel (k_cpunum r) (k_cpus r)
    (k_locks r) (k_strategy r) (k_ticks r) (k_procs r) (k_initproc r) (k_nextpid r) (k_first r)
    (k_mem r) (k_use_lock r) (k_freelist r) (k_kpgdir r) (k_cons r) (k_disk r) (k_idequeue r)
    (k_havedisk1 r) (k_bufs r) (k_bhead r) (k_log r) (k_sb r) (k_inodes r) (k_files r) (k_pipes
    r) (k_devsw r) (k_ports r) (k_writes r) v (k_lapic r) (k_ioapic r) (k_ismp r) (k_ncpu r)
    (k_ioapicid r) (k_irqmask r).
#[export] Instance set_k_lapic : Setter k_lapic := fun v r => MkKernel (k_cpunum r) (k_cpus r)
    (k_locks r) (k_strategy r) (k_ticks r) (k_procs r) (k_initproc r) (k_nextpid r) (k_first r)
    (k_mem r) (k_use_lock r) (k_freelist r) (k_kpgdir r) (k_cons r) (k_disk r) (k_idequeue r)
    (k_havedisk1 r) (k_bufs r) (k_bhead r) (k_log r) (k_sb r) (k_inodes r) (k_files r) (k_pipes
    r) (k_devsw r) (k_ports r) (k_writes r) (k_shift r) v (k_ioapic r) (k_ismp r) (k_ncpu r)
    (k_ioapicid r) (k_irqmask r).
#[export] Instance set_k_ioapic : Setter k_ioapic := fun v r => MkKernel (k_cpunum r) (k_cpus r)
    (k_locks r) (k_strategy r) (k_ticks r) (k_procs r) (k_initproc r) (k_nextpid r) (k_first r)
    (k_mem r) (k_use_lock r) (k_freelist r) (k_kpgdir r) (k_cons r) (k_disk r) (k_idequeue r)
    (k_havedisk1 r) (k_bufs r) (k_bhead r) (k_log r) (k_sb r) (k_inodes r) (k_files r) (k_pipes
    r) (k_devsw r) (k_ports r) (k_writes r) (k_shift r) (k_lapic r) v (k_ismp r) (k_ncpu r)
    (k_ioapicid r) (k_irqmask r).
#[export] Instance set_k_ismp : Setter k_ismp := fun v r => MkKernel (k_cpunum r) (k_cpus r)
    (k_locks r) (k_strategy r) (k_ticks r) (k_procs r) (k_initproc r) (k_nextpid r) (k_first r)
    (k_mem r) (k_use_lock r) (k_freelist r) (k_kpgdir r) (k_cons r) (k_disk r) (k_idequeue r)
    (k_havedisk1 r) (k_bufs r) (k_bhead r) (k_log r) (k_sb r) (k_inodes r) (k_files r) (k_pipes
    r) (k_devsw r) (k_ports r) (k_writes r) (k_shift r) (k_lapic r) (k_ioapic r) v (k_ncpu r)
    (k_ioapicid r) (k_irqmask r).
#[export] Instance set_k_ncpu : Setter k_ncpu := fun v r => MkKernel (k_cpunum r) (k_cpus r)
    (k_locks r) (k_strategy r) (k_ticks r) (k_procs r) (k_initproc r) (k_nextpid r) (k_first r)
    (k_mem r) (k_use_lock r) (k_freelist r) (k_kpgdir r) (k_cons r) (k_disk r) (k_idequeue r)
    (k_havedisk1 r) (k_bufs r) (k_bhead r) (k_log r) (k_sb r) (k_inodes r) (k_files r) (k_pipes
    r) (k_devsw r) (k_ports r) (k_writes r) (k_shift r) (k_lapic r) (k_ioapic r) (k_ismp r) v
    (k_ioapicid r) (k_irqmask r).
#[export] Instance set_k_ioapicid : Setter k_ioapicid := fun v r => MkKernel (k_cpunum r)
    (k_cpus r) (k_locks r) (k_strategy r) (k_ticks r) (k_procs r) (k_initproc r) (k_nextpid r)
    (k_first r) (k_mem r) (k_use_lock r) (k_freelist r) (k_kpgdir r) (k_cons r) (k_disk r)
    (k_idequeue r) (k_havedisk1 r) (k_bufs r) (k_bhead r) (k_log r) (k_sb r) (k_inodes r)
    (k_files r) (k_pipes r) (k_devsw r) (k_ports r) (k_writes r) (k_shift r) (k_lapic r)
    (k_ioapic r) (k_ismp r) (k_ncpu r) v (k_irqmask r).
#[export] Instance set_k_irqmask : Setter k_irqmask := fun v r => MkKernel (k_cpunum r) (k_cpus
    r) (k_locks r) (k_strategy r) (k_ticks r) (k_procs r) (k_initproc r) (k_nextpid r) (k_first
    r) (k_mem r) (k_use_lock r) (k_freelist r) (k_kpgdir r) (k_cons r) (k_disk r) (k_idequeue r)
    (k_havedisk1 r) (k_bufs r) (k_bhead r) (k_log r) (k_sb r) (k_inodes r) (k_files r) (k_pipes
    r) (k_devsw r) (k_ports r) (k_writes r) (k_shift r) (k_lapic r) (k_ioapic r) (k_ismp r)
    (k_ncpu r) (k_ioapicid r) v.

(** Unfold record updates to the records they build. *)
Ltac unfold_set :=
  cbv beta delta [set_to set_lk_locked set_lk_name set_lk_cpu set_sl_locked set_sl_name
    set_sl_pid set_sd_s set_c_apicid set_c_started set_c_ncli set_c_intena set_c_if set_c_proc
    set_c_gdt set_c_esp0 set_c_ss0 set_c_iomb set_c_tr set_c_cr3 set_p_sz set_p_ctime
    set_p_etime set_p_rtime set_p_GRT set_p_cid set_p_q3rtime set_p_q3tatime set_p_q2rtime
    set_p_q2tatime set_p_priority set_p_queuelevel set_p_myquantum set_p_pgdir set_p_kstack
    set_p_state set_p_pid set_p_parent set_p_tf set_p_context set_p_chan set_p_killed
    set_p_ofile set_p_cwd set_p_name set_b_flags set_b_dev set_b_blockno set_b_lock
    set_b_refcnt set_b_prev set_b_next set_b_qnext set_b_data set_lh_n set_lh_block
    set_log_start set_log_size set_log_outstanding set_log_committing set_log_dev set_log_lh
    set_i_dev set_i_inum set_i_ref set_i_lock set_i_flags set_i_type set_i_major set_i_minor
    set_i_nlink set_i_size set_i_addrs set_f_type set_f_ref set_f_readable set_f_writable
    set_f_pipe set_f_ip set_f_off set_pi_data set_pi_nread set_pi_nwrite set_pi_readopen
    set_pi_writeopen set_cons_locking set_cons_panicked set_crt_pos set_crt_mem set_uart
    set_uart_out set_input_buf set_input_r set_input_w set_input_e set_k_cpunum set_k_cpus
    set_k_locks set_k_strategy set_k_ticks set_k_procs set_k_initproc set_k_nextpid
    set_k_first set_k_mem set_k_use_lock set_k_freelist set_k_kpgdir set_k_cons set_k_disk
    set_k_idequeue set_k_havedisk1 set_k_bufs set_k_bhead set_k_log set_k_sb set_k_inodes
    set_k_files set_k_pipes set_k_devsw set_k_ports set_k_writes set_k_shift set_k_lapic
    set_k_ioapic set_k_ismp set_k_ncpu set_k_ioapicid set_k_irqmask].
