(* ===== verification/Monad.v ===== *)
(** * The kernel monad

    A kernel function is a computation [K A]: from the kernel state it returns
    a value and a state, or stops with a fault, or gives up the processor.

    - [FPanic msg]: the code calls [panic(msg)];
    - [FSpin l]: [acquire] spins on the lock [l], which another processor holds;
    - [FUB what]: C gives the access no meaning (a null or wild pointer);
    - [FHang]: the code stops the processor in an empty infinite loop;
    - [FFuel]: a loop that can sleep has used up its bound (class [Fuel]);
    - [Swtch s k]: [swtch] passes control to another kernel thread in state
      [s]; [k] is the rest of the function, run from the state in which the
      thread is resumed.

    [Swtch] is the interleaving point: everything else that runs in the
    meantime (other processes, interrupts) is in the state given to [k].  The
    predicate [wp] is the rely-guarantee reading of such a computation. *)

From S2P Require Import Prelude State.

Inductive fault :=
| FPanic (msg : string)
| FSpin (l : lockid)
| FUB (what : string)
| FHang
| FFuel.

Inductive outcome (A : Type) : Type :=
| Ret (a : A) (s : kernel)
| Fault (f : fault) (s : kernel)
| Swtch (s : kernel) (k : kernel -> outcome A).
Arguments Ret {A} _ _.
Arguments Fault {A} _ _.
Arguments Swtch {A} _ _.

Definition K (A : Type) : Type := kernel -> outcome A.

Fixpoint obind {A B : Type} (o : outcome A) (f : A -> K B) : outcome B :=
  match o with
  | Ret a s => f a s
  | Fault e s => Fault e s
  | Swtch s k => Swtch s (fun s' => obind (k s') f)
  end.

Definition ret {A} (a : A) : K A := fun s => Ret a s.
Definition bind {A B} (m : K A) (f : A -> K B) : K B := fun s => obind (m s) f.
Definition gets {A} (f : kernel -> A) : K A := fun s => Ret (f s) s.
Definition modify (f : kernel -> kernel) : K unit := fun s => Ret tt (f s).
Definition fail {A} (e : fault) : K A := fun s => Fault e s.
Definition panic {A} (msg : string) : K A := fail (FPanic msg).
Definition swtch : K unit := fun s => Swtch s (fun s' => Ret tt s').

Declare Scope kernel_scope.
Delimit Scope kernel_scope with kernel.
Bind Scope kernel_scope with K.
Notation "'let!' x := m 'in' k" := (bind m (fun x => k))
  (at level 10, x pattern, m at level 100, k at level 200,
   format "'[v' let!  x  :=  m  in '/' k ']'") : kernel_scope.
Notation "'do!' m ; k" := (bind m (fun _ => k))
  (at level 10, m at level 100, k at level 200,
   format "'[v' do!  m ; '/' k ']'") : kernel_scope.
#[global] Open Scope kernel_scope.

(** [if(c) body] without an else branch. *)
Definition when (c : bool) (body : K unit) : K unit := if c then body else ret tt.

(** A pointer that the code dereferences without a null test. *)
Definition deref {A} (what : string) (o : option A) : K A :=
  match o with Some a => ret a | None => fail (FUB what) end.

(** ** Loops *)

(** [for] over a fixed range of the elements of a table. *)
Fixpoint for_each {X : Type} (l : list X) (body : X -> K unit) : K unit :=
  match l with
  | [] => ret tt
  | x :: l' => do! body x; for_each l' body
  end.

(** [for(;;)] whose body leaves the loop with [Some a]. *)
Fixpoint forever {A : Type} (n : nat) (body : K (option A)) : K A :=
  match n with
  | O => fail FFuel
  | S n' =>
      let! r := body in
      match r with Some a => ret a | None => forever n' body end
  end.

(** The bound of the loops that sleep: how many times the loop body runs. *)
Class Fuel := fuel : nat.

(** ** Executing a computation step by step *)

Lemma bind_ret {A B} (m : K A) (f : A -> K B) s a s' :
  m s = Ret a s' -> bind m f s = f a s'.
Proof. unfold bind. by intros ->. Qed.

Lemma bind_fault {A B} (m : K A) (f : A -> K B) s e s' :
  m s = Fault e s' -> bind m f s = Fault e s'.
Proof. unfold bind. by intros ->. Qed.

Lemma bind_swtch {A B} (m : K A) (f : A -> K B) s s1 k :
  m s = Swtch s1 k -> bind m f s = Swtch s1 (fun s' => obind (k s') f).
Proof. unfold bind. by intros ->. Qed.

(** Rewrite the first call of a sequence with what it is known to return. *)
Ltac kstep H := erewrite bind_ret; [ | solve [eapply H; eauto] ]; cbv beta.
Ltac kget := erewrite bind_ret by reflexivity; cbv beta.
Ltac kfault H := erewrite bind_fault; [ | solve [eapply H; eauto] ]; cbv beta.

(** ** Rely-guarantee reasoning *)

Section wp.
(** [G] holds whenever the thread gives up the processor, [R] relates that
    state to the one it is resumed in, [E] are the faults allowed. *)
Context (G : kernel -> Prop) (R : kernel -> kernel -> Prop).
Context (E : fault -> kernel -> Prop).

Fixpoint wp {A : Type} (o : outcome A) (Q : A -> kernel -> Prop) : Prop :=
  match o with
  | Ret a s => Q a s
  | Fault e s => E e s
  | Swtch s k => G s /\ forall s', R s s' -> wp (k s') Q
  end.

Lemma wp_mono {A} (o : outcome A) (Q Q' : A -> kernel -> Prop) :
  (forall a s, Q a s -> Q' a s) -> wp o Q -> wp o Q'.
Proof.
  intros HQ. induction o as [a s|e s|s k IH]; simpl; [eauto..|].
  intros [HG Hk]; split; eauto.
Qed.

Lemma wp_obind {A B} (o : outcome A) (f : A -> K B) Q :
  wp o (fun a s => wp (f a s) Q) -> wp (obind o f) Q.
Proof.
  induction o as [a s|e s|s k IH]; simpl; [eauto..|].
  intros [HG Hk]; split; eauto.
Qed.

Lemma wp_bind {A B} (m : K A) (f : A -> K B) s Q :
  wp (m s) (fun a s' => wp (f a s') Q) -> wp (bind m f s) Q.
Proof. apply wp_obind. Qed.

Lemma wp_bind_post {A B} (m : K A) (f : A -> K B) s P Q :
  wp (m s) P -> (forall a s', P a s' -> wp (f a s') Q) -> wp (bind m f s) Q.
Proof. intros Hm Hf. apply wp_bind. eapply wp_mono; eauto. Qed.

Lemma wp_ret_eq {A} (o : outcome A) a s (Q : A -> kernel -> Prop) :
  o = Ret a s -> Q a s -> wp o Q.
Proof. by intros ->. Qed.

Lemma wp_for_each {X} (I : kernel -> Prop) (l : list X) body s :
  I s -> (forall x s', x ∈ l -> I s' -> wp (body x s') (fun _ => I)) ->
  wp (for_each l body s) (fun _ => I).
Proof.
  revert s; induction l as [|x l IH]; intros s Hs Hb; simpl; [done|].
  eapply wp_bind_post.
  - apply Hb; [apply list_elem_of_here|done].
  - intros u s' Hs'. apply IH; [done|]. intros y s2 Hy HI. apply Hb; [|done].
    by apply list_elem_of_further.
Qed.

Lemma wp_forever {A} (I : kernel -> Prop) (n : nat) (body : K (option A)) s Q :
  I s ->
  (forall s', E FFuel s') ->
  (forall s', I s' -> wp (body s') (fun r s'' =>
      match r with Some a => Q a s'' | None => I s'' end)) ->
  wp (forever n body s) Q.
Proof.
  intros Hs HE Hb. revert s Hs. induction n as [|n IH]; intros s Hs; simpl; [apply HE|].
  eapply wp_bind_post; [apply Hb, Hs|].
  intros [a|] s' H; simpl; auto.
Qed.
End wp.
