(* ===== verification/Mem.v ===== *)
(** * Memory and string.c

    The bytes of memory, little-endian words, and the string functions of
    [string.c] on them.  The last part relates the pointer loops to functions
    on the lists of bytes that the pointers reach, which is how the rest of the
    development calls them on the arrays inside the kernel's structs. *)

From S2P Require Import Prelude.

Abbreviation mem := (gmap Z Z).

Definition ld8 (m : mem) (a : Z) : Z := default 0 (m !! a).
Definition st8 (m : mem) (a v : Z) : mem := <[a := u8 v]> m.

Definition ld32 (m : mem) (a : Z) : Z :=
  ld8 m a + ld8 m (a + 1) * 2 ^ 8 + ld8 m (a + 2) * 2 ^ 16 + ld8 m (a + 3) * 2 ^ 24.

Definition st32 (m : mem) (a v : Z) : mem :=
  st8 (st8 (st8 (st8 m a v) (a + 1) (v / 2 ^ 8)) (a + 2) (v / 2 ^ 16)) (a + 3) (v / 2 ^ 24).

Definition ld16 (m : mem) (a : Z) : Z := ld8 m a + ld8 m (a + 1) * 2 ^ 8.
Definition st16 (m : mem) (a v : Z) : mem := st8 (st8 m a v) (a + 1) (v / 2 ^ 8).

(** ** string.c *)

(** [rep stosb] and [rep stosl] of [x86.h]. *)
Fixpoint stosb (m : mem) (addr data : Z) (cnt : nat) : mem :=
  match cnt with
  | O => m
  | S n => stosb (st8 m addr data) (addr + 1) data n
  end.

Fixpoint stosl (m : mem) (addr data : Z) (cnt : nat) : mem :=
  match cnt with
  | O => m
  | S n => stosl (st32 m addr data) (addr + 4) data n
  end.

Definition memset (m : mem) (dst c n : Z) : mem :=
  if ((dst mod 4 =? 0) && (n mod 4 =? 0))%bool then
    let c := Z.land c 0xFF in
    stosl m dst (Z.lor (Z.lor (Z.lor (Z.shiftl c 24) (Z.shiftl c 16)) (Z.shiftl c 8)) c)
      (Z.to_nat (n / 4))
  else stosb m dst c (Z.to_nat n).

Fixpoint memcmp_loop (m : mem) (s1 s2 : Z) (n : nat) : Z :=
  match n with
  | O => 0
  | S n' =>
      if negb (ld8 m s1 =? ld8 m s2) then ld8 m s1 - ld8 m s2
      else memcmp_loop m (s1 + 1) (s2 + 1) n'
  end.
Definition memcmp (m : mem) (v1 v2 n : Z) : Z := memcmp_loop m v1 v2 (Z.to_nat n).

(** The two loops of [memmove]: upwards, and downwards from the end. *)
Fixpoint copy_up (m : mem) (d s : Z) (n : nat) : mem :=
  match n with
  | O => m
  | S n' => copy_up (st8 m d (ld8 m s)) (d + 1) (s + 1) n'
  end.

Fixpoint copy_down (m : mem) (d s : Z) (n : nat) : mem :=
  match n with
  | O => m
  | S n' => copy_down (st8 m (d - 1) (ld8 m (s - 1))) (d - 1) (s - 1) n'
  end.

Definition memmove (m : mem) (dst src n : Z) : mem :=
  if ((src <? dst) && (dst <? src + n))%bool then
    copy_down m (dst + n) (src + n) (Z.to_nat n)
  else copy_up m dst src (Z.to_nat n).

Fixpoint strncmp_loop (m : mem) (p q : Z) (n : nat) : Z :=
  match n with
  | O => 0
  | S n' =>
      if (negb (ld8 m p =? 0) && (ld8 m p =? ld8 m q))%bool
      then strncmp_loop m (p + 1) (q + 1) n'
      else ld8 m p - ld8 m q
  end.
Definition strncmp (m : mem) (p q n : Z) : Z := strncmp_loop m p q (Z.to_nat n).

(** The copy loop of [strncpy], then the loop that fills with zeros. *)
Fixpoint strncpy_loop (m : mem) (s t : Z) (n : nat) : mem :=
  match n with
  | O => m
  | S n' =>
      let m' := st8 m s (ld8 m t) in
      if ld8 m t =? 0 then stosb m' (s + 1) 0 n' else strncpy_loop m' (s + 1) (t + 1) n'
  end.
Definition strncpy (m : mem) (s t n : Z) : mem := strncpy_loop m s t (Z.to_nat n).

Fixpoint safestrcpy_loop (m : mem) (s t : Z) (n : nat) : mem :=
  match n with
  | O => st8 m s 0
  | S n' =>
      let m' := st8 m s (ld8 m t) in
      if ld8 m t =? 0 then st8 m' (s + 1) 0 else safestrcpy_loop m' (s + 1) (t + 1) n'
  end.
Definition safestrcpy (m : mem) (s t n : Z) : mem :=
  if n <=? 0 then m else safestrcpy_loop m s t (Z.to_nat (n - 1)).

(** [strlen], with the number of bytes it may look at. *)
Fixpoint strlen (bound : nat) (m : mem) (s : Z) : option Z :=
  match bound with
  | O => None
  | S b => if ld8 m s =? 0 then Some 0 else Z.succ <$> strlen b m (s + 1)
  end.

(** ** Loads and stores *)

(** Every byte that is present is in the range of [uchar]. *)
Definition mem_ok (m : mem) : Prop := map_Forall (fun _ v => 0 <= v < 256) m.

Lemma u8_range z : 0 <= u8 z < 256.
Proof. unfold u8. apply Z.mod_pos_bound. lia. Qed.

Lemma u8_small z : 0 <= z < 256 -> u8 z = z.
Proof. intros. unfold u8. by apply Z.mod_small. Qed.

Lemma ld8_st8 m a v b : ld8 (st8 m a v) b = if decide (a = b) then u8 v else ld8 m b.
Proof. unfold ld8, st8. rewrite lookup_insert. by case_decide. Qed.

Lemma ld8_st8_eq m a v : ld8 (st8 m a v) a = u8 v.
Proof. rewrite ld8_st8. by case_decide. Qed.

Lemma ld8_st8_ne m a v b : a <> b -> ld8 (st8 m a v) b = ld8 m b.
Proof. intros. rewrite ld8_st8. by case_decide. Qed.

Lemma mem_ok_st8 m a v : mem_ok m -> mem_ok (st8 m a v).
Proof. intros H. apply map_Forall_insert_2; [apply u8_range|done]. Qed.

Lemma mem_ok_st32 m a v : mem_ok m -> mem_ok (st32 m a v).
Proof. intros H. unfold st32. by repeat apply mem_ok_st8. Qed.

Lemma ld8_range m a : mem_ok m -> 0 <= ld8 m a < 256.
Proof.
  intros H. unfold ld8. destruct (m !! a) eqn:E; simpl; [by eapply (H a)|lia].
Qed.

Lemma ld32_range m a : mem_ok m -> is_u32 (ld32 m a).
Proof.
  intros H. unfold ld32, is_u32.
  pose proof (ld8_range m a H). pose proof (ld8_range m (a + 1) H).
  pose proof (ld8_range m (a + 2) H). pose proof (ld8_range m (a + 3) H). lia.
Qed.

Lemma ld32_st32_eq m a v : is_u32 v -> ld32 (st32 m a v) a = v.
Proof.
  unfold is_u32, ld32, st32. intros Hv.
  rewrite !ld8_st8. repeat case_decide; try lia. unfold u8.
  Z.div_mod_to_equations. lia.
Qed.

Lemma ld8_st32_ne m a v b : ~ (a <= b < a + 4) -> ld8 (st32 m a v) b = ld8 m b.
Proof. intros. unfold st32. rewrite !ld8_st8_ne by lia. done. Qed.

Lemma ld32_st32_ne m a v b : a + 4 <= b \/ b + 4 <= a -> ld32 (st32 m a v) b = ld32 m b.
Proof. intros. unfold ld32. rewrite !ld8_st32_ne by lia. done. Qed.

(** Words read the same in two memories that agree on their bytes. *)
Lemma ld32_agree m m' a :
  (forall i, 0 <= i < 4 -> ld8 m' (a + i) = ld8 m (a + i)) -> ld32 m' a = ld32 m a.
Proof.
  intros H. unfold ld32. rewrite <- (Z.add_0_r a) at 1 5. rewrite !H by lia. done.
Qed.

(** ** memset *)

Lemma ld8_stosb m dst c n a :
  ld8 (stosb m dst c n) a =
    if decide (dst <= a < dst + Z.of_nat n) then u8 c else ld8 m a.
Proof.
  revert m dst. induction n as [|n IH]; intros m dst; simpl.
  - by rewrite decide_False by lia.
  - rewrite IH, ld8_st8. repeat case_decide; try lia; done.
Qed.

Lemma ld8_stosl m dst w c n a :
  (forall k, 0 <= k < 4 -> u8 (w / 2 ^ (8 * k)) = u8 c) ->
  ld8 (stosl m dst w n) a =
    if decide (dst <= a < dst + 4 * Z.of_nat n) then u8 c else ld8 m a.
Proof.
  intros Hw.
  pose proof (Hw 0) as H0. pose proof (Hw 1) as H1.
  pose proof (Hw 2) as H2. pose proof (Hw 3) as H3.
  change (2 ^ (8 * 0)) with 1 in H0. change (8 * 1) with 8 in H1.
  change (8 * 2) with 16 in H2. change (8 * 3) with 24 in H3.
  rewrite Z.div_1_r in H0.
  revert m dst. induction n as [|n IH]; intros m dst; simpl.
  - by rewrite decide_False by lia.
  - rewrite IH. unfold st32. rewrite !ld8_st8. repeat case_decide; try lia; subst; auto with lia.
Qed.

(** The word that [memset] builds repeats the byte four times. *)
Lemma memset_word c k :
  0 <= k < 4 ->
  let b := Z.land c 0xFF in
  u8 (Z.lor (Z.lor (Z.lor (Z.shiftl b 24) (Z.shiftl b 16)) (Z.shiftl b 8)) b / 2 ^ (8 * k))
  = u8 c.
Proof.
  intros Hk b. unfold u8, b. change 0xFF with (Z.ones 8).
  rewrite <- !Z.land_ones, <- Z.shiftr_div_pow2 by lia.
  apply Z.bits_inj'. intros i Hi.
  rewrite !Z.land_spec, Z.shiftr_spec, !Z.lor_spec, !Z.shiftl_spec, !Z.land_spec by lia.
  destruct (decide (i < 8)) as [Hlt|Hge];
    [|rewrite (Z.ones_spec_high 8 i), !andb_false_r by lia; done].
  rewrite (Z.ones_spec_low 8 i), !andb_true_r by lia.
  assert (k = 0 \/ k = 1 \/ k = 2 \/ k = 3) as [-> | [-> | [-> | ->]]] by lia;
    rewrite ?Z.mul_0_r, ?Z.add_0_r;
    repeat match goal with
    | |- context [Z.testbit (Z.ones 8) ?j] =>
        first [rewrite (Z.ones_spec_high 8 j) by lia
              |rewrite (Z.ones_spec_low 8 j) by lia
              |rewrite (Z.testbit_neg_r (Z.ones 8) j) by lia]
    end; rewrite ?andb_false_r, ?andb_true_r, ?orb_false_r, ?orb_false_l;
    repeat match goal with
    | |- context [Z.testbit c ?j] => rewrite (Z.testbit_neg_r c j) by lia
    end; rewrite ?orb_false_r, ?orb_false_l; try (f_equal; lia).
Qed.

Lemma ld8_memset m dst c n a :
  0 <= n ->
  ld8 (memset m dst c n) a = if decide (dst <= a < dst + n) then u8 c else ld8 m a.
Proof.
  intros Hn. unfold memset. case_match eqn:E.
  - apply andb_true_iff in E as [_ E]. apply Z.eqb_eq in E.
    rewrite (ld8_stosl _ _ _ c) by (intros; by apply memset_word).
    assert (4 * Z.of_nat (Z.to_nat (n / 4)) = n) as ->
      by (rewrite Z2Nat.id by (apply Z.div_pos; lia); Z.div_mod_to_equations; lia).
    done.
  - rewrite ld8_stosb, Z2Nat.id by lia. done.
Qed.

Lemma mem_ok_stosb m dst c n : mem_ok m -> mem_ok (stosb m dst c n).
Proof. revert m dst; induction n; intros; simpl; [done|]. by apply IHn, mem_ok_st8. Qed.

Lemma mem_ok_stosl m dst c n : mem_ok m -> mem_ok (stosl m dst c n).
Proof. revert m dst; induction n; intros; simpl; [done|]. by apply IHn, mem_ok_st32. Qed.

Lemma mem_ok_memset m dst c n : mem_ok m -> mem_ok (memset m dst c n).
Proof. unfold memset. case_match; auto using mem_ok_stosb, mem_ok_stosl. Qed.

(** ** memmove *)

Lemma mem_ok_copy_up m d s n : mem_ok m -> mem_ok (copy_up m d s n).
Proof. revert m d s; induction n; intros; simpl; [done|]. by apply IHn, mem_ok_st8. Qed.

Lemma mem_ok_copy_down m d s n : mem_ok m -> mem_ok (copy_down m d s n).
Proof. revert m d s; induction n; intros; simpl; [done|]. by apply IHn, mem_ok_st8. Qed.

Lemma mem_ok_memmove m d s n : mem_ok m -> mem_ok (memmove m d s n).
Proof. unfold memmove. case_match; auto using mem_ok_copy_up, mem_ok_copy_down. Qed.

(** Copying upwards is right when the source is not overwritten ahead. *)
Lemma ld8_copy_up m d s n a :
  mem_ok m -> ~ (s < d < s + Z.of_nat n) ->
  ld8 (copy_up m d s n) a =
    if decide (d <= a < d + Z.of_nat n) then ld8 m (s + (a - d)) else ld8 m a.
Proof.
  revert m d s. induction n as [|n IH]; intros m d s Hm Hov; simpl.
  - by rewrite decide_False by lia.
  - rewrite IH by (auto using mem_ok_st8; lia). rewrite !ld8_st8.
    rewrite u8_small by (by apply ld8_range).
    repeat case_decide; try lia; try (f_equal; lia); subst; try (f_equal; lia).
Qed.

Lemma ld8_copy_down m d s n a :
  mem_ok m -> ~ (d < s < d + Z.of_nat n) ->
  ld8 (copy_down m d s n) a =
    if decide (d - Z.of_nat n <= a < d) then ld8 m (s + (a - d)) else ld8 m a.
Proof.
  revert m d s. induction n as [|n IH]; intros m d s Hm Hov; simpl.
  - by rewrite decide_False by lia.
  - rewrite IH by (auto using mem_ok_st8; lia). rewrite !ld8_st8.
    rewrite u8_small by (by apply ld8_range).
    repeat case_decide; try lia; try (f_equal; lia); subst; try (f_equal; lia).
Qed.

Lemma ld8_memmove m dst src n a :
  mem_ok m -> 0 <= n ->
  ld8 (memmove m dst src n) a =
    if decide (dst <= a < dst + n) then ld8 m (src + (a - dst)) else ld8 m a.
Proof.
  intros Hm Hn. unfold memmove. case_match eqn:E.
  - apply andb_true_iff in E as [E1 E2]. apply Z.ltb_lt in E1, E2.
    rewrite ld8_copy_down by (auto; lia). rewrite Z2Nat.id by lia.
    repeat case_decide; try lia; f_equal; lia.
  - rewrite ld8_copy_up by
      (auto; rewrite Z2Nat.id by lia; apply andb_false_iff in E as [?%Z.ltb_ge|?%Z.ltb_ge]; lia).
    by rewrite Z2Nat.id by lia.
Qed.

(** ** The string functions on lists of bytes *)

(** The [n] bytes at [a], and the NUL-terminated string at [a]. *)
Definition arr (m : mem) (a : Z) (n : nat) : list Z :=
  (fun i => ld8 m (a + Z.of_nat i)) <$> seq 0 n.
Arguments arr : simpl never.

Definition cstr (m : mem) (a : Z) (l : list Z) : Prop :=
  arr m a (length l) = l /\ Forall (fun c => c <> 0) l /\ ld8 m (a + Z.of_nat (length l)) = 0.

(** What the copies leave in an array of [n] bytes when they read string [t]. *)
Definition lstrncpy (t : list Z) (n : nat) : list Z := take n (t ++ replicate n 0).

Definition lsafestrcpy (dst t : list Z) (n : nat) : list Z :=
  let w := take (n - 1) (t ++ [0]) ++ [0] in
  if decide (n = 0%nat) then dst else w ++ drop (length w) dst.

Fixpoint lstrncmp (p q : list Z) (n : nat) : Z :=
  match n with
  | O => 0
  | S n' =>
      let a := hd 0 p in let b := hd 0 q in
      if (negb (a =? 0) && (a =? b))%bool then lstrncmp (tl p) (tl q) n' else a - b
  end.

(** The bytes of an array up to the first NUL: the string it holds. *)
Fixpoint until_nul (l : list Z) : list Z :=
  match l with
  | [] => []
  | c :: l' => if c =? 0 then [] else c :: until_nul l'
  end.

Lemma until_nul_nonzero l : Forall (fun c => c <> 0) (until_nul l).
Proof. induction l as [|c l IH]; cbn; [constructor|]. destruct (Z.eqb_spec c 0); by constructor. Qed.

Lemma until_nul_id l : Forall (fun c => c <> 0) l -> until_nul l = l.
Proof. induction 1 as [|c l Hc _ IH]; [done|]. cbn. by rewrite (proj2 (Z.eqb_neq _ _) Hc), IH. Qed.

Lemma until_nul_app l l' : Forall (fun c => c <> 0) l -> until_nul (l ++ 0 :: l') = l.
Proof. induction 1 as [|c l Hc _ IH]; [done|]. cbn. by rewrite (proj2 (Z.eqb_neq _ _) Hc), IH. Qed.

Lemma arr_S m a n : arr m a (S n) = ld8 m a :: arr m (a + 1) n.
Proof.
  unfold arr. rewrite <- cons_seq. simpl. rewrite Z.add_0_r. f_equal.
  rewrite <- fmap_S_seq, <- list_fmap_compose.
  apply list_fmap_ext. intros i x Hx. simpl. f_equal. lia.
Qed.

Lemma length_arr m a n : length (arr m a n) = n.
Proof. unfold arr. by rewrite length_fmap, length_seq. Qed.

Lemma arr_ext m m' a n :
  (forall i, 0 <= i < Z.of_nat n -> ld8 m' (a + i) = ld8 m (a + i)) -> arr m' a n = arr m a n.
Proof.
  intros H. unfold arr. apply list_fmap_ext. intros i x Hx.
  apply lookup_seq in Hx as [-> ?]. simpl. apply H. lia.
Qed.

Lemma cstr_cons m a c l :
  cstr m a (c :: l) <-> ld8 m a = c /\ c <> 0 /\ cstr m (a + 1) l.
Proof.
  unfold cstr. simpl length. rewrite arr_S, Forall_cons, Nat2Z.inj_succ.
  replace (a + Z.succ (Z.of_nat (length l))) with (a + 1 + Z.of_nat (length l)) by lia.
  split; [intros (H1 & [H2 H3] & H4)|intros (H1 & H2 & H3 & H4 & H5)].
  - injection H1 as H1 H5. auto.
  - rewrite H1, H3. auto.
Qed.

Lemma cstr_nil m a : cstr m a [] <-> ld8 m a = 0.
Proof.
  unfold cstr. simpl. rewrite Z.add_0_r. split; [by intros (_ & _ & ->)|].
  intros H. split_and!; [done|constructor|done].
Qed.

(** A store outside a string leaves it in place. *)
Lemma cstr_st8 m a l b v :
  ~ (a <= b <= a + Z.of_nat (length l)) -> cstr m a l -> cstr (st8 m b v) a l.
Proof.
  intros Hb (H1 & H2 & H3). split_and!; [|done|].
  - rewrite <- H1 at 2. apply arr_ext. intros i Hi. rewrite ld8_st8_ne by lia. done.
  - rewrite ld8_st8_ne by lia. done.
Qed.

Lemma strlen_cstr m a l bound :
  cstr m a l -> (length l < bound)%nat -> strlen bound m a = Some (Z.of_nat (length l)).
Proof.
  revert a bound. induction l as [|c l IH]; intros a [|b] Hl Hb; simpl in *; try lia.
  - apply cstr_nil in Hl. by rewrite Hl.
  - apply cstr_cons in Hl as (-> & Hc & Hl).
    rewrite (proj2 (Z.eqb_neq c 0)) by done.
    rewrite (IH _ b) by (done || lia). simpl. f_equal. lia.
Qed.

Lemma ld8_stosb_0 m a n : arr (stosb m a 0 n) a n = replicate n 0.
Proof.
  apply list_eq. intros i. unfold arr. rewrite list_lookup_fmap.
  destruct (decide (i < n)%nat) as [Hi|Hi].
  - rewrite lookup_seq_lt, lookup_replicate_2 by done. simpl.
    rewrite ld8_stosb, decide_True by lia. done.
  - rewrite !lookup_ge_None_2; [done|rewrite length_replicate; lia|rewrite length_seq; lia].
Qed.

(** Bytes below the destination are not touched by the string copies. *)
Lemma ld8_strncpy_loop_below m s t n a : a < s -> ld8 (strncpy_loop m s t n) a = ld8 m a.
Proof.
  revert m s t. induction n as [|n IH]; intros m s t Ha; simpl; [done|].
  case_match.
  - rewrite ld8_stosb, decide_False, ld8_st8_ne by lia. done.
  - rewrite IH, ld8_st8_ne by lia. done.
Qed.

Lemma ld8_safestrcpy_loop_below m s t n a : a < s -> ld8 (safestrcpy_loop m s t n) a = ld8 m a.
Proof.
  revert m s t. induction n as [|n IH]; intros m s t Ha; simpl.
  - by rewrite ld8_st8_ne by lia.
  - case_match; [rewrite !ld8_st8_ne by lia; done|]. rewrite IH, ld8_st8_ne by lia. done.
Qed.

Lemma strncpy_loop_list m s t n l :
  mem_ok m -> cstr m t l ->
  s + Z.of_nat n <= t \/ t + Z.of_nat (length l) < s ->
  arr (strncpy_loop m s t n) s n = lstrncpy l n.
Proof.
  revert m s t l. induction n as [|n IH]; intros m s t l Hm Hl Hdisj; [done|].
  rewrite arr_S. simpl. destruct l as [|c l].
  - apply cstr_nil in Hl. rewrite Hl, Z.eqb_refl. unfold lstrncpy. simpl.
    f_equal.
    + rewrite ld8_stosb, decide_False, ld8_st8_eq by lia. done.
    + rewrite ld8_stosb_0, take_ge by (rewrite length_replicate; lia). done.
  - apply cstr_cons in Hl as (Hc & Hc0 & Hl). rewrite Hc.
    pose proof (ld8_range m t Hm) as Hr. rewrite Hc in Hr.
    rewrite (proj2 (Z.eqb_neq c 0)) by done. simpl in Hdisj.
    rewrite ld8_strncpy_loop_below, ld8_st8_eq, u8_small by lia.
    rewrite (IH _ _ _ l); [|by apply mem_ok_st8|apply cstr_st8; [lia|done]|lia].
    unfold lstrncpy. simpl. f_equal.
    change (0 :: replicate n 0) with (replicate (S n) 0).
    rewrite replicate_S_end, (assoc_L (++)).
    rewrite (take_app_le (l ++ replicate n 0)) by (rewrite length_app, length_replicate; lia).
    done.
Qed.

(** The first byte of an array whose tail is known. *)
Lemma arr_cons_ext m a n x l : arr m a (S n) = x :: l <-> ld8 m a = x /\ arr m (a + 1) n = l.
Proof. rewrite arr_S. split; [intros [= -> ->]; done|intros [-> ->]; done]. Qed.

Lemma safestrcpy_loop_list m s t n l :
  mem_ok m -> cstr m t l ->
  s + Z.of_nat (S n) <= t \/ t + Z.of_nat (length l) < s ->
  arr (safestrcpy_loop m s t n) s (S n) = lsafestrcpy (arr m s (S n)) l (S n).
Proof.
  revert m s t l. unfold lsafestrcpy.
  induction n as [|n IH]; intros m s t l Hm Hl Hdisj; rewrite decide_False by lia.
  - rewrite arr_S. simpl. rewrite ld8_st8_eq. done.
  - replace (S (S n) - 1)%nat with (S n) by lia.
    destruct l as [|c l].
    + apply cstr_nil in Hl. cbn [safestrcpy_loop]. rewrite Hl, Z.eqb_refl, !arr_S. simpl.
      rewrite ld8_st8_ne, !ld8_st8_eq by lia.
      rewrite (take_nil n). simpl. f_equal. f_equal.
      rewrite drop_0. apply arr_ext. intros i Hi. rewrite !ld8_st8_ne by lia. done.
    + apply cstr_cons in Hl as (Hc & Hc0 & Hl). cbn [safestrcpy_loop]. rewrite Hc.
      pose proof (ld8_range m t Hm) as Hr. rewrite Hc in Hr. simpl in Hdisj.
      rewrite (proj2 (Z.eqb_neq c 0)) by done.
      rewrite arr_S, ld8_safestrcpy_loop_below, ld8_st8_eq, u8_small by lia.
      rewrite (IH _ _ _ l); [|by apply mem_ok_st8|apply cstr_st8; [lia|done]|lia].
      rewrite decide_False by lia. replace (S n - 1)%nat with n by lia.
      rewrite (arr_S m s (S n)). simpl. f_equal. f_equal. f_equal.
      apply arr_ext. intros i Hi. rewrite ld8_st8_ne by lia. done.
Qed.

(** ** Comparison *)

Lemma strncmp_loop_list m p q n :
  strncmp_loop m p q n = lstrncmp (arr m p n) (arr m q n) n.
Proof.
  revert p q. induction n as [|n IH]; intros p q; [done|].
  rewrite !arr_S. simpl. by rewrite IH.
Qed.

Lemma lstrncmp_0 p q n :
  Forall (fun c => 0 <= c) p -> Forall (fun c => 0 <= c) q ->
  lstrncmp p q n = 0 <-> until_nul (take n p) = until_nul (take n q).
Proof.
  revert p q. induction n as [|n IH]; intros p q Hp Hq; [by simpl|].
  destruct p as [|a p], q as [|b q]; simpl; [done| | |].
  - inversion_clear Hq. destruct (Z.eqb_spec b 0); subst; [done|]. split; [lia|done].
  - inversion_clear Hp. destruct (Z.eqb_spec a 0); subst; simpl; [done|].
    destruct (Z.eqb_spec a 0); [lia|]. split; [lia|done].
  - inversion_clear Hp. inversion_clear Hq.
    destruct (Z.eqb_spec a 0), (Z.eqb_spec b 0), (Z.eqb_spec a b); subst; simpl; try lia;
      try (split; [lia|congruence]); try done.
    rewrite IH by done. split; [by intros ->|by intros [= ->]].
Qed.

(** * Integers in a block

    A block is a list of bytes; the C code reads and writes [int], [uint] and
    [short] fields of structs in it, least significant byte first. *)

Definition lbyte (l : list Z) (off : Z) : Z := default 0 (l !! Z.to_nat off).
Definition lput8 (off v : Z) (l : list Z) : list Z := <[Z.to_nat off := u8 v]> l.

Definition lget16 (off : Z) (l : list Z) : Z := lbyte l off + 2 ^ 8 * lbyte l (off + 1).
Definition lget32 (off : Z) (l : list Z) : Z := lget16 off l + 2 ^ 16 * lget16 (off + 2) l.

Definition lput16 (off v : Z) (l : list Z) : list Z :=
  lput8 (off + 1) (v / 2 ^ 8) (lput8 off v l).
Definition lput32 (off v : Z) (l : list Z) : list Z :=
  lput16 (off + 2) (v / 2 ^ 16) (lput16 off v l).

(** [memmove] of [bs] into a block at offset [off]. *)
Definition lput (off : Z) (bs l : list Z) : list Z :=
  take (Z.to_nat off) l ++ bs ++ drop (Z.to_nat off + length bs) l.
Definition lget (off n : Z) (l : list Z) : list Z := take (Z.to_nat n) (drop (Z.to_nat off) l).

Lemma length_lput8 off v l : length (lput8 off v l) = length l.
Proof. apply length_insert. Qed.
Lemma length_lput16 off v l : length (lput16 off v l) = length l.
Proof. unfold lput16. by rewrite !length_lput8. Qed.
Lemma length_lput32 off v l : length (lput32 off v l) = length l.
Proof. unfold lput32. by rewrite !length_lput16. Qed.

Lemma length_lput off bs l :
  0 <= off -> off + Z.of_nat (length bs) <= Z.of_nat (length l) -> length (lput off bs l) = length l.
Proof. intros H0 H1. unfold lput. rewrite !length_app, length_take, length_drop. lia. Qed.

Lemma lbyte_lput8 off v l o :
  0 <= off < Z.of_nat (length l) -> 0 <= o ->
  lbyte (lput8 off v l) o = if o =? off then u8 v else lbyte l o.
Proof.
  intros Hoff Ho. unfold lbyte, lput8. destruct (Z.eqb_spec o off) as [->|Hne].
  - by rewrite list_lookup_insert_eq by lia.
  - by rewrite list_lookup_insert_ne by lia.
Qed.

Definition bytes_ok (l : list Z) : Prop := Forall (fun b => 0 <= b < 2 ^ 8) l.

Lemma lbyte_range l off : bytes_ok l -> 0 <= lbyte l off < 2 ^ 8.
Proof.
  intros H. unfold lbyte. destruct (l !! Z.to_nat off) eqn:E; simpl; [|lia].
  unfold bytes_ok in H. rewrite Forall_lookup in H. by eapply H.
Qed.

Lemma u8_bounds v : 0 <= u8 v < 2 ^ 8.
Proof. unfold u8. apply Z.mod_pos_bound. lia. Qed.

Lemma bytes_ok_lput8 off v l : bytes_ok l -> bytes_ok (lput8 off v l).
Proof. intros H. apply Forall_insert; [done|apply u8_bounds]. Qed.
Lemma bytes_ok_lput16 off v l : bytes_ok l -> bytes_ok (lput16 off v l).
Proof. intros H. by do 2 apply bytes_ok_lput8. Qed.
Lemma bytes_ok_lput32 off v l : bytes_ok l -> bytes_ok (lput32 off v l).
Proof. intros H. by do 2 apply bytes_ok_lput16. Qed.

Lemma lget16_lput16_eq off v l :
  0 <= off -> off + 2 <= Z.of_nat (length l) -> lget16 off (lput16 off v l) = u16 v.
Proof.
  intros H0 H1. unfold lget16, lput16.
  rewrite !lbyte_lput8 by (rewrite ?length_lput8; lia).
  rewrite !Z.eqb_refl, (proj2 (Z.eqb_neq off (off + 1))) by lia.
  unfold u8, u16. change (2 ^ 16) with (2 ^ 8 * 2 ^ 8). rewrite Z.rem_mul_r by lia. done.
Qed.

Lemma lget16_lput16_ne off off' v l :
  0 <= off -> off + 2 <= Z.of_nat (length l) -> 0 <= off' ->
  off' + 2 <= off \/ off + 2 <= off' -> lget16 off' (lput16 off v l) = lget16 off' l.
Proof.
  intros H0 H1 H2 H3. unfold lget16, lput16.
  rewrite !lbyte_lput8 by (rewrite ?length_lput8; lia).
  rewrite !(proj2 (Z.eqb_neq _ _)) by lia. done.
Qed.

Lemma lget32_lput32_eq off v l :
  0 <= off -> off + 4 <= Z.of_nat (length l) -> lget32 off (lput32 off v l) = u32 v.
Proof.
  intros H0 H1. unfold lget32, lput32.
  rewrite lget16_lput16_eq, lget16_lput16_ne, lget16_lput16_eq by (rewrite ?length_lput16; lia).
  unfold u16, u32. change (2 ^ 32) with (2 ^ 16 * 2 ^ 16). rewrite Z.rem_mul_r by lia. done.
Qed.

Lemma lget32_lput32_ne off off' v l :
  0 <= off -> off + 4 <= Z.of_nat (length l) -> 0 <= off' ->
  off' + 4 <= off \/ off + 4 <= off' -> lget32 off' (lput32 off v l) = lget32 off' l.
Proof.
  intros H0 H1 H2 H3. unfold lget32, lput32.
  by rewrite !lget16_lput16_ne by (rewrite ?length_lput16; lia).
Qed.

(** ** What a write leaves alone *)

Lemma lbyte_lput16_ne off v l o :
  0 <= off -> off + 2 <= Z.of_nat (length l) -> 0 <= o -> o < off \/ off + 2 <= o ->
  lbyte (lput16 off v l) o = lbyte l o.
Proof.
  intros H0 H1 H2 H3. unfold lput16. rewrite !lbyte_lput8 by (rewrite ?length_lput8; lia).
  by rewrite !(proj2 (Z.eqb_neq _ _)) by lia.
Qed.

Lemma lbyte_lput32_ne off v l o :
  0 <= off -> off + 4 <= Z.of_nat (length l) -> 0 <= o -> o < off \/ off + 4 <= o ->
  lbyte (lput32 off v l) o = lbyte l o.
Proof.
  intros H0 H1 H2 H3. unfold lput32. by rewrite !lbyte_lput16_ne by (rewrite ?length_lput16; lia).
Qed.

Lemma lget16_ext off l l' :
  lbyte l off = lbyte l' off -> lbyte l (off + 1) = lbyte l' (off + 1) -> lget16 off l = lget16 off l'.
Proof. unfold lget16. by intros -> ->. Qed.

Lemma lget32_ext off l l' :
  (forall o, off <= o < off + 4 -> lbyte l o = lbyte l' o) -> lget32 off l = lget32 off l'.
Proof.
  intros H. unfold lget32. f_equal; [|f_equal]; apply lget16_ext; apply H; lia.
Qed.

(** ** Pieces of a block *)

Lemma lbyte_app l l' o : 0 <= o -> lbyte (l ++ l') o = if decide (o < Z.of_nat (length l)) then lbyte l o else lbyte l' (o - Z.of_nat (length l)).
Proof.
  intros H. unfold lbyte. case_decide; [by rewrite lookup_app_l by lia|]. rewrite lookup_app_r by lia. do 2 f_equal. lia.
Qed.

Lemma lbyte_lget off n l o : 0 <= off -> 0 <= n -> 0 <= o -> lbyte (lget off n l) o = if decide (o < n) then lbyte l (off + o) else 0.
Proof.
  intros H1 H2 H3. unfold lbyte, lget. destruct (decide (o < n)).
  - rewrite lookup_take_lt by lia. rewrite lookup_drop. do 2 f_equal. lia.
  - by rewrite lookup_take_ge by lia.
Qed.

Lemma list_eq_lbyte (l l' : list Z) : length l = length l' -> (forall o, 0 <= o < Z.of_nat (length l) -> lbyte l o = lbyte l' o) -> l = l'.
Proof.
  intros Hl H. apply list_eq. intros i. destruct (decide (i < length l)%nat) as [Hi|Hi].
  - specialize (H (Z.of_nat i) ltac:(lia)). unfold lbyte in H. rewrite Nat2Z.id in H.
    destruct (l !! i) as [x|] eqn:E1; [|apply lookup_ge_None in E1; lia].
    destruct (l' !! i) as [y|] eqn:E2; [|apply lookup_ge_None in E2; lia]. cbn in H. congruence.
  - rewrite !lookup_ge_None_2 by lia. done.
Qed.

Lemma length_lget off n l : 0 <= off -> 0 <= n -> off + n <= Z.of_nat (length l) -> length (lget off n l) = Z.to_nat n.
Proof. intros H1 H2 H3. unfold lget. rewrite length_take, length_drop. lia. Qed.

Lemma lbyte_lput off bs l o : 0 <= off -> off + Z.of_nat (length bs) <= Z.of_nat (length l) -> 0 <= o ->
  lbyte (lput off bs l) o = if decide (off <= o < off + Z.of_nat (length bs)) then lbyte bs (o - off) else lbyte l o.
Proof.
  intros H1 H2 H3. unfold lbyte, lput. destruct (decide (off <= o < off + Z.of_nat (length bs))) as [Hi|Hi].
  - rewrite lookup_app_r by (rewrite length_take; lia). rewrite length_take. rewrite lookup_app_l by lia. do 2 f_equal. lia.
  - destruct (decide (o < off)) as [Hl|Hl].
    + rewrite lookup_app_l by (rewrite length_take; lia). by rewrite lookup_take_lt by lia.
    + rewrite lookup_app_r by (rewrite length_take; lia). rewrite length_take. rewrite lookup_app_r by lia.
      rewrite lookup_drop. do 2 f_equal. lia.
Qed.
