(* ===== verification/Spinlock.v ===== *)
(** * spinlock.c: spin locks and interrupt disabling

    [pushcli]/[popcli], [initlock], [holding], [acquire], [release] on the
    kernel state, what they do on every branch, and the state in which a
    critical section runs and ends.  Module [Machine] refines [acquire] and
    [release] to their memory accesses and interleaves all processors. *)

From S2P Require Import Prelude State Monad Mem.

(** ** The executing processor *)

(** [*cpu]: the [struct cpu] that %gs of the executing processor refers to. *)
Definition mycpu : K cpu := fun s =>
  match k_cpus s !! k_cpunum s with
  | Some c => Ret c s
  | None => Fault (FUB "cpu") s
  end.

Definition on_cpu (f : cpu -> cpu) (s : kernel) : kernel :=
  s <| k_cpus := alter f (k_cpunum s) (k_cpus s) |>.
Definition upd_cpu (f : cpu -> cpu) : K unit := modify (on_cpu f).

(** [proc]: the current process of the executing processor. *)
Definition myproc : K (option nat) := let! c := mycpu in ret (c_proc c).
Definition set_myproc (p : option nat) : K unit := upd_cpu (fun c => c <| c_proc := p |>).

(** [*p] for an element of the process table, and an assignment to it. *)
Definition getproc (i : nat) : K proc := fun s =>
  match k_procs s !! i with Some p => Ret p s | None => Fault (FUB "proc") s end.
Definition on_proc (i : nat) (f : proc -> proc) (s : kernel) : kernel :=
  s <| k_procs := alter f i (k_procs s) |>.
Definition updproc (i : nat) (f : proc -> proc) : K unit :=
  do! getproc i; modify (on_proc i f).

(** [proc], where the code dereferences it. *)
Definition curproc : K nat := let! p := myproc in deref "proc" p.

Definition readeflags_if : K bool := let! c := mycpu in ret (c_if c).
Definition cli : K unit := upd_cpu (fun c => c <| c_if := false |>).
Definition sti : K unit := upd_cpu (fun c => c <| c_if := true |>).

Definition pushcli : K unit :=
  let! eflags_if := readeflags_if in
  do! cli;
  let! c := mycpu in
  do! when (c_ncli c =? 0) (upd_cpu (fun c => c <| c_intena := eflags_if |>));
  upd_cpu (fun c => c <| c_ncli := c_ncli c + 1 |>).

Definition popcli : K unit :=
  let! eflags_if := readeflags_if in
  if eflags_if then panic "popcli - interruptible"
  else
    do! upd_cpu (fun c => c <| c_ncli := c_ncli c - 1 |>);
    let! c := mycpu in
    if c_ncli c <? 0 then panic "popcli"
    else when ((c_ncli c =? 0) && c_intena c) sti.

(** ** Spin locks *)

(** The locks are globals: one that was never initialised is all zeros. *)
Definition lock_zero : spinlock := MkSpinlock 0 EmptyString None.
Definition getlock (l : lockid) (s : kernel) : spinlock := default lock_zero (k_locks s !! l).
Definition setlock (l : lockid) (lk : spinlock) (s : kernel) : kernel :=
  s <| k_locks := <[l := lk]> (k_locks s) |>.

Definition initlock (l : lockid) (name : string) : K unit :=
  modify (setlock l (MkSpinlock 0 name None)).

Definition holding (l : lockid) : K bool := fun s =>
  Ret (negb (lk_locked (getlock l s) =? 0) &&
       bool_decide (lk_cpu (getlock l s) = Some (k_cpunum s))) s.

Definition acquire (l : lockid) : K unit :=
  do! pushcli;
  let! h := holding l in
  if h then panic "acquire"
  else
    let! lk := gets (getlock l) in
    if negb (lk_locked lk =? 0) then fail (FSpin l)
    else
      do! modify (fun s => setlock l ((getlock l s) <| lk_locked := 1 |>) s);
      modify (fun s => setlock l ((getlock l s) <| lk_cpu := Some (k_cpunum s) |>) s).

Definition release (l : lockid) : K unit :=
  let! h := holding l in
  if negb h then panic "release"
  else
    do! modify (fun s => setlock l ((getlock l s) <| lk_cpu := None |>) s);
    do! modify (fun s => setlock l ((getlock l s) <| lk_locked := 0 |>) s);
    popcli.

(** The saved program counters found by following the %ebp chain from the
    argument slot [v]; the array is padded with zeros to 10 entries. *)
Fixpoint getcallerpcs_loop (n : nat) (m : mem) (ebp : Z) : list Z :=
  match n with
  | O => []
  | S n' =>
      if (ebp =? 0) || (ebp <? KERNBASE) || (ebp =? 0xffffffff) then replicate n 0
      else ld32 m (ebp + 4) :: getcallerpcs_loop n' m (ld32 m ebp)
  end.
Definition getcallerpcs (m : mem) (v : Z) : list Z := getcallerpcs_loop 10 m (v -u 8).

(** ** What the operations do *)

(** [l] is initialised and free. *)
Definition lock_free (l : lockid) (s : kernel) : Prop :=
  exists nm, k_locks s !! l = Some (MkSpinlock 0 nm None).

(** [l] is held by the executing processor. *)
Definition lock_held (l : lockid) (s : kernel) : Prop :=
  exists nm, k_locks s !! l = Some (MkSpinlock 1 nm (Some (k_cpunum s))).

Definition cpu_push (c : cpu) : cpu :=
  MkCpu (c_apicid c) (c_started c) (c_ncli c + 1)
    (if c_ncli c =? 0 then c_if c else c_intena c) false (c_proc c)
    (c_gdt c) (c_esp0 c) (c_ss0 c) (c_iomb c) (c_tr c) (c_cr3 c).

Definition cpu_pop (c : cpu) : cpu :=
  MkCpu (c_apicid c) (c_started c) (c_ncli c - 1) (c_intena c)
    ((c_ncli c - 1 =? 0) && c_intena c) (c_proc c)
    (c_gdt c) (c_esp0 c) (c_ss0 c) (c_iomb c) (c_tr c) (c_cr3 c).

(** The state in a critical section of [l], and after it. *)
Definition acq (l : lockid) (s : kernel) : kernel :=
  setlock l (MkSpinlock 1 (lk_name (getlock l s)) (Some (k_cpunum s))) (on_cpu cpu_push s).

Definition rel (l : lockid) (s : kernel) : kernel :=
  on_cpu cpu_pop (setlock l (MkSpinlock 0 (lk_name (getlock l s)) None) s).

(** The executing processor exists. *)
Definition on_chip (s : kernel) : Prop := is_Some (k_cpus s !! k_cpunum s).

Lemma mycpu_ret s c : k_cpus s !! k_cpunum s = Some c -> mycpu s = Ret c s.
Proof. intros Hc. unfold mycpu. by rewrite Hc. Qed.

Lemma myproc_ret s c : k_cpus s !! k_cpunum s = Some c -> myproc s = Ret (c_proc c) s.
Proof. intros Hc. unfold myproc. by rewrite (bind_ret _ _ _ _ _ (mycpu_ret _ _ Hc)). Qed.

Lemma curproc_ret s c i :
  k_cpus s !! k_cpunum s = Some c -> c_proc c = Some i -> curproc s = Ret i s.
Proof. intros Hc Hi. unfold curproc. rewrite (bind_ret _ _ _ _ _ (myproc_ret _ _ Hc)). by rewrite Hi. Qed.

Lemma getproc_ret s i p : k_procs s !! i = Some p -> getproc i s = Ret p s.
Proof. intros H. unfold getproc. by rewrite H. Qed.

Lemma updproc_ret s i p f : k_procs s !! i = Some p -> updproc i f s = Ret tt (on_proc i f s).
Proof. intros H. unfold updproc. by rewrite (bind_ret _ _ _ _ _ (getproc_ret _ _ _ H)). Qed.

Lemma on_proc_lookup s i f p :
  k_procs s !! i = Some p -> k_procs (on_proc i f s) !! i = Some (f p).
Proof. intros H. cbn. by rewrite list_lookup_alter_eq, H. Qed.

Lemma on_proc_on_proc s i f g : on_proc i f (on_proc i g s) = on_proc i (f ∘ g) s.
Proof. unfold on_proc. cbn. by rewrite list_alter_alter. Qed.

Lemma readeflags_ret s c : k_cpus s !! k_cpunum s = Some c -> readeflags_if s = Ret (c_if c) s.
Proof. intros Hc. unfold readeflags_if. by rewrite (bind_ret _ _ _ _ _ (mycpu_ret _ _ Hc)). Qed.

Lemma on_cpu_lookup f s c :
  k_cpus s !! k_cpunum s = Some c -> k_cpus (on_cpu f s) !! k_cpunum (on_cpu f s) = Some (f c).
Proof. intros Hc. cbn. by rewrite list_lookup_alter_eq, Hc. Qed.

(** Two updates of the processor record make one. *)
Lemma on_cpu_on_cpu f g s : on_cpu f (on_cpu g s) = on_cpu (f ∘ g) s.
Proof. unfold on_cpu. cbn. by rewrite list_alter_alter. Qed.

Lemma on_cpu_ext f g s c :
  k_cpus s !! k_cpunum s = Some c -> f c = g c -> on_cpu f s = on_cpu g s.
Proof.
  intros Hc Hfg. unfold on_cpu.
  by rewrite (list_alter_insert f _ _ _ Hc), (list_alter_insert g _ _ _ Hc), Hfg.
Qed.

Lemma on_cpu_id f s c : k_cpus s !! k_cpunum s = Some c -> f c = c -> on_cpu f s = s.
Proof.
  intros Hc Hf. unfold on_cpu. rewrite (list_alter_insert f _ _ _ Hc), Hf, list_insert_id by done.
  by destruct s.
Qed.

(** ** pushcli and popcli *)

Lemma pushcli_ret s : on_chip s -> pushcli s = Ret tt (on_cpu cpu_push s).
Proof.
  intros [c Hc]. unfold pushcli, cli, upd_cpu.
  kstep (readeflags_ret _ _ Hc).
  erewrite bind_ret by reflexivity.
  erewrite bind_ret by (apply mycpu_ret, on_cpu_lookup, Hc).
  unfold when. cbn [c_ncli].
  case_match eqn:E; cbn in E; erewrite bind_ret by reflexivity; unfold modify; f_equal;
    rewrite ?on_cpu_on_cpu; eapply on_cpu_ext; try done; unfold cpu_push; cbn; by rewrite E.
Qed.

Lemma popcli_ret s c :
  k_cpus s !! k_cpunum s = Some c -> c_if c = false -> 1 <= c_ncli c ->
  popcli s = Ret tt (on_cpu cpu_pop s).
Proof.
  intros Hc Hif Hn. unfold popcli, sti, upd_cpu.
  kstep (readeflags_ret _ _ Hc). rewrite Hif.
  erewrite bind_ret by reflexivity.
  erewrite bind_ret by (apply mycpu_ret, on_cpu_lookup, Hc). cbn.
  rewrite (proj2 (Z.ltb_ge _ _)) by lia.
  unfold when. case_match eqn:E; unfold modify, ret; f_equal;
    rewrite ?on_cpu_on_cpu; eapply on_cpu_ext; try done; unfold cpu_pop; cbn; rewrite E; [done|].
  by rewrite <- Hif.
Qed.

(** Interrupts are off while the nesting depth is positive. *)
Definition cpu_wf (c : cpu) : Prop := 0 <= c_ncli c /\ (0 < c_ncli c -> c_if c = false).
Definition on_cpu_wf (s : kernel) : Prop :=
  exists c, k_cpus s !! k_cpunum s = Some c /\ cpu_wf c.

Lemma on_cpu_wf_chip s : on_cpu_wf s -> on_chip s.
Proof. intros (c & Hc & _). by exists c. Qed.
#[export] Hint Resolve on_cpu_wf_chip : core.

Lemma popcli_unbalanced s c :
  k_cpus s !! k_cpunum s = Some c -> c_if c = false -> c_ncli c <= 0 ->
  exists s', popcli s = Fault (FPanic "popcli") s'.
Proof.
  intros Hc Hif Hn. eexists. unfold popcli, upd_cpu.
  kstep (readeflags_ret _ _ Hc). rewrite Hif. erewrite bind_ret by reflexivity.
  erewrite bind_ret by (apply mycpu_ret, on_cpu_lookup, Hc). cbn.
  rewrite (proj2 (Z.ltb_lt _ _)) by lia. done.
Qed.

(** [n] nested [pushcli]s and as many [popcli]s. *)
Fixpoint times (n : nat) (m : K unit) : K unit :=
  match n with O => ret tt | S n' => do! m; times n' m end.

Lemma times_pushcli n s c :
  k_cpus s !! k_cpunum s = Some c -> cpu_wf c -> (0 < n)%nat ->
  exists s' c', times n pushcli s = Ret tt s' /\ k_cpus s' !! k_cpunum s' = Some c' /\
    s' = on_cpu (fun _ => c') s /\
    c_ncli c' = c_ncli c + Z.of_nat n /\ c_if c' = false /\
    c' = c <| c_ncli := c_ncli c' |> <| c_if := false |>
           <| c_intena := if c_ncli c =? 0 then c_if c else c_intena c |>.
Proof.
  intros Hc [Hwf0 Hwf1] Hn. destruct n as [|n]; [lia|]. clear Hn.
  revert s c Hc Hwf0 Hwf1. induction n as [|n IH]; intros s c Hc Hwf0 Hwf1.
  - exists (on_cpu cpu_push s), (cpu_push c). cbn [times].
    kstep (pushcli_ret s (ex_intro _ _ Hc)).
    split_and!; [done|by apply on_cpu_lookup|by eapply on_cpu_ext|cbn; lia|done|done].
  - cbn [times]. kstep (pushcli_ret s (ex_intro _ _ Hc)).
    destruct (IH (on_cpu cpu_push s) (cpu_push c)) as (s' & c' & H1 & H2 & H3 & H4 & H5 & H6);
      [by apply on_cpu_lookup|cbn; lia|done|].
    exists s', c'. split_and!; [exact H1|done| |cbn in H4; lia|done|].
    + rewrite H3, on_cpu_on_cpu. by eapply on_cpu_ext.
    + rewrite H6. unfold cpu_push. cbn.
      rewrite (proj2 (Z.eqb_neq (c_ncli c + 1) 0)) by lia. done.
Qed.

Lemma times_popcli n s c :
  k_cpus s !! k_cpunum s = Some c -> c_if c = false -> Z.of_nat n <= c_ncli c -> (0 < n)%nat ->
  times n popcli s = Ret tt (on_cpu (fun c => c <| c_ncli := c_ncli c - Z.of_nat n |>
    <| c_if := (c_ncli c =? Z.of_nat n) && c_intena c |>) s).
Proof.
  intros Hc Hif Hle Hn. destruct n as [|n]; [lia|]. clear Hn.
  revert s c Hc Hif Hle. induction n as [|n IH]; intros s c Hc Hif Hle.
  - cbn [times]. kstep (popcli_ret s c Hc Hif ltac:(lia)). unfold ret. f_equal.
    eapply on_cpu_ext; [done|]. unfold cpu_pop. cbn.
    destruct (Z.eqb_spec (c_ncli c - 1) 0), (Z.eqb_spec (c_ncli c) (Z.of_nat 1)); (done || lia).
  - cbn [times]. kstep (popcli_ret s c Hc Hif ltac:(lia)).
    change (bind popcli (fun _ => times n popcli)) with (times (S n) popcli).
    rewrite (IH _ (cpu_pop c)); [|by apply on_cpu_lookup| |cbn; lia].
    2: { cbn. rewrite (proj2 (Z.eqb_neq (c_ncli c - 1) 0)) by lia. done. }
    f_equal. rewrite on_cpu_on_cpu. eapply on_cpu_ext; [done|]. unfold cpu_pop. unfold_set. cbn.
    f_equal; [lia|].
    destruct (Z.eqb_spec (c_ncli c - 1) (Z.of_nat (S n))),
      (Z.eqb_spec (c_ncli c) (Z.of_nat (S (S n)))); (done || lia).
Qed.

(** ** acquire and release *)

Lemma getlock_some l s lk : k_locks s !! l = Some lk -> getlock l s = lk.
Proof. intros H. unfold getlock. by rewrite H. Qed.

Lemma holding_held l s : lock_held l s -> holding l s = Ret true s.
Proof.
  intros [nm Hl]. unfold holding. rewrite (getlock_some _ _ _ Hl). cbn.
  by rewrite bool_decide_eq_true_2.
Qed.

Lemma acquire_ret l s : on_chip s -> lock_free l s -> acquire l s = Ret tt (acq l s).
Proof.
  intros Hc [nm Hl]. unfold acquire. kstep (pushcli_ret s Hc).
  erewrite bind_ret by reflexivity. unfold getlock. cbn. rewrite Hl. cbn.
  unfold bind, gets, getlock. cbn. rewrite Hl. cbn.
  unfold modify, acq, setlock, getlock. cbn. rewrite Hl. cbn.
  rewrite lookup_insert_eq. cbn. rewrite insert_insert_eq. done.
Qed.

Lemma acquire_held l s :
  on_chip s -> lock_held l s -> acquire l s = Fault (FPanic "acquire") (on_cpu cpu_push s).
Proof.
  intros Hc [nm Hl]. unfold acquire. kstep (pushcli_ret s Hc).
  unfold bind, holding, getlock. cbn. rewrite Hl. cbn.
  by rewrite bool_decide_eq_true_2.
Qed.

Lemma acquire_contended l s nm c :
  on_chip s -> k_locks s !! l = Some (MkSpinlock 1 nm (Some c)) -> c <> k_cpunum s ->
  acquire l s = Fault (FSpin l) (on_cpu cpu_push s).
Proof.
  intros Hc Hl Hne. unfold acquire. kstep (pushcli_ret s Hc).
  unfold bind, holding, getlock. cbn. rewrite Hl. cbn.
  rewrite bool_decide_eq_false_2 by congruence. cbn.
  unfold gets, getlock. cbn. rewrite Hl. done.
Qed.

(** The executing processor is in a critical section of [l]. *)
Definition in_cs (l : lockid) (s : kernel) : Prop :=
  lock_held l s /\
  exists c, k_cpus s !! k_cpunum s = Some c /\ c_if c = false /\ 1 <= c_ncli c.

Lemma release_ret l s : in_cs l s -> release l s = Ret tt (rel l s).
Proof.
  intros [[nm Hl] (c & Hc & Hif & Hn)]. unfold release.
  rewrite (bind_ret _ _ _ _ _ (holding_held _ _ (ex_intro _ _ Hl))). cbn [negb].
  erewrite bind_ret by reflexivity. erewrite bind_ret by reflexivity.
  rewrite (popcli_ret _ c) by done. f_equal. unfold rel, setlock, getlock. cbn. rewrite Hl. cbn.
  rewrite lookup_insert_eq, insert_insert_eq. done.
Qed.

Lemma release_not_held l s :
  negb (lk_locked (getlock l s) =? 0) && bool_decide (lk_cpu (getlock l s) = Some (k_cpunum s)) = false ->
  release l s = Fault (FPanic "release") s.
Proof. intros H. unfold release, bind, holding. cbn. by rewrite H. Qed.

Lemma acq_in_cs l s : on_cpu_wf s -> in_cs l (acq l s).
Proof.
  intros (c & Hc & Hwf). split.
  - eexists. cbn. apply lookup_insert_eq.
  - exists (cpu_push c). split_and!; [|done|cbn; destruct Hwf; lia].
    cbn. by rewrite list_lookup_alter_eq, Hc.
Qed.

(** [s'] differs from [s] in nothing that the locks depend on. *)
Definition same_locks (s s' : kernel) : Prop :=
  k_locks s' = k_locks s /\ k_cpus s' = k_cpus s /\ k_cpunum s' = k_cpunum s.

Lemma in_cs_same l s s' : same_locks s s' -> in_cs l s -> in_cs l s'.
Proof. intros (H1 & H2 & H3) H. unfold in_cs, lock_held. by rewrite H1, H2, H3. Qed.

(** What a critical section leaves of the processor: [pushcli] at depth zero
    has recorded the interrupt flag. *)
Definition cpu_settle (c : cpu) : cpu :=
  if c_ncli c =? 0 then c <| c_intena := c_if c |> else c.
Definition settle (s : kernel) : kernel := on_cpu cpu_settle s.

Lemma cpu_pop_push c : cpu_wf c -> cpu_pop (cpu_push c) = cpu_settle c.
Proof.
  intros [H0 H1]. unfold cpu_pop, cpu_push, cpu_settle. unfold_set. cbn.
  replace (c_ncli c + 1 - 1) with (c_ncli c) by lia.
  destruct (Z.eqb_spec (c_ncli c) 0) as [E|Hne]; [by rewrite E|]. cbn. rewrite <- H1 by lia. by destruct c.
Qed.

(** Leaving the critical section of [l] after changes to other parts of the
    state: the lock is as it was, the processor is settled. *)
Lemma rel_acq l s s' :
  on_cpu_wf s -> lock_free l s -> same_locks (acq l s) s' ->
  rel l s' = s' <| k_cpus := k_cpus (settle s) |> <| k_locks := k_locks s |>.
Proof.
  intros (c & Hc & Hwf) [nm Hl] (H1 & H2 & H3).
  assert (Hlk : getlock l (acq l s) = MkSpinlock 1 nm (Some (k_cpunum s))).
  { unfold getlock, acq. cbn. rewrite lookup_insert_eq. cbn. by rewrite (getlock_some _ _ _ Hl). }
  assert (Hg : lk_name (getlock l s') = nm) by (unfold getlock in *; by rewrite H1, Hlk).
  unfold rel. rewrite Hg. unfold setlock, on_cpu. cbn. rewrite H1, H2, H3. cbn.
  f_equal.
  rewrite insert_insert_eq, insert_id by done.
  rewrite (list_alter_insert cpu_push _ _ _ Hc), (list_alter_insert cpu_settle _ _ _ Hc).
  rewrite (list_alter_insert _ _ _ (cpu_push c)).
  - by rewrite list_insert_insert_eq, cpu_pop_push.
  - by apply list_lookup_insert_eq; eapply lookup_lt_Some.
Qed.

(** ** All processors together

    One lock and the processors that use it.  [acquire] and [release] are cut
    at their memory accesses: the test of [holding], the atomic [xchg], the
    assignment of [lk->cpu] on the way in; the assignment of [lk->cpu] and the
    store to [lk->locked] on the way out.  Any processor may make the next
    step. *)
Module Machine.

Inductive pc :=
| Outside     (* before [acquire] *)
| Spinning    (* at the [xchg] loop *)
| Taken       (* [xchg] returned 0, [lk->cpu] not yet assigned *)
| Critical    (* [acquire] has returned *)
| Leaving     (* in [release], [lk->cpu] cleared *)
| Panicked.   (* a [holding] test failed *)

Record state := MkState { locked : Z; owner : option nat; at_pc : nat -> pc }.

Definition goto (f : nat -> pc) (c : nat) (p : pc) : nat -> pc :=
  fun d => if decide (d = c) then p else f d.

Definition holds (st : state) (c : nat) : bool :=
  negb (locked st =? 0) && bool_decide (owner st = Some c).

Inductive step : state -> state -> Prop :=
| step_enter st c :
    at_pc st c = Outside -> holds st c = false ->
    step st (MkState (locked st) (owner st) (goto (at_pc st) c Spinning))
| step_enter_panic st c :
    at_pc st c = Outside -> holds st c = true ->
    step st (MkState (locked st) (owner st) (goto (at_pc st) c Panicked))
| step_xchg_fail st c :
    at_pc st c = Spinning -> locked st <> 0 ->
    step st (MkState 1 (owner st) (at_pc st))
| step_xchg st c :
    at_pc st c = Spinning -> locked st = 0 ->
    step st (MkState 1 (owner st) (goto (at_pc st) c Taken))
| step_record st c :
    at_pc st c = Taken ->
    step st (MkState (locked st) (Some c) (goto (at_pc st) c Critical))
| step_clear st c :
    at_pc st c = Critical -> holds st c = true ->
    step st (MkState (locked st) None (goto (at_pc st) c Leaving))
| step_clear_panic st c :
    at_pc st c = Critical -> holds st c = false ->
    step st (MkState (locked st) (owner st) (goto (at_pc st) c Panicked))
| step_unlock st c :
    at_pc st c = Leaving ->
    step st (MkState 0 (owner st) (goto (at_pc st) c Outside)).

(** After [initlock], with every processor outside. *)
Definition initial : state := MkState 0 None (fun _ => Outside).
Definition reachable (st : state) : Prop := rtc step initial st.

(** Between the successful [xchg] and the store that unlocks. *)
Definition inside (p : pc) : bool :=
  match p with Taken | Critical | Leaving => true | _ => false end.

Record inv (st : state) : Prop := {
  inv_one : forall c d, inside (at_pc st c) = true -> inside (at_pc st d) = true -> c = d;
  inv_locked : forall c, inside (at_pc st c) = true -> locked st = 1;
  inv_free : locked st <> 0 -> exists c, inside (at_pc st c) = true;
  inv_owner : forall c, owner st = Some c <-> at_pc st c = Critical;
  inv_no_panic : forall c, at_pc st c <> Panicked
}.

Lemma goto_eq f c p : goto f c p c = p.
Proof. unfold goto. by rewrite decide_True. Qed.
Lemma goto_ne f c p d : d <> c -> goto f c p d = f d.
Proof. intros. unfold goto. by rewrite decide_False. Qed.

Lemma inv_initial : inv initial.
Proof. by split; simpl. Qed.

(** Settle a goal about the processors after [c] has moved. *)
Ltac moved c :=
  repeat match goal with
  | H : context [goto _ c _ ?d] |- _ =>
      destruct (decide (d = c)) as [->|?]; [rewrite goto_eq in H|rewrite goto_ne in H by done]
  | |- context [goto _ c _ ?d] =>
      destruct (decide (d = c)) as [->|?]; [rewrite goto_eq|rewrite goto_ne by done]
  end; simpl in *; try done; try congruence.

Lemma inv_holding st c : inv st -> holds st c = true <-> at_pc st c = Critical.
Proof.
  intros I. unfold holds. rewrite andb_true_iff, bool_decide_eq_true, (inv_owner _ I).
  split; [tauto|]. intros H. split; [|done].
  rewrite (inv_locked _ I c) by (by rewrite H). done.
Qed.

Lemma inv_step st st' : step st st' -> inv st -> inv st'.
Proof.
  intros Hstep I.
  destruct Hstep as [st c Hp Hh|st c Hp Hh|st c Hp Hl|st c Hp Hl|st c Hp|st c Hp Hh|st c Hp Hh|st c Hp].
  - (* enter *)
    split; simpl.
    + intros d e Hd He. moved c; try by apply (inv_one _ I).
    + intros d Hd. moved c; try by apply (inv_locked _ I d).
    + intros Hl. destruct (inv_free _ I Hl) as [d Hd]. exists d. moved c; try (by rewrite Hp in Hd).
    + intros d. rewrite (inv_owner _ I). moved c; try (by rewrite Hp).
    + intros d. moved c; try apply (inv_no_panic _ I).
  - apply (inv_holding _ _ I) in Hh. congruence.
  - (* failed xchg *)
    destruct (inv_free _ I Hl) as [d Hd]. pose proof (inv_locked _ I d Hd) as Hl1.
    destruct st as [lk ow f]; simpl in *. by subst lk.
  - (* successful xchg *)
    assert (Hnone : forall d, inside (at_pc st d) = true -> False)
      by (intros d Hd; pose proof (inv_locked _ I d Hd); lia).
    split; simpl.
    + intros d e Hd He. moved c; exfalso; eauto.
    + done.
    + intros _. exists c. by rewrite goto_eq.
    + intros d. rewrite (inv_owner _ I). moved c; try (by rewrite Hp).
    + intros d. moved c; try apply (inv_no_panic _ I).
  - (* lk->cpu = cpu *)
    assert (Hin : inside (at_pc st c) = true) by (by rewrite Hp).
    split; simpl.
    + intros d e Hd He. moved c; try (apply (inv_one _ I); done).
    + intros d Hd. moved c; try (by eapply (inv_locked _ I)).
    + intros _. exists c. by rewrite goto_eq.
    + intros d. moved c. split; [congruence|]. intros Hd. exfalso.
      apply n. apply (inv_one _ I); [by rewrite Hd|done].
    + intros d. moved c; try apply (inv_no_panic _ I).
  - (* lk->cpu = 0 *)
    assert (Hin : inside (at_pc st c) = true) by (by rewrite Hp).
    split; simpl.
    + intros d e Hd He. moved c; try (apply (inv_one _ I); done).
    + intros d Hd. moved c; try (by eapply (inv_locked _ I)).
    + intros _. exists c. by rewrite goto_eq.
    + intros d. moved c. split; [done|]. intros Hd. exfalso.
      apply n. apply (inv_one _ I); [by rewrite Hd|done].
    + intros d. moved c; try apply (inv_no_panic _ I).
  - apply (inv_holding _ _ I) in Hp. congruence.
  - (* lk->locked = 0 *)
    assert (Hin : inside (at_pc st c) = true) by (by rewrite Hp).
    assert (Hone : forall d, inside (at_pc st d) = true -> d = c)
      by (intros d Hd; by apply (inv_one _ I)).
    split; simpl.
    + intros d e Hd He. moved c. rewrite (Hone d), (Hone e) by done. done.
    + intros d Hd. moved c. exfalso. eauto.
    + done.
    + intros d. rewrite (inv_owner _ I). moved c; try (by rewrite Hp).
    + intros d. moved c; try apply (inv_no_panic _ I).
Qed.

Lemma inv_reachable st : reachable st -> inv st.
Proof.
  intros H. unfold reachable in H. remember initial as st0 eqn:E.
  assert (I0 : inv st0) by (subst; apply inv_initial). clear E.
  induction H; [done|]. eauto using inv_step.
Qed.

End Machine.
