(* ===== verification/Sample.v ===== *)
(** * A concrete machine

    One processor, a kernel image of one megabyte, and the tables as they are
    after the locks have been initialised.  The witnesses of the theorems
    start from it. *)

From S2P Require Import Prelude State Monad Spinlock.

Module Sample.
Definition linker : Linker := {|
  sym_end := KERNBASE + 0x200000;
  sym_data := KERNBASE + 0x108000;
  sym_trapret := KERNBASE + 0x105000;
  sym_forkret := KERNBASE + 0x103000;
  sym_initcode := [0x6a; 0; 0x68];
  sym_ts := fun i => KERNBASE + 0x110000 + 0x100 * Z.of_nat i;
  sym_cpu := fun i => KERNBASE + 0x112000 + 0x100 * Z.of_nat i
|}.

Lemma linker_ok : LinkerOk linker.
Proof. split; [split; reflexivity|reflexivity|vm_compute; discriminate]. Qed.

Definition cpu0 : cpu := MkCpu 0 1 0 false true None ∅ 0 0 0 0 0.
Definition free_lock (name : string) : spinlock := MkSpinlock 0 name None.
Definition locks : gmap lockid spinlock :=
  list_to_map [(L_ptable, free_lock "ptable"); (L_tickslock, free_lock "time");
    (L_kmem, free_lock "kmem"); (L_bcache, free_lock "bcache"); (L_log, free_lock "log");
    (L_icache, free_lock "icache"); (L_ftable, free_lock "ftable");
    (L_idelock, free_lock "ide"); (L_cons, free_lock "console")].
Definition cons0 : console := MkConsole 0 0 0 ∅ 0 [] (replicate 128 0) 0 0 0.
Definition log0 : logstate := MkLog 0 0 0 0 0 (MkLogheader 0 []).

(** Strategy [n] at tick [t] with the processes [ps] in the first slots. *)
Definition machine (n t : Z) (ps : list proc) : kernel :=
  MkKernel 0 [cpu0] locks n t (ps ++ replicate (NPROC - length ps) proc_zero) None 1 1 ∅ 0 0
    (KERNBASE + 0x300000) cons0 ∅ None 0 [] (0%nat, 0%nat) log0 (MkSuperblock 0 0 0 0 0 0 0) [] [] ∅ ∅ ∅ []
    0 0 0 0 1 0 0.

(** A runnable process with its address space. *)
Definition job (pid prio level : Z) : proc :=
  MkProc 4096 0 0 0 0 0 0 0 0 0 prio level 0 (KERNBASE + 0x400000) (KERNBASE + 0x500000) RUNNABLE
    pid None 0 0 CNull 0 (replicate 16 None) None [].
End Sample.
