(* ===== verification/Kalloc.v ===== *)
(** * kalloc.c: the physical page allocator

    [kalloc], [kfree], [freerange], [kinit1], [kinit2] on the free list that is
    threaded through the free pages themselves.  [kmem_inv s l] says that the
    list [l] of pages is what the chain of [next] words spells; under it the
    allocator is a stack of pages ([stack_run]). *)

From S2P Require Import Prelude State Monad Mem Spinlock.

(** [mmu.h] *)
Definition PGROUNDUP (sz : Z) : Z := Z.land (sz +u (PGSIZE - 1)) (Z.lnot (PGSIZE - 1)).
Definition PGROUNDDOWN (a : Z) : Z := Z.land a (Z.lnot (PGSIZE - 1)).

Section kalloc.
Context {L : Linker}.

Definition setmem (f : mem -> mem) : K unit := modify (fun s => s <| k_mem := f (k_mem s) |>).

Definition kfree (v : Z) : K unit :=
  if negb (v mod PGSIZE =? 0) || (v <? sym_end) || (PHYSTOP <=? V2P v) then panic "kfree"
  else
    do! setmem (fun m => memset m v 1 PGSIZE);
    let! use_lock := gets k_use_lock in
    do! when (negb (use_lock =? 0)) (acquire L_kmem);
    do! modify (fun s => s <| k_mem := st32 (k_mem s) v (k_freelist s) |> <| k_freelist := v |>);
    when (negb (use_lock =? 0)) (release L_kmem).

Definition kalloc : K Z :=
  let! use_lock := gets k_use_lock in
  do! when (negb (use_lock =? 0)) (acquire L_kmem);
  let! r := gets k_freelist in
  do! when (negb (r =? 0)) (modify (fun s => s <| k_freelist := ld32 (k_mem s) r |>));
  do! when (negb (use_lock =? 0)) (release L_kmem);
  ret r.

(** The loop of [freerange] makes at most [n] steps. *)
Fixpoint freerange_loop (n : nat) (p vend : Z) : K unit :=
  match n with
  | O => fail FFuel
  | S n' =>
      if p +u PGSIZE <=? vend then do! kfree p; freerange_loop n' (p +u PGSIZE) vend
      else ret tt
  end.

Definition freerange (vstart vend : Z) : K unit :=
  let p := PGROUNDUP vstart in
  freerange_loop (Z.to_nat (vend / PGSIZE) + 1) p vend.

Definition kinit1 (vstart vend : Z) : K unit :=
  do! initlock L_kmem "kmem";
  do! modify (fun s => s <| k_use_lock := 0 |>);
  freerange vstart vend.

Definition kinit2 (vstart vend : Z) : K unit :=
  do! freerange vstart vend;
  modify (fun s => s <| k_use_lock := 1 |>).

(** ** The free list *)

Inductive chain (m : mem) : Z -> list Z -> Prop :=
| chain_nil : chain m 0 []
| chain_cons p l : p <> 0 -> chain m (ld32 m p) l -> chain m p (p :: l).

(** A page that the allocator may hold. *)
Definition page_ok (v : Z) : Prop :=
  v mod PGSIZE = 0 /\ sym_end <= v /\ v < KERNBASE + PHYSTOP.

Record kmem_inv (s : kernel) (l : list Z) : Prop := {
  kmem_bytes : mem_ok (k_mem s);
  kmem_chain : chain (k_mem s) (k_freelist s) l;
  kmem_pages : Forall page_ok l;
  kmem_nodup : NoDup l
}.

(** The allocator's lock can be taken, or is not in use yet. *)
Definition kmem_ready (s : kernel) : Prop :=
  k_use_lock s = 0 \/ (on_cpu_wf s /\ lock_free L_kmem s).

(** The state after the allocator's critical section. *)
Definition after_kmem (s : kernel) : kernel := if k_use_lock s =? 0 then s else settle s.

Context {LO : LinkerOk L}.

Lemma page_ok_range v : page_ok v -> KERNBASE < v < KERNBASE + PHYSTOP.
Proof. intros (_ & ? & ?). pose proof sym_data_range. unfold KERNLINK, EXTMEM in *. lia. Qed.

Lemma page_ok_u32 v : page_ok v -> is_u32 v.
Proof. intros ?%page_ok_range. unfold is_u32, KERNBASE, PHYSTOP in *. lia. Qed.

Lemma kfree_guard v : is_u32 v ->
  negb (v mod PGSIZE =? 0) || (v <? sym_end) || (PHYSTOP <=? V2P v) = false <-> page_ok v.
Proof.
  intros Hv. unfold page_ok, V2P, u32. unfold is_u32 in Hv.
  rewrite !orb_false_iff, negb_false_iff, Z.eqb_eq, Z.ltb_ge, Z.leb_gt.
  pose proof sym_data_range as [Hd1 Hd2]. pose proof sym_end_range.
  unfold KERNLINK, EXTMEM, KERNBASE, PHYSTOP in *.
  split; [intros [[H1 H2] H3]|intros (H1 & H2 & H3)]; split_and!; auto.
  - rewrite Z.mod_small in H3 by lia. lia.
  - rewrite Z.mod_small by lia. lia.
Qed.

Lemma chain_agree m m' p l :
  (forall q, q ∈ l -> ld32 m' q = ld32 m q) -> chain m p l -> chain m' p l.
Proof.
  intros H Hc. induction Hc as [|p l Hp Hc IH]; constructor; [done|].
  rewrite H by (constructor). apply IH. intros. apply H. by constructor.
Qed.

Lemma chain_head m p l : chain m p l -> match l with [] => p = 0 | q :: _ => p = q end.
Proof. by destruct 1. Qed.

(** Distinct pages do not overlap. *)
Lemma page_apart v q : page_ok v -> page_ok q -> v <> q -> q + 4 <= v \/ v + PGSIZE <= q.
Proof.
  intros (Hv & _) (Hq & _) Hne. unfold PGSIZE in *. Z.div_mod_to_equations. lia.
Qed.

(** The critical sections of the allocator, with or without the lock. *)
Lemma kmem_cs (s : kernel) (f : kernel -> kernel) :
  kmem_ready s -> (forall s, same_locks s (f s)) ->
  (do! when (negb (k_use_lock s =? 0)) (acquire L_kmem);
   do! modify f;
   when (negb (k_use_lock s =? 0)) (release L_kmem)) s =
  Ret tt (if k_use_lock s =? 0 then f s
          else (f (acq L_kmem s)) <| k_cpus := k_cpus (settle s) |> <| k_locks := k_locks s |>).
Proof.
  intros Hr Hf. destruct (Z.eqb_spec (k_use_lock s) 0) as [E|E]; cbn [negb when].
  - done.
  - destruct Hr as [?|[Hwf Hl]]; [done|].
    rewrite (bind_ret _ _ _ _ _ (acquire_ret _ _ (on_cpu_wf_chip _ Hwf) Hl)).
    erewrite bind_ret by reflexivity.
    assert (Hin : in_cs L_kmem (f (acq L_kmem s)))
      by (eapply in_cs_same; [apply Hf|by apply acq_in_cs]).
    rewrite (release_ret _ _ Hin), (rel_acq _ s) by (done || apply Hf). done.
Qed.

(** [kfree v] on a page that is in use: the page is filled with ones and
    becomes the head of the list. *)
Lemma kfree_ret s v :
  page_ok v -> kmem_ready s ->
  kfree v s = Ret tt ((after_kmem s)
    <| k_mem := st32 (memset (k_mem s) v 1 PGSIZE) v (k_freelist s) |> <| k_freelist := v |>).
Proof.
  intros Hv Hr. unfold kfree.
  rewrite (proj2 (kfree_guard v (page_ok_u32 v Hv)) Hv).
  erewrite bind_ret by reflexivity. erewrite bind_ret by reflexivity.
  set (s1 := s <| k_mem := memset (k_mem s) v 1 PGSIZE |>).
  change (k_use_lock s1) with (k_use_lock s).
  pose proof (kmem_cs s1 (fun s => s <| k_mem := st32 (k_mem s) v (k_freelist s) |>
    <| k_freelist := v |>)) as H.
  change (k_use_lock s1) with (k_use_lock s) in H.
  rewrite H; [|done|done]. unfold after_kmem. by case_match.
Qed.

Lemma kfree_panic s v :
  is_u32 v -> ~ page_ok v -> kfree v s = Fault (FPanic "kfree") s.
Proof.
  intros Hu Hv. unfold kfree. case_match eqn:E; [done|].
  by apply (kfree_guard v Hu) in E.
Qed.

Lemma kfree_inv s v l s' :
  kmem_inv s l -> page_ok v -> v ∉ l ->
  s' = (after_kmem s) <| k_mem := st32 (memset (k_mem s) v 1 PGSIZE) v (k_freelist s) |>
         <| k_freelist := v |> ->
  kmem_inv s' (v :: l).
Proof.
  intros [Hm Hc Hp Hn] Hv Hnin ->. cbn.
  assert (Hfl : is_u32 (k_freelist s)).
  { pose proof (chain_head _ _ _ Hc) as Hh. destruct l as [|q l]; rewrite Hh.
    - unfold is_u32. lia.
    - apply page_ok_u32. by apply Forall_cons in Hp as [? _]. }
  split; cbn.
  - apply mem_ok_st32, mem_ok_memset, Hm.
  - constructor; [apply page_ok_range in Hv; unfold KERNBASE in *; lia|].
    rewrite ld32_st32_eq by done. eapply chain_agree; [|exact Hc].
    intros q Hq. assert (Hqok : page_ok q) by (by eapply Forall_forall in Hp).
    assert (Hne : v <> q) by (by intros ->).
    pose proof (page_apart v q Hv Hqok Hne) as Hap. unfold PGSIZE in Hap.
    rewrite ld32_st32_ne by lia. apply ld32_agree. intros i Hi.
    rewrite ld8_memset, decide_False by (unfold PGSIZE; lia). done.
  - by constructor.
  - by constructor.
Qed.

(** [kalloc] returns the head of the list, or 0 when there is none. *)
Lemma kalloc_ret s :
  kmem_ready s ->
  kalloc s = Ret (k_freelist s)
    (if k_freelist s =? 0 then after_kmem s
     else (after_kmem s) <| k_freelist := ld32 (k_mem s) (k_freelist s) |>).
Proof.
  intros Hr. unfold kalloc. erewrite bind_ret by reflexivity.
  destruct (Z.eqb_spec (k_use_lock s) 0) as [E|E]; cbn [negb when].
  - unfold after_kmem. rewrite E. cbn. unfold when.
    destruct (Z.eqb_spec (k_freelist s) 0); done.
  - destruct Hr as [?|[Hwf Hl]]; [done|].
    rewrite (bind_ret _ _ _ _ _ (acquire_ret _ _ (on_cpu_wf_chip _ Hwf) Hl)).
    erewrite bind_ret by reflexivity. change (k_freelist (acq L_kmem s)) with (k_freelist s).
    unfold when, after_kmem. rewrite (proj2 (Z.eqb_neq _ _) E).
    destruct (Z.eqb_spec (k_freelist s) 0) as [E0|E0]; cbn [negb].
    + erewrite bind_ret by reflexivity.
      rewrite (bind_ret _ _ _ _ _ (release_ret _ _ (acq_in_cs L_kmem s Hwf))).
      by rewrite (rel_acq _ s).
    + erewrite bind_ret by reflexivity.
      erewrite bind_ret
        by (apply release_ret; eapply in_cs_same; [|by apply acq_in_cs]; by split_and!).
      by rewrite (rel_acq _ s).
Qed.

Lemma kalloc_some s p l :
  kmem_ready s -> kmem_inv s (p :: l) ->
  exists s', kalloc s = Ret p s' /\ kmem_inv s' l /\ k_mem s' = k_mem s /\
    s' = (after_kmem s) <| k_freelist := k_freelist s' |>.
Proof.
  intros Hr [Hm Hc Hp Hn]. pose proof (kalloc_ret s Hr) as H.
  inversion Hc as [|? ? Hp0 Hc' E1]; subst.
  rewrite (proj2 (Z.eqb_neq _ _) Hp0) in H. eexists. split; [exact H|].
  assert (Hfl : k_mem (after_kmem s) = k_mem s) by (unfold after_kmem; by case_match).
  split_and!; [|done|done].
  split; cbn; rewrite ?Hfl; [done|done|by apply Forall_cons in Hp as []|by apply NoDup_cons in Hn as []].
Qed.

Lemma kalloc_none s :
  kmem_ready s -> kmem_inv s [] -> kalloc s = Ret 0 (after_kmem s).
Proof.
  intros Hr [Hm Hc Hp Hn]. inversion Hc as [E|]; subst.
  rewrite (kalloc_ret s Hr), <- E. done.
Qed.

Lemma on_cpu_wf_settle s : on_cpu_wf s -> on_cpu_wf (settle s).
Proof.
  intros (c & Hc & Hwf). exists (cpu_settle c). split.
  - by apply on_cpu_lookup.
  - unfold cpu_settle. destruct Hwf as [H0 H1]. case_match; [split; cbn; [lia|]|by split].
    intros. apply Z.eqb_eq in H. lia.
Qed.

(** The allocator stays usable, whatever else the memory holds. *)
Lemma kmem_ready_after s m fl :
  kmem_ready s -> kmem_ready ((after_kmem s) <| k_mem := m |> <| k_freelist := fl |>).
Proof.
  intros [H|[H1 H2]]; unfold after_kmem, kmem_ready.
  - left. cbn. by rewrite H.
  - case_match eqn:E; [left; by apply Z.eqb_eq|]. right. split; [by apply on_cpu_wf_settle in H1|done].
Qed.

(** ** The allocator as a stack of pages *)

Inductive kop := OAlloc | OFree (v : Z).

(** The abstract allocator: a stack, with the result of each operation. *)
Definition stack_step (l : list Z) (o : kop) : Z * list Z :=
  match o with
  | OAlloc => match l with [] => (0, []) | p :: l' => (p, l') end
  | OFree v => (0, v :: l)
  end.

Fixpoint stack_run (l : list Z) (ops : list kop) : list Z * list Z :=
  match ops with
  | [] => ([], l)
  | o :: ops' =>
      let '(r, l1) := stack_step l o in
      let '(rs, l2) := stack_run l1 ops' in (r :: rs, l2)
  end.

(** A page is freed only when it is not free already. *)
Fixpoint legal (l : list Z) (ops : list kop) : Prop :=
  match ops with
  | [] => True
  | o :: ops' =>
      match o with OAlloc => True | OFree v => page_ok v /\ v ∉ l end /\
      legal (snd (stack_step l o)) ops'
  end.

Definition kop_run (o : kop) : K Z :=
  match o with OAlloc => kalloc | OFree v => do! kfree v; ret 0 end.

Fixpoint kops_run (ops : list kop) : K (list Z) :=
  match ops with
  | [] => ret []
  | o :: ops' => let! r := kop_run o in let! rs := kops_run ops' in ret (r :: rs)
  end.

Lemma kop_run_refines s l o :
  kmem_ready s -> kmem_inv s l ->
  match o with OAlloc => True | OFree v => page_ok v /\ v ∉ l end ->
  exists s', kop_run o s = Ret (fst (stack_step l o)) s' /\
    kmem_inv s' (snd (stack_step l o)) /\ kmem_ready s'.
Proof.
  intros Hr Hi Ho. destruct o as [|v]; simpl.
  - destruct l as [|p l].
    + exists (after_kmem s). split_and!; [by apply kalloc_none| |].
      * destruct Hi. unfold after_kmem. case_match; by split.
      * apply (kmem_ready_after s (k_mem s) (k_freelist s)) in Hr.
        unfold after_kmem in *. by case_match.
    + destruct (kalloc_some s p l Hr Hi) as (s' & H1 & H2 & H3 & H4).
      exists s'. split_and!; [done|done|]. rewrite H4.
      apply (kmem_ready_after s (k_mem s) (k_freelist s')) in Hr.
      unfold after_kmem in *. by case_match.
  - destruct Ho as [Hv Hn]. erewrite bind_ret by (by apply kfree_ret).
    eexists. split_and!; [done| |].
    + by eapply kfree_inv.
    + by apply kmem_ready_after.
Qed.

Lemma kops_run_refines ops s l :
  kmem_ready s -> kmem_inv s l -> legal l ops ->
  exists s', kops_run ops s = Ret (fst (stack_run l ops)) s' /\
    kmem_inv s' (snd (stack_run l ops)) /\ kmem_ready s'.
Proof.
  revert s l. induction ops as [|o ops IH]; intros s l Hr Hi Hl; simpl.
  - by exists s.
  - destruct Hl as [Ho Hl].
    destruct (kop_run_refines s l o Hr Hi Ho) as (s1 & H1 & H2 & H3).
    destruct (IH s1 _ H3 H2 Hl) as (s2 & H4 & H5 & H6).
    destruct (stack_step l o) as [r l1]. simpl in *.
    destruct (stack_run l1 ops) as [rs l2]. simpl in *.
    exists s2. split_and!; [|done|done].
    by rewrite (bind_ret _ _ _ _ _ H1), (bind_ret _ _ _ _ _ H4).
Qed.

(** ** freerange *)

(** The [n] pages from [p] upwards. *)
Definition pages (p : Z) (n : nat) : list Z := (fun i => p + PGSIZE * Z.of_nat i) <$> seq 0 n.

Lemma pages_S p n : pages p (S n) = p :: pages (p + PGSIZE) n.
Proof.
  unfold pages. rewrite <- cons_seq. simpl. rewrite Z.mul_0_r, Z.add_0_r. f_equal.
  rewrite <- fmap_S_seq, <- list_fmap_compose.
  apply list_fmap_ext. intros i x Hx. simpl. lia.
Qed.

Lemma elem_of_pages q p n : q ∈ pages p n <-> exists i, (i < n)%nat /\ q = p + PGSIZE * Z.of_nat i.
Proof.
  unfold pages. rewrite list_elem_of_fmap. split.
  - intros (i & -> & Hi). apply elem_of_seq in Hi. exists i. split; [lia|done].
  - intros (i & Hi & ->). exists i. split; [done|]. apply elem_of_seq. lia.
Qed.

Lemma freerange_loop_spec fuel n p vend s l :
  (n < fuel)%nat ->
  p + PGSIZE * Z.of_nat n <= vend < p + PGSIZE * (Z.of_nat n + 1) ->
  p mod PGSIZE = 0 -> sym_end <= p -> vend <= KERNBASE + PHYSTOP ->
  kmem_ready s -> kmem_inv s l -> (forall q, q ∈ pages p n -> q ∉ l) ->
  exists s', freerange_loop fuel p vend s = Ret tt s' /\
    kmem_inv s' (reverse (pages p n) ++ l) /\ kmem_ready s'.
Proof.
  revert fuel p s l. induction n as [|n IH]; intros fuel p s l Hf Hv Hal He Hv2 Hr Hi Hd.
  all: destruct fuel as [|fuel]; [lia|]; simpl.
  all: assert (Hw : p +u PGSIZE = p + PGSIZE).
  1, 3: pose proof sym_data_range; unfold u32, KERNLINK, EXTMEM, KERNBASE, PHYSTOP, PGSIZE in *;
        apply Z.mod_small; lia.
  - rewrite Hw, (proj2 (Z.leb_gt _ _)) by lia. by exists s.
  - rewrite Hw, (proj2 (Z.leb_le _ _)) by (unfold PGSIZE in *; lia).
    assert (Hp : page_ok p) by (split_and!; [done|lia|unfold PGSIZE in *; lia]).
    rewrite (bind_ret _ _ _ _ _ (kfree_ret s p Hp Hr)).
    assert (Hpl : p ∉ l) by (apply Hd; rewrite pages_S; constructor).
    edestruct (IH fuel (p + PGSIZE)) as (s' & H1 & H2 & H3);
      [lia|unfold PGSIZE in *; lia| |unfold PGSIZE in *; lia|lia|by apply kmem_ready_after
      |by eapply kfree_inv| |].
    + rewrite <- Hal. unfold PGSIZE. by rewrite <- (Z.mul_1_l 4096) at 1; rewrite Z.mod_add by lia.
    + intros q Hq [->|Hq2]%elem_of_cons.
      * apply elem_of_pages in Hq as (i & Hi2 & Hq). unfold PGSIZE in Hq. lia.
      * apply (Hd q); [rewrite pages_S; by constructor|done].
    + exists s'. rewrite H1. split_and!; [done| |done].
      rewrite pages_S, reverse_cons, <- (assoc_L (++)). done.
Qed.

Lemma PGROUNDUP_spec a :
  0 <= a -> a + PGSIZE - 1 < 2 ^ 32 ->
  PGROUNDUP a mod PGSIZE = 0 /\ a <= PGROUNDUP a < a + PGSIZE.
Proof.
  intros H0 H1. unfold PGROUNDUP, u32, PGSIZE in *. change (4096 - 1) with (Z.ones 12).
  rewrite (Z.mod_small (a + Z.ones 12)) by (change (Z.ones 12) with 4095; lia).
  rewrite <- Z.ldiff_land, Z.ldiff_ones_r, Z.shiftl_mul_pow2, Z.shiftr_div_pow2 by lia.
  change (Z.ones 12) with 4095. change (2 ^ 12) with 4096.
  split; [apply Z.mod_mul; lia|]. Z.div_mod_to_equations. lia.
Qed.

(** All the pages inside [vstart, vend) go on the free list. *)
Lemma freerange_spec vstart vend n s l :
  sym_end <= vstart <= vend -> vend <= KERNBASE + PHYSTOP ->
  let p := PGROUNDUP vstart in
  p + PGSIZE * Z.of_nat n <= vend < p + PGSIZE * (Z.of_nat n + 1) ->
  kmem_ready s -> kmem_inv s l -> (forall q, q ∈ pages p n -> q ∉ l) ->
  exists s', freerange vstart vend s = Ret tt s' /\
    kmem_inv s' (reverse (pages p n) ++ l) /\ kmem_ready s'.
Proof.
  intros Hs He p Hn Hr Hi Hd.
  pose proof sym_data_range. unfold KERNLINK, EXTMEM, KERNBASE, PHYSTOP in *.
  destruct (PGROUNDUP_spec vstart) as [H1 H2]; [lia|unfold PGSIZE in *; lia|].
  apply freerange_loop_spec; auto; unfold PGSIZE in *; fold p in H1, H2; try lia.
  enough (Z.of_nat n < vend / 4096 + 1)
    by (assert (0 <= vend / 4096) by (apply Z.div_pos; lia); lia).
  Z.div_mod_to_equations. lia.
Qed.
End kalloc.
