(* ===== verification/ConsoleOut.v ===== *)
(** * console.c, uart.c: output

    [consputc] sends a character to the serial port and to the screen;
    [cprintf] formats onto it, and [panic] stops the machine.  The two devices
    are what the state keeps of them: the bytes sent ([uart_out]), the cursor
    register and the cells of the screen. *)

From Stdlib Require Import Ascii String.
From S2P Require Import Prelude State Monad Mem Spinlock.

(** The bytes of a string literal, and a character constant. *)
Fixpoint bytes (s : string) : list Z :=
  match s with
  | EmptyString => []
  | String c s' => Z.of_nat (nat_of_ascii c) :: bytes s'
  end.
Definition ch (s : string) : Z := hd 0 (bytes s).

Definition NL : Z := 10.
Definition BS : Z := 8.
Definition BACKSPACE : Z := 0x100.

Definition setcons (f : console -> console) : K unit :=
  modify (fun s => s <| k_cons := f (k_cons s) |>).

(** ** The devices *)

(** The wait for the transmitter is at most 128 polls of the line status and
    changes nothing; the byte is sent in any case. *)
Definition uartputc (c : Z) : K unit :=
  let! co := gets k_cons in
  if uart co =? 0 then ret tt
  else setcons (fun co => co <| uart_out := uart_out co ++ [u8 c] |>).

Definition crt_get (m : gmap Z Z) (i : Z) : Z := default 0 (m !! i).

(** [memmove(crt, crt+80, sizeof(crt[0])*23*80)] and
    [memset(crt+pos, 0, sizeof(crt[0])*(24*80 - pos))] *)
Definition crt_scroll (m : gmap Z Z) : gmap Z Z :=
  foldl (fun m' i => <[Z.of_nat i := crt_get m (Z.of_nat i + 80)]> m') m (seq 0 (23 * 80)).
Definition crt_clear (m : gmap Z Z) (pos : Z) : gmap Z Z :=
  foldl (fun m' i => <[pos + Z.of_nat i := 0]> m') m (seq 0 (Z.to_nat (24 * 80 - pos))).

Definition cgaputc (c : Z) : K unit :=
  let! pos0 := gets (fun s => crt_pos (k_cons s)) in
  let! pos :=
    if c =? NL then ret (pos0 + (80 - pos0 mod 80))
    else if c =? BACKSPACE then ret (if 0 <? pos0 then pos0 - 1 else pos0)
    else
      do! setcons (fun co => co <| crt_mem := <[pos0 := Z.lor (Z.land c 0xff) 0x0700]> (crt_mem co) |>);
      ret (pos0 + 1) in
  if (pos <? 0) || (25 * 80 <? pos) then panic "pos under/overflow"
  else
    let! pos :=
      if 24 <=? pos / 80 then
        do! setcons (fun co => co <| crt_mem := crt_scroll (crt_mem co) |>);
        let pos := pos - 80 in
        do! setcons (fun co => co <| crt_mem := crt_clear (crt_mem co) pos |>);
        ret pos
      else ret pos in
    do! setcons (fun co => co <| crt_pos := u8 (Z.shiftr pos 8) * 256 + u8 pos |>);
    setcons (fun co => co <| crt_mem := <[pos := Z.lor 32 0x0700]> (crt_mem co) |>).

Definition consputc (c : Z) : K unit :=
  let! co := gets k_cons in
  if negb (cons_panicked co =? 0) then do! cli; fail FHang
  else
    do! (if c =? BACKSPACE then do! uartputc BS; do! uartputc 32; uartputc BS
         else uartputc c);
    cgaputc c.

(** ** Formatted output *)

Definition digits : list Z := bytes "0123456789abcdef".

(** The digits of [x] from the last one, as the [do] loop of [printint] puts
    them in [buf]; 16 digits fit, 32 bits need at most 16 of them from base 4. *)
Fixpoint digit_loop (n : nat) (ds : list Z) (x base : Z) : list Z :=
  match n with
  | O => []
  | S n' =>
      nth (Z.to_nat (x mod base)) ds 0 ::
      (if x / base =? 0 then [] else digit_loop n' ds (x / base) base)
  end.

(** [xx] is an [int]; the magnitude of a negative number is an [uint]. *)
Definition printint_buf (xx base : Z) (sign : bool) : list Z :=
  let neg := sign && (xx <? 0) in
  let x := if neg then u32 (- xx) else u32 xx in
  digit_loop 16 digits x base ++ (if neg then [ch "-"] else []).

Definition printint (xx base : Z) (sign : bool) : K unit :=
  for_each (reverse (printint_buf (i32 xx) base sign)) consputc.

(** The arguments of [cprintf]: a word, or a pointer to a string. *)
Inductive carg := AInt (z : Z) | AStr (s : option (list Z)).

Fixpoint cprintf_loop (fmt : list Z) (args : list carg) : K unit :=
  match fmt with
  | [] => ret tt
  | c :: fmt1 =>
      if negb (c =? ch "%") then do! consputc c; cprintf_loop fmt1 args
      else
        match fmt1 with
        | [] => ret tt
        | c :: fmt2 =>
            if c =? ch "d" then
              match args with
              | AInt z :: args => do! printint z 10 true; cprintf_loop fmt2 args
              | _ => fail (FUB "cprintf argument")
              end
            else if (c =? ch "x") || (c =? ch "p") then
              match args with
              | AInt z :: args => do! printint z 16 false; cprintf_loop fmt2 args
              | _ => fail (FUB "cprintf argument")
              end
            else if c =? ch "s" then
              match args with
              | AStr s :: args =>
                  do! for_each (until_nul (default (bytes "(null)") s)) consputc;
                  cprintf_loop fmt2 args
              | _ => fail (FUB "cprintf argument")
              end
            else if c =? ch "%" then do! consputc (ch "%"); cprintf_loop fmt2 args
            else do! consputc (ch "%"); do! consputc c; cprintf_loop fmt2 args
        end
  end.

(** [fmt] is the format up to its NUL, [None] for a null pointer. *)
Definition cprintf (fmt : option (list Z)) (args : list carg) : K unit :=
  let! co := gets k_cons in
  let locking := negb (cons_locking co =? 0) in
  do! when locking (acquire L_cons);
  match fmt with
  | None => panic "null fmt"
  | Some fmt =>
      do! cprintf_loop fmt args;
      when locking (release L_cons)
  end.

Definition cprintf_lit (fmt : string) (args : list carg) : K unit := cprintf (Some (bytes fmt)) args.

(** What [panic(s)] does before it stops; [v] is the address of its argument. *)
Definition panic_print (v : Z) (s : list Z) : K unit :=
  do! cli;
  do! setcons (fun co => co <| cons_locking := 0 |>);
  let! c := mycpu in
  do! cprintf_lit "cpu with apicid %d: panic: " [AInt (c_apicid c)];
  do! cprintf (Some s) [];
  do! cprintf (Some [NL]) [];
  let! m := gets k_mem in
  do! for_each (getcallerpcs m v) (fun pc => cprintf_lit " %p" [AInt pc]);
  do! setcons (fun co => co <| cons_panicked := 1 |>);
  fail FHang.

(** ** The screen *)

(** The cursor is on one of the 24 lines in use and the machine is not frozen. *)
Definition cons_ok (co : console) : Prop :=
  cons_panicked co = 0 /\ 0 <= crt_pos co < 24 * 80.

(** Output changes the devices only. *)
Definition cons_same (co co' : console) : Prop :=
  cons_locking co' = cons_locking co /\ cons_panicked co' = cons_panicked co /\
  input_buf co' = input_buf co /\ input_r co' = input_r co /\
  input_w co' = input_w co /\ input_e co' = input_e co.

(** [m] returns after printing: nothing but the console has changed. *)
Definition prints (m : K unit) (s : kernel) : Prop :=
  exists co', m s = Ret tt (s <| k_cons := co' |>) /\ cons_ok co' /\ cons_same (k_cons s) co'.

Lemma cons_same_refl co : cons_same co co.
Proof. by split_and!. Qed.
Lemma cons_same_trans co1 co2 co3 : cons_same co1 co2 -> cons_same co2 co3 -> cons_same co1 co3.
Proof. unfold cons_same. intuition congruence. Qed.
#[export] Hint Resolve cons_same_refl cons_same_trans : core.

Lemma prints_ret s : cons_ok (k_cons s) -> prints (ret tt) s.
Proof. intros. exists (k_cons s). split; [by destruct s|auto]. Qed.

Lemma prints_seq m1 m2 s :
  prints m1 s -> (forall s', cons_ok (k_cons s') -> prints m2 s') -> prints (do! m1; m2) s.
Proof.
  intros (co1 & H1 & Hok1 & Hs1) H2.
  destruct (H2 (s <| k_cons := co1 |>)) as (co2 & H3 & Hok2 & Hs2); [done|].
  exists co2. split_and!; [|done|by eapply cons_same_trans].
  rewrite (bind_ret _ _ _ _ _ H1). done.
Qed.

Lemma prints_for_each {X} (l : list X) body s :
  cons_ok (k_cons s) ->
  (forall x s', cons_ok (k_cons s') -> prints (body x) s') -> prints (for_each l body) s.
Proof.
  revert s. induction l as [|x l IH]; intros s Hok Hb; simpl; [by apply prints_ret|].
  apply prints_seq; auto.
Qed.

Lemma prints_uartputc c s : cons_ok (k_cons s) -> prints (uartputc c) s.
Proof.
  intros Hok. unfold prints, uartputc. unfold bind, gets. cbn. case_match.
  - exists (k_cons s). split; [by destruct s|auto].
  - eexists. split_and!; [done|done|by repeat split].
Qed.

(** The register holds what [cgaputc] writes. *)
Lemma crt_pos_bytes pos : 0 <= pos < 2 ^ 16 -> u8 (Z.shiftr pos 8) * 256 + u8 pos = pos.
Proof.
  intros H. rewrite Z.shiftr_div_pow2 by lia. unfold u8. Z.div_mod_to_equations. lia.
Qed.

Lemma prints_cgaputc c s : cons_ok (k_cons s) -> prints (cgaputc c) s.
Proof.
  intros [Hp Hpos]. unfold cgaputc. set (pos0 := crt_pos (k_cons s)) in *.
  set (f := fun co : console => if (c =? NL) || (c =? BACKSPACE) then co
    else co <| crt_mem := <[pos0 := Z.lor (Z.land c 0xff) 0x0700]> (crt_mem co) |>).
  assert (Hmid : exists pos, (if c =? NL then ret (pos0 + (80 - pos0 mod 80))
      else if c =? BACKSPACE then ret (if 0 <? pos0 then pos0 - 1 else pos0)
      else do! setcons (fun co => co <| crt_mem := <[pos0 := Z.lor (Z.land c 0xff) 0x0700]> (crt_mem co) |>);
           ret (pos0 + 1)) s = Ret pos (s <| k_cons := f (k_cons s) |>) /\ 0 <= pos <= 24 * 80).
  { unfold f. destruct (c =? NL); [|destruct (c =? BACKSPACE)]; cbn [orb]; eexists; (split; [by destruct s|]).
    - Z.div_mod_to_equations. lia.
    - destruct (Z.ltb_spec 0 pos0); lia.
    - lia. }
  destruct Hmid as (pos & Hmid & Hpos1).
  assert (Hf : cons_panicked (f (k_cons s)) = 0 /\ cons_same (k_cons s) (f (k_cons s))).
  { clear Hmid. unfold f. destruct ((c =? NL) || (c =? BACKSPACE)); (split; [exact Hp|by repeat split]). }
  destruct Hf as [Hf1 Hf2]. unfold prints.
  destruct (24 <=? pos / 80) eqn:Hs; (eexists; split_and!;
    [erewrite bind_ret by reflexivity; cbv beta; fold pos0; rewrite (bind_ret _ _ _ _ _ Hmid);
     rewrite (proj2 (Z.ltb_ge pos 0)), (proj2 (Z.ltb_ge (25 * 80) pos)) by lia; cbn [orb];
     rewrite Hs; reflexivity| |exact Hf2]).
  all: split; [exact Hf1|]; cbn.
  all: first [apply Z.leb_le in Hs|apply Z.leb_gt in Hs].
  all: rewrite crt_pos_bytes by (Z.div_mod_to_equations; lia); Z.div_mod_to_equations; lia.
Qed.

Lemma prints_consputc c s : cons_ok (k_cons s) -> prints (consputc c) s.
Proof.
  intros Hok. unfold consputc.
  assert (H : prints (do! (if c =? BACKSPACE then do! uartputc BS; do! uartputc 32; uartputc BS
         else uartputc c); cgaputc c) s).
  { apply prints_seq; [|by apply prints_cgaputc]. case_match; [|by apply prints_uartputc].
    repeat (apply prints_seq; [by apply prints_uartputc|intros]). by apply prints_uartputc. }
  destruct H as (co' & H & ?). exists co'. split; [|done].
  kget. destruct Hok as [-> _]. exact H.
Qed.

Lemma prints_printint xx base sign s : cons_ok (k_cons s) -> prints (printint xx base sign) s.
Proof. intros. apply prints_for_each; [done|]. intros. by apply prints_consputc. Qed.

(** The conversions of a format agree with the arguments. *)
Fixpoint fmt_ok (fmt : list Z) (args : list carg) : bool :=
  match fmt with
  | [] => true
  | c :: fmt1 =>
      if negb (c =? ch "%") then fmt_ok fmt1 args
      else
        match fmt1 with
        | [] => true
        | c :: fmt2 =>
            if (c =? ch "d") || (c =? ch "x") || (c =? ch "p") then
              match args with AInt _ :: args => fmt_ok fmt2 args | _ => false end
            else if c =? ch "s" then
              match args with AStr _ :: args => fmt_ok fmt2 args | _ => false end
            else fmt_ok fmt2 args
        end
  end.

Lemma prints_cprintf_loop fmt args s :
  fmt_ok fmt args = true -> cons_ok (k_cons s) -> prints (cprintf_loop fmt args) s.
Proof.
  remember (length fmt) as n eqn:E. assert (Hn : (length fmt <= n)%nat) by lia. clear E.
  revert fmt args s Hn. induction n as [|n IH]; intros fmt args s Hn Hf Hok.
  - destruct fmt; [by apply prints_ret|simpl in Hn; lia].
  - destruct fmt as [|c fmt1]; [by apply prints_ret|].
    cbn [cprintf_loop fmt_ok] in *. cbn [length] in Hn. case_match eqn:E0.
    { apply prints_seq; [by apply prints_consputc|]. intros. apply IH; [lia|done|done]. }
    destruct fmt1 as [|c2 fmt2]; [by apply prints_ret|]. cbn [length] in Hn.
    destruct (c2 =? ch "d") eqn:E1; cbn [orb] in *.
    { destruct args as [|[z|z] args]; try done.
      apply prints_seq; [by apply prints_printint|]. intros. apply IH; [lia|done|done]. }
    destruct ((c2 =? ch "x") || (c2 =? ch "p")) eqn:E2.
    { destruct args as [|[z|z] args]; try done.
      apply prints_seq; [by apply prints_printint|]. intros. apply IH; [lia|done|done]. }
    destruct (c2 =? ch "s") eqn:E3.
    { destruct args as [|[z|z] args]; try done.
      apply prints_seq; [apply prints_for_each; [done|intros; by apply prints_consputc]|].
      intros. apply IH; [lia|done|done]. }
    destruct (c2 =? ch "%") eqn:E4.
    { apply prints_seq; [by apply prints_consputc|]. intros. apply IH; [lia|done|done]. }
    apply prints_seq; [by apply prints_consputc|]. intros.
    apply prints_seq; [by apply prints_consputc|]. intros. apply IH; [lia|done|done].
Qed.

(** The console can be printed on: its lock is free if it is in use. *)
Definition cons_ready (s : kernel) : Prop :=
  cons_ok (k_cons s) /\
  (cons_locking (k_cons s) = 0 \/ (on_cpu_wf s /\ lock_free L_cons s)).

Definition after_cons (s : kernel) : kernel :=
  if cons_locking (k_cons s) =? 0 then s else settle s.

Lemma cprintf_ret fmt args s :
  fmt_ok fmt args = true -> cons_ready s ->
  exists co', cprintf (Some fmt) args s = Ret tt ((after_cons s) <| k_cons := co' |>) /\
    cons_ok co' /\ cons_same (k_cons s) co'.
Proof.
  intros Hf [Hok Hr]. unfold cprintf, after_cons. erewrite bind_ret by reflexivity.
  destruct (Z.eqb_spec (cons_locking (k_cons s)) 0) as [E|E]; cbn [negb when].
  - destruct (prints_cprintf_loop fmt args s Hf Hok) as (co' & H & H1 & H2).
    exists co'. split_and!; [|done|done].
    erewrite bind_ret by reflexivity. by rewrite (bind_ret _ _ _ _ _ H).
  - destruct Hr as [?|[Hwf Hl]]; [done|].
    rewrite (bind_ret _ _ _ _ _ (acquire_ret _ _ (on_cpu_wf_chip _ Hwf) Hl)).
    destruct (prints_cprintf_loop fmt args (acq L_cons s) Hf Hok) as (co' & H & H1 & H2).
    exists co'. split_and!; [|done|done]. rewrite (bind_ret _ _ _ _ _ H).
    rewrite release_ret by (eapply in_cs_same; [|by apply acq_in_cs]; by split_and!).
    by rewrite (rel_acq _ s).
Qed.

(** ** Numbers *)

(** The value of digits that start with the least significant one. *)
Fixpoint digits_value (ds : list Z) (base : Z) (l : list Z) : Z :=
  match l with
  | [] => 0
  | c :: l' =>
      default 0 (Z.of_nat <$> (fst <$> list_find (fun d => d = c) ds)) + base * digits_value ds base l'
  end.

Lemma find_digit i :
  0 <= i < 16 ->
  default 0 (Z.of_nat <$> (fst <$> list_find (fun d => d = nth (Z.to_nat i) digits 0) digits)) = i.
Proof.
  intros H. assert (Hi : exists n, i = Z.of_nat n /\ (n < 16)%nat) by (exists (Z.to_nat i); lia).
  destruct Hi as (n & -> & Hn). rewrite Nat2Z.id.
  do 16 (destruct n as [|n]; [reflexivity|]). lia.
Qed.

Lemma digit_loop_value n x base :
  2 <= base <= 16 -> 0 <= x < base ^ Z.of_nat n -> (0 < n)%nat ->
  digits_value digits base (digit_loop n digits x base) = x.
Proof.
  intros Hb. revert x. induction n as [|n IH]; intros x Hx Hn; [lia|].
  cbn [digit_loop digits_value].
  pose proof (Z.mod_pos_bound x base ltac:(lia)) as Hm.
  rewrite find_digit by lia.
  rewrite Nat2Z.inj_succ, Z.pow_succ_r in Hx by lia.
  pose proof (Z.div_mod x base ltac:(lia)) as Hdm.
  destruct (Z.eqb_spec (x / base) 0) as [E|E]; cbn [digits_value].
  - rewrite E in Hdm. lia.
  - assert (0 <= x / base) by (apply Z.div_pos; lia).
    assert (x / base < base ^ Z.of_nat n) by (apply Z.div_lt_upper_bound; lia).
    rewrite IH; [lia|lia|]. destruct n; [|lia]. change (base ^ Z.of_nat 0) with 1 in *. lia.
Qed.
