(* ===== verification/Ports.v ===== *)
(** * Devices, and the interrupt controllers

    What the processor instructions [in], [out] and the accesses to
    memory-mapped registers do is up to the devices: the class [Ports].  On it
    are built picirq.c, ioapic.c, lapic.c and mp.c. *)

From S2P Require Import Prelude State Monad Mem Spinlock ConsoleOut Kalloc.

Class Ports := {
  inb : Z -> K Z;
  outb : Z -> Z -> K unit;
  insl : Z -> nat -> K (list Z);      (* so many words, as bytes *)
  outsl : Z -> list Z -> K unit;
  mmio_read : Z -> K Z;
  mmio_write : Z -> Z -> K unit
}.

Section ports.
Context {P : Ports} {F : Fuel}.

(** ** picirq.c *)

Definition IO_PIC1 : Z := 0x20.
Definition IO_PIC2 : Z := 0xA0.
Definition IRQ_SLAVE : Z := 2.

Definition picsetmask (mask : Z) : K unit :=
  do! modify (fun s => s <| k_irqmask := mask |>);
  do! outb (IO_PIC1 + 1) (u8 mask);
  outb (IO_PIC2 + 1) (u8 (Z.shiftr mask 8)).

Definition picenable (irq : Z) : K unit :=
  let! irqmask := gets k_irqmask in
  picsetmask (u16 (Z.land irqmask (Z.lnot (Z.shiftl 1 irq)))).

Definition picinit : K unit :=
  do! outb (IO_PIC1 + 1) 0xFF;
  do! outb (IO_PIC2 + 1) 0xFF;
  do! outb IO_PIC1 0x11;
  do! outb (IO_PIC1 + 1) T_IRQ0;
  do! outb (IO_PIC1 + 1) (Z.shiftl 1 IRQ_SLAVE);
  do! outb (IO_PIC1 + 1) 0x3;
  do! outb IO_PIC2 0x11;
  do! outb (IO_PIC2 + 1) (T_IRQ0 + 8);
  do! outb (IO_PIC2 + 1) IRQ_SLAVE;
  do! outb (IO_PIC2 + 1) 0x3;
  do! outb IO_PIC1 0x68;
  do! outb IO_PIC1 0x0a;
  do! outb IO_PIC2 0x68;
  do! outb IO_PIC2 0x0a;
  let! irqmask := gets k_irqmask in
  when (negb (irqmask =? 0xFFFF)) (picsetmask irqmask).

(** ** ioapic.c *)

Definition IOAPIC : Z := 0xFEC00000.
Definition REG_ID : Z := 0x00.
Definition REG_VER : Z := 0x01.
Definition REG_TABLE : Z := 0x10.
Definition INT_DISABLED : Z := 0x10000.

(** [ioapic->reg] is at offset 0, [ioapic->data] at 16. *)
Definition ioapicread (reg : Z) : K Z :=
  let! ioapic := gets k_ioapic in
  do! mmio_write ioapic reg;
  mmio_read (ioapic + 16).
Definition ioapicwrite (reg data : Z) : K unit :=
  let! ioapic := gets k_ioapic in
  do! mmio_write ioapic reg;
  mmio_write (ioapic + 16) data.

Definition ioapicinit : K unit :=
  let! ismp := gets k_ismp in
  when (negb (ismp =? 0)) (
    do! modify (fun s => s <| k_ioapic := IOAPIC |>);
    let! ver := ioapicread REG_VER in
    let maxintr := Z.land (Z.shiftr ver 16) 0xFF in
    let! r := ioapicread REG_ID in
    let id := Z.shiftr r 24 in
    let! ioapicid := gets k_ioapicid in
    do! when (negb (id =? ioapicid))
      (cprintf (Some (bytes "ioapicinit: id isn't equal to ioapicid; not a MP" ++ [NL])) []);
    for_each (seq 0 (Z.to_nat (maxintr + 1))) (fun k =>
      let i := Z.of_nat k in
      do! ioapicwrite (REG_TABLE + 2 * i) (Z.lor INT_DISABLED (T_IRQ0 + i));
      ioapicwrite (REG_TABLE + 2 * i + 1) 0)).

Definition ioapicenable (irq cpunum : Z) : K unit :=
  let! ismp := gets k_ismp in
  when (negb (ismp =? 0)) (
    do! ioapicwrite (REG_TABLE + 2 * irq) (T_IRQ0 + irq);
    ioapicwrite (REG_TABLE + 2 * irq + 1) (u32 (Z.shiftl cpunum 24))).

(** ** lapic.c *)

Definition LAPIC_ID : Z := 0x0020 / 4.
Definition LAPIC_VER : Z := 0x0030 / 4.
Definition TPR : Z := 0x0080 / 4.
Definition EOI : Z := 0x00B0 / 4.
Definition SVR : Z := 0x00F0 / 4.
Definition ENABLE : Z := 0x100.
Definition ESR : Z := 0x0280 / 4.
Definition ICRLO : Z := 0x0300 / 4.
Definition INIT : Z := 0x500.
Definition STARTUP : Z := 0x600.
Definition DELIVS : Z := 0x1000.
Definition ASSERT : Z := 0x4000.
Definition LEVEL : Z := 0x8000.
Definition BCAST : Z := 0x80000.
Definition ICRHI : Z := 0x0310 / 4.
Definition TIMER : Z := 0x0320 / 4.
Definition X1 : Z := 0xB.
Definition PERIODIC : Z := 0x20000.
Definition PCINT : Z := 0x0340 / 4.
Definition LINT0 : Z := 0x0350 / 4.
Definition LINT1 : Z := 0x0360 / 4.
Definition ERROR : Z := 0x0370 / 4.
Definition MASKED : Z := 0x10000.
Definition TICR : Z := 0x0380 / 4.
Definition TDCR : Z := 0x03E0 / 4.
Definition IRQ_ERROR : Z := 19.

Definition lapicr (index : Z) : K Z :=
  let! lapic := gets k_lapic in mmio_read (lapic + 4 * index).
Definition lapicw (index value : Z) : K unit :=
  let! lapic := gets k_lapic in
  do! mmio_write (lapic + 4 * index) value;
  do! lapicr LAPIC_ID;
  ret tt.

Definition lapicinit : K unit :=
  let! lapic := gets k_lapic in
  when (negb (lapic =? 0)) (
    do! lapicw SVR (Z.lor ENABLE (T_IRQ0 + IRQ_SPURIOUS));
    do! lapicw TDCR X1;
    do! lapicw TIMER (Z.lor PERIODIC (T_IRQ0 + IRQ_TIMER));
    do! lapicw TICR 10000000;
    do! lapicw LINT0 MASKED;
    do! lapicw LINT1 MASKED;
    let! ver := lapicr LAPIC_VER in
    do! when (4 <=? Z.land (Z.shiftr ver 16) 0xFF) (lapicw PCINT MASKED);
    do! lapicw ERROR (T_IRQ0 + IRQ_ERROR);
    do! lapicw ESR 0;
    do! lapicw ESR 0;
    do! lapicw EOI 0;
    do! lapicw ICRHI 0;
    do! lapicw ICRLO (Z.lor (Z.lor BCAST INIT) LEVEL);
    do! forever fuel (
      let! icrlo := lapicr ICRLO in
      ret (if Z.land icrlo DELIVS =? 0 then Some tt else None));
    lapicw TPR 0).

Definition lapiceoi : K unit :=
  let! lapic := gets k_lapic in
  when (negb (lapic =? 0)) (lapicw EOI 0).

Definition CMOS_PORT : Z := 0x70.
Definition CMOS_RETURN : Z := 0x71.

Definition lapicstartap (apicid addr : Z) : K unit :=
  do! outb CMOS_PORT 0xF;
  do! outb (CMOS_PORT + 1) 0x0A;
  let wrv := P2V (Z.lor (Z.shiftl 0x40 4) 0x67) in
  do! setmem (fun m => st16 m wrv 0);
  do! setmem (fun m => st16 m (wrv + 2) (Z.shiftr addr 4));
  do! lapicw ICRHI (i32 (Z.shiftl apicid 24));
  do! lapicw ICRLO (Z.lor (Z.lor INIT LEVEL) ASSERT);
  do! lapicw ICRLO (Z.lor INIT LEVEL);
  for_each (seq 0 2) (fun _ =>
    do! lapicw ICRHI (i32 (Z.shiftl apicid 24));
    lapicw ICRLO (Z.lor STARTUP (Z.shiftr addr 12))).

(** The clock. *)
Record rtcdate := MkRtcdate {
  rtc_second : Z; rtc_minute : Z; rtc_hour : Z; rtc_day : Z; rtc_month : Z; rtc_year : Z
}.
#[global] Instance rtcdate_eq_dec : EqDecision rtcdate.
Proof. solve_decision. Defined.

Definition CMOS_STATA : Z := 0x0a.
Definition CMOS_STATB : Z := 0x0b.
Definition CMOS_UIP : Z := Z.shiftl 1 7.

Definition cmos_read (reg : Z) : K Z := do! outb CMOS_PORT reg; inb CMOS_RETURN.

Definition fill_rtcdate : K rtcdate :=
  let! s := cmos_read 0x00 in
  let! m := cmos_read 0x02 in
  let! h := cmos_read 0x04 in
  let! d := cmos_read 0x07 in
  let! mo := cmos_read 0x08 in
  let! y := cmos_read 0x09 in
  ret (MkRtcdate s m h d mo y).

Definition bcd_conv (x : Z) : Z := Z.shiftr x 4 * 10 + Z.land x 0xf.

Definition cmostime : K rtcdate :=
  let! sb := cmos_read CMOS_STATB in
  let bcd := Z.land sb (Z.shiftl 1 2) =? 0 in
  let! t1 := forever fuel (
    let! t1 := fill_rtcdate in
    let! sa := cmos_read CMOS_STATA in
    if negb (Z.land sa CMOS_UIP =? 0) then ret None
    else
      let! t2 := fill_rtcdate in
      ret (if bool_decide (t1 = t2) then Some t1 else None)) in
  let c := fun x => if bcd then bcd_conv x else x in
  ret (MkRtcdate (c (rtc_second t1)) (c (rtc_minute t1)) (c (rtc_hour t1)) (c (rtc_day t1))
    (c (rtc_month t1)) (c (rtc_year t1) +u 2000)).

(** ** mp.c *)

Definition MP_SIG : list Z := bytes "_MP_".
Definition PCMP_SIG : list Z := bytes "PCMP".
Definition sizeof_mp : Z := 16.
Definition sizeof_mpconf : Z := 44.
Definition sizeof_mpproc : Z := 20.
Definition sizeof_mpioapic : Z := 8.

Definition sum (m : mem) (addr len : Z) : Z := u8 (foldr Z.add 0 (arr m addr (Z.to_nat len))).

(** [memcmp] with a literal of four characters. *)
Definition has_sig (m : mem) (a : Z) (sig : list Z) : bool := bool_decide (arr m a 4 = sig).

Fixpoint mpsearch1_loop (k : nat) (m : mem) (p : Z) : option Z :=
  match k with
  | O => None
  | S k' =>
      if has_sig m p MP_SIG && (sum m p sizeof_mp =? 0) then Some p
      else mpsearch1_loop k' m (p + sizeof_mp)
  end.
Definition mpsearch1 (m : mem) (a len : Z) : option Z :=
  mpsearch1_loop (Z.to_nat ((len + (sizeof_mp - 1)) / sizeof_mp)) m (P2V a).

Definition mpsearch (m : mem) : option Z :=
  let bda := P2V 0x400 in
  let p := Z.shiftl (Z.lor (Z.shiftl (ld8 m (bda + 0x0F)) 8) (ld8 m (bda + 0x0E))) 4 in
  let found :=
    if negb (p =? 0) then mpsearch1 m p 1024
    else
      let p := Z.lor (Z.shiftl (ld8 m (bda + 0x14)) 8) (ld8 m (bda + 0x13)) * 1024 in
      mpsearch1 m (p -u 1024) 1024 in
  match found with
  | Some mp => Some mp
  | None => mpsearch1 m 0xF0000 0x10000
  end.

(** The floating pointer structure and the configuration table. *)
Definition mpconfig (m : mem) : option (Z * Z) :=
  match mpsearch m with
  | None => None
  | Some mp =>
      let physaddr := ld32 m (mp + 4) in
      if physaddr =? 0 then None
      else
        let conf := P2V physaddr in
        let version := ld8 m (conf + 6) in
        if negb (has_sig m conf PCMP_SIG) then None
        else if negb (version =? 1) && negb (version =? 4) then None
        else if negb (sum m conf (ld16 m (conf + 4)) =? 0) then None
        else Some (mp, conf)
  end.

(** One processor of the table. *)
Definition add_cpu (apicid : Z) (s : kernel) : kernel :=
  if k_ncpu s <? Z.of_nat NCPU then
    s <| k_cpus := alter (fun c : cpu => c <| c_apicid := apicid |>) (Z.to_nat (k_ncpu s)) (k_cpus s) |>
      <| k_ncpu := k_ncpu s + 1 |>
  else s.

(** The [break] of the default case leaves the [switch], not the loop. *)
Fixpoint mpinit_loop (k : nat) (p e : Z) : K unit :=
  if p <? e then
    match k with
    | O => fail FFuel
    | S k' =>
        let! m := gets k_mem in
        let type := ld8 m p in
        if type =? 0 then
          do! modify (add_cpu (ld8 m (p + 1)));
          mpinit_loop k' (p + sizeof_mpproc) e
        else if type =? 2 then
          do! modify (fun s => s <| k_ioapicid := ld8 m (p + 1) |>);
          mpinit_loop k' (p + sizeof_mpioapic) e
        else if (type =? 1) || (type =? 3) || (type =? 4) then mpinit_loop k' (p + 8) e
        else
          do! modify (fun s => s <| k_ismp := 0 |>);
          mpinit_loop k' p e
    end
  else ret tt.

Definition mpinit : K unit :=
  let! m := gets k_mem in
  match mpconfig m with
  | None => ret tt
  | Some (mp, conf) =>
      do! modify (fun s => s <| k_ismp := 1 |>);
      do! modify (fun s => s <| k_lapic := ld32 m (conf + 36) |>);
      let length := ld16 m (conf + 4) in
      do! mpinit_loop (Z.to_nat (length / 8) + 1) (conf + sizeof_mpconf) (conf + length);
      let! ismp := gets k_ismp in
      if ismp =? 0 then
        modify (fun s => s <| k_ncpu := 1 |> <| k_lapic := 0 |> <| k_ioapicid := 0 |>)
      else
        when (negb (ld8 m (mp + 12) =? 0)) (
          do! outb 0x22 0x70;
          let! v := inb 0x23 in
          outb 0x23 (Z.lor v 1))
  end.
End ports.

(** The memory-mapped registers are not variables of the kernel: reading and
    writing them changes none of these. *)
Class MmioQuiet (P : Ports) : Prop := {
  mmio_read_ret a s : exists v, mmio_read a s = Ret v s;
  mmio_write_ret a v s : mmio_write a v s = Ret tt s
}.

Lemma lapiceoi_ret {P : Ports} `{!MmioQuiet P} s : lapiceoi s = Ret tt s.
Proof.
  unfold lapiceoi, lapicw, lapicr. kget. destruct (negb _); [|done]. cbn [when]. kget.
  erewrite bind_ret by apply mmio_write_ret. destruct (mmio_read_ret (k_lapic s + 4 * LAPIC_ID) s) as [v Hv].
  erewrite bind_ret; [reflexivity|]. kget. exact Hv.
Qed.

(** A machine whose ports read as [st] and whose registers read as 0. *)
Module SamplePorts.
Definition ports (st : Z -> Z) : Ports := {|
  inb := fun p => ret (st p);
  outb := fun _ _ => ret tt;
  insl := fun _ n => ret (replicate (4 * n) 0);
  outsl := fun _ _ => ret tt;
  mmio_read := fun _ => ret 0;
  mmio_write := fun _ _ => ret tt
|}.

Lemma ports_quiet st : MmioQuiet (ports st).
Proof. split; [by exists 0|done]. Qed.
End SamplePorts.
