(* ===== verification/Vm.v ===== *)
(** * vm.c: page tables and address spaces

    Page directories and page tables are pages of [k_mem], 1024 little-endian
    words each; [walkpgdir] follows them, [mappages] fills them, and the
    address-space operations of the process code ([setupkvm], [allocuvm],
    [deallocuvm], [freevm], [copyuvm], [copyout], ...) are built from them as
    in the source. *)

From S2P Require Import Prelude State Monad Mem Spinlock Kalloc ConsoleOut.

(** ** mmu.h *)

Definition PDX (va : Z) : Z := Z.land (Z.shiftr va 22) 0x3FF.
Definition PTX (va : Z) : Z := Z.land (Z.shiftr va 12) 0x3FF.
Definition PTE_ADDR (pte : Z) : Z := Z.land pte (Z.lnot 0xFFF).
Definition PTE_FLAGS (pte : Z) : Z := Z.land pte 0xFFF.

Definition SEG (type base lim dpl : Z) : segdesc :=
  MkSegdesc (Z.land (Z.shiftr lim 12) 0xffff) (Z.land base 0xffff)
    (Z.land (Z.shiftr base 16) 0xff) type 1 dpl 1 (Z.shiftr lim 28) 0 0 1 1 (Z.shiftr base 24).

Definition SEG16 (type base lim dpl : Z) : segdesc :=
  MkSegdesc (Z.land lim 0xffff) (Z.land base 0xffff)
    (Z.land (Z.shiftr base 16) 0xff) type 1 dpl 1 (Z.shiftr lim 16) 0 0 1 0 (Z.shiftr base 24).

Definition STA_X : Z := 8.
Definition STA_W : Z := 2.
Definition STA_R : Z := 2.
Definition STS_T32A : Z := 9.
(** [sizeof(struct taskstate)] *)
Definition sizeof_ts : Z := 104.

(** ** Words of kernel memory *)

Definition load32 (a : Z) : K Z := gets (fun s => ld32 (k_mem s) a).
Definition store32 (a v : Z) : K unit := setmem (fun m => st32 m a v).

(** [memmove] of a buffer that is not in [k_mem] (a local array, a string). *)
Fixpoint st_list (m : mem) (a : Z) (l : list Z) : mem :=
  match l with [] => m | b :: l' => st_list (st8 m a b) (a + 1) l' end.

Section vm.
Context {L : Linker}.

Definition seginit : K unit :=
  let! n := gets k_cpunum in
  do! upd_cpu (fun c => c <| c_gdt :=
    <[SEG_KCPU := SEG STA_W (sym_cpu n) 8 0]>
    (<[SEG_UDATA := SEG STA_W 0 0xffffffff DPL_USER]>
    (<[SEG_UCODE := SEG (Z.lor STA_X STA_R) 0 0xffffffff DPL_USER]>
    (<[SEG_KDATA := SEG STA_W 0 0xffffffff 0]>
    (<[SEG_KCODE := SEG (Z.lor STA_X STA_R) 0 0xffffffff 0]> (c_gdt c))))) |>);
  set_myproc None.

(** The address of the page-table entry for [va]; 0 if there is none. *)
Definition walkpgdir (pgdir va : Z) (alloc : bool) : K Z :=
  let pde := pgdir + 4 * PDX va in
  let! e := load32 pde in
  if negb (Z.land e PTE_P =? 0) then ret (P2V (PTE_ADDR e) + 4 * PTX va)
  else if negb alloc then ret 0
  else
    let! pgtab := kalloc in
    if pgtab =? 0 then ret 0
    else
      do! setmem (fun m => memset m pgtab 0 PGSIZE);
      do! store32 pde (Z.lor (Z.lor (Z.lor (V2P pgtab) PTE_P) PTE_W) PTE_U);
      ret (pgtab + 4 * PTX va).

Fixpoint mappages_loop (n : nat) (pgdir a last pa perm : Z) : K Z :=
  match n with
  | O => fail FFuel
  | S n' =>
      let! pte := walkpgdir pgdir a true in
      if pte =? 0 then ret (-1)
      else
        let! e := load32 pte in
        if negb (Z.land e PTE_P =? 0) then panic "remap"
        else
          do! store32 pte (Z.lor (Z.lor pa perm) PTE_P);
          if a =? last then ret 0
          else mappages_loop n' pgdir (a +u PGSIZE) last (pa +u PGSIZE) perm
  end.

Definition mappages (pgdir va size pa perm : Z) : K Z :=
  let a := PGROUNDDOWN va in
  let last := PGROUNDDOWN (va +u size -u 1) in
  mappages_loop (Z.to_nat ((last -u a) / PGSIZE) + 1) pgdir a last pa perm.

(** [kmap]: virtual start, physical start and end, permissions. *)
Definition kmap : list (Z * Z * Z * Z) :=
  [ (KERNBASE, 0, EXTMEM, PTE_W);
    (KERNLINK, V2P KERNLINK, V2P sym_data, 0);
    (sym_data, V2P sym_data, PHYSTOP, PTE_W);
    (DEVSPACE, DEVSPACE, 0, PTE_W) ].

Fixpoint setupkvm_loop (pgdir : Z) (ks : list (Z * Z * Z * Z)) : K Z :=
  match ks with
  | [] => ret pgdir
  | (virt, phys_start, phys_end, perm) :: ks' =>
      let! r := mappages pgdir virt (phys_end -u phys_start) phys_start perm in
      if r <? 0 then ret 0 else setupkvm_loop pgdir ks'
  end.

Definition setupkvm : K Z :=
  let! pgdir := kalloc in
  if pgdir =? 0 then ret 0
  else
    do! setmem (fun m => memset m pgdir 0 PGSIZE);
    if DEVSPACE <? P2V PHYSTOP then panic "PHYSTOP too high"
    else setupkvm_loop pgdir kmap.

Definition lcr3 (pa : Z) : K unit := upd_cpu (fun c => c <| c_cr3 := pa |>).

Definition switchkvm : K unit :=
  let! kpgdir := gets k_kpgdir in lcr3 (V2P kpgdir).

Definition kvmalloc : K unit :=
  let! pgdir := setupkvm in
  do! modify (fun s => s <| k_kpgdir := pgdir |>);
  switchkvm.

(** The kernel stack is that of the current process, the address space that
    of [p]. *)
Definition switchuvm (p : nat) : K unit :=
  do! pushcli;
  let! n := gets k_cpunum in
  do! upd_cpu (fun c => c <| c_gdt := <[SEG_TSS :=
    (SEG16 STS_T32A (sym_ts n) (sizeof_ts - 1) 0) <| sd_s := 0 |>]> (c_gdt c) |>);
  do! upd_cpu (fun c => c <| c_ss0 := Z.shiftl SEG_KDATA 3 |>);
  let! cur := curproc in
  let! q := getproc cur in
  do! upd_cpu (fun c => c <| c_esp0 := p_kstack q +u KSTACKSIZE |>);
  do! upd_cpu (fun c => c <| c_iomb := 0xFFFF |>);
  do! upd_cpu (fun c => c <| c_tr := Z.shiftl SEG_TSS 3 |>);
  let! pr := getproc p in
  if p_pgdir pr =? 0 then panic "switchuvm: no pgdir"
  else
    do! lcr3 (V2P (p_pgdir pr));
    popcli.

(** [inituvm] does not test the page that [kalloc] returns. *)
Definition inituvm (pgdir : Z) (init : list Z) : K unit :=
  let sz := Z.of_nat (length init) in
  if PGSIZE <=? sz then panic "inituvm: more than a page"
  else
    let! pg := kalloc in
    if pg =? 0 then fail (FUB "inituvm: null page")
    else
      do! setmem (fun m => memset m pg 0 PGSIZE);
      do! mappages pgdir 0 PGSIZE (V2P pg) (Z.lor PTE_W PTE_U);
      setmem (fun m => st_list m pg init).

Fixpoint deallocuvm_loop (n : nat) (pgdir a oldsz : Z) : K unit :=
  match n with
  | O => fail FFuel
  | S n' =>
      if negb (a <? oldsz) then ret tt
      else
        let! pte := walkpgdir pgdir a false in
        if pte =? 0 then
          deallocuvm_loop n' pgdir ((a +u (NPTENTRIES - 1) * PGSIZE) +u PGSIZE) oldsz
        else
          let! e := load32 pte in
          if negb (Z.land e PTE_P =? 0) then
            let pa := PTE_ADDR e in
            if pa =? 0 then panic "kfree"
            else
              do! kfree (P2V pa);
              do! store32 pte 0;
              deallocuvm_loop n' pgdir (a +u PGSIZE) oldsz
          else deallocuvm_loop n' pgdir (a +u PGSIZE) oldsz
  end.

Definition deallocuvm (pgdir oldsz newsz : Z) : K Z :=
  if oldsz <=? newsz then ret oldsz
  else
    let a := PGROUNDUP newsz in
    do! deallocuvm_loop (Z.to_nat (oldsz / PGSIZE) + 2) pgdir a oldsz;
    ret newsz.

Fixpoint allocuvm_loop (n : nat) (pgdir a oldsz newsz : Z) : K Z :=
  match n with
  | O => fail FFuel
  | S n' =>
      if negb (a <? newsz) then ret newsz
      else
        let! pg := kalloc in
        if pg =? 0 then
          do! cprintf (Some (bytes "allocuvm out of memory" ++ [NL])) [];
          do! deallocuvm pgdir newsz oldsz;
          ret 0
        else
          do! setmem (fun m => memset m pg 0 PGSIZE);
          let! r := mappages pgdir a PGSIZE (V2P pg) (Z.lor PTE_W PTE_U) in
          if r <? 0 then
            do! cprintf (Some (bytes "allocuvm out of memory (2)" ++ [NL])) [];
            do! deallocuvm pgdir newsz oldsz;
            do! kfree pg;
            ret 0
          else allocuvm_loop n' pgdir (a +u PGSIZE) oldsz newsz
  end.

Definition allocuvm (pgdir oldsz newsz : Z) : K Z :=
  if KERNBASE <=? newsz then ret 0
  else if newsz <? oldsz then ret oldsz
  else
    let a := PGROUNDUP oldsz in
    allocuvm_loop (Z.to_nat (newsz / PGSIZE) + 2) pgdir a oldsz newsz.

Definition freevm (pgdir : Z) : K unit :=
  if pgdir =? 0 then panic "freevm: no pgdir"
  else
    do! deallocuvm pgdir KERNBASE 0;
    do! for_each (seq 0 1024) (fun i =>
      let! e := load32 (pgdir + 4 * Z.of_nat i) in
      when (negb (Z.land e PTE_P =? 0)) (kfree (P2V (PTE_ADDR e))));
    kfree pgdir.

Definition clearpteu (pgdir uva : Z) : K unit :=
  let! pte := walkpgdir pgdir uva false in
  if pte =? 0 then panic "clearpteu"
  else let! e := load32 pte in store32 pte (Z.land e (Z.lnot PTE_U)).

Fixpoint copyuvm_loop (n : nat) (d pgdir i sz : Z) : K Z :=
  match n with
  | O => fail FFuel
  | S n' =>
      if negb (i <? sz) then ret d
      else
        let! pte := walkpgdir pgdir i false in
        if pte =? 0 then panic "copyuvm: pte should exist"
        else
          let! e := load32 pte in
          if Z.land e PTE_P =? 0 then panic "copyuvm: page not present"
          else
            let pa := PTE_ADDR e in
            let flags := PTE_FLAGS e in
            let! pg := kalloc in
            if pg =? 0 then do! freevm d; ret 0
            else
              do! setmem (fun m => memmove m pg (P2V pa) PGSIZE);
              let! r := mappages d i PGSIZE (V2P pg) flags in
              if r <? 0 then do! freevm d; ret 0
              else copyuvm_loop n' d pgdir (i +u PGSIZE) sz
  end.

Definition copyuvm (pgdir sz : Z) : K Z :=
  let! d := setupkvm in
  if d =? 0 then ret 0
  else copyuvm_loop (Z.to_nat (sz / PGSIZE) + 2) d pgdir 0 sz.

(** [uva2ka] does not test the pointer that [walkpgdir] returns. *)
Definition uva2ka (pgdir uva : Z) : K Z :=
  let! pte := walkpgdir pgdir uva false in
  if pte =? 0 then fail (FUB "uva2ka: null pte")
  else
    let! e := load32 pte in
    if Z.land e PTE_P =? 0 then ret 0
    else if Z.land e PTE_U =? 0 then ret 0
    else ret (P2V (PTE_ADDR e)).

(** [copyout] of the bytes [buf]; [n] bounds the number of pages. *)
Fixpoint copyout_loop (n : nat) (pgdir va : Z) (buf : list Z) : K Z :=
  match buf with
  | [] => ret 0
  | _ =>
      match n with
      | O => fail FFuel
      | S n' =>
          let len := Z.of_nat (length buf) in
          let va0 := PGROUNDDOWN va in
          let! pa0 := uva2ka pgdir va0 in
          if pa0 =? 0 then ret (-1)
          else
            let n1 := PGSIZE - (va - va0) in
            let n1 := if len <? n1 then len else n1 in
            do! setmem (fun m => st_list m (pa0 + (va - va0)) (take (Z.to_nat n1) buf));
            copyout_loop n' pgdir (va0 +u PGSIZE) (drop (Z.to_nat n1) buf)
      end
  end.

Definition copyout (pgdir va : Z) (buf : list Z) : K Z :=
  copyout_loop (length buf) pgdir va buf.
End vm.
