(* ===== verification/VmFacts.v ===== *)
(** * Page tables: lemmas

    An address space is a page directory and the page tables it points to
    ([space]); [pte] is the entry that the two levels give for an address.
    What [walkpgdir] and [mappages] do to the entries, for a kernel whose free
    list is [l]: the pages of the space and the free pages are all distinct. *)

From S2P Require Import Prelude State Monad Mem Spinlock Kalloc ConsoleOut Vm.

(** ** Addresses and entries *)

Definition aligned (a : Z) : Prop := a mod PGSIZE = 0.

Lemma aligned_add a : aligned a -> aligned (a + PGSIZE).
Proof. unfold aligned, PGSIZE. Z.div_mod_to_equations. lia. Qed.

Lemma land_low a n : 0 <= n -> Z.land a (2 ^ n - 1) = a mod 2 ^ n.
Proof. intros H. rewrite <- Z.land_ones by done. f_equal. rewrite Z.ones_equiv. lia. Qed.

Lemma land_high a n : 0 <= n -> Z.land a (Z.lnot (2 ^ n - 1)) = a - a mod 2 ^ n.
Proof.
  intros H. rewrite <- Z.ldiff_land. replace (2 ^ n - 1) with (Z.ones n) by (rewrite Z.ones_equiv; lia).
  rewrite Z.ldiff_ones_r, Z.shiftl_mul_pow2, Z.shiftr_div_pow2 by done.
  pose proof (Z.div_mod a (2 ^ n)). lia.
Qed.

Lemma PGROUNDDOWN_eq a : PGROUNDDOWN a = a - a mod PGSIZE.
Proof. exact (land_high a 12 ltac:(lia)). Qed.
Lemma PTE_ADDR_eq a : PTE_ADDR a = a - a mod PGSIZE.
Proof. exact (land_high a 12 ltac:(lia)). Qed.
Lemma PTE_FLAGS_eq a : PTE_FLAGS a = a mod PGSIZE.
Proof. exact (land_low a 12 ltac:(lia)). Qed.
Lemma PTX_eq va : PTX va = va / PGSIZE mod 1024.
Proof. unfold PTX. rewrite Z.shiftr_div_pow2 by lia. exact (land_low _ 10 ltac:(lia)). Qed.
Lemma PDX_eq va : PDX va = va / (1024 * PGSIZE) mod 1024.
Proof. unfold PDX. rewrite Z.shiftr_div_pow2 by lia. exact (land_low _ 10 ltac:(lia)). Qed.

Lemma PDX_page va vb : va / PGSIZE = vb / PGSIZE -> PDX va = PDX vb.
Proof.
  intros H. rewrite !PDX_eq. change (1024 * PGSIZE) with (PGSIZE * 1024).
  rewrite <- !Z.div_div by (unfold PGSIZE; lia). by rewrite H.
Qed.

Lemma PDX_range va : 0 <= PDX va < 1024.
Proof. rewrite PDX_eq. apply Z.mod_pos_bound. lia. Qed.
Lemma PTX_range va : 0 <= PTX va < 1024.
Proof. rewrite PTX_eq. apply Z.mod_pos_bound. lia. Qed.

(** The two indices determine the page of an address. *)
Lemma indices_inj va vb :
  is_u32 va -> is_u32 vb -> PDX va = PDX vb -> PTX va = PTX vb -> va / PGSIZE = vb / PGSIZE.
Proof.
  unfold is_u32. intros Ha Hb. rewrite !PDX_eq, !PTX_eq. unfold PGSIZE.
  change (1024 * 4096) with (4096 * 1024).
  rewrite <- !Z.div_div by lia. intros H1 H2.
  rewrite (Z.mod_small (va / 4096 / 1024)), (Z.mod_small (vb / 4096 / 1024)) in H1 by (Z.div_mod_to_equations; lia).
  Z.div_mod_to_equations. lia.
Qed.

Lemma lor_page pa f : aligned pa -> 0 <= f < PGSIZE -> Z.lor pa f = pa + f.
Proof.
  unfold aligned. intros Ha Hf. symmetry. rewrite <- Z.lxor_lor; [apply Z.add_nocarry_lxor|].
  all: apply Z.bits_inj'; intros n Hn; rewrite Z.land_spec, Z.bits_0;
    destruct (Z.lt_ge_cases n 12) as [Hlt|Hge].
  all: try (rewrite <- (Z.mod_pow2_bits_low pa 12 n) by lia; change (2 ^ 12) with PGSIZE;
    rewrite Ha, Z.bits_0; done).
  all: rewrite (Z.bits_above_log2 f n), andb_false_r; [done|lia|].
  all: destruct (Z.eq_dec f 0) as [->|]; [cbn; lia|].
  all: apply Z.log2_lt_pow2; [lia|]; apply Z.lt_le_trans with (2 ^ 12); [apply Hf|apply Z.pow_le_mono_r; lia].
Qed.

Lemma lor_flags a b : 0 <= a < PGSIZE -> 0 <= b < PGSIZE -> 0 <= Z.lor a b < PGSIZE.
Proof.
  intros Ha Hb. split; [apply Z.lor_nonneg; lia|]. change PGSIZE with (2 ^ 12).
  destruct (Z.eq_dec (Z.lor a b) 0) as [->|Hne]; [lia|].
  assert (0 <= Z.lor a b) by (apply Z.lor_nonneg; lia).
  apply Z.log2_lt_pow2; [lia|]. rewrite Z.log2_lor by lia.
  apply Z.max_lub_lt.
  - destruct (Z.eq_dec a 0) as [->|]; [cbn; lia|]. apply Z.log2_lt_pow2; [lia|apply Ha].
  - destruct (Z.eq_dec b 0) as [->|]; [cbn; lia|]. apply Z.log2_lt_pow2; [lia|apply Hb].
Qed.

Lemma page_part pa f : aligned pa -> 0 <= f < PGSIZE -> PTE_ADDR (pa + f) = pa /\ PTE_FLAGS (pa + f) = f.
Proof.
  unfold aligned. intros Ha Hf. rewrite PTE_ADDR_eq, PTE_FLAGS_eq.
  replace ((pa + f) mod PGSIZE) with f; [lia|]. rewrite Z.add_mod, Ha by (unfold PGSIZE; lia).
  rewrite Z.add_0_l, Z.mod_mod, Z.mod_small by (unfold PGSIZE in *; lia). done.
Qed.

Lemma land_page pa f k :
  aligned pa -> 0 <= f < PGSIZE -> 0 <= k < PGSIZE -> Z.land (pa + f) k = Z.land f k.
Proof.
  intros Ha Hf Hk. rewrite <- lor_page, Z.land_lor_distr_l by done.
  replace (Z.land pa k) with 0; [apply Z.lor_0_l|].
  symmetry. replace k with (Z.land k (Z.ones 12)) by (rewrite Z.land_ones by lia; apply Z.mod_small, Hk).
  rewrite (Z.land_comm k), Z.land_assoc, Z.land_ones by lia. change (2 ^ 12) with PGSIZE.
  by rewrite Ha, Z.land_0_l.
Qed.

(** Lists of one or two elements. *)
Lemma Forall_one {A} (P : A -> Prop) x : P x -> Forall P [x].
Proof. by repeat constructor. Qed.
Lemma Forall_two {A} (P : A -> Prop) x y : P x -> P y -> Forall P [x; y].
Proof. by repeat constructor. Qed.

Section vm_facts.
Context {L : Linker} {LO : LinkerOk L}.

Lemma page_aligned p : page_ok p -> aligned p.
Proof. by intros [? _]. Qed.

Lemma V2P_page p : page_ok p -> V2P p = p - KERNBASE.
Proof. intros H%page_ok_range. unfold V2P. apply u32_small. unfold KERNBASE, PHYSTOP in *. lia. Qed.
Lemma P2V_V2P p : page_ok p -> P2V (V2P p) = p.
Proof.
  intros H. rewrite V2P_page by done. unfold P2V. replace (p - KERNBASE + KERNBASE) with p by lia.
  apply u32_small, (page_ok_u32 p H).
Qed.
Lemma V2P_aligned p : page_ok p -> aligned (V2P p).
Proof.
  intros H. rewrite V2P_page by done. pose proof (page_aligned p H) as Ha. unfold aligned, PGSIZE, KERNBASE in *.
  rewrite Zminus_mod, Ha. done.
Qed.
Lemma V2P_pos p : page_ok p -> 0 < V2P p < PHYSTOP.
Proof. intros H. rewrite V2P_page by done. apply page_ok_range in H. lia. Qed.

(** ** What is left unchanged *)

Definition in_page (p a : Z) : Prop := p <= a < p + PGSIZE.

(** Memory has changed in the pages [ps] only. *)
Definition framed (ps : list Z) (m m' : mem) : Prop :=
  forall a, (forall p, p ∈ ps -> ~ in_page p a) -> ld8 m' a = ld8 m a.

(** A page has the same contents in two memories. *)
Definition same_page (m m' : mem) (p : Z) : Prop := forall a, in_page p a -> ld8 m' a = ld8 m a.

Lemma framed_refl ps m : framed ps m m.
Proof. by intros a. Qed.
Lemma framed_trans ps m1 m2 m3 : framed ps m1 m2 -> framed ps m2 m3 -> framed ps m1 m3.
Proof. intros H1 H2 a Ha. by rewrite H2, H1. Qed.
Lemma framed_sub ps qs m m' : framed ps m m' -> ps ⊆ qs -> framed qs m m'.
Proof. intros H Hs a Ha. apply H. intros p Hp. apply Ha. by apply Hs. Qed.

Lemma page_same p q a : page_ok p -> page_ok q -> in_page p a -> in_page q a -> p = q.
Proof. intros (Hp & _) (Hq & _) H1 H2. unfold in_page, PGSIZE in *. Z.div_mod_to_equations. lia. Qed.

Lemma framed_page ps m m' p :
  framed ps m m' -> Forall page_ok ps -> page_ok p -> p ∉ ps -> same_page m m' p.
Proof.
  intros Hf Hps Hp Hn a Ha. apply Hf. intros q Hq Hqa. apply Hn.
  rewrite Forall_forall in Hps. by rewrite (page_same p q a Hp (Hps q Hq) Ha Hqa).
Qed.

Lemma same_page_ld32 m m' p k :
  same_page m m' p -> 0 <= k <= PGSIZE - 4 -> ld32 m' (p + k) = ld32 m (p + k).
Proof. intros H Hk. apply ld32_agree. intros i Hi. apply H. unfold in_page. lia. Qed.

Lemma framed_memset p c m : framed [p] m (memset m p c PGSIZE).
Proof.
  intros a Ha. rewrite ld8_memset, decide_False by (unfold PGSIZE in *; lia || apply Ha; set_solver). done.
Qed.
Lemma framed_st32 p k v m : 0 <= k <= PGSIZE - 4 -> framed [p] m (st32 m (p + k) v).
Proof.
  intros Hk a Ha. apply ld8_st32_ne. intros H. apply (Ha p); [set_solver|]. unfold in_page. lia.
Qed.

Lemma zero_page_ld32 m p k : 0 <= k <= PGSIZE - 4 -> ld32 (memset m p 0 PGSIZE) (p + k) = 0.
Proof.
  intros Hk. unfold ld32. rewrite !ld8_memset by (unfold PGSIZE; lia).
  rewrite !decide_True by lia. done.
Qed.

(** Only the memory and the head of the free list have changed. *)
Definition mem_only (s s' : kernel) : Prop :=
  s' = s <| k_mem := k_mem s' |> <| k_freelist := k_freelist s' |>.

Lemma mem_only_refl s : mem_only s s.
Proof. by destruct s. Qed.
Lemma mem_only_trans s1 s2 s3 : mem_only s1 s2 -> mem_only s2 s3 -> mem_only s1 s3.
Proof. unfold mem_only. intros H1 H2. rewrite H2, H1. done. Qed.

(** The allocator can be called, and calling it leaves no trace on the processor. *)
Definition kready (s : kernel) : Prop := kmem_ready s /\ after_kmem s = s.

Lemma kready_mem_only s s' : mem_only s s' -> kready s -> kready s'.
Proof.
  unfold mem_only. intros -> [H1 H2]. split; [exact H1|].
  unfold after_kmem in *. cbn. case_match; [done|]. rewrite <- H2 at 2. done.
Qed.

(** Memory changes outside of the free pages. *)
Lemma kmem_inv_framed s s' l ps :
  kmem_inv s l -> mem_ok (k_mem s') -> k_freelist s' = k_freelist s -> framed ps (k_mem s) (k_mem s') ->
  Forall page_ok ps -> (forall p, p ∈ ps -> p ∉ l) -> kmem_inv s' l.
Proof.
  intros [Hm Hc Hp Hn] Hm' Hfl Hf Hps Hd. split; [done| |done|done].
  rewrite Hfl. eapply chain_agree; [|exact Hc]. intros q Hq.
  assert (Hqok : page_ok q) by (by eapply Forall_forall in Hp).
  rewrite <- (Z.add_0_r q). apply same_page_ld32; [|unfold PGSIZE; lia].
  eapply framed_page; eauto. intros Hin. by apply (Hd q).
Qed.

Lemma kalloc_take s p l :
  kready s -> kmem_inv s (p :: l) ->
  exists s', kalloc s = Ret p s' /\ kmem_inv s' l /\ k_mem s' = k_mem s /\ mem_only s s'.
Proof.
  intros [Hr Ha] Hi. destruct (kalloc_some s p l Hr Hi) as (s' & H1 & H2 & H3 & H4).
  exists s'. split_and!; [done..|]. unfold mem_only. rewrite H4, Ha. cbn. by rewrite H4 in H3; rewrite Ha in H3; destruct s.
Qed.

Lemma kalloc_empty s : kready s -> kmem_inv s [] -> kalloc s = Ret 0 s.
Proof. intros [Hr Ha] Hi. rewrite (kalloc_none s Hr Hi). by rewrite Ha. Qed.

Lemma kfree_give s v l :
  kready s -> kmem_inv s l -> page_ok v -> v ∉ l ->
  exists s', kfree v s = Ret tt s' /\ kmem_inv s' (v :: l) /\ mem_only s s' /\
    framed [v] (k_mem s) (k_mem s').
Proof.
  intros [Hr Ha] Hi Hv Hn. rewrite (kfree_ret s v Hv Hr). eexists. split; [done|].
  split; [by eapply kfree_inv|]. rewrite Ha. split; [done|]. cbn.
  eapply framed_trans; [apply framed_memset|].
  pose proof (framed_st32 v 0 (k_freelist s) (memset (k_mem s) v 1 PGSIZE)) as H.
  rewrite Z.add_0_r in H. apply H. unfold PGSIZE. lia.
Qed.

(** ** Address spaces *)

(** The directory, and the page table of each of its present entries. *)
Record space := MkSpace { sp_dir : Z; sp_tabs : gmap Z Z }.

Definition sp_pages (sp : space) : list Z := sp_dir sp :: (map_to_list (sp_tabs sp)).*2.

Definition pde_of (t : option Z) : Z :=
  match t with Some t => V2P t + (PTE_P + PTE_W + PTE_U) | None => 0 end.

Record space_ok (m : mem) (sp : space) : Prop := {
  sp_dir_ok : page_ok (sp_dir sp);
  sp_tab_ok : forall i t, sp_tabs sp !! i = Some t -> page_ok t;
  sp_tab_idx : forall i t, sp_tabs sp !! i = Some t -> 0 <= i < 1024;
  sp_nodup : NoDup (sp_pages sp);
  sp_entries : forall i, 0 <= i < 1024 -> ld32 m (sp_dir sp + 4 * i) = pde_of (sp_tabs sp !! i)
}.

(** The page-table entry for [va]. *)
Definition pte (m : mem) (sp : space) (va : Z) : Z :=
  match sp_tabs sp !! PDX va with Some t => ld32 m (t + 4 * PTX va) | None => 0 end.

Lemma elem_of_tabs sp t : t ∈ (map_to_list (sp_tabs sp)).*2 <-> exists i, sp_tabs sp !! i = Some t.
Proof.
  rewrite list_elem_of_fmap. split.
  - intros ([i t'] & -> & H). exists i. by apply elem_of_map_to_list.
  - intros (i & H). exists (i, t). by rewrite elem_of_map_to_list.
Qed.

(** A directory and at most 1024 page tables. *)
Lemma sp_pages_few m sp : space_ok m sp -> (length (sp_pages sp) <= 1025)%nat.
Proof.
  intros H. unfold sp_pages. cbn [length]. rewrite length_fmap.
  assert (Hs : (map_to_list (sp_tabs sp)).*1 ⊆ seqZ 0 1024).
  { intros i ([j t] & -> & Hi%elem_of_map_to_list)%list_elem_of_fmap. apply elem_of_seqZ. cbn. pose proof (sp_tab_idx _ _ H _ _ Hi). lia. }
  apply NoDup_submseteq, submseteq_length in Hs; [|apply NoDup_fst_map_to_list].
  rewrite length_fmap, length_seqZ in Hs. lia.
Qed.

Lemma sp_pages_ok m sp : space_ok m sp -> Forall page_ok (sp_pages sp).
Proof.
  intros H. apply Forall_cons. split; [apply (sp_dir_ok _ _ H)|].
  apply Forall_forall. intros t (i & Hi)%elem_of_tabs. by eapply sp_tab_ok.
Qed.

(** The tables of two indices are different. *)
Lemma sp_tabs_inj m sp i j t :
  space_ok m sp -> sp_tabs sp !! i = Some t -> sp_tabs sp !! j = Some t -> i = j.
Proof.
  intros [_ _ _ Hn _] Hi Hj. apply NoDup_cons in Hn as [_ Hn].
  apply elem_of_map_to_list, list_elem_of_lookup_1 in Hi as [a Ha].
  apply elem_of_map_to_list, list_elem_of_lookup_1 in Hj as [b Hb].
  assert (a = b) as <-; [|congruence].
  eapply NoDup_lookup; [exact Hn| |]; rewrite list_lookup_fmap.
  - by rewrite Ha.
  - by rewrite Hb.
Qed.

Lemma space_ok_same m m' sp :
  space_ok m sp -> (forall p, p ∈ sp_pages sp -> same_page m m' p) -> space_ok m' sp.
Proof.
  intros [H1 H2 Hx H3 H4] Hs. split; [done..|]. intros i Hi. rewrite <- H4 by done.
  apply same_page_ld32; [|unfold PGSIZE; lia]. apply Hs. apply list_elem_of_here.
Qed.

Lemma pte_same m m' sp va :
  (forall p, p ∈ sp_pages sp -> same_page m m' p) -> pte m' sp va = pte m sp va.
Proof.
  intros Hs. unfold pte. destruct (sp_tabs sp !! PDX va) as [t|] eqn:E; [|done].
  pose proof (PTX_range va). apply same_page_ld32; [|unfold PGSIZE; lia].
  apply Hs, list_elem_of_further, elem_of_tabs. eauto.
Qed.

(** Where [walkpgdir] finds the entry. *)
Definition pte_addr (sp : space) (va : Z) : Z :=
  match sp_tabs sp !! PDX va with Some t => t + 4 * PTX va | None => 0 end.

Lemma pde_present m sp va t :
  space_ok m sp -> sp_tabs sp !! PDX va = Some t ->
  let e := ld32 m (sp_dir sp + 4 * PDX va) in
  negb (Z.land e PTE_P =? 0) = true /\ P2V (PTE_ADDR e) = t.
Proof.
  intros Hs Ht. cbn zeta. rewrite (sp_entries _ _ Hs) by apply PDX_range. rewrite Ht. cbn [pde_of].
  pose proof (sp_tab_ok _ _ Hs _ _ Ht) as Hok. pose proof (V2P_aligned t Hok) as Ha.
  rewrite land_page by (done || unfold PTE_P, PTE_W, PTE_U, PGSIZE; lia). split; [done|].
  destruct (page_part (V2P t) (PTE_P + PTE_W + PTE_U) Ha) as [-> _];
    [unfold PTE_P, PTE_W, PTE_U, PGSIZE; lia|]. by apply P2V_V2P.
Qed.

Lemma walkpgdir_found s sp va t alloc :
  space_ok (k_mem s) sp -> sp_tabs sp !! PDX va = Some t ->
  walkpgdir (sp_dir sp) va alloc s = Ret (t + 4 * PTX va) s.
Proof.
  intros Hs Ht. unfold walkpgdir, load32. kget. destruct (pde_present _ _ _ _ Hs Ht) as [-> ->]. done.
Qed.

Lemma pde_absent m sp va :
  space_ok m sp -> sp_tabs sp !! PDX va = None ->
  negb (Z.land (ld32 m (sp_dir sp + 4 * PDX va)) PTE_P =? 0) = false.
Proof. intros Hs Ht. rewrite (sp_entries _ _ Hs) by apply PDX_range. by rewrite Ht. Qed.

Lemma walkpgdir_missing s sp va :
  space_ok (k_mem s) sp -> sp_tabs sp !! PDX va = None ->
  walkpgdir (sp_dir sp) va false s = Ret 0 s.
Proof.
  intros Hs Ht. unfold walkpgdir, load32. kget. by rewrite (pde_absent _ _ _ Hs Ht).
Qed.

Lemma walkpgdir_noalloc s sp va :
  space_ok (k_mem s) sp -> walkpgdir (sp_dir sp) va false s = Ret (pte_addr sp va) s.
Proof.
  intros Hs. unfold pte_addr. destruct (sp_tabs sp !! PDX va) eqn:E.
  - by apply walkpgdir_found.
  - by apply walkpgdir_missing.
Qed.

(** ** Changing an address space *)

(** An operation on [sp] has taken the pages [new] for page tables and has
    changed nothing but them and the tables of the space. *)
Record grows (s : kernel) (sp : space) (new : list Z) (s' : kernel) (sp' : space) : Prop := {
  gr_mem : mem_only s s';
  gr_dir : sp_dir sp' = sp_dir sp;
  gr_tabs : sp_tabs sp ⊆ sp_tabs sp';
  gr_pages : sp_pages sp' ≡ₚ new ++ sp_pages sp;
  gr_frame : framed (new ++ sp_pages sp) (k_mem s) (k_mem s');
  gr_ok : space_ok (k_mem s') sp'
}.

Lemma grows_refl s sp : space_ok (k_mem s) sp -> grows s sp [] s sp.
Proof. intros H. split; [apply mem_only_refl|done|done|done|apply framed_refl|done]. Qed.

Lemma grows_trans s1 sp1 new1 s2 sp2 new2 s3 sp3 :
  grows s1 sp1 new1 s2 sp2 -> grows s2 sp2 new2 s3 sp3 -> grows s1 sp1 (new1 ++ new2) s3 sp3.
Proof.
  intros [A1 A2 A3 A4 A5 A6] [B1 B2 B3 B4 B5 B6]. split; [by eapply mem_only_trans|congruence|by etrans| | |done].
  - rewrite B4, A4. rewrite (Permutation_app_comm new1 new2). by rewrite app_assoc.
  - eapply framed_trans; [eapply framed_sub; [exact A5|]|eapply framed_sub; [exact B5|]].
    + intros p. rewrite !elem_of_app. tauto.
    + intros p. rewrite !elem_of_app, A4, elem_of_app. tauto.
Qed.

Definition add_tab (sp : space) (i t : Z) : space := MkSpace (sp_dir sp) (<[i := t]> (sp_tabs sp)).

Lemma add_tab_pages sp i t :
  sp_tabs sp !! i = None -> sp_pages (add_tab sp i t) ≡ₚ t :: sp_pages sp.
Proof.
  intros H. unfold sp_pages, add_tab. cbn. rewrite map_to_list_insert by done. cbn.
  apply Permutation_swap.
Qed.

Lemma pde_lor t : page_ok t -> Z.lor (Z.lor (Z.lor (V2P t) PTE_P) PTE_W) PTE_U = V2P t + 7.
Proof.
  intros H. rewrite <- !Z.lor_assoc. rewrite lor_page; [done|by apply V2P_aligned|].
  by vm_compute.
Qed.

(** A new, empty page table. *)
Definition with_tab (m : mem) (sp : space) (i t : Z) : mem :=
  st32 (memset m t 0 PGSIZE) (sp_dir sp + 4 * i) (V2P t + 7).

Section new_tab.
Context (m : mem) (sp : space) (i t : Z).
Context (Hs : space_ok m sp) (Hi : sp_tabs sp !! i = None) (Hir : 0 <= i < 1024).
Context (Ht : page_ok t) (Hnew : t ∉ sp_pages sp).

Lemma with_tab_framed : framed [t; sp_dir sp] m (with_tab m sp i t).
Proof.
  eapply framed_trans; [eapply framed_sub; [apply (framed_memset t 0)|set_solver]|].
  eapply framed_sub; [apply framed_st32; unfold PGSIZE; lia|set_solver].
Qed.

Lemma with_tab_dir j : 0 <= j < 1024 ->
  ld32 (with_tab m sp i t) (sp_dir sp + 4 * j) = pde_of (<[i := t]> (sp_tabs sp) !! j).
Proof.
  intros Hj. unfold with_tab. pose proof (V2P_pos t Ht). destruct (decide (i = j)) as [<-|Hne].
  - rewrite ld32_st32_eq by (unfold is_u32, PHYSTOP in *; lia). by rewrite lookup_insert_eq.
  - rewrite ld32_st32_ne, lookup_insert_ne, <- (sp_entries _ _ Hs) by (done || lia).
    apply same_page_ld32; [|unfold PGSIZE; lia].
    eapply framed_page; [apply (framed_memset t 0)|by apply Forall_one|apply (sp_dir_ok _ _ Hs)|].
    intros E%list_elem_of_singleton. rewrite <- E in Hnew. apply Hnew, list_elem_of_here.
Qed.

Lemma with_tab_zero j : 0 <= j < 1024 -> ld32 (with_tab m sp i t) (t + 4 * j) = 0.
Proof.
  intros Hj. unfold with_tab. rewrite (same_page_ld32 (memset m t 0 PGSIZE)); [|..|unfold PGSIZE; lia].
  - apply zero_page_ld32. unfold PGSIZE. lia.
  - eapply framed_page; [apply framed_st32; unfold PGSIZE; lia| |done|].
    + apply Forall_one, (sp_dir_ok _ _ Hs).
    + intros E%list_elem_of_singleton. apply Hnew. rewrite E. apply list_elem_of_here.
Qed.

Lemma with_tab_ok : space_ok (with_tab m sp i t) (add_tab sp i t).
Proof.
  split; [apply (sp_dir_ok _ _ Hs)| | | |exact with_tab_dir].
  - intros j u. cbn. destruct (decide (i = j)) as [<-|Hne].
    + rewrite lookup_insert_eq. by intros [= <-].
    + rewrite lookup_insert_ne by done. apply (sp_tab_ok _ _ Hs).
  - intros j u. cbn. destruct (decide (i = j)) as [<-|Hne]; [done|].
    rewrite lookup_insert_ne by done. apply (sp_tab_idx _ _ Hs).
  - rewrite add_tab_pages by done. apply NoDup_cons. split; [done|apply (sp_nodup _ _ Hs)].
Qed.

Lemma with_tab_pte va : pte (with_tab m sp i t) (add_tab sp i t) va = pte m sp va.
Proof.
  unfold pte. cbn. pose proof (PTX_range va). destruct (decide (i = PDX va)) as [<-|Hne].
  - rewrite lookup_insert_eq, Hi. by apply with_tab_zero.
  - rewrite lookup_insert_ne by done. destruct (sp_tabs sp !! PDX va) as [u|] eqn:E; [|done].
    apply same_page_ld32; [|unfold PGSIZE; lia].
    assert (Hu : u ∈ (map_to_list (sp_tabs sp)).*2) by (apply elem_of_tabs; eauto).
    eapply framed_page; [apply with_tab_framed| |by eapply sp_tab_ok|].
    + apply Forall_two; [exact Ht|apply (sp_dir_ok _ _ Hs)].
    + intros [->|E2]%elem_of_cons; [|apply list_elem_of_singleton in E2 as ->].
      * by apply Hnew, list_elem_of_further.
      * pose proof (sp_nodup _ _ Hs) as [Hd _]%NoDup_cons. done.
Qed.
End new_tab.

Lemma walkpgdir_alloc s sp va t l :
  kready s -> space_ok (k_mem s) sp -> sp_tabs sp !! PDX va = None ->
  kmem_inv s (t :: l) -> NoDup (sp_pages sp ++ t :: l) ->
  exists s', walkpgdir (sp_dir sp) va true s = Ret (t + 4 * PTX va) s' /\
    grows s sp [t] s' (add_tab sp (PDX va) t) /\ kmem_inv s' l /\
    forall vb, pte (k_mem s') (add_tab sp (PDX va) t) vb = pte (k_mem s) sp vb.
Proof.
  intros Hr Hs Ht Hi Hn. unfold walkpgdir, load32. kget. rewrite (pde_absent _ _ _ Hs Ht). cbn [negb].
  destruct (kalloc_take s t l Hr Hi) as (s1 & H1 & Hi1 & Hm1 & Ho1).
  rewrite (bind_ret _ _ _ _ _ H1).
  assert (Htok : page_ok t) by (by pose proof (kmem_pages _ _ Hi) as [? _]%Forall_cons).
  rewrite (proj2 (Z.eqb_neq t 0)) by (apply page_ok_range in Htok; unfold KERNBASE in *; lia).
  kget. kget. rewrite pde_lor by done. eexists. split; [reflexivity|].
  apply NoDup_app in Hn as (_ & Hd & Hn). pose proof (PDX_range va) as Hx.
  assert (Htn : t ∉ sp_pages sp) by (intros Hin; apply (Hd t Hin), list_elem_of_here).
  cbn. rewrite Hm1. change (st32 _ _ _) with (with_tab (k_mem s) sp (PDX va) t).
  assert (Hf : framed [t; sp_dir sp] (k_mem s) (with_tab (k_mem s) sp (PDX va) t)) by (by apply with_tab_framed).
  split_and!; [split| |intros; by apply with_tab_pte].
  - eapply mem_only_trans; [exact Ho1|done].
  - done.
  - by apply insert_subseteq.
  - by apply add_tab_pages.
  - eapply framed_sub; [exact Hf|]. intros p. unfold sp_pages. rewrite elem_of_app, !elem_of_cons. tauto.
  - by apply with_tab_ok.
  - eapply (kmem_inv_framed s1); [exact Hi1| |done|cbn; rewrite Hm1; exact Hf| |].
    + apply mem_ok_st32, mem_ok_memset, (kmem_bytes _ _ Hi).
    + apply Forall_two; [exact Htok|apply (sp_dir_ok _ _ Hs)].
    + intros p [->|E2]%elem_of_cons; [|apply list_elem_of_singleton in E2 as ->].
      * by apply NoDup_cons in Hn as [? _].
      * intros Hin. apply (Hd (sp_dir sp)); [apply list_elem_of_here|by apply list_elem_of_further].
Qed.

Lemma grows_nodup s sp new s' sp' l' :
  grows s sp new s' sp' -> NoDup (sp_pages sp ++ new ++ l') -> NoDup (sp_pages sp' ++ l').
Proof.
  intros H Hn. rewrite (gr_pages _ _ _ _ _ H), <- app_assoc.
  by rewrite (Permutation_app_swap_app new (sp_pages sp) l').
Qed.

(** [walkpgdir] with [alloc] set. *)
Lemma walkpgdir_true s sp va l :
  kready s -> space_ok (k_mem s) sp -> kmem_inv s l -> NoDup (sp_pages sp ++ l) ->
  (l = [] /\ walkpgdir (sp_dir sp) va true s = Ret 0 s) \/
  exists t s' sp' new l', walkpgdir (sp_dir sp) va true s = Ret (t + 4 * PTX va) s' /\
    sp_tabs sp' !! PDX va = Some t /\ l = new ++ l' /\ (length new <= 1)%nat /\ grows s sp new s' sp' /\
    kmem_inv s' l' /\ forall vb, pte (k_mem s') sp' vb = pte (k_mem s) sp vb.
Proof.
  intros Hr Hs Hi Hn. destruct (sp_tabs sp !! PDX va) as [t|] eqn:Et.
  - right. exists t, s, sp, [], l. split_and!; [by apply walkpgdir_found|done|done|cbn; lia|by apply grows_refl|done|done].
  - destruct l as [|t l]; [left|right].
    + split; [done|]. unfold walkpgdir, load32. kget. rewrite (pde_absent _ _ _ Hs Et). cbn [negb].
      by rewrite (bind_ret _ _ _ _ _ (kalloc_empty s Hr Hi)).
    + destruct (walkpgdir_alloc s sp va t l Hr Hs Et Hi Hn) as (s' & H1 & H2 & H3 & H4).
      exists t, s', (add_tab sp (PDX va) t), [t], l. split_and!; [done| |done|done|done|done|done].
      cbn. apply lookup_insert_eq.
Qed.

(** Storing a page-table entry. *)
Section set_pte.
Context (m : mem) (sp : space) (va t v : Z).
Context (Hs : space_ok m sp) (Ht : sp_tabs sp !! PDX va = Some t) (Hv : is_u32 v).

Lemma set_pte_framed : framed [t] m (st32 m (t + 4 * PTX va) v).
Proof. apply framed_st32. pose proof (PTX_range va). unfold PGSIZE. lia. Qed.

Lemma set_pte_ok : space_ok (st32 m (t + 4 * PTX va) v) sp.
Proof.
  destruct Hs as [H1 H2 Hx H3 H4]. split; [done..|]. intros i Hi. rewrite <- H4 by done.
  apply same_page_ld32; [|unfold PGSIZE; lia].
  eapply framed_page; [apply set_pte_framed|by apply Forall_one; eapply H2|done|].
  intros E%list_elem_of_singleton. apply NoDup_cons in H3 as [H3 _]. apply H3, elem_of_tabs. rewrite E. eauto.
Qed.

Lemma set_pte_pte vb : is_u32 va -> is_u32 vb ->
  pte (st32 m (t + 4 * PTX va) v) sp vb =
    if decide (vb / PGSIZE = va / PGSIZE) then v else pte m sp vb.
Proof.
  intros Ha Hb. unfold pte. pose proof (PTX_range va). pose proof (PTX_range vb). case_decide as Hp.
  - assert (E1 : PDX vb = PDX va) by (by apply PDX_page).
    assert (E2 : PTX vb = PTX va) by (by rewrite !PTX_eq, Hp).
    rewrite E1, E2, Ht. by apply ld32_st32_eq.
  - destruct (sp_tabs sp !! PDX vb) as [u|] eqn:Eu; [|done].
    destruct (decide (u = t)) as [->|Hne].
    + apply ld32_st32_ne. pose proof (sp_tabs_inj _ _ _ _ _ Hs Eu Ht) as E.
      assert (PTX va ≠ PTX vb) by (intros E2; apply Hp; by apply indices_inj). lia.
    + apply same_page_ld32; [|unfold PGSIZE; lia].
      eapply framed_page; [apply set_pte_framed|by apply Forall_one; eapply (sp_tab_ok _ _ Hs)|by eapply (sp_tab_ok _ _ Hs)|].
      by intros E%list_elem_of_singleton.
Qed.
End set_pte.

(** ** mappages *)

(** The entries after [n] pages from [a] have been mapped to those from [pa]. *)
Definition mapped (a pa f : Z) (n : nat) (old : Z -> Z) (va : Z) : Z :=
  if decide (a <= va < a + PGSIZE * Z.of_nat n) then pa + (va - va mod PGSIZE - a) + f else old va.

Lemma mapped_0 a pa f old va : mapped a pa f 0 old va = old va.
Proof. unfold mapped. rewrite decide_False; [done|lia]. Qed.

Lemma mapped_S a pa f k old va :
  aligned a -> mapped (a + PGSIZE) (pa + PGSIZE) f k (mapped a pa f 1 old) va = mapped a pa f (S k) old va.
Proof.
  unfold mapped, aligned. intros Ha. repeat case_decide; unfold PGSIZE in *; lia.
Qed.

Lemma in_first_page a va : aligned a -> (va / PGSIZE = a / PGSIZE <-> a <= va < a + PGSIZE).
Proof. unfold aligned, PGSIZE. intros Ha. Z.div_mod_to_equations. lia. Qed.

(** One step of the loop: the page at [a] is mapped to that at [pa]. *)
Lemma mappage_step s sp a pa f t l :
  space_ok (k_mem s) sp -> kmem_inv s l -> NoDup (sp_pages sp ++ l) -> sp_tabs sp !! PDX a = Some t ->
  is_u32 a -> aligned a -> 0 <= pa -> pa + f < 2 ^ 32 -> 0 <= f < PGSIZE ->
  let s' := s <| k_mem := st32 (k_mem s) (t + 4 * PTX a) (pa + f) |> in
  grows s sp [] s' sp /\ kmem_inv s' l /\
  forall va, is_u32 va -> pte (k_mem s') sp va = mapped a pa f 1 (pte (k_mem s) sp) va.
Proof.
  intros Hs Hi Hn Ht Hu Ha Hpa Hpf Hf s'. assert (Hv : is_u32 (pa + f)) by (unfold is_u32; lia).
  assert (Hte : t ∈ sp_pages sp) by (apply list_elem_of_further, elem_of_tabs; eauto).
  assert (Hfr : framed [t] (k_mem s) (k_mem s')) by apply set_pte_framed.
  split_and!.
  - split; [done|done|done|done| |by apply set_pte_ok].
    eapply framed_sub; [exact Hfr|]. by intros p ->%list_elem_of_singleton.
  - eapply (kmem_inv_framed s); [done|by apply mem_ok_st32, (kmem_bytes _ _ Hi)|done|exact Hfr|
      by apply Forall_one; eapply (sp_tab_ok _ _ Hs)|].
    intros p ->%list_elem_of_singleton Hin. apply NoDup_app in Hn as (_ & Hd & _). by apply (Hd t).
  - intros va Hva. cbn. rewrite (set_pte_pte _ _ _ _ _ Hs Ht Hv va Hu Hva). unfold mapped.
    pose proof (in_first_page a va Ha) as H. rewrite Z.mul_1_r. unfold aligned in Ha.
    destruct (decide (va / PGSIZE = a / PGSIZE)) as [E|E]; [rewrite decide_True by tauto|by rewrite decide_False by tauto].
    apply H in E. unfold PGSIZE in *. Z.div_mod_to_equations. lia.
Qed.

Lemma mappages_iter n s sp a last pa perm l :
  kready s -> space_ok (k_mem s) sp -> kmem_inv s l -> NoDup (sp_pages sp ++ l) ->
  aligned a -> aligned pa -> 0 <= a < 2 ^ 32 -> 0 <= pa -> pa + PGSIZE <= 2 ^ 32 -> 0 <= perm < PGSIZE ->
  Z.land (pte (k_mem s) sp a) PTE_P = 0 ->
  (l = [] /\ mappages_loop (S n) (sp_dir sp) a last pa perm s = Ret (-1) s) \/
  exists s' sp' new l',
    mappages_loop (S n) (sp_dir sp) a last pa perm s =
      (if a =? last then ret 0
       else mappages_loop n (sp_dir sp) (a +u PGSIZE) last (pa +u PGSIZE) perm) s' /\
    l = new ++ l' /\ (length new <= 1)%nat /\ grows s sp new s' sp' /\ kmem_inv s' l' /\ NoDup (sp_pages sp' ++ l') /\
    (forall va, is_u32 va ->
      pte (k_mem s') sp' va = mapped a pa (Z.lor perm PTE_P) 1 (pte (k_mem s) sp) va).
Proof.
  intros Hr Hs Hi Hn Ha Hpa Ha0 Hpa0 Hpb Hperm Hfree. cbn [mappages_loop].
  assert (Hf : 0 <= Z.lor perm PTE_P < PGSIZE) by (apply lor_flags; [done|unfold PTE_P, PGSIZE; lia]).
  destruct (walkpgdir_true s sp a l Hr Hs Hi Hn) as [[-> H1]|(t & s1 & sp1 & new & l1 & H1 & Ht & -> & Hl1 & G1 & Hi1 & Hp1)].
  { left. by rewrite (bind_ret _ _ _ _ _ H1). }
  right. rewrite (bind_ret _ _ _ _ _ H1).
  assert (Ht0 : 0 < t) by (pose proof (page_ok_range _ (sp_tab_ok _ _ (gr_ok _ _ _ _ _ G1) _ _ Ht)); unfold KERNBASE in *; lia).
  pose proof (PTX_range a) as Hx. rewrite (proj2 (Z.eqb_neq _ 0)) by lia.
  unfold load32. kget.
  assert (E : ld32 (k_mem s1) (t + 4 * PTX a) = pte (k_mem s) sp a) by (rewrite <- Hp1; unfold pte; by rewrite Ht).
  rewrite E, Hfree. cbn [negb Z.eqb]. unfold store32. kget.
  pose proof (grows_nodup _ _ _ _ _ l1 G1 Hn) as Hn1.
  rewrite <- Z.lor_assoc, lor_page by done.
  destruct (mappage_step s1 sp1 a pa (Z.lor perm PTE_P) t l1 (gr_ok _ _ _ _ _ G1) Hi1 Hn1 Ht) as (G2 & Hi2 & Hp2);
    [done|done|done|unfold PGSIZE in *; lia|done|].
  eexists _, sp1, new, l1. split_and!; [done|done|done| |exact Hi2|done|].
  - rewrite <- (app_nil_r new). by eapply grows_trans.
  - intros va Hva. rewrite Hp2 by done. unfold mapped. case_decide; [done|apply Hp1].
Qed.

Lemma mappages_loop_spec n s sp a last pa perm l :
  kready s -> space_ok (k_mem s) sp -> kmem_inv s l -> NoDup (sp_pages sp ++ l) ->
  aligned a -> aligned pa -> 0 <= a -> 0 <= pa -> 0 <= perm < PGSIZE ->
  a + PGSIZE * Z.of_nat (S n) <= 2 ^ 32 -> pa + PGSIZE * Z.of_nat (S n) <= 2 ^ 32 ->
  last = a + PGSIZE * Z.of_nat n ->
  (forall va, aligned va -> a <= va <= last -> Z.land (pte (k_mem s) sp va) PTE_P = 0) ->
  exists r k s' sp' new l',
    mappages_loop (S n) (sp_dir sp) a last pa perm s = Ret r s' /\
    l = new ++ l' /\ (length new <= k)%nat /\ grows s sp new s' sp' /\ kmem_inv s' l' /\
    (forall va, is_u32 va ->
      pte (k_mem s') sp' va = mapped a pa (Z.lor perm PTE_P) k (pte (k_mem s) sp) va) /\
    ((r = 0 /\ k = S n) \/ (r = -1 /\ (k <= n)%nat /\ l' = [])).
Proof.
  revert s sp a pa l. induction n as [|n IH]; intros s sp a pa l Hr Hs Hi Hn Ha Hpa Ha0 Hpa0 Hperm Hab Hpb Hlast Hfree.
  - destruct (mappages_iter 0 s sp a last pa perm l) as [[-> H]|(s1 & sp1 & new & l1 & H1 & -> & Hl1 & G1 & Hi1 & Hn1 & Hp1)];
      try done; try (unfold PGSIZE in *; lia); [apply Hfree; unfold PGSIZE in *; [done|lia]|..].
    + exists (-1), 0%nat, s, sp, [], [].
      split_and!; [done|done|done|by apply grows_refl|done|intros; by rewrite mapped_0|right; split_and!; [done|lia|done]].
    + rewrite (proj2 (Z.eqb_eq a last)) in H1 by (unfold PGSIZE in *; lia).
      exists 0, 1%nat, s1, sp1, new, l1. split_and!; [done..|by left].
  - destruct (mappages_iter (S n) s sp a last pa perm l) as [[-> H]|(s1 & sp1 & new & l1 & H1 & -> & Hl1 & G1 & Hi1 & Hn1 & Hp1)];
      try done; try (unfold PGSIZE in *; lia); [apply Hfree; unfold PGSIZE in *; [done|lia]|..].
    + exists (-1), 0%nat, s, sp, [], [].
      split_and!; [done|done|done|by apply grows_refl|done|intros; by rewrite mapped_0|right; split_and!; [done|lia|done]].
    + rewrite (proj2 (Z.eqb_neq a last)) in H1 by (unfold PGSIZE in *; lia).
      rewrite !u32_small in H1 by (unfold PGSIZE in *; lia). rewrite H1, <- (gr_dir _ _ _ _ _ G1).
      destruct (IH s1 sp1 (a + PGSIZE) (pa + PGSIZE) l1) as (r & k & s2 & sp2 & new2 & l2 & H2 & -> & Hl2 & G2 & Hi2 & Hp2 & Hres);
        try done; try (unfold PGSIZE in *; lia).
      * by eapply kready_mem_only; [apply (gr_mem _ _ _ _ _ G1)|].
      * apply (gr_ok _ _ _ _ _ G1).
      * by apply aligned_add.
      * by apply aligned_add.
      * intros va Hva Hin. rewrite Hp1 by (unfold is_u32, PGSIZE in *; lia). unfold mapped.
        rewrite decide_False by lia. apply Hfree; [done|unfold PGSIZE in *; lia].
      * exists r, (S k), s2, sp2, (new ++ new2), l2.
        split_and!; [done|by rewrite app_assoc|rewrite length_app; lia|by eapply grows_trans|done| |].
        { intros va Hva. rewrite Hp2, <- mapped_S by done. unfold mapped at 1 2. case_decide; [done|by apply Hp1]. }
        { destruct Hres as [[-> ->]|(-> & ? & ->)]; [by left|right; split_and!; [done|lia|done]]. }
Qed.

(** [mappages] of whole pages: the entries of the range, or as many of them as
    the free pages allow. *)
Lemma mappages_spec n s sp va pa perm l :
  kready s -> space_ok (k_mem s) sp -> kmem_inv s l -> NoDup (sp_pages sp ++ l) ->
  aligned va -> aligned pa -> 0 <= va -> 0 <= pa -> 0 <= perm < PGSIZE -> (0 < n)%nat ->
  va + PGSIZE * Z.of_nat n <= 2 ^ 32 -> pa + PGSIZE * Z.of_nat n <= 2 ^ 32 ->
  (forall vb, aligned vb -> va <= vb < va + PGSIZE * Z.of_nat n -> Z.land (pte (k_mem s) sp vb) PTE_P = 0) ->
  exists r k s' sp' new l',
    mappages (sp_dir sp) va (PGSIZE * Z.of_nat n) pa perm s = Ret r s' /\
    l = new ++ l' /\ (length new <= k)%nat /\ grows s sp new s' sp' /\ kmem_inv s' l' /\
    (forall vb, is_u32 vb ->
      pte (k_mem s') sp' vb = mapped va pa (Z.lor perm PTE_P) k (pte (k_mem s) sp) vb) /\
    ((r = 0 /\ k = n) \/ (r = -1 /\ (k < n)%nat /\ l' = [])).
Proof.
  intros Hr Hs Hi Hn Ha Hpa Ha0 Hpa0 Hperm Hn0 Hab Hpb Hfree. unfold mappages.
  destruct n as [|n]; [lia|].
  assert (Hlast : PGROUNDDOWN (va +u PGSIZE * Z.of_nat (S n) -u 1) = va + PGSIZE * Z.of_nat n).
  { rewrite PGROUNDDOWN_eq, u32_sub_l, u32_small by (unfold PGSIZE in *; lia).
    unfold aligned, PGSIZE in *. Z.div_mod_to_equations. lia. }
  assert (Hdn : PGROUNDDOWN va = va) by (rewrite PGROUNDDOWN_eq; unfold aligned in Ha; lia).
  rewrite Hlast, Hdn.
  replace (Z.to_nat ((va + PGSIZE * Z.of_nat n -u va) / PGSIZE) + 1)%nat with (S n).
  - destruct (mappages_loop_spec n s sp va (va + PGSIZE * Z.of_nat n) pa perm l)
      as (r & k & s' & sp' & new & l' & H); try done.
    + intros vb Hvb Hin. apply Hfree; [done|unfold PGSIZE in *; lia].
    + exists r, k, s', sp', new, l'. destruct H as (H1 & H2 & H0 & H3 & H4 & H5 & H6). split_and!; [done..|].
      destruct H6 as [?|(-> & ? & ->)]; [by left|right; split_and!; [done|lia|done]].
  - replace (va + PGSIZE * Z.of_nat n - va) with (PGSIZE * Z.of_nat n) by lia.
    rewrite u32_small by (unfold PGSIZE in *; lia). rewrite Z.mul_comm, Z.div_mul by (unfold PGSIZE; lia). lia.
Qed.
End vm_facts.
