(* ===== verification/Uvm.v ===== *)
(** * User memory

    The user part of an address space is a list of pages with their flags, the
    [i]-th one mapped at [i * PGSIZE].  [allocuvm] appends zeroed pages to it,
    [deallocuvm] cuts it, [copyuvm] copies it, [freevm] gives it back; no page
    is lost or shared on the way. *)

From S2P Require Import Prelude State Monad Mem Spinlock Kalloc ConsoleOut Vm VmFacts.

(** ** The user part of an address space *)

Abbreviation upages := (list (Z * Z)).

Definition flags_ok (f : Z) : Prop := 0 <= f < PGSIZE /\ Z.land f PTE_P = PTE_P.

(** The entry for [va]. *)
Definition entry (up : upages) (va : Z) : Z :=
  match up !! Z.to_nat (va / PGSIZE) with Some (p, f) => V2P p + f | None => 0 end.

(** The number of pages that hold [sz] bytes. *)
Definition npages (sz : Z) : nat := Z.to_nat ((sz + PGSIZE - 1) / PGSIZE).

Section uvm.
Context {L : Linker}.

Definition upage_ok (pf : Z * Z) : Prop := page_ok (fst pf) /\ flags_ok (snd pf).

Record uvm (m : mem) (sp : space) (up : upages) : Prop := {
  uvm_space : space_ok m sp;
  uvm_upages : Forall upage_ok up;
  uvm_ptes : forall va, 0 <= va < KERNBASE -> pte m sp va = entry up va
}.

(** Only memory, the head of the free list and the screen have changed. *)
Definition vm_only (s s' : kernel) : Prop :=
  s' = s <| k_mem := k_mem s' |> <| k_freelist := k_freelist s' |> <| k_cons := k_cons s' |> /\
  cons_same (k_cons s) (k_cons s') /\ (cons_ok (k_cons s) -> cons_ok (k_cons s')).

(** A kernel with free pages [l] in which [sp] with user pages [up] is an
    address space; all pages are distinct. *)
Record vm_state (s : kernel) (sp : space) (up : upages) (l : list Z) : Prop := {
  vs_ready : kready s;
  vs_kmem : kmem_inv s l;
  vs_uvm : uvm (k_mem s) sp up;
  vs_nodup : NoDup (sp_pages sp ++ up.*1 ++ l)
}.

(** A step from such a state to another one: all pages are accounted for, of
    which [out] have left the three groups, the kernel part of the address
    space is as before, and memory has changed only in page tables, free pages,
    and the pages [ps]. *)
Record vm_step (ps out : list Z) (s : kernel) (sp : space) (up : upages) (l : list Z)
    (s' : kernel) (sp' : space) (up' : upages) (l' : list Z) : Prop := {
  vt_state : vm_state s' sp' up' l';
  vt_only : vm_only s s';
  vt_dir : sp_dir sp' = sp_dir sp;
  vt_pages : sp_pages sp' ++ up'.*1 ++ l' ++ out ≡ₚ sp_pages sp ++ up.*1 ++ l;
  vt_kernel : forall va, KERNBASE <= va < 2 ^ 32 -> pte (k_mem s') sp' va = pte (k_mem s) sp va;
  vt_frame : framed (sp_pages sp ++ l ++ ps) (k_mem s) (k_mem s')
}.
End uvm.

Section uvm_facts.
Context {L : Linker} {LO : LinkerOk L}.

Lemma vm_only_refl s : vm_only s s.
Proof. split; [by destruct s|]. auto. Qed.
Lemma vm_only_trans s1 s2 s3 : vm_only s1 s2 -> vm_only s2 s3 -> vm_only s1 s3.
Proof.
  intros (E1 & A1 & B1) (E2 & A2 & B2). split_and!; [|by eapply cons_same_trans|auto].
  rewrite E2, E1. done.
Qed.
Lemma mem_vm_only s s' : mem_only s s' -> vm_only s s'.
Proof. unfold mem_only. intros ->. split; [by destruct s|]. cbn. auto. Qed.

Lemma kready_vm_only s s' : vm_only s s' -> kready s -> kready s'.
Proof.
  intros [-> _] [H1 H2]. split; [exact H1|].
  unfold after_kmem in *. cbn. case_match; [done|]. rewrite <- H2 at 2. done.
Qed.

Lemma vm_step_refl ps s sp up l : vm_state s sp up l -> vm_step ps [] s sp up l s sp up l.
Proof. intros H. split; [done|apply vm_only_refl|done|by rewrite app_nil_r|done|apply framed_refl]. Qed.

Lemma vm_step_trans ps qs out1 out2 s1 sp1 up1 l1 s2 sp2 up2 l2 s3 sp3 up3 l3 :
  vm_step ps out1 s1 sp1 up1 l1 s2 sp2 up2 l2 -> vm_step qs out2 s2 sp2 up2 l2 s3 sp3 up3 l3 ->
  (forall p, p ∈ sp_pages sp2 ++ l2 ++ qs -> p ∈ sp_pages sp1 ++ l1 ++ ps) ->
  vm_step ps (out2 ++ out1) s1 sp1 up1 l1 s3 sp3 up3 l3.
Proof.
  intros [A1 A0 A2 A3 A4 A5] [B1 B0 B2 B3 B4 B5] Hsub.
  split; [done|by eapply vm_only_trans|congruence| | |].
  - rewrite <- A3. rewrite !app_assoc. f_equiv. by rewrite <- !app_assoc.
  - intros va Hva. by rewrite B4, A4.
  - eapply framed_trans; [exact A5|]. by eapply framed_sub.
Qed.

Lemma entry_None up va : 0 <= va -> (length up <= Z.to_nat (va / PGSIZE))%nat -> entry up va = 0.
Proof. intros H Hl. unfold entry. by rewrite lookup_ge_None_2. Qed.

Lemma upage_entry up i p f : Forall upage_ok up -> up !! i = Some (p, f) ->
  page_ok p /\ flags_ok f /\ PTE_ADDR (V2P p + f) = V2P p /\ PTE_FLAGS (V2P p + f) = f /\
  Z.land (V2P p + f) PTE_P = PTE_P.
Proof.
  intros Hf Hi. rewrite Forall_lookup in Hf. destruct (Hf _ _ Hi) as [Hp [Hr Hb]]. cbn in *.
  pose proof (V2P_aligned p Hp) as Ha. destruct (page_part (V2P p) f Ha Hr) as [H1 H2].
  split_and!; [done|by split|done|done|]. rewrite land_page by (done || unfold PTE_P, PGSIZE; lia). done.
Qed.

Lemma entry_take n up va :
  0 <= va -> entry (take n up) va = if decide (va < PGSIZE * Z.of_nat n) then entry up va else 0.
Proof.
  intros Hva. unfold entry. assert (Hd : 0 <= va / PGSIZE) by (unfold PGSIZE; Z.div_mod_to_equations; lia).
  case_decide as H.
  - rewrite lookup_take_lt; [done|]. unfold PGSIZE in *. Z.div_mod_to_equations. lia.
  - rewrite lookup_take_ge; [done|]. unfold PGSIZE in *. Z.div_mod_to_equations. lia.
Qed.

Lemma entry_snoc up p f va :
  0 <= va ->
  entry (up ++ [(p, f)]) va =
    if decide (PGSIZE * Z.of_nat (length up) <= va < PGSIZE * Z.of_nat (length up) + PGSIZE)
    then V2P p + f else entry up va.
Proof.
  intros Hva. unfold entry. assert (Hd : 0 <= va / PGSIZE) by (unfold PGSIZE; Z.div_mod_to_equations; lia).
  case_decide as H.
  - rewrite lookup_app_r by (unfold PGSIZE in *; Z.div_mod_to_equations; lia).
    replace (_ - _)%nat with 0%nat; [done|]. unfold PGSIZE in *. Z.div_mod_to_equations. lia.
  - destruct (decide (va < PGSIZE * Z.of_nat (length up))).
    + rewrite lookup_app_l; [done|]. unfold PGSIZE in *. Z.div_mod_to_equations. lia.
    + rewrite lookup_ge_None_2, (lookup_ge_None_2 up); [done|..];
        rewrite ?length_app; cbn; unfold PGSIZE in *; Z.div_mod_to_equations; lia.
Qed.

(** ** deallocuvm *)

(** The entries from the address [a] of user memory on are those of [up]. *)
Definition entries_from (m : mem) (sp : space) (up : upages) (a : Z) : Prop :=
  forall va, a <= va < KERNBASE -> pte m sp va = entry up va.

(** What the loop does: the pages from the [j]-th on are free. *)
Record cut (s : kernel) (sp : space) (up : upages) (j : nat) (l : list Z) (s' : kernel) : Prop := {
  cut_mem : mem_only s s';
  cut_kmem : kmem_inv s' (reverse (drop j up).*1 ++ l);
  cut_space : space_ok (k_mem s') sp;
  cut_ptes : forall va, is_u32 va ->
    pte (k_mem s') sp va =
      if decide (PGSIZE * Z.of_nat j <= va < KERNBASE) then 0 else pte (k_mem s) sp va;
  cut_frame : framed (sp_pages sp ++ (drop j up).*1) (k_mem s) (k_mem s')
}.

(** No page from the [j]-th on: nothing is to be done. *)
Lemma cut_none s sp up j l :
  space_ok (k_mem s) sp -> kmem_inv s l -> entries_from (k_mem s) sp up (PGSIZE * Z.of_nat j) ->
  (length up <= j)%nat -> cut s sp up j l s.
Proof.
  intros Hs Hi He Hj.
  assert (Hd : drop j up = []) by (by apply drop_ge).
  split; rewrite ?Hd; [apply mem_only_refl|done|done| |apply framed_refl].
  intros va Hva. case_decide as H; [|done]. rewrite He by done. apply entry_None; [apply Hva|].
  unfold PGSIZE in *. Z.div_mod_to_equations. lia.
Qed.

(** Skipping addresses without pages. *)
Lemma cut_skip s sp up j j' l s' :
  (length up <= j)%nat -> (j <= j')%nat -> entries_from (k_mem s) sp up (PGSIZE * Z.of_nat j) ->
  cut s sp up j' l s' -> cut s sp up j l s'.
Proof.
  intros Hl Hj He [H1 H2 H3 H4 H5].
  assert (Hd : drop j up = []) by (by apply drop_ge).
  rewrite (drop_ge up j') in H2, H5 by lia. split; rewrite ?Hd; [done|done|done| |done].
  intros va Hva. rewrite H4 by done. repeat case_decide; [done|unfold PGSIZE in *; lia| |done].
  rewrite He by done. apply entry_None; [apply Hva|]. unfold PGSIZE in *. Z.div_mod_to_equations. lia.
Qed.

(** Freeing the [j]-th page. *)
Lemma free_upage s sp (up : upages) j l p f t :
  let a := PGSIZE * Z.of_nat j in
  kready s -> space_ok (k_mem s) sp -> kmem_inv s l -> NoDup (sp_pages sp ++ (drop j up).*1 ++ l) ->
  up !! j = Some (p, f) -> page_ok p -> a < KERNBASE -> sp_tabs sp !! PDX a = Some t ->
  exists s1, kfree p s = Ret tt s1 /\
    let s2 := s1 <| k_mem := st32 (k_mem s1) (t + 4 * PTX a) 0 |> in
    mem_only s s2 /\ kmem_inv s2 (p :: l) /\ space_ok (k_mem s2) sp /\
    framed (sp_pages sp ++ [p]) (k_mem s) (k_mem s2) /\
    NoDup (sp_pages sp ++ (drop (S j) up).*1 ++ p :: l) /\
    forall va, is_u32 va ->
      pte (k_mem s2) sp va = if decide (a <= va < a + PGSIZE) then 0 else pte (k_mem s) sp va.
Proof.
  intros a Hr Hs Hi Hn Hj Hp Ha Ht.
  assert (Hd : drop j up = (p, f) :: drop (S j) up) by (by apply drop_S).
  rewrite Hd in Hn. cbn [fmap list_fmap fst] in Hn.
  assert (Hn' : NoDup (sp_pages sp ++ (drop (S j) up).*1 ++ p :: l)).
  { revert Hn. cbn [app]. by rewrite Permutation_middle. }
  assert (Hpl : p ∉ l) by (apply NoDup_app in Hn' as (_ & _ & Hn'); apply NoDup_app in Hn' as (_ & _ & [? _]%NoDup_cons); done).
  assert (Hps : p ∉ sp_pages sp) by (intros Hin; apply NoDup_app in Hn as (_ & Hx & _); apply (Hx p Hin), list_elem_of_here).
  assert (Hau : is_u32 a) by (unfold is_u32, KERNBASE in *; unfold a, PGSIZE in *; lia).
  assert (Hal : aligned a) by (unfold aligned, a; rewrite Z.mul_comm; apply Z.mod_mul; unfold PGSIZE; lia).
  destruct (kfree_give s p l Hr Hi Hp Hpl) as (s1 & H1 & Hi1 & Ho1 & Hf1).
  exists s1. split; [done|]. intros s2.
  assert (Hsm : forall q, q ∈ sp_pages sp -> same_page (k_mem s) (k_mem s1) q).
  { intros q Hq. eapply framed_page; [exact Hf1|by apply Forall_one| |].
    - pose proof (sp_pages_ok _ _ Hs) as Hx. rewrite Forall_forall in Hx. by apply Hx.
    - intros ->%list_elem_of_singleton. done. }
  assert (Hs1 : space_ok (k_mem s1) sp) by (by eapply space_ok_same).
  assert (Hte : t ∈ sp_pages sp) by (apply list_elem_of_further, elem_of_tabs; eauto).
  assert (Hf2 : framed [t] (k_mem s1) (k_mem s2)) by apply set_pte_framed.
  split_and!.
  - eapply mem_only_trans; [exact Ho1|done].
  - eapply (kmem_inv_framed s1); [done|by apply mem_ok_st32, (kmem_bytes _ _ Hi1)|done|exact Hf2|
      by apply Forall_one; eapply (sp_tab_ok _ _ Hs)|].
    intros q ->%list_elem_of_singleton Hin. apply NoDup_app in Hn' as (_ & Hx & _).
    apply (Hx t Hte), elem_of_app. by right.
  - by apply set_pte_ok.
  - eapply framed_trans; [eapply framed_sub; [exact Hf1|]|eapply framed_sub; [exact Hf2|]];
      intros q ->%list_elem_of_singleton; apply elem_of_app; [right; apply list_elem_of_here|by left].
  - done.
  - intros va Hva. cbn. rewrite (set_pte_pte _ _ _ _ _ Hs1 Ht) by (done || unfold is_u32; lia).
    pose proof (in_first_page a va Hal) as Hx. rewrite (pte_same _ _ _ _ Hsm).
    repeat case_decide; tauto.
Qed.

Lemma cut_cons s sp (up : upages) j l p f s2 s' :
  up !! j = Some (p, f) -> PGSIZE * Z.of_nat j < KERNBASE -> mem_only s s2 ->
  framed (sp_pages sp ++ [p]) (k_mem s) (k_mem s2) ->
  (forall va, is_u32 va -> pte (k_mem s2) sp va =
    if decide (PGSIZE * Z.of_nat j <= va < PGSIZE * Z.of_nat j + PGSIZE) then 0 else pte (k_mem s) sp va) ->
  cut s2 sp up (S j) (p :: l) s' -> cut s sp up j l s'.
Proof.
  intros Hj Hk Ho Hf Hp [H1 H2 H3 H4 H5].
  assert (Hd : drop j up = (p, f) :: drop (S j) up) by (by apply drop_S).
  split; rewrite ?Hd; cbn [fmap list_fmap fst].
  - by eapply mem_only_trans.
  - rewrite reverse_cons, <- app_assoc. exact H2.
  - done.
  - intros va Hva. rewrite H4, Hp by done.
    repeat case_decide; try done; unfold PGSIZE, KERNBASE in *; lia.
  - eapply framed_trans; [eapply framed_sub; [exact Hf|]|eapply framed_sub; [exact H5|]].
    + intros q. rewrite !elem_of_app, list_elem_of_singleton, elem_of_cons. tauto.
    + intros q. rewrite !elem_of_app, elem_of_cons. tauto.
Qed.

Lemma deallocuvm_loop_cut n s sp up j l oldsz :
  kready s -> space_ok (k_mem s) sp -> kmem_inv s l -> NoDup (sp_pages sp ++ (drop j up).*1 ++ l) ->
  Forall upage_ok up -> entries_from (k_mem s) sp up (PGSIZE * Z.of_nat j) -> oldsz <= KERNBASE ->
  PGSIZE * Z.of_nat (length up) < oldsz + PGSIZE ->
  oldsz <= PGSIZE * Z.of_nat j + PGSIZE * Z.of_nat n ->
  exists s', deallocuvm_loop (S n) (sp_dir sp) (PGSIZE * Z.of_nat j) oldsz s = Ret tt s' /\
    cut s sp up j l s'.
Proof.
  revert s j l. induction n as [|n IH]; intros s j l Hr Hs Hi Hn Hu He Hk Hlen Hfuel.
  all: cbn [deallocuvm_loop]; set (a := PGSIZE * Z.of_nat j) in *.
  all: destruct (Z.ltb_spec a oldsz) as [Ha|Ha]; cbn [negb];
    [|exists s; split; [done|]; apply cut_none; try done; unfold a, PGSIZE in *; lia].
  { unfold PGSIZE in *. lia. }
  rewrite (bind_ret _ _ _ _ _ (walkpgdir_noalloc s sp a Hs)). unfold pte_addr.
  assert (Ea : pte (k_mem s) sp a = entry up a) by (apply He; lia).
  assert (Ej : entry up a = match up !! j with Some (p, f) => V2P p + f | None => 0 end).
  { unfold entry, a. rewrite Z.mul_comm, Z.div_mul, Nat2Z.id by (unfold PGSIZE; lia). done. }
  assert (Hnext : (a +u PGSIZE) = PGSIZE * Z.of_nat (S j))
    by (rewrite u32_small; unfold a, PGSIZE, KERNBASE in *; lia).
  assert (Hskip : forall j', (j < j')%nat -> up !! j = None ->
    exists s', deallocuvm_loop (S n) (sp_dir sp) (PGSIZE * Z.of_nat j') oldsz s = Ret tt s' /\ cut s sp up j l s').
  { intros j' Hj' Hnone. apply lookup_ge_None in Hnone.
    destruct (IH s j' l) as (s' & H1 & H2); try done.
    - rewrite drop_ge in Hn |- * by lia. done.
    - intros va Hva. apply He. unfold a, PGSIZE in *. lia.
    - unfold PGSIZE in *. lia.
    - exists s'. split; [done|]. eapply cut_skip; [..|exact H2]; [done|lia|done]. }
  destruct (sp_tabs sp !! PDX a) as [t|] eqn:Et.
  - pose proof (page_ok_range _ (sp_tab_ok _ _ Hs _ _ Et)) as Ht. pose proof (PTX_range a).
    rewrite (proj2 (Z.eqb_neq (t + 4 * PTX a) 0)) by (unfold KERNBASE in *; lia).
    unfold load32. kget. replace (ld32 (k_mem s) (t + 4 * PTX a)) with (entry up a)
      by (rewrite <- Ea; unfold pte; by rewrite Et).
    rewrite Ej. destruct (up !! j) as [[p f]|] eqn:Hj; [|rewrite Hnext; by apply Hskip; [lia|]].
    destruct (upage_entry up j p f Hu Hj) as (Hp & Hfl & H1 & _ & H3). rewrite H3. cbn [negb Z.eqb PTE_P].
    rewrite H1. pose proof (V2P_pos p Hp). rewrite (proj2 (Z.eqb_neq (V2P p) 0)), P2V_V2P by (done || lia).
    destruct (free_upage s sp up j l p f t Hr Hs Hi Hn Hj Hp) as (s1 & K1 & K2 & K3 & K4 & K5 & K6 & K7); [lia|done|].
    rewrite (bind_ret _ _ _ _ _ K1). unfold store32. kget. rewrite Hnext.
    set (s2 := s1 <| k_mem := st32 (k_mem s1) (t + 4 * PTX a) 0 |>) in *.
    destruct (IH s2 (S j) (p :: l)) as (s' & H4 & H5); try done.
    + by eapply kready_mem_only.
    + intros va Hva. rewrite K7 by (unfold is_u32, KERNBASE, a, PGSIZE in *; lia).
      rewrite decide_False by (unfold a, PGSIZE in *; lia). apply He. unfold a, PGSIZE in *. lia.
    + unfold PGSIZE in *. lia.
    + exists s'. split; [done|]. eapply cut_cons; [done|lia|exact K2|exact K5|done|done].
  - cbn [Z.eqb]. assert (Hnone : up !! j = None).
    { destruct (up !! j) as [[p f]|] eqn:Hj; [|done]. exfalso.
      destruct (upage_entry up j p f Hu Hj) as (Hp & [Hf _] & _). pose proof (V2P_pos p Hp).
      unfold pte in Ea. rewrite Et, Ej in Ea. lia. }
    replace ((a +u (NPTENTRIES - 1) * PGSIZE) +u PGSIZE) with (PGSIZE * Z.of_nat (j + 1024)); [by apply Hskip; [lia|]|].
    rewrite u32_add_l, u32_small; unfold a, NPTENTRIES, PGSIZE, KERNBASE in *; lia.
Qed.

Lemma PGROUNDUP_pages sz : 0 <= sz <= KERNBASE -> PGROUNDUP sz = PGSIZE * Z.of_nat (npages sz).
Proof.
  intros H. unfold PGROUNDUP. rewrite u32_small by (unfold KERNBASE, PGSIZE in *; lia).
  change (Z.land ?x (Z.lnot (PGSIZE - 1))) with (PGROUNDDOWN x). rewrite PGROUNDDOWN_eq.
  unfold npages, PGSIZE in *. Z.div_mod_to_equations. lia.
Qed.

Lemma npages_le sz n : 0 <= sz -> (n <= npages sz)%nat <-> PGSIZE * Z.of_nat n < sz + PGSIZE.
Proof. intros H. unfold npages, PGSIZE. Z.div_mod_to_equations. lia. Qed.

Lemma take_drop_pages (up : upages) j : (take j up).*1 ++ (drop j up).*1 = up.*1.
Proof. by rewrite <- fmap_app, take_drop. Qed.

Lemma cut_step s sp up j l s' :
  vm_state s sp up l -> (Z.of_nat j <= KERNBASE / PGSIZE) -> cut s sp up j l s' ->
  vm_step (drop j up).*1 [] s sp up l s' sp (take j up) (reverse (drop j up).*1 ++ l).
Proof.
  intros [Hr Hi Hu Hn] Hj [H1 H2 H3 H4 H5].
  assert (Hperm : sp_pages sp ++ (take j up).*1 ++ reverse (drop j up).*1 ++ l ≡ₚ sp_pages sp ++ up.*1 ++ l).
  { rewrite <- (take_drop_pages up j), <- app_assoc, reverse_Permutation. done. }
  split; [split| | | | |].
  - by eapply kready_mem_only.
  - done.
  - split; [done|apply Forall_take, (uvm_upages _ _ _ Hu)|].
    intros va Hva. rewrite H4, entry_take by (unfold is_u32, KERNBASE in *; lia).
    rewrite <- (uvm_ptes _ _ _ Hu) by done. repeat case_decide; try done; lia.
  - by rewrite Hperm.
  - by apply mem_vm_only.
  - done.
  - by rewrite app_nil_r.
  - intros va Hva. rewrite H4, decide_False by (unfold is_u32, KERNBASE in *; lia). done.
  - eapply framed_sub; [exact H5|]. intros q. rewrite !elem_of_app. tauto.
Qed.

Lemma deallocuvm_step s sp up l oldsz newsz :
  vm_state s sp up l -> 0 <= newsz < oldsz -> oldsz <= KERNBASE -> (length up <= npages oldsz)%nat ->
  let j := npages newsz in
  exists s', deallocuvm (sp_dir sp) oldsz newsz s = Ret newsz s' /\ cut s sp up j l s' /\
    vm_step (drop j up).*1 [] s sp up l s' sp (take j up) (reverse (drop j up).*1 ++ l).
Proof.
  intros Hvs Hsz Hk Hlen j. destruct Hvs as [Hr Hi Hu Hn] eqn:E. clear E.
  unfold deallocuvm. rewrite (proj2 (Z.leb_gt oldsz newsz)) by lia.
  rewrite PGROUNDUP_pages by lia. fold j. apply npages_le in Hlen; [|lia].
  destruct (deallocuvm_loop_cut (Z.to_nat (oldsz / PGSIZE) + 1) s sp up j l oldsz) as (s' & H1 & H2); try done.
  - apply (uvm_space _ _ _ Hu).
  - rewrite <- (take_drop_pages up j) in Hn. revert Hn. rewrite <- (app_assoc (take j up).*1).
    rewrite (Permutation_app_swap_app (sp_pages sp)). by intros (_ & _ & ?)%NoDup_app.
  - apply (uvm_upages _ _ _ Hu).
  - intros va Hva. apply (uvm_ptes _ _ _ Hu). unfold PGSIZE in *. lia.
  - unfold PGSIZE. Z.div_mod_to_equations. lia.
  - replace (Z.to_nat (oldsz / PGSIZE) + 2)%nat with (S (Z.to_nat (oldsz / PGSIZE) + 1)) by lia.
    exists s'. split_and!; [by rewrite (bind_ret _ _ _ _ _ H1)|done|]. apply cut_step; [done| |done].
    unfold j, npages, KERNBASE, PGSIZE in *. Z.div_mod_to_equations. lia.
Qed.

(** ** Mapping one more page *)

Lemma flags_ok_lor perm : 0 <= perm < PGSIZE -> flags_ok (Z.lor perm PTE_P).
Proof.
  intros H. split; [apply lor_flags; [done|unfold PTE_P, PGSIZE; lia]|].
  apply Z.bits_inj'. intros n Hn. rewrite Z.land_spec, Z.lor_spec. by destruct (Z.testbit perm n), (Z.testbit PTE_P n).
Qed.

Lemma map_upage s sp up l pg perm :
  kready s -> kmem_inv s l -> uvm (k_mem s) sp up -> NoDup (sp_pages sp ++ l) ->
  page_ok pg -> 0 <= perm < PGSIZE -> PGSIZE * Z.of_nat (length up) + PGSIZE <= KERNBASE ->
  exists r s' sp' new l',
    mappages (sp_dir sp) (PGSIZE * Z.of_nat (length up)) PGSIZE (V2P pg) perm s = Ret r s' /\
    l = new ++ l' /\ (length new <= 1)%nat /\ grows s sp new s' sp' /\ kmem_inv s' l' /\
    (forall va, KERNBASE <= va < 2 ^ 32 -> pte (k_mem s') sp' va = pte (k_mem s) sp va) /\
    ((r = 0 /\ uvm (k_mem s') sp' (up ++ [(pg, Z.lor perm PTE_P)])) \/
     (r = -1 /\ new = [] /\ l' = [] /\ uvm (k_mem s') sp' up)).
Proof.
  intros Hr Hi Hu Hn Hp Hperm Hk. pose proof (V2P_pos pg Hp) as Hpa.
  destruct (mappages_spec 1 s sp (PGSIZE * Z.of_nat (length up)) (V2P pg) perm l)
    as (r & k & s' & sp' & new & l' & H1 & H2 & H3 & H4 & H5 & H6 & H7); try done.
  - apply (uvm_space _ _ _ Hu).
  - unfold aligned. rewrite Z.mul_comm. apply Z.mod_mul. unfold PGSIZE. lia.
  - by apply V2P_aligned.
  - unfold PGSIZE. lia.
  - lia.
  - lia.
  - unfold PGSIZE, KERNBASE in *. lia.
  - unfold PGSIZE, PHYSTOP in *. lia.
  - intros vb Hvb Hin. rewrite (uvm_ptes _ _ _ Hu), entry_None; [done|..]; unfold PGSIZE, KERNBASE in *;
      Z.div_mod_to_equations; lia.
  - rewrite Z.mul_1_r in H1. exists r, s', sp', new, l'. split_and!; [done|done|destruct H7 as [[_ ->]|(_ & ? & _)]; lia|done|done| |].
    + intros va Hva. rewrite H6 by (unfold is_u32, KERNBASE in *; lia). unfold mapped.
      rewrite decide_False; [done|]. destruct H7 as [[_ ->]|(_ & ? & _)]; unfold PGSIZE, KERNBASE in *; lia.
    + destruct H7 as [[-> ->]|(-> & Hk0 & ->)]; [left|right].
      * split; [done|]. split; [apply (gr_ok _ _ _ _ _ H4)| |].
        -- apply Forall_app. split; [apply (uvm_upages _ _ _ Hu)|]. apply Forall_one.
           split; [done|by apply flags_ok_lor].
        -- intros va Hva. rewrite H6, entry_snoc by (unfold is_u32, KERNBASE in *; lia). unfold mapped.
           rewrite Z.mul_1_r. case_decide; [|by apply (uvm_ptes _ _ _ Hu)]. unfold PGSIZE in *. Z.div_mod_to_equations. lia.
      * assert (k = 0%nat) as -> by lia. destruct new; [|cbn in H3; lia]. split_and!; [done..|].
        split; [apply (gr_ok _ _ _ _ _ H4)|apply (uvm_upages _ _ _ Hu)|].
        intros va Hva. rewrite H6, mapped_0 by (unfold is_u32, KERNBASE in *; lia). by apply (uvm_ptes _ _ _ Hu).
Qed.

Lemma uvm_same m m' sp up :
  uvm m sp up -> (forall p, p ∈ sp_pages sp -> same_page m m' p) -> uvm m' sp up.
Proof.
  intros [H1 H2 H3] Hs. split; [by eapply space_ok_same|done|].
  intros va Hva. rewrite (pte_same m) by done. by apply H3.
Qed.

Lemma vs_free_ok s sp up l p : vm_state s sp up l -> p ∈ l -> page_ok p.
Proof. intros H Hp. pose proof (kmem_pages _ _ (vs_kmem _ _ _ _ H)) as Hf. rewrite Forall_forall in Hf. auto. Qed.

(** A free page is neither a page of the space nor a user page. *)
Lemma vs_free_apart s sp up l p : vm_state s sp up l -> p ∈ l -> p ∉ sp_pages sp /\ p ∉ up.*1.
Proof.
  intros H Hp. pose proof (vs_nodup _ _ _ _ H) as Hn. apply NoDup_app in Hn as (_ & H1 & Hn).
  apply NoDup_app in Hn as (_ & H2 & _). split.
  - intros Hin. apply (H1 p Hin), elem_of_app. by right.
  - intros Hin. by apply (H2 p).
Qed.

(** The free page [pg] is taken, filled, and mapped behind the user pages; if
    there is no page for a page table, it stays with the caller. *)
Section fill_upage.
Context (s : kernel) (sp : space) (up : upages) (pg : Z) (l : list Z) (perm : Z).
Context (Hvs : vm_state s sp up (pg :: l)) (Hperm : 0 <= perm < PGSIZE).
Context (Hk : PGSIZE * Z.of_nat (length up) + PGSIZE <= KERNBASE).
Context (s1 : kernel) (m2 : mem).
Context (Hi1 : kmem_inv s1 l) (Hm1 : k_mem s1 = k_mem s) (Ho1 : mem_only s s1).
Context (Hm2 : mem_ok m2) (Hf2 : framed [pg] (k_mem s) m2).

Lemma fill_page_ok : page_ok pg.
Proof. eapply vs_free_ok; [exact Hvs|apply list_elem_of_here]. Qed.

Lemma fill_apart : pg ∉ sp_pages sp /\ pg ∉ l.
Proof.
  split; [apply (vs_free_apart _ _ _ _ pg Hvs (list_elem_of_here _ _))|].
  pose proof (kmem_nodup _ _ (vs_kmem _ _ _ _ Hvs)) as [? _]%NoDup_cons. done.
Qed.

Lemma fill_same p : p ∈ sp_pages sp -> same_page (k_mem s) m2 p.
Proof.
  intros Hp. eapply framed_page; [exact Hf2|apply Forall_one, fill_page_ok| |].
  - pose proof (sp_pages_ok _ _ (uvm_space _ _ _ (vs_uvm _ _ _ _ Hvs))) as Hx. rewrite Forall_forall in Hx. by apply Hx.
  - intros ->%list_elem_of_singleton. by destruct fill_apart as [Hx _].
Qed.

Lemma fill_kmem : kmem_inv (s1 <| k_mem := m2 |>) l.
Proof.
  eapply (kmem_inv_framed s1); [done|done|done|cbn; rewrite Hm1; exact Hf2|apply Forall_one, fill_page_ok|].
  intros p ->%list_elem_of_singleton. apply fill_apart.
Qed.

Lemma fill_mapped :
  exists r s3 sp' new l',
    mappages (sp_dir sp) (PGSIZE * Z.of_nat (length up)) PGSIZE (V2P pg) perm (s1 <| k_mem := m2 |>) = Ret r s3 /\
    l = new ++ l' /\ (length new <= 1)%nat /\ same_page m2 (k_mem s3) pg /\ mem_only s s3 /\
    ((r = 0 /\ vm_step [] [] s sp up (pg :: l) s3 sp' (up ++ [(pg, Z.lor perm PTE_P)]) l') \/
     (r = -1 /\ l = [] /\ l' = [] /\ vm_step [] [pg] s sp up (pg :: l) s3 sp' up l')).
Proof.
  set (s2 := s1 <| k_mem := m2 |>). destruct fill_apart as [Hpsp Hpl].
  assert (Ho2 : mem_only s s2) by (eapply mem_only_trans; [exact Ho1|done]).
  destruct (map_upage s2 sp up l pg perm) as (r & s3 & sp' & new & l' & H3 & Hl & Hnew & G & Hi3 & Hke & Hres); try done.
  { eapply kready_mem_only; [exact Ho2|apply (vs_ready _ _ _ _ Hvs)]. }
  { apply fill_kmem. }
  { eapply uvm_same; [apply (vs_uvm _ _ _ _ Hvs)|apply fill_same]. }
  { pose proof (vs_nodup _ _ _ _ Hvs) as (Ha & Hb & Hc)%NoDup_app. apply NoDup_app in Hc as (_ & _ & [_ Hc]%NoDup_cons).
    apply NoDup_app. split_and!; [done| |done]. intros q Hq Hql. apply (Hb q Hq), elem_of_app. right.
    by apply list_elem_of_further. }
  { apply fill_page_ok. }
  exists r, s3, sp', new, l'. pose proof (gr_pages _ _ _ _ _ G) as Hpp.
  assert (Ho3 : mem_only s s3) by (eapply mem_only_trans; [exact Ho2|apply (gr_mem _ _ _ _ _ G)]).
  assert (Hstep : forall up' out, uvm (k_mem s3) sp' up' ->
    up'.*1 ++ out ≡ₚ up.*1 ++ [pg] -> vm_step [] out s sp up (pg :: l) s3 sp' up' l').
  { intros up' out Hu' Hpp'.
    assert (Hall : sp_pages sp' ++ up'.*1 ++ l' ++ out ≡ₚ sp_pages sp ++ up.*1 ++ pg :: l) by (rewrite Hl; solve_perm).
    pose proof (vs_nodup _ _ _ _ Hvs) as Hn. rewrite <- Hall in Hn.
    split; [split|by apply mem_vm_only|apply (gr_dir _ _ _ _ _ G)|done| |].
    - eapply kready_mem_only; [exact Ho3|apply (vs_ready _ _ _ _ Hvs)].
    - done.
    - done.
    - enough (NoDup ((sp_pages sp' ++ up'.*1 ++ l') ++ out)) as [? _]%NoDup_app by done.
      by rewrite <- !app_assoc.
    - intros va Hva. rewrite Hke by done. apply pte_same, fill_same.
    - eapply framed_trans; [eapply framed_sub; [exact Hf2|solve_sub]|].
      eapply framed_sub; [apply (gr_frame _ _ _ _ _ G)|rewrite Hl; solve_sub]. }
  split_and!; [done|done|done| |done|].
  - eapply framed_page; [apply (gr_frame _ _ _ _ _ G)| |apply fill_page_ok|].
    + rewrite <- Hpp. eapply sp_pages_ok, (gr_ok _ _ _ _ _ G).
    + rewrite Hl, elem_of_app in Hpl. rewrite elem_of_app. tauto.
  - destruct Hres as [[-> Hu3]|(-> & Hnew0 & Hl0 & Hu3)]; [left|right]; split_and!; try done.
    + apply Hstep; [done|]. rewrite fmap_app, app_nil_r. done.
    + by rewrite Hl, Hnew0, Hl0.
    + by apply Hstep.
Qed.
End fill_upage.

Lemma fill_upage s sp up pg l perm :
  vm_state s sp up (pg :: l) -> 0 <= perm < PGSIZE -> PGSIZE * Z.of_nat (length up) + PGSIZE <= KERNBASE ->
  exists s1, kalloc s = Ret pg s1 /\ k_mem s1 = k_mem s /\
  forall m2, mem_ok m2 -> framed [pg] (k_mem s) m2 ->
  exists r s3 sp' new l',
    mappages (sp_dir sp) (PGSIZE * Z.of_nat (length up)) PGSIZE (V2P pg) perm (s1 <| k_mem := m2 |>) = Ret r s3 /\
    l = new ++ l' /\ (length new <= 1)%nat /\ same_page m2 (k_mem s3) pg /\ mem_only s s3 /\
    ((r = 0 /\ vm_step [] [] s sp up (pg :: l) s3 sp' (up ++ [(pg, Z.lor perm PTE_P)]) l') \/
     (r = -1 /\ l = [] /\ l' = [] /\ vm_step [] [pg] s sp up (pg :: l) s3 sp' up l')).
Proof.
  intros Hvs Hperm Hk. destruct (kalloc_take s pg l (vs_ready _ _ _ _ Hvs) (vs_kmem _ _ _ _ Hvs)) as (s1 & H1 & Hi1 & Hm1 & Ho1).
  exists s1. split_and!; [done..|]. intros m2 Hm2 Hf2. by apply fill_mapped.
Qed.
(** ** allocuvm *)

(** The console can be printed on without a trace on the processor. *)
Definition cready (s : kernel) : Prop := cons_ready s /\ after_cons s = s.

Lemma cready_vm_only s s' : vm_only s s' -> cready s -> cready s'.
Proof.
  intros (E & Hs & Hok) [[H1 H2] H3]. pose proof Hs as (Hlk & _). rewrite E. split.
  - split; cbn; [auto|]. rewrite Hlk. exact H2.
  - unfold after_cons in *. cbn. rewrite Hlk. case_match; [done|]. rewrite <- H3 at 2. done.
Qed.

Lemma vm_print s sp up l fmt :
  vm_state s sp up l -> cready s -> fmt_ok fmt [] = true ->
  exists s', cprintf (Some fmt) [] s = Ret tt s' /\ k_mem s' = k_mem s /\ vm_step [] [] s sp up l s' sp up l.
Proof.
  intros [Hr Hi Hu Hn] [Hc Ha] Hf. destruct (cprintf_ret fmt [] s Hf Hc) as (co & H1 & H2 & H3).
  rewrite Ha in H1. exists (s <| k_cons := co |>). split_and!; [done|done|].
  assert (Ho : vm_only s (s <| k_cons := co |>)) by (split_and!; [by destruct s|done|done]).
  split; [split|done|done|by rewrite app_nil_r|done|apply framed_refl].
  - by eapply kready_vm_only.
  - by destruct Hi.
  - done.
  - done.
Qed.

(** Pages of the space and free pages after a step were such pages before. *)
Lemma vm_step_sub ps out s sp up l s' sp' up' l' :
  vm_step ps out s sp up l s' sp' up' l' -> (forall p, p ∈ up.*1 -> p ∈ up'.*1) ->
  forall p, p ∈ sp_pages sp' ++ l' -> p ∈ sp_pages sp ++ l.
Proof.
  intros H Hup p Hp. pose proof (vs_nodup _ _ _ _ (vt_state _ _ _ _ _ _ _ _ _ _ H)) as Hn.
  assert (Hin : p ∈ sp_pages sp ++ up.*1 ++ l).
  { rewrite <- (vt_pages _ _ _ _ _ _ _ _ _ _ H). revert Hp. rewrite !elem_of_app. tauto. }
  assert (Hnu : p ∉ up.*1).
  { intros Hx%Hup. apply NoDup_app in Hn as (_ & Ha & Hb). apply NoDup_app in Hb as (_ & Hb & _).
    apply elem_of_app in Hp as [Hp|Hp]; [|by apply (Hb p)]. apply (Ha p Hp), elem_of_app. by left. }
  revert Hin. rewrite !elem_of_app. tauto.
Qed.

(** A page that has been taken out is freed. *)
Lemma vm_step_return ps pg s sp up l s1 sp1 up1 l1 :
  vm_step ps [pg] s sp up l s1 sp1 up1 l1 -> page_ok pg -> pg ∈ sp_pages sp ++ l ++ ps ->
  NoDup (sp_pages sp ++ up.*1 ++ l) ->
  exists s2, kfree pg s1 = Ret tt s2 /\ vm_step ps [] s sp up l s2 sp1 up1 (pg :: l1).
Proof.
  intros [[Hr Hi Hu Hn] Ho Hd Hp Hke Hf] Hpg Hin Hn0.
  rewrite <- Hp in Hn0.
  assert (Hn1 : NoDup (sp_pages sp1 ++ up1.*1 ++ pg :: l1)).
  { replace (pg :: l1) with ([pg] ++ l1) by done. by rewrite (Permutation_app_comm [pg] l1). }
  assert (Hap : pg ∉ sp_pages sp1 /\ pg ∉ l1).
  { apply NoDup_app in Hn1 as (_ & Ha & Hb). apply NoDup_app in Hb as (_ & _ & [? _]%NoDup_cons).
    split; [|done]. intros Hx. apply (Ha pg Hx), elem_of_app. right. apply list_elem_of_here. }
  destruct (kfree_give s1 pg l1 Hr Hi Hpg (proj2 Hap)) as (s2 & H1 & Hi2 & Ho2 & Hf2).
  assert (Hsm : forall p, p ∈ sp_pages sp1 -> same_page (k_mem s1) (k_mem s2) p).
  { intros p Hx. eapply framed_page; [exact Hf2|by apply Forall_one| |].
    - pose proof (sp_pages_ok _ _ (uvm_space _ _ _ Hu)) as Hy. rewrite Forall_forall in Hy. by apply Hy.
    - intros ->%list_elem_of_singleton. by destruct Hap. }
  exists s2. split; [done|].
  split; [split|eapply vm_only_trans; [exact Ho|by apply mem_vm_only]|done| | |].
  - by eapply kready_mem_only.
  - done.
  - by eapply uvm_same.
  - done.
  - solve_perm.
  - intros va Hva. rewrite (pte_same _ _ _ _ Hsm). by apply Hke.
  - eapply framed_trans; [exact Hf|]. eapply framed_sub; [exact Hf2|]. by intros q ->%list_elem_of_singleton.
Qed.
(** The error exits of [allocuvm]: a message, and the new pages are freed. *)
Lemma alloc_undo {A} (k : K A) s sp up l fmt oldsz newsz :
  vm_state s sp up l -> cready s -> fmt_ok fmt [] = true ->
  0 <= oldsz < newsz -> newsz < KERNBASE -> (length up <= npages newsz)%nat ->
  let j := npages oldsz in
  exists s', (do! cprintf (Some fmt) []; do! deallocuvm (sp_dir sp) newsz oldsz; k) s = k s' /\
    vm_step (drop j up).*1 [] s sp up l s' sp (take j up) (reverse (drop j up).*1 ++ l).
Proof.
  intros Hv Hc Hf Ho Hk Hl j. destruct (vm_print s sp up l fmt Hv Hc Hf) as (s1 & H1 & Hm & Hs1).
  destruct (deallocuvm_step s1 sp up l newsz oldsz) as (s2 & H2 & _ & Hs2); [apply Hs1|lia|lia|done|].
  exists s2. rewrite (bind_ret _ _ _ _ _ H1), (bind_ret _ _ _ _ _ H2). split; [done|].
  assert (Hw : vm_step (drop j up).*1 [] s sp up l s1 sp up l).
  { destruct Hs1 as [? ? ? ? ? Hfr]. split; try done. eapply framed_sub; [exact Hfr|solve_sub]. }
  pose proof (vm_step_trans _ _ _ _ _ _ _ _ _ _ _ _ _ _ _ _ Hw Hs2) as Ht. by apply Ht.
Qed.

Definition page_zero (m : mem) (p : Z) : Prop := forall a, in_page p a -> ld8 m a = 0.

(** The pages that [allocuvm] adds: writable user pages, filled with zeros. *)
Definition fresh_page (m : mem) (pf : Z * Z) : Prop :=
  snd pf = PTE_P + PTE_W + PTE_U /\ page_zero m (fst pf).

(** User pages that a step keeps do not change. *)
Lemma vm_step_kept ps s sp up l s' sp' up' l' p :
  vm_step ps [] s sp up l s' sp' up' l' -> vm_state s sp up l ->
  p ∈ up.*1 -> p ∉ ps -> Forall page_ok ps -> same_page (k_mem s) (k_mem s') p.
Proof.
  intros H Hv Hp Hps Hok. pose proof (vs_uvm _ _ _ _ Hv) as Hu.
  assert (Hpok : page_ok p).
  { apply list_elem_of_fmap in Hp as ([q f] & -> & Hq). pose proof (uvm_upages _ _ _ Hu) as Hx.
    rewrite Forall_forall in Hx. by apply Hx in Hq as [? _]. }
  eapply framed_page; [apply (vt_frame _ _ _ _ _ _ _ _ _ _ H)| |done|].
  - apply Forall_app. split; [apply (sp_pages_ok _ _ (uvm_space _ _ _ Hu))|].
    apply Forall_app. split; [apply (kmem_pages _ _ (vs_kmem _ _ _ _ Hv))|done].
  - pose proof (vs_nodup _ _ _ _ Hv) as Hn. apply NoDup_app in Hn as (_ & Ha & Hb).
    apply NoDup_app in Hb as (_ & Hb & _). rewrite !elem_of_app. intros [Hx|[Hx|Hx]]; [|by apply (Hb p)|done].
    apply (Ha p Hx), elem_of_app. by left.
Qed.

(** The outcome of [allocuvm], from the user pages [up] on. *)
Definition alloc_result (s : kernel) (sp : space) (up : upages) (l : list Z) (oldsz newsz r : Z)
    (s' : kernel) (sp' : space) (up' : upages) (l' : list Z) : Prop :=
  let j := npages oldsz in
  (r = newsz /\ vm_step [] [] s sp up l s' sp' up' l' /\ length up' = npages newsz /\
    exists fresh, up' = up ++ fresh /\ Forall (fresh_page (k_mem s')) fresh) \/
  (r = 0 /\ vm_step (drop j up).*1 [] s sp up l s' sp' up' l' /\ up' = take j up).

Lemma vm_step_weaken ps qs out s sp up l s' sp' up' l' :
  vm_step ps out s sp up l s' sp' up' l' -> ps ⊆ qs -> vm_step qs out s sp up l s' sp' up' l'.
Proof.
  intros [? ? ? ? ? Hfr] Hs. split; try done. eapply framed_sub; [exact Hfr|]. intros q.
  rewrite !elem_of_app. intros [?|[?|?]]; [tauto|tauto|]. right. right. by apply Hs.
Qed.

(** One more page and then the rest. *)
Lemma alloc_result_cons s sp up l pg s1 sp1 l1 oldsz newsz r s' sp' up' l' :
  let up1 := up ++ [(pg, PTE_P + PTE_W + PTE_U)] in
  (npages oldsz <= length up)%nat -> pg ∈ l ->
  vm_step [] [] s sp up l s1 sp1 up1 l1 -> page_zero (k_mem s1) pg ->
  alloc_result s1 sp1 up1 l1 oldsz newsz r s' sp' up' l' ->
  alloc_result s sp up l oldsz newsz r s' sp' up' l'.
Proof.
  intros up1 Hj Hpg Hst Hz Hres. set (j := npages oldsz) in *.
  assert (Hsub : forall p, p ∈ sp_pages sp1 ++ l1 -> p ∈ sp_pages sp ++ l).
  { apply (vm_step_sub _ _ _ _ _ _ _ _ _ _ Hst). intros q Hq. unfold up1. rewrite fmap_app. apply elem_of_app. by left. }
  destruct Hres as [(-> & Hst2 & Hl & fresh & -> & Hfr)|(-> & Hst2 & ->)]; [left|right].
  - split_and!; [done| |done|].
    + eapply (vm_step_trans _ _ [] []); [exact Hst|exact Hst2|]. intros p. rewrite !app_nil_r. apply Hsub.
    + exists ((pg, PTE_P + PTE_W + PTE_U) :: fresh). split; [unfold up1; by rewrite <- app_assoc|].
      constructor; [|done]. split; [done|]. intros b Hb. rewrite <- (Hz b Hb).
      eapply (vm_step_kept _ _ _ _ _ _ _ _ _ pg Hst2); [apply Hst| |by apply not_elem_of_nil|done|done].
      unfold up1. rewrite fmap_app. apply elem_of_app. right. apply list_elem_of_here.
  - fold j in Hst2 |- *.
    assert (Hd : drop j up1 = drop j up ++ [(pg, PTE_P + PTE_W + PTE_U)]) by (unfold up1; apply drop_app_le; lia).
    split_and!; [done| |unfold up1; by rewrite take_app_le by lia].
    eapply (vm_step_trans _ _ [] []); [by eapply vm_step_weaken, list_subseteq_nil|exact Hst2|].
    intros p. rewrite Hd, fmap_app, app_assoc, elem_of_app. intros [Hp|Hp].
    + apply Hsub in Hp. revert p Hp. solve_sub.
    + apply elem_of_app in Hp as [Hp|Hp]; [revert p Hp; solve_sub|].
      apply list_elem_of_singleton in Hp as ->. apply elem_of_app. right. apply elem_of_app. by left.
Qed.

Lemma allocuvm_loop_spec n s sp up l oldsz newsz :
  vm_state s sp up l -> cready s -> 0 <= oldsz <= newsz -> newsz < KERNBASE ->
  (npages oldsz <= length up <= npages newsz)%nat ->
  newsz <= PGSIZE * Z.of_nat (length up) + PGSIZE * Z.of_nat n ->
  exists r s' sp' up' l',
    allocuvm_loop (S n) (sp_dir sp) (PGSIZE * Z.of_nat (length up)) oldsz newsz s = Ret r s' /\
    ((2 * (npages newsz - length up) <= length l)%nat -> r = newsz) /\
    alloc_result s sp up l oldsz newsz r s' sp' up' l'.
Proof.
  revert s sp up l. induction n as [|n IH]; intros s sp up l Hv Hc Hsz Hk [Hl1 Hl2] Hfuel; cbn [allocuvm_loop].
  all: set (a := PGSIZE * Z.of_nat (length up)) in *.
  all: destruct (Z.ltb_spec a newsz) as [Ha|Ha]; cbn [negb].
  2,4: exists newsz, s, sp, up, l; split_and!; [done|done|left];
    split_and!; [done|by apply vm_step_refl|unfold a, npages, PGSIZE in *; Z.div_mod_to_equations; lia|exists []; by rewrite app_nil_r].
  { unfold PGSIZE in *. lia. }
  assert (Hlt : (length up < npages newsz)%nat) by (unfold a, npages, PGSIZE in *; Z.div_mod_to_equations; lia).
  assert (Hoz : oldsz < newsz) by (unfold a, npages, PGSIZE in *; Z.div_mod_to_equations; lia).
  destruct l as [|pg l].
  { rewrite (bind_ret _ _ _ _ _ (kalloc_empty s (vs_ready _ _ _ _ Hv) (vs_kmem _ _ _ _ Hv))). cbn [Z.eqb].
    destruct (alloc_undo (ret 0) s sp up [] (bytes "allocuvm out of memory" ++ [NL]) oldsz newsz)
      as (s' & H1 & H2); [done|done|done|lia|done|done|].
    eexists 0, s', sp, _, _. split_and!; [exact H1|cbn; lia|right; split_and!; [done|exact H2|done]]. }
  assert (Hpg : page_ok pg) by (eapply vs_free_ok; [exact Hv|apply list_elem_of_here]).
  destruct (fill_upage s sp up pg l (Z.lor PTE_W PTE_U)) as (s1 & K1 & Km & K2);
    [done|by vm_compute|unfold a, PGSIZE, KERNBASE in *; lia|].
  rewrite (bind_ret _ _ _ _ _ K1).
  rewrite (proj2 (Z.eqb_neq pg 0)) by (apply page_ok_range in Hpg; unfold KERNBASE in *; lia).
  unfold setmem. kget.
  destruct (K2 (memset (k_mem s1) pg 0 PGSIZE)) as (r & s3 & sp' & new & l' & H3 & Hl & Hnew & Hsm & Ho & Hres).
  { apply mem_ok_memset. rewrite Km. apply (kmem_bytes _ _ (vs_kmem _ _ _ _ Hv)). }
  { rewrite Km. apply framed_memset. }
  rewrite (bind_ret _ _ _ _ _ H3). destruct Hres as [[-> Hst]|(-> & Hl0 & -> & Hst)]; cbn [Z.ltb Z.compare].
  - set (up1 := up ++ [(pg, Z.lor (Z.lor PTE_W PTE_U) PTE_P)]) in *.
    assert (Hlen : length up1 = S (length up)) by (unfold up1; rewrite length_app; cbn; lia).
    destruct (IH s3 sp' up1 l') as (r & s' & sp2 & up2 & l2 & H4 & Hen & Hres);
      [apply Hst|eapply cready_vm_only; [apply Hst|done]|done|done|lia|rewrite Hlen; unfold a, PGSIZE in *; lia|].
    replace (a +u PGSIZE) with (PGSIZE * Z.of_nat (length up1))
      by (rewrite Hlen, u32_small; unfold a, PGSIZE, KERNBASE in *; lia).
    rewrite <- (vt_dir _ _ _ _ _ _ _ _ _ _ Hst). exists r, s', sp2, up2, l2.
    split_and!; [done| |].
    + intros Hen1. apply Hen. rewrite Hlen. rewrite Hl in Hen1. cbn [length] in Hen1. rewrite length_app in Hen1. lia.
    + eapply alloc_result_cons; [done|apply list_elem_of_here|exact Hst| |exact Hres].
      intros b Hb. rewrite (Hsm b Hb), ld8_memset, decide_True by (done || unfold PGSIZE; lia). done.
  - destruct (alloc_undo (do! kfree pg; ret 0) s3 sp' up [] (bytes "allocuvm out of memory (2)" ++ [NL]) oldsz newsz)
      as (s4 & H4 & Hst4); [apply Hst|eapply cready_vm_only; [apply Hst|done]|done|lia|done|done|].
    rewrite (vt_dir _ _ _ _ _ _ _ _ _ _ Hst) in H4. rewrite H4.
    destruct (vm_step_return (drop (npages oldsz) up).*1 pg s sp up (pg :: l) s4 sp' (take (npages oldsz) up)
      (reverse (drop (npages oldsz) up).*1 ++ [])) as (s5 & H5 & Hst5).
    + eapply (vm_step_trans _ _ [pg] []); [by eapply vm_step_weaken, list_subseteq_nil|exact Hst4|].
      intros p. rewrite app_assoc, elem_of_app. intros [Hp|Hp]; [|revert p Hp; solve_sub].
      apply (vm_step_sub _ _ _ _ _ _ _ _ _ _ Hst) in Hp; [|done]. revert p Hp. solve_sub.
    + done.
    + apply elem_of_app. right. apply list_elem_of_here.
    + apply Hv.
    + rewrite (bind_ret _ _ _ _ _ H5). eexists 0, s5, sp', _, _. split_and!; [done|intros Hx; rewrite Hl0 in Hx; cbn [length] in Hx; lia|].
      right. split_and!; [done|exact Hst5|done].
Qed.
Lemma allocuvm_spec s sp up l oldsz newsz :
  vm_state s sp up l -> cready s -> 0 <= oldsz <= newsz -> newsz < KERNBASE -> length up = npages oldsz ->
  exists r s' sp' up' l',
    allocuvm (sp_dir sp) oldsz newsz s = Ret r s' /\
    ((2 * (npages newsz - npages oldsz) <= length l)%nat -> r = newsz) /\
    alloc_result s sp up l oldsz newsz r s' sp' up' l'.
Proof.
  intros Hv Hc Hsz Hk Hl. unfold allocuvm. rewrite (proj2 (Z.leb_gt _ _)), (proj2 (Z.ltb_ge _ _)) by lia.
  rewrite PGROUNDUP_pages, <- Hl by lia.
  replace (Z.to_nat (newsz / PGSIZE) + 2)%nat with (S (Z.to_nat (newsz / PGSIZE) + 1)) by lia.
  apply allocuvm_loop_spec; [done|done|done|done| |].
  - rewrite Hl. split; [done|]. unfold npages, PGSIZE. Z.div_mod_to_equations. lia.
  - unfold PGSIZE. Z.div_mod_to_equations. lia.
Qed.

(** ** freevm *)

(** The tables of the [n] directory entries from the [k]-th on. *)
Definition tabs_from (sp : space) (k n : nat) : list Z :=
  omap (fun i => sp_tabs sp !! Z.of_nat i) (seq k n).

Lemma elem_of_tabs_from sp k n t :
  t ∈ tabs_from sp k n <-> exists i, (k <= i < k + n)%nat /\ sp_tabs sp !! Z.of_nat i = Some t.
Proof.
  unfold tabs_from. rewrite list_elem_of_omap. split.
  - intros (i & Hi & Ht). exists i. apply elem_of_seq in Hi. done.
  - intros (i & Hi & Ht). exists i. by rewrite elem_of_seq.
Qed.

Lemma NoDup_tabs_from m sp k n : space_ok m sp -> NoDup (tabs_from sp k n).
Proof.
  intros Hs. revert k. induction n as [|n IH]; intros k; [constructor|].
  unfold tabs_from. cbn [seq omap list_omap]. destruct (sp_tabs sp !! Z.of_nat k) as [t|] eqn:E; [|apply IH].
  constructor; [|apply IH]. intros (i & Hi & Ht)%elem_of_tabs_from.
  pose proof (sp_tabs_inj _ _ _ _ _ Hs E Ht). lia.
Qed.

Lemma tabs_from_all m sp : space_ok m sp -> sp_dir sp :: tabs_from sp 0 1024 ≡ₚ sp_pages sp.
Proof.
  intros Hs. unfold sp_pages. f_equiv. apply NoDup_Permutation.
  - by eapply NoDup_tabs_from.
  - pose proof (sp_nodup _ _ Hs) as [_ H]%NoDup_cons. done.
  - intros t. rewrite elem_of_tabs_from, elem_of_tabs. split.
    + intros (i & _ & H). eauto.
    + intros (i & H). pose proof (sp_tab_idx _ _ Hs _ _ H). exists (Z.to_nat i). rewrite Z2Nat.id by lia. split; [lia|done].
Qed.
Lemma pde_of_table t : page_ok t ->
  negb (Z.land (pde_of (Some t)) PTE_P =? 0) = true /\ P2V (PTE_ADDR (pde_of (Some t))) = t.
Proof.
  intros Hok. pose proof (V2P_aligned t Hok) as Ha. cbn [pde_of].
  rewrite land_page by (done || unfold PTE_P, PTE_W, PTE_U, PGSIZE; lia). split; [done|].
  destruct (page_part (V2P t) (PTE_P + PTE_W + PTE_U) Ha) as [-> _];
    [unfold PTE_P, PTE_W, PTE_U, PGSIZE; lia|]. by apply P2V_V2P.
Qed.

(** The loop over the directory: [m] is the memory in which the directory is
    intact. *)
Lemma free_tables n k m s sp l :
  space_ok m sp -> same_page m (k_mem s) (sp_dir sp) -> kready s -> kmem_inv s l ->
  (k + n <= 1024)%nat -> NoDup (tabs_from sp k n ++ l) ->
  exists s', for_each (seq k n) (fun i =>
      let! e := load32 (sp_dir sp + 4 * Z.of_nat i) in
      when (negb (Z.land e PTE_P =? 0)) (kfree (P2V (PTE_ADDR e)))) s = Ret tt s' /\
    mem_only s s' /\ kmem_inv s' (reverse (tabs_from sp k n) ++ l) /\
    framed (tabs_from sp k n) (k_mem s) (k_mem s').
Proof.
  intros Hs. revert k s l. induction n as [|n IH]; intros k s l Hd Hr Hi Hk Hn; cbn [seq for_each].
  { exists s. split_and!; [done|apply mem_only_refl|done|apply framed_refl]. }
  assert (He : ld32 (k_mem s) (sp_dir sp + 4 * Z.of_nat k) = pde_of (sp_tabs sp !! Z.of_nat k)).
  { rewrite <- (sp_entries _ _ Hs) by lia. apply same_page_ld32; [done|unfold PGSIZE; lia]. }
  unfold tabs_from in *. cbn [seq omap list_omap] in *. fold (tabs_from sp (S k) n) in *.
  destruct (sp_tabs sp !! Z.of_nat k) as [t|] eqn:Et.
  - pose proof (sp_tab_ok _ _ Hs _ _ Et) as Ht. destruct (pde_of_table t Ht) as [E1 E2].
    apply NoDup_cons in Hn as [Htn Hn].
    destruct (kfree_give s t l Hr Hi Ht) as (s1 & H1 & Hi1 & Ho1 & Hf1); [intros Hx; apply Htn, elem_of_app; by right|].
    destruct (IH (S k) s1 (t :: l)) as (s2 & H2 & Ho2 & Hi2 & Hf2).
    + intros a Ha. rewrite <- (Hd a Ha). revert a Ha. eapply framed_page; [exact Hf1|by apply Forall_one|apply Hs|].
      intros E%list_elem_of_singleton. pose proof (sp_nodup _ _ Hs) as [Hx _]%NoDup_cons. apply Hx, elem_of_tabs.
      rewrite E. eauto.
    + by eapply kready_mem_only.
    + done.
    + lia.
    + rewrite <- Permutation_middle. by apply NoDup_cons.
    + exists s2. split_and!.
      * erewrite bind_ret; [exact H2|]. unfold load32. kget. rewrite He, E1, E2. cbn [when]. exact H1.
      * by eapply mem_only_trans.
      * rewrite reverse_cons, <- app_assoc. exact Hi2.
      * eapply framed_trans; [eapply framed_sub; [exact Hf1|solve_sub]|eapply framed_sub; [exact Hf2|solve_sub]].
  - destruct (IH (S k) s l) as (s2 & H2 & Ho2 & Hi2 & Hf2); [done|done|done|lia|done|].
    exists s2. split_and!; [|done|done|done]. erewrite bind_ret; [exact H2|]. unfold load32. kget. by rewrite He.
Qed.

Lemma freevm_spec s sp up l :
  vm_state s sp up l -> (length up <= npages KERNBASE)%nat ->
  exists s' l', freevm (sp_dir sp) s = Ret tt s' /\ mem_only s s' /\ kmem_inv s' l' /\
    l' ≡ₚ sp_pages sp ++ up.*1 ++ l /\ framed (sp_pages sp ++ up.*1) (k_mem s) (k_mem s').
Proof.
  intros Hv Hl. pose proof (uvm_space _ _ _ (vs_uvm _ _ _ _ Hv)) as Hs.
  pose proof (page_ok_range _ (sp_dir_ok _ _ Hs)) as Hdr.
  unfold freevm. rewrite (proj2 (Z.eqb_neq (sp_dir sp) 0)) by (unfold KERNBASE in *; lia).
  destruct (deallocuvm_step s sp up l KERNBASE 0) as (s1 & H1 & [Ho1 Hi1 Hs1 _ Hf1] & _);
    [done|unfold KERNBASE; lia|lia|done|].
  rewrite (bind_ret _ _ _ _ _ H1). change (npages 0) with 0%nat in *. rewrite drop_0 in *.
  pose proof (vs_nodup _ _ _ _ Hv) as Hn. pose proof (tabs_from_all _ _ Hs) as Hall.
  assert (Hn1 : NoDup (sp_dir sp :: tabs_from sp 0 1024 ++ reverse up.*1 ++ l)).
  { revert Hn. rewrite reverse_Permutation, <- Hall. done. }
  apply NoDup_cons in Hn1 as [Hdn Hn1].
  destruct (free_tables 1024 0 (k_mem s1) s1 sp (reverse up.*1 ++ l)) as (s2 & H2 & Ho2 & Hi2 & Hf2);
    [done|done|eapply kready_mem_only; [exact Ho1|apply Hv]|done|lia|done|].
  rewrite (bind_ret _ _ _ _ _ H2).
  destruct (kfree_give s2 (sp_dir sp) (reverse (tabs_from sp 0 1024) ++ reverse up.*1 ++ l))
    as (s3 & H3 & Hi3 & Ho3 & Hf3).
  - eapply kready_mem_only; [exact Ho2|]. eapply kready_mem_only; [exact Ho1|apply Hv].
  - done.
  - apply Hs.
  - by rewrite reverse_Permutation.
  - exists s3. eexists. split_and!; [exact H3| |exact Hi3| |].
    + eapply mem_only_trans; [exact Ho1|]. by eapply mem_only_trans.
    + rewrite <- Hall, !reverse_Permutation. done.
    + eapply framed_trans; [exact Hf1|]. eapply framed_trans; (eapply framed_sub; [eassumption|]).
      * intros q Hq. apply elem_of_app. left. rewrite <- Hall. by apply list_elem_of_further.
      * intros q ->%list_elem_of_singleton. apply elem_of_app. left. apply list_elem_of_here.
Qed.
End uvm_facts.
