(* ===== verification/Kvm.v ===== *)
(** * The kernel part of an address space, and copies of address spaces

    [setupkvm] maps the kernel at the same addresses in every address space;
    [copyuvm] makes a copy of the user part in a new address space. *)

From S2P Require Import Prelude State Monad Mem Spinlock Kalloc ConsoleOut Vm VmFacts Uvm.

Section kvm.
Context {L : Linker} {LO : LinkerOk L}.

(** ** setupkvm *)

(** The pages of an entry of [kmap]. *)
Definition kmap_pages (phys_start phys_end : Z) : nat := Z.to_nat ((phys_end -u phys_start) / PGSIZE).

(** The page-table entries after those of [ks] have been added to [g]. *)
Fixpoint kmapped (ks : list (Z * Z * Z * Z)) (g : Z -> Z) (va : Z) : Z :=
  match ks with
  | [] => g va
  | (virt, phys_start, phys_end, perm) :: ks' =>
      kmapped ks' (mapped virt phys_start (Z.lor perm PTE_P) (kmap_pages phys_start phys_end) g) va
  end.

(** The entries are whole pages that have not been mapped before. *)
Fixpoint kmap_wf (ks : list (Z * Z * Z * Z)) (g : Z -> Z) : Prop :=
  match ks with
  | [] => True
  | (virt, phys_start, phys_end, perm) :: ks' =>
      let n := kmap_pages phys_start phys_end in
      aligned virt /\ aligned phys_start /\ 0 <= virt /\ 0 <= phys_start /\ 0 <= perm < PGSIZE /\
      (0 < n)%nat /\ phys_end -u phys_start = PGSIZE * Z.of_nat n /\
      virt + PGSIZE * Z.of_nat n <= 2 ^ 32 /\ phys_start + PGSIZE * Z.of_nat n <= 2 ^ 32 /\
      (forall va, virt <= va < virt + PGSIZE * Z.of_nat n -> g va = 0) /\
      kmap_wf ks' (mapped virt phys_start (Z.lor perm PTE_P) n g)
  end.

Lemma mapped_ext a pa f n g g' va : g va = g' va -> mapped a pa f n g va = mapped a pa f n g' va.
Proof. intros H. unfold mapped. by case_decide. Qed.

Lemma setupkvm_loop_spec ks s sp l g :
  kready s -> space_ok (k_mem s) sp -> kmem_inv s l -> NoDup (sp_pages sp ++ l) ->
  kmap_wf ks g -> (forall va, is_u32 va -> pte (k_mem s) sp va = g va) ->
  exists r s' sp' new l', setupkvm_loop (sp_dir sp) ks s = Ret r s' /\
    l = new ++ l' /\ grows s sp new s' sp' /\ kmem_inv s' l' /\
    ((r = sp_dir sp /\ forall va, is_u32 va -> pte (k_mem s') sp' va = kmapped ks g va) \/
     (r = 0 /\ l' = [])).
Proof.
  revert s sp l g. induction ks as [|[[[v ps] pe] perm] ks IH]; intros s sp l g Hr Hs Hi Hn Hwf Hg.
  { exists (sp_dir sp), s, sp, [], l. split_and!; [done|done|by apply grows_refl|done|by left]. }
  cbn [setupkvm_loop]. destruct Hwf as (W1 & W2 & W3 & W4 & W5 & W6 & W7 & W8 & W9 & W10 & W11).
  set (n := kmap_pages ps pe) in *. rewrite W7.
  destruct (mappages_spec n s sp v ps perm l) as (r & k & s1 & sp1 & new & l1 & H1 & -> & Hl & G & Hi1 & Hp & Hres); try done.
  { intros vb Hvb Hin. rewrite Hg by (unfold is_u32; lia). by rewrite W10. }
  rewrite (bind_ret _ _ _ _ _ H1). destruct Hres as [[-> ->]|(-> & _ & ->)]; cbn [Z.ltb Z.compare].
  - destruct (IH s1 sp1 l1 (mapped v ps (Z.lor perm PTE_P) n g)) as (r & s2 & sp2 & new2 & l2 & H2 & -> & G2 & Hi2 & Hres).
    + eapply kready_mem_only; [apply G|done].
    + apply G.
    + done.
    + by eapply grows_nodup.
    + done.
    + intros va Hva. rewrite Hp by done. by apply mapped_ext, Hg.
    + rewrite (gr_dir _ _ _ _ _ G) in *. exists r, s2, sp2, (new ++ new2), l2.
      split_and!; [done|by rewrite app_assoc|by eapply grows_trans|done|done].
  - exists 0, s1, sp1, new, []. split_and!; [done|done|done|done|by right].
Qed.

(** The entry of the kernel part for [va]. *)
Definition kentry (va : Z) : Z :=
  let page := va - va mod PGSIZE in
  if decide (KERNBASE <= va < KERNLINK) then page - KERNBASE + (PTE_P + PTE_W)
  else if decide (KERNLINK <= va < sym_data) then page - KERNBASE + PTE_P
  else if decide (sym_data <= va < KERNBASE + PHYSTOP) then page - KERNBASE + (PTE_P + PTE_W)
  else if decide (DEVSPACE <= va < 2 ^ 32) then page + (PTE_P + PTE_W)
  else 0.

Lemma sym_data_pages : exists k, sym_data = KERNLINK + PGSIZE * Z.of_nat (S k) /\
  KERNLINK + PGSIZE * Z.of_nat (S k) < KERNBASE + PHYSTOP.
Proof.
  pose proof sym_data_range. pose proof sym_end_range. pose proof sym_data_aligned as Ha.
  exists (Z.to_nat ((sym_data - KERNLINK) / PGSIZE - 1)).
  unfold KERNLINK, EXTMEM, KERNBASE, PHYSTOP, PGSIZE in *. Z.div_mod_to_equations. lia.
Qed.
Lemma kmap_pages_eq ps pe z :
  0 <= z -> pe -u ps = PGSIZE * z -> Z.of_nat (kmap_pages ps pe) = z.
Proof.
  intros Hz H. unfold kmap_pages. rewrite H, Z.mul_comm, Z.div_mul by (unfold PGSIZE; lia). lia.
Qed.

(** The numbers of pages of the four entries of [kmap]. *)
Lemma kmap_counts :
  Z.of_nat (kmap_pages 0 EXTMEM) = 256 /\
  PGSIZE * Z.of_nat (kmap_pages (V2P KERNLINK) (V2P sym_data)) = sym_data - KERNLINK /\
  PGSIZE * Z.of_nat (kmap_pages (V2P sym_data) PHYSTOP) = KERNBASE + PHYSTOP - sym_data /\
  Z.of_nat (kmap_pages DEVSPACE 0) = 8192.
Proof.
  destruct sym_data_pages as (k & Hk & Hlt).
  assert (HV : V2P sym_data = sym_data - KERNBASE).
  { apply u32_small. unfold KERNLINK, EXTMEM, KERNBASE, PHYSTOP, PGSIZE in *. lia. }
  split_and!.
  - apply kmap_pages_eq; [lia|]. done.
  - rewrite (kmap_pages_eq _ _ (Z.of_nat (S k))); [lia|lia|].
    rewrite HV. change (V2P KERNLINK) with EXTMEM. rewrite u32_small; unfold KERNLINK, EXTMEM, KERNBASE, PHYSTOP, PGSIZE in *; lia.
  - rewrite HV, (kmap_pages_eq _ _ ((KERNBASE + PHYSTOP - sym_data) / PGSIZE)).
    + rewrite Hk. unfold KERNLINK, EXTMEM, KERNBASE, PHYSTOP, PGSIZE in *. Z.div_mod_to_equations. lia.
    + unfold KERNLINK, EXTMEM, KERNBASE, PHYSTOP, PGSIZE in *. Z.div_mod_to_equations. lia.
    + rewrite u32_small; unfold KERNLINK, EXTMEM, KERNBASE, PHYSTOP, PGSIZE in *; Z.div_mod_to_equations; lia.
  - apply kmap_pages_eq; [lia|]. done.
Qed.

Lemma kmap_counts_eq :
  EXTMEM -u 0 = PGSIZE * Z.of_nat (kmap_pages 0 EXTMEM) /\
  V2P sym_data -u V2P KERNLINK = PGSIZE * Z.of_nat (kmap_pages (V2P KERNLINK) (V2P sym_data)) /\
  PHYSTOP -u V2P sym_data = PGSIZE * Z.of_nat (kmap_pages (V2P sym_data) PHYSTOP) /\
  0 -u DEVSPACE = PGSIZE * Z.of_nat (kmap_pages DEVSPACE 0).
Proof.
  destruct kmap_counts as (-> & -> & -> & ->). pose proof sym_data_range. pose proof sym_end_range.
  assert (HV : V2P sym_data = sym_data - KERNBASE).
  { apply u32_small. unfold KERNLINK, EXTMEM, KERNBASE, PHYSTOP, PGSIZE in *. lia. }
  rewrite HV. change (V2P KERNLINK) with EXTMEM.
  split_and!; [done|rewrite u32_small|rewrite u32_small|done];
    unfold KERNLINK, EXTMEM, KERNBASE, PHYSTOP, PGSIZE in *; lia.
Qed.

Lemma kmap_ok : kmap_wf kmap (fun _ => 0) /\ forall va, is_u32 va -> kmapped kmap (fun _ => 0) va = kentry va.
Proof.
  pose proof kmap_counts as (C1 & C2 & C3 & C4). pose proof kmap_counts_eq as (E1 & E2 & E3 & E4).
  pose proof sym_data_range. pose proof sym_end_range. pose proof sym_data_aligned as Ha.
  assert (HV : V2P sym_data = sym_data - KERNBASE).
  { apply u32_small. unfold KERNLINK, EXTMEM, KERNBASE, PHYSTOP, PGSIZE in *. lia. }
  assert (HVa : aligned (V2P sym_data)).
  { rewrite HV. unfold aligned, KERNBASE, PGSIZE in *. Z.div_mod_to_equations. lia. }
  change (V2P KERNLINK) with EXTMEM in *.
  unfold kmap. change (V2P KERNLINK) with EXTMEM. cbn [kmap_wf kmapped].
  generalize dependent (kmap_pages 0 EXTMEM). intros n1.
  generalize dependent (kmap_pages EXTMEM (V2P sym_data)). intros n2.
  generalize dependent (kmap_pages (V2P sym_data) PHYSTOP). intros n3.
  generalize dependent (kmap_pages DEVSPACE 0). intros n4. intros.
  rewrite HV in *.
  split.
  - split_and!; try done; unfold mapped, aligned, PTE_W, PTE_P in *;
      unfold KERNLINK, EXTMEM, KERNBASE, PHYSTOP, DEVSPACE, PGSIZE in *; try lia.
    all: intros va Hva; repeat (rewrite decide_False by lia); done.
  - intros va Hva. unfold mapped, kentry. change (Z.lor PTE_W PTE_P) with 3. change (Z.lor 0 PTE_P) with 1.
    unfold PTE_P, PTE_W. unfold is_u32 in Hva.
    repeat case_decide; unfold KERNLINK, EXTMEM, KERNBASE, PHYSTOP, DEVSPACE, PGSIZE in *; lia.
Qed.
(** The kernel part of [sp] is that of [kmap]. *)
Definition kvm (m : mem) (sp : space) : Prop :=
  forall va, KERNBASE <= va < 2 ^ 32 -> pte m sp va = kentry va.

(** A zeroed page is an empty directory. *)
Lemma empty_space_ok m d : page_ok d -> space_ok (memset m d 0 PGSIZE) (MkSpace d ∅).
Proof.
  intros Hd. split; cbn; [done|intros i t; by rewrite lookup_empty|intros i t; by rewrite lookup_empty| |].
  - unfold sp_pages. cbn. rewrite map_to_list_empty. apply NoDup_singleton.
  - intros i Hi. rewrite lookup_empty. apply zero_page_ld32. unfold PGSIZE. lia.
Qed.

Lemma setupkvm_spec s l :
  kready s -> kmem_inv s l ->
  exists r s' l', setupkvm s = Ret r s' /\ mem_only s s' /\ kmem_inv s' l' /\
    framed l (k_mem s) (k_mem s') /\
    ((exists sp, r = sp_dir sp /\ l ≡ₚ sp_pages sp ++ l' /\ vm_state s' sp [] l' /\ kvm (k_mem s') sp) \/
     (r = 0 /\ l' = [] /\ (length l <= 1025)%nat)).
Proof.
  intros Hr Hi. unfold setupkvm. destruct l as [|d l].
  { rewrite (bind_ret _ _ _ _ _ (kalloc_empty s Hr Hi)). exists 0, s, [].
    split_and!; [done|apply mem_only_refl|done|apply framed_refl|right; cbn; split_and!; [done|done|lia]]. }
  destruct (kalloc_take s d l Hr Hi) as (s1 & H1 & Hi1 & Hm1 & Ho1). rewrite (bind_ret _ _ _ _ _ H1).
  assert (Hd : page_ok d) by (by pose proof (kmem_pages _ _ Hi) as [? _]%Forall_cons).
  pose proof (kmem_nodup _ _ Hi) as Hn. apply NoDup_cons in Hn as [Hdl Hn].
  rewrite (proj2 (Z.eqb_neq d 0)) by (apply page_ok_range in Hd; unfold KERNBASE in *; lia).
  unfold setmem. kget. cbn [Z.ltb]. change (DEVSPACE <? P2V PHYSTOP) with false. cbn iota.
  set (s2 := s1 <| k_mem := memset (k_mem s1) d 0 PGSIZE |>). set (sp0 := MkSpace d ∅).
  assert (Ho2 : mem_only s s2) by (eapply mem_only_trans; [exact Ho1|done]).
  destruct kmap_ok as [Hwf Hke].
  assert (Hsp0 : sp_pages sp0 = [d]) by (unfold sp_pages; cbn; by rewrite map_to_list_empty).
  assert (Hf2 : framed [d] (k_mem s) (k_mem s2)) by (cbn; rewrite Hm1; apply framed_memset).
  destruct (setupkvm_loop_spec kmap s2 sp0 l (fun _ => 0)) as (r & s3 & sp & new & l' & H3 & -> & G & Hi3 & Hres).
  - by eapply kready_mem_only.
  - by apply empty_space_ok.
  - eapply (kmem_inv_framed s1); [done|cbn; apply mem_ok_memset, (kmem_bytes _ _ Hi1)|done|rewrite Hm1; exact Hf2|by apply Forall_one|].
    by intros p ->%list_elem_of_singleton.
  - rewrite Hsp0. by apply NoDup_cons.
  - done.
  - intros va _. unfold pte. cbn. by rewrite lookup_empty.
  - exists r, s3, l'. pose proof (gr_pages _ _ _ _ _ G) as Hpp. rewrite Hsp0 in Hpp.
    assert (Ho3 : mem_only s s3) by (eapply mem_only_trans; [exact Ho2|apply G]).
    assert (Hall : d :: new ++ l' ≡ₚ sp_pages sp ++ l') by solve_perm.
    split_and!; [done|done|done| |].
    + eapply framed_trans; [eapply framed_sub; [exact Hf2|solve_sub]|].
      eapply framed_sub; [apply G|rewrite Hsp0; solve_sub].
    + destruct Hres as [[-> Hp]|[-> ->]]; [left|right].
      2:{ split_and!; [done|done|]. rewrite Hall, app_nil_r. apply (sp_pages_few (k_mem s3)), G. }
      exists sp. split_and!; [by rewrite (gr_dir _ _ _ _ _ G)|done| |].
      * split; [by eapply kready_mem_only|done| |].
        -- split; [apply G|constructor|]. intros va Hva.
           rewrite Hp, Hke by (unfold is_u32, KERNBASE in *; lia). unfold kentry.
           pose proof sym_data_range. unfold KERNLINK, EXTMEM, DEVSPACE, KERNBASE in *.
           repeat (rewrite decide_False by lia). done.
        -- cbn. rewrite <- Hall. by apply NoDup_cons.
      * intros va Hva. rewrite Hp, Hke by (unfold is_u32, KERNBASE in *; lia). done.
Qed.
(** ** copyuvm *)

(** The page-table entry of the [i]-th user page. *)
Lemma upage_pte m sp up i p f :
  uvm m sp up -> up !! i = Some (p, f) -> PGSIZE * Z.of_nat i < KERNBASE ->
  exists t, sp_tabs sp !! PDX (PGSIZE * Z.of_nat i) = Some t /\ page_ok t /\
    ld32 m (t + 4 * PTX (PGSIZE * Z.of_nat i)) = V2P p + f.
Proof.
  intros Hu Hi Hk. assert (He : pte m sp (PGSIZE * Z.of_nat i) = V2P p + f).
  { rewrite (uvm_ptes _ _ _ Hu) by (unfold PGSIZE in *; lia). unfold entry.
    rewrite Z.mul_comm, Z.div_mul, Nat2Z.id by (unfold PGSIZE; lia). by rewrite Hi. }
  unfold pte in He. destruct (sp_tabs sp !! _) as [t|] eqn:Et.
  - exists t. split_and!; [done|by eapply (sp_tab_ok _ _ (uvm_space _ _ _ Hu))|done].
  - destruct (upage_entry up i p f (uvm_upages _ _ _ Hu) Hi) as (Hp & [Hf _] & _). pose proof (V2P_pos p Hp). lia.
Qed.

(** Two pages with the same bytes. *)
Definition page_copy (m : mem) (p q : Z) : Prop := forall k, 0 <= k < PGSIZE -> ld8 m (q + k) = ld8 m (p + k).

(** [up'] is a copy of [up]: the same flags and contents. *)
Definition copied (m : mem) (up up' : upages) : Prop :=
  Forall2 (fun pf qf => snd qf = snd pf /\ page_copy m (fst pf) (fst qf)) up up'.

Lemma page_copy_same m m' p q :
  same_page m m' p -> same_page m m' q -> page_copy m p q -> page_copy m' p q.
Proof.
  intros H1 H2 H k Hk. rewrite (H1 (p + k)), (H2 (q + k)) by (unfold in_page; lia). by apply H.
Qed.

Lemma copied_same m m' up up' :
  (forall p, p ∈ up.*1 ++ up'.*1 -> same_page m m' p) -> copied m up up' -> copied m' up up'.
Proof.
  intros H Hc. apply Forall2_same_length_lookup. unfold copied in Hc. rewrite Forall2_same_length_lookup in Hc.
  destruct Hc as [Hl Hc]. split; [done|]. intros i pf qf Hi Hj. destruct (Hc i pf qf Hi Hj) as [H1 H2].
  split; [done|]. eapply page_copy_same; [| |exact H2]; apply H, elem_of_app; [left|right];
    apply list_elem_of_fmap; eexists; (split; [reflexivity|]); by eapply list_elem_of_lookup_2.
Qed.

Lemma lor_present f : flags_ok f -> Z.lor f PTE_P = f.
Proof.
  intros [_ H]. apply Z.bits_inj'. intros n Hn. rewrite Z.lor_spec.
  apply (f_equal (fun z => Z.testbit z n)) in H. rewrite Z.land_spec in H.
  destruct (Z.testbit f n), (Z.testbit PTE_P n); done.
Qed.

Lemma vm_state_pages s sp up l : vm_state s sp up l -> Forall page_ok (sp_pages sp ++ up.*1 ++ l).
Proof.
  intros [Hr Hi Hu Hn]. rewrite !Forall_app. split_and!.
  - apply (sp_pages_ok _ _ (uvm_space _ _ _ Hu)).
  - apply Forall_fmap. eapply Forall_impl; [apply (uvm_upages _ _ _ Hu)|]. by intros [p f] [? _].
  - apply (kmem_pages _ _ Hi).
Qed.

(** Pages apart from those that a step may change. *)
Lemma framed_apart ps qs m m' :
  framed ps m m' -> Forall page_ok ps -> Forall page_ok qs -> (forall q, q ∈ qs -> q ∉ ps) ->
  forall q, q ∈ qs -> same_page m m' q.
Proof.
  intros Hf Hps Hqs Hd q Hq. eapply framed_page; [exact Hf|done| |by apply Hd].
  rewrite Forall_forall in Hqs. by apply Hqs.
Qed.

(** A change of pages that belong neither to the address space nor to the free list. *)
Lemma vm_state_framed s s' sp up l ps :
  vm_state s sp up l -> kready s' -> mem_ok (k_mem s') -> k_freelist s' = k_freelist s ->
  framed ps (k_mem s) (k_mem s') -> Forall page_ok ps -> (forall q, q ∈ ps -> q ∉ sp_pages sp ++ l) ->
  vm_state s' sp up l.
Proof.
  intros Hv Hr' Hm Hfl Hf Hps Hd. pose proof (vm_state_pages _ _ _ _ Hv) as Hok. rewrite !Forall_app in Hok.
  destruct Hok as (Hok1 & Hok2 & Hok3). pose proof Hv as [Hr Hi Hu Hn]. split; [done| | |done].
  - eapply (kmem_inv_framed s); [done..|]. intros q Hq Hl. apply (Hd q Hq), elem_of_app. by right.
  - eapply uvm_same; [exact Hu|]. eapply framed_apart; [exact Hf|done|done|].
    intros q Hq Hx. apply (Hd q Hx), elem_of_app. by left.
Qed.
(** The loop of [copyuvm]: the parent is [sp] with user pages [up], the child
    has a copy of the first of them. *)
Record copying (sp : space) (up : upages) (s : kernel) (spc : space) (upc : upages) (l : list Z) : Prop := {
  cp_child : vm_state s spc upc l;
  cp_parent : uvm (k_mem s) sp up;
  cp_apart : NoDup ((sp_pages sp ++ up.*1) ++ sp_pages spc ++ upc.*1 ++ l);
  cp_copied : copied (k_mem s) (take (length upc) up) upc;
  cp_length : (length upc <= length up)%nat
}.

(** The parent's pages do not change while the child is built. *)
Lemma copying_parent sp up s spc upc l ps m' :
  copying sp up s spc upc l -> framed ps (k_mem s) m' -> Forall page_ok ps ->
  (forall p, p ∈ ps -> p ∈ sp_pages spc ++ upc.*1 ++ l) ->
  forall p, p ∈ sp_pages sp ++ up.*1 -> same_page (k_mem s) m' p.
Proof.
  intros [Hc Hp Ha _ _] Hf Hok Hsub. eapply framed_apart; [exact Hf|done| |].
  - apply Forall_app. split; [apply (sp_pages_ok _ _ (uvm_space _ _ _ Hp))|].
    apply Forall_fmap. eapply Forall_impl; [apply (uvm_upages _ _ _ Hp)|]. by intros [p f] [? _].
  - intros q Hq Hx. apply NoDup_app in Ha as (_ & Ha & _). apply (Ha q Hq), Hsub, Hx.
Qed.

Lemma take_upages_elem (up : upages) n p : p ∈ (take n up).*1 -> p ∈ up.*1.
Proof.
  rewrite !list_elem_of_fmap. intros (x & -> & (i & Hi & _)%elem_of_take). exists x. split; [done|].
  by eapply list_elem_of_lookup_2.
Qed.

(** One more page has been copied. *)
Lemma copying_next sp up s spc upc pg l p f m2 s3 spc' l' :
  copying sp up s spc upc (pg :: l) -> up !! length upc = Some (p, f) ->
  m2 = memmove (k_mem s) pg p PGSIZE -> same_page m2 (k_mem s3) pg ->
  vm_step [] [] s spc upc (pg :: l) s3 spc' (upc ++ [(pg, f)]) l' ->
  copying sp up s3 spc' (upc ++ [(pg, f)]) l'.
Proof.
  intros Hcp Hi -> Hpg Hst. pose proof Hcp as [Hc Hu Ha Hcopy Hlen].
  pose proof (vt_frame _ _ _ _ _ _ _ _ _ _ Hst) as Hf.
  assert (Hok : Forall page_ok (sp_pages spc ++ (pg :: l) ++ [])).
  { pose proof (vm_state_pages _ _ _ _ Hc) as Hx. rewrite !Forall_app in *. split_and!; [apply Hx|apply Hx|done]. }
  assert (Hpar : forall q, q ∈ sp_pages sp ++ up.*1 -> same_page (k_mem s) (k_mem s3) q).
  { eapply copying_parent; [exact Hcp|exact Hf|done|]. solve_sub. }
  assert (Hpin : p ∈ up.*1) by (apply list_elem_of_fmap; exists (p, f); split; [done|by eapply list_elem_of_lookup_2]).
  split.
  - apply Hst.
  - eapply uvm_same; [exact Hu|]. intros q Hq. apply Hpar, elem_of_app. by left.
  - pose proof (vt_pages _ _ _ _ _ _ _ _ _ _ Hst) as Hp. rewrite app_nil_r in Hp. by rewrite Hp.
  - rewrite length_app, Nat.add_1_r, (take_S_r _ _ _ Hi). apply Forall2_app.
    + eapply copied_same; [|exact Hcopy]. intros q Hq. apply elem_of_app in Hq as [Hq|Hq].
      * apply Hpar, elem_of_app. right. by eapply take_upages_elem.
      * eapply vm_step_kept; [exact Hst|done|done|apply not_elem_of_nil|done].
    + apply Forall2_cons. split; [|constructor]. cbn. split; [done|]. intros k Hk.
      rewrite Hpg, ld8_memmove, decide_True by (unfold in_page, PGSIZE in *; lia || apply (kmem_bytes _ _ (vs_kmem _ _ _ _ Hc))).
      rewrite (Hpar p ltac:(apply elem_of_app; by right) (p + k)) by (unfold in_page; lia). f_equal. lia.
  - rewrite length_app. cbn. apply lookup_lt_Some in Hi. lia.
Qed.
(** The outcome of the loop, from the child [spc] with pages [upc] on: a whole
    copy, or 0 after the child has been freed, except for at most one page. *)
Definition copy_result (sp : space) (up : upages) (s : kernel) (spc : space) (upc : upages) (l : list Z)
    (r : Z) (s' : kernel) : Prop :=
  (r = sp_dir spc /\ exists spc' upc' l', copying sp up s' spc' upc' l' /\ length upc' = length up /\
    sp_dir spc' = sp_dir spc /\ sp_pages spc' ++ upc'.*1 ++ l' ≡ₚ sp_pages spc ++ upc.*1 ++ l /\
    forall va, KERNBASE <= va < 2 ^ 32 -> pte (k_mem s') spc' va = pte (k_mem s) spc va) \/
  (r = 0 /\ (length (sp_pages spc ++ upc.*1 ++ l) <= 1026 + length up)%nat /\
    exists l' out, kmem_inv s' l' /\ l' ++ out ≡ₚ sp_pages spc ++ upc.*1 ++ l /\ (length out <= 1)%nat).

Lemma copy_freed sp up s spc upc l s1 spc1 out :
  vm_step [] out s spc upc l s1 spc1 upc [] -> mem_only s s1 -> (length out <= 1)%nat ->
  (length upc <= npages KERNBASE)%nat -> (length upc <= length up)%nat ->
  exists s', (do! freevm (sp_dir spc); ret 0) s1 = Ret 0 s' /\ mem_only s s' /\
    framed (sp_pages spc ++ upc.*1 ++ l) (k_mem s) (k_mem s') /\ copy_result sp up s spc upc l 0 s'.
Proof.
  intros Hst Ho Hout Hlen Hup. destruct (freevm_spec s1 spc1 upc [] (vt_state _ _ _ _ _ _ _ _ _ _ Hst) Hlen)
    as (s' & l' & H1 & Ho1 & Hi1 & Hp & Hf).
  rewrite (vt_dir _ _ _ _ _ _ _ _ _ _ Hst) in H1. exists s'. rewrite (bind_ret _ _ _ _ _ H1).
  pose proof (vt_pages _ _ _ _ _ _ _ _ _ _ Hst) as Hall.
  split_and!; [done|by eapply mem_only_trans| |].
  - eapply framed_trans; [eapply framed_sub; [apply Hst|solve_sub]|]. eapply framed_sub; [exact Hf|].
    intros q Hq. rewrite <- Hall. revert q Hq. solve_sub.
  - right. split_and!; [done| |exists l', out; split_and!; [done|solve_perm|done]].
    pose proof (sp_pages_few _ _ (uvm_space _ _ _ (vs_uvm _ _ _ _ (vt_state _ _ _ _ _ _ _ _ _ _ Hst)))) as Hfew.
    apply Permutation_length in Hall. rewrite !length_app, !length_fmap in *. cbn [length] in Hall. lia.
Qed.

Lemma copyuvm_loop_spec n sp up s spc upc l sz :
  copying sp up s spc upc l -> length up = npages sz -> 0 <= sz <= KERNBASE ->
  sz <= PGSIZE * Z.of_nat (length upc) + PGSIZE * Z.of_nat n ->
  exists r s', copyuvm_loop (S n) (sp_dir spc) (sp_dir sp) (PGSIZE * Z.of_nat (length upc)) sz s = Ret r s' /\
    mem_only s s' /\ framed (sp_pages spc ++ upc.*1 ++ l) (k_mem s) (k_mem s') /\
    copy_result sp up s spc upc l r s'.
Proof.
  revert s spc upc l. induction n as [|n IH]; intros s spc upc l Hcp Hup Hsz Hfuel; cbn [copyuvm_loop].
  all: set (a := PGSIZE * Z.of_nat (length upc)) in *; pose proof (cp_length _ _ _ _ _ _ Hcp) as Hle.
  all: destruct (Z.ltb_spec a sz) as [Ha|Ha]; cbn [negb].
  2,4: exists (sp_dir spc), s; split_and!; [done|apply mem_only_refl|apply framed_refl|left];
    split; [done|]; exists spc, upc, l; split_and!; [done|unfold a, npages, PGSIZE in *; Z.div_mod_to_equations; lia|done..].
  { unfold PGSIZE in *. lia. }
  destruct (lookup_lt_is_Some_2 up (length upc)) as [[p f] Hi].
  { unfold a, npages, PGSIZE in *. Z.div_mod_to_equations. lia. }
  assert (Hak : a + PGSIZE <= KERNBASE) by (unfold a, PGSIZE, KERNBASE in *; lia).
  pose proof Hcp as [Hc Hu _ _ _].
  destruct (upage_pte (k_mem s) sp up (length upc) p f Hu Hi) as (t & Ht & Htok & Hpte); [unfold PGSIZE in *; lia|].
  destruct (upage_entry up _ p f (uvm_upages _ _ _ Hu) Hi) as (Hp & Hfl & E1 & E2 & E3).
  rewrite (bind_ret _ _ _ _ _ (walkpgdir_found s sp a t false (uvm_space _ _ _ Hu) Ht)).
  pose proof (page_ok_range _ Htok). pose proof (PTX_range a).
  rewrite (proj2 (Z.eqb_neq (t + 4 * PTX a) 0)) by (unfold KERNBASE in *; lia).
  unfold load32. kget. fold a in Hpte. rewrite Hpte, E3, E1, E2. cbn [Z.eqb PTE_P]. rewrite P2V_V2P by done.
  destruct l as [|pg l].
  { rewrite (bind_ret _ _ _ _ _ (kalloc_empty s (vs_ready _ _ _ _ Hc) (vs_kmem _ _ _ _ Hc))). cbn [Z.eqb].
    destruct (copy_freed sp up s spc upc [] s spc []) as (s' & H1 & H2); [by apply vm_step_refl|apply mem_only_refl|cbn; lia| |done|by eauto].
    unfold a, npages, KERNBASE, PGSIZE in *. Z.div_mod_to_equations. lia. }
  assert (Hpg : page_ok pg) by (eapply vs_free_ok; [exact Hc|apply list_elem_of_here]).
  destruct (fill_upage s spc upc pg l f Hc (proj1 Hfl) Hak) as (s1 & K1 & Km & K2).
  rewrite (bind_ret _ _ _ _ _ K1).
  rewrite (proj2 (Z.eqb_neq pg 0)) by (apply page_ok_range in Hpg; unfold KERNBASE in *; lia).
  unfold setmem. kget. rewrite Km.
  destruct (K2 (memmove (k_mem s) pg p PGSIZE)) as (r & s3 & spc' & new & l' & H3 & Hl & Hnew & Hsm & Ho & Hres).
  { apply mem_ok_memmove, (kmem_bytes _ _ (vs_kmem _ _ _ _ Hc)). }
  { intros b Hb. rewrite ld8_memmove, decide_False; [done|..|unfold PGSIZE; lia].
    - apply (Hb pg), list_elem_of_here.
    - apply (kmem_bytes _ _ (vs_kmem _ _ _ _ Hc)). }
  rewrite (bind_ret _ _ _ _ _ H3). rewrite lor_present in Hres by done.
  destruct Hres as [[-> Hst]|(-> & Hl0 & -> & Hst)]; cbn [Z.ltb Z.compare].
  - pose proof (copying_next _ _ _ _ _ _ _ _ _ _ _ _ _ Hcp Hi eq_refl Hsm Hst) as Hcp3.
    destruct (IH s3 spc' (upc ++ [(pg, f)]) l' Hcp3 Hup Hsz) as (r & s' & H4 & Ho4 & Hf4 & Hres);
      [rewrite length_app; cbn; unfold a, PGSIZE in *; lia|].
    replace (a +u PGSIZE) with (PGSIZE * Z.of_nat (length (upc ++ [(pg, f)])))
      by (rewrite length_app, u32_small; cbn; unfold a, PGSIZE, KERNBASE in *; lia).
    rewrite (vt_dir _ _ _ _ _ _ _ _ _ _ Hst) in H4. exists r, s'.
    pose proof (vt_pages _ _ _ _ _ _ _ _ _ _ Hst) as Hall. rewrite app_nil_r in Hall.
    split_and!; [done|by eapply mem_only_trans| |].
    + eapply framed_trans; [eapply framed_sub; [apply Hst|solve_sub]|]. eapply framed_sub; [exact Hf4|].
      intros q. by rewrite Hall.
    + destruct Hres as [(-> & spc2 & upc2 & l2 & R1 & R2 & R3 & R4 & R5)|(-> & Rn & l2 & out & R1 & R2 & R3)]; [left|right].
      * split; [apply Hst|]. exists spc2, upc2, l2. rewrite (vt_dir _ _ _ _ _ _ _ _ _ _ Hst) in R3.
        split_and!; [done|done|done|by rewrite R4|]. intros va Hva. rewrite R5 by done. by apply Hst.
      * split_and!; [done| |exists l2, out; split_and!; [done|by rewrite R2|done]]. apply Permutation_length in Hall. lia.
  - destruct (copy_freed sp up s spc upc (pg :: l) s3 spc' [pg] Hst Ho) as (s' & H4 & H5); [cbn; lia| |done|by eauto].
    unfold a, npages, KERNBASE, PGSIZE in *. Z.div_mod_to_equations. lia.
Qed.
Lemma copyuvm_spec s sp up l sz :
  vm_state s sp up l -> length up = npages sz -> 0 <= sz <= KERNBASE ->
  exists r s', copyuvm (sp_dir sp) sz s = Ret r s' /\ mem_only s s' /\ framed l (k_mem s) (k_mem s') /\
    ((exists spc upc l', r = sp_dir spc /\ copying sp up s' spc upc l' /\ length upc = length up /\
        kvm (k_mem s') spc /\ sp_pages spc ++ upc.*1 ++ l' ≡ₚ l) \/
     (r = 0 /\ (length l <= 1026 + npages sz)%nat /\ exists l' out, kmem_inv s' l' /\ l' ++ out ≡ₚ l)).
Proof.
  intros Hv Hl Hsz. unfold copyuvm.
  destruct (setupkvm_spec s l (vs_ready _ _ _ _ Hv) (vs_kmem _ _ _ _ Hv)) as (r & s1 & l1 & H1 & Ho1 & Hi1 & Hf1 & Hres).
  rewrite (bind_ret _ _ _ _ _ H1).
  destruct Hres as [(spc & -> & Hp & Hvc & Hk)|(-> & -> & Hfew)].
  2:{ exists 0, s1. split_and!; [done|done|done|right]. split_and!; [done|lia|]. exists [], l. done. }
  pose proof (vm_state_pages _ _ _ _ Hv) as Hok. rewrite !Forall_app in Hok. destruct Hok as (Hok1 & Hok2 & Hok3).
  assert (Hpar : forall q, q ∈ sp_pages sp ++ up.*1 -> same_page (k_mem s) (k_mem s1) q).
  { eapply framed_apart; [exact Hf1|done|by apply Forall_app|]. intros q Hq Hql.
    destruct (vs_free_apart _ _ _ _ q Hv Hql) as [A1 A2]. apply elem_of_app in Hq as [?|?]; done. }
  assert (Hcp : copying sp up s1 spc [] l1).
  { split; [done| | |constructor|cbn; lia].
    - eapply uvm_same; [apply Hv|]. intros q Hq. apply Hpar, elem_of_app. by left.
    - cbn [fmap list_fmap app]. rewrite <- Hp. rewrite <- app_assoc. apply Hv. }
  rewrite (proj2 (Z.eqb_neq (sp_dir spc) 0)).
  2:{ pose proof (page_ok_range _ (sp_dir_ok _ _ (uvm_space _ _ _ (vs_uvm _ _ _ _ Hvc)))). unfold KERNBASE in *. lia. }
  replace (Z.to_nat (sz / PGSIZE) + 2)%nat with (S (Z.to_nat (sz / PGSIZE) + 1)) by lia.
  destruct (copyuvm_loop_spec (Z.to_nat (sz / PGSIZE) + 1) sp up s1 spc [] l1 sz Hcp Hl Hsz) as (r & s2 & H2 & Ho2 & Hf2 & Hres).
  { unfold PGSIZE. cbn [length]. Z.div_mod_to_equations. lia. }
  exists r, s2. split_and!; [exact H2|by eapply mem_only_trans| |].
  - eapply framed_trans; [exact Hf1|]. eapply framed_sub; [exact Hf2|]. intros q. by rewrite Hp.
  - cbn [fmap list_fmap app] in *.
    destruct Hres as [(-> & spc2 & upc2 & l2 & R1 & R2 & R3 & R4 & R5)|(-> & Rn & l2 & out & R1 & R2 & R3)]; [left|right].
    + exists spc2, upc2, l2. split_and!; [done|done|done| |by rewrite R4].
      intros va Hva. rewrite R5 by done. by apply Hk.
    + split_and!; [done| |exists l2, out; split; [done|by rewrite R2]]. rewrite Hp. by rewrite <- Hl.
Qed.
End kvm.
