(* ===== verification/User.v ===== *)
(** * User memory

    The kernel reads and writes user memory through the current page table
    (the register %cr3).  A page that is not there, or not writable (the bit
    WP of %cr0 is set in entry.S), is a page fault in kernel mode, for which
    [trap] panics. *)

From S2P Require Import Prelude State Monad Mem Spinlock ConsoleOut Kalloc Vm.

(** The page-table entry for [va] under the page directory [pgdir]. *)
Definition lookup_pte (m : mem) (pgdir va : Z) : option Z :=
  let pde := ld32 m (pgdir + 4 * PDX va) in
  if Z.land pde PTE_P =? 0 then None
  else
    let pte := ld32 m (P2V (PTE_ADDR pde) + 4 * PTX va) in
    if Z.land pte PTE_P =? 0 then None
    else Some (Z.land pte (Z.lor (Z.land pde 0xFFF) (Z.lnot 0xFFF))).

(** The kernel address of the byte at [va]. *)
Definition translate (m : mem) (pgdir va : Z) (write : bool) : option Z :=
  match lookup_pte m pgdir va with
  | None => None
  | Some pte =>
      if write && (Z.land pte PTE_W =? 0) then None
      else Some (P2V (PTE_ADDR pte) + va mod PGSIZE)
  end.

Definition utranslate (va : Z) (write : bool) : K Z :=
  let! c := mycpu in
  let! m := gets k_mem in
  match translate m (P2V (c_cr3 c)) va write with
  | Some a => ret a
  | None => panic "trap"
  end.

Definition uload8 (va : Z) : K Z :=
  let! a := utranslate va false in gets (fun s => ld8 (k_mem s) a).
Definition ustore8 (va v : Z) : K unit :=
  let! a := utranslate va true in setmem (fun m => st8 m a v).

(** [memmove] from and to user memory. *)
Fixpoint uload (va : Z) (n : nat) : K (list Z) :=
  match n with
  | O => ret []
  | S n' =>
      let! b := uload8 va in
      let! bs := uload (va +u 1) n' in
      ret (b :: bs)
  end.
Fixpoint ustore (va : Z) (bs : list Z) : K unit :=
  match bs with
  | [] => ret tt
  | b :: bs' => do! ustore8 va b; ustore (va +u 1) bs'
  end.

Definition le32 (bs : list Z) : Z :=
  nth 0 bs 0 + 2 ^ 8 * nth 1 bs 0 + 2 ^ 16 * nth 2 bs 0 + 2 ^ 24 * nth 3 bs 0.
Definition bytes32 (v : Z) : list Z := [u8 v; u8 (v / 2 ^ 8); u8 (v / 2 ^ 16); u8 (v / 2 ^ 24)].

Definition uload32 (va : Z) : K Z := let! bs := uload va 4 in ret (le32 bs).
Definition ustore32 (va v : Z) : K unit := ustore va (bytes32 v).

Lemma le32_bytes32 v : le32 (bytes32 v) = u32 v.
Proof.
  unfold le32, bytes32, u8, u32. cbn [nth].
  change (2 ^ 32) with (2 ^ 8 * (2 ^ 8 * (2 ^ 8 * 2 ^ 8))).
  rewrite !Z.rem_mul_r by lia. rewrite !Z.div_div by lia.
  change (2 ^ 8 * 2 ^ 8) with (2 ^ 16). change (2 ^ 16 * 2 ^ 8) with (2 ^ 24). lia.
Qed.

(** ** The user memory that two states share *)

Definition sees (s s' : kernel) : Prop :=
  k_mem s' = k_mem s /\ k_cpunum s' = k_cpunum s /\
  c_cr3 <$> k_cpus s' !! k_cpunum s = c_cr3 <$> k_cpus s !! k_cpunum s.

Lemma sees_refl s : sees s s.
Proof. done. Qed.

Lemma sees_mem s s' m : sees s s' -> sees (s <| k_mem := m |>) (s' <| k_mem := m |>).
Proof. intros (H1 & H2 & H3). by split_and!. Qed.

Lemma utranslate_inv va w s a s1 :
  utranslate va w s = Ret a s1 ->
  s1 = s /\ exists cr3, c_cr3 <$> k_cpus s !! k_cpunum s = Some cr3 /\
    translate (k_mem s) (P2V cr3) va w = Some a.
Proof.
  unfold utranslate, mycpu, bind, gets. destruct (k_cpus s !! k_cpunum s) as [c|] eqn:E; cbn; [|done].
  destruct (translate _ _ _ _) eqn:Et; [|done]. intros [= <- <-]. split; [done|]. eauto.
Qed.

Lemma utranslate_ret va w s cr3 a :
  c_cr3 <$> k_cpus s !! k_cpunum s = Some cr3 -> translate (k_mem s) (P2V cr3) va w = Some a ->
  utranslate va w s = Ret a s.
Proof.
  intros H1 H2. unfold utranslate, mycpu, bind, gets.
  destruct (k_cpus s !! k_cpunum s) as [c|] eqn:E; cbn in *; [|done].
  injection H1 as ->. by rewrite H2.
Qed.

Lemma utranslate_sees va w s s' a :
  sees s s' -> utranslate va w s = Ret a s -> utranslate va w s' = Ret a s'.
Proof.
  intros (H1 & H2 & H3) H. apply utranslate_inv in H as (_ & cr3 & Hc & Ht).
  apply (utranslate_ret _ _ _ cr3); [by rewrite H2, H3|by rewrite H1].
Qed.

Lemma uload8_inv va s b s1 : uload8 va s = Ret b s1 -> s1 = s.
Proof.
  unfold uload8, bind. destruct (utranslate va false s) as [a s2| |] eqn:E; cbn; [|done..].
  apply utranslate_inv in E as [-> _]. by intros [= _ <-].
Qed.

Lemma uload8_sees va s s' b : sees s s' -> uload8 va s = Ret b s -> uload8 va s' = Ret b s'.
Proof.
  intros Hs. unfold uload8, bind. destruct (utranslate va false s) as [a s2| |] eqn:E; cbn; [|done..].
  pose proof (utranslate_inv _ _ _ _ _ E) as [-> _]. rewrite (utranslate_sees _ _ _ _ _ Hs E). cbn.
  unfold gets. destruct Hs as (-> & _). by intros [= <-].
Qed.

Lemma uload_inv n va s bs s1 : uload va n s = Ret bs s1 -> s1 = s /\ length bs = n.
Proof.
  revert va s bs s1. induction n as [|n IH]; intros va s bs s1; cbn [uload]; [by intros [= <- <-]|].
  unfold bind. destruct (uload8 va s) as [b s2| |] eqn:E; cbn; [|done..].
  apply uload8_inv in E as ->. destruct (uload (va +u 1) n s) as [bs' s3| |] eqn:E2; cbn; [|done..].
  intros [= <- <-]. apply IH in E2 as [-> <-]. done.
Qed.

(** The bytes of a read, one by one. *)
Lemma uload_byte n va s bs k b :
  uload va n s = Ret bs s -> bs !! k = Some b -> is_u32 va -> uload (va +u Z.of_nat k) 1 s = Ret [b] s.
Proof.
  revert va bs k. induction n as [|n IH]; intros va bs k; cbn [uload].
  - by intros [= <-].
  - unfold bind. destruct (uload8 va s) as [b0 s2| |] eqn:E; cbn; [|done..].
    pose proof (uload8_inv _ _ _ _ E) as ->.
    destruct (uload (va +u 1) n s) as [bs' s3| |] eqn:E2; cbn; [|done..].
    intros [= <- ->] Hk Hva. destruct k as [|k]; cbn in Hk.
    + injection Hk as ->. by rewrite Z.add_0_r, u32_small, E.
    + specialize (IH _ _ _ E2 Hk (u32_range _)). cbn [uload] in IH. unfold bind in IH.
      replace (va +u Z.of_nat (S k)) with (va +u 1 +u Z.of_nat k); [done|].
      rewrite u32_add_l. f_equal. lia.
Qed.

Lemma uload1_sees va s s' b : sees s s' -> uload va 1 s = Ret [b] s -> uload va 1 s' = Ret [b] s'.
Proof.
  intros Hs. cbn [uload]. unfold bind. destruct (uload8 va s) as [b0 s2| |] eqn:E; cbn; [|done..].
  pose proof (uload8_inv _ _ _ _ E) as ->. rewrite (uload8_sees _ _ _ _ Hs E).
  by intros [= ->].
Qed.

Lemma ustore8_inv va v s s1 :
  ustore8 va v s = Ret tt s1 -> s1 = s <| k_mem := k_mem s1 |> /\
  forall s', sees s s' -> ustore8 va v s' = Ret tt (s' <| k_mem := k_mem s1 |>).
Proof.
  unfold ustore8, bind. destruct (utranslate va true s) as [a s2| |] eqn:E; cbn; [|done..].
  pose proof (utranslate_inv _ _ _ _ _ E) as [-> _]. intros [= <-]. split; [done|].
  intros s' Hs. rewrite (utranslate_sees _ _ _ _ _ Hs E). cbn. unfold setmem, modify. destruct Hs as (-> & _). done.
Qed.

Lemma ustore_inv bs va s s1 :
  ustore va bs s = Ret tt s1 -> s1 = s <| k_mem := k_mem s1 |> /\
  forall s', sees s s' -> ustore va bs s' = Ret tt (s' <| k_mem := k_mem s1 |>).
Proof.
  revert va s s1. induction bs as [|b bs IH]; intros va s s1; cbn [ustore].
  - intros [= <-]. split; [by destruct s|]. intros s' (<- & _). by destruct s'.
  - unfold bind. destruct (ustore8 va b s) as [[] s2| |] eqn:E; cbn; [|done..].
    apply ustore8_inv in E as [E1 E2]. intros H. apply IH in H as [H1 H2]. split.
    + rewrite H1, E1. done.
    + intros s' Hs. rewrite (E2 s' Hs). cbn. rewrite H2; [done|]. rewrite E1. by apply sees_mem.
Qed.
