(* ===== verification/UserFacts.v ===== *)
(** * User memory as the processor and the kernel see it

    The bytes of user memory are those of the user pages of the address space:
    the translation of the processor finds them, and [copyout] writes them. *)

From S2P Require Import Prelude State Monad Mem Spinlock ConsoleOut Kalloc Vm VmFacts Uvm Kvm User.

(** The byte at the user address [va]. *)
Definition ubyte (m : mem) (up : upages) (va : Z) : option Z :=
  match up !! Z.to_nat (va / PGSIZE) with Some (p, _) => Some (ld8 m (p + va mod PGSIZE)) | None => None end.

Section user_facts.
Context {L : Linker} {LO : LinkerOk L}.

(** The entry that the processor uses: its flags are those that both levels
    have. *)
Lemma land_entry pa f g :
  aligned pa -> 0 <= f < PGSIZE -> 0 <= g < PGSIZE ->
  Z.land (pa + f) (Z.lor g (Z.lnot 0xFFF)) = pa + Z.land f g.
Proof.
  intros Ha Hf Hg. rewrite Z.land_lor_distr_r, land_page by done.
  change (Z.land (pa + f) (Z.lnot 0xFFF)) with (PTE_ADDR (pa + f)).
  destruct (page_part pa f Ha Hf) as [-> _]. rewrite Z.lor_comm, lor_page; [done|done|].
  replace g with (Z.land g (Z.ones 12)) by (rewrite Z.land_ones by lia; by apply Z.mod_small).
  rewrite Z.land_assoc, Z.land_ones by lia. by apply Z.mod_pos_bound.
Qed.

Lemma lookup_pte_space m sp va :
  space_ok m sp ->
  lookup_pte m (sp_dir sp) va =
    match sp_tabs sp !! PDX va with
    | None => None
    | Some _ => if Z.land (pte m sp va) PTE_P =? 0 then None
                else Some (Z.land (pte m sp va) (Z.lor (PTE_P + PTE_W + PTE_U) (Z.lnot 0xFFF)))
    end.
Proof.
  intros Hs. unfold lookup_pte, pte. rewrite (sp_entries _ _ Hs) by apply PDX_range.
  destruct (sp_tabs sp !! PDX va) as [t|] eqn:Et; [|done].
  pose proof (sp_tab_ok _ _ Hs _ _ Et) as Ht. destruct (pde_of_table t Ht) as [E1 E2].
  apply negb_true_iff in E1. rewrite E1, E2. cbn [pde_of].
  change (Z.land (V2P t + (PTE_P + PTE_W + PTE_U)) 0xFFF) with (PTE_FLAGS (V2P t + (PTE_P + PTE_W + PTE_U))).
  destruct (page_part (V2P t) (PTE_P + PTE_W + PTE_U) (V2P_aligned t Ht)) as [_ ->];
    [unfold PTE_P, PTE_W, PTE_U, PGSIZE; lia|]. done.
Qed.

(** A present entry [pa + f]: where the processor finds the byte at [va]. *)
Lemma translate_entry m sp va pa f w :
  space_ok m sp -> pte m sp va = pa + f -> aligned pa -> flags_ok f ->
  translate m (sp_dir sp) va w =
    if w && (Z.land f PTE_W =? 0) then None else Some (P2V pa + va mod PGSIZE).
Proof.
  intros Hs He Ha [Hf HP]. unfold translate. rewrite lookup_pte_space by done.
  assert (H7 : 0 <= PTE_P + PTE_W + PTE_U < PGSIZE) by (unfold PTE_P, PTE_W, PTE_U, PGSIZE; lia).
  destruct (sp_tabs sp !! PDX va) as [t|] eqn:Et.
  - rewrite He, land_page, HP by (done || unfold PTE_P, PGSIZE; lia). cbn [Z.eqb PTE_P].
    rewrite land_entry by done.
    assert (Hb : 0 <= Z.land f (PTE_P + PTE_W + PTE_U) < PGSIZE).
    { replace f with (Z.land f (Z.ones 12)) by (rewrite Z.land_ones by lia; by apply Z.mod_small).
      rewrite (Z.land_comm f), <- Z.land_assoc, Z.land_comm, Z.land_ones by lia. by apply Z.mod_pos_bound. }
    rewrite land_page, <- Z.land_assoc by (done || unfold PTE_W, PGSIZE; lia).
    change (Z.land (PTE_P + PTE_W + PTE_U) PTE_W) with PTE_W.
    by destruct (page_part pa _ Ha Hb) as [-> _].
  - unfold pte in He. rewrite Et in He. exfalso.
    assert (Hp : Z.land (pa + f) PTE_P = PTE_P) by (rewrite land_page by (done || unfold PTE_P, PGSIZE; lia); done).
    by rewrite <- He in Hp.
Qed.

(** User addresses: the page of the address, if it may be accessed. *)
Lemma translate_user m sp up va w :
  uvm m sp up -> 0 <= va < KERNBASE ->
  translate m (sp_dir sp) va w =
    match up !! Z.to_nat (va / PGSIZE) with
    | Some (p, f) => if w && (Z.land f PTE_W =? 0) then None else Some (p + va mod PGSIZE)
    | None => None
    end.
Proof.
  intros Hu Hva. pose proof (uvm_ptes _ _ _ Hu va Hva) as He. unfold entry in He.
  destruct (up !! Z.to_nat (va / PGSIZE)) as [[p f]|] eqn:Ei.
  - destruct (upage_entry up _ p f (uvm_upages _ _ _ Hu) Ei) as (Hp & Hf & _).
    rewrite (translate_entry m sp va (V2P p) f w (uvm_space _ _ _ Hu) He (V2P_aligned p Hp) Hf).
    by rewrite P2V_V2P.
  - unfold translate. rewrite lookup_pte_space, He by apply Hu. by destruct (sp_tabs sp !! PDX va).
Qed.

(** Kernel addresses below the top of memory are mapped to themselves; the
    text of the kernel is read-only. *)
Lemma translate_kernel m sp va w :
  space_ok m sp -> kvm m sp -> KERNBASE <= va < KERNBASE + PHYSTOP ->
  translate m (sp_dir sp) va w =
    if w && bool_decide (KERNLINK <= va < sym_data) then None else Some va.
Proof.
  intros Hs Hk Hva. pose proof sym_data_range. pose proof sym_end_range.
  assert (Hb : KERNBASE mod PGSIZE = 0) by done.
  assert (Hpa : aligned (va - va mod PGSIZE - KERNBASE)).
  { unfold aligned. unfold KERNBASE, PGSIZE in *. Z.div_mod_to_equations. lia. }
  assert (Hv : P2V (va - va mod PGSIZE - KERNBASE) + va mod PGSIZE = va).
  { unfold P2V. rewrite u32_small; unfold KERNBASE, PHYSTOP, PGSIZE in *; Z.div_mod_to_equations; lia. }
  pose proof (Hk va ltac:(unfold KERNBASE, PHYSTOP in *; lia)) as He. unfold kentry in He.
  destruct (decide (KERNBASE <= va < KERNLINK)) as [H1|H1]; [|destruct (decide (KERNLINK <= va < sym_data)) as [H2|H2]].
  - rewrite (translate_entry m sp va _ (PTE_P + PTE_W) w Hs He Hpa) by (split; [unfold PTE_P, PTE_W, PGSIZE; lia|done]).
    rewrite bool_decide_eq_false_2, Hv by lia. by destruct w.
  - rewrite (translate_entry m sp va _ PTE_P w Hs He Hpa) by (split; [unfold PTE_P, PGSIZE; lia|done]).
    rewrite bool_decide_eq_true_2, Hv by lia. by destruct w.
  - rewrite decide_True in He by lia.
    rewrite (translate_entry m sp va _ (PTE_P + PTE_W) w Hs He Hpa) by (split; [unfold PTE_P, PTE_W, PGSIZE; lia|done]).
    rewrite bool_decide_eq_false_2, Hv by lia. by destruct w.
Qed.
(** ** copyout *)

Lemma ld8_st_list bs m a b :
  ld8 (st_list m a bs) b =
    if decide (a <= b < a + Z.of_nat (length bs)) then u8 (nth (Z.to_nat (b - a)) bs 0) else ld8 m b.
Proof.
  revert m a. induction bs as [|c bs IH]; intros m a; cbn [st_list length].
  - by rewrite decide_False by lia.
  - rewrite IH, ld8_st8. destruct (decide (a <= b < a + Z.of_nat (S (length bs)))) as [H|H].
    + destruct (decide (a = b)) as [->|Hne].
      * rewrite decide_False by lia. by rewrite Z.sub_diag.
      * rewrite decide_True by lia. replace (Z.to_nat (b - a)) with (S (Z.to_nat (b - (a + 1)))) by lia. done.
    + rewrite decide_False by lia. by rewrite decide_False by lia.
Qed.

Lemma mem_ok_st_list bs m a : mem_ok m -> mem_ok (st_list m a bs).
Proof. revert m a. induction bs; intros m a' H; cbn; [done|]. by apply IHbs, mem_ok_st8. Qed.

Lemma framed_st_list p k bs m :
  0 <= k -> k + Z.of_nat (length bs) <= PGSIZE -> framed [p] m (st_list m (p + k) bs).
Proof.
  intros H1 H2 a Ha. rewrite ld8_st_list, decide_False; [done|].
  intros H. apply (Ha p); [apply list_elem_of_here|]. unfold in_page. lia.
Qed.

Lemma uva2ka_user s sp up i p f :
  uvm (k_mem s) sp up -> up !! i = Some (p, f) -> PGSIZE * Z.of_nat i < KERNBASE ->
  uva2ka (sp_dir sp) (PGSIZE * Z.of_nat i) s = Ret (if Z.land f PTE_U =? 0 then 0 else p) s.
Proof.
  intros Hu Hi Hk. destruct (upage_pte (k_mem s) sp up i p f Hu Hi Hk) as (t & Ht & Htok & Hpte).
  destruct (upage_entry up _ p f (uvm_upages _ _ _ Hu) Hi) as (Hp & [Hfl HP] & E1 & E2 & E3).
  unfold uva2ka. rewrite (bind_ret _ _ _ _ _ (walkpgdir_found s sp _ t false (uvm_space _ _ _ Hu) Ht)).
  pose proof (page_ok_range _ Htok). pose proof (PTX_range (PGSIZE * Z.of_nat i)).
  rewrite (proj2 (Z.eqb_neq (t + _) 0)) by (unfold KERNBASE in *; lia).
  unfold load32. kget. rewrite Hpte, E3, E1. cbn [Z.eqb PTE_P].
  rewrite land_page by (done || apply V2P_aligned, Hp || unfold PTE_U, PGSIZE; lia).
  rewrite P2V_V2P by done. by destruct (Z.land f PTE_U =? 0).
Qed.

(** User pages may be written: the rest of the state is not affected. *)
Lemma vm_state_write s sp up l m' :
  vm_state s sp up l -> mem_ok m' -> framed up.*1 (k_mem s) m' -> vm_state (s <| k_mem := m' |>) sp up l.
Proof.
  intros Hv Hm Hf. pose proof (vm_state_pages _ _ _ _ Hv) as Hok. rewrite !Forall_app in Hok.
  pose proof Hv as [Hr _ _ Hn]. eapply (vm_state_framed s); [done| |done|done|exact Hf|apply Hok|].
  - by eapply kready_mem_only; [|exact Hr].
  - intros q Hq [Hx|Hx]%elem_of_app; apply NoDup_app in Hn as (_ & Hn2 & Hn3).
    + apply (Hn2 q Hx), elem_of_app. by left.
    + apply NoDup_app in Hn3 as (_ & Hn3 & _). by apply (Hn3 q).
Qed.
Lemma ubyte_write s sp up l i p f k bs x :
  vm_state s sp up l -> up !! i = Some (p, f) -> 0 <= k -> k + Z.of_nat (length bs) <= PGSIZE -> 0 <= x ->
  let va := PGSIZE * Z.of_nat i + k in
  ubyte (st_list (k_mem s) (p + k) bs) up x =
    if decide (va <= x < va + Z.of_nat (length bs)) then Some (u8 (nth (Z.to_nat (x - va)) bs 0))
    else ubyte (k_mem s) up x.
Proof.
  intros Hv Hi Hk Hl Hx va. unfold ubyte. destruct (decide (Z.to_nat (x / PGSIZE) = i)) as [Ei|Ei].
  - rewrite Ei, Hi, ld8_st_list.
    assert (Hm : x = PGSIZE * Z.of_nat i + x mod PGSIZE) by (subst i; unfold PGSIZE; Z.div_mod_to_equations; lia).
    replace (p + x mod PGSIZE - (p + k)) with (x - va) by (unfold va; lia).
    repeat case_decide; [done|unfold va in *; lia|unfold va in *; lia|done].
  - rewrite decide_False.
    2:{ intros H. apply Ei. unfold va, PGSIZE in *. Z.div_mod_to_equations. lia. }
    destruct (up !! Z.to_nat (x / PGSIZE)) as [[q g]|] eqn:Ej; [|done]. f_equal.
    rewrite ld8_st_list, decide_False; [done|].
    assert (Hpq : p <> q).
    { intros <-. apply Ei. pose proof (vs_nodup _ _ _ _ Hv) as Hn. apply NoDup_app in Hn as (_ & _ & Hn).
      apply NoDup_app in Hn as (Hn & _ & _). eapply NoDup_lookup; [exact Hn| |];
      rewrite list_lookup_fmap; [by rewrite Ej|by rewrite Hi]. }
    pose proof (uvm_upages _ _ _ (vs_uvm _ _ _ _ Hv)) as Hok. rewrite Forall_lookup in Hok.
    destruct (Hok _ _ Hi) as [Hp _], (Hok _ _ Ej) as [Hq _]. cbn in Hp, Hq.
    intros H. apply Hpq, (page_same p q (q + x mod PGSIZE) Hp Hq); unfold in_page;
      pose proof (Z.mod_pos_bound x PGSIZE); unfold PGSIZE in *; lia.
Qed.

(** Pages with the same contents hold the same bytes. *)
Lemma ubyte_same m m' up :
  (forall p, p ∈ up.*1 -> same_page m m' p) -> forall x, 0 <= x -> ubyte m' up x = ubyte m up x.
Proof.
  intros Hs x Hx. unfold ubyte. destruct (up !! _) as [[p f]|] eqn:E; [|done]. f_equal. apply (Hs p).
  - apply list_elem_of_fmap. exists (p, f). split; [done|]. by eapply list_elem_of_lookup_2.
  - unfold in_page. pose proof (Z.mod_pos_bound x PGSIZE). unfold PGSIZE in *. lia.
Qed.

Lemma copied_ubyte m up upc x : copied m up upc -> ubyte m upc x = ubyte m up x.
Proof.
  intros Hc. unfold ubyte. unfold copied in Hc. rewrite Forall2_same_length_lookup in Hc. destruct Hc as [Hlen Hc].
  destruct (up !! Z.to_nat (x / PGSIZE)) as [[p f]|] eqn:E.
  - destruct (lookup_lt_is_Some_2 upc (Z.to_nat (x / PGSIZE))) as [[q g] Hq]; [rewrite <- Hlen; by eapply lookup_lt_Some|].
    rewrite Hq. destruct (Hc _ _ _ E Hq) as [_ Hpc]. f_equal. apply Hpc.
    pose proof (Z.mod_pos_bound x PGSIZE). unfold PGSIZE in *. lia.
  - apply lookup_ge_None in E. by rewrite lookup_ge_None_2 by lia.
Qed.

Lemma copied_flags m up upc : copied m up upc -> upc.*2 = up.*2.
Proof. intros Hc. induction Hc as [|[p f] [q g] up upc [E _] _ IH]; [done|]. cbn in *. by rewrite E, IH. Qed.

(** The pages of [len] bytes at [va] are there, and open to the user. *)
Definition user_range (up : upages) (va len : Z) : Prop :=
  forall x, va <= x < va + len -> exists p f, up !! Z.to_nat (x / PGSIZE) = Some (p, f) /\ Z.land f PTE_U <> 0.

Lemma copyout_loop_spec n s sp up l va buf :
  vm_state s sp up l -> 0 <= va -> va + Z.of_nat (length buf) <= KERNBASE ->
  user_range up va (Z.of_nat (length buf)) -> (length buf <= n)%nat ->
  exists m', copyout_loop n (sp_dir sp) va buf s = Ret 0 (s <| k_mem := m' |>) /\
    mem_ok m' /\ framed up.*1 (k_mem s) m' /\
    forall x, 0 <= x -> ubyte m' up x =
      if decide (va <= x < va + Z.of_nat (length buf)) then Some (u8 (nth (Z.to_nat (x - va)) buf 0))
      else ubyte (k_mem s) up x.
Proof.
  revert s va buf. induction n as [|n IH]; intros s va buf Hv Hva Hk Hr Hn.
  all: destruct buf as [|c buf']; [exists (k_mem s); split_and!;
    [by destruct s|apply (kmem_bytes _ _ (vs_kmem _ _ _ _ Hv))|apply framed_refl|intros x _; by rewrite decide_False by (cbn; lia)]|].
  { cbn in Hn. lia. }
  cbn [copyout_loop]. set (buf := c :: buf') in *. rewrite PGROUNDDOWN_eq.
  set (i := Z.to_nat (va / PGSIZE)). set (k := va mod PGSIZE).
  assert (Hb0 : 0 < Z.of_nat (length buf)) by (cbn; lia).
  assert (Hk0 : 0 <= k < PGSIZE) by (apply Z.mod_pos_bound; unfold PGSIZE; lia).
  assert (Hvi : va = PGSIZE * Z.of_nat i + k) by (unfold i, k, PGSIZE; Z.div_mod_to_equations; lia).
  destruct (Hr va) as (p & f & Hi & Hf); [lia|]. fold i in Hi.
  replace (va - k) with (PGSIZE * Z.of_nat i) by lia.
  rewrite (bind_ret _ _ _ _ _ (uva2ka_user s sp up i p f (vs_uvm _ _ _ _ Hv) Hi ltac:(lia))).
  rewrite (proj2 (Z.eqb_neq (Z.land f PTE_U) 0)) by done.
  destruct (upage_entry up _ p f (uvm_upages _ _ _ (vs_uvm _ _ _ _ Hv)) Hi) as (Hp & _).
  rewrite (proj2 (Z.eqb_neq p 0)) by (apply page_ok_range in Hp; unfold KERNBASE in *; lia).
  replace (va - PGSIZE * Z.of_nat i) with k by lia.
  set (n1 := if Z.of_nat (length buf) <? PGSIZE - k then Z.of_nat (length buf) else PGSIZE - k).
  assert (Hn1 : 0 < n1 /\ n1 <= Z.of_nat (length buf) /\ k + n1 <= PGSIZE /\ (n1 = Z.of_nat (length buf) \/ k + n1 = PGSIZE)).
  { unfold n1. destruct (Z.ltb_spec (Z.of_nat (length buf)) (PGSIZE - k)); lia. }
  clearbody n1. destruct Hn1 as (N1 & N2 & N3 & N4).
  unfold setmem. kget. set (chunk := take (Z.to_nat n1) buf).
  assert (Hcl : Z.of_nat (length chunk) = n1) by (unfold chunk; rewrite length_take; lia).
  set (s1 := s <| k_mem := st_list (k_mem s) (p + k) chunk |>).
  assert (Hpin : p ∈ up.*1) by (apply list_elem_of_fmap; exists (p, f); split; [done|by eapply list_elem_of_lookup_2]).
  assert (Hf1 : framed up.*1 (k_mem s) (k_mem s1)).
  { eapply framed_sub; [apply (framed_st_list p k chunk); lia|]. by intros q ->%list_elem_of_singleton. }
  assert (Hv1 : vm_state s1 sp up l).
  { apply vm_state_write; [done|apply mem_ok_st_list, (kmem_bytes _ _ (vs_kmem _ _ _ _ Hv))|done]. }
  replace (PGSIZE * Z.of_nat i +u PGSIZE) with (PGSIZE * Z.of_nat i + PGSIZE)
    by (rewrite u32_small; unfold KERNBASE, PGSIZE in *; lia).
  assert (Hdl : Z.of_nat (length (drop (Z.to_nat n1) buf)) = Z.of_nat (length buf) - n1) by (rewrite length_drop; lia).
  destruct (IH s1 (PGSIZE * Z.of_nat i + PGSIZE) (drop (Z.to_nat n1) buf) Hv1) as (m' & H1 & H2 & H3 & H4).
  - unfold PGSIZE. lia.
  - rewrite Hdl. unfold KERNBASE, PGSIZE in *. lia.
  - rewrite Hdl. intros x Hx. apply Hr. lia.
  - rewrite length_drop. cbn in *. lia.
  - exists m'. split_and!; [exact H1|done|by eapply framed_trans|]. intros x Hx. rewrite H4, Hdl by done.
    pose proof (ubyte_write s sp up l i p f k chunk x Hv Hi) as Hw. rewrite Hcl, <- Hvi in Hw.
    case_decide as D1; [rewrite decide_True by lia|].
    + f_equal. f_equal.
      rewrite <- (take_drop (Z.to_nat n1) buf) at 2. rewrite app_nth2 by (rewrite length_take; lia).
      f_equal. rewrite length_take. lia.
    + change (k_mem s1) with (st_list (k_mem s) (p + k) chunk). rewrite Hw by lia.
      case_decide as D2; [rewrite decide_True by lia|by rewrite decide_False by lia].
      f_equal. f_equal. rewrite <- (take_drop (Z.to_nat n1) buf) at 1. fold chunk.
      rewrite app_nth1 by lia. done.
Qed.
End user_facts.
