(* ===== verification/Sched.v ===== *)
(** * proc.c: sleeping, waking and scheduling

    [sched], [yield], [sleep], [wakeup], [kill] and the four policies of
    [scheduler].  [swtch] is the outcome [Swtch] of the kernel monad: from
    [sched] it passes control to the scheduler of the processor, from
    [scheduler] to the process that was chosen; the saved registers are the
    continuation.  The variable [strategy] is part of the kernel state. *)

From S2P Require Import Prelude State Monad Mem Spinlock ConsoleOut Kalloc Vm.

Definition is_state (st : procstate) (p : proc) : bool := bool_decide (p_state p = st).

(** ** sched *)

(** The exchange sort of [sched] on the arrays [number] and [pid], taken
    together: [number] is the key. *)
Definition cmpswap (i j : nat) (l : list (Z * Z)) : list (Z * Z) :=
  match l !! i, l !! j with
  | Some a, Some b => if fst b <? fst a then <[j := a]> (<[i := b]> l) else l
  | _, _ => l
  end.
Definition sort_inner (l : list (Z * Z)) (i : nat) : list (Z * Z) :=
  foldl (fun l j => cmpswap i j l) l (seq (i + 1) (length l - (i + 1))).
Definition sort_queue (l : list (Z * Z)) : list (Z * Z) :=
  foldl sort_inner l (seq 0 (length l)).

(** The runnable processes with their priorities, in table order. *)
Definition run_queue (ps : list proc) : list (Z * Z) :=
  (fun p => (p_priority p, p_pid p)) <$> filter (fun p => p_state p = RUNNABLE) ps.

Definition print_queue : K unit :=
  let! ps := gets k_procs in
  let q := sort_queue (run_queue ps) in
  do! for_each (imap (fun i e => (Z.of_nat i, snd e)) q)
    (fun '(i, pid) => cprintf_lit "<%d:%d>, " [AInt i; AInt pid]);
  cprintf (Some [NL]) [].

Definition sched : K unit :=
  let! h := holding L_ptable in
  if negb h then panic "sched ptable.lock"
  else
    let! c := mycpu in
    if negb (c_ncli c =? 1) then panic "sched locks"
    else
      let! cur := curproc in
      let! p := getproc cur in
      if is_state RUNNING p then panic "sched running"
      else
        let! eflags_if := readeflags_if in
        if eflags_if then panic "sched interruptible"
        else
          let! c := mycpu in
          let intena := c_intena c in
          let! strategy := gets k_strategy in
          do! when (strategy =? 2) print_queue;
          do! swtch;
          upd_cpu (fun c => c <| c_intena := intena |>).

Definition yield : K unit :=
  do! acquire L_ptable;
  let! ticks := gets k_ticks in
  let! cur := curproc in
  do! updproc cur (fun p => p <| p_priority := ticks |>);
  do! updproc cur (fun p => p <| p_state := RUNNABLE |>);
  do! sched;
  release L_ptable.

(** ** sleep and wakeup *)

Definition sleep (ch : chan) (lk : option lockid) : K unit :=
  let! pr := myproc in
  match pr, lk with
  | None, _ => panic "sleep"
  | _, None => panic "sleep without lk"
  | Some _, Some lk =>
      do! when (negb (bool_decide (lk = L_ptable))) (do! acquire L_ptable; release lk);
      let! cur := curproc in
      do! updproc cur (fun p => p <| p_chan := ch |>);
      do! updproc cur (fun p => p <| p_state := SLEEPING |>);
      do! sched;
      let! cur := curproc in
      do! updproc cur (fun p => p <| p_chan := CNull |>);
      when (negb (bool_decide (lk = L_ptable))) (do! release L_ptable; acquire lk)
  end.

Definition wake (ticks : Z) (ch : chan) (p : proc) : proc :=
  if is_state SLEEPING p && bool_decide (p_chan p = ch)
  then p <| p_state := RUNNABLE |> <| p_priority := ticks |> else p.

Definition wakeup1 (ch : chan) : K unit :=
  modify (fun s => s <| k_procs := wake (k_ticks s) ch <$> k_procs s |>).

Definition wakeup (ch : chan) : K unit :=
  do! acquire L_ptable;
  do! wakeup1 ch;
  release L_ptable.

(** [kill]: the first slot with this pid, whatever its state. *)
Definition kill_proc (ticks : Z) (p : proc) : proc :=
  let p := p <| p_killed := 1 |> in
  if is_state SLEEPING p then p <| p_state := RUNNABLE |> <| p_priority := ticks |> else p.

Definition kill (pid : Z) : K Z :=
  do! acquire L_ptable;
  let! ps := gets k_procs in
  match list_find (fun p => p_pid p = pid) ps with
  | Some (i, _) =>
      let! ticks := gets k_ticks in
      do! updproc i (kill_proc ticks);
      do! release L_ptable;
      ret 0
  | None => do! release L_ptable; ret (-1)
  end.

(** ** scheduler *)

(** Which processes a scan looks at. *)
Definition runnable (p : proc) : bool := is_state RUNNABLE p.
Definition runnable_at (level : Z) (p : proc) : bool :=
  is_state RUNNABLE p && (p_queuelevel p =? level).

(** The scan for the least priority below [min]: the bound reached and the
    process that [proc] was last set to. *)
Fixpoint scan_priority (sel : proc -> bool) (i : nat) (ps : list proc) (min : Z)
    (best : option nat) : Z * option nat :=
  match ps with
  | [] => (min, best)
  | p :: ps' =>
      if sel p && (p_priority p <? min)
      then scan_priority sel (S i) ps' (p_priority p) (Some i)
      else scan_priority sel (S i) ps' min best
  end.

(** [p->GRT]: the share of its lifetime that [p] has run, in integers. *)
Definition grt (ticks : Z) (p : proc) : Z :=
  if negb (ticks -u p_ctime p =? 0) then p_rtime p / (ticks -u p_ctime p) else 0.

(** The scan for the least [GRT] below [min] stores every [GRT] it computes. *)
Fixpoint scan_grt (ticks : Z) (sel : proc -> bool) (i : nat) (ps : list proc) (min : Z)
    (best : option nat) : list proc * Z * option nat :=
  match ps with
  | [] => ([], min, best)
  | p :: ps' =>
      if sel p then
        let p := p <| p_GRT := grt ticks p |> in
        let '(ps', min', best') :=
          if p_GRT p <? min then scan_grt ticks sel (S i) ps' (p_GRT p) (Some i)
          else scan_grt ticks sel (S i) ps' min best in
        (p :: ps', min', best')
      else
        let '(ps', min', best') := scan_grt ticks sel (S i) ps' min best in
        (p :: ps', min', best')
  end.

Section scheduler.
Context {L : Linker}.

(** Run the process that [proc] points to; back in the scheduler it has
    changed its state. *)
Definition run_current (set_priority : bool) : K unit :=
  let! cur := curproc in
  do! updproc cur (fun p => p <| p_myquantum := 0 |>);
  do! switchuvm cur;
  let! ticks := gets k_ticks in
  do! when set_priority (updproc cur (fun p => p <| p_priority := ticks |>));
  do! updproc cur (fun p => p <| p_state := RUNNING |>);
  do! swtch;
  do! switchkvm;
  set_myproc None.

(** One pass over the table, running every process that [sel] admits when
    its turn comes. *)
Definition round_robin (sel : proc -> bool) : K unit :=
  for_each (seq 0 NPROC) (fun i =>
    let! p := getproc i in
    when (sel p) (do! set_myproc (Some i); run_current false)).

(** The scan by priority from [min]; [other] runs if it finds nothing. *)
Definition by_priority (sel : proc -> bool) (min : Z) (other : K unit) : K unit :=
  let! ps := gets k_procs in
  let '(tmp, best) := scan_priority sel 0 ps min None in
  do! when (bool_decide (is_Some best)) (set_myproc best);
  if negb (tmp =? min) then run_current true else other.

Definition by_grt (sel : proc -> bool) (other : K unit) : K unit :=
  let! ticks := gets k_ticks in
  let! ps := gets k_procs in
  let '(ps', min, best) := scan_grt ticks sel 0 ps ticks None in
  do! modify (fun s => s <| k_procs := ps' |>);
  do! when (bool_decide (is_Some best)) (set_myproc best);
  if negb (min =? ticks) then run_current true else other.

(** The four policies. *)
Definition policy (strategy ticks : Z) : K unit :=
  if strategy =? 1 then round_robin runnable
  else if strategy =? 2 then by_priority runnable ticks (ret tt)
  else if strategy =? 3 then by_grt runnable (ret tt)
  else if strategy =? 4 then
    by_grt (runnable_at 3)
      (by_priority (runnable_at 2) ticks
        (round_robin (runnable_at 1)))
  else ret tt.

(** The body of the [for(;;)] loop of [scheduler]. *)
Definition scheduler_round : K unit :=
  do! sti;
  do! acquire L_ptable;
  let! strategy := gets k_strategy in
  let! ticks := gets k_ticks in
  do! policy strategy ticks;
  release L_ptable.

Definition scheduler {F : Fuel} : K unit :=
  forever fuel (do! scheduler_round; ret None).
End scheduler.

(** ** The choice of a policy *)

(** [r] is what a policy with key [key] and bound [bound] chooses: of the
    processes that [sel] admits with a key below the bound, the one with the
    least key, the first of them in the table. *)
Definition picks (sel : proc -> bool) (key : proc -> Z) (bound : Z) (ps : list proc)
    (r : option nat) : Prop :=
  match r with
  | None => forall j p, ps !! j = Some p -> sel p = true -> bound <= key p
  | Some i =>
      exists p, ps !! i = Some p /\ sel p = true /\ key p < bound /\
        forall j q, ps !! j = Some q -> sel q = true ->
          key p <= key q /\ ((j < i)%nat -> key p < key q)
  end.

Lemma picks_functional sel key bound ps r r' :
  picks sel key bound ps r -> picks sel key bound ps r' -> r = r'.
Proof.
  destruct r as [i|], r' as [j|]; simpl; [|..|done].
  - intros (p & Hp & Hps & Hpb & Hpm) (q & Hq & Hqs & Hqb & Hqm). f_equal.
    destruct (Hpm j q Hq Hqs) as [? H1], (Hqm i p Hp Hps) as [? H2].
    destruct (Nat.lt_trichotomy i j) as [Hij|[?|Hij]]; [specialize (H2 Hij); lia|done|specialize (H1 Hij); lia].
  - intros (p & Hp & Hps & Hpb & _) H. specialize (H i p Hp Hps). lia.
  - intros H (p & Hp & Hps & Hpb & _). specialize (H j p Hp Hps). lia.
Qed.

(** A scan for the least key, the core of both loops. *)
Fixpoint scan (sel : proc -> bool) (key : proc -> Z) (i : nat) (ps : list proc) (min : Z)
    (best : option nat) : Z * option nat :=
  match ps with
  | [] => (min, best)
  | p :: ps' =>
      if sel p && (key p <? min) then scan sel key (S i) ps' (key p) (Some i)
      else scan sel key (S i) ps' min best
  end.

Lemma scan_priority_scan sel i ps min best :
  scan_priority sel i ps min best = scan sel p_priority i ps min best.
Proof. revert i min best. induction ps; intros; simpl; [done|]. case_match; auto. Qed.

Definition store_grt (ticks : Z) (sel : proc -> bool) (p : proc) : proc :=
  if sel p then p <| p_GRT := grt ticks p |> else p.

Lemma scan_grt_scan ticks sel i ps min best :
  scan_grt ticks sel i ps min best =
    (store_grt ticks sel <$> ps, fst (scan sel (grt ticks) i ps min best),
     snd (scan sel (grt ticks) i ps min best)).
Proof.
  revert i min best. induction ps as [|p ps IH]; intros i min best; simpl; [done|].
  unfold store_grt at 1. destruct (sel p); simpl.
  - destruct (grt ticks p <? min); rewrite IH; done.
  - rewrite IH. done.
Qed.

(** What a scan has found after a suffix of the table. *)
Lemma scan_spec sel key i ps min best :
  let '(m, b) := scan sel key i ps min best in
  (m = min /\ b = best /\ forall j p, ps !! j = Some p -> sel p = true -> min <= key p) \/
  (exists j p, b = Some (i + j)%nat /\ ps !! j = Some p /\ sel p = true /\ key p = m /\ m < min /\
     forall j' q, ps !! j' = Some q -> sel q = true -> m <= key q /\ ((j' < j)%nat -> m < key q)).
Proof.
  revert i min best. induction ps as [|p ps IH]; intros i min best; simpl; [by left|].
  destruct (sel p && (key p <? min)) eqn:E.
  - apply andb_true_iff in E as [Es Ek%Z.ltb_lt].
    specialize (IH (S i) (key p) (Some i)). destruct (scan _ _ _ _ _ _) as [m b]. right.
    destruct IH as [(-> & -> & H)|(j & q & -> & Hq & Hs & Hk & Hlt & H)].
    + exists 0%nat, p. split_and!; [by rewrite Nat.add_0_r|done|done|done|done|].
      intros [|j'] q Hq Hqs; simpl in Hq; [injection Hq as ->; lia|].
      specialize (H j' q Hq Hqs). split; lia.
    + exists (S j), q. split_and!; [f_equal; lia|done|done|done|lia|].
      intros [|j'] r Hr Hrs; simpl in Hr; [injection Hr as ->; split; lia|].
      destruct (H j' r Hr Hrs). split; [lia|]. intros. apply H1. lia.
  - specialize (IH (S i) min best). destruct (scan _ _ _ _ _ _) as [m b].
    assert (Hp : sel p = true -> min <= key p).
    { intros Hs. rewrite Hs in E. simpl in E. apply Z.ltb_ge in E. lia. }
    destruct IH as [(-> & -> & H)|(j & q & -> & Hq & Hs & Hk & Hlt & H)].
    + left. split_and!; [done|done|]. intros [|j] q Hq Hqs; simpl in Hq; [injection Hq as ->; auto|eauto].
    + right. exists (S j), q. split_and!; [f_equal; lia|done|done|done|done|].
      intros [|j'] r Hr Hrs; simpl in Hr; [injection Hr as ->; specialize (Hp Hrs); split; lia|].
      destruct (H j' r Hr Hrs). split; [lia|]. intros. apply H1. lia.
Qed.

Lemma scan_picks sel key ps min :
  let '(m, b) := scan sel key 0 ps min None in
  picks sel key min ps b /\ negb (m =? min) = bool_decide (is_Some b).
Proof.
  pose proof (scan_spec sel key 0 ps min None) as H. destruct (scan _ _ _ _ _ _) as [m b].
  destruct H as [(-> & -> & H)|(j & p & -> & Hp & Hs & Hk & Hlt & H)].
  - split; [done|]. rewrite Z.eqb_refl. by rewrite bool_decide_eq_false_2 by (intros []; done).
  - rewrite (proj2 (Z.eqb_neq m min)) by lia. split; [|by rewrite bool_decide_eq_true_2 by eauto].
    exists p. split_and!; [done|done|lia|]. intros j' q Hq Hqs. destruct (H j' q Hq Hqs).
    split; [lia|]. intros. rewrite Hk. auto.
Qed.

(** ** Dispatching a process *)

(** The processor set up for process [p] by [switchuvm], on processor [n]. *)
Definition cpu_load {L : Linker} (n : nat) (p : proc) (c : cpu) : cpu :=
  MkCpu (c_apicid c) (c_started c) (c_ncli c) (c_intena c) (c_if c) (c_proc c)
    (<[SEG_TSS := (SEG16 STS_T32A (sym_ts n) (sizeof_ts - 1) 0) <| sd_s := 0 |>]> (c_gdt c))
    (p_kstack p +u KSTACKSIZE) (Z.shiftl SEG_KDATA 3) 0xFFFF (Z.shiftl SEG_TSS 3)
    (V2P (p_pgdir p)).

(** What [scheduler] writes into the process it runs. *)
Definition dispatch_proc (set_priority : bool) (ticks : Z) (p : proc) : proc :=
  let p := p <| p_myquantum := 0 |> in
  let p := if set_priority then p <| p_priority := ticks |> else p in
  p <| p_state := RUNNING |>.

(** The state in which the processor jumps to process [i]. *)
Definition dispatch {L : Linker} (set_priority : bool) (i : nat) (p : proc) (s : kernel) : kernel :=
  on_proc i (dispatch_proc set_priority (k_ticks s))
    (on_cpu (cpu_load (k_cpunum s) p) (on_cpu (fun c => c <| c_proc := Some i |>) s)).

(** The rest of a scheduler round once the process is back. *)
Definition back_in_scheduler {L : Linker} : K unit := do! switchkvm; set_myproc None.

Lemma on_cpu_on_proc f i g s : on_cpu f (on_proc i g s) = on_proc i g (on_cpu f s).
Proof. done. Qed.

Section dispatch.
Context {L : Linker}.

Lemma switchuvm_ret s c i p :
  k_cpus s !! k_cpunum s = Some c -> c_proc c = Some i -> c_if c = false -> 1 <= c_ncli c ->
  k_procs s !! i = Some p -> p_pgdir p <> 0 ->
  switchuvm i s = Ret tt (on_cpu (cpu_load (k_cpunum s) p) s).
Proof.
  intros Hc Hi Hif Hn Hp Hpg. unfold switchuvm, lcr3, upd_cpu.
  rewrite (bind_ret _ _ _ _ _ (pushcli_ret s (ex_intro _ _ Hc))). kget. do 2 kget.
  erewrite bind_ret by (eapply curproc_ret; [do 3 eapply on_cpu_lookup; exact Hc|exact Hi]).
  erewrite bind_ret by (apply getproc_ret; exact Hp). do 3 kget.
  erewrite bind_ret by (apply getproc_ret; exact Hp).
  rewrite (proj2 (Z.eqb_neq _ _) Hpg). kget.
  rewrite !on_cpu_on_cpu. erewrite popcli_ret; [|by apply on_cpu_lookup, Hc|done|cbn; lia].
  rewrite on_cpu_on_cpu. f_equal. eapply on_cpu_ext; [done|].
  unfold cpu_load, cpu_pop, cpu_push. unfold_set. cbn.
  rewrite (proj2 (Z.eqb_neq (c_ncli c) 0)) by lia.
  replace (c_ncli c + 1 - 1) with (c_ncli c) by lia.
  rewrite (proj2 (Z.eqb_neq (c_ncli c) 0)) by lia. cbn. by rewrite Hif.
Qed.

Lemma run_current_swtch b s c i p :
  k_cpus s !! k_cpunum s = Some c -> c_if c = false -> 1 <= c_ncli c ->
  k_procs s !! i = Some p -> p_pgdir p <> 0 ->
  run_current b (on_cpu (fun c => c <| c_proc := Some i |>) s) =
    Swtch (dispatch b i p s) back_in_scheduler.
Proof.
  intros Hc Hif Hn Hp Hpg. unfold run_current, dispatch.
  set (s0 := on_cpu (fun c => c <| c_proc := Some i |>) s).
  assert (Hc0 : k_cpus s0 !! k_cpunum s0 = Some (c <| c_proc := Some i |>))
    by (by apply on_cpu_lookup).
  rewrite (bind_ret _ _ _ _ _ (curproc_ret _ _ i Hc0 eq_refl)).
  erewrite bind_ret by (eapply updproc_ret; exact Hp).
  erewrite bind_ret.
  2: { eapply (switchuvm_ret _ (c <| c_proc := Some i |>) _ (p <| p_myquantum := 0 |>));
       [done|done|done|done| |done]. by apply on_proc_lookup. }
  kget. rewrite on_cpu_on_proc. unfold when.
  change (on_cpu (cpu_load (k_cpunum (on_proc i (fun p => p <| p_myquantum := 0 |>) s0))
    (p <| p_myquantum := 0 |>)) s0) with (on_cpu (cpu_load (k_cpunum s) p) s0).
  set (s1 := on_cpu (cpu_load (k_cpunum s) p) s0).
  destruct b.
  - erewrite bind_ret by (eapply updproc_ret; apply on_proc_lookup; exact Hp).
    erewrite bind_ret by (eapply updproc_ret; do 2 apply on_proc_lookup; exact Hp).
    rewrite !on_proc_on_proc. done.
  - kget.
    erewrite bind_ret by (eapply updproc_ret; apply on_proc_lookup; exact Hp).
    rewrite !on_proc_on_proc. done.
Qed.

(** In a critical section of the scheduler: the processor is known and the
    runnable processes have an address space. *)
Definition scheduling (s : kernel) (c : cpu) : Prop :=
  k_cpus s !! k_cpunum s = Some c /\ c_if c = false /\ 1 <= c_ncli c /\
  forall i p, k_procs s !! i = Some p -> p_state p = RUNNABLE -> p_pgdir p <> 0.

Lemma by_priority_some sel min other s c i p :
  scheduling s c -> (forall p, sel p = true -> p_state p = RUNNABLE) ->
  picks sel p_priority min (k_procs s) (Some i) -> k_procs s !! i = Some p ->
  by_priority sel min other s = Swtch (dispatch true i p s) back_in_scheduler.
Proof.
  intros (Hc & Hif & Hn & Hpg) Hsel Hpick Hp. unfold by_priority. kget.
  rewrite scan_priority_scan.
  pose proof (scan_picks sel p_priority (k_procs s) min) as H.
  destruct (scan _ _ _ _ _ _) as [m b]. destruct H as [Hb Hm].
  rewrite (picks_functional _ _ _ _ _ _ Hb Hpick) in *. rewrite Hm.
  rewrite bool_decide_eq_true_2 by eauto. unfold when, set_myproc, upd_cpu. kget.
  eapply run_current_swtch; eauto.
  destruct Hpick as (q & Hq & Hs & _). eauto with congruence.
Qed.

Lemma by_priority_none sel min other s :
  picks sel p_priority min (k_procs s) None -> by_priority sel min other s = other s.
Proof.
  intros Hpick. unfold by_priority. kget. rewrite scan_priority_scan.
  pose proof (scan_picks sel p_priority (k_procs s) min) as H.
  destruct (scan _ _ _ _ _ _) as [m b]. destruct H as [Hb Hm].
  rewrite (picks_functional _ _ _ _ _ _ Hb Hpick) in *. rewrite Hm.
  rewrite bool_decide_eq_false_2 by (intros []; done). done.
Qed.

(** The table with the shares that a scan has stored. *)
Definition grt_table (sel : proc -> bool) (s : kernel) : kernel :=
  s <| k_procs := store_grt (k_ticks s) sel <$> k_procs s |>.

Lemma by_grt_some sel other s c i p :
  scheduling s c -> (forall p, sel p = true -> p_state p = RUNNABLE) ->
  picks sel (grt (k_ticks s)) (k_ticks s) (k_procs s) (Some i) -> k_procs s !! i = Some p ->
  by_grt sel other s = Swtch (dispatch true i p (grt_table sel s)) back_in_scheduler.
Proof.
  intros (Hc & Hif & Hn & Hpg) Hsel Hpick Hp. unfold by_grt. do 2 kget.
  rewrite scan_grt_scan.
  pose proof (scan_picks sel (grt (k_ticks s)) (k_procs s) (k_ticks s)) as H.
  destruct (scan _ _ _ _ _ _) as [m b]. destruct H as [Hb Hm]. cbn [fst snd].
  rewrite (picks_functional _ _ _ _ _ _ Hb Hpick) in *. rewrite Hm.
  rewrite bool_decide_eq_true_2 by eauto. kget. unfold when, set_myproc, upd_cpu. kget.
  assert (Hs : sel p = true) by (destruct Hpick as (q & Hq & Hs & _); congruence).
  change (s <| k_procs := store_grt (k_ticks s) sel <$> k_procs s |>) with (grt_table sel s).
  rewrite (run_current_swtch true (grt_table sel s) c i (store_grt (k_ticks s) sel p));
    [|done|done|done| |].
  - unfold store_grt. by rewrite Hs.
  - cbn. by rewrite list_lookup_fmap, Hp.
  - unfold store_grt. rewrite Hs. cbn. eauto.
Qed.

Lemma by_grt_none sel other s :
  picks sel (grt (k_ticks s)) (k_ticks s) (k_procs s) None ->
  by_grt sel other s = other (grt_table sel s).
Proof.
  intros Hpick. unfold by_grt. do 2 kget. rewrite scan_grt_scan.
  pose proof (scan_picks sel (grt (k_ticks s)) (k_procs s) (k_ticks s)) as H.
  destruct (scan _ _ _ _ _ _) as [m b]. destruct H as [Hb Hm]. cbn [fst snd].
  rewrite (picks_functional _ _ _ _ _ _ Hb Hpick) in *. rewrite Hm.
  rewrite bool_decide_eq_false_2 by (intros []; done). done.
Qed.

(** A pass of round robin runs nothing while no process is admitted, and
    stops at the first one that is. *)
Lemma round_robin_none sel s :
  length (k_procs s) = NPROC ->
  (forall i p, k_procs s !! i = Some p -> sel p = false) -> round_robin sel s = Ret tt s.
Proof.
  intros Hlen Hsel. unfold round_robin.
  assert (H : forall l, (forall i, i ∈ l -> (i < NPROC)%nat) ->
    for_each l (fun i => let! p := getproc i in
      when (sel p) (do! set_myproc (Some i); run_current false)) s = Ret tt s).
  { induction l as [|i l IH]; intros Hl; [done|]. cbn [for_each].
    assert (Hi : (i < NPROC)%nat) by (apply Hl; constructor).
    destruct (lookup_lt_is_Some_2 (k_procs s) i) as [p Hp]; [by rewrite Hlen|].
    erewrite bind_ret; [apply IH; intros; apply Hl; by constructor|].
    rewrite (bind_ret _ _ _ _ _ (getproc_ret _ _ _ Hp)). by rewrite (Hsel i p Hp). }
  apply H. intros i Hi. apply elem_of_seq in Hi. lia.
Qed.
End dispatch.

(** ** Giving up the processor *)

Lemma cpu_settle_nested c : c_ncli c <> 0 -> cpu_settle c = c.
Proof. intros H. unfold cpu_settle. by rewrite (proj2 (Z.eqb_neq _ _) H). Qed.

(** Printing inside a critical section changes the console only. *)
Lemma cprintf_nested fmt args s c :
  fmt_ok fmt args = true -> cons_ready s ->
  k_cpus s !! k_cpunum s = Some c -> c_ncli c <> 0 ->
  exists co', cprintf (Some fmt) args s = Ret tt (s <| k_cons := co' |>) /\
    cons_ok co' /\ cons_same (k_cons s) co'.
Proof.
  intros Hf Hr Hc Hn. destruct (cprintf_ret fmt args s Hf Hr) as (co' & H & H1 & H2).
  exists co'. split_and!; [|done|done]. rewrite H. unfold after_cons, settle.
  case_match; [done|]. by rewrite (on_cpu_id _ _ _ Hc (cpu_settle_nested _ Hn)).
Qed.

Lemma cons_ready_after s co :
  cons_ready s -> cons_ok co -> cons_same (k_cons s) co -> cons_ready (s <| k_cons := co |>).
Proof. intros [_ H] Hok (E & _). split; [done|]. cbn. by rewrite E. Qed.

Lemma print_queue_ret s c :
  cons_ready s -> k_cpus s !! k_cpunum s = Some c -> c_ncli c <> 0 ->
  exists co', print_queue s = Ret tt (s <| k_cons := co' |>) /\
    cons_ok co' /\ cons_same (k_cons s) co'.
Proof.
  intros Hr Hc Hn. unfold print_queue.
  assert (H : forall (l : list (Z * Z)) s, cons_ready s -> k_cpus s !! k_cpunum s = Some c ->
    exists co', for_each l (fun '(i, pid) => cprintf_lit "<%d:%d>, " [AInt i; AInt pid]) s
      = Ret tt (s <| k_cons := co' |>) /\ cons_ok co' /\ cons_same (k_cons s) co').
  { clear -Hn. induction l as [|[i pid] l IH]; intros s Hr Hc.
    - exists (k_cons s). split_and!; [by destruct s|apply Hr|done].
    - cbn [for_each]. unfold cprintf_lit at 1.
      destruct (cprintf_nested (bytes "<%d:%d>, ") [AInt i; AInt pid] s c) as (co & H & H1 & H2);
        [done|done|done|done|].
      destruct (IH (s <| k_cons := co |>)) as (co' & H3 & H4 & H5);
        [by apply cons_ready_after|done|].
      exists co'. rewrite (bind_ret _ _ _ _ _ H). split_and!; [exact H3|done|].
      by eapply cons_same_trans. }
  set (l := imap (fun i e => (Z.of_nat i, snd e)) (sort_queue (run_queue (k_procs s)))).
  destruct (H l s Hr Hc) as (co & H1 & H2 & H3).
  destruct (cprintf_nested [NL] [] (s <| k_cons := co |>) c) as (co' & H4 & H5 & H6);
    [done|by apply cons_ready_after|done|done|].
  exists co'. kget. rewrite (bind_ret _ _ _ _ _ H1). split_and!; [exact H4|done|].
  by eapply cons_same_trans.
Qed.

(** The conditions that [sched] checks, for current process [i]. *)
Record may_sched (s : kernel) (c : cpu) (i : nat) (p : proc) : Prop := {
  ms_held : lock_held L_ptable s;
  ms_cpu : k_cpus s !! k_cpunum s = Some c;
  ms_ncli : c_ncli c = 1;
  ms_if : c_if c = false;
  ms_cur : c_proc c = Some i;
  ms_proc : k_procs s !! i = Some p;
  ms_state : p_state p <> RUNNING
}.

(** What is left of [sched] when the process is resumed. *)
Definition resume (c : cpu) : K unit := upd_cpu (fun c' => c' <| c_intena := c_intena c |>).

Lemma sched_swtch s c i p :
  may_sched s c i p -> (k_strategy s = 2 -> cons_ready s) ->
  exists co, sched s = Swtch (s <| k_cons := co |>) (resume c) /\
    cons_same (k_cons s) co /\ (k_strategy s <> 2 -> co = k_cons s) /\ (k_strategy s = 2 -> cons_ok co).
Proof.
  intros [Hh Hc Hn Hif Hi Hp Hst] Hcons. unfold sched.
  assert (H : exists co, when (k_strategy s =? 2) print_queue s = Ret tt (s <| k_cons := co |>) /\
    cons_same (k_cons s) co /\ (k_strategy s <> 2 -> co = k_cons s) /\ (k_strategy s = 2 -> cons_ok co)).
  { unfold when. destruct (Z.eqb_spec (k_strategy s) 2) as [E|E].
    - destruct (print_queue_ret s c (Hcons E) Hc) as (co & H & H1 & H2); [lia|].
      exists co. split_and!; auto. done.
    - exists (k_cons s). split_and!; [by destruct s|done|done|done]. }
  destruct H as (co & H & H1 & H2 & H3). exists co. split_and!; [|done..].
  rewrite (bind_ret _ _ _ _ _ (holding_held _ _ Hh)). cbn [negb].
  rewrite (bind_ret _ _ _ _ _ (mycpu_ret _ _ Hc)), Hn. cbn [Z.eqb Pos.eqb negb].
  rewrite (bind_ret _ _ _ _ _ (curproc_ret _ _ _ Hc Hi)).
  rewrite (bind_ret _ _ _ _ _ (getproc_ret _ _ _ Hp)).
  unfold is_state. rewrite bool_decide_eq_false_2 by done.
  rewrite (bind_ret _ _ _ _ _ (readeflags_ret _ _ Hc)), Hif.
  rewrite (bind_ret _ _ _ _ _ (mycpu_ret _ _ Hc)). kget.
  rewrite (bind_ret _ _ _ _ _ H). done.
Qed.

(** Every violated condition is a panic of its own. *)
Lemma sched_panics s c i p :
  k_cpus s !! k_cpunum s = Some c -> c_proc c = Some i -> k_procs s !! i = Some p ->
  (~ lock_held L_ptable s -> lk_locked (getlock L_ptable s) = 1 ->
     sched s = Fault (FPanic "sched ptable.lock") s) /\
  (lock_held L_ptable s -> c_ncli c <> 1 -> sched s = Fault (FPanic "sched locks") s) /\
  (lock_held L_ptable s -> c_ncli c = 1 -> p_state p = RUNNING ->
     sched s = Fault (FPanic "sched running") s) /\
  (lock_held L_ptable s -> c_ncli c = 1 -> p_state p <> RUNNING -> c_if c = true ->
     sched s = Fault (FPanic "sched interruptible") s).
Proof.
  intros Hc Hi Hp. unfold sched. split_and!.
  - intros Hh Hl. unfold holding, bind. cbn. rewrite Hl. cbn.
    rewrite bool_decide_eq_false_2; [done|]. intros Hcpu. apply Hh. unfold lock_held.
    unfold getlock in *. destruct (k_locks s !! L_ptable) as [[lk nm cp]|]; simpl in *; [|done].
    subst. eauto.
  - intros Hh Hn. rewrite (bind_ret _ _ _ _ _ (holding_held _ _ Hh)). cbn [negb].
    rewrite (bind_ret _ _ _ _ _ (mycpu_ret _ _ Hc)), (proj2 (Z.eqb_neq _ _) Hn). done.
  - intros Hh Hn Hst. rewrite (bind_ret _ _ _ _ _ (holding_held _ _ Hh)). cbn [negb].
    rewrite (bind_ret _ _ _ _ _ (mycpu_ret _ _ Hc)), Hn. cbn [Z.eqb Pos.eqb negb].
    rewrite (bind_ret _ _ _ _ _ (curproc_ret _ _ _ Hc Hi)).
    rewrite (bind_ret _ _ _ _ _ (getproc_ret _ _ _ Hp)).
    unfold is_state. by rewrite bool_decide_eq_true_2.
  - intros Hh Hn Hst Hif. rewrite (bind_ret _ _ _ _ _ (holding_held _ _ Hh)). cbn [negb].
    rewrite (bind_ret _ _ _ _ _ (mycpu_ret _ _ Hc)), Hn. cbn [Z.eqb Pos.eqb negb].
    rewrite (bind_ret _ _ _ _ _ (curproc_ret _ _ _ Hc Hi)).
    rewrite (bind_ret _ _ _ _ _ (getproc_ret _ _ _ Hp)).
    unfold is_state. rewrite bool_decide_eq_false_2 by done.
    by rewrite (bind_ret _ _ _ _ _ (readeflags_ret _ _ Hc)), Hif.
Qed.

(** ** The sort of the printed queue *)

Lemma swap_perm {A} (l : list A) i j a b :
  (i < j)%nat -> l !! i = Some a -> l !! j = Some b -> <[j := a]> (<[i := b]> l) ≡ₚ l.
Proof.
  intros Hij Hi Hj. rewrite <- (take_drop_middle l i a Hi) in *.
  set (l1 := take i l) in *. assert (Hl1 : length l1 = i).
  { apply length_take_le, Nat.lt_le_incl. by eapply lookup_lt_Some. }
  set (r := drop (S i) l) in *. rewrite lookup_app_r, lookup_cons_ne_0 in Hj by lia.
  rewrite Hl1 in Hj. rewrite <- (take_drop_middle r _ b Hj).
  set (m := pred (j - i)) in *. assert (Hm : length (take m r) = m).
  { apply length_take_le, Nat.lt_le_incl. by eapply lookup_lt_Some. }
  rewrite !insert_app_r_alt by lia. rewrite Hl1, Nat.sub_diag.
  replace (j - i)%nat with (S m) by lia. apply Permutation_app_head. cbn.
  change (b :: <[m := a]> (take m r ++ b :: drop (S m) r) ≡ₚ a :: take m r ++ b :: drop (S m) r).
  rewrite insert_app_r_alt by lia. rewrite Hm, Nat.sub_diag. cbn.
  rewrite <- !Permutation_middle. constructor.
Qed.

Lemma cmpswap_perm i j l : (i < j)%nat -> cmpswap i j l ≡ₚ l.
Proof.
  intros Hij. unfold cmpswap. destruct (l !! i) as [a|] eqn:Ea; [|done].
  destruct (l !! j) as [b|] eqn:Eb; [|done]. case_match; [by apply swap_perm|done].
Qed.

(** The first [i] places hold the least keys in order; place [i] holds the
    least key of the places before [m]. *)
Definition sorted_to (i : nat) (l : list (Z * Z)) : Prop :=
  forall a b x y, (a < i)%nat -> (a < b)%nat -> l !! a = Some x -> l !! b = Some y -> fst x <= fst y.
Definition least_to (i m : nat) (l : list (Z * Z)) : Prop :=
  forall b x y, (i < b < m)%nat -> l !! i = Some x -> l !! b = Some y -> fst x <= fst y.

Lemma cmpswap_lookup i j l a b :
  (i < j)%nat -> l !! i = Some a -> l !! j = Some b -> fst b < fst a ->
  forall k, cmpswap i j l !! k = if decide (k = j) then Some a else if decide (k = i) then Some b else l !! k.
Proof.
  intros Hij Ha Hb Hlt k. unfold cmpswap. rewrite Ha, Hb, (proj2 (Z.ltb_lt _ _) Hlt).
  destruct (decide (k = j)) as [->|Hkj].
  - apply list_lookup_insert_eq. rewrite length_insert. by eapply lookup_lt_Some.
  - rewrite list_lookup_insert_ne by done. destruct (decide (k = i)) as [->|Hki].
    + apply list_lookup_insert_eq. by eapply lookup_lt_Some.
    + by apply list_lookup_insert_ne.
Qed.

Lemma cmpswap_sorted i m l :
  (i < m)%nat -> sorted_to i l -> least_to i m l ->
  sorted_to i (cmpswap i m l) /\ least_to i (S m) (cmpswap i m l).
Proof.
  intros Him Hs Hl. destruct (l !! i) as [x|] eqn:Ex.
  2: { unfold cmpswap. rewrite Ex. split; [done|]. intros b ? ? _ H. by rewrite Ex in H. }
  destruct (l !! m) as [y|] eqn:Ey.
  2: { unfold cmpswap. rewrite Ex, Ey. split; [done|]. intros b u v Hb Hu Hv.
       destruct (decide (b = m)) as [->|]; [congruence|]. apply (Hl b u v); [lia|done|done]. }
  destruct (Z_lt_le_dec (fst y) (fst x)) as [Hlt|Hle].
  - pose proof (cmpswap_lookup i m l x y Him Ex Ey Hlt) as E. split.
    + intros a b u v Ha Hab. rewrite !E. rewrite !decide_False by lia. intros Hu.
      case_decide; [|case_decide]; intros Hv; subst; simplify_eq;
        [apply (Hs a i)|apply (Hs a m)|apply (Hs a b)]; (done || lia).
    + intros b u v Hb. rewrite !E. rewrite decide_False, decide_True by lia. intros [= <-].
      repeat case_decide; intros Hv; subst; simplify_eq; try lia.
      specialize (Hl b x v ltac:(lia) Ex Hv). lia.
  - unfold cmpswap. rewrite Ex, Ey, (proj2 (Z.ltb_ge _ _) Hle). split; [done|].
    intros b u v Hb Hu Hv. destruct (decide (b = m)) as [->|]; [congruence|].
    apply (Hl b u v); [lia|done|done].
Qed.

Lemma sort_inner_spec l i :
  sorted_to i l -> sorted_to (S i) (sort_inner l i) /\ sort_inner l i ≡ₚ l.
Proof.
  intros Hs. unfold sort_inner.
  assert (H : forall n m l, (i < m)%nat -> sorted_to i l -> least_to i m l ->
    let l' := foldl (fun l j => cmpswap i j l) l (seq m n) in
    sorted_to i l' /\ least_to i (m + n) l' /\ l' ≡ₚ l).
  { clear. induction n as [|n IH]; intros m l Him Hs Hl; simpl.
    - by rewrite Nat.add_0_r.
    - destruct (cmpswap_sorted i m l Him Hs Hl) as [Hs' Hl'].
      destruct (IH (S m) _ ltac:(lia) Hs' Hl') as (H1 & H2 & H3).
      rewrite <- Nat.add_succ_comm. split_and!; [done|done|].
      by rewrite H3, cmpswap_perm by lia. }
  destruct (H (length l - (i + 1))%nat (i + 1)%nat l) as (H1 & H2 & H3);
    [lia|done|intros b ? ? ?; lia|]. split; [|done].
  intros a b x y Ha Hab Hx Hy. destruct (decide (a = i)) as [->|]; [|apply (H1 a b); (done || lia)].
  eapply H2; [|done|done]. pose proof (lookup_lt_Some _ _ _ Hy) as Hlen.
  rewrite (Permutation_length H3) in Hlen. lia.
Qed.

Lemma sort_queue_spec l :
  (forall a b x y, (a < b)%nat -> sort_queue l !! a = Some x -> sort_queue l !! b = Some y ->
     fst x <= fst y) /\ sort_queue l ≡ₚ l.
Proof.
  unfold sort_queue.
  assert (H : forall n m l, sorted_to m l -> let l' := foldl sort_inner l (seq m n) in
    sorted_to (m + n) l' /\ l' ≡ₚ l).
  { clear. induction n as [|n IH]; intros m l Hs; simpl; [by rewrite Nat.add_0_r|].
    destruct (sort_inner_spec l m Hs) as [Hs' Hp]. destruct (IH (S m) _ Hs') as [H1 H2].
    rewrite <- Nat.add_succ_comm. split; [done|]. by rewrite H2. }
  destruct (H (length l) 0%nat l) as [H1 H2]; [intros ? ? ? ? ?; lia|]. split; [|done].
  intros a b x y Hab Hx Hy. eapply H1; [|exact Hab|exact Hx|exact Hy].
  pose proof (lookup_lt_Some _ _ _ Hx) as Hlen. rewrite (Permutation_length H2) in Hlen. lia.
Qed.
