(* ===== verification/Policy.v ===== *)
(** * The four scheduling policies

    What one round of [scheduler] does under each value of [strategy], how
    long a process can wait under the FIFO policy, and what the integer share
    [GRT] of the guaranteed policy amounts to. *)

From S2P Require Import Prelude State Monad Mem Spinlock Sample ConsoleOut Kalloc Vm Sched.

(** ** One round *)

(** A processor about to start a round of [scheduler]: it holds no lock and
    runs no process, and the runnable processes have an address space. *)
Record idle (s : kernel) : Prop := {
  idle_cpu : exists c, k_cpus s !! k_cpunum s = Some c /\ c_ncli c = 0 /\ c_proc c = None;
  idle_lock : lock_free L_ptable s;
  idle_procs : length (k_procs s) = NPROC;
  idle_pgdir : forall i p, k_procs s !! i = Some p -> p_state p = RUNNABLE -> p_pgdir p <> 0
}.

(** The state in which the policy looks at the table. *)
Definition enter (s : kernel) : kernel :=
  acq L_ptable (on_cpu (fun c => c <| c_if := true |>) s).

(** What a round leaves if no process has run. *)
Definition leave (s : kernel) : kernel :=
  settle (on_cpu (fun c => c <| c_if := true |>) s).

Lemma enter_procs s : k_procs (enter s) = k_procs s.
Proof. done. Qed.
Lemma enter_ticks s : k_ticks (enter s) = k_ticks s.
Proof. done. Qed.

Lemma enter_scheduling s : idle s -> exists c, scheduling (enter s) c.
Proof.
  intros [(c & Hc & Hn & _) Hl _ Hpg]. exists (cpu_push (c <| c_if := true |>)).
  split_and!; [|done|cbn; lia|exact Hpg]. cbn. by rewrite !list_lookup_alter_eq, Hc.
Qed.

Lemma enter_wf s : idle s -> on_cpu_wf (on_cpu (fun c => c <| c_if := true |>) s).
Proof.
  intros [(c & Hc & Hn & _) Hl _ _]. eexists. split; [by apply on_cpu_lookup|].
  split; cbn; lia.
Qed.

Lemma release_enter s s' :
  idle s -> same_locks (enter s) s' ->
  release L_ptable s' = Ret tt (s' <| k_cpus := k_cpus (leave s) |> <| k_locks := k_locks s |>).
Proof.
  intros Hi Hs. pose proof (enter_wf s Hi) as Hwf. destruct Hi as [_ Hl _ _].
  rewrite release_ret by (eapply in_cs_same; [exact Hs|by apply acq_in_cs]).
  f_equal. rewrite (rel_acq L_ptable _ _ Hwf Hl Hs). done.
Qed.

Section round.
Context {L : Linker}.

Lemma scheduler_round_policy s :
  idle s ->
  scheduler_round s =
    obind (policy (k_strategy s) (k_ticks s) (enter s)) (fun _ => release L_ptable).
Proof.
  intros Hi. pose proof (enter_wf s Hi) as Hwf. destruct Hi as [_ Hl _ _].
  unfold scheduler_round. erewrite (bind_ret sti) by reflexivity.
  rewrite (bind_ret _ _ _ _ _ (acquire_ret L_ptable _ (on_cpu_wf_chip _ Hwf) Hl)). done.
Qed.

Lemma round_swtch s s1 k :
  idle s -> policy (k_strategy s) (k_ticks s) (enter s) = Swtch s1 k ->
  scheduler_round s = Swtch s1 (fun s' => obind (k s') (fun _ => release L_ptable)).
Proof. intros Hi H. by rewrite scheduler_round_policy, H. Qed.

Lemma round_ret s f :
  idle s -> policy (k_strategy s) (k_ticks s) (enter s) = Ret tt ((enter s) <| k_procs := f |>) ->
  scheduler_round s = Ret tt ((leave s) <| k_procs := f |>).
Proof.
  intros Hi H. rewrite scheduler_round_policy, H by done. cbn [obind].
  by rewrite (release_enter s).
Qed.

(** *** Round robin *)

(** The pass over the table from slot [a] on. *)
Definition rr_from (sel : proc -> bool) (a : nat) : K unit :=
  for_each (seq a (NPROC - a)) (fun i =>
    let! p := getproc i in
    when (sel p) (do! set_myproc (Some i); run_current false)).

(** [i] is the first slot from [a] on that [sel] admits. *)
Definition first_from (sel : proc -> bool) (a : nat) (ps : list proc) (i : nat) (p : proc) : Prop :=
  (a <= i)%nat /\ ps !! i = Some p /\ sel p = true /\
  forall j q, (a <= j < i)%nat -> ps !! j = Some q -> sel q = false.

Lemma rr_from_skip sel a s p :
  (a < NPROC)%nat -> k_procs s !! a = Some p -> sel p = false ->
  rr_from sel a s = rr_from sel (S a) s.
Proof.
  intros Ha Hp Hs. unfold rr_from.
  replace (NPROC - a)%nat with (S (NPROC - S a)) by lia. cbn [seq for_each].
  erewrite bind_ret; [done|]. rewrite (bind_ret _ _ _ _ _ (getproc_ret _ _ _ Hp)). by rewrite Hs.
Qed.

Lemma rr_from_first sel a s c i p :
  scheduling s c -> length (k_procs s) = NPROC ->
  (forall p, sel p = true -> p_state p = RUNNABLE) ->
  first_from sel a (k_procs s) i p ->
  rr_from sel a s = Swtch (dispatch false i p s) (do! back_in_scheduler; rr_from sel (S i)).
Proof.
  intros Hsch Hlen Hsel (Hai & Hp & Hs & Hno).
  assert (Hi : (i < NPROC)%nat) by (rewrite <- Hlen; by eapply lookup_lt_Some).
  remember (i - a)%nat as n eqn:En. revert a Hai Hno En. induction n as [|n IH]; intros a Hai Hno En.
  - assert (a = i) as -> by lia. destruct Hsch as (Hc & Hif & Hn & Hpg). unfold rr_from at 1.
    replace (NPROC - i)%nat with (S (NPROC - S i)) by lia. cbn [seq for_each].
    erewrite bind_swtch; [reflexivity|]. rewrite (bind_ret _ _ _ _ _ (getproc_ret _ _ _ Hp)).
    rewrite Hs. unfold when, set_myproc, upd_cpu. kget.
    eapply run_current_swtch; eauto.
  - destruct (lookup_lt_is_Some_2 (k_procs s) a) as [q Hq]; [lia|].
    rewrite (rr_from_skip sel a s q) by (try lia; eauto with lia).
    apply IH; [lia| |lia]. intros j r Hj. apply Hno. lia.
Qed.

(** The rest of a round: the pass over the table from its start. *)
Definition rr_result (sel : proc -> bool) (s : kernel) (o : outcome unit) : Prop :=
  (o = Ret tt s /\ forall i p, k_procs s !! i = Some p -> sel p = false) \/
  exists i p, first_from sel 0 (k_procs s) i p /\
    o = Swtch (dispatch false i p s) (do! back_in_scheduler; rr_from sel (S i)).

Lemma round_robin_result sel s c :
  scheduling s c -> length (k_procs s) = NPROC ->
  (forall p, sel p = true -> p_state p = RUNNABLE) -> rr_result sel s (round_robin sel s).
Proof.
  intros Hsch Hlen Hsel. change (round_robin sel) with (rr_from sel 0).
  destruct (list_find (fun p => sel p = true) (k_procs s)) as [[i p]|] eqn:E.
  - right. exists i, p. apply list_find_Some in E as (Hp & Hs & Hno).
    assert (first_from sel 0 (k_procs s) i p).
    { split_and!; [lia|done|done|]. intros j q Hj Hq. apply not_true_is_false.
      eapply Hno; [exact Hq|lia]. }
    split; [done|]. by eapply rr_from_first.
  - left. assert (H : forall i p, k_procs s !! i = Some p -> sel p = false).
    { intros i p Hp. apply not_true_is_false. apply list_find_None in E.
      rewrite Forall_lookup in E. by eapply E. }
    split; [|done]. by apply round_robin_none.
Qed.

(** *** Choosing by a key *)

Lemma picks_exists sel key bound ps : exists r, picks sel key bound ps r.
Proof.
  pose proof (scan_picks sel key ps bound) as H. destruct (scan _ _ _ _ _ _) as [m b].
  exists b. apply H.
Qed.

Lemma picks_lookup sel key bound ps i :
  picks sel key bound ps (Some i) -> exists p, ps !! i = Some p /\ sel p = true /\ key p < bound.
Proof. intros (p & Hp & Hs & Hk & _). eauto. Qed.

(** A change of the table that the choice does not look at. *)
Lemma picks_fmap sel key bound f ps r :
  (forall p, sel (f p) = sel p) -> (forall p, key (f p) = key p) ->
  picks sel key bound (f <$> ps) r <-> picks sel key bound ps r.
Proof.
  intros Hs Hk. destruct r as [i|]; simpl.
  - split.
    + intros (p & Hp & Hsp & Hkp & H). rewrite list_lookup_fmap in Hp.
      destruct (ps !! i) as [p'|] eqn:E; [|done]. injection Hp as <-. exists p'.
      rewrite Hs, Hk in *. split_and!; [done|done|done|]. intros j q Hq Hsq.
      rewrite <- (Hk q). apply (H j); [by rewrite list_lookup_fmap, Hq|by rewrite Hs].
    + intros (p & Hp & Hsp & Hkp & H). exists (f p).
      rewrite list_lookup_fmap, Hp, Hs, Hk. split_and!; [done|done|done|]. intros j q Hq Hsq.
      rewrite list_lookup_fmap in Hq. destruct (ps !! j) as [q'|] eqn:E; [|done].
      injection Hq as <-. rewrite Hs, Hk in *. eauto.
  - split; intros H j p Hp Hsp.
    + rewrite <- Hk. apply (H j); [by rewrite list_lookup_fmap, Hp|by rewrite Hs].
    + rewrite list_lookup_fmap in Hp. destruct (ps !! j) as [p'|] eqn:E; [|done].
      injection Hp as <-. rewrite Hs, Hk in *. eauto.
Qed.

Lemma runnable_state p : runnable p = true -> p_state p = RUNNABLE.
Proof. apply bool_decide_eq_true_1. Qed.
Lemma runnable_at_state l p : runnable_at l p = true -> p_state p = RUNNABLE.
Proof. intros [H _]%andb_true_iff. by apply bool_decide_eq_true_1 in H. Qed.

Lemma store_grt_same t sel p :
  p_priority (store_grt t sel p) = p_priority p /\ p_state (store_grt t sel p) = p_state p /\
  p_queuelevel (store_grt t sel p) = p_queuelevel p /\ p_pgdir (store_grt t sel p) = p_pgdir p.
Proof. unfold store_grt. by case_match. Qed.

Lemma store_grt_runnable_at t sel l p :
  runnable_at l (store_grt t sel p) = runnable_at l p.
Proof.
  destruct (store_grt_same t sel p) as (_ & H1 & H2 & _). unfold runnable_at, is_state.
  by rewrite H1, H2.
Qed.

Lemma grt_table_scheduling sel s c : scheduling s c -> scheduling (grt_table sel s) c.
Proof.
  intros (Hc & Hif & Hn & Hpg). split_and!; [done|done|done|]. cbn. intros i p Hp Hst.
  rewrite list_lookup_fmap in Hp. destruct (k_procs s !! i) as [q|] eqn:E; [|done].
  injection Hp as <-. destruct (store_grt_same (k_ticks s) sel q) as (_ & H1 & _ & H2).
  rewrite H1, H2 in *. eauto.
Qed.

(** *** The round of each strategy *)

(** A chosen process runs with its priority set to the current tick, and
    the lock is released when it comes back. *)
Definition runs (s0 s : kernel) (i : nat) : Prop :=
  exists p, k_procs s0 !! i = Some p /\
    scheduler_round s0 = Swtch (dispatch true i p s) (do! back_in_scheduler; release L_ptable).

Lemma fifo_round s r :
  idle s -> k_strategy s = 2 -> picks runnable p_priority (k_ticks s) (k_procs s) r ->
  match r with
  | Some i => runs s (enter s) i
  | None => scheduler_round s = Ret tt (leave s)
  end.
Proof.
  intros Hi Hst Hr. destruct (enter_scheduling s Hi) as [c Hc]. destruct r as [i|].
  - destruct (picks_lookup _ _ _ _ _ Hr) as (p & Hp & _). exists p. split; [done|].
    apply round_swtch; [done|]. rewrite Hst.
    exact (by_priority_some runnable _ _ (enter s) c i p Hc runnable_state Hr Hp).
  - rewrite (round_ret s (k_procs s)); [by destruct s|done|]. rewrite Hst.
    etrans; [exact (by_priority_none runnable _ _ (enter s) Hr)|]. by destruct s.
Qed.

Lemma guaranteed_round s r :
  idle s -> k_strategy s = 3 -> picks runnable (grt (k_ticks s)) (k_ticks s) (k_procs s) r ->
  match r with
  | Some i => runs s (grt_table runnable (enter s)) i
  | None => scheduler_round s = Ret tt (grt_table runnable (leave s))
  end.
Proof.
  intros Hi Hst Hr. destruct (enter_scheduling s Hi) as [c Hc]. destruct r as [i|].
  - destruct (picks_lookup _ _ _ _ _ Hr) as (p & Hp & _). exists p. split; [done|].
    apply round_swtch; [done|]. rewrite Hst.
    exact (by_grt_some runnable _ (enter s) c i p Hc runnable_state Hr Hp).
  - refine (round_ret s (store_grt (k_ticks s) runnable <$> k_procs s) Hi _). rewrite Hst.
    exact (by_grt_none runnable _ (enter s) Hr).
Qed.

(** The second and third queue of strategy 4, once the first has no process
    to run. *)
Definition lower_queues (s0 s : kernel) : Prop :=
  exists r, picks (runnable_at 2) p_priority (k_ticks s0) (k_procs s0) r /\
    match r with
    | Some i => runs s0 s i
    | None => exists o, rr_result (runnable_at 1) s o /\
        scheduler_round s0 = obind o (fun _ => release L_ptable)
    end.

Lemma mlq_lower s :
  idle s -> k_strategy s = 4 -> picks (runnable_at 3) (grt (k_ticks s)) (k_ticks s) (k_procs s) None ->
  lower_queues s (grt_table (runnable_at 3) (enter s)).
Proof.
  intros Hi Hst Hr3. destruct (enter_scheduling s Hi) as [c Hc].
  set (s1 := grt_table (runnable_at 3) (enter s)).
  assert (Hc1 : scheduling s1 c) by by apply grt_table_scheduling.
  assert (E : policy (k_strategy s) (k_ticks s) (enter s) =
    by_priority (runnable_at 2) (k_ticks s) (round_robin (runnable_at 1)) s1).
  { rewrite Hst. exact (by_grt_none (runnable_at 3) _ (enter s) Hr3). }
  destruct (picks_exists (runnable_at 2) p_priority (k_ticks s) (k_procs s)) as [r Hr].
  exists r. split; [done|].
  assert (Hr' : picks (runnable_at 2) p_priority (k_ticks s) (k_procs s1) r).
  { apply picks_fmap; [intros; apply store_grt_runnable_at|intros; apply store_grt_same|done]. }
  destruct r as [i|].
  - destruct (picks_lookup _ _ _ _ _ Hr) as (p & Hp & _). exists p. split; [done|].
    apply round_swtch; [done|]. rewrite E.
    rewrite (by_priority_some _ _ _ s1 c i (store_grt (k_ticks s) (runnable_at 3) p) Hc1
      (runnable_at_state 2) Hr').
    + f_equal. unfold dispatch, cpu_load, store_grt. by case_match.
    + cbn. by rewrite list_lookup_fmap, Hp.
  - eexists. split; [|rewrite scheduler_round_policy, E, by_priority_none by done; reflexivity].
    eapply round_robin_result; [exact Hc1| |apply runnable_at_state].
    cbn. rewrite length_fmap. by destruct Hi.
Qed.

Lemma mlq_round s :
  idle s -> k_strategy s = 4 ->
  exists r, picks (runnable_at 3) (grt (k_ticks s)) (k_ticks s) (k_procs s) r /\
    match r with
    | Some i => runs s (grt_table (runnable_at 3) (enter s)) i
    | None => lower_queues s (grt_table (runnable_at 3) (enter s))
    end.
Proof.
  intros Hi Hst. destruct (enter_scheduling s Hi) as [c Hc].
  destruct (picks_exists (runnable_at 3) (grt (k_ticks s)) (k_ticks s) (k_procs s)) as [r Hr].
  exists r. split; [done|]. destruct r as [i|]; [|by apply mlq_lower].
  destruct (picks_lookup _ _ _ _ _ Hr) as (p & Hp & _). exists p. split; [done|].
  apply round_swtch; [done|]. rewrite Hst.
  exact (by_grt_some (runnable_at 3) _ (enter s) c i p Hc (runnable_at_state 3) Hr Hp).
Qed.

Lemma rr_round s :
  idle s -> k_strategy s = 1 ->
  exists o, rr_result runnable (enter s) o /\
    scheduler_round s = obind o (fun _ => release L_ptable).
Proof.
  intros Hi Hst. destruct (enter_scheduling s Hi) as [c Hc].
  eexists. split; [|rewrite scheduler_round_policy, Hst by done; reflexivity].
  eapply (round_robin_result runnable (enter s) c Hc); [by destruct Hi|apply runnable_state].
Qed.
End round.

(** ** Waiting under the FIFO policy *)

(** Process [i] waits to run since tick [x]. *)
Definition waiting (i : nat) (x : Z) (s : kernel) : Prop :=
  (i < NPROC)%nat /\
  exists p, k_procs s !! i = Some p /\ p_state p = RUNNABLE /\ p_priority p = x /\ x < k_ticks s.

(** What other processes and interrupts do between two rounds, as far as the
    queue is concerned: time goes on, [i] is left alone, and a process that
    becomes runnable gets the current tick as its priority. *)
Definition requeued (i : nat) (s s' : kernel) : Prop :=
  k_ticks s <= k_ticks s' /\ k_procs s' !! i = k_procs s !! i /\
  forall j q, k_procs s' !! j = Some q -> p_state q = RUNNABLE ->
    (exists q0, k_procs s !! j = Some q0 /\ p_state q0 = RUNNABLE /\ p_priority q0 = p_priority q) \/
    k_ticks s <= p_priority q.

(** A round of the FIFO policy that runs another process than [i], up to the
    next round. *)
Definition passed_over {L : Linker} (i : nat) (s s' : kernel) : Prop :=
  idle s /\ k_strategy s = 2 /\
  exists s1 k c, scheduler_round s = Swtch s1 k /\
    k_cpus s1 !! k_cpunum s1 = Some c /\ c_proc c <> Some i /\ requeued i s1 s'.

(** The processes that are ahead of [i] in the queue. *)
Definition is_ahead (i : nat) (x : Z) (ps : list proc) (j : nat) : Prop :=
  match ps !! j with
  | Some q => p_state q = RUNNABLE /\ (p_priority q < x \/ (p_priority q = x /\ (j < i)%nat))
  | None => False
  end.
#[global] Instance is_ahead_dec i x ps j : Decision (is_ahead i x ps j).
Proof. unfold is_ahead. destruct (ps !! j); solve_decision. Defined.

Definition ahead (i : nat) (x : Z) (ps : list proc) : gset nat :=
  filter (is_ahead i x ps) (set_seq 0 NPROC).

Lemma elem_of_ahead i x ps j : j ∈ ahead i x ps <-> is_ahead i x ps j /\ (j < NPROC)%nat.
Proof. unfold ahead. rewrite elem_of_filter, elem_of_set_seq. intuition lia. Qed.

Lemma ahead_self i x s : waiting i x s -> (size (ahead i x (k_procs s)) < NPROC)%nat.
Proof.
  intros (Hi & p & Hp & Hst & Hx & _).
  apply Nat.lt_le_trans with (size (set_seq 0 NPROC : gset nat)); [|by rewrite size_set_seq].
  apply subset_size. split.
  - intros j [_ Hj]%elem_of_ahead. apply elem_of_set_seq. lia.
  - intros H. assert (Hin : i ∈ ahead i x (k_procs s)).
    { apply H, elem_of_set_seq. lia. }
    apply elem_of_ahead in Hin as [Hin _]. unfold is_ahead in Hin. rewrite Hp in Hin. lia.
Qed.

(** While [i] is passed over it keeps waiting and the queue ahead of it gets
    shorter. *)
Lemma passed_over_ahead {L : Linker} i x s s' :
  waiting i x s -> passed_over i s s' ->
  waiting i x s' /\ ahead i x (k_procs s') ⊂ ahead i x (k_procs s).
Proof.
  intros (Hi & p & Hp & Hst & Hx & Hlt) (Hidle & Hs2 & s1 & k & c & Hrun & Hc & Hni & Ht & Hsame & Hreq).
  destruct (picks_exists runnable p_priority (k_ticks s) (k_procs s)) as [r Hr].
  pose proof (fifo_round s r Hidle Hs2 Hr) as Hround.
  assert (Hsel : runnable p = true) by by apply bool_decide_eq_true_2.
  destruct r as [j|]; [|specialize (Hr i p Hp Hsel); lia].
  destruct Hround as (q & Hq & Hround). rewrite Hround in Hrun. injection Hrun as <- _.
  destruct Hr as (q' & Hq' & Hqs & Hqk & Hmin). assert (q' = q) as -> by congruence.
  assert (Hji : j <> i).
  { intros ->. apply Hni. cbn in Hc. rewrite !list_lookup_alter_eq in Hc.
    destruct (k_cpus s !! k_cpunum s) as [c0|] eqn:E; cbn in Hc; [|done]. by injection Hc as <-. }
  assert (Hs1 : forall m, m <> j -> k_procs (dispatch true j q (enter s)) !! m = k_procs s !! m)
    by (intros; by apply list_lookup_alter_ne).
  change (k_ticks (dispatch _ _ _ _)) with (k_ticks s) in *.
  split.
  - split; [done|]. exists p. rewrite Hsame, Hs1 by done. split_and!; [done|done|done|lia].
  - split.
    + intros m [Hm Hlm]%elem_of_ahead. apply elem_of_ahead. split; [|done]. revert Hm.
      unfold is_ahead. destruct (k_procs s' !! m) as [z|] eqn:Ez; [|done]. intros [Hz Hzx].
      destruct (Hreq m z Ez Hz) as [(z0 & Hz0 & Hr0 & Hp0)|?]; [|lia].
      destruct (decide (m = j)) as [->|Hmj]; [|by rewrite <- Hs1, Hz0, Hr0, Hp0 by done].
      cbn in Hz0. rewrite list_lookup_alter_eq, Hq in Hz0. by injection Hz0 as <-.
    + intros H. assert (Hin : j ∈ ahead i x (k_procs s)).
      { apply elem_of_ahead. unfold is_ahead. rewrite Hq. destruct (Hmin i p Hp Hsel) as [H1 H2].
        destruct Hidle as [_ _ Hlen _]. split; [|rewrite <- Hlen; by eapply lookup_lt_Some].
        split; [by apply runnable_state|]. destruct (decide (i < j)%nat); lia. }
      apply H, elem_of_ahead in Hin as [Hin _]. revert Hin. unfold is_ahead.
      destruct (k_procs s' !! j) as [z|] eqn:Ez; [|done]. intros [Hz Hzx].
      destruct (Hreq j z Ez Hz) as [(z0 & Hz0 & Hr0 & Hp0)|?]; [|lia].
      cbn in Hz0. rewrite list_lookup_alter_eq, Hq in Hz0. by injection Hz0 as <-.
Qed.

Lemma passed_over_count {L : Linker} i x n s s' :
  waiting i x s -> nsteps (passed_over i) n s s' -> (n <= size (ahead i x (k_procs s)))%nat.
Proof.
  intros Hw Hn. induction Hn as [|n s s1 s2 H _ IH]; [lia|].
  destruct (passed_over_ahead i x s s1 Hw H) as [Hw1 Hsub%subset_size].
  specialize (IH Hw1). lia.
Qed.

(** The operations that make processes runnable put them at the end of the
    queue. *)
Lemma wake_requeued i ch s p :
  k_procs s !! i = Some p -> p_state p <> SLEEPING ->
  requeued i s (s <| k_procs := wake (k_ticks s) ch <$> k_procs s |>).
Proof.
  intros Hp Hst. split_and!; [done| |].
  - cbn. rewrite list_lookup_fmap, Hp. unfold wake, is_state. cbn.
    by rewrite bool_decide_eq_false_2.
  - cbn. intros j q Hq Hr. rewrite list_lookup_fmap in Hq.
    destruct (k_procs s !! j) as [q0|] eqn:E; [|done]. injection Hq as <-. revert Hr.
    unfold wake. case_match; cbn; [right; lia|]. intros. left. eauto.
Qed.

Lemma kill_requeued i j s p :
  k_procs s !! i = Some p -> i <> j -> requeued i s (on_proc j (kill_proc (k_ticks s)) s).
Proof.
  intros Hp Hij. split_and!; [done|by apply list_lookup_alter_ne|]. cbn. intros m q Hq Hr.
  destruct (decide (m = j)) as [->|]; [|rewrite list_lookup_alter_ne in Hq by done; eauto].
  rewrite list_lookup_alter_eq in Hq. destruct (k_procs s !! j) as [q0|] eqn:E; [|done].
  injection Hq as <-. revert Hr. unfold kill_proc. case_match; cbn; [right; lia|].
  intros. left. eauto.
Qed.

Lemma requeued_trans i s1 s2 s3 : requeued i s1 s2 -> requeued i s2 s3 -> requeued i s1 s3.
Proof.
  intros (T1 & S1 & R1) (T2 & S2 & R2). split_and!; [lia|by rewrite S2|].
  intros j q Hq Hr. destruct (R2 j q Hq Hr) as [(q0 & Hq0 & Hr0 & Hp0)|?]; [|right; lia].
  destruct (R1 j q0 Hq0 Hr0) as [(q1 & Hq1 & Hr1 & Hp1)|?]; [|right; lia].
  left. exists q1. split_and!; [done|done|congruence].
Qed.

(** ** The guaranteed policy *)

(** A process that has run for no more than its lifetime has a share of 0,
    unless it has run all the time. *)
Lemma grt_truncates ticks p :
  let life := ticks -u p_ctime p in
  0 <= p_rtime p <= life ->
  grt ticks p = if (0 <? life) && (p_rtime p =? life) then 1 else 0.
Proof.
  intros life Hr. unfold grt. fold life.
  destruct (Z.eqb_spec life 0) as [E|E]; cbn [negb].
  - by rewrite (proj2 (Z.ltb_ge 0 life)) by lia.
  - rewrite (proj2 (Z.ltb_lt 0 life)) by lia. cbn [andb].
    destruct (Z.eqb_spec (p_rtime p) life) as [->|Hne]; [by apply Z.div_same|].
    apply Z.div_small. lia.
Qed.

(** So strategy 3 runs the first process of the table that has ever waited. *)
Lemma picks_grt_first ticks ps i p :
  1 < ticks -> ps !! i = Some p -> runnable p = true ->
  (forall j q, ps !! j = Some q -> runnable q = true -> 0 <= p_rtime q <= ticks -u p_ctime q) ->
  p_rtime p < ticks -u p_ctime p ->
  (forall j q, (j < i)%nat -> ps !! j = Some q -> runnable q = true ->
     0 < ticks -u p_ctime q /\ p_rtime q = ticks -u p_ctime q) ->
  picks runnable (grt ticks) ticks ps (Some i).
Proof.
  intros Ht Hp Hr Hb Hw Hfirst.
  assert (Hp0 : grt ticks p = 0).
  { rewrite grt_truncates by eauto. rewrite (proj2 (Z.eqb_neq _ _)) by lia.
    by rewrite andb_false_r. }
  exists p. rewrite Hp0. split_and!; [done|done|lia|]. intros j q Hq Hqr.
  rewrite grt_truncates by eauto. split; [case_match; lia|]. intros Hj.
  destruct (Hfirst j q Hj Hq Hqr) as [H1 H2].
  by rewrite (proj2 (Z.ltb_lt _ _) H1), (proj2 (Z.eqb_eq _ _) H2).
Qed.

(** ** Theorems *)

Lemma machine_idle n t ps :
  (length ps <= NPROC)%nat -> Forall (fun p => p_pgdir p <> 0) ps -> idle (Sample.machine n t ps).
Proof.
  intros Hlen Hpg. split.
  - by exists Sample.cpu0.
  - by exists "ptable".
  - cbn -[NPROC]. rewrite length_app, length_replicate. lia.
  - cbn -[NPROC]. intros i p Hp Hst. apply lookup_app_Some in Hp as [Hp|[_ Hp]].
    + rewrite Forall_lookup in Hpg. eauto.
    + by apply lookup_replicate in Hp as [-> _].
Qed.

Lemma scan_picks_eq sel key ps bound m r :
  scan sel key 0 ps bound None = (m, r) -> picks sel key bound ps r.
Proof. intros E. pose proof (scan_picks sel key ps bound) as H. rewrite E in H. apply H. Qed.

(** C3: under strategy 2 a round of [scheduler] runs the runnable process that
    has waited longest (the least [priority], below the current tick; the
    first in the table if several have it): the processor switches to it with
    [priority] set to the current tick.  If there is none, the round changes
    nothing in the table. *)
Theorem fifo_schedules {L : Linker} s :
  idle s -> k_strategy s = 2 ->
  exists r, picks runnable p_priority (k_ticks s) (k_procs s) r /\
    match r with
    | Some i => runs s (enter s) i
    | None => scheduler_round s = Ret tt (leave s)
    end.
Proof.
  intros Hi Hs. destruct (picks_exists runnable p_priority (k_ticks s) (k_procs s)) as [r Hr].
  exists r. split; [done|]. by apply fifo_round.
Qed.

Lemma fifo_schedules_witness :
  let s := Sample.machine 2 10 [Sample.job 1 5 2; Sample.job 2 3 2; Sample.job 3 3 2] in
  picks runnable p_priority 10 (k_procs s) (Some 1%nat) /\ runs (L := Sample.linker) s (enter s) 1.
Proof.
  intros s. assert (Hi : idle s) by (apply machine_idle; [vm_compute; lia|by repeat constructor]).
  destruct (fifo_schedules (L := Sample.linker) s Hi eq_refl) as (r & Hr & H).
  assert (Hp : picks runnable p_priority 10 (k_procs s) (Some 1%nat))
    by (apply (scan_picks_eq _ _ _ _ 3); vm_compute; reflexivity).
  rewrite (picks_functional _ _ _ _ _ _ Hr Hp) in H. exact (conj Hp H).
Defined.

(** C5: under strategy 2 a runnable process is not overtaken forever: at most
    63 rounds run other processes first, whatever these and the interrupt
    handlers do in the meantime, as long as a process that becomes runnable
    gets the current tick as its priority. *)
Theorem fifo_bounded_waiting {L : Linker} i x n s s' :
  waiting i x s -> nsteps (passed_over i) n s s' -> (n < NPROC)%nat.
Proof.
  intros Hw Hn. pose proof (passed_over_count i x n s s' Hw Hn).
  pose proof (ahead_self i x s Hw). lia.
Qed.

Lemma fifo_bounded_waiting_witness :
  let s := Sample.machine 2 10 [Sample.job 1 5 2; Sample.job 2 3 2] in
  exists s', nsteps (passed_over (L := Sample.linker) 0) 1 s s' /\ (1 < NPROC)%nat.
Proof.
  intros s. assert (Hi : idle s) by (apply machine_idle; [vm_compute; lia|by repeat constructor]).
  assert (H : exists s', nsteps (passed_over (L := Sample.linker) 0) 1 s s').
  { destruct (fifo_round (L := Sample.linker) s (Some 1%nat) Hi eq_refl) as (p & Hp & Hr).
    { apply (scan_picks_eq _ _ _ _ 3); vm_compute; reflexivity. }
    eexists. apply nsteps_once. split_and!; [done|done|]. do 3 eexists.
    split_and!; [exact Hr|reflexivity|done|]. split_and!; [reflexivity|reflexivity|].
    intros j q Hq Hst. left. eauto. }
  destruct H as [s' H]. exists s'. split; [exact H|].
  refine (fifo_bounded_waiting (L := Sample.linker) 0 5 1 s s' _ H).
  split; [vm_compute; lia|]. eexists. by repeat split.
Defined.
