(* ===== verification/SleepWake.v ===== *)
(** * yield, sleep, wakeup and kill

    The states in which [yield] and [sleep] give up the processor, what they
    do when they are resumed, and the effect of [wakeup] and [kill] on the
    process table. *)

From S2P Require Import Prelude State Monad Mem Spinlock Sample ConsoleOut Kalloc Vm Sched.

(** A process [i] that runs on the executing processor at depth [n] of
    [pushcli]. *)
Record on_behalf (s : kernel) (n : Z) (c : cpu) (i : nat) (p : proc) : Prop := {
  ob_cpu : k_cpus s !! k_cpunum s = Some c;
  ob_ncli : c_ncli c = n;
  ob_cur : c_proc c = Some i;
  ob_proc : k_procs s !! i = Some p;
  ob_if : 0 < n -> c_if c = false;
  ob_depth : 0 <= n;
  ob_cons : k_strategy s = 2 -> cons_ready s
}.

Lemma on_behalf_wf s n c i p : on_behalf s n c i p -> on_cpu_wf s.
Proof. intros [Hc Hn _ _ Hif Hd _]. exists c. split; [done|]. split; [lia|]. intros. apply Hif. lia. Qed.

(** The critical section of the process table, left again. *)
Definition after_ptable (s : kernel) (ps : list proc) : kernel := (settle s) <| k_procs := ps |>.

Lemma release_acq l s s' :
  on_cpu_wf s -> lock_free l s -> same_locks (acq l s) s' ->
  release l s' = Ret tt (s' <| k_cpus := k_cpus (settle s) |> <| k_locks := k_locks s |>).
Proof.
  intros Hwf Hl Hs. rewrite release_ret by (eapply in_cs_same; [exact Hs|by apply acq_in_cs]).
  f_equal. by apply rel_acq.
Qed.

Lemma acq_wf l s : on_cpu_wf s -> on_cpu_wf (acq l s).
Proof.
  intros (c & Hc & H0 & H1). exists (cpu_push c). split; [cbn; by rewrite list_lookup_alter_eq, Hc|].
  split; cbn; [lia|done].
Qed.

Lemma rel_wf l s : in_cs l s -> on_cpu_wf (rel l s).
Proof.
  intros (_ & c & Hc & Hif & Hn). exists (cpu_pop c).
  split; [cbn; by rewrite list_lookup_alter_eq, Hc|].
  split; cbn; [lia|]. intros H. by rewrite (proj2 (Z.eqb_neq _ _)) by lia.
Qed.

Lemma cons_ready_acq l s :
  on_cpu_wf s -> l <> L_cons -> cons_ready s -> cons_ready (acq l s).
Proof.
  intros Hwf Hl [H1 [H2|[H2 [nm H3]]]]; (split; [done|]); [by left|right].
  split; [by apply acq_wf|]. exists nm. cbn. by rewrite lookup_insert_ne.
Qed.

Lemma cons_ready_rel l s : in_cs l s -> cons_ready s -> cons_ready (rel l s).
Proof.
  intros Hcs [H1 [H2|[H2 [nm H3]]]]; (split; [done|]); [by left|right].
  split; [by apply rel_wf|]. destruct (decide (l = L_cons)) as [->|Hne].
  - eexists. cbn. by rewrite lookup_insert_eq.
  - exists nm. cbn. by rewrite lookup_insert_ne.
Qed.

(** ** wakeup and kill *)

Lemma wakeup_ret ch s :
  on_cpu_wf s -> lock_free L_ptable s ->
  wakeup ch s = Ret tt (after_ptable s (wake (k_ticks s) ch <$> k_procs s)).
Proof.
  intros Hwf Hl. unfold wakeup.
  rewrite (bind_ret _ _ _ _ _ (acquire_ret L_ptable s (on_cpu_wf_chip _ Hwf) Hl)).
  unfold wakeup1. kget. by rewrite (release_acq L_ptable s).
Qed.

Lemma kill_found pid s i p :
  on_cpu_wf s -> lock_free L_ptable s ->
  k_procs s !! i = Some p -> p_pid p = pid ->
  (forall j q, (j < i)%nat -> k_procs s !! j = Some q -> p_pid q <> pid) ->
  kill pid s = Ret 0 (after_ptable s (<[i := kill_proc (k_ticks s) p]> (k_procs s))).
Proof.
  intros Hwf Hl Hp Hpid Hfirst. unfold kill.
  rewrite (bind_ret _ _ _ _ _ (acquire_ret L_ptable s (on_cpu_wf_chip _ Hwf) Hl)). kget.
  replace (list_find _ _) with (Some (i, p)).
  2: { symmetry. apply list_find_Some. split_and!; [done|done|]. intros j q Hq Hj. by eapply Hfirst. }
  kget. erewrite bind_ret by (eapply updproc_ret; exact Hp).
  erewrite bind_ret by (by apply (release_acq L_ptable s)). unfold ret. f_equal.
  unfold after_ptable. by rewrite <- (list_alter_insert _ _ _ _ Hp).
Qed.

Lemma kill_missing pid s :
  on_cpu_wf s -> lock_free L_ptable s ->
  (forall j q, k_procs s !! j = Some q -> p_pid q <> pid) ->
  kill pid s = Ret (-1) (after_ptable s (k_procs s)).
Proof.
  intros Hwf Hl Hno. unfold kill.
  rewrite (bind_ret _ _ _ _ _ (acquire_ret L_ptable s (on_cpu_wf_chip _ Hwf) Hl)). kget.
  replace (list_find _ _) with (@None (nat * proc)).
  2: { symmetry. apply list_find_None. apply Forall_lookup. eauto. }
  by erewrite bind_ret by (by apply (release_acq L_ptable s)).
Qed.

(** ** yield *)

Definition yielded (ticks : Z) (p : proc) : proc :=
  p <| p_priority := ticks |> <| p_state := RUNNABLE |>.

(** What [yield] does when its process runs again. *)
Definition yield_resume (c : cpu) : K unit := do! resume c; release L_ptable.

Lemma yield_swtch s c i p :
  on_behalf s 0 c i p -> lock_free L_ptable s ->
  exists co, cons_same (k_cons s) co /\ (k_strategy s <> 2 -> co = k_cons s) /\
    yield s = Swtch ((on_proc i (yielded (k_ticks s)) (acq L_ptable s)) <| k_cons := co |>)
      (yield_resume (cpu_push c)).
Proof.
  intros Hb Hl. pose proof (on_behalf_wf _ _ _ _ _ Hb) as Hwf. destruct Hb as [Hc Hn Hi Hp Hif _ Hcons].
  set (s1 := on_proc i (yielded (k_ticks s)) (acq L_ptable s)).
  assert (Hms : may_sched s1 (cpu_push c) i (yielded (k_ticks s) p)).
  { destruct (acq_in_cs L_ptable s Hwf) as [Hh _]. split; try done.
    - cbn. by rewrite list_lookup_alter_eq, Hc.
    - cbn. lia.
    - by apply on_proc_lookup. }
  destruct (sched_swtch s1 _ i _ Hms) as (co & Hs & Hsame & Heq & _).
  { intros E. apply (cons_ready_acq L_ptable s); auto. }
  exists co. split_and!; [done|done|]. unfold yield.
  rewrite (bind_ret _ _ _ _ _ (acquire_ret L_ptable s (on_cpu_wf_chip _ Hwf) Hl)). kget.
  erewrite bind_ret by (eapply (curproc_ret _ (cpu_push c)); [cbn; by rewrite list_lookup_alter_eq, Hc|exact Hi]).
  erewrite bind_ret by (eapply updproc_ret; exact Hp).
  erewrite bind_ret by (eapply updproc_ret; apply on_proc_lookup; exact Hp).
  rewrite on_proc_on_proc. erewrite bind_swtch; [reflexivity|]. exact Hs.
Qed.

(** ** sleep *)

Definition asleep (ch : chan) (p : proc) : proc := p <| p_chan := ch |> <| p_state := SLEEPING |>.

(** What [sleep] does when its process runs again. *)
Definition sleep_resume (c : cpu) (lk : lockid) : K unit :=
  do! resume c;
  let! cur := curproc in
  do! updproc cur (fun p => p <| p_chan := CNull |>);
  when (negb (bool_decide (lk = L_ptable))) (do! release L_ptable; acquire lk).

(** The state of the locks in which [sleep] calls [sched]. *)
Definition handover (lk : lockid) (s : kernel) : kernel :=
  if decide (lk = L_ptable) then s else rel lk (acq L_ptable s).
Definition handover_cpu (lk : lockid) (c : cpu) : cpu :=
  if decide (lk = L_ptable) then c else cpu_pop (cpu_push c).

(** [sleep] may be called with [lk], the only lock held. *)
Definition may_sleep (lk : lockid) (s : kernel) (c : cpu) (i : nat) (p : proc) : Prop :=
  on_behalf s 1 c i p /\ lock_held lk s /\ (lk <> L_ptable -> lock_free L_ptable s).

Lemma in_cs_acq_other l l' s : l <> l' -> in_cs l s -> in_cs l (acq l' s).
Proof.
  intros Hne [[nm Hl] (c & Hc & Hif & Hn)]. split.
  - exists nm. cbn. by rewrite lookup_insert_ne.
  - exists (cpu_push c). split_and!; [cbn; by rewrite list_lookup_alter_eq, Hc|done|cbn; lia].
Qed.

Lemma handover_ok lk s c i p :
  may_sleep lk s c i p ->
  when (negb (bool_decide (lk = L_ptable))) (do! acquire L_ptable; release lk) s
    = Ret tt (handover lk s) /\
  on_behalf (handover lk s) 1 (handover_cpu lk c) i p /\
  lock_held L_ptable (handover lk s) /\ (lk <> L_ptable -> lock_free lk (handover lk s)).
Proof.
  intros (Hb & Hh & Hfree). unfold handover, handover_cpu.
  destruct (decide (lk = L_ptable)) as [->|Hne].
  { rewrite bool_decide_eq_true_2 by done. done. }
  rewrite bool_decide_eq_false_2 by done. specialize (Hfree Hne).
  pose proof (on_behalf_wf _ _ _ _ _ Hb) as Hwf. pose proof Hb as [Hc Hn Hi Hp Hif _ Hcons].
  assert (Hcs : in_cs lk (acq L_ptable s)).
  { apply in_cs_acq_other; [done|]. split; [done|]. exists c. split_and!; [done|apply Hif; lia|lia]. }
  cbn [negb when]. rewrite (bind_ret _ _ _ _ _ (acquire_ret L_ptable s (on_cpu_wf_chip _ Hwf) Hfree)).
  rewrite release_ret by done. split; [done|]. split_and!.
  - split; [cbn; by rewrite !list_lookup_alter_eq, Hc|cbn; lia|done|done| |lia|].
    + intros _. cbn. rewrite Hn. done.
    + intros E. apply cons_ready_rel; [done|]. apply cons_ready_acq; [done|done|auto].
  - eexists. cbn. rewrite lookup_insert_ne by done. apply lookup_insert_eq.
  - intros _. eexists. cbn. apply lookup_insert_eq.
Qed.

Lemma sleep_swtch ch lk s c i p :
  may_sleep lk s c i p ->
  exists co, cons_same (k_cons s) co /\ (k_strategy s <> 2 -> co = k_cons s) /\
    sleep ch (Some lk) s =
      Swtch ((on_proc i (asleep ch) (handover lk s)) <| k_cons := co |>)
        (sleep_resume (handover_cpu lk c) lk).
Proof.
  intros Hms. destruct (handover_ok _ _ _ _ _ Hms) as (Hho & [Hc Hn Hi Hp Hif _ Hcons] & Hh & _).
  set (s1 := handover lk s) in *. set (c1 := handover_cpu lk c) in *.
  assert (Hk : k_strategy s1 = k_strategy s /\ k_cons s1 = k_cons s)
    by (subst s1; unfold handover; by case_decide).
  destruct (sched_swtch (on_proc i (asleep ch) s1) c1 i (asleep ch p)) as (co & Hs & Hsame & Heq & _).
  { split; try done; [by apply Hif|by apply on_proc_lookup]. }
  { done. }
  destruct Hk as [Hk1 Hk2]. exists co. split_and!.
  - by rewrite <- Hk2.
  - rewrite <- Hk1, <- Hk2. done.
  - unfold sleep. destruct Hms as ([Hc0 _ Hi0 _ _ _ _] & _).
    rewrite (bind_ret _ _ _ _ _ (myproc_ret _ _ Hc0)), Hi0.
    rewrite (bind_ret _ _ _ _ _ Hho).
    rewrite (bind_ret _ _ _ _ _ (curproc_ret _ _ _ Hc Hi)).
    erewrite bind_ret by (eapply updproc_ret; exact Hp).
    erewrite bind_ret by (eapply updproc_ret; apply on_proc_lookup; exact Hp).
    rewrite on_proc_on_proc. erewrite bind_swtch; [reflexivity|]. exact Hs.
Qed.

(** When the process is resumed, [sleep] takes the lock back. *)
Definition awake (c : cpu) (lk : lockid) (i : nat) (s : kernel) : kernel :=
  let s1 := on_proc i (fun p => p <| p_chan := CNull |>)
    (on_cpu (fun c' => c' <| c_intena := c_intena c |>) s) in
  if decide (lk = L_ptable) then s1 else acq lk (rel L_ptable s1).

Lemma sleep_resume_ret c lk s c' i p :
  on_behalf s 1 c' i p -> lock_held L_ptable s -> (lk <> L_ptable -> lock_free lk s) ->
  sleep_resume c lk s = Ret tt (awake c lk i s) /\ lock_held lk (awake c lk i s).
Proof.
  intros [Hc Hn Hi Hp Hif _ _] Hh Hfree. unfold sleep_resume, awake, resume, upd_cpu. kget.
  erewrite bind_ret by (eapply curproc_ret; [eapply on_cpu_lookup; exact Hc|exact Hi]).
  erewrite bind_ret by (eapply updproc_ret; exact Hp).
  destruct (decide (lk = L_ptable)) as [->|Hne].
  { rewrite bool_decide_eq_true_2 by done. done. }
  rewrite bool_decide_eq_false_2 by done. cbn [negb when].
  set (s1 := on_proc i _ _). assert (Hcs : in_cs L_ptable s1).
  { split; [done|]. eexists. split; [eapply on_cpu_lookup; exact Hc|]. split; [apply Hif; lia|cbn; lia]. }
  rewrite (bind_ret _ _ _ _ _ (release_ret _ _ Hcs)). split.
  - apply acquire_ret; [by apply on_cpu_wf_chip, rel_wf|]. destruct (Hfree Hne) as [nm Hl].
    exists nm. cbn. by rewrite lookup_insert_ne.
  - eexists. cbn. apply lookup_insert_eq.
Qed.
