(* ===== verification/Sleeplock.v ===== *)
(** * sleeplock.c: long-term locks

    A sleep lock is a field of a buffer or of an inode.  The first part of the
    file is about the threads that use them: [calm] is the state of a process
    in the kernel between two critical sections, in which it can take any spin
    lock and, if nothing makes it wait, runs on without switching. *)

From S2P Require Import Prelude State Monad Mem Spinlock Sample ConsoleOut Kalloc Vm Sched SleepWake.

(** ** Critical sections of a running process *)

(** The locks that the kernel initialises at boot. *)
Definition static_lock (l : lockid) : Prop :=
  match l with
  | L_buf i => (i < NBUF)%nat
  | L_inode i => (i < NINODE)%nat
  | L_pipe _ => False
  | _ => True
  end.

Record calm (s : kernel) (i : nat) (p : proc) : Prop := {
  calm_cpu : exists c, k_cpus s !! k_cpunum s = Some c /\ c_ncli c = 0 /\
    c_intena c = c_if c /\ c_proc c = Some i;
  calm_proc : k_procs s !! i = Some p;
  calm_running : p_state p = RUNNING;
  calm_locks : forall l, static_lock l -> lock_free l s
}.

Lemma calm_wf s i p : calm s i p -> on_cpu_wf s.
Proof. intros [(c & Hc & Hn & _) _ _ _]. exists c. split; [done|]. split; lia. Qed.

Lemma calm_settle s i p : calm s i p -> settle s = s.
Proof.
  intros [(c & Hc & Hn & Hif & _) _ _ _]. apply (on_cpu_id _ _ c Hc).
  unfold cpu_settle. rewrite Hn. cbn. unfold_set. destruct c. cbn in *. by subst.
Qed.

(** The parts of the state that [calm] speaks of. *)
Definition same_thread (s s' : kernel) : Prop :=
  k_cpunum s' = k_cpunum s /\ k_cpus s' = k_cpus s /\ k_locks s' = k_locks s.

Lemma calm_same s s' i p p' :
  calm s i p -> same_thread s s' -> k_procs s' !! i = Some p' -> p_state p' = RUNNING ->
  calm s' i p'.
Proof.
  intros [Hc Hp Hr Hl] (E1 & E2 & E3) Hp' Hr'. split; [by rewrite E1, E2|done|done|].
  intros l Hs. unfold lock_free. rewrite E3. by apply Hl.
Qed.

(** The state inside a critical section, and how a change is taken out of it. *)
Definition leave_cs (s s' : kernel) : kernel :=
  s' <| k_cpus := k_cpus s |> <| k_locks := k_locks s |>.

Lemma release_calm l s s' i p :
  calm s i p -> lock_free l s -> same_locks (acq l s) s' ->
  release l s' = Ret tt (leave_cs s s').
Proof.
  intros Hc Hl Hs. rewrite (release_acq l s s' (calm_wf _ _ _ Hc) Hl Hs).
  by rewrite (calm_settle _ _ _ Hc).
Qed.

Lemma acquire_calm l s i p : calm s i p -> lock_free l s -> acquire l s = Ret tt (acq l s).
Proof. intros Hc Hl. apply acquire_ret; [|done]. by eapply on_cpu_wf_chip, calm_wf. Qed.

(** In a critical section the current process is still known. *)
Lemma acq_curproc l s i p : calm s i p -> curproc (acq l s) = Ret i (acq l s).
Proof.
  intros [(c & Hc & _ & _ & Hi) _ _ _]. eapply (curproc_ret _ (cpu_push c)); [|done].
  cbn. by rewrite list_lookup_alter_eq, Hc.
Qed.

(** [wakeup] called inside a critical section of another lock. *)
Lemma wakeup_nested l ch s s' i p :
  calm s i p -> l <> L_ptable -> same_locks (acq l s) s' ->
  wakeup ch s' = Ret tt (s' <| k_procs := wake (k_ticks s') ch <$> k_procs s' |>).
Proof.
  intros Hc Hl (E1 & E2 & E3). pose proof Hc as [(c & Hcpu & Hn & _) _ _ Hf].
  assert (Hcpu' : k_cpus s' !! k_cpunum s' = Some (cpu_push c)).
  { rewrite E2, E3. cbn. by rewrite list_lookup_alter_eq, Hcpu. }
  rewrite wakeup_ret.
  - f_equal. unfold after_ptable, settle.
    by rewrite (on_cpu_id _ _ _ Hcpu') by (apply cpu_settle_nested; cbn; lia).
  - exists (cpu_push c). split; [done|]. split; cbn; [lia|done].
  - destruct (Hf L_ptable I) as [nm Hnm]. exists nm. rewrite E1. cbn. by rewrite lookup_insert_ne.
Qed.

Lemma wakeup_calm ch s i p :
  calm s i p -> wakeup ch s = Ret tt (s <| k_procs := wake (k_ticks s) ch <$> k_procs s |>).
Proof.
  intros Hc. rewrite wakeup_ret; [|by eapply calm_wf|by apply Hc].
  unfold after_ptable. by rewrite (calm_settle _ _ _ Hc).
Qed.

Lemma wake_running t ch p : p_state p = RUNNING -> wake t ch p = p.
Proof. intros H. unfold wake, is_state. by rewrite bool_decide_eq_false_2 by (rewrite H; done). Qed.

Lemma wake_lookup t ch (ps : list proc) i p :
  ps !! i = Some p -> p_state p = RUNNING -> (wake t ch <$> ps) !! i = Some p.
Proof. intros Hp Hr. by rewrite list_lookup_fmap, Hp; cbn; rewrite wake_running. Qed.

(** ** Sleep locks *)

(** The owner of a sleep lock. *)
Inductive slid := SL_buf (i : nat) | SL_inode (i : nat).

Definition sl_spin (sl : slid) : lockid :=
  match sl with SL_buf i => L_buf i | SL_inode i => L_inode i end.
Definition sl_chan (sl : slid) : chan :=
  match sl with SL_buf i => CBufLock i | SL_inode i => CInodeLock i end.

Definition slookup (sl : slid) (s : kernel) : option sleeplock :=
  match sl with
  | SL_buf i => b_lock <$> k_bufs s !! i
  | SL_inode i => i_lock <$> k_inodes s !! i
  end.
Definition on_sl (sl : slid) (f : sleeplock -> sleeplock) (s : kernel) : kernel :=
  match sl with
  | SL_buf i => s <| k_bufs := alter (fun b => b <| b_lock := f (b_lock b) |>) i (k_bufs s) |>
  | SL_inode i => s <| k_inodes := alter (fun ip => ip <| i_lock := f (i_lock ip) |>) i (k_inodes s) |>
  end.

Definition getsl (sl : slid) : K sleeplock := fun s => deref "sleeplock" (slookup sl s) s.
Definition updsl (sl : slid) (f : sleeplock -> sleeplock) : K unit :=
  do! getsl sl; modify (on_sl sl f).

Definition initsleeplock (sl : slid) (name : string) : K unit :=
  do! initlock (sl_spin sl) "sleep lock";
  do! updsl sl (fun l => l <| sl_name := name |>);
  do! updsl sl (fun l => l <| sl_locked := 0 |>);
  updsl sl (fun l => l <| sl_pid := 0 |>).

(** The body of the loop of [acquiresleep]. *)
Definition acquiresleep_wait (sl : slid) : K (option unit) :=
  let! l := getsl sl in
  if negb (sl_locked l =? 0)
  then do! sleep (sl_chan sl) (Some (sl_spin sl)); ret None
  else ret (Some tt).

Definition acquiresleep {F : Fuel} (sl : slid) : K unit :=
  do! acquire (sl_spin sl);
  do! forever fuel (acquiresleep_wait sl);
  do! updsl sl (fun l => l <| sl_locked := 1 |>);
  let! cur := curproc in
  let! p := getproc cur in
  do! updsl sl (fun l => l <| sl_pid := p_pid p |>);
  release (sl_spin sl).

Definition releasesleep (sl : slid) : K unit :=
  do! acquire (sl_spin sl);
  do! updsl sl (fun l => l <| sl_locked := 0 |>);
  do! updsl sl (fun l => l <| sl_pid := 0 |>);
  do! wakeup (sl_chan sl);
  release (sl_spin sl).

Definition holdingsleep (sl : slid) : K bool :=
  do! acquire (sl_spin sl);
  let! l := getsl sl in
  do! release (sl_spin sl);
  ret (negb (sl_locked l =? 0)).

(** ** Lemmas *)

Definition taken (pid : Z) (l : sleeplock) : sleeplock := l <| sl_locked := 1 |> <| sl_pid := pid |>.
Definition dropped (l : sleeplock) : sleeplock := l <| sl_locked := 0 |> <| sl_pid := 0 |>.

(** The state after [releasesleep]: the waiting processes are runnable. *)
Definition drop_sl (sl : slid) (s : kernel) : kernel :=
  (on_sl sl dropped s) <| k_procs := wake (k_ticks s) (sl_chan sl) <$> k_procs s |>.

Lemma slookup_on_sl sl f s l : slookup sl s = Some l -> slookup sl (on_sl sl f s) = Some (f l).
Proof.
  destruct sl as [i|i]; cbn; rewrite list_lookup_alter_eq;
    [destruct (k_bufs s !! i)|destruct (k_inodes s !! i)]; cbn; congruence.
Qed.

Lemma on_sl_on_sl sl f g s : on_sl sl g (on_sl sl f s) = on_sl sl (fun l => g (f l)) s.
Proof. destruct sl; unfold on_sl; cbn; by rewrite list_alter_alter. Qed.

Lemma on_sl_thread sl f s : same_thread s (on_sl sl f s).
Proof. by destruct sl. Qed.
Lemma on_sl_procs sl f s : k_procs (on_sl sl f s) = k_procs s.
Proof. by destruct sl. Qed.
Lemma on_sl_ticks sl f s : k_ticks (on_sl sl f s) = k_ticks s.
Proof. by destruct sl. Qed.
Lemma sl_spin_ptable sl : sl_spin sl <> L_ptable.
Proof. by destruct sl. Qed.
Lemma slookup_acq sl l s : slookup sl (acq l s) = slookup sl s.
Proof. by destruct sl. Qed.

Lemma getsl_ret sl s l : slookup sl s = Some l -> getsl sl s = Ret l s.
Proof. intros H. unfold getsl. by rewrite H. Qed.
Lemma updsl_ret sl f s l : slookup sl s = Some l -> updsl sl f s = Ret tt (on_sl sl f s).
Proof. intros H. unfold updsl. by rewrite (bind_ret _ _ _ _ _ (getsl_ret _ _ _ H)). Qed.

Lemma leave_on_sl l sl f s : leave_cs s (on_sl sl f (acq l s)) = on_sl sl f s.
Proof. by destruct sl, s. Qed.

Section uncontended.
Context {F : Fuel} (sl : slid) (s : kernel) (i : nat) (p : proc) (l : sleeplock).
Hypothesis (Hcalm : calm s i p) (Hsl : slookup sl s = Some l) (Hfree : lock_free (sl_spin sl) s).

Lemma holdingsleep_calm : holdingsleep sl s = Ret (negb (sl_locked l =? 0)) s.
Proof.
  unfold holdingsleep. rewrite (bind_ret _ _ _ _ _ (acquire_calm _ _ _ _ Hcalm Hfree)).
  erewrite bind_ret by (apply getsl_ret; by rewrite slookup_acq).
  erewrite bind_ret by (by eapply release_calm).
  unfold ret. f_equal. by destruct s.
Qed.

Lemma acquiresleep_calm :
  sl_locked l = 0 -> (0 < fuel)%nat -> acquiresleep sl s = Ret tt (on_sl sl (taken (p_pid p)) s).
Proof.
  intros Hl Hfuel. unfold acquiresleep.
  rewrite (bind_ret _ _ _ _ _ (acquire_calm _ _ _ _ Hcalm Hfree)).
  destruct fuel as [|n]; [lia|]. cbn [forever].
  assert (Hg : slookup sl (acq (sl_spin sl) s) = Some l) by by rewrite slookup_acq.
  assert (Hw : acquiresleep_wait sl (acq (sl_spin sl) s) = Ret (Some tt) (acq (sl_spin sl) s)).
  { unfold acquiresleep_wait. rewrite (bind_ret _ _ _ _ _ (getsl_ret _ _ _ Hg)). by rewrite Hl. }
  erewrite bind_ret by (erewrite bind_ret by exact Hw; reflexivity).
  rewrite (bind_ret _ _ _ _ _ (updsl_ret sl _ _ _ Hg)).
  pose proof Hcalm as [(c & Hc & _ & _ & Hi) Hp _ _].
  destruct (on_sl_thread sl (fun l => l <| sl_locked := 1 |>) (acq (sl_spin sl) s)) as (E1 & E2 & E3).
  erewrite bind_ret.
  2: { eapply (curproc_ret _ (cpu_push c)); [|exact Hi]. rewrite E1, E2. cbn.
       by rewrite list_lookup_alter_eq, Hc. }
  erewrite bind_ret by (apply getproc_ret; rewrite on_sl_procs; exact Hp).
  erewrite bind_ret by (eapply updsl_ret, slookup_on_sl; exact Hg).
  rewrite on_sl_on_sl, (release_calm _ s _ i p Hcalm Hfree).
  - f_equal. apply leave_on_sl.
  - unfold same_locks. by destruct (on_sl_thread sl
      (fun l => l <| sl_locked := 1 |> <| sl_pid := p_pid p |>) (acq (sl_spin sl) s)) as (-> & -> & ->).
Qed.

Lemma releasesleep_calm : releasesleep sl s = Ret tt (drop_sl sl s).
Proof.
  unfold releasesleep. rewrite (bind_ret _ _ _ _ _ (acquire_calm _ _ _ _ Hcalm Hfree)).
  assert (Hg : slookup sl (acq (sl_spin sl) s) = Some l) by by rewrite slookup_acq.
  rewrite (bind_ret _ _ _ _ _ (updsl_ret sl _ _ _ Hg)).
  erewrite bind_ret by (eapply updsl_ret, slookup_on_sl; exact Hg).
  rewrite on_sl_on_sl. change (fun l0 : sleeplock => l0 <| sl_locked := 0 |> <| sl_pid := 0 |>) with dropped.
  assert (Hs : same_locks (acq (sl_spin sl) s) (on_sl sl dropped (acq (sl_spin sl) s))).
  { unfold same_locks. by destruct (on_sl_thread sl dropped (acq (sl_spin sl) s)) as (-> & -> & ->). }
  erewrite bind_ret by (by eapply wakeup_nested; [|apply sl_spin_ptable|]).
  rewrite (release_calm _ s _ i p Hcalm Hfree); [|exact Hs].
  f_equal. unfold drop_sl. rewrite on_sl_procs, on_sl_ticks.
  destruct Hcalm. destruct sl, s; reflexivity.
Qed.

(** A held lock makes the caller sleep on it; nothing but its own state
    changes, and the waiting process is found by [releasesleep]. *)
Lemma acquiresleep_held n :
  sl_locked l <> 0 -> fuel = S n -> (k_strategy s = 2 -> cons_ready s) ->
  exists s1 k, acquiresleep sl s = Swtch s1 k /\
    slookup sl s1 = Some l /\
    k_procs s1 !! i = Some (asleep (sl_chan sl) p) /\
    k_procs (drop_sl sl s1) !! i =
      Some ((asleep (sl_chan sl) p) <| p_state := RUNNABLE |> <| p_priority := k_ticks s1 |>).
Proof.
  intros Hl Hfuel Hcons. unfold acquiresleep.
  rewrite (bind_ret _ _ _ _ _ (acquire_calm _ _ _ _ Hcalm Hfree)). rewrite Hfuel. cbn [forever].
  pose proof Hcalm as [(c & Hc & Hn & _ & Hi) Hp Hr Hf].
  assert (Hms : may_sleep (sl_spin sl) (acq (sl_spin sl) s) (cpu_push c) i p).
  { split_and!.
    - split; [cbn; by rewrite list_lookup_alter_eq, Hc|cbn; lia|done|done|done|lia|].
      intros E. apply cons_ready_acq; [by eapply calm_wf|by destruct sl|auto].
    - destruct (acq_in_cs (sl_spin sl) s) as [Hh _]; [by eapply calm_wf|done].
    - intros Hne. destruct (Hf L_ptable I) as [nm Hnm]. exists nm. cbn. by rewrite lookup_insert_ne. }
  destruct (sleep_swtch (sl_chan sl) _ _ _ _ _ Hms) as (co & _ & _ & Hs).
  do 2 eexists. split.
  - erewrite bind_swtch; [reflexivity|]. erewrite bind_swtch; [reflexivity|].
    unfold acquiresleep_wait. rewrite (bind_ret _ _ _ _ _ (getsl_ret sl (acq (sl_spin sl) s) l Hsl)).
    rewrite (proj2 (Z.eqb_neq _ _) Hl). cbn [negb]. erewrite bind_swtch by exact Hs. reflexivity.
  - assert (Hh : handover (sl_spin sl) (acq (sl_spin sl) s)
      = rel (sl_spin sl) (acq L_ptable (acq (sl_spin sl) s))).
    { unfold handover. by rewrite decide_False by apply sl_spin_ptable. }
    rewrite Hh. split_and!; [by destruct sl| |].
    + cbn. by rewrite list_lookup_alter_eq, Hp.
    + cbn. rewrite list_lookup_fmap, list_lookup_alter_eq, Hp. cbn. unfold wake, is_state. cbn.
      by rewrite !bool_decide_eq_true_2.
Qed.
End uncontended.
