(* ===== verification/Bio.v ===== *)
(** * bio.c: the buffer cache

    Buffers are the indices below [NBUF]; the index [NBUF] is the list head
    [bcache.head].  The disk driver below the cache is the interface
    [BlockDev]: [iderw] of ide.c or of memide.c. *)

From S2P Require Import Prelude State Monad Mem Spinlock Sample ConsoleOut Kalloc Vm Sched SleepWake Sleeplock.

(** ** Buffers *)

Definition getbuf (b : nat) : K buf := fun s => deref "buf" (k_bufs s !! b) s.
Definition on_buf (b : nat) (f : buf -> buf) (s : kernel) : kernel :=
  s <| k_bufs := alter f b (k_bufs s) |>.
Definition updbuf (b : nat) (f : buf -> buf) : K unit := do! getbuf b; modify (on_buf b f).

Lemma getbuf_ret s b bf : k_bufs s !! b = Some bf -> getbuf b s = Ret bf s.
Proof. intros H. unfold getbuf. by rewrite H. Qed.

Lemma updbuf_ret s b bf f : k_bufs s !! b = Some bf -> updbuf b f s = Ret tt (on_buf b f s).
Proof. intros H. unfold updbuf, getbuf, bind. by rewrite H. Qed.

(** [b->next] and [b->prev], where [b] can be the list head. *)
Definition bcache_head : nat := NBUF.
Definition bnext (b : nat) : K nat :=
  if bool_decide (b = bcache_head) then gets (fun s => snd (k_bhead s))
  else let! bf := getbuf b in ret (b_next bf).
Definition bprev (b : nat) : K nat :=
  if bool_decide (b = bcache_head) then gets (fun s => fst (k_bhead s))
  else let! bf := getbuf b in ret (b_prev bf).
Definition set_bnext (b v : nat) : K unit :=
  if bool_decide (b = bcache_head) then modify (fun s => s <| k_bhead := (fst (k_bhead s), v) |>)
  else updbuf b (fun bf => bf <| b_next := v |>).
Definition set_bprev (b v : nat) : K unit :=
  if bool_decide (b = bcache_head) then modify (fun s => s <| k_bhead := (v, snd (k_bhead s)) |>)
  else updbuf b (fun bf => bf <| b_prev := v |>).

(** Insert [b] at the front of the list. *)
Definition bpush (b : nat) : K unit :=
  let! first := bnext bcache_head in
  do! set_bnext b first;
  do! set_bprev b bcache_head;
  let! first := bnext bcache_head in
  do! set_bprev first b;
  set_bnext bcache_head b.

(** Move [b] to the front of the list, as [brelse] does. *)
Definition bfront (b : nat) : K unit :=
  let! next := bnext b in
  let! prev := bprev b in
  do! set_bprev next prev;
  let! prev := bprev b in
  let! next := bnext b in
  do! set_bnext prev next;
  bpush b.

Definition binit : K unit :=
  do! initlock L_bcache "bcache";
  do! set_bprev bcache_head bcache_head;
  do! set_bnext bcache_head bcache_head;
  for_each (seq 0 NBUF) (fun b =>
    let! first := bnext bcache_head in
    do! set_bnext b first;
    do! set_bprev b bcache_head;
    do! initsleeplock (SL_buf b) "buffer";
    let! first := bnext bcache_head in
    do! set_bprev first b;
    set_bnext bcache_head b).

(** The walk of [bget] along the list from [b], up to the head; [n] bounds the
    number of buffers it visits. *)
Fixpoint bscan (n : nat) (step : nat -> K nat) (test : buf -> bool) (b : nat) : K (option nat) :=
  if bool_decide (b = bcache_head) then ret None
  else match n with
  | O => fail FFuel
  | S n' =>
      let! bf := getbuf b in
      if test bf then ret (Some b)
      else let! b' := step b in bscan n' step test b'
  end.

Definition caches (dev blockno : Z) (bf : buf) : bool :=
  (b_dev bf =? dev) && (b_blockno bf =? blockno).
Definition recyclable (bf : buf) : bool :=
  (b_refcnt bf =? 0) && (Z.land (b_flags bf) B_DIRTY =? 0).

(** The driver: [iderw] brings a buffer and the disk in step, for the blocks
    [blk_ok] that the device has. *)
Class BlockDev := {
  iderw : nat -> K unit;
  blk_ok : Z -> Z -> bool
}.

Section bio.
Context {F : Fuel}.

Definition bget (dev blockno : Z) : K nat :=
  do! acquire L_bcache;
  let! b := bnext bcache_head in
  let! r := bscan NBUF bnext (caches dev blockno) b in
  match r with
  | Some b =>
      do! updbuf b (fun bf => bf <| b_refcnt := b_refcnt bf +u 1 |>);
      do! release L_bcache;
      do! acquiresleep (SL_buf b);
      ret b
  | None =>
      let! b := bprev bcache_head in
      let! r := bscan NBUF bprev recyclable b in
      match r with
      | Some b =>
          do! updbuf b (fun bf => bf <| b_dev := dev |>);
          do! updbuf b (fun bf => bf <| b_blockno := blockno |>);
          do! updbuf b (fun bf => bf <| b_flags := 0 |>);
          do! updbuf b (fun bf => bf <| b_refcnt := 1 |>);
          do! release L_bcache;
          do! acquiresleep (SL_buf b);
          ret b
      | None => panic "bget: no buffers"
      end
  end.

Context {D : BlockDev}.

Definition bread (dev blockno : Z) : K nat :=
  let! b := bget dev blockno in
  let! bf := getbuf b in
  do! when (Z.land (b_flags bf) B_VALID =? 0) (iderw b);
  ret b.

Definition bwrite (b : nat) : K unit :=
  let! h := holdingsleep (SL_buf b) in
  if negb h then panic "bwrite"
  else
    do! updbuf b (fun bf => bf <| b_flags := Z.lor (b_flags bf) B_DIRTY |>);
    iderw b.

Definition brelse (b : nat) : K unit :=
  let! h := holdingsleep (SL_buf b) in
  if negb h then panic "brelse"
  else
    do! releasesleep (SL_buf b);
    do! acquire L_bcache;
    do! updbuf b (fun bf => bf <| b_refcnt := b_refcnt bf -u 1 |>);
    let! bf := getbuf b in
    do! when (b_refcnt bf =? 0) (bfront b);
    release L_bcache.
End bio.

(** ** What a driver promises *)

Definition disk_block (s : kernel) (dev blockno : Z) : list Z :=
  default (replicate (Z.to_nat BSIZE) 0) (k_disk s !! (dev, blockno)).

Definition valid (bf : buf) : bool := negb (Z.land (b_flags bf) B_VALID =? 0).
Definition dirty (bf : buf) : bool := negb (Z.land (b_flags bf) B_DIRTY =? 0).

Definition disk_write (dev blockno : Z) (data : list Z) (s : kernel) : kernel :=
  s <| k_disk := <[(dev, blockno) := data]> (k_disk s) |>
    <| k_writes := k_writes s ++ [(dev, blockno, data)] |>.

(** The effect of a request: a dirty buffer goes to the disk, another one is
    filled from it; the buffer is valid and clean. *)
Definition sync (b : nat) (bf : buf) (s : kernel) : kernel :=
  if dirty bf
  then on_buf b (fun x => x <| b_flags := Z.lor (Z.land (b_flags x) (Z.lnot B_DIRTY)) B_VALID |>)
         (disk_write (b_dev bf) (b_blockno bf) (b_data bf) s)
  else on_buf b (fun x => x <| b_data := disk_block s (b_dev bf) (b_blockno bf) |>
         <| b_flags := Z.lor (b_flags x) B_VALID |>) s.

(** The buffer [b] may be given to [iderw]. *)
Record request {D : BlockDev} (s : kernel) (b : nat) (bf : buf) : Prop := {
  rq_buf : k_bufs s !! b = Some bf;
  rq_lock : lock_free (L_buf b) s;
  rq_locked : sl_locked (b_lock bf) <> 0;
  rq_todo : dirty bf = true \/ valid bf = false;
  rq_ok : blk_ok (b_dev bf) (b_blockno bf) = true
}.

(** A driver that serves a request before it returns. *)
Class SyncDev (D : BlockDev) : Prop :=
  iderw_sync : forall s i p b bf, calm s i p -> request s b bf -> iderw b s = Ret tt (sync b bf s).

Lemma valid_bit bf : valid bf = Z.testbit (b_flags bf) 1.
Proof. exact (land_flag (b_flags bf) 1 ltac:(lia)). Qed.
Lemma dirty_bit bf : dirty bf = Z.testbit (b_flags bf) 2.
Proof. exact (land_flag (b_flags bf) 2 ltac:(lia)). Qed.
