(* ===== verification/Memide.v ===== *)
(** * memide.c: a disk in memory

    The image is the symbol [_binary_fs_img_start]; its size is a parameter.
    The blocks of device 1 are in [k_disk]. *)

From S2P Require Import Prelude State Monad Mem Spinlock Sample ConsoleOut Kalloc Vm Sched SleepWake Sleeplock.
From S2P Require Import Bio.

(** [_binary_fs_img_size], in bytes. *)
Class FsImage := fs_img_size : Z.

Section memide.
Context {I : FsImage}.

Definition disksize : Z := u32 fs_img_size / BSIZE.

Definition memide_rw (b : nat) : K unit :=
  let! h := holdingsleep (SL_buf b) in
  if negb h then panic "iderw: buf not locked"
  else
    let! bf := getbuf b in
    if Z.land (b_flags bf) (Z.lor B_VALID B_DIRTY) =? B_VALID then panic "iderw: nothing to do"
    else if negb (b_dev bf =? 1) then panic "iderw: request not for disk 1"
    else if disksize <=? b_blockno bf then panic "iderw: block out of range"
    else
      do! (if negb (Z.land (b_flags bf) B_DIRTY =? 0) then
        do! updbuf b (fun bf => bf <| b_flags := Z.land (b_flags bf) (Z.lnot B_DIRTY) |>);
        modify (disk_write 1 (b_blockno bf) (b_data bf))
      else
        let! data := gets (fun s => disk_block s 1 (b_blockno bf)) in
        updbuf b (fun bf => bf <| b_data := data |>));
      updbuf b (fun bf => bf <| b_flags := Z.lor (b_flags bf) B_VALID |>).

#[export] Instance memide : BlockDev := {|
  iderw := memide_rw;
  blk_ok dev blockno := (dev =? 1) && (blockno <? disksize)
|}.
End memide.

(** ** memide.c is a synchronous block device *)

Lemma flags_todo bf :
  dirty bf = true \/ valid bf = false ->
  Z.land (b_flags bf) (Z.lor B_VALID B_DIRTY) <> B_VALID.
Proof.
  rewrite valid_bit, dirty_bit. intros H E.
  pose proof (testbit_inj_eq _ _ 1 E) as E1. pose proof (testbit_inj_eq _ _ 2 E) as E2.
  rewrite Z.land_spec in E1, E2. destruct H as [H|H]; rewrite H in *; done.
Qed.

Lemma memide_sync {I : FsImage} : SyncDev memide.
Proof.
  intros s i p b bf Hc [Hb Hl Hlk Htodo Hok]. cbn in Hok.
  apply andb_true_iff in Hok as [Hdev%Z.eqb_eq Hbn%Z.ltb_lt].
  unfold iderw, memide, memide_rw.
  assert (Hsl : slookup (SL_buf b) s = Some (b_lock bf)) by (cbn; by rewrite Hb).
  rewrite (bind_ret _ _ _ _ _ (holdingsleep_calm (SL_buf b) s i p _ Hc Hsl Hl)).
  rewrite (proj2 (Z.eqb_neq _ _) Hlk). cbn [negb].
  erewrite bind_ret by (apply getbuf_ret; exact Hb).
  rewrite (proj2 (Z.eqb_neq _ _) (flags_todo _ Htodo)), Hdev, (proj2 (Z.leb_gt _ _) Hbn).
  cbn [Z.eqb Pos.eqb negb]. fold (dirty bf). unfold sync. rewrite Hdev. destruct (dirty bf).
  - erewrite bind_ret; [|erewrite bind_ret by (eapply updbuf_ret; exact Hb); reflexivity].
    erewrite updbuf_ret; [|cbn; rewrite list_lookup_alter_eq, Hb; reflexivity].
    f_equal. unfold on_buf, disk_write. cbn. by rewrite list_alter_alter.
  - erewrite bind_ret; [|kget; eapply updbuf_ret; exact Hb].
    erewrite updbuf_ret; [|cbn; rewrite list_lookup_alter_eq, Hb; reflexivity].
    f_equal. unfold on_buf. cbn. by rewrite list_alter_alter.
Qed.
