(* ===== verification/BioFacts.v ===== *)
(** * The buffer cache: lemmas

    The LRU ring of bio.c as a list, the invariant of the cache, and what
    [bread], [bwrite] and [brelse] do for a process that is not made to wait. *)

From stdpp Require Import functions.
From S2P Require Import Prelude State Monad Mem Spinlock Sample ConsoleOut Kalloc Vm Sched SleepWake Sleeplock.
From S2P Require Import Bio.

(** ** Doubly linked lists

    The ring of [bcache]: [nx] and [pv] are the fields [next] and [prev] as
    functions of the node. *)

Section dll.
Implicit Types (nx pv : nat -> nat) (l : list nat).

(** From [a] through the nodes [l] to [z], forwards by [nx] and backwards by
    [pv]. *)
Fixpoint dll nx pv (a : nat) l (z : nat) : Prop :=
  match l with
  | [] => nx a = z /\ pv z = a
  | b :: l' => nx a = b /\ pv b = a /\ dll nx pv b l' z
  end.

Lemma dll_app nx pv a l1 b l2 z :
  dll nx pv a (l1 ++ b :: l2) z <-> dll nx pv a l1 b /\ dll nx pv b l2 z.
Proof.
  revert a. induction l1 as [|c l1 IH]; intros a; simpl; [tauto|]. rewrite IH. tauto.
Qed.

Lemma dll_hd nx pv a l z : dll nx pv a l z -> nx a = default z (head l).
Proof. destruct l; simpl; tauto. Qed.

Lemma dll_last nx pv a l z : dll nx pv a l z -> pv z = default a (last l).
Proof.
  revert a. induction l as [|b l IH]; intros a; simpl; [tauto|].
  intros (_ & _ & H). rewrite (IH b H). destruct l; [done|].
  rewrite last_cons_cons. destruct (last (n :: l)) eqn:E; [done|].
  by apply last_None in E.
Qed.

Lemma dll_rev nx pv a l z : dll nx pv a l z -> dll pv nx z (reverse l) a.
Proof.
  revert a. induction l as [|b l IH]; intros a; cbn [dll].
  - rewrite reverse_nil. simpl. tauto.
  - intros (H1 & H2 & H3). rewrite reverse_cons. apply dll_app. split; [by apply IH|done].
Qed.

(** Only the links of the nodes in between matter. *)
Lemma dll_agree nx pv nx' pv' a l z :
  (forall b, b = a \/ b ∈ l -> nx' b = nx b) -> (forall b, b ∈ l \/ b = z -> pv' b = pv b) ->
  dll nx pv a l z -> dll nx' pv' a l z.
Proof.
  revert a. induction l as [|b l IH]; intros a Hn Hp; simpl.
  - intros [H1 H2]. rewrite Hn, Hp by auto. done.
  - intros (H1 & H2 & H3).
    rewrite Hn by auto. rewrite Hp by (left; constructor). split_and!; [done|done|].
    apply IH; [| |done].
    + intros c [ ->|Hc]; apply Hn; right; by constructor.
    + intros c [Hc| ->]; apply Hp; [left; by constructor|by right].
Qed.

(** Turn the end of a segment to another node. *)
Lemma dll_relink nx pv a l z z' :
  NoDup (a :: l) -> z' ∉ l -> dll nx pv a l z ->
  dll (<[pv z := z']> nx) (<[z' := pv z]> pv) a l z'.
Proof.
  revert a. induction l as [|b l IH]; intros a Hnd Hz H; simpl in *.
  - destruct H as [H1 ->]. by rewrite !fn_lookup_insert.
  - destruct H as (H1 & H2 & H3). apply NoDup_cons in Hnd as [Ha Hnd].
    assert (Hpz : pv z <> a).
    { rewrite (dll_last _ _ _ _ _ H3). intros E. apply Ha. rewrite <- E.
      destruct (last l) as [c|] eqn:El; simpl; [|constructor].
      constructor. by apply last_Some_elem_of. }
    rewrite fn_lookup_insert_ne by done. rewrite fn_lookup_insert_ne by set_solver.
    split_and!; [done|done|]. apply IH; [done|set_solver|done].
Qed.

(** Unlinking [b]: [b->next->prev = b->prev; b->prev->next = b->next]. *)
Lemma dll_remove nx pv h l1 b l2 :
  NoDup (h :: l1 ++ b :: l2) -> dll nx pv h (l1 ++ b :: l2) h ->
  dll (<[pv b := nx b]> nx) (<[nx b := pv b]> pv) h (l1 ++ l2) h.
Proof.
  intros Hnd [H1 H2]%dll_app.
  assert (Hnd1 : NoDup (h :: l1)).
  { apply NoDup_cons in Hnd as [Hh Hnd]. apply NoDup_app in Hnd as (Hl1 & _ & _).
    apply NoDup_cons. set_solver. }
  apply NoDup_cons in Hnd as [Hh Hnd]. apply NoDup_app in Hnd as (_ & Hdisj & Hnd2).
  apply NoDup_cons in Hnd2 as [Hb Hnd2].
  destruct l2 as [|c l2]; simpl in H2.
  - destruct H2 as [-> H2]. rewrite app_nil_r. apply dll_relink; [done|set_solver|done].
  - destruct H2 as (-> & H3 & H4). apply NoDup_cons in Hnd2 as [Hc Hnd2]. apply dll_app. split.
    + apply dll_relink; [done| |done]. intros Hin. apply (Hdisj c Hin). set_solver.
    + assert (Hpb : pv b = h \/ pv b ∈ l1).
      { rewrite (dll_last _ _ _ _ _ H1). destruct (last l1) as [d|] eqn:E; simpl; [|by left].
        right. by apply last_Some_elem_of. }
      eapply dll_agree; [| |exact H4].
      * intros d Hd. apply fn_lookup_insert_ne. intros E.
        destruct Hpb as [Hpb|Hpb]; rewrite E in Hpb;
          (destruct Hd as [ ->|Hd]; [subst; set_solver|]); [set_solver|].
        apply (Hdisj d Hpb). set_solver.
      * intros d Hd. apply fn_lookup_insert_ne. intros <-. destruct Hd as [Hd| ->]; [done|].
        set_solver.
Qed.

(** Linking [b] in behind the head. *)
Lemma dll_push nx pv h b l :
  NoDup (h :: b :: l) -> dll nx pv h l h ->
  dll (<[h := b]> (<[b := nx h]> nx)) (<[nx h := b]> (<[b := h]> pv)) h (b :: l) h.
Proof.
  intros Hnd H. apply NoDup_cons in Hnd as [Hh Hnd]. apply NoDup_cons in Hnd as [Hb Hnd].
  assert (Hhb : h <> b) by set_solver. simpl. rewrite fn_lookup_insert.
  destruct l as [|c l]; simpl in *.
  - destruct H as [-> H]. rewrite fn_lookup_insert_ne by done.
    rewrite !fn_lookup_insert. rewrite fn_lookup_insert_ne by done.
    by rewrite !fn_lookup_insert.
  - destruct H as (-> & H1 & H2). apply NoDup_cons in Hnd as [Hc Hnd].
    rewrite fn_lookup_insert_ne by set_solver. rewrite !fn_lookup_insert.
    rewrite fn_lookup_insert_ne by done. rewrite !fn_lookup_insert.
    split_and!; [done|done|done|done|].
    eapply dll_agree; [| |exact H2].
    + intros d Hd. rewrite !fn_lookup_insert_ne; [done|set_solver..].
    + intros d Hd. rewrite !fn_lookup_insert_ne; [done|set_solver..].
Qed.
End dll.

(** ** The links *)

Definition nx (s : kernel) (b : nat) : nat :=
  if decide (b = bcache_head) then snd (k_bhead s) else default 0%nat (b_next <$> k_bufs s !! b).
Definition pv (s : kernel) (b : nat) : nat :=
  if decide (b = bcache_head) then fst (k_bhead s) else default 0%nat (b_prev <$> k_bufs s !! b).

(** A buffer without its links. *)
Definition core (bf : buf) : buf := bf <| b_prev := 0%nat |> <| b_next := 0%nat |>.

(** [s'] is [s] with other links. *)
Definition relinked (s s' : kernel) : Prop :=
  s' = s <| k_bufs := k_bufs s' |> <| k_bhead := k_bhead s' |> /\
  core <$> k_bufs s' = core <$> k_bufs s.

Lemma relinked_refl s : relinked s s.
Proof. split; [by destruct s|done]. Qed.
Lemma relinked_trans s1 s2 s3 : relinked s1 s2 -> relinked s2 s3 -> relinked s1 s3.
Proof. intros [E1 H1] [E2 H2]. split; [|congruence]. rewrite E2, E1. done. Qed.

Lemma relinked_length s s' : relinked s s' -> length (k_bufs s') = length (k_bufs s).
Proof. intros [_ H%(f_equal length)]. by rewrite !length_fmap in H. Qed.

Lemma relinked_lookup s s' b bf :
  relinked s s' -> k_bufs s !! b = Some bf ->
  exists bf', k_bufs s' !! b = Some bf' /\ core bf' = core bf.
Proof.
  intros [_ H] Hb. assert (E : (core <$> k_bufs s') !! b = (core <$> k_bufs s) !! b) by by rewrite H.
  rewrite !list_lookup_fmap, Hb in E. destruct (k_bufs s' !! b) as [bf'|]; [|done].
  apply (inj Some) in E. eauto.
Qed.

Section links.
Context (s : kernel) (Hlen : length (k_bufs s) = NBUF).

Lemma buf_lookup b : (b < NBUF)%nat -> exists bf, k_bufs s !! b = Some bf.
Proof. intros H. apply lookup_lt_is_Some. by rewrite Hlen. Qed.

Lemma bnext_ret b : (b <= NBUF)%nat -> bnext b s = Ret (nx s b) s.
Proof.
  intros Hb. unfold bnext, nx. case_decide as E; [by rewrite bool_decide_eq_true_2|].
  rewrite bool_decide_eq_false_2 by done. destruct (buf_lookup b) as [bf Hbf].
  { unfold bcache_head in E. lia. }
  unfold getbuf, bind. by rewrite Hbf.
Qed.

Lemma bprev_ret b : (b <= NBUF)%nat -> bprev b s = Ret (pv s b) s.
Proof.
  intros Hb. unfold bprev, pv. case_decide as E; [by rewrite bool_decide_eq_true_2|].
  rewrite bool_decide_eq_false_2 by done. destruct (buf_lookup b) as [bf Hbf].
  { unfold bcache_head in E. lia. }
  unfold getbuf, bind. by rewrite Hbf.
Qed.

Lemma on_buf_relinked b f :
  (forall bf, core (f bf) = core bf) -> relinked s (on_buf b f s).
Proof.
  intros Hf. split; [by destruct s|]. cbn. apply list_eq. intros j. rewrite !list_lookup_fmap.
  destruct (decide (b = j)) as [<-|Hj]; [|by rewrite list_lookup_alter_ne].
  rewrite list_lookup_alter_eq. destruct (k_bufs s !! b); cbn; [by rewrite Hf|done].
Qed.

Lemma set_bnext_ret b v :
  (b <= NBUF)%nat ->
  exists s', set_bnext b v s = Ret tt s' /\ relinked s s' /\
    (forall c, nx s' c = <[b := v]> (nx s) c) /\ (forall c, pv s' c = pv s c).
Proof.
  intros Hb. unfold set_bnext. case_bool_decide as E.
  - eexists. split_and!; [reflexivity|split; [by destruct s|done]| |done].
    intros c. unfold nx. subst b. destruct (decide (c = bcache_head)) as [->|Hc].
    + by rewrite fn_lookup_insert.
    + rewrite fn_lookup_insert_ne by done. by rewrite decide_False.
  - destruct (buf_lookup b) as [bf Hbf]; [unfold bcache_head in E; lia|].
    eexists. split_and!; [by eapply updbuf_ret|by apply on_buf_relinked| |].
    + intros c. unfold nx. destruct (decide (b = c)) as [<-|Hc].
      * rewrite fn_lookup_insert, decide_False by done. cbn. by rewrite list_lookup_alter_eq, Hbf.
      * rewrite fn_lookup_insert_ne by done. cbn. by rewrite list_lookup_alter_ne.
    + intros c. unfold pv. cbn. case_decide; [done|]. destruct (decide (b = c)) as [<-|Hc].
      * by rewrite list_lookup_alter_eq, Hbf.
      * by rewrite list_lookup_alter_ne.
Qed.

Lemma set_bprev_ret b v :
  (b <= NBUF)%nat ->
  exists s', set_bprev b v s = Ret tt s' /\ relinked s s' /\
    (forall c, nx s' c = nx s c) /\ (forall c, pv s' c = <[b := v]> (pv s) c).
Proof.
  intros Hb. unfold set_bprev. case_bool_decide as E.
  - eexists. split_and!; [reflexivity|split; [by destruct s|done]|done|].
    intros c. unfold pv. subst b. destruct (decide (c = bcache_head)) as [->|Hc].
    + by rewrite fn_lookup_insert.
    + rewrite fn_lookup_insert_ne by done. by rewrite decide_False.
  - destruct (buf_lookup b) as [bf Hbf]; [unfold bcache_head in E; lia|].
    eexists. split_and!; [by eapply updbuf_ret|by apply on_buf_relinked| |].
    + intros c. unfold nx. cbn. case_decide; [done|]. destruct (decide (b = c)) as [<-|Hc].
      * by rewrite list_lookup_alter_eq, Hbf.
      * by rewrite list_lookup_alter_ne.
    + intros c. unfold pv. destruct (decide (b = c)) as [<-|Hc].
      * rewrite fn_lookup_insert, decide_False by done. cbn. by rewrite list_lookup_alter_eq, Hbf.
      * rewrite fn_lookup_insert_ne by done. cbn. by rewrite list_lookup_alter_ne.
Qed.
End links.

(** ** The ring *)

(** [l] lists the buffers from the most to the least recently used. *)
Definition ring (l : list nat) (s : kernel) : Prop :=
  dll (nx s) (pv s) bcache_head l bcache_head /\ l ≡ₚ seq 0 NBUF /\ length (k_bufs s) = NBUF.

Lemma ring_elem l s b : ring l s -> b ∈ l <-> (b < NBUF)%nat.
Proof. intros (_ & Hp & _). rewrite Hp, elem_of_seq. lia. Qed.

Lemma ring_nodup l s : ring l s -> NoDup (bcache_head :: l).
Proof.
  intros H. apply NoDup_cons. split.
  - intros Hin. apply (ring_elem _ _ _ H) in Hin. unfold bcache_head in Hin. lia.
  - destruct H as (_ & -> & _). apply NoDup_seq.
Qed.

Lemma ring_length l s : ring l s -> length l = NBUF.
Proof. intros (_ & Hp & _). by rewrite Hp, length_seq. Qed.

(** The first buffer of a list that passes a test. *)
Definition btest (test : buf -> bool) (s : kernel) (b : nat) : bool :=
  match k_bufs s !! b with Some bf => test bf | None => false end.
Fixpoint bfirst (test : buf -> bool) (s : kernel) (l : list nat) : option nat :=
  match l with
  | [] => None
  | b :: l' => if btest test s b then Some b else bfirst test s l'
  end.

Lemma bfirst_Some test s l b :
  bfirst test s l = Some b -> b ∈ l /\ exists bf, k_bufs s !! b = Some bf /\ test bf = true.
Proof.
  induction l as [|c l IH]; simpl; [done|]. destruct (btest test s c) eqn:E.
  - intros [= <-]. split; [constructor|]. revert E. unfold btest.
    destruct (k_bufs s !! c) as [bf|]; [eauto|done].
  - intros H. destruct (IH H). split; [by constructor|done].
Qed.

Lemma bfirst_None test s l :
  bfirst test s l = None -> forall b bf, b ∈ l -> k_bufs s !! b = Some bf -> test bf = false.
Proof.
  induction l as [|c l IH]; simpl; [intros _ ? ? []%elem_of_nil|].
  destruct (btest test s c) eqn:E; [done|]. intros H b bf [->|Hb]%elem_of_cons Hbf; [|eauto].
  unfold btest in E. by rewrite Hbf in E.
Qed.

Lemma bscan_bfirst step f g test n a l s :
  (forall b, (b < NBUF)%nat -> step b s = Ret (f b) s) -> length (k_bufs s) = NBUF ->
  dll f g a l bcache_head -> (forall b, b ∈ l -> (b < NBUF)%nat) -> (length l <= n)%nat ->
  bscan n step test (f a) s = Ret (bfirst test s l) s.
Proof.
  intros Hstep Hlen. revert n a. induction l as [|b l IH]; intros n a Hd Hl Hn; simpl in Hd.
  - destruct Hd as [-> _]. by destruct n.
  - destruct Hd as (-> & _ & Hd). destruct n as [|n]; [simpl in Hn; lia|]. cbn [bscan bfirst].
    assert (Hb : (b < NBUF)%nat) by (apply Hl; constructor).
    rewrite bool_decide_eq_false_2 by (unfold bcache_head; lia).
    destruct (buf_lookup s Hlen b Hb) as [bf Hbf]. unfold btest.
    rewrite (bind_ret _ _ _ _ _ (getbuf_ret _ _ _ Hbf)), Hbf.
    destruct (test bf); [done|]. rewrite (bind_ret _ _ _ _ _ (Hstep b Hb)).
    apply IH; [done| |simpl in Hn; lia]. intros c Hc. apply Hl. by constructor.
Qed.

Lemma bscan_forward test l s :
  ring l s -> bscan NBUF bnext test (nx s bcache_head) s = Ret (bfirst test s l) s.
Proof.
  intros Hr. pose proof Hr as (Hd & Hp & Hlen). eapply bscan_bfirst; [|done|exact Hd| |].
  - intros b Hb. apply bnext_ret; [done|lia].
  - intros b Hb. by apply (ring_elem _ _ _ Hr).
  - by rewrite (ring_length _ _ Hr).
Qed.

Lemma bscan_backward test l s :
  ring l s -> bscan NBUF bprev test (pv s bcache_head) s = Ret (bfirst test s (reverse l)) s.
Proof.
  intros Hr. pose proof Hr as (Hd & Hp & Hlen). eapply bscan_bfirst; [|done|exact (dll_rev _ _ _ _ _ Hd)| |].
  - intros b Hb. apply bprev_ret; [done|lia].
  - intros b Hb. rewrite elem_of_reverse in Hb. by apply (ring_elem _ _ _ Hr).
  - by rewrite length_reverse, (ring_length _ _ Hr).
Qed.

(** A change of the buffers that leaves the links alone. *)
Lemma ring_same l s s' :
  ring l s -> (forall b, nx s' b = nx s b) -> (forall b, pv s' b = pv s b) ->
  length (k_bufs s') = length (k_bufs s) -> ring l s'.
Proof.
  intros (Hd & Hp & Hlen) Hn Hv Hl. split_and!; [|done|congruence].
  eapply dll_agree; [| |exact Hd]; auto.
Qed.

Lemma dll_ext nx pv nx' pv' a l z :
  (forall b, nx' b = nx b) -> (forall b, pv' b = pv b) -> dll nx pv a l z -> dll nx' pv' a l z.
Proof. intros. eapply dll_agree; eauto. Qed.

Lemma fn_insert_ext {A} (f g : nat -> A) a x b : f b = g b -> <[a := x]> f b = <[a := x]> g b.
Proof. intros H. unfold insert, fn_insert. by case_decide. Qed.

Lemma bpush_ret b l s :
  dll (nx s) (pv s) bcache_head l bcache_head -> length (k_bufs s) = NBUF ->
  NoDup (bcache_head :: b :: l) -> (forall c, c ∈ b :: l -> (c < NBUF)%nat) ->
  exists s', bpush b s = Ret tt s' /\ relinked s s' /\
    dll (nx s') (pv s') bcache_head (b :: l) bcache_head.
Proof.
  intros Hd Hlen Hnd Hl. assert (Hb : (b < NBUF)%nat) by (apply Hl; constructor).
  assert (Hbh : b <> bcache_head) by (unfold bcache_head; lia).
  unfold bpush. rewrite (bind_ret _ _ _ _ _ (bnext_ret s Hlen bcache_head ltac:(unfold bcache_head; lia))).
  destruct (set_bnext_ret s Hlen b (nx s bcache_head) ltac:(lia)) as (s1 & E1 & R1 & N1 & P1).
  rewrite (bind_ret _ _ _ _ _ E1). pose proof (relinked_length _ _ R1) as L1. rewrite Hlen in L1.
  destruct (set_bprev_ret s1 L1 b bcache_head ltac:(lia)) as (s2 & E2 & R2 & N2 & P2).
  rewrite (bind_ret _ _ _ _ _ E2). pose proof (relinked_length _ _ R2) as L2. rewrite L1 in L2.
  rewrite (bind_ret _ _ _ _ _ (bnext_ret s2 L2 bcache_head ltac:(unfold bcache_head; lia))).
  assert (Hfirst : nx s2 bcache_head = nx s bcache_head).
  { rewrite N2, N1. by rewrite fn_lookup_insert_ne. }
  assert (Hfb : (nx s bcache_head <= NBUF)%nat).
  { rewrite (dll_hd _ _ _ _ _ Hd). destruct l as [|c l]; cbn; [unfold bcache_head; lia|].
    assert (c < NBUF)%nat by (apply Hl; do 2 constructor). lia. }
  rewrite Hfirst. destruct (set_bprev_ret s2 L2 (nx s bcache_head) b Hfb) as (s3 & E3 & R3 & N3 & P3).
  rewrite (bind_ret _ _ _ _ _ E3). pose proof (relinked_length _ _ R3) as L3. rewrite L2 in L3.
  destruct (set_bnext_ret s3 L3 bcache_head b ltac:(unfold bcache_head; lia)) as (s4 & E4 & R4 & N4 & P4).
  exists s4. split_and!; [exact E4|by do 3 (eapply relinked_trans; [eassumption|])|].
  eapply dll_ext; [| |exact (dll_push _ _ _ b l Hnd Hd)].
  - intros c. rewrite N4. apply fn_insert_ext. rewrite N3, N2, N1. done.
  - intros c. rewrite P4, P3. apply fn_insert_ext. rewrite P2. apply fn_insert_ext. apply P1.
Qed.

Lemma bfront_ret b l1 l2 s :
  ring (l1 ++ b :: l2) s ->
  exists s', bfront b s = Ret tt s' /\ relinked s s' /\ ring (b :: l1 ++ l2) s'.
Proof.
  intros Hr. pose proof Hr as (Hd & Hp & Hlen). pose proof (ring_nodup _ _ Hr) as Hnd.
  assert (Hl : forall c, c ∈ l1 ++ b :: l2 -> (c < NBUF)%nat) by (intros; by apply (ring_elem _ _ _ Hr)).
  assert (Hb : (b < NBUF)%nat) by (apply Hl; set_solver).
  assert (Hnb : (nx s b <= NBUF)%nat /\ nx s b <> b).
  { apply dll_app in Hd as [_ Hd]. rewrite (dll_hd _ _ _ _ _ Hd). destruct l2 as [|c l2]; cbn.
    - unfold bcache_head. lia.
    - assert (c < NBUF)%nat by (apply Hl; set_solver). split; [lia|]. intros ->.
      apply NoDup_cons in Hnd as [_ Hnd]. apply NoDup_app in Hnd as (_ & _ & Hnd).
      apply NoDup_cons in Hnd as [Hnd _]. set_solver. }
  assert (Hpb : (pv s b <= NBUF)%nat /\ pv s b <> b).
  { apply dll_app in Hd as [Hd _]. rewrite (dll_last _ _ _ _ _ Hd).
    destruct (last l1) as [c|] eqn:E; cbn; [|unfold bcache_head; lia].
    apply last_Some_elem_of in E. assert (c < NBUF)%nat by (apply Hl; set_solver). split; [lia|].
    intros ->. apply NoDup_cons in Hnd as [_ Hnd]. apply NoDup_app in Hnd as (_ & Hnd & _).
    apply (Hnd b E). constructor. }
  destruct Hnb as [Hnb Hnb'], Hpb as [Hpb Hpb']. unfold bfront.
  rewrite (bind_ret _ _ _ _ _ (bnext_ret s Hlen b ltac:(lia))).
  rewrite (bind_ret _ _ _ _ _ (bprev_ret s Hlen b ltac:(lia))).
  destruct (set_bprev_ret s Hlen (nx s b) (pv s b) Hnb) as (s1 & E1 & R1 & N1 & P1).
  rewrite (bind_ret _ _ _ _ _ E1). pose proof (relinked_length _ _ R1) as L1. rewrite Hlen in L1.
  rewrite (bind_ret _ _ _ _ _ (bprev_ret s1 L1 b ltac:(lia))).
  rewrite (bind_ret _ _ _ _ _ (bnext_ret s1 L1 b ltac:(lia))).
  rewrite P1, fn_lookup_insert_ne, N1 by done.
  destruct (set_bnext_ret s1 L1 (pv s b) (nx s b) Hpb) as (s2 & E2 & R2 & N2 & P2).
  rewrite (bind_ret _ _ _ _ _ E2). pose proof (relinked_length _ _ R2) as L2. rewrite L1 in L2.
  assert (Hnd' : NoDup (bcache_head :: b :: l1 ++ l2)) by by rewrite (Permutation_middle l1 l2 b).
  destruct (bpush_ret b (l1 ++ l2) s2) as (s3 & E3 & R3 & D3); [|done|done|set_solver|].
  { eapply dll_ext; [| |exact (dll_remove _ _ _ _ _ _ Hnd Hd)].
    - intros c. rewrite N2. apply fn_insert_ext, N1.
    - intros c. rewrite P2. apply P1. }
  exists s3. split_and!; [exact E3|by do 2 (eapply relinked_trans; [eassumption|])|].
  split_and!; [done|by rewrite Permutation_middle|]. by rewrite (relinked_length _ _ R3).
Qed.
