(* ===== verification/Cache.v ===== *)
(** * The buffer cache as a disk

    The invariant of the cache, and the contents of the disk as its users see
    them: [content] is the cached copy of a block where there is a valid one
    and the block on the disk otherwise.  [bread] and [brelse] do not change
    it, whatever they evict. *)

From stdpp Require Import functions.
From S2P Require Import Prelude State Monad Mem Spinlock Sample ConsoleOut Kalloc Vm Sched SleepWake Sleeplock.
From S2P Require Import Bio BioFacts.

Definition block_size : nat := Z.to_nat BSIZE.

(** What holds of every buffer. *)
Record buf_ok (s : kernel) (bf : buf) : Prop := {
  bo_ref : 0 <= b_refcnt bf < 2 ^ 32;
  bo_len : length (b_data bf) = block_size;
  bo_idle : b_refcnt bf = 0 -> sl_locked (b_lock bf) = 0;
  bo_dirty : dirty bf = true -> valid bf = true;
  bo_clean : valid bf = true -> dirty bf = false -> sl_locked (b_lock bf) = 0 ->
    b_data bf = disk_block s (b_dev bf) (b_blockno bf)
}.

Lemma buf_ok_disk s s' bf : k_disk s' = k_disk s -> buf_ok s bf -> buf_ok s' bf.
Proof. intros E [H1 H2 H3 H4 H5]. split; try done. unfold disk_block. by rewrite E. Qed.

(** Two buffers never cache the same block (block 0 of device 0, the key of
    the unused buffers, apart). *)
Definition bufs_unique (bs : list buf) : Prop :=
  forall a b ba bb d n, bs !! a = Some ba -> bs !! b = Some bb ->
    caches d n ba = true -> caches d n bb = true -> (d, n) <> (0, 0) -> a = b.

Record cache_inv (l : list nat) (s : kernel) : Prop := {
  ci_ring : ring l s;
  ci_uniq : bufs_unique (k_bufs s);
  ci_bufs : forall b bf, k_bufs s !! b = Some bf -> buf_ok s bf;
  ci_disk : forall d n, length (disk_block s d n) = block_size
}.

Lemma caches_spec d n bf : caches d n bf = true <-> b_dev bf = d /\ b_blockno bf = n.
Proof. unfold caches. rewrite andb_true_iff, !Z.eqb_eq. done. Qed.

(** ** Contents *)

Definition has_block (d n : Z) (bf : buf) : Prop := caches d n bf = true /\ valid bf = true.
#[global] Instance has_block_dec d n bf : Decision (has_block d n bf).
Proof. unfold has_block. solve_decision. Defined.

Definition content (s : kernel) (d n : Z) : list Z :=
  match list_find (has_block d n) (k_bufs s) with
  | Some (_, bf) => b_data bf
  | None => disk_block s d n
  end.

Lemma content_cached s d n b bf :
  bufs_unique (k_bufs s) -> (d, n) <> (0, 0) ->
  k_bufs s !! b = Some bf -> has_block d n bf -> content s d n = b_data bf.
Proof.
  intros Hu Hdn Hb Hh. unfold content.
  destruct (list_find (has_block d n) (k_bufs s)) as [[a ba]|] eqn:E.
  - apply list_find_Some in E as (Ha & Hha & _).
    assert (a = b) as -> by (eapply Hu; [exact Ha|exact Hb|apply Hha|apply Hh|done]). congruence.
  - apply list_find_None in E. rewrite Forall_lookup in E. by destruct (E b bf Hb).
Qed.

Lemma content_uncached s d n :
  (forall b bf, k_bufs s !! b = Some bf -> ~ has_block d n bf) -> content s d n = disk_block s d n.
Proof.
  intros H. unfold content. destruct (list_find (has_block d n) (k_bufs s)) as [[a ba]|] eqn:E; [|done].
  apply list_find_Some in E as (Ha & Hha & _). by destruct (H a ba Ha).
Qed.

(** The cases in which [content] can be computed. *)
Lemma content_cases s d n :
  bufs_unique (k_bufs s) -> (d, n) <> (0, 0) ->
  (exists b bf, k_bufs s !! b = Some bf /\ has_block d n bf /\ content s d n = b_data bf) \/
  ((forall b bf, k_bufs s !! b = Some bf -> ~ has_block d n bf) /\ content s d n = disk_block s d n).
Proof.
  intros Hu Hdn. destruct (list_find (has_block d n) (k_bufs s)) as [[a ba]|] eqn:E.
  - left. apply list_find_Some in E as (Ha & Hha & _). exists a, ba. split_and!; [done|done|].
    by eapply content_cached.
  - right. apply list_find_None in E. rewrite Forall_lookup in E. split; [done|].
    by apply content_uncached.
Qed.

(** Replacing one buffer. *)
Definition put_buf (b : nat) (bf : buf) (s : kernel) : kernel := s <| k_bufs := <[b := bf]> (k_bufs s) |>.

Lemma on_buf_put b f s bf : k_bufs s !! b = Some bf -> on_buf b f s = put_buf b (f bf) s.
Proof. intros H. unfold on_buf, put_buf. by rewrite (list_alter_insert _ _ _ _ H). Qed.

Lemma put_buf_lookup b bf s bf0 :
  k_bufs s !! b = Some bf0 -> k_bufs (put_buf b bf s) !! b = Some bf.
Proof. intros H. cbn. apply list_lookup_insert_eq. by eapply lookup_lt_Some. Qed.

Lemma put_buf_ne b c bf s : b <> c -> k_bufs (put_buf b bf s) !! c = k_bufs s !! c.
Proof. intros H. cbn. by apply list_lookup_insert_ne. Qed.

(** Two states whose disks agree and whose buffers are the same but for [b]. *)
Lemma content_put s s' b bf bf' d n :
  bufs_unique (k_bufs s) -> bufs_unique (k_bufs s') -> (d, n) <> (0, 0) ->
  k_bufs s !! b = Some bf -> k_bufs s' = <[b := bf']> (k_bufs s) ->
  (has_block d n bf -> has_block d n bf' -> b_data bf' = b_data bf) ->
  (has_block d n bf -> ~ has_block d n bf' -> disk_block s' d n = b_data bf) ->
  (~ has_block d n bf -> has_block d n bf' ->
     (forall c bc, c <> b -> k_bufs s !! c = Some bc -> ~ has_block d n bc) -> b_data bf' = disk_block s d n) ->
  (~ has_block d n bf -> ~ has_block d n bf' -> disk_block s' d n = disk_block s d n) ->
  content s' d n = content s d n.
Proof.
  intros Hu Hu' Hdn Hb Es H11 H10 H01 H00.
  assert (Hb' : k_bufs s' !! b = Some bf')
    by (rewrite Es; apply list_lookup_insert_eq; by eapply lookup_lt_Some).
  assert (Hne : forall c, c <> b -> k_bufs s' !! c = k_bufs s !! c)
    by (intros; rewrite Es; by apply list_lookup_insert_ne).
  destruct (decide (has_block d n bf)) as [Hh|Hh], (decide (has_block d n bf')) as [Hh'|Hh'].
  - rewrite (content_cached s' d n b bf'), (content_cached s d n b bf) by done. auto.
  - rewrite (content_cached s d n b bf) by done. rewrite content_uncached; [auto|].
    intros c bc Hc Hhc. destruct (decide (c = b)) as [->|Hcb]; [congruence|].
    rewrite Hne in Hc by done. apply Hcb. eapply Hu; [exact Hc|exact Hb|apply Hhc|apply Hh|done].
  - rewrite (content_cached s' d n b bf') by done.
    assert (Ho : forall c bc, c <> b -> k_bufs s !! c = Some bc -> ~ has_block d n bc).
    { intros c bc Hcb Hc Hhc. apply Hcb. rewrite <- Hne in Hc by done.
      eapply Hu'; [exact Hc|exact Hb'|apply Hhc|apply Hh'|done]. }
    rewrite content_uncached; [auto|]. intros c bc Hc. destruct (decide (c = b)) as [->|]; [congruence|eauto].
  - destruct (content_cases s d n Hu Hdn) as [(c & bc & Hc & Hhc & ->)|[Hno ->]].
    + assert (Hcb : c <> b) by (intros ->; congruence).
      rewrite <- Hne in Hc by done. by apply (content_cached s' d n c bc).
    + rewrite content_uncached; [auto|]. intros c bc Hc.
      destruct (decide (c = b)) as [->|Hcb]; [congruence|]. rewrite Hne in Hc by done. eauto.
Qed.

(** ** bget *)

(** The buffer of a block that is cached, and a buffer that is recycled. *)
Definition got (pid : Z) (bf : buf) : buf :=
  bf <| b_refcnt := b_refcnt bf +u 1 |> <| b_lock := taken pid (b_lock bf) |>.
Definition recycled (pid d n : Z) (bf : buf) : buf :=
  bf <| b_dev := d |> <| b_blockno := n |> <| b_flags := 0 |> <| b_refcnt := 1 |>
     <| b_lock := taken pid (b_lock bf) |>.

Lemma leave_on_buf l b f s : leave_cs s (on_buf b f (acq l s)) = on_buf b f s.
Proof. by destruct s. Qed.

Lemma calm_bufs s s' i p : calm s i p -> s' = s <| k_bufs := k_bufs s' |> -> calm s' i p.
Proof. intros Hc ->. by eapply calm_same; [exact Hc|..|apply Hc]; [|apply Hc]. Qed.

Lemma calm_on_buf s i p b f : calm s i p -> calm (on_buf b f s) i p.
Proof. intros Hc. by eapply calm_bufs; [exact Hc|]. Qed.

Lemma on_buf_on_buf b f g s : on_buf b f (on_buf b g s) = on_buf b (f ∘ g) s.
Proof. unfold on_buf. cbn. by rewrite list_alter_alter. Qed.

Lemma bfirst_bufs test s s' l : k_bufs s' = k_bufs s -> bfirst test s' l = bfirst test s l.
Proof. intros E. induction l as [|b l IH]; simpl; [done|]. unfold btest. by rewrite E, IH. Qed.

Section bget.
Context {F : Fuel} (Hfuel : (0 < fuel)%nat).
Context (l : list nat) (s : kernel) (i : nat) (p : proc).
Hypothesis (Hcalm : calm s i p) (Hring : ring l s).

Lemma ring_acq lk : ring l (acq lk s).
Proof. by apply (ring_same l s). Qed.

(** The end of both branches: leave the critical section, take the buffer. *)
Lemma bget_take b bf f :
  k_bufs s !! b = Some bf -> (b < NBUF)%nat -> sl_locked (b_lock (f bf)) = 0 ->
  (do! release L_bcache; do! acquiresleep (SL_buf b); ret b) (on_buf b f (acq L_bcache s))
    = Ret b (put_buf b ((f bf) <| b_lock := taken (p_pid p) (b_lock (f bf)) |>) s).
Proof.
  intros Hb Hlt Hl. assert (Hfree : lock_free L_bcache s) by by apply Hcalm.
  erewrite bind_ret by (by eapply (release_calm L_bcache s)). rewrite leave_on_buf.
  assert (Hb' : k_bufs (on_buf b f s) !! b = Some (f bf)) by (cbn; by rewrite list_lookup_alter_eq, Hb).
  erewrite bind_ret.
  2: { eapply (acquiresleep_calm (SL_buf b)); [by apply calm_on_buf| | |exact Hl|done].
       - cbn. by rewrite list_lookup_alter_eq, Hb.
       - apply Hcalm. exact Hlt. }
  unfold ret. f_equal. cbn [on_sl].
  rewrite (on_buf_put b f s bf Hb). unfold put_buf. cbn.
  rewrite (list_alter_insert _ _ _ (f bf)).
  - unfold_set. cbn. by rewrite list_insert_insert_eq.
  - apply list_lookup_insert_eq. by eapply lookup_lt_Some.
Qed.

(** What the two walks find. *)
Lemma bget_walks d n :
  bget d n s =
    match bfirst (caches d n) s l with
    | Some b =>
        (do! updbuf b (fun bf => bf <| b_refcnt := b_refcnt bf +u 1 |>);
         do! release L_bcache; do! acquiresleep (SL_buf b); ret b) (acq L_bcache s)
    | None =>
        match bfirst recyclable s (reverse l) with
        | Some b =>
            (do! updbuf b (fun bf => bf <| b_dev := d |>);
             do! updbuf b (fun bf => bf <| b_blockno := n |>);
             do! updbuf b (fun bf => bf <| b_flags := 0 |>);
             do! updbuf b (fun bf => bf <| b_refcnt := 1 |>);
             do! release L_bcache; do! acquiresleep (SL_buf b); ret b) (acq L_bcache s)
        | None => Fault (FPanic "bget: no buffers") (acq L_bcache s)
        end
    end.
Proof.
  unfold bget. rewrite (bind_ret _ _ _ _ _ (acquire_calm L_bcache s i p Hcalm ltac:(by apply Hcalm))).
  pose proof (ring_acq L_bcache) as Hr. destruct (Hr) as (_ & _ & Hlen).
  rewrite (bind_ret _ _ _ _ _ (bnext_ret _ Hlen bcache_head ltac:(unfold bcache_head; lia))).
  rewrite (bind_ret _ _ _ _ _ (bscan_forward (caches d n) l _ Hr)).
  rewrite (bfirst_bufs _ s (acq L_bcache s)) by done.
  destruct (bfirst (caches d n) s l); [done|].
  rewrite (bind_ret _ _ _ _ _ (bprev_ret _ Hlen bcache_head ltac:(unfold bcache_head; lia))).
  rewrite (bind_ret _ _ _ _ _ (bscan_backward recyclable l _ Hr)).
  rewrite (bfirst_bufs _ s (acq L_bcache s)) by done. by destruct (bfirst recyclable s (reverse l)).
Qed.

Lemma bget_cached d n b bf :
  bfirst (caches d n) s l = Some b -> k_bufs s !! b = Some bf -> sl_locked (b_lock bf) = 0 ->
  bget d n s = Ret b (put_buf b (got (p_pid p) bf) s).
Proof.
  intros Hf Hb Hl. assert (Hlt : (b < NBUF)%nat).
  { apply (ring_elem l s); [done|]. by apply bfirst_Some in Hf as [? _]. }
  rewrite bget_walks, Hf. erewrite bind_ret by (eapply updbuf_ret; exact Hb).
  refine (bget_take b bf (fun x : buf => x <| b_refcnt := b_refcnt x +u 1 |>) Hb Hlt _); exact Hl.
Qed.

Lemma bget_recycled d n b bf :
  bfirst (caches d n) s l = None -> bfirst recyclable s (reverse l) = Some b ->
  k_bufs s !! b = Some bf -> sl_locked (b_lock bf) = 0 ->
  bget d n s = Ret b (put_buf b (recycled (p_pid p) d n bf) s).
Proof.
  intros Hnone Hf Hb Hl. assert (Hlt : (b < NBUF)%nat).
  { apply (ring_elem l s); [done|]. apply bfirst_Some in Hf as [Hin _]. by rewrite elem_of_reverse in Hin. }
  rewrite bget_walks, Hnone, Hf.
  do 4 (erewrite bind_ret by (eapply updbuf_ret; cbn; rewrite ?list_lookup_alter_eq, Hb; reflexivity)).
  rewrite !on_buf_on_buf.
  refine (bget_take b bf (fun x : buf => x <| b_dev := d |> <| b_blockno := n |> <| b_flags := 0 |>
    <| b_refcnt := 1 |>) Hb Hlt _); exact Hl.
Qed.

(** With every buffer in use or dirty the kernel gives up. *)
Lemma bget_full d n :
  bfirst (caches d n) s l = None -> bfirst recyclable s (reverse l) = None ->
  bget d n s = Fault (FPanic "bget: no buffers") (acq L_bcache s).
Proof. intros Hnone Hf. by rewrite bget_walks, Hnone, Hf. Qed.
End bget.

(** ** The invariant under changes of one buffer *)

Definition same_links (bf bf' : buf) : Prop := b_next bf' = b_next bf /\ b_prev bf' = b_prev bf.

Lemma nx_put b bf bf' s :
  k_bufs s !! b = Some bf -> same_links bf bf' -> forall c, nx (put_buf b bf' s) c = nx s c.
Proof.
  intros Hb [Hn _] c. unfold nx. cbn. case_decide; [done|].
  destruct (decide (b = c)) as [<-|Hc]; [|by rewrite list_lookup_insert_ne].
  rewrite list_lookup_insert_eq by (by eapply lookup_lt_Some). rewrite Hb. cbn. by rewrite Hn.
Qed.

Lemma pv_put b bf bf' s :
  k_bufs s !! b = Some bf -> same_links bf bf' -> forall c, pv (put_buf b bf' s) c = pv s c.
Proof.
  intros Hb [_ Hn] c. unfold pv. cbn. case_decide; [done|].
  destruct (decide (b = c)) as [<-|Hc]; [|by rewrite list_lookup_insert_ne].
  rewrite list_lookup_insert_eq by (by eapply lookup_lt_Some). rewrite Hb. cbn. by rewrite Hn.
Qed.

Lemma ring_put l b bf bf' s :
  ring l s -> k_bufs s !! b = Some bf -> same_links bf bf' -> ring l (put_buf b bf' s).
Proof.
  intros Hr Hb Hl. apply (ring_same l s); [done|by eapply nx_put|by eapply pv_put|].
  cbn. by rewrite length_insert.
Qed.

(** No buffer but [b] caches the block that [bf'] caches. *)
Definition sole (b : nat) (bf' : buf) (bs : list buf) : Prop :=
  (b_dev bf', b_blockno bf') <> (0, 0) ->
  forall c bc, c <> b -> bs !! c = Some bc -> caches (b_dev bf') (b_blockno bf') bc = false.

Lemma unique_put b bf' bs :
  bufs_unique bs -> (b < length bs)%nat -> sole b bf' bs -> bufs_unique (<[b := bf']> bs).
Proof.
  intros Hu Hlt Hs a c ba bc d n Ha Hc Hka Hkc Hdn.
  destruct (decide (a = b)) as [->|Hab], (decide (c = b)) as [->|Hcb]; [done| | |].
  - rewrite list_lookup_insert_eq in Ha by done. rewrite list_lookup_insert_ne in Hc by done.
    injection Ha as <-. apply caches_spec in Hka as [<- <-].
    by rewrite (Hs Hdn c bc Hcb Hc) in Hkc.
  - rewrite list_lookup_insert_ne in Ha by done. rewrite list_lookup_insert_eq in Hc by done.
    injection Hc as <-. apply caches_spec in Hkc as [<- <-].
    by rewrite (Hs Hdn a ba Hab Ha) in Hka.
  - rewrite list_lookup_insert_ne in Ha, Hc by done. by eapply Hu.
Qed.

Lemma cache_inv_put l b bf bf' s :
  cache_inv l s -> k_bufs s !! b = Some bf -> same_links bf bf' -> buf_ok s bf' ->
  sole b bf' (k_bufs s) -> cache_inv l (put_buf b bf' s).
Proof.
  intros [Hr Hu Hb Hd] Hbf Hl Hok Hs. split.
  - by eapply ring_put.
  - apply unique_put; [done|by eapply lookup_lt_Some|done].
  - intros c bc Hc. destruct (decide (c = b)) as [->|Hcb].
    + rewrite (put_buf_lookup _ _ _ _ Hbf) in Hc. injection Hc as <-. by apply (buf_ok_disk s).
    + rewrite put_buf_ne in Hc by done. apply (buf_ok_disk s); [done|eauto].
  - done.
Qed.

(** A buffer keeps its block. *)
Lemma sole_same l s b bf bf' :
  cache_inv l s -> k_bufs s !! b = Some bf -> b_dev bf' = b_dev bf -> b_blockno bf' = b_blockno bf ->
  sole b bf' (k_bufs s).
Proof.
  intros Hinv Hb E1 E2 Hdn c bc Hcb Hc. apply not_true_is_false. intros Hk. apply Hcb.
  eapply (ci_uniq _ _ Hinv); [exact Hc|exact Hb|exact Hk| |done]. apply caches_spec. by rewrite E1, E2.
Qed.

(** ** bread *)

(** What the caller of [bread] has: a locked buffer with the block. *)
Record owns (s : kernel) (pid d n : Z) (b : nat) (bf : buf) : Prop := {
  ow_buf : k_bufs s !! b = Some bf;
  ow_caches : caches d n bf = true;
  ow_valid : valid bf = true;
  ow_locked : sl_locked (b_lock bf) = 1;
  ow_pid : sl_pid (b_lock bf) = pid;
  ow_ref : 0 < b_refcnt bf
}.

(** Block [n] of device [d] can be had without waiting. *)
Record gettable {D : BlockDev} (s : kernel) (d n : Z) : Prop := {
  gt_key : (d, n) <> (0, 0);
  gt_ok : blk_ok d n = true;
  gt_unlocked : forall b bf, k_bufs s !! b = Some bf -> caches d n bf = true ->
    sl_locked (b_lock bf) = 0 /\ b_refcnt bf < 2 ^ 32 - 1;
  gt_room : (exists b bf, k_bufs s !! b = Some bf /\ caches d n bf = true) \/
    (exists b bf, k_bufs s !! b = Some bf /\ recyclable bf = true)
}.

(** The buffer that a read from the disk fills. *)
Definition filled (data : list Z) (bf : buf) : buf :=
  bf <| b_data := data |> <| b_flags := Z.lor (b_flags bf) B_VALID |>.

Lemma filled_valid data bf : valid (filled data bf) = true.
Proof.
  rewrite valid_bit. change (Z.testbit (Z.lor (b_flags bf) B_VALID) 1 = true).
  rewrite Z.lor_spec. apply orb_true_r.
Qed.
Lemma filled_dirty data bf : dirty (filled data bf) = dirty bf.
Proof.
  rewrite !dirty_bit. change (Z.testbit (Z.lor (b_flags bf) B_VALID) 2 = Z.testbit (b_flags bf) 2).
  rewrite Z.lor_spec. apply orb_false_r.
Qed.

Section bread.
Context {F : Fuel} {D : BlockDev} {HD : SyncDev D} (Hfuel : (0 < fuel)%nat).
Context (l : list nat) (s : kernel) (i : nat) (p : proc) (d n : Z).
Hypothesis (Hcalm : calm s i p) (Hinv : cache_inv l s) (Hget : gettable s d n).

(** [bread] of a block whose buffer [bget] returns as [bf], not valid. *)
Lemma bread_fill b bf0 bf :
  bget d n s = Ret b (put_buf b bf s) -> k_bufs s !! b = Some bf0 -> (b < NBUF)%nat ->
  caches d n bf = true -> sl_locked (b_lock bf) = 1 -> valid bf = false -> dirty bf = false ->
  bread d n s = Ret b (put_buf b (filled (disk_block s d n) bf) s).
Proof.
  intros Hg Hb Hlt Hk Hl Hv Hd. unfold bread. rewrite (bind_ret _ _ _ _ _ Hg).
  pose proof (put_buf_lookup b bf s bf0 Hb) as Hb'.
  rewrite (bind_ret _ _ _ _ _ (getbuf_ret _ _ _ Hb')).
  assert (E : (Z.land (b_flags bf) B_VALID =? 0) = true) by (unfold valid in Hv; by destruct (_ =? 0)).
  rewrite E. unfold when. apply caches_spec in Hk as [E1 E2].
  erewrite bind_ret.
  2: { eapply (iderw_sync (put_buf b bf s) i p b bf); [by eapply calm_bufs|]. split; try done.
       - by apply Hcalm.
       - lia.
       - by right.
       - rewrite E1, E2. apply Hget. }
  unfold ret. f_equal. unfold sync. rewrite Hd, (on_buf_put _ _ _ _ Hb'), E1, E2. unfold put_buf. cbn.
  by rewrite list_insert_insert_eq.
Qed.

Lemma bread_hit b bf0 bf :
  bget d n s = Ret b (put_buf b bf s) -> k_bufs s !! b = Some bf0 -> valid bf = true ->
  bread d n s = Ret b (put_buf b bf s).
Proof.
  intros Hg Hb Hv. unfold bread. rewrite (bind_ret _ _ _ _ _ Hg).
  rewrite (bind_ret _ _ _ _ _ (getbuf_ret _ _ _ (put_buf_lookup b bf s bf0 Hb))).
  assert (E : (Z.land (b_flags bf) B_VALID =? 0) = false) by (unfold valid in Hv; by destruct (_ =? 0)).
  by rewrite E.
Qed.

(** What [bread] does to the buffer [b]. *)
Definition bread_post (b : nat) (bf0 bf : buf) : Prop :=
  bread d n s = Ret b (put_buf b bf s) /\ k_bufs s !! b = Some bf0 /\
  owns (put_buf b bf s) (p_pid p) d n b bf /\ b_data bf = content s d n /\
  cache_inv l (put_buf b bf s) /\
  (forall d' n', (d', n') <> (0, 0) -> content (put_buf b bf s) d' n' = content s d' n') /\
  b_refcnt bf = (if caches d n bf0 then b_refcnt bf0 + 1 else 1) /\
  ((caches d n bf0 = true /\ dirty bf = dirty bf0) \/
   (recyclable bf0 = true /\ dirty bf = false /\
    forall c bc, k_bufs s !! c = Some bc -> caches d n bc = false)).

Lemma no_block_other b bf0 :
  k_bufs s !! b = Some bf0 -> caches d n bf0 = true -> valid bf0 = false ->
  content s d n = disk_block s d n.
Proof.
  intros Hb Hk Hv. apply content_uncached. intros c bc Hc [Hkc Hvc].
  assert (c = b) as -> by (eapply (ci_uniq _ _ Hinv); [exact Hc|exact Hb|done|done|apply Hget]).
  congruence.
Qed.

(** The block was cached. *)
Lemma bread_cached b bf0 :
  bfirst (caches d n) s l = Some b -> k_bufs s !! b = Some bf0 ->
  exists bf, bread_post b bf0 bf.
Proof.
  intros Hf Hb. destruct (bfirst_Some _ _ _ _ Hf) as [Hin (bf1 & Hb1 & Hk)].
  assert (bf1 = bf0) as -> by congruence.
  pose proof (ci_bufs _ _ Hinv b bf0 Hb) as Hok. pose proof (ci_ring _ _ Hinv) as Hring.
  destruct (gt_unlocked _ _ _ Hget b bf0 Hb Hk) as [Hul Hmax].
  pose proof (bget_cached Hfuel l s i p Hcalm Hring d n b bf0 Hf Hb Hul) as Hg.
  assert (Href : b_refcnt bf0 +u 1 = b_refcnt bf0 + 1).
  { destruct Hok as [Hr _ _ _ _]. unfold u32. apply Z.mod_small. lia. }
  destruct (valid bf0) eqn:Hv.
  - exists (got (p_pid p) bf0). split_and!; [by eapply bread_hit|done| | | | |by rewrite Hk|by left].
    + split; try done; [by eapply put_buf_lookup|]. cbn. rewrite Href. destruct Hok. lia.
    + symmetry. apply (content_cached s d n b bf0); [apply Hinv|apply Hget|done|done].
    + eapply cache_inv_put; [done|done|done| |by eapply sole_same].
      destruct Hok as [Hr Hlen Hid Hdv Hcl]. split; try done; cbn; rewrite ?Href; lia.
    + intros d' n' Hdn. apply (content_put s _ b bf0 (got (p_pid p) bf0)); try done; [apply Hinv|].
      eapply unique_put; [apply Hinv|by eapply lookup_lt_Some|by eapply sole_same].
  - assert (Hnd : dirty bf0 = false).
    { destruct (dirty bf0) eqn:E; [|done]. destruct Hok as [_ _ _ Hdv _]. rewrite Hdv in Hv; done. }
    assert (Hlt : (b < NBUF)%nat) by by apply (ring_elem l s).
    pose proof (bread_fill b bf0 _ Hg Hb Hlt Hk eq_refl Hv Hnd) as Hread.
    set (bf := filled (disk_block s d n) (got (p_pid p) bf0)) in *.
    assert (Hso : sole b bf (k_bufs s)) by by eapply sole_same.
    exists bf. split_and!; [exact Hread|done| | | | |by rewrite Hk|left; split; [done|exact (filled_dirty _ (got (p_pid p) bf0))]].
    + split; try done; [by eapply put_buf_lookup|apply filled_valid|]. cbn. rewrite Href. destruct Hok. lia.
    + cbn. by rewrite (no_block_other b bf0).
    + eapply cache_inv_put; [done|done|done| |done].
      destruct Hok as [Hr Hlen Hid Hdv Hcl]. split; cbn; rewrite ?Href; try lia.
      * apply Hinv.
      * intros _. apply filled_valid.
    + intros d' n' Hdn. apply (content_put s _ b bf0 bf); try done; [apply Hinv| |..].
      * eapply unique_put; [apply Hinv|by eapply lookup_lt_Some|done].
      * intros [_ ?]. congruence.
      * intros [_ ?]. congruence.
      * intros _ [Hk' _] _. apply caches_spec in Hk as [E1 E2]. apply caches_spec in Hk' as [E3 E4].
        cbn in E3, E4 |- *. congruence.
Qed.

(** The block was not cached: the least recently used buffer that is neither
    referenced nor dirty is recycled. *)
Lemma bread_recycled b bf0 :
  bfirst (caches d n) s l = None -> bfirst recyclable s (reverse l) = Some b ->
  k_bufs s !! b = Some bf0 -> exists bf, bread_post b bf0 bf.
Proof.
  intros Hnone Hf Hb. destruct (bfirst_Some _ _ _ _ Hf) as [Hin (bf1 & Hb1 & Hrec)].
  assert (bf1 = bf0) as -> by congruence. rewrite elem_of_reverse in Hin.
  pose proof (ci_ring _ _ Hinv) as Hring.
  assert (Hno : forall c bc, k_bufs s !! c = Some bc -> caches d n bc = false).
  { intros c bc Hc. eapply (bfirst_None _ _ _ Hnone); [|exact Hc].
    apply (ring_elem l s); [done|]. destruct Hring as (_ & _ & <-). by eapply lookup_lt_Some. }
  pose proof Hrec as [Hr0%Z.eqb_eq Hd0]%andb_true_iff.
  assert (Hnd : dirty bf0 = false) by (unfold dirty; by rewrite Hd0).
  destruct (ci_bufs _ _ Hinv b bf0 Hb) as [Href Hlen Hid Hdv Hcl].
  pose proof (bget_recycled Hfuel l s i p Hcalm Hring d n b bf0 Hnone Hf Hb (Hid Hr0)) as Hg.
  assert (Hlt : (b < NBUF)%nat) by by apply (ring_elem l s).
  assert (Hk : caches d n (recycled (p_pid p) d n bf0) = true) by by apply caches_spec.
  pose proof (bread_fill b bf0 _ Hg Hb Hlt Hk eq_refl eq_refl eq_refl) as Hread.
  set (bf := filled (disk_block s d n) (recycled (p_pid p) d n bf0)) in *.
  assert (Hso : sole b bf (k_bufs s)) by (intros _ c bc _ Hc; by eapply Hno).
  assert (Hcont : content s d n = disk_block s d n).
  { apply content_uncached. intros c bc Hc [Hkc _]. by rewrite (Hno c bc Hc) in Hkc. }
  exists bf. split_and!; [exact Hread|done| | | | |by rewrite (Hno _ _ Hb)|right; by eauto].
  - split; try done. by eapply put_buf_lookup.
  - done.
  - eapply cache_inv_put; [done|done|done| |done]. split; try done. apply Hinv.
  - intros d' n' Hdn. apply (content_put s _ b bf0 bf); try done; [apply Hinv| |..].
    + eapply unique_put; [apply Hinv|by eapply lookup_lt_Some|done].
    + intros [Hk0 _] [Hk1 _]. apply caches_spec in Hk1 as [<- <-]. cbn in Hk0.
      by rewrite (Hno _ _ Hb) in Hk0.
    + intros [Hk0 Hv0] _. apply caches_spec in Hk0 as [<- <-]. symmetry. apply Hcl; auto.
    + intros _ [Hk1 _] _. by apply caches_spec in Hk1 as [<- <-].
Qed.

Lemma bread_ret : exists b bf0 bf, bread_post b bf0 bf.
Proof.
  pose proof (ci_ring _ _ Hinv) as Hring.
  assert (Hin : forall c bc, k_bufs s !! c = Some bc -> c ∈ l).
  { intros c bc Hc. apply (ring_elem l s); [done|]. destruct Hring as (_ & _ & <-).
    by eapply lookup_lt_Some. }
  destruct (bfirst (caches d n) s l) as [b|] eqn:E1.
  - destruct (bfirst_Some _ _ _ _ E1) as [_ (bf0 & Hb & _)].
    destruct (bread_cached b bf0 E1 Hb) as [bf H]. eauto.
  - destruct (bfirst recyclable s (reverse l)) as [b|] eqn:E2.
    + destruct (bfirst_Some _ _ _ _ E2) as [_ (bf0 & Hb & _)].
      destruct (bread_recycled b bf0 E1 E2 Hb) as [bf H]. eauto.
    + exfalso. destruct (gt_room _ _ _ Hget) as [(b & bf & Hb & Hk)|(b & bf & Hb & Hk)].
      * by rewrite (bfirst_None _ _ _ E1 b bf (Hin _ _ Hb) Hb) in Hk.
      * rewrite (bfirst_None _ _ _ E2 b bf) in Hk; [done| |done]. rewrite elem_of_reverse. eauto.
Qed.
End bread.

(** ** Writing a buffer *)

Lemma owns_lt l s pid d n b bf : cache_inv l s -> owns s pid d n b bf -> (b < NBUF)%nat.
Proof. intros [(_ & _ & <-) _ _ _] [Hb _ _ _ _ _]. by eapply lookup_lt_Some. Qed.

Lemma owns_put s pid d n b bf bf' :
  owns s pid d n b bf -> caches d n bf' = true -> valid bf' = true -> b_lock bf' = b_lock bf ->
  b_refcnt bf' = b_refcnt bf -> owns (put_buf b bf' s) pid d n b bf'.
Proof.
  intros [Hb Hk Hv Hl Hp Hr] H1 H2 H3 H4. split; try done; rewrite ?H3, ?H4; try done.
  by eapply put_buf_lookup.
Qed.

(** The owner of a buffer changes its data. *)
Section change.
Context (l : list nat) (s : kernel) (pid d n : Z) (b : nat) (bf : buf) (data : list Z).
Hypothesis (Hinv : cache_inv l s) (Hown : owns s pid d n b bf) (Hlen : length data = block_size).

Lemma change_inv f :
  f = b_flags bf \/ f = Z.lor (b_flags bf) B_DIRTY ->
  cache_inv l (put_buf b (bf <| b_data := data |> <| b_flags := f |>) s).
Proof.
  intros Hf. destruct Hown as [Hb Hk Hv Hl Hp Hr].
  eapply cache_inv_put; [done|done|done| |by eapply sole_same].
  destruct (ci_bufs _ _ Hinv b bf Hb) as [H1 H2 H3 H4 H5]. split; try done; [|intros _ _ E; cbn in E; lia].
  intros _. rewrite valid_bit in *. destruct Hf as [->| ->]; [done|].
  change (Z.testbit (Z.lor (b_flags bf) B_DIRTY) 1 = true). by rewrite Z.lor_spec, Hv.
Qed.

Lemma change_content f d' n' :
  f = b_flags bf \/ f = Z.lor (b_flags bf) B_DIRTY -> (d, n) <> (0, 0) -> (d', n') <> (0, 0) ->
  content (put_buf b (bf <| b_data := data |> <| b_flags := f |>) s) d' n' =
    if decide ((d', n') = (d, n)) then data else content s d' n'.
Proof.
  intros Hf Hdn Hdn'. pose proof (change_inv f Hf) as Hinv'. destruct Hown as [Hb Hk Hv Hl Hp Hr].
  set (bf' := bf <| b_data := data |> <| b_flags := f |>) in *.
  assert (Hv' : valid bf' = true).
  { destruct (ci_bufs _ _ Hinv' b bf'); [by eapply put_buf_lookup|]. rewrite valid_bit in *.
    destruct Hf as [->| ->]; [done|].
    change (Z.testbit (Z.lor (b_flags bf) B_DIRTY) 1 = true). by rewrite Z.lor_spec, Hv. }
  case_decide as E.
  - injection E as -> ->. rewrite (content_cached _ d n b bf'); [done|apply Hinv'|done| |done].
    by eapply put_buf_lookup.
  - assert (Hno : forall x, b_dev x = b_dev bf -> b_blockno x = b_blockno bf -> ~ has_block d' n' x).
    { intros x E1 E2 [Hx _]. apply E. apply caches_spec in Hx as [<- <-].
      apply caches_spec in Hk as [<- <-]. by rewrite E1, E2. }
    apply (content_put s _ b bf bf'); try done; [apply Hinv|apply Hinv'|..];
      intros H1 H2; first [destruct (Hno bf eq_refl eq_refl H1)|destruct (Hno bf' eq_refl eq_refl H2)].
Qed.
End change.

(** The buffer after a write to the disk. *)
Definition cleaned (bf : buf) : buf :=
  bf <| b_flags := Z.lor (Z.land (Z.lor (b_flags bf) B_DIRTY) (Z.lnot B_DIRTY)) B_VALID |>.

Lemma cleaned_valid bf : valid (cleaned bf) = true.
Proof.
  rewrite valid_bit.
  change (Z.testbit (Z.lor (Z.land (Z.lor (b_flags bf) B_DIRTY) (Z.lnot B_DIRTY)) B_VALID) 1 = true).
  rewrite Z.lor_spec. apply orb_true_r.
Qed.
Lemma cleaned_dirty bf : dirty (cleaned bf) = false.
Proof.
  rewrite dirty_bit.
  change (Z.testbit (Z.lor (Z.land (Z.lor (b_flags bf) B_DIRTY) (Z.lnot B_DIRTY)) B_VALID) 2 = false).
  by rewrite Z.lor_spec, Z.land_spec, andb_false_r.
Qed.

Lemma disk_block_write s d n data d' n' :
  disk_block (disk_write d n data s) d' n' =
    if decide ((d', n') = (d, n)) then data else disk_block s d' n'.
Proof.
  unfold disk_block. cbn. case_decide as E; [rewrite E; by rewrite lookup_insert_eq|].
  by rewrite lookup_insert_ne.
Qed.

Section bwrite.
Context {F : Fuel} {D : BlockDev} {HD : SyncDev D}.
Context (l : list nat) (s : kernel) (i : nat) (p : proc) (pid d n : Z) (b : nat) (bf : buf).
Hypothesis (Hcalm : calm s i p) (Hinv : cache_inv l s) (Hown : owns s pid d n b bf).
Hypothesis (Hok : blk_ok d n = true) (Hdn : (d, n) <> (0, 0)).

Lemma holding_owned : holdingsleep (SL_buf b) s = Ret true s.
Proof.
  destruct Hown as [Hb _ _ Hl _ _].
  assert (Hsl : slookup (SL_buf b) s = Some (b_lock bf)) by (cbn; by rewrite Hb).
  rewrite (holdingsleep_calm (SL_buf b) s i p _ Hcalm Hsl); [by rewrite Hl|].
  apply Hcalm. by eapply owns_lt.
Qed.

(** [bwrite] puts the data of the buffer on the disk. *)
Lemma bwrite_ret :
  bwrite b s = Ret tt (put_buf b (cleaned bf) (disk_write d n (b_data bf) s)).
Proof.
  pose proof (owns_lt _ _ _ _ _ _ _ Hinv Hown) as Hlt.
  unfold bwrite. rewrite (bind_ret _ _ _ _ _ holding_owned). cbn [negb].
  destruct Hown as [Hb Hk Hv Hl Hp Hr].
  rewrite (bind_ret _ _ _ _ _ (updbuf_ret s b bf _ Hb)), (on_buf_put _ _ _ _ Hb).
  set (bf1 := bf <| b_flags := Z.lor (b_flags bf) B_DIRTY |>).
  pose proof (put_buf_lookup b bf1 s bf Hb) as Hb1.
  assert (Hd1 : dirty bf1 = true).
  { rewrite dirty_bit. change (Z.testbit (Z.lor (b_flags bf) B_DIRTY) 2 = true).
    rewrite Z.lor_spec. apply orb_true_r. }
  apply caches_spec in Hk as [E1 E2].
  rewrite (iderw_sync (put_buf b bf1 s) i p b bf1); [|by eapply calm_bufs|].
  - f_equal. unfold sync. rewrite Hd1. change (b_dev bf1) with (b_dev bf). change (b_blockno bf1) with (b_blockno bf).
    rewrite E1, E2. rewrite (on_buf_put b _ _ bf1) by done. unfold put_buf, disk_write. cbn.
    by rewrite list_insert_insert_eq.
  - split; try done; [by apply Hcalm|cbn; lia|by left|cbn; by rewrite E1, E2].
Qed.

Lemma bwrite_inv : cache_inv l (put_buf b (cleaned bf) (disk_write d n (b_data bf) s)).
Proof.
  set (s1 := disk_write d n (b_data bf) s). destruct Hown as [Hb Hk Hv Hl Hp Hr].
  assert (Hinv1 : cache_inv l s1).
  { destruct Hinv as [Hri Hu Hbs Hds]. split; [done|done| |].
    - intros c bc Hc. change (k_bufs s !! c = Some bc) in Hc.
      destruct (Hbs c bc Hc) as [H1 H2 H3 H4 H5]. split; try done.
      intros Hvc Hdc Hlc. rewrite H5 by done. unfold s1. rewrite disk_block_write.
      case_decide as E; [|done]. apply caches_spec in Hk as [E3 E4]. injection E as E1 E2.
      assert (c = b) as ->.
      { eapply Hu; [exact Hc|exact Hb| | |exact Hdn]; by apply caches_spec. }
      assert (bc = bf) as -> by congruence. lia.
    - intros d' n'. unfold s1. rewrite disk_block_write. case_decide; [|done]. by apply (Hbs b bf). }
  eapply cache_inv_put; [done|exact Hb|done| |by eapply sole_same].
  destruct (ci_bufs _ _ Hinv1 b bf Hb) as [H1 H2 H3 H4 H5]. split; try done.
  - intros _. apply cleaned_valid.
  - intros _ _ E. cbn in E. lia.
Qed.

Lemma bwrite_content d' n' :
  (d', n') <> (0, 0) ->
  content (put_buf b (cleaned bf) (disk_write d n (b_data bf) s)) d' n' = content s d' n'.
Proof.
  intros Hdn'. pose proof bwrite_inv as Hinv'. destruct Hown as [Hb Hk Hv Hl Hp Hr].
  apply (content_put s _ b bf (cleaned bf)); try done; [apply Hinv|apply Hinv'|..].
  - intros [H1 H2] H3. destruct H3. split; [done|apply cleaned_valid].
  - intros H1 [H2 H3] _. destruct H1. done.
  - intros H1 _. change (disk_block (put_buf b (cleaned bf) ?x) d' n') with (disk_block x d' n').
    rewrite disk_block_write. case_decide as E; [|done]. injection E as -> ->. destruct H1. done.
Qed.
End bwrite.

(** ** brelse *)

Lemma core_eq bf bf' :
  core bf' = core bf ->
  b_flags bf' = b_flags bf /\ b_dev bf' = b_dev bf /\ b_blockno bf' = b_blockno bf /\
  b_lock bf' = b_lock bf /\ b_refcnt bf' = b_refcnt bf /\ b_data bf' = b_data bf.
Proof. destruct bf, bf'. intros [=]. by subst. Qed.

Lemma relinked_sym s s' : relinked s s' -> relinked s' s.
Proof. intros [E H]. split; [|done]. rewrite E. by destruct s. Qed.

Lemma has_block_core d n bf bf' : core bf' = core bf -> has_block d n bf' <-> has_block d n bf.
Proof.
  intros (E1 & E2 & E3 & _)%core_eq. unfold has_block, caches, valid. by rewrite E1, E2, E3.
Qed.

Lemma cache_inv_relinked l l' s s' :
  relinked s s' -> ring l' s' -> cache_inv l s -> cache_inv l' s'.
Proof.
  intros Hrel Hring [_ Hu Hb Hd].
  assert (Hdisk : k_disk s' = k_disk s) by (destruct Hrel as [-> _]; done).
  assert (Hback : forall b bf', k_bufs s' !! b = Some bf' ->
    exists bf, k_bufs s !! b = Some bf /\ core bf' = core bf).
  { intros b bf' Hbf'. destruct (relinked_lookup _ _ b bf' (relinked_sym _ _ Hrel) Hbf') as (bf & H & E).
    eauto. }
  split; [done| | |].
  - intros a b ba bb d n Ha Hb' Hka Hkb Hdn.
    destruct (Hback a ba Ha) as (ba' & Ha' & Ea%core_eq), (Hback b bb Hb') as (bb' & Hb2 & Eb%core_eq).
    destruct Ea as (_ & Ea1 & Ea2 & _), Eb as (_ & Eb1 & Eb2 & _).
    unfold caches in Hka, Hkb. rewrite Ea1, Ea2 in Hka. rewrite Eb1, Eb2 in Hkb. by eapply Hu.
  - intros b bf' Hbf'. destruct (Hback b bf' Hbf') as (bf & Hbf & Ec%core_eq).
    destruct Ec as (E1 & E2 & E3 & E4 & E5 & E6). apply (buf_ok_disk s); [done|].
    destruct (Hb b bf Hbf) as [H1 H2 H3 H4 H5].
    split; unfold dirty, valid in *; rewrite ?E1, ?E2, ?E3, ?E4, ?E5, ?E6; done.
  - intros d n. unfold disk_block. rewrite Hdisk. apply Hd.
Qed.

Lemma content_relinked s s' d n :
  bufs_unique (k_bufs s) -> bufs_unique (k_bufs s') -> relinked s s' -> (d, n) <> (0, 0) ->
  content s' d n = content s d n.
Proof.
  intros Hu Hu' Hrel Hdn.
  assert (Hdisk : k_disk s' = k_disk s) by (destruct Hrel as [-> _]; done).
  destruct (content_cases s d n Hu Hdn) as [(b & bf & Hb & Hh & ->)|[Hno ->]].
  - destruct (relinked_lookup _ _ _ _ Hrel Hb) as (bf' & Hb' & E).
    rewrite (content_cached s' d n b bf') by (try done; by rewrite has_block_core).
    by apply core_eq in E as (_ & _ & _ & _ & _ & ->).
  - rewrite content_uncached; [unfold disk_block; by rewrite Hdisk|]. intros b bf' Hb' Hh.
    destruct (relinked_lookup _ _ b bf' (relinked_sym _ _ Hrel) Hb') as (bf & Hb & E).
    apply (Hno b bf Hb). by rewrite (has_block_core d n bf' bf).
Qed.

(** The buffer after [brelse]. *)
Definition put_back (bf : buf) : buf :=
  bf <| b_lock := dropped (b_lock bf) |> <| b_refcnt := b_refcnt bf -u 1 |>.

(** The list of the buffers after [brelse]. *)
Definition touch (b : nat) (bf : buf) (l : list nat) : list nat :=
  if b_refcnt bf =? 1 then b :: filter (fun c => c <> b) l else l.

Lemma filter_ne_split (b : nat) (l1 l2 : list nat) :
  NoDup (l1 ++ b :: l2) -> filter (fun c : nat => c <> b) (l1 ++ b :: l2) = l1 ++ l2.
Proof.
  intros Hnd. rewrite filter_app, filter_cons_False by auto.
  apply NoDup_app in Hnd as (_ & H1 & H2). apply NoDup_cons in H2 as [H2 _].
  assert (Hkeep : forall l : list nat, b ∉ l -> filter (fun c : nat => c <> b) l = l).
  { clear. induction l as [|c l IH]; intros Hb; [done|]. apply not_elem_of_cons in Hb as [H1 H2].
    rewrite filter_cons_True by auto. by rewrite IH. }
  rewrite !Hkeep; [done|done|]. intros Hc. apply (H1 b Hc). constructor.
Qed.

(** The state after [brelse], up to the links. *)
Definition released (b : nat) (bf : buf) (s : kernel) : kernel :=
  put_buf b (put_back bf) (s <| k_procs := wake (k_ticks s) (CBufLock b) <$> k_procs s |>).

Lemma cache_inv_ext l s s' :
  k_bufs s' = k_bufs s -> k_bhead s' = k_bhead s -> k_disk s' = k_disk s ->
  cache_inv l s -> cache_inv l s'.
Proof.
  intros E1 E2 E3 [Hr Hu Hb Hd]. split.
  - apply (ring_same l s); [done|..]; intros; unfold nx, pv; by rewrite E1, ?E2.
  - by rewrite E1.
  - rewrite E1. intros b bf H. apply (buf_ok_disk s); [done|eauto].
  - intros d n. unfold disk_block. rewrite E3. apply Hd.
Qed.

Lemma content_ext s s' d n :
  k_bufs s' = k_bufs s -> k_disk s' = k_disk s -> content s' d n = content s d n.
Proof. intros E1 E2. unfold content, disk_block. by rewrite E1, E2. Qed.

Section brelse.
Context {F : Fuel}.
Context (l : list nat) (s : kernel) (i : nat) (p : proc) (pid d n : Z) (b : nat) (bf : buf).
Hypothesis (Hcalm : calm s i p) (Hinv : cache_inv l s) (Hown : owns s pid d n b bf).
(** What was changed in the buffer has been written or pinned. *)
Hypothesis (Hkept : dirty bf = true \/ b_data bf = disk_block s d n).

Lemma put_back_ref : b_refcnt bf -u 1 = b_refcnt bf - 1.
Proof.
  destruct Hown as [Hb _ _ _ _ Hr]. destruct (ci_bufs _ _ Hinv b bf Hb) as [[H1 H2] _ _ _ _].
  unfold u32. apply Z.mod_small. lia.
Qed.

Lemma released_inv : cache_inv l (released b bf s).
Proof.
  unfold released. set (s1 := s <| k_procs := _ |>).
  assert (Hinv1 : cache_inv l s1) by by apply (cache_inv_ext l s).
  pose proof put_back_ref as Href. destruct Hown as [Hb Hk Hv Hl Hp Hr].
  eapply cache_inv_put; [done|exact Hb|done| |by eapply (sole_same l s1)].
  destruct (ci_bufs _ _ Hinv1 b bf Hb) as [H1 H2 H3 H4 H5]. split; try done.
  - cbn. rewrite Href. lia.
  - intros _ Hd _. apply caches_spec in Hk as [E1 E2]. cbn. rewrite E1, E2.
    destruct Hkept as [E|E]; [|exact E]. unfold dirty in *. cbn in Hd. congruence.
Qed.

Lemma released_content d' n' :
  (d', n') <> (0, 0) -> content (released b bf s) d' n' = content s d' n'.
Proof.
  intros Hdn. pose proof released_inv as Hinv'. destruct Hown as [Hb Hk Hv Hl Hp Hr].
  apply (content_put s _ b bf (put_back bf)); try done; [apply Hinv|apply Hinv'].
Qed.

Lemma calm_released : calm (released b bf s) i p.
Proof.
  eapply calm_same; [exact Hcalm|done| |apply Hcalm]. cbn. apply wake_lookup; apply Hcalm.
Qed.

(** The part of [brelse] after [releasesleep]. *)
Lemma brelse_front :
  exists s', (do! updbuf b (fun bf => bf <| b_refcnt := b_refcnt bf -u 1 |>);
      let! bf := getbuf b in
      do! when (b_refcnt bf =? 0) (bfront b);
      release L_bcache) (acq L_bcache (drop_sl (SL_buf b) s)) = Ret tt s' /\
    relinked (released b bf s) s' /\ ring (touch b bf l) s'.
Proof.
  set (s1 := drop_sl (SL_buf b) s). pose proof released_inv as Hinv'. pose proof calm_released as Hc'.
  pose proof put_back_ref as Href. pose proof (owns_lt _ _ _ _ _ _ _ Hinv Hown) as Hlt.
  destruct Hown as [Hb Hk Hv Hl Hp Hr].
  assert (Hc1 : calm s1 i p).
  { eapply calm_same; [exact Hcalm|done| |apply Hcalm]. cbn. apply wake_lookup; apply Hcalm. }
  set (bf1 := bf <| b_lock := dropped (b_lock bf) |>).
  assert (Hb1 : k_bufs (acq L_bcache s1) !! b = Some bf1) by (cbn; by rewrite list_lookup_alter_eq, Hb).
  rewrite (bind_ret _ _ _ _ _ (updbuf_ret _ _ _ _ Hb1)).
  set (s2 := on_buf b _ (acq L_bcache s1)).
  assert (Es2 : k_bufs s2 = k_bufs (released b bf s)).
  { cbn. rewrite list_alter_alter. by rewrite (list_alter_insert _ _ _ _ Hb). }
  assert (Hb2 : k_bufs s2 !! b = Some (put_back bf)).
  { rewrite Es2. by eapply put_buf_lookup. }
  rewrite (bind_ret _ _ _ _ _ (getbuf_ret _ _ _ Hb2)).
  assert (Hring2 : ring l s2).
  { apply (ring_same l (released b bf s)); [apply Hinv'|..]; unfold nx, pv; by rewrite ?Es2. }
  assert (Hout : forall s3, relinked s2 s3 -> release L_bcache s3 = Ret tt (leave_cs s1 s3) /\
    relinked (released b bf s) (leave_cs s1 s3)).
  { intros s3 [E3 Hco]. split.
    - eapply release_calm; [exact Hc1|by apply Hc1|]. unfold same_locks. by rewrite E3.
    - split; [|cbn; by rewrite Hco, Es2]. rewrite E3. done. }
  unfold touch. cbn [b_refcnt put_back]. change (b_refcnt (put_back bf)) with (b_refcnt bf -u 1). rewrite Href.
  destruct (Z.eqb_spec (b_refcnt bf) 1) as [E|E].
  - rewrite E. cbn [Z.eqb Z.sub Z.add Z.opp Z.pos_sub Pos.pred_double]. unfold when.
    assert (Hin : b ∈ l) by (apply (ring_elem l s); [apply Hinv|done]).
    apply list_elem_of_split in Hin as (l1 & l2 & ->).
    destruct (bfront_ret b l1 l2 s2 Hring2) as (s3 & H3 & R3 & Hr3).
    rewrite (bind_ret _ _ _ _ _ H3). destruct (Hout s3 R3) as [H4 R4].
    exists (leave_cs s1 s3). split_and!; [done|done|].
    pose proof (ring_nodup _ _ Hring2) as [_ Hnd]%NoDup_cons. rewrite filter_ne_split by done.
    by apply (ring_same _ s3).
  - rewrite (proj2 (Z.eqb_neq (b_refcnt bf - 1) 0)) by lia. unfold when.
    rewrite (bind_ret _ _ _ _ _ eq_refl). destruct (Hout s2 (relinked_refl s2)) as [H4 R4].
    exists (leave_cs s1 s2). split_and!; [done|done|]. by apply (ring_same _ s2).
Qed.

Lemma brelse_ret :
  exists s', brelse b s = Ret tt s' /\ relinked (released b bf s) s' /\
    cache_inv (touch b bf l) s' /\ calm s' i p /\
    (forall d' n', (d', n') <> (0, 0) -> content s' d' n' = content s d' n').
Proof.
  destruct brelse_front as (s' & Hs & Hrel & Hring). exists s'.
  pose proof (cache_inv_relinked l _ _ _ Hrel Hring released_inv) as Hinv'. split_and!; try done.
  - unfold brelse. rewrite (bind_ret _ _ _ _ _ (holding_owned l s i p pid d n b bf Hcalm Hinv Hown)).
    cbn [negb]. pose proof Hown as [Hb _ _ _ _ _].
    pose proof (owns_lt _ _ _ _ _ _ _ Hinv Hown) as Hlt.
    erewrite bind_ret.
    2: { eapply (releasesleep_calm (SL_buf b)); [exact Hcalm|cbn; by rewrite Hb|by apply Hcalm]. }
    erewrite bind_ret; [exact Hs|]. eapply (acquire_calm _ _ i p).
    + eapply calm_same; [exact Hcalm|done| |apply Hcalm]. cbn. apply wake_lookup; apply Hcalm.
    + by apply Hcalm.
  - destruct Hrel as [E _]. rewrite E. eapply calm_same; [exact calm_released|done|..]; apply calm_released.
  - intros d' n' Hdn. rewrite <- (released_content d' n' Hdn).
    apply content_relinked; [apply released_inv|apply Hinv'|done|done].
Qed.
End brelse.
