(* ===== verification/Log.v ===== *)
(** * log.c: the write-ahead log

    And [readsb] of fs.c, which [initlog] calls. *)

From S2P Require Import Prelude State Monad Mem Spinlock Sample ConsoleOut Kalloc Vm Sched SleepWake.
From S2P Require Import Sleeplock Bio.

Definition updlog (f : logstate -> logstate) : K unit := modify (fun s => s <| k_log := f (k_log s) |>).

(** [log.lh.block[i]]: an index out of range is undefined behaviour. *)
Definition lh_get (i : Z) : K Z := fun s =>
  if 0 <=? i then deref "log.lh.block" (lh_block (log_lh (k_log s)) !! Z.to_nat i) s
  else Fault (FUB "log.lh.block") s.
Definition lh_put (i v : Z) (lh : logheader) : logheader :=
  lh <| lh_block := <[Z.to_nat i := i32 v]> (lh_block lh) |>.
Definition lh_set (i v : Z) : K unit :=
  do! lh_get i;
  updlog (fun lg => lg <| log_lh := lh_put i v (log_lh lg) |>).
Definition set_lhn (n : Z) : K unit :=
  updlog (fun lg => lg <| log_lh := (log_lh lg) <| lh_n := n |> |>).

(** [for(i = 0; i < log.lh.n; i++)]: the bound is read every time; the array
    has [LOGSIZE] entries, so that one turn more than that is enough. *)
Fixpoint for_lh (k : nat) (i : Z) (body : Z -> K unit) : K unit :=
  let! lg := gets k_log in
  if i <? lh_n (log_lh lg) then
    match k with
    | O => fail FFuel
    | S k' => do! body i; for_lh k' (i + 1) body
    end
  else ret tt.
Definition for_log (body : Z -> K unit) : K unit := for_lh (S (Z.to_nat LOGSIZE)) 0 body.

Section log.
Context {F : Fuel} {D : BlockDev}.

(** fs.c: the super block. *)
Definition decode_sb (l : list Z) : superblock :=
  MkSuperblock (lget32 0 l) (lget32 4 l) (lget32 8 l) (lget32 12 l) (lget32 16 l) (lget32 20 l)
    (lget32 24 l).
Definition readsb (dev : Z) : K superblock :=
  let! b := bread dev 1 in
  let! bf := getbuf b in
  do! brelse b;
  ret (decode_sb (b_data bf)).

Definition install_trans : K unit :=
  for_log (fun tail =>
    let! lg := gets k_log in
    let! lbuf := bread (u32 (log_dev lg)) (u32 (log_start lg + tail + 1)) in
    let! blk := lh_get tail in
    let! dbuf := bread (u32 (log_dev lg)) (u32 blk) in
    let! lb := getbuf lbuf in
    do! updbuf dbuf (fun bf => bf <| b_data := b_data lb |>);
    do! bwrite dbuf;
    do! brelse lbuf;
    brelse dbuf).

Definition read_head : K unit :=
  let! lg := gets k_log in
  let! b := bread (u32 (log_dev lg)) (u32 (log_start lg)) in
  let! bf := getbuf b in
  do! set_lhn (i32 (lget32 0 (b_data bf)));
  do! for_log (fun i =>
    let! bf := getbuf b in
    lh_set i (lget32 (4 + 4 * i) (b_data bf)));
  brelse b.

Definition write_head : K unit :=
  let! lg := gets k_log in
  let! b := bread (u32 (log_dev lg)) (u32 (log_start lg)) in
  let! lg := gets k_log in
  do! updbuf b (fun bf => bf <| b_data := lput32 0 (lh_n (log_lh lg)) (b_data bf) |>);
  do! for_log (fun i =>
    let! blk := lh_get i in
    updbuf b (fun bf => bf <| b_data := lput32 (4 + 4 * i) blk (b_data bf) |>));
  do! bwrite b;
  brelse b.

Definition recover_from_log : K unit :=
  do! read_head;
  do! install_trans;
  do! set_lhn 0;
  write_head.

Definition initlog (dev : Z) : K unit :=
  if BSIZE <=? 4 + 4 * LOGSIZE then panic "initlog: too big logheader"
  else
    do! initlock L_log "log";
    let! sb := readsb (u32 dev) in
    do! updlog (fun lg => lg <| log_start := i32 (sb_logstart sb) |>);
    do! updlog (fun lg => lg <| log_size := i32 (sb_nlog sb) |>);
    do! updlog (fun lg => lg <| log_dev := dev |>);
    recover_from_log.

Definition begin_op : K unit :=
  do! acquire L_log;
  forever fuel (
    let! lg := gets k_log in
    if negb (log_committing lg =? 0) then
      do! sleep CLog (Some L_log); ret None
    else if LOGSIZE <? lh_n (log_lh lg) + (log_outstanding lg + 1) * MAXOPBLOCKS then
      do! sleep CLog (Some L_log); ret None
    else
      do! updlog (fun lg => lg <| log_outstanding := log_outstanding lg + 1 |>);
      do! release L_log;
      ret (Some tt)).

Definition write_log : K unit :=
  for_log (fun tail =>
    let! lg := gets k_log in
    let! to := bread (u32 (log_dev lg)) (u32 (log_start lg + tail + 1)) in
    let! blk := lh_get tail in
    let! from := bread (u32 (log_dev lg)) (u32 blk) in
    let! fb := getbuf from in
    do! updbuf to (fun bf => bf <| b_data := b_data fb |>);
    do! bwrite to;
    do! brelse from;
    brelse to).

Definition commit : K unit :=
  let! lg := gets k_log in
  when (0 <? lh_n (log_lh lg)) (
    do! write_log;
    do! write_head;
    do! install_trans;
    do! set_lhn 0;
    write_head).

Definition end_op : K unit :=
  do! acquire L_log;
  do! updlog (fun lg => lg <| log_outstanding := log_outstanding lg - 1 |>);
  let! lg := gets k_log in
  if negb (log_committing lg =? 0) then panic "log.committing"
  else
    let do_commit := log_outstanding lg =? 0 in
    do! (if do_commit then updlog (fun lg => lg <| log_committing := 1 |>) else wakeup CLog);
    do! release L_log;
    when do_commit (
      do! commit;
      do! acquire L_log;
      do! updlog (fun lg => lg <| log_committing := 0 |>);
      do! wakeup CLog;
      release L_log).

(** The first entry of the log that holds [blockno], from [i] on. *)
Fixpoint log_find (k : nat) (i blockno : Z) : K Z :=
  let! lg := gets k_log in
  if i <? lh_n (log_lh lg) then
    match k with
    | O => fail FFuel
    | S k' =>
        let! blk := lh_get i in
        if u32 blk =? blockno then ret i else log_find k' (i + 1) blockno
    end
  else ret i.

Definition log_write (b : nat) : K unit :=
  let! lg := gets k_log in
  if (LOGSIZE <=? lh_n (log_lh lg)) || (log_size lg - 1 <=? lh_n (log_lh lg))
  then panic "too big a transaction"
  else if log_outstanding lg <? 1 then panic "log_write outside of trans"
  else
    do! acquire L_log;
    let! bf := getbuf b in
    let! i := log_find (S (Z.to_nat LOGSIZE)) 0 (b_blockno bf) in
    do! lh_set i (b_blockno bf);
    let! lg := gets k_log in
    do! when (i =? lh_n (log_lh lg)) (set_lhn (lh_n (log_lh lg) + 1));
    do! updbuf b (fun bf => bf <| b_flags := Z.lor (b_flags bf) B_DIRTY |>);
    release L_log.
End log.
