(* ===== verification/LogFacts.v ===== *)
(** * The log: block operations

    What the log does with blocks, for a process that is alone in the file
    system: read two blocks, copy one over the other, write it. *)

From stdpp Require Import functions.
From S2P Require Import Prelude State Monad Mem Spinlock Sample ConsoleOut Kalloc Vm Sched SleepWake.
From S2P Require Import Sleeplock Bio BioFacts Cache Log.

(** ** Frames *)

(** The parts of the kernel that the buffer cache and the disk touch. *)
Definition io_frame (s s' : kernel) : Prop :=
  s' = s <| k_bufs := k_bufs s' |> <| k_bhead := k_bhead s' |> <| k_procs := k_procs s' |>
         <| k_disk := k_disk s' |> <| k_writes := k_writes s' |>.

Lemma io_frame_refl s : io_frame s s.
Proof. by destruct s. Qed.
Lemma io_frame_trans s1 s2 s3 : io_frame s1 s2 -> io_frame s2 s3 -> io_frame s1 s3.
Proof. unfold io_frame. intros H1 H2. rewrite H2, H1. done. Qed.
Lemma io_frame_put b bf s : io_frame s (put_buf b bf s).
Proof. by destruct s. Qed.
Lemma io_frame_write d n data s : io_frame s (disk_write d n data s).
Proof. by destruct s. Qed.
Lemma io_frame_released b bf s s' : relinked (released b bf s) s' -> io_frame s s'.
Proof. intros [E _]. unfold io_frame. rewrite E. by destruct s. Qed.
Lemma io_frame_log s s' : io_frame s s' -> k_log s' = k_log s.
Proof. intros E. by rewrite E. Qed.

(** ** Buffers that a step leaves alone *)

(** Buffer [c] is the same in both states, but for its links. *)
Definition kept_buf (s s' : kernel) (c : nat) : Prop :=
  forall bc, k_bufs s !! c = Some bc -> exists bc', k_bufs s' !! c = Some bc' /\ core bc' = core bc.

Lemma kept_buf_refl s c : kept_buf s s c.
Proof. intros bc H. eauto. Qed.
Lemma kept_buf_trans s1 s2 s3 c : kept_buf s1 s2 c -> kept_buf s2 s3 c -> kept_buf s1 s3 c.
Proof.
  intros H1 H2 bc Hc. destruct (H1 bc Hc) as (bc1 & Hc1 & E1). destruct (H2 bc1 Hc1) as (bc2 & Hc2 & E2).
  exists bc2. split; [done|congruence].
Qed.
Lemma kept_buf_put s b bf c : c <> b -> kept_buf s (put_buf b bf s) c.
Proof. intros H bc Hc. exists bc. by rewrite put_buf_ne by done. Qed.
Lemma kept_buf_relinked s s' c : relinked s s' -> kept_buf s s' c.
Proof. intros H bc Hc. by eapply relinked_lookup. Qed.
Lemma kept_buf_released s s' b bf c :
  c <> b -> relinked (released b bf s) s' -> kept_buf s s' c.
Proof.
  intros Hne H. eapply kept_buf_trans; [|by eapply kept_buf_relinked].
  intros bc Hc. exists bc. split; [|done]. unfold released. by rewrite put_buf_ne.
Qed.

(** Ownership depends on the core of the buffer. *)
Lemma owns_kept s s' pid d n b bf :
  owns s pid d n b bf -> kept_buf s s' b -> exists bf', owns s' pid d n b bf' /\ core bf' = core bf.
Proof.
  intros [Hb Hk Hv Hl Hp Hr] H. destruct (H bf Hb) as (bf' & Hb' & E). exists bf'. split; [|done].
  apply core_eq in E as (E1 & E2 & E3 & E4 & E5 & E6). unfold caches, valid in *.
  split; unfold caches, valid; by rewrite ?E1, ?E2, ?E3, ?E4, ?E5.
Qed.

Lemma content_owned l s pid d n b bf :
  cache_inv l s -> (d, n) <> (0, 0) -> owns s pid d n b bf -> content s d n = b_data bf.
Proof. intros Hi Hdn [Hb Hk Hv _ _ _]. by apply (content_cached s d n b bf); [apply Hi|..]. Qed.

(** ** Writing new data through an owned buffer *)

Section write_owned.
Context {F : Fuel} {D : BlockDev} {HD : SyncDev D}.
Context (l : list nat) (s : kernel) (i : nat) (p : proc) (pid d n : Z) (b : nat) (bf : buf) (data : list Z).
Hypothesis (Hcalm : calm s i p) (Hinv : cache_inv l s) (Hown : owns s pid d n b bf).
Hypothesis (Hdn : (d, n) <> (0, 0)) (Hok : blk_ok d n = true) (Hlen : length data = block_size).

(** The buffer with the new data, and the state when it has been written. *)
Definition fresh : buf := bf <| b_data := data |>.
Definition wrote : kernel := put_buf b (cleaned fresh) (disk_write d n data (put_buf b fresh s)).

Lemma fresh_inv : cache_inv l (put_buf b fresh s).
Proof.
  assert (E : bf <| b_data := data |> <| b_flags := b_flags bf |> = fresh) by (unfold fresh; by destruct bf).
  rewrite <- E. by eapply change_inv; [..|left].
Qed.

Lemma fresh_owns : owns (put_buf b fresh s) pid d n b fresh.
Proof. destruct Hown. by apply (owns_put s pid d n b bf). Qed.

Lemma wrote_ret : bwrite b (put_buf b fresh s) = Ret tt wrote.
Proof.
  apply (bwrite_ret l (put_buf b fresh s) i p pid); [by eapply calm_bufs|apply fresh_inv|apply fresh_owns|done].
Qed.

Lemma wrote_inv : cache_inv l wrote.
Proof. exact (bwrite_inv l _ pid d n b fresh fresh_inv fresh_owns Hdn). Qed.

Lemma wrote_content d' n' :
  (d', n') <> (0, 0) ->
  content wrote d' n' = if decide ((d', n') = (d, n)) then data else content s d' n'.
Proof.
  intros Hdn'. unfold wrote. change data with (b_data fresh) at 1.
  rewrite (bwrite_content l _ pid d n b fresh fresh_inv fresh_owns Hdn) by done.
  assert (E : bf <| b_data := data |> <| b_flags := b_flags bf |> = fresh) by (unfold fresh; by destruct bf).
  rewrite <- E. by eapply change_content; [..|left| |].
Qed.

Lemma wrote_calm : calm wrote i p.
Proof. eapply calm_same; [exact Hcalm|done|apply Hcalm..]. Qed.

Lemma wrote_owns : owns wrote pid d n b (cleaned fresh).
Proof.
  destruct fresh_owns as [Hb Hk Hv Hl Hp Hr]. split; try done; [|apply cleaned_valid].
  by eapply put_buf_lookup.
Qed.

Lemma wrote_kept c : c <> b -> kept_buf s wrote c.
Proof.
  intros Hc bc Hbc. exists bc. split; [|done]. unfold wrote. rewrite put_buf_ne by done.
  change (k_bufs (put_buf b fresh s) !! c = Some bc). by rewrite put_buf_ne.
Qed.

Lemma wrote_frame : io_frame s wrote.
Proof.
  eapply io_frame_trans; [apply (io_frame_put b fresh)|].
  eapply io_frame_trans; [apply (io_frame_write d n data)|apply io_frame_put].
Qed.

Lemma wrote_disk d' n' :
  disk_block wrote d' n' = if decide ((d', n') = (d, n)) then data else disk_block s d' n'.
Proof. exact (disk_block_write _ d n data d' n'). Qed.
End write_owned.

(** What [brelse] leaves of the buffer. *)
Lemma released_lookup s s' b bf :
  k_bufs s !! b = Some bf -> relinked (released b bf s) s' ->
  exists b', k_bufs s' !! b = Some b' /\ core b' = core (put_back bf).
Proof.
  intros Hb R. apply (relinked_lookup _ s' b (put_back bf) R). unfold released.
  by apply (put_buf_lookup b _ _ bf).
Qed.

Lemma put_back_core bf bf' : core bf' = core bf -> core (put_back bf') = core (put_back bf).
Proof. destruct bf, bf'. intros [=]. by subst. Qed.

(** ** Copying one owned buffer over another *)

Section copy.
Context {F : Fuel} {D : BlockDev} {HD : SyncDev D}.
Context (l : list nat) (s : kernel) (i : nat) (p : proc) (pid d x y : Z).
Context (src dst : nat) (bs bd : buf).
Hypothesis (Hcalm : calm s i p) (Hinv : cache_inv l s).
Hypothesis (Hsrc : owns s pid d x src bs) (Hdst : owns s pid d y dst bd) (Hne : src <> dst).
Hypothesis (Hx : (d, x) <> (0, 0)) (Hy : (d, y) <> (0, 0)) (Hok : blk_ok d y = true).
Hypothesis (Hkept : dirty bs = true \/ b_data bs = disk_block s d x).

Lemma copy_keys : x <> y.
Proof.
  intros E. apply Hne. destruct Hsrc as [H1 H2 _ _ _ _], Hdst as [H3 H4 _ _ _ _].
  eapply (ci_uniq _ _ Hinv); [exact H1|exact H3|exact H2| |done]. by rewrite E.
Qed.

(** The buffer [dst] at the end. *)
Definition copied : buf := put_back (cleaned (bd <| b_data := b_data bs |>)).

Record copy_post (s' : kernel) : Prop := {
  cp_calm : calm s' i p;
  cp_inv : exists l', cache_inv l' s';
  cp_frame : io_frame s s';
  cp_disk : k_disk s' = <[(d, y) := b_data bs]> (k_disk s);
  cp_writes : k_writes s' = k_writes s ++ [(d, y, b_data bs)];
  cp_content : forall d' n', (d', n') <> (0, 0) ->
    content s' d' n' = if decide ((d', n') = (d, y)) then b_data bs else content s d' n';
  cp_kept : forall c, c <> src -> c <> dst -> kept_buf s s' c;
  cp_src : exists b', k_bufs s' !! src = Some b' /\ core b' = core (put_back bs);
  cp_dst : exists b', k_bufs s' !! dst = Some b' /\ core b' = core copied
}.

Lemma copy_tail :
  exists s', (do! updbuf dst (fun bf => bf <| b_data := b_data bs |>);
      do! bwrite dst; do! brelse src; brelse dst) s = Ret tt s' /\ copy_post s'.
Proof.
  pose proof copy_keys as Hxy. pose proof (ow_buf _ _ _ _ _ _ Hdst) as Hbd.
  assert (Hlen : length (b_data bs) = block_size)
    by (destruct Hsrc as [Hb _ _ _ _ _]; by apply (ci_bufs _ _ Hinv src bs)).
  set (s2 := wrote s d y dst bd (b_data bs)).
  pose proof (wrote_calm s i p d y dst bd (b_data bs) Hcalm) as Hcalm2. fold s2 in Hcalm2.
  pose proof (wrote_inv l s pid d y dst bd (b_data bs) Hinv Hdst Hy Hlen) as Hinv2. fold s2 in Hinv2.
  destruct (owns_kept s s2 pid d x src bs Hsrc (wrote_kept s d y dst bd _ src Hne)) as (bs2 & Hown2 & Es2).
  pose proof (core_eq _ _ Es2) as (Ef & _ & _ & _ & _ & Edt).
  destruct (brelse_ret l s2 i p pid d x src bs2 Hcalm2 Hinv2 Hown2) as (s3 & H3 & R3 & Hinv3 & Hcalm3 & Hc3).
  { unfold dirty in *. rewrite Ef, Edt. destruct Hkept as [?|E]; [by left|right]. rewrite E.
    unfold s2. rewrite wrote_disk. by rewrite decide_False by congruence. }
  pose proof (wrote_owns s pid d y dst bd (b_data bs) Hdst) as Hownd. fold s2 in Hownd.
  destruct (owns_kept _ s3 _ _ _ _ _ Hownd) as (bd3 & Hown3 & E3).
  { by apply (kept_buf_released s2 s3 src bs2). }
  pose proof (core_eq _ _ E3) as (_ & _ & _ & _ & _ & Gdt).
  destruct (brelse_ret _ s3 i p pid d y dst bd3 Hcalm3 Hinv3 Hown3) as (s4 & H4 & R4 & Hinv4 & Hcalm4 & Hc4).
  { right. rewrite Gdt. destruct R3 as [-> _]. symmetry. etrans; [apply (wrote_disk s d y dst bd (b_data bs))|].
    by rewrite decide_True. }
  exists s4. split.
  { rewrite (bind_ret _ _ _ _ _ (updbuf_ret s dst bd _ Hbd)), (on_buf_put _ _ _ _ Hbd).
    erewrite bind_ret by exact (wrote_ret l s i p pid d y dst bd (b_data bs) Hcalm Hinv Hdst Hok Hlen).
    by erewrite bind_ret by exact H3. }
  split; [done|by eauto| | | | | | |].
  - eapply io_frame_trans; [|exact (io_frame_released _ _ _ _ R4)].
    eapply io_frame_trans; [|exact (io_frame_released _ _ _ _ R3)]. apply wrote_frame.
  - destruct R4 as [-> _], R3 as [-> _]. done.
  - destruct R4 as [-> _], R3 as [-> _]. done.
  - intros d' n' Hdn. rewrite Hc4, Hc3 by done. by eapply wrote_content.
  - intros c Hcs Hcd. eapply kept_buf_trans; [by apply (wrote_kept s d y dst bd (b_data bs))|].
    eapply kept_buf_trans; [exact (kept_buf_released _ _ _ _ _ Hcs R3)|exact (kept_buf_released _ _ _ _ _ Hcd R4)].
  - destruct (released_lookup s2 s3 src bs2 (ow_buf _ _ _ _ _ _ Hown2) R3) as (b' & Hb' & E').
    destruct (kept_buf_released s3 s4 dst bd3 src Hne R4 b' Hb') as (b'' & Hb'' & E'').
    exists b''. split; [done|]. rewrite E'', E'. by apply put_back_core.
  - destruct (released_lookup s3 s4 dst bd3 (ow_buf _ _ _ _ _ _ Hown3) R4) as (b' & Hb' & E').
    exists b'. split; [done|]. rewrite E'. by apply put_back_core.
Qed.
End copy.

(** ** A process alone in the file system *)

Record alone (l : list nat) (s : kernel) (i : nat) (p : proc) : Prop := {
  al_calm : calm s i p;
  al_inv : cache_inv l s;
  al_idle : forall b bf, k_bufs s !! b = Some bf -> b_refcnt bf = 0
}.

(** The dirty buffers of [s'] are those of [s], but for the one of block [t]. *)
Definition unpins (d t : Z) (s s' : kernel) : Prop :=
  (forall b bf, k_bufs s !! b = Some bf -> dirty bf = true -> caches d t bf = false ->
     exists bf', k_bufs s' !! b = Some bf' /\ dirty bf' = true /\
       b_dev bf' = b_dev bf /\ b_blockno bf' = b_blockno bf) /\
  (forall b bf', k_bufs s' !! b = Some bf' -> dirty bf' = true ->
     exists bf, k_bufs s !! b = Some bf /\ dirty bf = true /\ caches d t bf = false).

(** Block [y] is pinned in the cache; there is a buffer to spare. *)
Definition pinned (d y : Z) (s : kernel) : Prop :=
  exists b bf, k_bufs s !! b = Some bf /\ dirty bf = true /\ caches d y bf = true.
Definition spare (s : kernel) (b : nat) : Prop :=
  exists bf, k_bufs s !! b = Some bf /\ dirty bf = false.

(** Two buffers can be had for the blocks [x] and then [y]. *)
Definition room (d y : Z) (s : kernel) : Prop :=
  (pinned d y s /\ exists b, spare s b) \/ exists a b, a <> b /\ spare s a /\ spare s b.

Lemma alone_recyclable l s i p b : alone l s i p -> spare s b ->
  exists bf, k_bufs s !! b = Some bf /\ recyclable bf = true.
Proof.
  intros [_ _ Hid] (bf & Hb & Hd). exists bf. split; [done|]. unfold recyclable.
  rewrite (Hid b bf Hb). unfold dirty in Hd. apply negb_false_iff in Hd. by rewrite Hd.
Qed.

Lemma recyclable_clean bf : recyclable bf = true -> dirty bf = false.
Proof. intros [_ H]%andb_true_iff. unfold dirty. by rewrite H. Qed.

Lemma room_spare d y s : room d y s -> exists b, spare s b.
Proof. intros [[_ H]|(a & b & _ & H & _)]; eauto. Qed.

Lemma alone_unlocked l s i p b bf :
  alone l s i p -> k_bufs s !! b = Some bf -> sl_locked (b_lock bf) = 0.
Proof. intros [_ Hinv Hid] Hb. apply (ci_bufs _ _ Hinv b bf Hb). by eapply Hid. Qed.

Lemma alone_gettable {D : BlockDev} l s i p d n :
  alone l s i p -> (d, n) <> (0, 0) -> blk_ok d n = true -> (exists b, spare s b) -> gettable s d n.
Proof.
  intros Hal Hdn Hok [b Hb]. split; [done|done| |].
  - intros c bc Hc _. split; [by eapply alone_unlocked|]. rewrite (al_idle _ _ _ _ Hal c bc Hc). lia.
  - right. destruct (alone_recyclable _ _ _ _ _ Hal Hb) as (bf & H1 & H2). eauto.
Qed.

(** A clean block that nobody holds is the one on the disk. *)
Lemma content_clean l s i p d n b bf :
  alone l s i p -> k_bufs s !! b = Some bf -> has_block d n bf -> dirty bf = false ->
  b_data bf = disk_block s d n.
Proof.
  intros Hal Hb [Hk Hv] Hd. apply caches_spec in Hk as [<- <-].
  apply (ci_bufs _ _ (al_inv _ _ _ _ Hal) b bf Hb); [done|done|by eapply alone_unlocked].
Qed.

Section single.
Context {F : Fuel} {D : BlockDev} {HD : SyncDev D} (Hfuel : (0 < fuel)%nat).
Context (l : list nat) (s : kernel) (i : nat) (p : proc) (d x : Z).
Hypothesis (Hal : alone l s i p) (Hx : (d, x) <> (0, 0)) (Hokx : blk_ok d x = true).
Hypothesis (Hspare : exists b, spare s b).

(** A buffer that [bread] has returned, compared with the one before. *)
Record fetched (n : Z) (s1 : kernel) (b : nat) (bf0 bf : buf) : Prop := {
  ft_before : k_bufs s !! b = Some bf0;
  ft_owns : owns s1 (p_pid p) d n b bf;
  ft_data : b_data bf = content s d n;
  ft_ref : b_refcnt bf = 1;
  ft_kept : dirty bf = true \/ b_data bf = disk_block s d n;
  ft_dirty : dirty bf = dirty bf0;
  ft_same : dirty bf0 = true -> caches d n bf0 = true
}.

Lemma first_bread :
  exists b bf0 bf, bread d x s = Ret b (put_buf b bf s) /\ fetched x (put_buf b bf s) b bf0 bf /\
    cache_inv l (put_buf b bf s) /\
    (forall d' n', (d', n') <> (0, 0) -> content (put_buf b bf s) d' n' = content s d' n').
Proof.
  pose proof Hal as [Hcalm Hinv Hid].
  assert (Hget : gettable s d x) by by eapply alone_gettable.
  destruct (bread_ret Hfuel l s i p d x Hcalm Hinv Hget)
    as (b & bf0 & bf & Hr & Hb & Hown & Hdata & Hinv1 & Hc & Href & Hcase).
  assert (Hkept : dirty bf = true \/ b_data bf = disk_block s d x).
  { destruct (dirty bf) eqn:Hd; [by left|right]. rewrite Hdata.
    destruct (content_cases s d x (ci_uniq _ _ Hinv) Hx) as [(c & bc & Hbc & Hh & ->)|[_ ->]]; [|done].
    eapply content_clean; [done|done|done|]. destruct Hcase as [[Hk E]|(_ & _ & Hno)].
    - assert (c = b) as -> by (eapply (ci_uniq _ _ Hinv); [exact Hbc|exact Hb|apply Hh|done|done]). congruence.
    - destruct Hh as [Hh _]. by rewrite (Hno c bc Hbc) in Hh. }
  exists b, bf0, bf. split_and!; [done| |done|done]. split; [done|done|done| |done|..].
  - rewrite Href, (Hid b bf0 Hb). by destruct (caches d x bf0).
  - destruct Hcase as [[_ E]|(Hrec & E & _)]; [done|]. by rewrite E, (recyclable_clean _ Hrec).
  - destruct Hcase as [[Hk _]|(Hrec & _)]; [done|]. by rewrite (recyclable_clean _ Hrec).
Qed.
End single.

Section pair.
Context {F : Fuel} {D : BlockDev} {HD : SyncDev D} (Hfuel : (0 < fuel)%nat).
Context (l : list nat) (s : kernel) (i : nat) (p : proc) (d x y : Z).
Hypothesis (Hal : alone l s i p) (Hx : (d, x) <> (0, 0)) (Hy : (d, y) <> (0, 0)) (Hxy : x <> y).
Hypothesis (Hokx : blk_ok d x = true) (Hoky : blk_ok d y = true) (Hroom : room d y s).

Lemma second_gettable b bf0 bf :
  k_bufs s !! b = Some bf0 -> caches d x bf = true -> (dirty bf0 = true -> caches d x bf0 = true) ->
  gettable (put_buf b bf s) d y.
Proof.
  intros Hb Hk Hd0.
  assert (Hne : forall c bc, k_bufs (put_buf b bf s) !! c = Some bc -> caches d y bc = true ->
    c <> b /\ k_bufs s !! c = Some bc).
  { intros c bc Hc Hkc. destruct (decide (c = b)) as [->|Hcb]; [|by rewrite put_buf_ne in Hc].
    rewrite (put_buf_lookup _ _ _ _ Hb) in Hc. injection Hc as <-.
    apply caches_spec in Hk as [_ E1]. apply caches_spec in Hkc as [_ E2]. congruence. }
  split; [done|done| |].
  - intros c bc Hc Hkc. destruct (Hne c bc Hc Hkc) as [_ Hc0]. split; [by eapply alone_unlocked|].
    rewrite (al_idle _ _ _ _ Hal c bc Hc0). lia.
  - destruct Hroom as [[(c & bc & Hc & Hdc & Hkc) _]|(a1 & a2 & Ha & H1 & H2)].
    + left. exists c, bc. split; [|done]. rewrite put_buf_ne; [done|]. intros <-.
      assert (bc = bf0) as -> by congruence. specialize (Hd0 Hdc).
      apply caches_spec in Hd0 as [_ E1]. apply caches_spec in Hkc as [_ E2]. congruence.
    + right. assert (Hsp : exists c, c <> b /\ spare s c).
      { destruct (decide (a1 = b)) as [->|]; eauto. }
      destruct Hsp as (c & Hcb & Hsp). destruct (alone_recyclable _ _ _ _ _ Hal Hsp) as (bc & Hc & Hrc).
      exists c, bc. by rewrite put_buf_ne.
Qed.

(** Both blocks are in owned buffers. *)
Record pair_post (s2 : kernel) (b1 b2 : nat) (f1 f2 : buf) : Prop := {
  pp_calm : calm s2 i p;
  pp_inv : cache_inv l s2;
  pp_ne : b1 <> b2;
  pp_x : exists f0, fetched s p d x s2 b1 f0 f1;
  pp_y : exists f0, fetched s p d y s2 b2 f0 f2;
  pp_rest : forall c, c <> b1 -> c <> b2 -> k_bufs s2 !! c = k_bufs s !! c;
  pp_frame : io_frame s s2;
  pp_disk : k_disk s2 = k_disk s;
  pp_writes : k_writes s2 = k_writes s;
  pp_content : forall d' n', (d', n') <> (0, 0) -> content s2 d' n' = content s d' n'
}.

Lemma two_breads :
  exists b1 b2 f1 f2 s1 s2, bread d x s = Ret b1 s1 /\ bread d y s1 = Ret b2 s2 /\
    io_frame s s1 /\ pair_post s2 b1 b2 f1 f2.
Proof.
  destruct (first_bread Hfuel l s i p d x Hal Hx Hokx (room_spare _ _ _ Hroom)) as (b1 & f10 & f1 & Hr1 & Hf1 & Hinv1 & Hc1).
  set (s1 := put_buf b1 f1 s) in *. destruct Hf1 as [Hb1 Hown1 Hdat1 Href1 Hkept1 Hdir1 Hd1].
  assert (Hcalm1 : calm s1 i p) by (eapply calm_bufs; [apply Hal|done]).
  assert (Hget : gettable s1 d y) by (eapply second_gettable; [exact Hb1|apply Hown1|done]).
  destruct (bread_ret Hfuel l s1 i p d y Hcalm1 Hinv1 Hget)
    as (b2 & f20 & f2 & Hr2 & Hb2 & Hown2 & Hdat2 & Hinv2 & Hc2 & Href2 & Hcase).
  assert (Hne : b1 <> b2).
  { intros <-. pose proof (ow_buf _ _ _ _ _ _ Hown1) as E. assert (f20 = f1) as -> by congruence.
    destruct Hcase as [[Hk _]|(Hrec & _)].
    - apply caches_spec in Hk as [_ E2]. destruct Hown1 as [_ Hk1 _ _ _ _].
      apply caches_spec in Hk1 as [_ E1]. congruence.
    - apply andb_true_iff in Hrec as [Hz%Z.eqb_eq _]. lia. }
  assert (Hb20 : k_bufs s !! b2 = Some f20) by (unfold s1 in Hb2; by rewrite put_buf_ne in Hb2).
  set (s2 := put_buf b2 f2 s1) in *. exists b1, b2, f1, f2, s1, s2.
  split_and!; [done|done|apply io_frame_put|].
  assert (Hkept2 : dirty f2 = true \/ b_data f2 = disk_block s d y).
  { destruct (dirty f2) eqn:Hd; [by left|right]. rewrite Hdat2, Hc1 by done.
    pose proof (al_inv _ _ _ _ Hal) as Hinv.
    destruct (content_cases s d y (ci_uniq _ _ Hinv) Hy) as [(c & bc & Hbc & Hh & ->)|[_ ->]]; [|done].
    destruct Hcase as [[Hk E]|(_ & _ & Hno)].
    - assert (c = b2) as -> by (eapply (ci_uniq _ _ Hinv); [exact Hbc|exact Hb20|apply Hh|done|done]).
      eapply content_clean; [done|done|done|congruence].
    - eapply content_clean; [done|done|done|]. destruct (dirty bc) eqn:Hdc; [|done].
      assert (Hcb : c <> b1).
      { intros ->. assert (bc = f10) as -> by congruence. specialize (Hd1 Hdc).
        apply caches_spec in Hd1 as [_ E1]. destruct Hh as [Hh _]. apply caches_spec in Hh as [_ E2]. congruence. }
      destruct Hh as [Hh _]. rewrite (Hno c bc) in Hh; [done|]. unfold s1. by rewrite put_buf_ne. }
  split; try done.
  - by eapply calm_bufs.
  - exists f10. split; try done. destruct Hown1 as [E1 E2 E3 E4 E5 E6]. split; try done.
    unfold s2. by rewrite put_buf_ne by auto.
  - exists f20. split; try done; [by rewrite Hdat2, Hc1|..].
    + rewrite Href2, (al_idle _ _ _ _ Hal b2 f20 Hb20). by destruct (caches d y f20).
    + destruct Hcase as [[_ E]|(Hrec & E & _)]; [done|]. by rewrite E, (recyclable_clean _ Hrec).
    + destruct Hcase as [[Hk _]|(Hrec & _)]; [done|]. by rewrite (recyclable_clean _ Hrec).
  - intros c H1 H2. unfold s2, s1. by rewrite !put_buf_ne by auto.
  - intros d' n' Hdn. by rewrite Hc2, Hc1.
Qed.
End pair.

(** ** Copying a block over another one *)

(** Block [t] of device [d] has become a copy of [data], in the cache and on
    the disk. *)
Record block_written (d t : Z) (data : list Z) (i : nat) (p : proc) (s s' : kernel) : Prop := {
  bw_alone : exists l', alone l' s' i p;
  bw_frame : io_frame s s';
  bw_disk : k_disk s' = <[(d, t) := data]> (k_disk s);
  bw_writes : k_writes s' = k_writes s ++ [(d, t, data)];
  bw_content : forall d' n', (d', n') <> (0, 0) ->
    content s' d' n' = if decide ((d', n') = (d, t)) then data else content s d' n';
  bw_unpins : unpins d t s s'
}.

Lemma put_back_dirty bf : dirty (put_back bf) = dirty bf.
Proof. done. Qed.
Lemma put_back_zero bf : b_refcnt bf = 1 -> b_refcnt (put_back bf) = 0.
Proof. intros H. cbn. by rewrite H. Qed.

Section copy_pair.
Context {F : Fuel} {D : BlockDev} {HD : SyncDev D}.
Context (l : list nat) (s s2 : kernel) (i : nat) (p : proc) (d f t : Z) (src dst : nat) (bs bd f0 g0 : buf).
Hypothesis (Hal : alone l s i p) (Hcalm : calm s2 i p) (Hinv : cache_inv l s2) (Hne : src <> dst).
Hypothesis (Hf : (d, f) <> (0, 0)) (Ht : (d, t) <> (0, 0)) (Hok : blk_ok d t = true).
Hypothesis (Hsrc : fetched s p d f s2 src f0 bs) (Hdst : fetched s p d t s2 dst g0 bd).
Hypothesis (Hrest : forall c, c <> src -> c <> dst -> k_bufs s2 !! c = k_bufs s !! c).
Hypothesis (Hframe : io_frame s s2) (Hdisk : k_disk s2 = k_disk s) (Hwr : k_writes s2 = k_writes s).
Hypothesis (Hcont : forall d' n', (d', n') <> (0, 0) -> content s2 d' n' = content s d' n').

Lemma copy_unpins s' : copy_post s2 i p d t src dst bs bd s' -> unpins d t s s'.
Proof.
  intros [_ (l' & Hinv') _ _ _ _ Hk (b' & Hb' & E') (e' & He' & Ee')].
  destruct Hsrc as [Hf0 Hown _ _ _ Hdir Hsame], Hdst as [Hg0 Hownd _ _ _ Hdird Hsamed].
  pose proof (core_eq _ _ E') as (Ef & Edv & Ebn & _). pose proof (core_eq _ _ Ee') as (Gf & _).
  assert (Hde : dirty e' = false) by (unfold dirty in *; rewrite Gf; apply cleaned_dirty).
  assert (Hdb : dirty b' = dirty f0) by (rewrite <- Hdir; unfold dirty; by rewrite Ef).
  pose proof (ow_caches _ _ _ _ _ _ Hown) as [K1 K2]%caches_spec. split.
  - intros b bf Hb Hd Hkt. destruct (decide (b = dst)) as [->|Hbd].
    { assert (bf = g0) as -> by congruence. specialize (Hsamed Hd). congruence. }
    destruct (decide (b = src)) as [->|Hbs].
    + assert (bf = f0) as -> by congruence. apply Hsame in Hd as Hk0. apply caches_spec in Hk0 as [K3 K4].
      exists b'. split_and!; [done|congruence|rewrite Edv; cbn; congruence|rewrite Ebn; cbn; congruence].
    + rewrite <- Hrest in Hb by done. destruct (Hk b Hbs Hbd bf Hb) as (bf' & Hb2 & E).
      pose proof (core_eq _ _ E) as (E1 & E2 & E3 & _). exists bf'. unfold dirty in *. by rewrite E1.
  - intros b bf' Hbf' Hd. destruct (decide (b = dst)) as [->|Hbd]; [congruence|].
    destruct (decide (b = src)) as [->|Hbs].
    + assert (bf' = b') as -> by congruence. exists f0. rewrite Hdb in Hd. split_and!; [done|done|].
      apply not_true_is_false. intros Hkt. apply Hsame in Hd. apply caches_spec in Hd as [_ K3].
      apply caches_spec in Hkt as [_ K4]. apply Hne.
      eapply (ci_uniq _ _ Hinv); [apply Hown|apply Hownd|apply Hown| |exact Hf].
      replace f with t by congruence. apply Hownd.
    + assert (Hlt : is_Some (k_bufs s2 !! b)).
      { apply lookup_lt_is_Some. destruct (ci_ring _ _ Hinv) as (_ & _ & ->).
        destruct (ci_ring _ _ Hinv') as (_ & _ & <-). by eapply lookup_lt_Some. }
      destruct Hlt as [bf Hb]. destruct (Hk b Hbs Hbd bf Hb) as (bf1 & Hb1 & E).
      assert (bf1 = bf') as -> by congruence. pose proof (core_eq _ _ E) as (E1 & _).
      exists bf. rewrite <- Hrest by done. unfold dirty in *. rewrite <- E1. split_and!; [done|done|].
      apply not_true_is_false. intros Hkt. apply Hbd.
      eapply (ci_uniq _ _ Hinv); [exact Hb|apply Hownd|exact Hkt|apply Hownd|exact Ht].
Qed.

Lemma copy_pair_ret :
  exists s', (do! updbuf dst (fun bf => bf <| b_data := b_data bs |>);
      do! bwrite dst; do! brelse src; brelse dst) s2 = Ret tt s' /\
    block_written d t (content s d f) i p s s'.
Proof.
  pose proof Hsrc as [Hf0 Hown Hdat Href Hkept _ _]. pose proof Hdst as [_ Hownd _ Hrefd _ _ _].
  assert (Hkept2 : dirty bs = true \/ b_data bs = disk_block s2 d f)
    by (unfold disk_block in *; by rewrite Hdisk).
  destruct (copy_tail l s2 i p (p_pid p) d f t src dst bs bd Hcalm Hinv Hown Hownd Hne Hf Ht Hok Hkept2)
    as (s' & Hs & Hpost). exists s'. split; [exact Hs|]. pose proof (copy_unpins s' Hpost) as Hup.
  destruct Hpost as [Hc (l' & Hi) Hfr Hd Hw Hco Hk (b' & Hb' & E') (e' & He' & Ee')].
  split; [|by eapply io_frame_trans|by rewrite Hd, Hdat, Hdisk|by rewrite Hw, Hdat, Hwr| |done].
  - exists l'. split; [done|done|]. intros b bf Hb. destruct (decide (b = dst)) as [->|Hbd].
    { assert (bf = e') as -> by congruence. apply core_eq in Ee' as (_ & _ & _ & _ & -> & _).
      apply put_back_zero. exact Hrefd. }
    destruct (decide (b = src)) as [->|Hbs].
    { assert (bf = b') as -> by congruence. apply core_eq in E' as (_ & _ & _ & _ & -> & _).
      by apply put_back_zero. }
    assert (Hlt : is_Some (k_bufs s2 !! b)).
    { apply lookup_lt_is_Some. destruct (ci_ring _ _ Hinv) as (_ & _ & ->).
      destruct (ci_ring _ _ Hi) as (_ & _ & <-). by eapply lookup_lt_Some. }
    destruct Hlt as [bf2 Hb2]. destruct (Hk b Hbs Hbd bf2 Hb2) as (bf1 & Hb1 & E).
    assert (bf1 = bf) as -> by congruence. apply core_eq in E as (_ & _ & _ & _ & -> & _).
    rewrite Hrest in Hb2 by done. by eapply Hal.
  - intros d' n' Hdn. rewrite Hco, Hdat, Hcont by done. done.
Qed.
End copy_pair.

(** ** One block *)

Section one_block.
Context {F : Fuel} {D : BlockDev} {HD : SyncDev D}.
Context (l : list nat) (s : kernel) (i : nat) (p : proc) (d n : Z) (b : nat) (f0 bf : buf).
Hypothesis (Hal : alone l s i p) (Hdn : (d, n) <> (0, 0)) (Hok : blk_ok d n = true).
Hypothesis (Hf : fetched s p d n (put_buf b bf s) b f0 bf) (Hinv1 : cache_inv l (put_buf b bf s)).
Hypothesis (Hcont : forall d' n', (d', n') <> (0, 0) -> content (put_buf b bf s) d' n' = content s d' n').

Lemma one_calm : calm (put_buf b bf s) i p.
Proof. eapply calm_bufs; [apply Hal|done]. Qed.

(** The other buffers when [b] has been released from [s2]. *)
Lemma one_rest s2 s3 e :
  (forall c, c <> b -> k_bufs s2 !! c = k_bufs s !! c) -> length (k_bufs s2) = NBUF ->
  relinked (released b e s2) s3 ->
  forall c bc, c <> b -> k_bufs s3 !! c = Some bc ->
    exists bc0, k_bufs s !! c = Some bc0 /\ core bc = core bc0.
Proof.
  intros H2 Hlen R c bc Hc Hbc.
  destruct (relinked_lookup _ _ c bc (relinked_sym _ _ R) Hbc) as (bc0 & Hb0 & E). exists bc0.
  unfold released in Hb0. rewrite put_buf_ne in Hb0 by done. by rewrite <- H2.
Qed.

(** New data are written and the buffer is released. *)
Lemma write_block_ret data :
  length data = block_size ->
  exists s', (do! bwrite b; brelse b) (put_buf b (bf <| b_data := data |>) s) = Ret tt s' /\
    block_written d n data i p s s'.
Proof.
  intros Hlen. pose proof Hf as [Hb0 Hown Hdat Href Hkept Hdir Hsame].
  set (s1 := put_buf b bf s) in *. set (s2 := wrote s1 d n b bf data).
  pose proof (wrote_calm s1 i p d n b bf data one_calm) as Hc2. fold s2 in Hc2.
  pose proof (wrote_inv l s1 (p_pid p) d n b bf data Hinv1 Hown Hdn Hlen) as Hi2. fold s2 in Hi2.
  pose proof (wrote_owns s1 (p_pid p) d n b bf data Hown) as Ho2. fold s2 in Ho2.
  destruct (brelse_ret l s2 i p (p_pid p) d n b _ Hc2 Hi2 Ho2) as (s3 & H3 & R3 & Hi3 & Hc3 & Hco3).
  { right. symmetry. etrans; [apply (wrote_disk s1 d n b bf data)|]. by rewrite decide_True. }
  assert (Hrest : forall c, c <> b -> k_bufs s2 !! c = k_bufs s !! c).
  { intros c Hc. unfold s2, wrote. rewrite put_buf_ne by done.
    change (k_bufs (put_buf b (fresh bf data) s1) !! c = k_bufs s !! c). rewrite put_buf_ne by done.
    unfold s1. by rewrite put_buf_ne by done. }
  assert (Hlen2 : length (k_bufs s2) = NBUF) by (by destruct (ci_ring _ _ Hi2) as (_ & _ & ?)).
  destruct (released_lookup s2 s3 b _ (ow_buf _ _ _ _ _ _ Ho2) R3) as (e & He & Ee).
  pose proof (core_eq _ _ Ee) as (Gf & _ & _ & _ & Gr & _).
  assert (Hde : dirty e = false) by (unfold dirty; rewrite Gf; apply cleaned_dirty).
  exists s3. split.
  { erewrite bind_ret; [exact H3|].
    pose proof (wrote_ret l s1 i p (p_pid p) d n b bf data one_calm Hinv1 Hown Hok Hlen) as Hw.
    unfold s1, put_buf in Hw. cbn in Hw. rewrite list_insert_insert_eq in Hw. exact Hw. }
  split.
  - exists (touch b (cleaned (fresh bf data)) l). split; [done|done|]. intros c bc Hc.
    destruct (decide (c = b)) as [->|Hcb].
    { assert (bc = e) as -> by congruence. rewrite Gr. by apply put_back_zero. }
    destruct (one_rest s2 s3 _ Hrest Hlen2 R3 c bc Hcb Hc) as (bc0 & Hb & E).
    apply core_eq in E as (_ & _ & _ & _ & -> & _). by eapply Hal.
  - eapply io_frame_trans; [apply io_frame_put|]. eapply io_frame_trans; [apply wrote_frame|].
    by apply (io_frame_released b (cleaned (fresh bf data))).
  - destruct R3 as [-> _]. done.
  - destruct R3 as [-> _]. done.
  - intros d' n' Hdn'. rewrite Hco3 by done. unfold s2.
    rewrite (wrote_content l s1 (p_pid p) d n b bf data) by done. case_decide; [done|]. by apply Hcont.
  - split.
    + intros c bc Hc Hd Hk. destruct (decide (c = b)) as [->|Hcb].
      { assert (bc = f0) as -> by congruence. rewrite (Hsame Hd) in Hk. done. }
      rewrite <- Hrest in Hc by done.
      destruct (kept_buf_released s2 s3 b _ c Hcb R3 bc Hc) as (bc' & Hc' & E). exists bc'.
      pose proof (core_eq _ _ E) as (E1 & E2 & E3 & _). unfold dirty in *. by rewrite E1.
    + intros c bc Hc Hd. destruct (decide (c = b)) as [->|Hcb]; [congruence|].
      destruct (one_rest s2 s3 _ Hrest Hlen2 R3 c bc Hcb Hc) as (bc0 & Hb & E).
      pose proof (core_eq _ _ E) as (E1 & E2 & E3 & _). exists bc0. unfold dirty in *. rewrite <- E1.
      split_and!; [done|done|]. apply not_true_is_false. intros Hk. apply Hcb.
      eapply (ci_uniq _ _ Hinv1); [unfold s1; rewrite put_buf_ne by done; exact Hb|apply Hown|exact Hk|apply Hown|done].
Qed.
End one_block.
