(* ===== verification/Writes.v ===== *)
(** * Sequences of block writes

    What a list of writes does to the blocks of the disks, and how block
    operations compose. *)

From S2P Require Import Prelude State Monad Mem Spinlock Sample ConsoleOut Kalloc Vm Sched SleepWake.
From S2P Require Import Sleeplock Bio BioFacts Cache Log LogFacts.

Definition blocks : Type := Z -> Z -> list Z.
Definition dwrite : Type := (Z * Z * list Z)%type.

Definition upd (w : dwrite) (f : blocks) : blocks := fun d n =>
  if decide ((d, n) = fst w) then snd w else f d n.
Definition upd_all (ws : list dwrite) (f : blocks) : blocks := foldl (fun f w => upd w f) f ws.

Lemma upd_all_cons w ws f : upd_all (w :: ws) f = upd_all ws (upd w f).
Proof. done. Qed.

Lemma upd_all_one w f : upd_all [w] f = upd w f.
Proof. done. Qed.

Lemma upd_all_app ws1 ws2 f : upd_all (ws1 ++ ws2) f = upd_all ws2 (upd_all ws1 f).
Proof. apply foldl_app. Qed.

Lemma upd_eq d n x f : upd (d, n, x) f d n = x.
Proof. unfold upd. by rewrite decide_True. Qed.
Lemma upd_ne w f d n : (d, n) <> fst w -> upd w f d n = f d n.
Proof. intros H. unfold upd. by rewrite decide_False. Qed.

(** Blocks that are not written keep their contents. *)
Lemma upd_all_ne ws f d n : (forall w, w ∈ ws -> fst w <> (d, n)) -> upd_all ws f d n = f d n.
Proof.
  revert f. induction ws as [|w ws IH]; intros f H; [done|]. rewrite upd_all_cons.
  rewrite IH by (intros w' Hw; apply H; by constructor).
  apply upd_ne. intros E. by apply (H w); [constructor|].
Qed.

(** A block that is written once has the contents that were written. *)
Lemma upd_all_in ws f d n x :
  NoDup (fst <$> ws) -> (d, n, x) ∈ ws -> upd_all ws f d n = x.
Proof.
  revert f. induction ws as [|w ws IH]; intros f Hnd Hin; [by apply not_elem_of_nil in Hin|].
  cbn [fmap list_fmap] in Hnd. rewrite upd_all_cons. apply NoDup_cons in Hnd as [Hw Hnd].
  apply elem_of_cons in Hin as [<-|Hin]; [|by apply IH].
  rewrite upd_all_ne; [apply upd_eq|]. intros w' Hw' E. apply Hw.
  change ((d, n) ∈ fst <$> ws). apply list_elem_of_fmap. by exists w'.
Qed.

(** Writes respect blockwise equality. *)
Lemma upd_all_ext ws f g d n : f d n = g d n -> upd_all ws f d n = upd_all ws g d n.
Proof.
  revert f g. induction ws as [|w ws IH]; intros f g H; [done|]. rewrite !upd_all_cons. apply IH.
  unfold upd. by case_decide.
Qed.

(** ** Operations that write blocks *)

Definition written (ws : list dwrite) (k : Z * Z) : Prop := exists w, w ∈ ws /\ fst w = k.

(** The dirty buffers of [s'] are those of [s] whose block is not in [ws]. *)
Definition unpins_all (ws : list dwrite) (s s' : kernel) : Prop :=
  (forall b bf, k_bufs s !! b = Some bf -> dirty bf = true -> ~ written ws (b_dev bf, b_blockno bf) ->
     exists bf', k_bufs s' !! b = Some bf' /\ dirty bf' = true /\
       b_dev bf' = b_dev bf /\ b_blockno bf' = b_blockno bf) /\
  (forall b bf', k_bufs s' !! b = Some bf' -> dirty bf' = true ->
     exists bf, k_bufs s !! b = Some bf /\ dirty bf = true /\
       b_dev bf' = b_dev bf /\ b_blockno bf' = b_blockno bf /\
       ~ written ws (b_dev bf, b_blockno bf)).

(** The parts of the kernel that the log touches. *)
Definition log_frame (s s' : kernel) : Prop :=
  s' = s <| k_bufs := k_bufs s' |> <| k_bhead := k_bhead s' |> <| k_procs := k_procs s' |>
         <| k_disk := k_disk s' |> <| k_writes := k_writes s' |> <| k_log := k_log s' |>.

Record wrote_all (ws : list dwrite) (i : nat) (p : proc) (s s' : kernel) : Prop := {
  wa_alone : exists l', alone l' s' i p;
  wa_frame : log_frame s s';
  wa_disk : forall d n, disk_block s' d n = upd_all ws (disk_block s) d n;
  wa_writes : k_writes s' = k_writes s ++ ws;
  wa_content : forall d n, (d, n) <> (0, 0) -> content s' d n = upd_all ws (content s) d n;
  wa_unpins : unpins_all ws s s'
}.

Lemma written_app ws1 ws2 k : written (ws1 ++ ws2) k <-> written ws1 k \/ written ws2 k.
Proof.
  unfold written. setoid_rewrite elem_of_app. naive_solver.
Qed.

Lemma unpins_all_trans ws1 ws2 s1 s2 s3 :
  unpins_all ws1 s1 s2 -> unpins_all ws2 s2 s3 -> unpins_all (ws1 ++ ws2) s1 s3.
Proof.
  intros [A1 B1] [A2 B2]. split.
  - intros b bf Hb Hd Hw. rewrite written_app in Hw.
    destruct (A1 b bf Hb Hd) as (b2 & Hb2 & Hd2 & E1 & E2); [tauto|].
    destruct (A2 b b2 Hb2 Hd2) as (b3 & Hb3 & Hd3 & E3 & E4); [rewrite E1, E2; tauto|].
    exists b3. split_and!; [done|done|congruence|congruence].
  - intros b b3 Hb3 Hd3. destruct (B2 b b3 Hb3 Hd3) as (b2 & Hb2 & Hd2 & E3 & E4 & H2).
    destruct (B1 b b2 Hb2 Hd2) as (b1 & Hb1 & Hd1 & E1 & E2 & H1). exists b1.
    split_and!; [done|done|congruence|congruence|]. rewrite written_app. rewrite E1, E2 in H2. tauto.
Qed.

Lemma unpins_all_nil s : unpins_all [] s s.
Proof.
  split.
  - intros b bf Hb Hd _. eauto.
  - intros b bf Hb Hd. exists bf. split_and!; try done. intros (w & Hw & _). by apply not_elem_of_nil in Hw.
Qed.

Lemma wrote_all_nil l i p s : alone l s i p -> wrote_all [] i p s s.
Proof.
  intros H. split; [eauto|by destruct s|done|by rewrite app_nil_r|done|apply unpins_all_nil].
Qed.

Lemma wrote_all_trans ws1 ws2 i p s1 s2 s3 :
  wrote_all ws1 i p s1 s2 -> wrote_all ws2 i p s2 s3 -> wrote_all (ws1 ++ ws2) i p s1 s3.
Proof.
  intros [A1 F1 D1 W1 C1 U1] [A2 F2 D2 W2 C2 U2]. split; [done| | | | |by eapply unpins_all_trans].
  - unfold log_frame in *. rewrite F2, F1. done.
  - intros d n. rewrite D2, upd_all_app. by apply upd_all_ext.
  - by rewrite W2, W1, app_assoc.
  - intros d n Hdn. rewrite C2, upd_all_app by done. by apply upd_all_ext, C1.
Qed.

Lemma block_written_all d t x i p s s' :
  (d, t) <> (0, 0) -> block_written d t x i p s s' -> wrote_all [(d, t, x)] i p s s' /\ k_log s' = k_log s.
Proof.
  intros Hdt [A F D W C [U1 U2]]. split; [|by apply io_frame_log].
  assert (Hw : forall k, written [(d, t, x)] k <-> k = (d, t)).
  { intros k. unfold written. split.
    - intros (w & ->%list_elem_of_singleton & <-). done.
    - intros ->. exists (d, t, x). by split; [constructor|]. }
  assert (Hk : forall bf, (b_dev bf, b_blockno bf) <> (d, t) -> caches d t bf = false).
  { intros bf H. apply not_true_is_false. intros [<- <-]%caches_spec. done. }
  split; [done| | |done|done|split].
  - unfold log_frame. rewrite F. by destruct s.
  - intros d' n'. cbn. unfold upd, disk_block. cbn. rewrite D. case_decide as E.
    + rewrite E. by rewrite lookup_insert_eq.
    + by rewrite lookup_insert_ne by congruence.
  - intros b bf Hb Hd Hnw. apply (U1 b bf Hb Hd), Hk. intros E. by apply Hnw, Hw.
  - intros b bf' Hb Hd. destruct (U2 b bf' Hb Hd) as (bf & Hbf & Hd' & Hkk).
    destruct (U1 b bf Hbf Hd' Hkk) as (bf2 & Hb2 & _ & E1 & E2). assert (bf2 = bf') as -> by congruence.
    exists bf. split_and!; try done. rewrite Hw. intros E. injection E as E3 E4.
    rewrite (proj2 (caches_spec d t bf)) in Hkk; done.
Qed.

(** ** Reading a block *)

(** A change of the log in memory does not matter to the cache. *)
Lemma alone_log l s i p lg : alone l s i p -> alone l (s <| k_log := lg |>) i p.
Proof.
  intros [Hc Hi Hid]. split; [|by apply (cache_inv_ext l s)|done].
  eapply calm_same; [exact Hc|done|apply Hc..].
Qed.

Lemma wrote_all_log ws i p s s' lg :
  wrote_all ws i p s s' -> wrote_all ws i p s (s' <| k_log := lg |>).
Proof.
  intros [[l A] F D W C U]. split; [| |exact D|exact W|exact C|exact U].
  - exists l. by apply alone_log.
  - unfold log_frame in *. destruct s, s'. cbn in F |- *. injection F. intros. subst. done.
Qed.

Lemma wrote_all_log_l ws i p s s' lg :
  wrote_all ws i p (s <| k_log := lg |>) s' -> wrote_all ws i p s s'.
Proof. intros [A F D W C U]. by split. Qed.

Section release_block.
Context {F : Fuel} {D : BlockDev} {HD : SyncDev D}.
Context (l : list nat) (s : kernel) (i : nat) (p : proc) (d n : Z) (b : nat) (f0 bf : buf).
Hypothesis (Hal : alone l s i p) (Hf : fetched s p d n (put_buf b bf s) b f0 bf).
Hypothesis (Hinv1 : cache_inv l (put_buf b bf s)).
Hypothesis (Hco1 : forall d' n', (d', n') <> (0, 0) -> content (put_buf b bf s) d' n' = content s d' n').

(** Releasing a block that was only read changes nothing but the order of the
    buffers. *)
Lemma release_block :
  exists s2, brelse b (put_buf b bf s) = Ret tt s2 /\ wrote_all [] i p s s2 /\ io_frame s s2.
Proof.
  pose proof Hf as [Hb0 Hown Hdat Href Hkept Hdir Hsame].
  set (s1 := put_buf b bf s) in *.
  assert (Hc1 : calm s1 i p) by (eapply calm_bufs; [apply Hal|done]).
  destruct (brelse_ret l s1 i p (p_pid p) d n b bf Hc1 Hinv1 Hown Hkept) as (s2 & H2 & R2 & Hi2 & Hc2 & Hco2).
  assert (Hrest : forall c, c <> b -> k_bufs s1 !! c = k_bufs s !! c)
    by (intros c Hc; unfold s1; by rewrite put_buf_ne by done).
  assert (Hlen1 : length (k_bufs s1) = NBUF) by (by destruct (ci_ring _ _ Hinv1) as (_ & _ & ?)).
  destruct (released_lookup s1 s2 b bf (ow_buf _ _ _ _ _ _ Hown) R2) as (e & He & Ee).
  pose proof (core_eq _ _ Ee) as (Gf & Gd & Gn & _ & Gr & _).
  assert (Hnil : forall k, ~ written [] k) by (intros k (w & Hw & _); by apply not_elem_of_nil in Hw).
  pose proof (ow_caches _ _ _ _ _ _ Hown) as [K1 K2]%caches_spec.
  assert (Hfr : io_frame s s2).
  { eapply io_frame_trans; [apply io_frame_put|by apply (io_frame_released b bf)]. }
  exists s2. split_and!; [done| |done]. split; [| | | |by intros; rewrite Hco2, Hco1|split].
  - exists (touch b bf l). split; [done|done|]. intros c bc Hc. destruct (decide (c = b)) as [->|Hcb].
    { assert (bc = e) as -> by congruence. rewrite Gr. by apply put_back_zero. }
    destruct (one_rest s b s1 s2 bf Hrest Hlen1 R2 c bc Hcb Hc) as (bc0 & Hb & E).
    apply core_eq in E as (_ & _ & _ & _ & -> & _). by eapply Hal.
  - destruct R2 as [-> _]. by destruct s.
  - intros d' n'. destruct R2 as [-> _]. done.
  - destruct R2 as [-> _]. symmetry. apply app_nil_r.
  - intros c bc Hc Hd _. destruct (decide (c = b)) as [->|Hcb].
    + assert (bc = f0) as -> by congruence. exists e. specialize (Hsame Hd).
      apply caches_spec in Hsame as [K3 K4]. unfold dirty in *. rewrite Gf, Gd, Gn.
      split_and!; [done|cbn; congruence|cbn; congruence|cbn; congruence].
    + rewrite <- Hrest in Hc by done. destruct (kept_buf_released s1 s2 b bf c Hcb R2 bc Hc) as (bc' & Hc' & E).
      exists bc'. pose proof (core_eq _ _ E) as (E1 & E2 & E3 & _). unfold dirty in *. by rewrite E1.
  - intros c bc Hc Hd. destruct (decide (c = b)) as [->|Hcb].
    + assert (bc = e) as -> by congruence. exists f0. unfold dirty in *. rewrite Gf in Hd. cbn in Hd.
      rewrite Hdir in Hd. specialize (Hsame Hd). apply caches_spec in Hsame as [K3 K4].
      rewrite Gd, Gn. split_and!; [done|done|cbn; congruence|cbn; congruence|auto].
    + destruct (one_rest s b s1 s2 bf Hrest Hlen1 R2 c bc Hcb Hc) as (bc0 & Hb & E).
      pose proof (core_eq _ _ E) as (E1 & E2 & E3 & _). exists bc0. unfold dirty in *. rewrite <- E1. auto.
Qed.
End release_block.
