(* ===== verification/LogSpec.v ===== *)
(** * The log: transactions

    The sequence of block writes that [commit] and [recover_from_log] make, and
    that a crash between any two of them loses nothing: recovery finds either
    the old blocks or the new ones. *)

From S2P Require Import Prelude State Monad Mem Spinlock Sample ConsoleOut Kalloc Vm Sched SleepWake.
From S2P Require Import Sleeplock Bio BioFacts Cache Log LogFacts Writes.

(** ** Loops over the header *)

Lemma for_lh_inv (P : nat -> kernel -> Prop) (body : Z -> K unit) (n m k : nat) s :
  (m + k = n)%nat ->
  (forall j s, P j s -> lh_n (log_lh (k_log s)) = Z.of_nat n) ->
  (forall j s, (j < n)%nat -> P j s -> exists s', body (Z.of_nat j) s = Ret tt s' /\ P (S j) s') ->
  P k s -> forall fl, (m <= fl)%nat -> exists s', for_lh fl (Z.of_nat k) body s = Ret tt s' /\ P n s'.
Proof.
  intros Hmk Hn Hstep. revert k s Hmk. induction m as [|m IH]; intros k s Hmk HP fl Hfl.
  - assert (k = n) as -> by lia. exists s. split; [|done].
    destruct fl; cbn [for_lh]; kget; rewrite (Hn _ _ HP), Z.ltb_irrefl; done.
  - destruct fl as [|fl]; [lia|]. cbn [for_lh]. kget.
    rewrite (Hn _ _ HP), (proj2 (Z.ltb_lt (Z.of_nat k) (Z.of_nat n))) by lia.
    destruct (Hstep k s ltac:(lia) HP) as (s1 & H1 & HP1). rewrite (bind_ret _ _ _ _ _ H1).
    replace (Z.of_nat k + 1) with (Z.of_nat (S k)) by lia. apply IH; [lia|done|lia].
Qed.

Lemma for_log_inv (P : nat -> kernel -> Prop) (body : Z -> K unit) (n : nat) s :
  Z.of_nat n <= LOGSIZE ->
  (forall j s, P j s -> lh_n (log_lh (k_log s)) = Z.of_nat n) ->
  (forall j s, (j < n)%nat -> P j s -> exists s', body (Z.of_nat j) s = Ret tt s' /\ P (S j) s') ->
  P 0%nat s -> exists s', for_log body s = Ret tt s' /\ P n s'.
Proof.
  intros Hle Hn Hstep HP. unfold for_log.
  apply (for_lh_inv P body n n 0%nat s); [lia|done|done|done|].
  change LOGSIZE with 30 in *. lia.
Qed.

Lemma lh_get_ret s j z :
  lh_block (log_lh (k_log s)) !! j = Some z -> lh_get (Z.of_nat j) s = Ret z s.
Proof.
  intros H. unfold lh_get. rewrite (proj2 (Z.leb_le 0 (Z.of_nat j))) by lia. by rewrite Nat2Z.id, H.
Qed.

(** ** The header block *)

Fixpoint enc_from (j : Z) (bl data : list Z) : list Z :=
  match bl with
  | [] => data
  | z :: bl' => enc_from (j + 1) bl' (lput32 (4 + 4 * j) z data)
  end.
Definition head_block (bl data : list Z) : list Z :=
  enc_from 0 bl (lput32 0 (Z.of_nat (length bl)) data).

Definition head_n (h : list Z) : Z := i32 (lget32 0 h).
Definition head_blocks (h : list Z) : list Z :=
  (fun j : nat => i32 (lget32 (4 + 4 * Z.of_nat j) h)) <$> seq 0 (Z.to_nat (head_n h)).

Lemma enc_from_app j l1 l2 data :
  enc_from j (l1 ++ l2) data = enc_from (j + Z.of_nat (length l1)) l2 (enc_from j l1 data).
Proof.
  revert j data. induction l1 as [|z l1 IH]; intros j data; simpl.
  - f_equal. lia.
  - rewrite IH. f_equal. lia.
Qed.

Lemma length_enc_from j bl data : length (enc_from j bl data) = length data.
Proof. revert j data. induction bl; intros; simpl; [done|]. by rewrite IHbl, length_lput32. Qed.

Lemma length_head_block bl data : length (head_block bl data) = length data.
Proof. unfold head_block. by rewrite length_enc_from, length_lput32. Qed.

Lemma lget32_enc_from_below j bl data off :
  0 <= off -> off + 4 <= 4 + 4 * j -> 0 <= j ->
  4 + 4 * (j + Z.of_nat (length bl)) <= Z.of_nat (length data) ->
  lget32 off (enc_from j bl data) = lget32 off data.
Proof.
  revert j data. induction bl as [|z bl IH]; intros j data H0 H1 H2 H3; [done|]. simpl in H3 |- *.
  rewrite IH by (rewrite ?length_lput32; lia). apply lget32_lput32_ne; lia.
Qed.

Lemma lget32_enc_from j bl data k z :
  bl !! k = Some z -> 0 <= j -> 4 + 4 * (j + Z.of_nat (length bl)) <= Z.of_nat (length data) ->
  lget32 (4 + 4 * (j + Z.of_nat k)) (enc_from j bl data) = u32 z.
Proof.
  revert j data k. induction bl as [|y bl IH]; intros j data k Hk Hj Hl; [done|].
  simpl in Hl |- *. destruct k as [|k]; simpl in Hk.
  - injection Hk as ->. rewrite lget32_enc_from_below by (rewrite ?length_lput32; lia).
    replace (j + Z.of_nat 0) with j by lia. apply lget32_lput32_eq; lia.
  - replace (j + Z.of_nat (S k)) with (j + 1 + Z.of_nat k) by lia.
    apply IH; [done|lia|rewrite length_lput32; lia].
Qed.

Lemma i32_u32 z : - 2 ^ 31 <= z < 2 ^ 31 -> i32 (u32 z) = z.
Proof.
  intros H. unfold i32, u32. rewrite Z.add_mod_idemp_l by lia. rewrite Z.mod_small by lia. lia.
Qed.

(** Reading back a header. *)
Lemma head_n_block bl data :
  length data = block_size -> Z.of_nat (length bl) <= LOGSIZE ->
  head_n (head_block bl data) = Z.of_nat (length bl).
Proof.
  intros Hd Hl. change LOGSIZE with 30 in Hl. change block_size with 512%nat in Hd.
  unfold head_n, head_block. rewrite lget32_enc_from_below by (rewrite ?length_lput32; lia).
  rewrite lget32_lput32_eq by lia. apply i32_u32. lia.
Qed.

Lemma head_blocks_block bl data :
  length data = block_size -> Z.of_nat (length bl) <= LOGSIZE -> Forall (fun z => 0 <= z < 2 ^ 31) bl ->
  head_blocks (head_block bl data) = bl.
Proof.
  intros Hd Hl Hz. unfold head_blocks. rewrite head_n_block, Nat2Z.id by done.
  change LOGSIZE with 30 in Hl. change block_size with 512%nat in Hd.
  apply list_eq. intros k. rewrite list_lookup_fmap. destruct (bl !! k) as [z|] eqn:E.
  - pose proof (lookup_lt_Some _ _ _ E). rewrite lookup_seq_lt by done. cbn -[Z.mul Z.add Z.of_nat].
    pose proof (lget32_enc_from 0 bl (lput32 0 (Z.of_nat (length bl)) data) k z E) as Hk.
    change (0 + Z.of_nat k) with (Z.of_nat k) in Hk. unfold head_block.
    rewrite Hk by (rewrite ?length_lput32; lia).
    rewrite Forall_lookup in Hz. rewrite i32_u32; [done|]. specialize (Hz k z E). lia.
  - apply lookup_ge_None in E. by rewrite lookup_seq_ge.
Qed.

(** ** The log on disk *)

Section geometry.
Context {F : Fuel} {D : BlockDev} {HD : SyncDev D} (Hfuel : (0 < fuel)%nat).
Context (d st : Z).

(** The device is not 0 and holds the log at blocks [st] to [st + LOGSIZE - 1]. *)
Record log_region : Prop := {
  lr_dev : 0 < d < 2 ^ 31;
  lr_start : 0 <= st < 2 ^ 30;
  lr_ok : forall k, 0 <= k < LOGSIZE -> blk_ok d (st + k) = true
}.
Hypothesis (Hreg : log_region).

(** A block outside the log that the device has. *)
Definition home (z : Z) : Prop :=
  0 <= z < 2 ^ 31 /\ blk_ok d z = true /\ (z < st \/ st + LOGSIZE <= z).

(** The state of the log in memory: the blocks [bl] are logged. *)
Record logged (bl : list Z) (s : kernel) : Prop := {
  lg_dev : log_dev (k_log s) = d;
  lg_start : log_start (k_log s) = st;
  lg_n : lh_n (log_lh (k_log s)) = Z.of_nat (length bl);
  lg_blocks : forall j z, bl !! j = Some z -> lh_block (log_lh (k_log s)) !! j = Some z;
  lg_len : Z.of_nat (length bl) < LOGSIZE;
  lg_home : forall z, z ∈ bl -> home z;
  lg_nodup : NoDup bl
}.

Lemma key_nz n : (d, n) <> (0, 0).
Proof. destruct Hreg as [[? ?] _ _]. intros [=]. lia. Qed.
Hint Resolve key_nz : core.

Lemma logged_same bl s s' : logged bl s -> k_log s' = k_log s -> logged bl s'.
Proof. intros [H1 H2 H3 H4 H5 H6 H7] E. by split; rewrite ?E. Qed.

(** The block of the log that holds the copy of the [j]th logged block. *)
Definition slot (j : nat) : Z := st + Z.of_nat j + 1.

Lemma slot_u32 j : Z.of_nat j < LOGSIZE - 1 -> u32 (st + Z.of_nat j + 1) = slot j.
Proof. intros Hj. destruct Hreg as [_ ? _]. change LOGSIZE with 30 in Hj. unfold slot. apply u32_small. lia. Qed.

Lemma slot_ok j : Z.of_nat j < LOGSIZE - 1 -> blk_ok d (slot j) = true.
Proof.
  intros Hj. unfold slot. rewrite <- Z.add_assoc. apply (lr_ok Hreg). change LOGSIZE with 30 in *. lia.
Qed.

Lemma slot_home j z : Z.of_nat j < LOGSIZE - 1 -> home z -> slot j <> z.
Proof. intros Hj (_ & _ & H) E. unfold slot in E. change LOGSIZE with 30 in *. lia. Qed.

Lemma dev_u32 : u32 d = d.
Proof. apply u32_small. destruct Hreg. lia. Qed.

(** One turn of [install_trans]. *)
Lemma install_step bl l s i p j z :
  alone l s i p -> logged bl s -> bl !! j = Some z -> room d z s ->
  exists s',
    (let! lg := gets k_log in
     let! lbuf := bread (u32 (log_dev lg)) (u32 (log_start lg + Z.of_nat j + 1)) in
     let! blk := lh_get (Z.of_nat j) in
     let! dbuf := bread (u32 (log_dev lg)) (u32 blk) in
     let! lb := getbuf lbuf in
     do! updbuf dbuf (fun bf => bf <| b_data := b_data lb |>);
     do! bwrite dbuf; do! brelse lbuf; brelse dbuf) s = Ret tt s' /\
    wrote_all [(d, z, content s d (slot j))] i p s s' /\ k_log s' = k_log s.
Proof.
  intros Hal Hlg Hz Hroom. pose proof Hlg as [Edev Est En Hbl Hlen Hhome _].
  assert (Hj : Z.of_nat j < LOGSIZE - 1) by (apply lookup_lt_Some in Hz; lia).
  assert (Hhz : home z) by (apply Hhome; by eapply list_elem_of_lookup_2).
  pose proof Hhz as (Hz1 & Hz2 & Hz3).
  destruct (two_breads Hfuel l s i p d (slot j) z Hal) as (b1 & b2 & f1 & f2 & s1 & s2 & H1 & H2 & Hfr1 & Hpp);
    [done|done|by apply slot_home|by apply slot_ok|done|done|].
  pose proof Hpp as [Hc2 Hi2 Hne (f10 & Hf1) (f20 & Hf2) Hrest Hfr Hd Hw Hco].
  destruct (copy_pair_ret l s s2 i p d (slot j) z b1 b2 f1 f2 f10 f20) as (s' & H3 & Hbw); try done.
  exists s'. destruct (block_written_all _ _ _ _ _ _ _ (key_nz z) Hbw). split_and!; [|done|done].
  kget. rewrite Edev, Est, slot_u32, dev_u32 by done. rewrite (bind_ret _ _ _ _ _ H1).
  pose proof (io_frame_log _ _ Hfr1) as Hl1.
  erewrite bind_ret by (apply lh_get_ret; rewrite Hl1; by apply Hbl).
  rewrite (u32_small z) by lia. rewrite (bind_ret _ _ _ _ _ H2).
  destruct Hf1 as [_ Hown1 _ _ _ _ _].
  rewrite (bind_ret _ _ _ _ _ (getbuf_ret _ _ _ (ow_buf _ _ _ _ _ _ Hown1))). exact H3.
Qed.

(** One turn of [write_log]. *)
Lemma write_log_step bl l s i p j z :
  alone l s i p -> logged bl s -> bl !! j = Some z -> room d z s ->
  exists s',
    (let! lg := gets k_log in
     let! to := bread (u32 (log_dev lg)) (u32 (log_start lg + Z.of_nat j + 1)) in
     let! blk := lh_get (Z.of_nat j) in
     let! from := bread (u32 (log_dev lg)) (u32 blk) in
     let! fb := getbuf from in
     do! updbuf to (fun bf => bf <| b_data := b_data fb |>);
     do! bwrite to; do! brelse from; brelse to) s = Ret tt s' /\
    wrote_all [(d, slot j, content s d z)] i p s s' /\ k_log s' = k_log s.
Proof.
  intros Hal Hlg Hz Hroom. pose proof Hlg as [Edev Est En Hbl Hlen Hhome _].
  assert (Hj : Z.of_nat j < LOGSIZE - 1) by (apply lookup_lt_Some in Hz; lia).
  assert (Hhz : home z) by (apply Hhome; by eapply list_elem_of_lookup_2).
  pose proof Hhz as (Hz1 & Hz2 & Hz3).
  destruct (two_breads Hfuel l s i p d (slot j) z Hal) as (b1 & b2 & f1 & f2 & s1 & s2 & H1 & H2 & Hfr1 & Hpp);
    [done|done|by apply slot_home|by apply slot_ok|done|done|].
  pose proof Hpp as [Hc2 Hi2 Hne (f10 & Hf1) (f20 & Hf2) Hrest Hfr Hd Hw Hco].
  destruct (copy_pair_ret l s s2 i p d z (slot j) b2 b1 f2 f1 f20 f10) as (s' & H3 & Hbw); try done;
    [by apply slot_ok|intros c Hc Hc'; by apply Hrest|].
  exists s'. destruct (block_written_all _ _ _ _ _ _ _ (key_nz (slot j)) Hbw). split_and!; [|done|done].
  kget. rewrite Edev, Est, slot_u32, dev_u32 by done. rewrite (bind_ret _ _ _ _ _ H1).
  pose proof (io_frame_log _ _ Hfr1) as Hl1.
  erewrite bind_ret by (apply lh_get_ret; rewrite Hl1; by apply Hbl).
  rewrite (u32_small z) by lia. rewrite (bind_ret _ _ _ _ _ H2).
  destruct Hf2 as [_ Hown2 _ _ _ _ _].
  rewrite (bind_ret _ _ _ _ _ (getbuf_ret _ _ _ (ow_buf _ _ _ _ _ _ Hown2))). exact H3.
Qed.

(** *** Room in the cache *)

Lemma alone_length l s i p : alone l s i p -> length (k_bufs s) = NBUF.
Proof. intros [_ [(_ & _ & H) _ _ _] _]. done. Qed.

Lemma spare_kept ws i p l s s' b :
  alone l s i p -> wrote_all ws i p s s' -> spare s b -> spare s' b.
Proof.
  intros Hal [[l' Hal'] _ _ _ _ [_ U2]] (bf & Hb & Hd).
  assert (Hlt : (b < NBUF)%nat) by (rewrite <- (alone_length _ _ _ _ Hal); by eapply lookup_lt_Some).
  rewrite <- (alone_length _ _ _ _ Hal') in Hlt. apply lookup_lt_is_Some_2 in Hlt as [bf' Hb'].
  exists bf'. split; [done|]. destruct (dirty bf') eqn:E; [|done].
  destruct (U2 b bf' Hb' E) as (bf2 & Hb2 & Hd2 & _). congruence.
Qed.

Lemma room_kept ws i p l s s' z :
  alone l s i p -> wrote_all ws i p s s' -> ~ written ws (d, z) -> room d z s -> room d z s'.
Proof.
  intros Hal Hwa Hnw [[(b & bf & Hb & Hd & Hk) [c Hc]]|(a & b & Hab & Ha & Hb)].
  - left. split; [|exists c; by eapply spare_kept]. pose proof Hwa as [_ _ _ _ _ [U1 _]].
    apply caches_spec in Hk as [E1 E2].
    destruct (U1 b bf Hb Hd) as (bf' & Hb' & Hd' & E3 & E4); [by rewrite E1, E2|].
    exists b, bf'. split_and!; [done|done|]. apply caches_spec. by rewrite E3, E4.
  - right. exists a, b. split_and!; [done|by eapply spare_kept|by eapply spare_kept].
Qed.

(** *** The loops *)

Definition logs (bl : list Z) (f : blocks) : list dwrite := imap (fun j z => (d, slot j, f d z)) bl.
Definition installs (bl : list Z) (f : blocks) : list dwrite := imap (fun j z => (d, z, f d (slot j))) bl.

Lemma take_imap_S {A} (f : nat -> Z -> A) (bl : list Z) j z :
  bl !! j = Some z -> take (S j) (imap f bl) = take j (imap f bl) ++ [f j z].
Proof. intros H. apply take_S_r. by rewrite list_lookup_imap, H. Qed.

Lemma elem_of_take_imap {A} (f : nat -> Z -> A) (bl : list Z) j w :
  w ∈ take j (imap f bl) -> exists k z, (k < j)%nat /\ bl !! k = Some z /\ w = f k z.
Proof.
  intros [k Hk]%list_elem_of_lookup_1. apply lookup_take_Some in Hk as [Hk Hkj].
  rewrite list_lookup_imap in Hk. destruct (bl !! k) as [z|] eqn:E; [|done].
  exists k, z. split_and!; [done|done|]. by injection Hk as <-.
Qed.

(** A loop whose [j]th turn makes the [j]th write. *)
Lemma write_loop (body : Z -> K unit) (w : nat -> Z -> dwrite) bl l s i p :
  alone l s i p -> logged bl s ->
  (forall j z l' s', bl !! j = Some z -> alone l' s' i p -> k_log s' = k_log s ->
     wrote_all (take j (imap w bl)) i p s s' ->
     exists s'', body (Z.of_nat j) s' = Ret tt s'' /\ wrote_all [w j z] i p s' s'' /\ k_log s'' = k_log s') ->
  exists s', for_log body s = Ret tt s' /\ wrote_all (imap w bl) i p s s' /\ k_log s' = k_log s.
Proof.
  intros Hal Hlg Hstep. pose proof Hlg as [_ _ En _ Hlen _ _].
  destruct (for_log_inv (fun j s' => wrote_all (take j (imap w bl)) i p s s' /\ k_log s' = k_log s)
    body (length bl) s ltac:(lia)) as (s' & Hs & Hwa & Hk).
  - intros j s' [_ Hk]. by rewrite Hk.
  - intros j s' Hj [Hwa Hk]. apply lookup_lt_is_Some_2 in Hj as [z Hz].
    destruct (wa_alone _ _ _ _ _ Hwa) as [l' Hal'].
    destruct (Hstep j z l' s' Hz Hal' Hk Hwa) as (s'' & H1 & H2 & H3). exists s''.
    split_and!; [done| |congruence]. rewrite (take_imap_S w bl j z Hz). by eapply wrote_all_trans.
  - split; [by eapply wrote_all_nil|done].
  - exists s'. split_and!; [done| |done]. rewrite take_ge in Hwa; [done|]. by rewrite length_imap.
Qed.

Lemma installs_content bl s i p s' j z :
  logged bl s -> bl !! j = Some z -> wrote_all (take j (installs bl (content s))) i p s s' ->
  content s' d (slot j) = content s d (slot j).
Proof.
  intros [_ _ _ _ Hlen Hhome _] Hz Hwa. rewrite (wa_content _ _ _ _ _ Hwa) by done.
  apply upd_all_ne. intros w (k & y & Hk & Hy & ->)%elem_of_take_imap. cbn. intros [=].
  assert (Hj : Z.of_nat j < LOGSIZE - 1) by (apply lookup_lt_Some in Hz; lia).
  apply (slot_home j y Hj); [apply Hhome; by eapply list_elem_of_lookup_2|done].
Qed.

Lemma install_trans_ret bl l s i p :
  alone l s i p -> logged bl s -> (forall z, z ∈ bl -> room d z s) ->
  exists s', install_trans s = Ret tt s' /\
    wrote_all (installs bl (content s)) i p s s' /\ k_log s' = k_log s.
Proof.
  intros Hal Hlg Hroom.
  eapply (write_loop _ (fun j z => (d, z, content s d (slot j)))); [done|done|].
  intros j z l' s' Hz Hal' Hk Hwa.
  destruct (install_step bl l' s' i p j z Hal') as (s'' & H1 & H2 & H3); [by eapply logged_same|done| |].
  - eapply room_kept; [exact Hal|exact Hwa| |apply Hroom; by eapply list_elem_of_lookup_2].
    intros (w & (k & y & Hkj & Hy & ->)%elem_of_take_imap & E). injection E as ->.
    assert (k = j) by (eapply NoDup_lookup; [apply Hlg|exact Hy|exact Hz]). lia.
  - exists s''. rewrite <- (installs_content bl s i p s' j z) by done. done.
Qed.

Lemma write_log_ret bl l s i p :
  alone l s i p -> logged bl s -> (forall z, z ∈ bl -> room d z s) ->
  exists s', write_log s = Ret tt s' /\
    wrote_all (logs bl (content s)) i p s s' /\ k_log s' = k_log s.
Proof.
  intros Hal Hlg Hroom. pose proof Hlg as [_ _ _ _ Hlen Hhome _].
  assert (Hap : forall j z w, bl !! j = Some z -> w ∈ take j (logs bl (content s)) -> fst w <> (d, z)).
  { intros j z w Hz (k & y & Hkj & Hy & ->)%elem_of_take_imap. cbn. intros [=].
    apply lookup_lt_Some in Hy. eapply (slot_home k z); [lia| |done].
    apply Hhome. by eapply list_elem_of_lookup_2. }
  eapply (write_loop _ (fun j z => (d, slot j, content s d z))); [done|done|].
  intros j z l' s' Hz Hal' Hk Hwa.
  destruct (write_log_step bl l' s' i p j z Hal') as (s'' & H1 & H2 & H3); [by eapply logged_same|done| |].
  - eapply room_kept; [exact Hal|exact Hwa| |apply Hroom; by eapply list_elem_of_lookup_2].
    intros (w & Hw & E). by eapply Hap.
  - exists s''. split_and!; [done| |done]. rewrite (wa_content _ _ _ _ _ Hwa) in H2 by done.
    rewrite upd_all_ne in H2; [done|]. intros w Hw. by eapply Hap.
Qed.

(** *** The header *)

Lemma start_ok : blk_ok d st = true.
Proof. rewrite <- (Z.add_0_r st). apply (lr_ok Hreg). change LOGSIZE with 30. lia. Qed.

Lemma start_u32 : u32 st = st.
Proof. apply u32_small. destruct Hreg as [_ ? _]. lia. Qed.

Lemma put_buf_put b x y s : put_buf b y (put_buf b x s) = put_buf b y s.
Proof. unfold put_buf. cbn. by rewrite list_insert_insert_eq. Qed.

(** The loop of [write_head] in the owned buffer [b]. *)
Lemma write_head_loop bl s b bf0 bf :
  logged bl s -> k_bufs s !! b = Some bf0 ->
  for_log (fun i => let! blk := lh_get i in
      updbuf b (fun bf => bf <| b_data := lput32 (4 + 4 * i) blk (b_data bf) |>)) (put_buf b bf s)
    = Ret tt (put_buf b (bf <| b_data := enc_from 0 bl (b_data bf) |>) s).
Proof.
  intros Hlg Hb.
  destruct (for_log_inv (fun j s' => s' = put_buf b (bf <| b_data := enc_from 0 (take j bl) (b_data bf) |>) s)
    (fun i => let! blk := lh_get i in
      updbuf b (fun bf => bf <| b_data := lput32 (4 + 4 * i) blk (b_data bf) |>))
    (length bl) (put_buf b bf s)) as (s' & Hs & ->); [pose proof (lg_len _ _ Hlg); lia| | | |].
  - intros j s' ->. apply Hlg.
  - intros j s' Hj ->. apply lookup_lt_is_Some_2 in Hj as [z Hz].
    eexists. split.
    + erewrite bind_ret by (apply lh_get_ret; cbn; apply Hlg; exact Hz).
      pose proof (put_buf_lookup b (bf <| b_data := enc_from 0 (take j bl) (b_data bf) |>) s bf0 Hb) as Hb'.
      rewrite (updbuf_ret _ _ _ _ Hb'), (on_buf_put _ _ _ _ Hb'), put_buf_put. reflexivity.
    + rewrite (take_S_r _ _ _ Hz), enc_from_app, length_take. pose proof (lookup_lt_Some _ _ _ Hz).
      rewrite Nat.min_l by lia. done.
  - cbn. by destruct bf.
  - rewrite Hs. by rewrite take_ge by done.
Qed.

Lemma write_head_ret bl l s i p :
  alone l s i p -> logged bl s -> (exists b, spare s b) ->
  exists s', write_head s = Ret tt s' /\
    wrote_all [(d, st, head_block bl (content s d st))] i p s s' /\ k_log s' = k_log s.
Proof.
  intros Hal Hlg Hsp. pose proof Hlg as [Edev Est En _ _ _ _].
  destruct (first_bread Hfuel l s i p d st Hal (key_nz st) start_ok Hsp)
    as (b & f0 & bf & Hr & Hf & Hinv1 & Hco). pose proof Hf as [Hb0 Hown Hdat _ _ _ _].
  assert (Hlen : length (head_block bl (content s d st)) = block_size).
  { rewrite length_head_block, <- Hdat. by apply (ci_bufs _ _ Hinv1 b bf), Hown. }
  destruct (write_block_ret l s i p d st b f0 bf Hal (key_nz st) start_ok Hf Hinv1 Hco _ Hlen)
    as (s' & Hs & Hbw). exists s'.
  destruct (block_written_all _ _ _ _ _ _ _ (key_nz st) Hbw). split_and!; [|done|done].
  unfold write_head. kget. rewrite Edev, Est, dev_u32, start_u32. rewrite (bind_ret _ _ _ _ _ Hr).
  kget. pose proof (ow_buf _ _ _ _ _ _ Hown) as Hb1.
  rewrite (bind_ret _ _ _ _ _ (updbuf_ret _ _ _ _ Hb1)), (on_buf_put _ _ _ _ Hb1), put_buf_put.
  rewrite (bind_ret _ _ _ _ _ (write_head_loop bl s b f0 _ Hlg Hb0)).
  etrans; [|exact Hs]. change (k_log (put_buf b bf s)) with (k_log s). rewrite En. unfold head_block.
  rewrite <- Hdat. done.
Qed.

(** *** commit *)

Definition homes (bl : list Z) (f : blocks) : list dwrite := (fun z => (d, z, f d z)) <$> bl.

(** The writes of a transaction: the blocks to the log, the header that
    commits them, the blocks to their homes, the header that empties the log. *)
Definition commit_writes (bl : list Z) (f : blocks) : list dwrite :=
  let h := head_block bl (f d st) in
  logs bl f ++ [(d, st, h)] ++ homes bl f ++ [(d, st, head_block [] h)].

Lemma elem_of_logs bl f w :
  w ∈ logs bl f -> exists j z, bl !! j = Some z /\ w = (d, slot j, f d z).
Proof.
  intros [j Hj]%list_elem_of_lookup_1. unfold logs in Hj. rewrite list_lookup_imap in Hj.
  destruct (bl !! j) as [z|] eqn:E; [|done]. exists j, z. split; [done|]. by injection Hj as <-.
Qed.

Lemma elem_of_installs bl f w :
  w ∈ installs bl f -> exists j z, bl !! j = Some z /\ w = (d, z, f d (slot j)).
Proof.
  intros [j Hj]%list_elem_of_lookup_1. unfold installs in Hj. rewrite list_lookup_imap in Hj.
  destruct (bl !! j) as [z|] eqn:E; [|done]. exists j, z. split; [done|]. by injection Hj as <-.
Qed.

Lemma elem_of_homes bl f w : w ∈ homes bl f -> exists z, z ∈ bl /\ w = (d, z, f d z).
Proof. intros (z & -> & Hz)%list_elem_of_fmap. eauto. Qed.

Lemma slot_inj j k : slot j = slot k -> j = k.
Proof. unfold slot. lia. Qed.

Lemma slot_start j : slot j <> st.
Proof. unfold slot. lia. Qed.

Lemma home_start z : home z -> z <> st.
Proof. intros (_ & _ & H). change LOGSIZE with 30 in H. lia. Qed.

Lemma logs_nodup bl f : NoDup (fst <$> logs bl f).
Proof.
  apply NoDup_alt. intros a b k Ha Hb. unfold logs in *. rewrite list_lookup_fmap, list_lookup_imap in Ha, Hb.
  destruct (bl !! a), (bl !! b); try done. cbn in Ha, Hb. simplify_eq. by apply slot_inj.
Qed.

(** The contents of the log after [write_log] and [write_head]. *)
Lemma logs_content bl f g j z :
  bl !! j = Some z -> upd_all (logs bl f) g d (slot j) = f d z.
Proof.
  intros Hz. apply upd_all_in; [apply logs_nodup|]. apply list_elem_of_lookup_2 with j. unfold logs.
  by rewrite list_lookup_imap, Hz.
Qed.

Lemma logs_other bl f g n :
  (forall j, (j < length bl)%nat -> slot j <> n) -> upd_all (logs bl f) g d n = g d n.
Proof.
  intros H. apply upd_all_ne. intros w (j & z & Hz & ->)%elem_of_logs. cbn. intros [=].
  apply (H j); [|done]. by eapply lookup_lt_Some.
Qed.

Lemma installs_homes bl f g :
  (forall j z, bl !! j = Some z -> g d (slot j) = f d z) -> installs bl g = homes bl f.
Proof.
  intros H. apply list_eq. intros j. unfold installs, homes. rewrite list_lookup_imap, list_lookup_fmap.
  destruct (bl !! j) as [z|] eqn:E; [|done]. cbn. by rewrite (H j z).
Qed.

Lemma spares_kept ws i p l s s' :
  alone l s i p -> wrote_all ws i p s s' -> (exists b, spare s b) -> exists b, spare s' b.
Proof. intros Hal Hwa [b Hb]. exists b. by eapply spare_kept. Qed.

Lemma logged_nil bl s :
  logged bl s ->
  logged [] (s <| k_log := (k_log s) <| log_lh := (log_lh (k_log s)) <| lh_n := 0 |> |> |>).
Proof.
  intros [H1 H2 _ _ _ _ _]. split; [exact H1|exact H2|reflexivity| | | |constructor].
  - intros j z Hz. discriminate.
  - change LOGSIZE with 30. simpl. lia.
  - intros z Hz. by apply not_elem_of_nil in Hz.
Qed.

(** The log with an empty header. *)
Definition emptied (lg : logstate) : logstate := lg <| log_lh := (log_lh lg) <| lh_n := 0 |> |>.

Lemma commit_ret bl l s i p :
  alone l s i p -> logged bl s -> bl <> [] -> (forall z, z ∈ bl -> pinned d z s) ->
  (exists b, spare s b) ->
  exists s', commit s = Ret tt s' /\ wrote_all (commit_writes bl (content s)) i p s s' /\ logged [] s' /\
    k_log s' = emptied (k_log s).
Proof.
  intros Hal Hlg Hne Hpin Hsp. pose proof Hlg as [_ _ En _ Hlen Hhome Hnd].
  assert (Hroom : forall z, z ∈ bl -> room d z s) by (intros z Hz; left; auto).
  destruct (write_log_ret bl l s i p Hal Hlg Hroom) as (s1 & H1 & W1 & K1).
  destruct (wa_alone _ _ _ _ _ W1) as [l1 Hal1].
  pose proof (logged_same _ _ _ Hlg K1) as Hlg1. pose proof (spares_kept _ _ _ _ _ _ Hal W1 Hsp) as Hsp1.
  assert (Hst1 : content s1 d st = content s d st).
  { rewrite (wa_content _ _ _ _ _ W1) by done. apply logs_other. intros j _. apply slot_start. }
  destruct (write_head_ret bl l1 s1 i p Hal1 Hlg1 Hsp1) as (s2 & H2 & W2 & K2). rewrite Hst1 in W2.
  destruct (wa_alone _ _ _ _ _ W2) as [l2 Hal2].
  pose proof (logged_same _ _ _ Hlg1 K2) as Hlg2. pose proof (spares_kept _ _ _ _ _ _ Hal1 W2 Hsp1) as Hsp2.
  pose proof (wrote_all_trans _ _ _ _ _ _ _ W1 W2) as W12.
  assert (Hroom2 : forall z, z ∈ bl -> room d z s2).
  { intros z Hz. eapply room_kept; [exact Hal|exact W12| |auto]. intros (w & Hw & E).
    apply elem_of_app in Hw as [(j & y & Hy & ->)%elem_of_logs| ->%list_elem_of_singleton]; injection E.
    - intros E'. apply (slot_home j z); [apply lookup_lt_Some in Hy; lia|auto|done].
    - intros E'. by apply (home_start z); [auto|]. }
  destruct (install_trans_ret bl l2 s2 i p Hal2 Hlg2 Hroom2) as (s3 & H3 & W3 & K3).
  assert (Hco2 : forall j z, bl !! j = Some z -> content s2 d (slot j) = content s d z).
  { intros j z Hz. rewrite (wa_content _ _ _ _ _ W2), upd_all_cons by done. cbn.
    rewrite upd_ne by (cbn; intros [=]; by apply (slot_start j)).
    rewrite (wa_content _ _ _ _ _ W1) by done. by apply logs_content. }
  rewrite (installs_homes bl (content s)) in W3 by done.
  destruct (wa_alone _ _ _ _ _ W3) as [l3 Hal3].
  pose proof (wrote_all_trans _ _ _ _ _ _ _ W12 W3) as W123.
  pose proof (spares_kept _ _ _ _ _ _ Hal2 W3 Hsp2) as Hsp3.
  set (s3' := s3 <| k_log := (k_log s3) <| log_lh := (log_lh (k_log s3)) <| lh_n := 0 |> |> |>).
  assert (Hst3 : content s3' d st = head_block bl (content s d st)).
  { change (content s3' d st) with (content s3 d st). rewrite (wa_content _ _ _ _ _ W3) by done.
    rewrite upd_all_ne.
    - rewrite (wa_content _ _ _ _ _ W2), upd_all_cons by done. apply upd_eq.
    - intros w (z & Hz & ->)%elem_of_homes. cbn. intros [=]. by apply (home_start z); [auto|]. }
  destruct (write_head_ret [] l3 s3' i p) as (s4 & H4 & W4 & K4);
    [by apply alone_log|apply (logged_nil bl); by eapply logged_same|done|]. rewrite Hst3 in W4.
  exists s4. split_and!.
  - unfold commit. kget. rewrite En. destruct bl as [|z bl]; [done|]. cbn [length].
    rewrite (proj2 (Z.ltb_lt 0 _)) by lia. unfold when.
    rewrite (bind_ret _ _ _ _ _ H1), (bind_ret _ _ _ _ _ H2), (bind_ret _ _ _ _ _ H3).
    unfold set_lhn, updlog. kget. exact H4.
  - unfold commit_writes. rewrite !app_assoc. eapply wrote_all_trans; [exact W123|].
    by eapply wrote_all_log_l.
  - eapply logged_same; [|exact K4]. apply (logged_nil bl). by eapply logged_same.
  - rewrite K4. change (k_log s3') with (emptied (k_log s3)). congruence.
Qed.

(** *** Recovery *)

Definition head_ok (h : list Z) : Prop :=
  0 <= head_n h < LOGSIZE /\ (forall z, z ∈ head_blocks h -> home z) /\ NoDup (head_blocks h).

Lemma head_blocks_lookup h j z :
  head_blocks h !! j = Some z ->
  (j < Z.to_nat (head_n h))%nat /\ z = i32 (lget32 (4 + 4 * Z.of_nat j) h).
Proof.
  unfold head_blocks. rewrite list_lookup_fmap. intros H.
  destruct (seq 0 (Z.to_nat (head_n h)) !! j) as [k|] eqn:E; [|done].
  apply lookup_seq in E as [-> Hj]. by injection H as <-.
Qed.

(** The loop of [read_head], with the header block in buffer [b]. *)
Lemma read_head_loop s b bf0 bf :
  k_bufs s !! b = Some bf0 -> head_ok (b_data bf) ->
  log_dev (k_log s) = d -> log_start (k_log s) = st ->
  length (lh_block (log_lh (k_log s))) = Z.to_nat LOGSIZE ->
  lh_n (log_lh (k_log s)) = head_n (b_data bf) ->
  exists lg, for_log (fun i => let! bf := getbuf b in lh_set i (lget32 (4 + 4 * i) (b_data bf)))
      (put_buf b bf s) = Ret tt (put_buf b bf (s <| k_log := lg |>)) /\
    logged (head_blocks (b_data bf)) (s <| k_log := lg |>).
Proof.
  intros Hb (Hn & Hhome & Hnd) Ed Es Hlen En. set (h := b_data bf) in *.
  assert (Hlb : length (head_blocks h) = Z.to_nat (head_n h))
    by (unfold head_blocks; by rewrite length_fmap, length_seq).
  set (P := fun (j : nat) (s' : kernel) => exists lg, s' = put_buf b bf (s <| k_log := lg |>) /\
    log_dev lg = d /\ log_start lg = st /\ lh_n (log_lh lg) = head_n h /\
    length (lh_block (log_lh lg)) = Z.to_nat LOGSIZE /\
    forall k z, (k < j)%nat -> head_blocks h !! k = Some z -> lh_block (log_lh lg) !! k = Some z).
  destruct (for_log_inv P (fun i => let! bf := getbuf b in lh_set i (lget32 (4 + 4 * i) (b_data bf)))
    (length (head_blocks h)) (put_buf b bf s)) as (s' & Hs & lg & -> & E1 & E2 & E3 & E4 & E5).
  - lia.
  - intros j s' (lg & -> & _ & _ & E & _). cbn. lia.
  - intros j s' Hj (lg & -> & E1 & E2 & E3 & E4 & E5).
    assert (Hjl : (j < length (lh_block (log_lh lg)))%nat) by lia.
    apply lookup_lt_is_Some_2 in Hj as [z Hz]. apply lookup_lt_is_Some_2 in Hjl as [y Hy].
    eexists. split.
    + erewrite bind_ret by (apply getbuf_ret; by apply (put_buf_lookup b bf _ bf0)).
      unfold lh_set. erewrite bind_ret by (apply lh_get_ret; exact Hy). reflexivity.
    + eexists. split_and!; [reflexivity|done|done|done|cbn; by rewrite length_insert|].
      intros k x Hk Hx. cbn. rewrite Nat2Z.id. destruct (decide (k = j)) as [->|Hkj].
      * rewrite list_lookup_insert_eq by (by eapply lookup_lt_Some).
        apply head_blocks_lookup in Hx as [_ ->]. done.
      * rewrite list_lookup_insert_ne by done. apply E5; [lia|done].
  - exists (k_log s). split_and!; [by destruct s|done|done|done|done|intros; lia].
  - exists lg. split; [exact Hs|]. split; try done; cbn; try lia.
    intros j z Hz. apply E5; [by eapply lookup_lt_Some|done].
Qed.

Lemma fetched_log s p n b f0 bf lg :
  fetched s p d n (put_buf b bf s) b f0 bf ->
  fetched (s <| k_log := lg |>) p d n (put_buf b bf (s <| k_log := lg |>)) b f0 bf.
Proof. intros [H1 [A1 A2 A3 A4 A5 A6] H3 H4 H5 H6 H7]. by split. Qed.

Lemma read_head_ret l s i p :
  alone l s i p -> (exists b, spare s b) -> head_ok (content s d st) ->
  log_dev (k_log s) = d -> log_start (k_log s) = st ->
  length (lh_block (log_lh (k_log s))) = Z.to_nat LOGSIZE ->
  exists s', read_head s = Ret tt s' /\ wrote_all [] i p s s' /\ logged (head_blocks (content s d st)) s'.
Proof.
  intros Hal Hsp Hok Ed Es Hlen.
  destruct (first_bread Hfuel l s i p d st Hal (key_nz st) start_ok Hsp)
    as (b & f0 & bf & Hr & Hf & Hinv1 & Hco). pose proof Hf as [Hb0 Hown Hdat _ _ _ _].
  set (s0 := s <| k_log := (k_log s) <| log_lh := (log_lh (k_log s)) <| lh_n := head_n (b_data bf) |> |> |>).
  rewrite <- Hdat in Hok |- *.
  destruct (read_head_loop s0 b f0 bf Hb0 Hok Ed Es Hlen eq_refl) as (lg & Hloop & Hlg).
  change (s0 <| k_log := lg |>) with (s <| k_log := lg |>) in *.
  destruct (release_block l (s <| k_log := lg |>) i p d st b f0 bf) as (s2 & H2 & W2 & F2);
    [by apply alone_log|by apply fetched_log|by apply (cache_inv_ext l (put_buf b bf s))|exact Hco|].
  exists s2. split_and!.
  - unfold read_head. kget. rewrite Ed, Es, dev_u32, start_u32. rewrite (bind_ret _ _ _ _ _ Hr).
    rewrite (bind_ret _ _ _ _ _ (getbuf_ret _ _ _ (ow_buf _ _ _ _ _ _ Hown))).
    unfold set_lhn, updlog. kget. by rewrite (bind_ret _ _ _ _ _ Hloop).
  - by eapply wrote_all_log_l.
  - eapply logged_same; [exact Hlg|]. by apply io_frame_log.
Qed.

(** The writes of recovery, for the blocks [f] found on the disk. *)
Definition recover_writes (f : blocks) : list dwrite :=
  installs (head_blocks (f d st)) f ++ [(d, st, head_block [] (f d st))].

Lemma recover_ret l s i p :
  alone l s i p -> (forall z, room d z s) -> head_ok (content s d st) ->
  log_dev (k_log s) = d -> log_start (k_log s) = st ->
  length (lh_block (log_lh (k_log s))) = Z.to_nat LOGSIZE ->
  exists s', recover_from_log s = Ret tt s' /\ wrote_all (recover_writes (content s)) i p s s' /\
    logged [] s'.
Proof.
  intros Hal Hroom Hok Ed Es Hlen. pose proof (room_spare _ _ _ (Hroom 0)) as Hsp.
  destruct (read_head_ret l s i p Hal Hsp Hok Ed Es Hlen) as (s1 & H1 & W1 & Hlg1).
  destruct (wa_alone _ _ _ _ _ W1) as [l1 Hal1].
  assert (Hnw : forall k, ~ written [] k) by (intros k (w & Hw & _); by apply not_elem_of_nil in Hw).
  assert (Hco1 : forall n, content s1 d n = content s d n) by (intros n; by apply (wa_content _ _ _ _ _ W1)).
  destruct (install_trans_ret _ l1 s1 i p Hal1 Hlg1) as (s2 & H2 & W2 & K2).
  { intros z _. eapply room_kept; [exact Hal|exact W1|apply Hnw|apply Hroom]. }
  pose proof (wrote_all_trans _ _ _ _ _ _ _ W1 W2) as W12.
  destruct (wa_alone _ _ _ _ _ W2) as [l2 Hal2]. pose proof (logged_same _ _ _ Hlg1 K2) as Hlg2.
  set (s2' := s2 <| k_log := (k_log s2) <| log_lh := (log_lh (k_log s2)) <| lh_n := 0 |> |> |>).
  destruct (write_head_ret [] l2 s2' i p) as (s3 & H3 & W3 & K3).
  { by apply alone_log. } { by eapply logged_nil. } { exact (spares_kept _ _ _ _ _ _ Hal W12 Hsp). }
  assert (Hst : content s2' d st = content s d st).
  { change (content s2' d st) with (content s2 d st). rewrite (wa_content _ _ _ _ _ W2) by done.
    rewrite upd_all_ne; [apply Hco1|]. intros w (j & z & Hz & ->)%elem_of_installs. cbn. intros [=].
    apply (home_start z); [|done]. apply Hlg1. by eapply list_elem_of_lookup_2. }
  rewrite Hst in W3. exists s3. split_and!.
  - unfold recover_from_log. rewrite (bind_ret _ _ _ _ _ H1), (bind_ret _ _ _ _ _ H2).
    unfold set_lhn, updlog. kget. exact H3.
  - apply wrote_all_log_l in W3. pose proof (wrote_all_trans _ _ _ _ _ _ _ W12 W3) as W.
    cbn [app] in W. unfold recover_writes.
    replace (installs (head_blocks (content s d st)) (content s))
      with (installs (head_blocks (content s d st)) (content s1)); [done|].
    apply imap_ext. intros j z _. by rewrite Hco1.
  - eapply logged_same; [|exact K3]. by eapply logged_nil.
Qed.

Lemma head_blocks_empty h : head_n h = 0 -> head_blocks h = [].
Proof. intros H. unfold head_blocks. by rewrite H. Qed.

Lemma head_ok_empty h : head_n h = 0 -> head_ok h.
Proof.
  intros H. unfold head_ok. rewrite (head_blocks_empty h H), H. change LOGSIZE with 30.
  split_and!; [lia|lia| |constructor]. intros z Hz. by apply not_elem_of_nil in Hz.
Qed.

(** ** Crashes *)

Section crash.
Context (bl : list Z) (f f0 : blocks).
Hypothesis (Hbl : Z.of_nat (length bl) < LOGSIZE) (Hhome : forall z, z ∈ bl -> home z) (Hnd : NoDup bl).
Hypothesis (Hempty : head_n (f0 d st) = 0) (Hlen : length (f d st) = block_size).

Lemma bl_range : Forall (fun z => 0 <= z < 2 ^ 31) bl.
Proof. apply Forall_forall. intros z Hz. by apply Hhome. Qed.

Lemma head_erased : head_n (head_block [] (head_block bl (f d st))) = 0.
Proof. rewrite head_n_block; [done|by rewrite length_head_block|]. change LOGSIZE with 30. simpl. lia. Qed.

(** Home blocks during the first phase, and the homes that are written. *)
Lemma logs_prefix_home ws1 ws2 z :
  logs bl f = ws1 ++ ws2 -> home z \/ z = st -> upd_all ws1 f0 d z = f0 d z.
Proof.
  intros E Hz. apply upd_all_ne. intros w Hw.
  assert (Hin : w ∈ logs bl f) by (rewrite E; set_solver).
  apply elem_of_logs in Hin as (j & y & Hy & ->). cbn. intros [=]. apply lookup_lt_Some in Hy.
  destruct Hz as [Hz| ->]; [by apply (slot_home j z); [lia|done|]|by apply (slot_start j)].
Qed.

Lemma homes_prefix ws1 ws2 g z :
  homes bl f = ws1 ++ ws2 -> upd_all ws1 g d z = g d z \/ upd_all ws1 g d z = f d z /\ z ∈ bl.
Proof.
  intros E. destruct (decide (Exists (fun w => fst w = (d, z)) ws1)) as [Hex|Hno].
  - right. apply Exists_exists in Hex as (w & Hw & Hk).
    assert (Hin : w ∈ homes bl f) by (rewrite E; set_solver).
    apply elem_of_homes in Hin as (y & Hy & ->). cbn in Hk. injection Hk as ->. split; [|done].
    apply upd_all_in; [|done]. assert (Hn : NoDup (fst <$> homes bl f)).
    { unfold homes. rewrite <- list_fmap_compose. apply NoDup_fmap_2; [|done]. intros a b [=]. done. }
    rewrite E, fmap_app in Hn. by apply NoDup_app in Hn as [? _].
  - left. apply upd_all_ne. intros w Hw Hk. apply Hno. apply Exists_exists. eauto.
Qed.

Lemma homes_all g z :
  home z -> upd_all (homes bl f) g d z = if decide (z ∈ bl) then f d z else g d z.
Proof.
  intros Hz. case_decide as Hin.
  - apply upd_all_in; [|unfold homes; apply list_elem_of_fmap; eauto].
    unfold homes. rewrite <- list_fmap_compose. apply NoDup_fmap_2; [|done]. intros a b [=]. done.
  - apply upd_all_ne. intros w (y & Hy & ->)%elem_of_homes. cbn. intros [=]. by subst.
Qed.

(** What a crash can leave on the disk. *)
Inductive crashed (g : blocks) : Prop :=
| crashed_before : head_n (g d st) = 0 -> (forall z, home z -> g d z = f0 d z) -> crashed g
| crashed_within : head_blocks (g d st) = bl -> head_ok (g d st) ->
    (forall j z, bl !! j = Some z -> g d (slot j) = f d z) ->
    (forall z, home z -> z ∉ bl -> g d z = f0 d z) -> crashed g
| crashed_after : head_n (g d st) = 0 ->
    (forall z, home z -> g d z = if decide (z ∈ bl) then f d z else f0 d z) -> crashed g.

Lemma crash_within k1 k2 :
  homes bl f = k1 ++ k2 ->
  crashed (upd_all (logs bl f ++ [(d, st, head_block bl (f d st))] ++ k1) f0).
Proof.
  intros E. rewrite !upd_all_app. set (g1 := upd_all [(d, st, head_block bl (f d st))] (upd_all (logs bl f) f0)).
  assert (Hk : forall w, w ∈ k1 -> exists z, z ∈ bl /\ fst w = (d, z)).
  { intros w Hw. assert (Hin : w ∈ homes bl f) by (rewrite E; set_solver).
    apply elem_of_homes in Hin as (z & Hz & ->). eauto. }
  assert (Hst : upd_all k1 g1 d st = head_block bl (f d st)).
  { rewrite upd_all_ne; [apply upd_eq|]. intros w Hw Ew. destruct (Hk w Hw) as (z & Hz & Ez).
    apply (home_start z); [auto|congruence]. }
  apply crashed_within.
  - rewrite Hst. apply head_blocks_block; [done|lia|apply bl_range].
  - rewrite Hst. unfold head_ok. rewrite head_n_block, head_blocks_block by (done || lia || apply bl_range).
    split_and!; [lia|lia|done|done].
  - intros j z Hz. rewrite upd_all_ne.
    + unfold g1. rewrite upd_all_cons. cbn. rewrite upd_ne by (cbn; intros [=]; by apply (slot_start j)).
      by apply logs_content.
    + intros w Hw Ew. destruct (Hk w Hw) as (y & Hy & Ey). apply (slot_home j y); [|auto|congruence].
      apply lookup_lt_Some in Hz. lia.
  - intros z Hz Hnin. destruct (homes_prefix k1 k2 g1 z E) as [->|[_ ?]]; [|done].
    unfold g1. rewrite upd_all_cons. cbn. rewrite upd_ne by (cbn; intros [=]; by apply (home_start z)).
    apply (logs_prefix_home _ [] z); [by rewrite app_nil_r|by left].
Qed.

(** The disk after all writes. *)
Lemma commit_final :
  head_n (upd_all (commit_writes bl f) f0 d st) = 0 /\
  forall z, home z -> upd_all (commit_writes bl f) f0 d z = if decide (z ∈ bl) then f d z else f0 d z.
Proof.
  unfold commit_writes. set (h := head_block bl (f d st)). rewrite !upd_all_app, !upd_all_one. split.
  - rewrite upd_eq. apply head_erased.
  - intros z Hz. rewrite upd_ne by (cbn; intros [=]; by apply (home_start z)).
    rewrite homes_all by done. case_decide; [done|].
    rewrite upd_ne by (cbn; intros [=]; by apply (home_start z)).
    apply (logs_prefix_home _ [] z); [by rewrite app_nil_r|by left].
Qed.

Lemma crash_cases ws1 ws2 : commit_writes bl f = ws1 ++ ws2 -> crashed (upd_all ws1 f0).
Proof.
  unfold commit_writes. intros E. set (h := head_block bl (f d st)) in *.
  assert (Hbefore : forall k, logs bl f = ws1 ++ k -> crashed (upd_all ws1 f0)).
  { intros k Ek. apply crashed_before.
    - by rewrite (logs_prefix_home ws1 k) by auto.
    - intros z Hz. apply (logs_prefix_home ws1 k); auto. }
  apply app_eq_inv in E as [(k & E1 & E2)|(k & E1 & E2)]; [by eapply Hbefore|].
  destruct k as [|w k].
  { rewrite app_nil_r in E1. apply (Hbefore []). by rewrite app_nil_r. }
  cbn in E2. injection E2 as Ew E2. subst w.
  apply app_eq_inv in E2 as [(k2 & E3 & E4)|(k2 & E3 & E4)].
  { subst ws1. by apply (crash_within k k2). }
  destruct k2 as [|w2 k2].
  { rewrite app_nil_r in E3. subst ws1 k. apply (crash_within _ []). by rewrite app_nil_r. }
  cbn in E4. injection E4 as Ew E4. symmetry in E4. apply app_nil in E4 as [-> _]. subst w2 k ws1.
  destruct commit_final as [H1 H2]. by apply crashed_after.
Qed.

Lemma crashed_head_ok g : crashed g -> head_ok (g d st).
Proof. intros [H _|_ H _ _|H _]; [by apply head_ok_empty|done|by apply head_ok_empty]. Qed.

(** After recovery the home blocks are all old or all new. *)
Lemma crash_recovers g :
  crashed g ->
  (forall z, home z -> upd_all (recover_writes g) g d z = f0 d z) \/
  (forall z, home z -> upd_all (recover_writes g) g d z = if decide (z ∈ bl) then f d z else f0 d z).
Proof.
  intros Hg. unfold recover_writes.
  assert (Hhd : forall ws z x, home z -> upd_all (ws ++ [(d, st, x)]) g d z = upd_all ws g d z).
  { intros ws z x Hz. rewrite upd_all_app, upd_all_cons. apply upd_ne. cbn. intros [=].
    by apply (home_start z). }
  destruct Hg as [Hn Hz|Hb _ Hs Hz|Hn Hz].
  - left. intros z Hh. rewrite Hhd, head_blocks_empty by done. by apply Hz.
  - right. intros z Hh. rewrite Hhd, Hb, (installs_homes bl f), homes_all by done.
    case_decide; [done|]. by apply Hz.
  - right. intros z Hh. rewrite Hhd, head_blocks_empty by done. by apply Hz.
Qed.
End crash.
End geometry.

(** ** The theorem *)

(** Nothing is dirty: the state of the cache after a boot. *)
Definition all_clean (s : kernel) : Prop :=
  forall b bf, k_bufs s !! b = Some bf -> dirty bf = false.

Lemma content_disk l s i p d n :
  alone l s i p -> (d, n) <> (0, 0) ->
  (forall b bf, k_bufs s !! b = Some bf -> caches d n bf = true -> dirty bf = false) ->
  content s d n = disk_block s d n.
Proof.
  intros Hal Hdn Hcl. pose proof (al_inv _ _ _ _ Hal) as Hinv.
  destruct (content_cases s d n (ci_uniq _ _ Hinv) Hdn) as [(b & bf & Hb & Hh & ->)|[_ ->]]; [|done].
  eapply content_clean; [done|done|done|]. eapply Hcl; [done|apply Hh].
Qed.

Lemma clean_room l s i p d z : alone l s i p -> all_clean s -> room d z s.
Proof.
  intros Hal Hcl. right. pose proof (alone_length _ _ _ _ Hal) as Hlen.
  assert (H : forall b, (b < NBUF)%nat -> spare s b).
  { intros b Hb. rewrite <- Hlen in Hb. apply lookup_lt_is_Some_2 in Hb as [bf Hb]. exists bf. eauto. }
  exists 0%nat, 1%nat. split_and!; [done|apply H; vm_compute; lia..].
Qed.

(** The kernel is about to commit the blocks [bl]: they are pinned in the
    cache, nothing else is dirty, the log on disk is empty. *)
Record committable {D : BlockDev} (d st : Z) (bl : list Z) (l : list nat) (s : kernel) (i : nat) (p : proc) : Prop := {
  co_alone : alone l s i p;
  co_logged : logged d st bl s;
  co_some : bl <> [];
  co_pinned : forall z, z ∈ bl -> pinned d z s;
  co_dirty : forall b bf, k_bufs s !! b = Some bf -> dirty bf = true -> b_dev bf = d /\ b_blockno bf ∈ bl;
  co_spare : exists b, spare s b;
  co_empty : head_n (disk_block s d st) = 0
}.

(** A kernel that boots from the blocks [g]. *)
Record booted (d st : Z) (g : blocks) (l : list nat) (s : kernel) (i : nat) (p : proc) : Prop := {
  bt_alone : alone l s i p;
  bt_clean : all_clean s;
  bt_dev : log_dev (k_log s) = d;
  bt_start : log_start (k_log s) = st;
  bt_len : length (lh_block (log_lh (k_log s))) = Z.to_nat LOGSIZE;
  bt_disk : forall n, disk_block s d n = g d n
}.

Section crash_safety.
Context {F : Fuel} {D : BlockDev} {HD : SyncDev D} (Hfuel : (0 < fuel)%nat) (d st : Z).
Hypothesis (Hreg : log_region d st).

Lemma recover_booted g l s i p :
  booted d st g l s i p -> head_ok d st (g d st) ->
  exists s', recover_from_log s = Ret tt s' /\ logged d st [] s' /\ (exists l', alone l' s' i p) /\
    forall n, disk_block s' d n = upd_all (recover_writes d st g) g d n.
Proof.
  intros [Hal Hcl Hd Hs Hlen Hdisk] Hok.
  assert (Hco : forall n, content s d n = g d n).
  { intros n. rewrite <- Hdisk. eapply content_disk; [done|by apply key_nz with st|eauto]. }
  destruct (recover_ret Hfuel d st Hreg l s i p) as (s' & H1 & W & Hlg); try done.
  { intros z. by eapply clean_room. } { by rewrite Hco. }
  exists s'. split_and!; [done|done|by apply W|]. intros n. rewrite (wa_disk _ _ _ _ _ W).
  assert (E : recover_writes d st (content s) = recover_writes d st g).
  { unfold recover_writes, installs. rewrite Hco. f_equal. apply imap_ext. intros j z _. by rewrite Hco. }
  rewrite E. apply upd_all_ext. apply Hdisk.
Qed.

Lemma commit_crash bl l s i p :
  committable d st bl l s i p ->
  exists s', commit s = Ret tt s' /\ forall ws1 ws2, k_writes s' = k_writes s ++ ws1 ++ ws2 ->
    forall lb sb ib pb, booted d st (upd_all ws1 (disk_block s)) lb sb ib pb ->
    exists sr, recover_from_log sb = Ret tt sr /\
      ((forall z, home d st z -> disk_block sr d z = disk_block s d z) \/
       (forall z, home d st z -> disk_block sr d z = content s d z)).
Proof.
  intros [Hal Hlg Hne Hpin Hdirty Hsp Hemp].
  destruct (commit_ret Hfuel d st Hreg bl l s i p Hal Hlg Hne Hpin Hsp) as (s' & H1 & W & _).
  exists s'. split; [done|]. intros ws1 ws2 E lb sb ib pb Hboot.
  rewrite (wa_writes _ _ _ _ _ W) in E. apply (inj (app _)) in E.
  pose proof Hlg as [_ _ _ _ Hbl Hhome Hnd].
  assert (Hlen : length (content s d st) = block_size).
  { pose proof (al_inv _ _ _ _ Hal) as Hinv.
    destruct (content_cases s d st (ci_uniq _ _ Hinv)) as [(b & bf & Hb & _ & ->)|[_ ->]];
      [by apply key_nz with st|by apply (ci_bufs _ _ Hinv b bf)|apply Hinv]. }
  assert (Hcr : crashed d st bl (content s) (disk_block s) (upd_all ws1 (disk_block s)))
    by (by eapply crash_cases).
  destruct (recover_booted _ _ _ _ _ Hboot) as (sr & Hr & _ & _ & Hd).
  { eapply crashed_head_ok; done. }
  exists sr. split; [done|].
  edestruct crash_recovers as [Hold|Hnew]; [..|exact Hcr| |]; try done.
  - left. intros z Hz. by rewrite Hd, Hold.
  - right. intros z Hz. rewrite Hd, Hnew by done. case_decide as Hin; [done|]. symmetry.
    eapply content_disk; [done|by apply key_nz with st|]. intros b bf Hb Hk.
    destruct (dirty bf) eqn:Ed; [|done]. destruct (Hdirty b bf Hb Ed) as [_ Hi].
    apply caches_spec in Hk as [_ <-]. done.
Qed.
End crash_safety.
