(* ===== verification/Inode.v ===== *)
(** * fs.c: blocks and inodes

    The block allocator, the inode cache and the inodes on disk.  A [dinode]
    is 64 bytes of its block: type, major, minor and nlink in 16 bits each,
    the size and 13 block addresses in 32 bits each. *)

From S2P Require Import Prelude State Monad Mem Spinlock ConsoleOut Kalloc Vm Sched SleepWake Sleeplock.
From S2P Require Import Bio Log.

Definition getinode (ip : nat) : K inode := fun s => deref "inode" (k_inodes s !! ip) s.
Definition on_inode (ip : nat) (f : inode -> inode) (s : kernel) : kernel :=
  s <| k_inodes := alter f ip (k_inodes s) |>.
Definition updinode (ip : nat) (f : inode -> inode) : K unit :=
  do! getinode ip; modify (on_inode ip f).

(** Change the data of a buffer. *)
Definition upddata (b : nat) (f : list Z -> list Z) : K unit :=
  updbuf b (fun bf => bf <| b_data := f (b_data bf) |>).
Definition getdata (b : nat) : K (list Z) := let! bf := getbuf b in ret (b_data bf).

(** [IBLOCK], [BBLOCK] and the offset of an inode in its block. *)
Definition IBLOCK (inum : Z) (sb : superblock) : Z := inum / IPB +u sb_inodestart sb.
Definition BBLOCK (b : Z) (sb : superblock) : Z := b / BPB +u sb_bmapstart sb.
Definition dinode_off (inum : Z) : Z := (inum mod IPB) * 64.

(** The bit of block [bi] in a block of the bitmap. *)
Definition bit_mask (bi : Z) : Z := Z.shiftl 1 (bi mod 8).
Definition bit_get (data : list Z) (bi : Z) : Z := Z.land (lbyte data (bi / 8)) (bit_mask bi).
Definition bit_set (bi : Z) (data : list Z) : list Z :=
  lput8 (bi / 8) (Z.lor (lbyte data (bi / 8)) (bit_mask bi)) data.
Definition bit_clear (bi : Z) (data : list Z) : list Z :=
  lput8 (bi / 8) (Z.land (lbyte data (bi / 8)) (Z.lnot (bit_mask bi))) data.

(** The inner loop of [balloc]: the first clear bit from [bi] on, of blocks
    below [size]. *)
Fixpoint find_free (n : nat) (data : list Z) (b bi size : Z) : option Z :=
  match n with
  | O => None
  | S n' =>
      if b + bi <? size then
        if bit_get data bi =? 0 then Some bi else find_free n' data b (bi + 1) size
      else None
  end.

Section inode.
Context {F : Fuel} {D : BlockDev}.

Definition bzero (dev bno : Z) : K unit :=
  let! bp := bread (u32 dev) (u32 bno) in
  do! upddata bp (fun _ => replicate (Z.to_nat BSIZE) 0);
  do! log_write bp;
  brelse bp.

(** The outer loop of [balloc]; [k] bounds its turns, one per bitmap block. *)
Fixpoint balloc_loop (k : nat) (dev b : Z) : K Z :=
  let! sb := gets k_sb in
  if b <? sb_size sb then
    match k with
    | O => fail FFuel
    | S k' =>
        let! bp := bread dev (BBLOCK b sb) in
        let! data := getdata bp in
        match find_free (Z.to_nat BPB) data b 0 (sb_size sb) with
        | Some bi =>
            do! upddata bp (bit_set bi);
            do! log_write bp;
            do! brelse bp;
            do! bzero dev (b + bi);
            ret (b + bi)
        | None =>
            do! brelse bp;
            balloc_loop k' dev (b + BPB)
        end
    end
  else panic "balloc: out of blocks".
Definition balloc (dev : Z) : K Z :=
  let! sb := gets k_sb in
  balloc_loop (S (Z.to_nat (sb_size sb / BPB))) dev 0.

Definition bfree (dev b : Z) : K unit :=
  let! sb := readsb dev in
  do! modify (fun s => s <| k_sb := sb |>);
  let! sb := gets k_sb in
  let! bp := bread (u32 dev) (BBLOCK b sb) in
  let bi := b mod BPB in
  let! data := getdata bp in
  if bit_get data bi =? 0 then panic "freeing free block"
  else
    do! upddata bp (bit_clear bi);
    do! log_write bp;
    brelse bp.

Definition iinit (dev : Z) : K unit :=
  do! initlock L_icache "icache";
  do! for_each (seq 0 NINODE) (fun i => initsleeplock (SL_inode i) "inode");
  let! sb := readsb (u32 dev) in
  do! modify (fun s => s <| k_sb := sb |>);
  let! sb := gets k_sb in
  cprintf (Some (bytes "sb: size %d nblocks %d ninodes %d nlog %d logstart %d inodestart %d bmap start %d"
      ++ [NL]))
    [AInt (sb_size sb); AInt (sb_nblocks sb); AInt (sb_ninodes sb); AInt (sb_nlog sb);
     AInt (sb_logstart sb); AInt (sb_inodestart sb); AInt (sb_bmapstart sb)].

(** ** The inode cache *)

Definition cached_inode (dev inum : Z) (ip : inode) : Prop :=
  0 < i_ref ip /\ i_dev ip = dev /\ i_inum ip = inum.
#[global] Instance cached_inode_dec dev inum ip : Decision (cached_inode dev inum ip).
Proof. unfold cached_inode. solve_decision. Defined.

Definition iget (dev inum : Z) : K nat :=
  do! acquire L_icache;
  let! ips := gets k_inodes in
  match list_find (cached_inode dev inum) ips with
  | Some (ip, _) =>
      do! updinode ip (fun i => i <| i_ref := i_ref i + 1 |>);
      do! release L_icache;
      ret ip
  | None =>
      match list_find (fun i => i_ref i = 0) ips with
      | None => panic "iget: no inodes"
      | Some (ip, _) =>
          do! updinode ip (fun i => i <| i_dev := dev |>);
          do! updinode ip (fun i => i <| i_inum := inum |>);
          do! updinode ip (fun i => i <| i_ref := 1 |>);
          do! updinode ip (fun i => i <| i_flags := 0 |>);
          do! release L_icache;
          ret ip
      end
  end.

Definition idup (ip : nat) : K nat :=
  do! acquire L_icache;
  do! updinode ip (fun i => i <| i_ref := i_ref i + 1 |>);
  do! release L_icache;
  ret ip.

(** ** Inodes on disk *)

(** The loop of [ialloc] from inode [inum] on; [k] bounds its turns. *)
Fixpoint ialloc_loop (k : nat) (dev type inum : Z) : K nat :=
  let! sb := gets k_sb in
  if inum <? sb_ninodes sb then
    match k with
    | O => fail FFuel
    | S k' =>
        let! bp := bread dev (IBLOCK inum sb) in
        let! data := getdata bp in
        let off := dinode_off inum in
        if lget16 off data =? 0 then
          do! upddata bp (lput off (replicate 64 0));
          do! upddata bp (lput16 off type);
          do! log_write bp;
          do! brelse bp;
          iget dev inum
        else
          do! brelse bp;
          ialloc_loop k' dev type (inum + 1)
    end
  else panic "ialloc: no inodes".
Definition ialloc (dev type : Z) : K nat :=
  let! sb := gets k_sb in
  ialloc_loop (Z.to_nat (sb_ninodes sb)) dev type 1.

(** [addrs] of an inode, in a block at offset [off]. *)
Fixpoint put_addrs (off : Z) (addrs data : list Z) : list Z :=
  match addrs with
  | [] => data
  | a :: addrs' => put_addrs (off + 4) addrs' (lput32 off a data)
  end.
Definition get_addrs (off : Z) (data : list Z) : list Z :=
  (fun k => lget32 (off + 4 * Z.of_nat k) data) <$> seq 0 (Z.to_nat (NDIRECT + 1)).

Definition enc_dinode (off : Z) (i : inode) (data : list Z) : list Z :=
  put_addrs (off + 12) (i_addrs i)
    (lput32 (off + 8) (i_size i)
    (lput16 (off + 6) (i_nlink i)
    (lput16 (off + 4) (i_minor i)
    (lput16 (off + 2) (i_major i)
    (lput16 off (i_type i) data))))).

Definition dec_dinode (off : Z) (data : list Z) (i : inode) : inode :=
  i <| i_type := i16 (lget16 off data) |>
    <| i_major := i16 (lget16 (off + 2) data) |>
    <| i_minor := i16 (lget16 (off + 4) data) |>
    <| i_nlink := i16 (lget16 (off + 6) data) |>
    <| i_size := lget32 (off + 8) data |>
    <| i_addrs := get_addrs (off + 12) data |>.

Definition iupdate (ip : nat) : K unit :=
  let! i := getinode ip in
  let! sb := gets k_sb in
  let! bp := bread (i_dev i) (IBLOCK (i_inum i) sb) in
  let! i := getinode ip in
  do! upddata bp (enc_dinode (dinode_off (i_inum i)) i);
  do! log_write bp;
  brelse bp.

Definition ilock (ip : option nat) : K unit :=
  match ip with
  | None => panic "ilock"
  | Some ip =>
      let! i := getinode ip in
      if i_ref i <? 1 then panic "ilock"
      else
        do! acquiresleep (SL_inode ip);
        let! i := getinode ip in
        when (Z.land (i_flags i) I_VALID =? 0) (
          let! sb := gets k_sb in
          let! bp := bread (i_dev i) (IBLOCK (i_inum i) sb) in
          let! data := getdata bp in
          do! updinode ip (fun i => dec_dinode (dinode_off (i_inum i)) data i);
          do! brelse bp;
          do! updinode ip (fun i => i <| i_flags := Z.lor (i_flags i) I_VALID |>);
          let! i := getinode ip in
          when (i_type i =? 0) (panic "ilock: no type"))
  end.

Definition iunlock (ip : option nat) : K unit :=
  match ip with
  | None => panic "iunlock"
  | Some ip =>
      let! h := holdingsleep (SL_inode ip) in
      if negb h then panic "iunlock"
      else
        let! i := getinode ip in
        if i_ref i <? 1 then panic "iunlock"
        else releasesleep (SL_inode ip)
  end.

(** ** The blocks of an inode *)

Definition iaddr (i : inode) (k : Z) : Z := default 0 (i_addrs i !! Z.to_nat k).
Definition set_iaddr (k v : Z) (i : inode) : inode :=
  i <| i_addrs := <[Z.to_nat k := v]> (i_addrs i) |>.

Definition bmap (ip : nat) (bn : Z) : K Z :=
  let! i := getinode ip in
  if bn <? NDIRECT then
    if iaddr i bn =? 0 then
      let! addr := balloc (i_dev i) in
      do! updinode ip (set_iaddr bn addr);
      ret addr
    else ret (iaddr i bn)
  else
    let bn := bn - NDIRECT in
    if bn <? NINDIRECT then
      let! addr :=
        if iaddr i NDIRECT =? 0 then
          let! addr := balloc (i_dev i) in
          do! updinode ip (set_iaddr NDIRECT addr);
          ret addr
        else ret (iaddr i NDIRECT) in
      let! bp := bread (i_dev i) addr in
      let! data := getdata bp in
      let addr := lget32 (4 * bn) data in
      let! addr :=
        if addr =? 0 then
          let! addr := balloc (i_dev i) in
          do! upddata bp (lput32 (4 * bn) addr);
          do! log_write bp;
          ret addr
        else ret addr in
      do! brelse bp;
      ret addr
    else panic "bmap: out of range".

Definition itrunc (ip : nat) : K unit :=
  do! for_each (seq 0 (Z.to_nat NDIRECT)) (fun k =>
    let! i := getinode ip in
    when (negb (iaddr i (Z.of_nat k) =? 0)) (
      do! bfree (i_dev i) (iaddr i (Z.of_nat k));
      updinode ip (set_iaddr (Z.of_nat k) 0)));
  let! i := getinode ip in
  do! when (negb (iaddr i NDIRECT =? 0)) (
    let! bp := bread (i_dev i) (iaddr i NDIRECT) in
    do! for_each (seq 0 (Z.to_nat NINDIRECT)) (fun j =>
      let! data := getdata bp in
      let a := lget32 (4 * Z.of_nat j) data in
      when (negb (a =? 0)) (bfree (i_dev i) a));
    do! brelse bp;
    let! i := getinode ip in
    do! bfree (i_dev i) (iaddr i NDIRECT);
    updinode ip (set_iaddr NDIRECT 0));
  do! updinode ip (fun i => i <| i_size := 0 |>);
  iupdate ip.

Definition iput (ip : nat) : K unit :=
  do! acquire L_icache;
  let! i := getinode ip in
  do! when ((i_ref i =? 1) && negb (Z.land (i_flags i) I_VALID =? 0) && (i_nlink i =? 0)) (
    do! release L_icache;
    do! itrunc ip;
    do! updinode ip (fun i => i <| i_type := 0 |>);
    do! iupdate ip;
    do! acquire L_icache;
    updinode ip (fun i => i <| i_flags := 0 |>));
  do! updinode ip (fun i => i <| i_ref := i_ref i - 1 |>);
  release L_icache.

Definition iunlockput (ip : nat) : K unit :=
  do! iunlock (Some ip);
  iput ip.
End inode.
