(* ===== verification/LogOps.v ===== *)
(** * The log: operations

    [log_write] records a block in the header once, however often it is
    written; [begin_op] and [end_op] count the operations, and the last one to
    end commits.  Together: a transaction of block updates. *)

From S2P Require Import Prelude State Monad Mem Spinlock Sample ConsoleOut Kalloc Vm Sched SleepWake.
From S2P Require Import Sleeplock Bio BioFacts Cache Log LogFacts Writes LogSpec Inode.

(** The header after block [n] has been recorded. *)
Definition absorb (n : Z) (bl : list Z) : list Z := if decide (n ∈ bl) then bl else bl ++ [n].

Lemma elem_of_absorb z n bl : z ∈ absorb n bl <-> z = n \/ z ∈ bl.
Proof.
  unfold absorb. case_decide as H.
  - split; [by right|]. by intros [->|].
  - rewrite elem_of_app, list_elem_of_singleton. tauto.
Qed.
Lemma NoDup_absorb n bl : NoDup bl -> NoDup (absorb n bl).
Proof.
  intros H. unfold absorb. case_decide as Hn; [done|]. apply NoDup_app. split_and!; [done| |apply NoDup_singleton].
  intros z Hz Hz'. apply list_elem_of_singleton in Hz' as ->. done.
Qed.
Lemma length_absorb n bl : (length (absorb n bl) <= S (length bl))%nat.
Proof. unfold absorb. case_decide; [lia|]. rewrite length_app. cbn. lia. Qed.

(** ** log_write *)

(** The entries of the header are [bl]. *)
Record header (bl : list Z) (lg : logstate) : Prop := {
  hd_n : lh_n (log_lh lg) = Z.of_nat (length bl);
  hd_blocks : take (length bl) (lh_block (log_lh lg)) = bl;
  hd_len : length (lh_block (log_lh lg)) = Z.to_nat LOGSIZE;
  hd_range : Forall (fun z => 0 <= z < 2 ^ 31) bl
}.

Lemma header_lookup bl lg j z :
  header bl lg -> bl !! j = Some z -> lh_block (log_lh lg) !! j = Some z.
Proof.
  intros [_ H _ _] Hj. rewrite <- H in Hj. pose proof (lookup_lt_Some _ _ _ Hj) as Hlt.
  rewrite length_take in Hlt. by rewrite lookup_take_lt in Hj by lia.
Qed.

(** The place of [n] in [bl], or its end. *)
Fixpoint place (n : Z) (bl : list Z) : nat :=
  match bl with
  | [] => O
  | z :: bl' => if z =? n then O else S (place n bl')
  end.

Lemma place_in n bl : n ∈ bl -> bl !! place n bl = Some n.
Proof.
  induction bl as [|z bl IH]; intros H; [by apply not_elem_of_nil in H|]. cbn.
  destruct (Z.eqb_spec z n) as [->|Hne]; [done|]. apply IH. by apply elem_of_cons in H as [->|].
Qed.
Lemma place_notin n bl : n ∉ bl -> place n bl = length bl.
Proof.
  induction bl as [|z bl IH]; intros H; [done|]. cbn. apply not_elem_of_cons in H as [H1 H2].
  rewrite (proj2 (Z.eqb_neq _ _)) by congruence. by rewrite IH.
Qed.

Lemma log_find_ret bl s n k j :
  header bl (k_log s) -> 0 <= n < 2 ^ 31 -> (length (drop j bl) <= k)%nat -> (j <= length bl)%nat ->
  log_find k (Z.of_nat j) n s = Ret (Z.of_nat (j + place n (drop j bl))) s.
Proof.
  intros Hh Hn. revert j. induction k as [|k IH]; intros j Hk Hj.
  - assert (Hd : drop j bl = []) by (apply nil_length_inv; lia). rewrite Hd. cbn [place].
    rewrite length_drop in Hk. cbn [log_find]. kget. rewrite (hd_n _ _ Hh).
    rewrite (proj2 (Z.ltb_ge _ _)) by lia. by rewrite Nat.add_0_r.
  - cbn [log_find]. kget. rewrite (hd_n _ _ Hh). destruct (Z.ltb_spec (Z.of_nat j) (Z.of_nat (length bl))) as [Hlt|Hge].
    + destruct (lookup_lt_is_Some_2 bl j) as [z Hz]; [lia|].
      rewrite (bind_ret _ _ _ _ _ (lh_get_ret s j z (header_lookup _ _ _ _ Hh Hz))).
      pose proof (hd_range _ _ Hh) as Hr. rewrite Forall_lookup in Hr. specialize (Hr j z Hz).
      rewrite u32_small by (unfold is_u32; lia). rewrite (drop_S _ _ _ Hz). cbn [place].
      destruct (z =? n); [by rewrite Nat.add_0_r|].
      replace (Z.of_nat j + 1) with (Z.of_nat (S j)) by lia. rewrite IH; [|..]; [|rewrite length_drop in *; lia|lia].
      f_equal. lia.
    + rewrite drop_ge by lia. cbn [place]. by rewrite Nat.add_0_r.
Qed.

(** The log after block [n] has been recorded. *)
Definition record_block (n : Z) (bl : list Z) (lg : logstate) : logstate :=
  lg <| log_lh := MkLogheader (Z.of_nat (length (absorb n bl)))
          (<[place n bl := n]> (lh_block (log_lh lg))) |>.

Lemma header_record n bl lg :
  header bl lg -> 0 <= n < 2 ^ 31 -> Z.of_nat (length bl) < LOGSIZE ->
  header (absorb n bl) (record_block n bl lg).
Proof.
  intros Hh Hn Hl. pose proof Hh as [H1 H2 H3 H4]. unfold absorb. split; cbn [record_block log_lh lh_n lh_block].
  - done.
  - cbn. case_decide as Hin.
    + rewrite list_insert_id; [done|]. eapply header_lookup; [done|by apply place_in].
    + rewrite place_notin by done. rewrite length_app. cbn [length]. rewrite Nat.add_1_r.
      change LOGSIZE with 30 in *.
      rewrite (take_S_r _ _ n) by (apply list_lookup_insert_eq; lia).
      by rewrite take_insert_ge, H2 by lia.
  - cbn. by rewrite length_insert.
  - case_decide; [done|]. apply Forall_app. split; [done|]. by apply Forall_singleton.
Qed.

Definition pin (bf : buf) : buf := bf <| b_flags := Z.lor (b_flags bf) B_DIRTY |>.

(** The state after [log_write] of buffer [b]. *)
Definition logged_state (b : nat) (n : Z) (bl : list Z) (s : kernel) : kernel :=
  (on_buf b pin s) <| k_log := record_block n bl (k_log s) |>.

Section log_write.
Context {F : Fuel} {D : BlockDev}.
Context (s : kernel) (i : nat) (p : proc) (b : nat) (bf : buf) (bl : list Z).
Hypothesis (Hcalm : calm s i p) (Hb : k_bufs s !! b = Some bf) (Hh : header bl (k_log s)).

Lemma log_write_full :
  log_size (k_log s) - 1 <= Z.of_nat (length bl) ->
  log_write b s = Fault (FPanic "too big a transaction") s.
Proof.
  intros Hf. unfold log_write. kget. rewrite (hd_n _ _ Hh).
  by rewrite (proj2 (Z.leb_le (log_size (k_log s) - 1) _)), orb_true_r by done.
Qed.

Hypothesis (Hn : 0 <= b_blockno bf < 2 ^ 31).
Hypothesis (Hroom : Z.of_nat (length bl) < LOGSIZE) (Hroom' : Z.of_nat (length bl) < log_size (k_log s) - 1).

Lemma log_write_outside :
  log_outstanding (k_log s) < 1 -> log_write b s = Fault (FPanic "log_write outside of trans") s.
Proof.
  intros Ho. unfold log_write. kget. rewrite (hd_n _ _ Hh).
  rewrite (proj2 (Z.leb_gt LOGSIZE _)), (proj2 (Z.leb_gt (log_size _ - 1) _)) by lia. cbn [orb].
  by rewrite (proj2 (Z.ltb_lt _ 1)) by lia.
Qed.

Lemma log_write_ret :
  1 <= log_outstanding (k_log s) ->
  log_write b s = Ret tt (logged_state b (b_blockno bf) bl s).
Proof.
  intros Ho. set (n := b_blockno bf) in *. unfold log_write. kget. rewrite (hd_n _ _ Hh).
  rewrite (proj2 (Z.leb_gt LOGSIZE _)), (proj2 (Z.leb_gt (log_size _ - 1) _)) by lia. cbn [orb].
  rewrite (proj2 (Z.ltb_ge _ 1)) by lia.
  assert (Hl : lock_free L_log s) by by apply Hcalm.
  rewrite (bind_ret _ _ _ _ _ (acquire_calm _ _ _ _ Hcalm Hl)).
  rewrite (bind_ret _ _ _ _ _ (getbuf_ret (acq L_log s) b bf Hb)). fold n.
  assert (Hfind : log_find (S (Z.to_nat LOGSIZE)) 0 n (acq L_log s)
    = Ret (Z.of_nat (place n bl)) (acq L_log s)).
  { pose proof (log_find_ret bl (acq L_log s) n (S (Z.to_nat LOGSIZE)) 0 Hh Hn) as H.
    rewrite drop_0 in H. apply H; [|lia]. change LOGSIZE with 30 in *. lia. }
  rewrite (bind_ret _ _ _ _ _ Hfind).
  assert (Hpl : (place n bl <= length bl)%nat).
  { destruct (decide (n ∈ bl)) as [Hin|Hin].
    - apply place_in in Hin. apply lookup_lt_Some in Hin. lia.
    - by rewrite place_notin. }
  destruct (lookup_lt_is_Some_2 (lh_block (log_lh (k_log s))) (place n bl)) as [z Hz].
  { rewrite (hd_len _ _ Hh). change LOGSIZE with 30 in *. lia. }
  unfold lh_set. rewrite (bind_ret _ _ _ tt ((acq L_log s) <| k_log :=
    (k_log s) <| log_lh := lh_put (Z.of_nat (place n bl)) n (log_lh (k_log s)) |> |>)).
  2: { by rewrite (bind_ret _ _ _ _ _ (lh_get_ret (acq L_log s) _ z Hz)). }
  kget. change (lh_n (log_lh (k_log _))) with (lh_n (log_lh (k_log s))). rewrite (hd_n _ _ Hh).
  rewrite (bind_ret _ _ _ tt ((acq L_log s) <| k_log := record_block n bl (k_log s) |>)).
  - erewrite bind_ret by (eapply updbuf_ret; exact Hb).
    by rewrite (release_calm _ s _ i p Hcalm Hl).
  - unfold record_block, lh_put, absorb. rewrite Nat2Z.id, i32_small by lia.
    destruct (decide (n ∈ bl)) as [Hin|Hin].
    + rewrite (proj2 (Z.eqb_neq _ _)).
      * unfold when, ret. rewrite <- (hd_n _ _ Hh). by destruct (log_lh (k_log s)).
      * apply place_in in Hin. apply lookup_lt_Some in Hin. lia.
    + rewrite place_notin, Z.eqb_refl by done. unfold when, set_lhn, updlog, modify.
      replace (Z.of_nat (length bl) + 1) with (Z.of_nat (length (bl ++ [n])))
        by (rewrite length_app; cbn; lia).
      by destruct (log_lh (k_log s)).
Qed.
End log_write.

(** ** A transaction in progress *)

(** The blocks [bl] have been logged: they are the dirty ones of the cache,
    and the log on the disk is empty. *)
Record in_tx {D : BlockDev} (d st : Z) (bl : list Z) (l : list nat) (s : kernel) (i : nat) (p : proc) : Prop := {
  tx_alone : alone l s i p;
  tx_header : header bl (k_log s);
  tx_dev : log_dev (k_log s) = d;
  tx_start : log_start (k_log s) = st;
  tx_home : forall z, z ∈ bl -> home d st z;
  tx_nodup : NoDup bl;
  tx_size : log_size (k_log s) <= LOGSIZE;
  tx_max : Z.of_nat (length bl) < LOGSIZE;
  tx_out : 1 <= log_outstanding (k_log s);
  tx_idle : log_committing (k_log s) = 0;
  tx_pinned : forall z, z ∈ bl -> pinned d z s;
  tx_dirty : forall b bf, k_bufs s !! b = Some bf -> dirty bf = true -> b_dev bf = d /\ b_blockno bf ∈ bl;
  tx_empty : head_n (disk_block s d st) = 0
}.

Section tx.
Context {F : Fuel} {D : BlockDev} {HD : SyncDev D} (Hfuel : (0 < fuel)%nat) (d st : Z).
Hypothesis (Hreg : log_region d st).

(** The cache is larger than the log: some buffer is always clean. *)
Lemma tx_spare bl l s i p : in_tx d st bl l s i p -> exists b, spare s b.
Proof.
  intros Htx. pose proof (al_inv _ _ _ _ (tx_alone _ _ _ _ _ _ _ Htx)) as Hinv.
  destruct (list_find (fun bf => dirty bf = false) (k_bufs s)) as [[b bf]|] eqn:E.
  { apply list_find_Some in E as (Hb & Hd & _). by exists b, bf. }
  exfalso. apply list_find_None in E. rewrite Forall_lookup in E.
  assert (Hdirty : forall b bf, k_bufs s !! b = Some bf -> b_dev bf = d /\ b_blockno bf ∈ bl).
  { intros b bf Hb. eapply (tx_dirty _ _ _ _ _ _ _ Htx); [done|]. specialize (E b bf Hb).
    by destruct (dirty bf). }
  assert (Hsub : (b_blockno <$> k_bufs s) ⊆+ bl).
  { apply NoDup_submseteq.
    - apply NoDup_alt. intros b c n. rewrite !list_lookup_fmap.
      destruct (k_bufs s !! b) as [bf|] eqn:Eb; [|done]. destruct (k_bufs s !! c) as [bc|] eqn:Ec; [|done].
      cbn. intros [= E1] [= E2]. destruct (Hdirty b bf Eb) as [D1 _], (Hdirty c bc Ec) as [D2 _].
      eapply (ci_uniq _ _ Hinv b c bf bc d n); try done; [apply caches_spec..|]; try done.
      by apply key_nz with st.
    - intros n Hn. apply list_elem_of_fmap in Hn as (bf & -> & Hin).
      apply list_elem_of_lookup in Hin as [b Hb]. by eapply Hdirty. }
  apply submseteq_length in Hsub. rewrite length_fmap in Hsub.
  rewrite (alone_length _ _ _ _ (tx_alone _ _ _ _ _ _ _ Htx)) in Hsub.
  pose proof (tx_max _ _ _ _ _ _ _ Htx) as Hm. change LOGSIZE with 30 in Hm. unfold NBUF in Hsub. lia.
Qed.

(** What an operation does to a block: read it, change its bytes, log it,
    release it. *)
Definition log_update (n : Z) (f : list Z -> list Z) : K unit :=
  let! b := bread d n in
  do! upddata b f;
  do! log_write b;
  brelse b.

Lemma dirty_pin bf : dirty (pin bf) = true.
Proof.
  rewrite dirty_bit. change (Z.testbit (Z.lor (b_flags bf) B_DIRTY) 2 = true).
  by rewrite Z.lor_spec, orb_true_r.
Qed.

Lemma valid_pin bf : valid (pin bf) = valid bf.
Proof.
  rewrite !valid_bit. change (Z.testbit (Z.lor (b_flags bf) B_DIRTY) 1 = Z.testbit (b_flags bf) 1).
  by rewrite Z.lor_spec, orb_false_r.
Qed.

Section update.
Context (bl : list Z) (l : list nat) (s : kernel) (i : nat) (p : proc) (n : Z) (f : list Z -> list Z).
Hypothesis (Htx : in_tx d st bl l s i p) (Hhome : home d st n).
Hypothesis (Hroom : Z.of_nat (length bl) < log_size (k_log s) - 1).
Hypothesis (Hlen : length (f (content s d n)) = block_size).

(** The buffer of the block while it is changed. *)
Definition changed (bf : buf) : buf := pin (bf <| b_data := f (b_data bf) |>).

(** The state when the buffer [b], fetched as [bf], has been logged. *)
Definition updated (b : nat) (bf : buf) : kernel :=
  (put_buf b (changed bf) s) <| k_log := record_block n bl (k_log s) |>.

Lemma update_steps b bf :
  k_bufs (put_buf b bf s) !! b = Some bf -> b_blockno bf = n -> calm (put_buf b bf s) i p ->
  (do! upddata b f; do! log_write b; brelse b) (put_buf b bf s) = brelse b (updated b bf).
Proof.
  intros Hb Hbn Hc. unfold upddata. rewrite (bind_ret _ _ _ _ _ (updbuf_ret _ _ _ _ Hb)).
  set (bf1 := bf <| b_data := f (b_data bf) |>).
  assert (E1 : on_buf b (fun bf => bf <| b_data := f (b_data bf) |>) (put_buf b bf s) = put_buf b bf1 s).
  { rewrite (on_buf_put _ _ _ _ Hb). apply put_buf_put. }
  rewrite E1. assert (Hb1 : k_bufs (put_buf b bf1 s) !! b = Some bf1).
  { apply list_lookup_insert_eq. apply lookup_lt_Some in Hb. cbn in Hb. by rewrite length_insert in Hb. }
  destruct Hhome as (Hr & _).
  rewrite (bind_ret _ _ _ tt (logged_state b n bl (put_buf b bf1 s))).
  - unfold logged_state. rewrite (on_buf_put _ _ _ _ Hb1), put_buf_put. done.
  - pose proof (log_write_ret (put_buf b bf1 s) i p b bf1 bl) as H. cbn [b_blockno] in H.
    change (b_blockno bf1) with (b_blockno bf) in H. rewrite Hbn in H. apply H; try done.
    + eapply calm_bufs; [exact Hc|done].
    + apply Htx.
    + apply Htx.
    + apply Htx.
Qed.

(** The transaction goes on when the buffer has been released. *)
Lemma update_tx b bf0 bf s4 :
  fetched s p d n (put_buf b bf s) b bf0 bf -> owns (updated b bf) (p_pid p) d n b (changed bf) ->
  relinked (released b (changed bf) (updated b bf)) s4 ->
  cache_inv (touch b (changed bf) l) s4 -> calm s4 i p ->
  in_tx d st (absorb n bl) (touch b (changed bf) l) s4 i p.
Proof.
  intros [Hb0 Hown Hdat Href Hkept Hdir Hsame] Ho3 R4 Hi4 Hc4. set (s3 := updated b bf) in *.
  pose proof Htx as [Hal Hh Hd Hs Hhm Hnd Hsz Hmax Hout Hidle Hpin Hdirty Hemp].
  assert (Hrest : forall c, c <> b -> k_bufs s3 !! c = k_bufs s !! c)
    by (intros c Hc; unfold s3, updated; by apply (put_buf_ne b c)).
  assert (Hlen3 : length (k_bufs s3) = NBUF).
  { cbn. rewrite length_insert. by eapply alone_length. }
  destruct (released_lookup s3 s4 b _ (ow_buf _ _ _ _ _ _ Ho3) R4) as (e & He & Ee).
  pose proof (core_eq _ _ Ee) as (Gf & Gd & Gn & _ & Gr & _).
  assert (De : dirty e = true) by (unfold dirty; rewrite Gf; apply (dirty_pin (bf <| b_data := f (b_data bf) |>))).
  pose proof (ow_caches _ _ _ _ _ _ Hown) as [K1 K2]%caches_spec.
  assert (Ke : b_dev e = d /\ b_blockno e = n) by by rewrite Gd, Gn.
  assert (Elog : k_log s4 = record_block n bl (k_log s)) by (by destruct R4 as [-> _]).
  destruct Hhome as (Hnr & Hokn & Hnh). split; rewrite ?Elog; try done.
  - split; [done|done|]. intros c bc Hc. destruct (decide (c = b)) as [->|Hcb].
    { assert (bc = e) as -> by congruence. rewrite Gr. by apply put_back_zero. }
    destruct (one_rest s b s3 s4 _ Hrest Hlen3 R4 c bc Hcb Hc) as (bc0 & Hb & E).
    apply core_eq in E as (_ & _ & _ & _ & -> & _). by eapply Hal.
  - by apply header_record.
  - intros z [->|Hz]%elem_of_absorb; [done|auto].
  - by apply NoDup_absorb.
  - pose proof (length_absorb n bl). lia.
  - intros z Hz. destruct (decide (z = n)) as [->|Hzn].
    { exists b, e. split_and!; [done|done|]. by apply caches_spec. }
    apply elem_of_absorb in Hz as [->|Hz]; [done|]. destruct (Hpin z Hz) as (c & bc & Hc & Dc & Kc).
    assert (Hcb : c <> b).
    { intros ->. assert (bc = bf0) as -> by congruence. specialize (Hsame Dc).
      apply caches_spec in Hsame as [_ E1]. apply caches_spec in Kc as [_ E2]. congruence. }
    rewrite <- Hrest in Hc by done.
    destruct (kept_buf_released s3 s4 b _ c Hcb R4 bc Hc) as (bc' & Hc' & E).
    pose proof (core_eq _ _ E) as (E1 & E2 & E3 & _). exists c, bc'. unfold dirty, caches in *.
    by rewrite E1, E2, E3.
  - intros c bc Hc Dc. destruct (decide (c = b)) as [->|Hcb].
    { assert (bc = e) as -> by congruence. destruct Ke as [-> ->]. split; [done|].
      apply elem_of_absorb. by left. }
    destruct (one_rest s b s3 s4 _ Hrest Hlen3 R4 c bc Hcb Hc) as (bc0 & Hb & E).
    pose proof (core_eq _ _ E) as (E1 & E2 & E3 & _). unfold dirty in Dc. rewrite E1 in Dc.
    rewrite E2, E3. destruct (Hdirty c bc0 Hb Dc) as [D1 D2]. split; [done|]. apply elem_of_absorb. by right.
  - rewrite <- Hemp. f_equal. unfold disk_block. by destruct R4 as [-> _].
Qed.

Lemma update_ret :
  exists l' s', log_update n f s = Ret tt s' /\ in_tx d st (absorb n bl) l' s' i p /\
    (forall d' n', (d', n') <> (0, 0) ->
       content s' d' n' = upd (d, n, f (content s d n)) (content s) d' n') /\
    k_disk s' = k_disk s /\ k_writes s' = k_writes s /\
    log_outstanding (k_log s') = log_outstanding (k_log s) /\ log_size (k_log s') = log_size (k_log s) /\ log_frame s s'.
Proof.
  pose proof Htx as [Hal Hh Hd Hs Hhm Hnd Hsz Hmax Hout Hidle Hpin Hdirty Hemp].
  pose proof Hhome as (Hnr & Hokn & _). assert (Hdn : (d, n) <> (0, 0)) by by apply key_nz with st.
  destruct (first_bread Hfuel l s i p d n Hal Hdn Hokn (tx_spare _ _ _ _ _ Htx))
    as (b & bf0 & bf & Hr & [Hb0 Hown Hdat Href Hkept Hdir Hsame] & Hinv1 & Hco1).
  pose proof (ow_caches _ _ _ _ _ _ Hown) as [K1 K2]%caches_spec.
  assert (Hc1 : calm (put_buf b bf s) i p) by (eapply calm_bufs; [apply Hal|done]).
  assert (Hlen' : length (f (b_data bf)) = block_size) by by rewrite Hdat.
  set (s3 := updated b bf). set (flags := Z.lor (b_flags bf) B_DIRTY).
  assert (E3 : k_bufs s3 = k_bufs (put_buf b (bf <| b_data := f (b_data bf) |> <| b_flags := flags |>) (put_buf b bf s)))
    by (by rewrite put_buf_put).
  assert (Hi3 : cache_inv l s3).
  { eapply cache_inv_ext; [exact E3|done|done|]. by eapply change_inv; [..|right]. }
  assert (Hco3 : forall d' n', (d', n') <> (0, 0) ->
    content s3 d' n' = upd (d, n, f (content s d n)) (content s) d' n').
  { intros d' n' Hdn'. rewrite (content_ext _ _ _ _ E3) by done.
    rewrite (change_content l _ (p_pid p) d n b bf _ Hinv1 Hown Hlen') by (auto; right; done).
    unfold upd. rewrite <- Hdat. case_decide; [by rewrite decide_True|rewrite decide_False by done; auto]. }
  assert (Ho3 : owns s3 (p_pid p) d n b (changed bf)).
  { destruct Hown as [Hb Hk Hv Hl Hp Hrf]. split; try done.
    - apply list_lookup_insert_eq. by eapply lookup_lt_Some.
    - unfold changed. by rewrite valid_pin. }
  assert (Hc3 : calm s3 i p) by (apply (calm_same _ _ _ _ p Hc1); [done|apply Hc1..]).
  destruct (brelse_ret l s3 i p (p_pid p) d n b _ Hc3 Hi3 Ho3) as (s4 & H4 & R4 & Hi4 & Hc4 & Hco4).
  { left. apply dirty_pin. }
  exists (touch b (changed bf) l), s4. split.
  { unfold log_update. rewrite (bind_ret _ _ _ _ _ Hr). by rewrite update_steps by (done || apply Hown). }
  assert (Elog : k_log s4 = record_block n bl (k_log s)) by (by destruct R4 as [-> _]).
  split; [|split_and!; [intros; by rewrite Hco4, Hco3|by destruct R4 as [-> _]..|by rewrite Elog|by rewrite Elog|]].
  - by eapply update_tx.
  - destruct R4 as [-> _]. reflexivity.
Qed.
End update.
End tx.

(** ** begin_op and end_op *)

Definition set_ops (k c : Z) (lg : logstate) : logstate :=
  lg <| log_outstanding := k |> <| log_committing := c |>.

Lemma set_ops_idle k lg : log_committing lg = 0 -> set_ops k 0 lg = lg <| log_outstanding := k |>.
Proof. unfold set_ops. intros <-. by destruct lg. Qed.

Section ops.
Context {F : Fuel} {D : BlockDev} (s : kernel) (i : nat) (p : proc).
Hypothesis (Hcalm : calm s i p) (Hfuel : (0 < fuel)%nat).

(** There is room in the log for one more operation. *)
Definition admits (lg : logstate) : Prop :=
  log_committing lg = 0 /\ lh_n (log_lh lg) + (log_outstanding lg + 1) * MAXOPBLOCKS <= LOGSIZE.
#[global] Instance admits_dec lg : Decision (admits lg).
Proof. unfold admits. solve_decision. Defined.

Lemma begin_op_ret :
  admits (k_log s) ->
  begin_op s = Ret tt (s <| k_log := set_ops (log_outstanding (k_log s) + 1) 0 (k_log s) |>).
Proof.
  intros [H1 H2]. assert (Hl : lock_free L_log s) by by apply Hcalm. unfold begin_op.
  rewrite (bind_ret _ _ _ _ _ (acquire_calm _ _ _ _ Hcalm Hl)).
  destruct fuel as [|n]; [lia|]. cbn [forever].
  rewrite (bind_ret _ _ _ (Some tt) (s <| k_log := set_ops (log_outstanding (k_log s) + 1) 0 (k_log s) |>)); [done|].
  kget. change (k_log (acq L_log s)) with (k_log s). rewrite H1. cbn [Z.eqb negb].
  rewrite (proj2 (Z.ltb_ge _ _)) by lia. unfold updlog. kget.
  erewrite bind_ret by (by apply (release_calm L_log s _ i p Hcalm Hl)).
  by rewrite set_ops_idle.
Qed.

(** Otherwise the process waits for an operation to end. *)
Lemma begin_op_blocks :
  ~ admits (k_log s) -> (k_strategy s = 2 -> cons_ready s) ->
  exists s1 k, begin_op s = Swtch s1 k /\ k_log s1 = k_log s /\
    k_procs s1 = <[i := asleep CLog p]> (k_procs s) /\ lock_free L_log s1.
Proof.
  intros Hno Hcons. assert (Hl : lock_free L_log s) by by apply Hcalm.
  pose proof Hcalm as [(c & Hc & Hn & _ & Hi) Hp Hr Hf]. pose proof (calm_wf _ _ _ Hcalm) as Hwf.
  assert (Hms : may_sleep L_log (acq L_log s) (cpu_push c) i p).
  { split_and!.
    - split; [cbn; by rewrite list_lookup_alter_eq, Hc|cbn; lia|done|done|done|lia|].
      intros E. apply (cons_ready_acq L_log s); auto.
    - by destruct (acq_in_cs L_log s Hwf) as [Hh _].
    - intros _. destruct (Hf L_ptable I) as [nm Hnm]. exists nm. cbn. by rewrite lookup_insert_ne. }
  destruct (sleep_swtch CLog _ _ _ _ _ Hms) as (co & _ & _ & Hs).
  destruct (handover_ok _ _ _ _ _ Hms) as (_ & _ & _ & Hfree).
  assert (exists n, fuel = S n) as [n Ef] by (exists (fuel - 1)%nat; lia).
  assert (Hh : handover L_log (acq L_log s) = rel L_log (acq L_ptable (acq L_log s))).
  { unfold handover. by rewrite decide_False. }
  do 2 eexists. split.
  - unfold begin_op. rewrite (bind_ret _ _ _ _ _ (acquire_calm _ _ _ _ Hcalm Hl)). rewrite Ef. cbn [forever].
    erewrite bind_swtch; [reflexivity|]. kget. change (k_log (acq L_log s)) with (k_log s).
    destruct (Z.eqb_spec (log_committing (k_log s)) 0) as [E|E]; cbn [negb].
    + rewrite (proj2 (Z.ltb_lt _ _)) by (unfold admits in Hno; lia). erewrite bind_swtch by exact Hs. reflexivity.
    + erewrite bind_swtch by exact Hs. reflexivity.
  - split_and!; [by rewrite Hh| |by apply Hfree].
    rewrite Hh. cbn. by rewrite (list_alter_insert _ _ _ _ Hp).
Qed.

(** An operation ends while others go on. *)
Lemma end_op_others :
  log_committing (k_log s) = 0 -> log_outstanding (k_log s) <> 1 ->
  end_op s = Ret tt (s <| k_log := set_ops (log_outstanding (k_log s) - 1) 0 (k_log s) |>
    <| k_procs := wake (k_ticks s) CLog <$> k_procs s |>).
Proof.
  intros Hc Ho. assert (Hl : lock_free L_log s) by by apply Hcalm. unfold end_op.
  rewrite (bind_ret _ _ _ _ _ (acquire_calm _ _ _ _ Hcalm Hl)). unfold updlog. kget. kget.
  change (log_committing _) with (log_committing (k_log s)). rewrite Hc. cbn [Z.eqb negb].
  change (log_outstanding _ =? 0) with (log_outstanding (k_log s) - 1 =? 0).
  rewrite (proj2 (Z.eqb_neq _ 0)) by lia.
  erewrite bind_ret by (by apply (wakeup_nested L_log CLog s _ i p Hcalm)).
  erewrite bind_ret by (by apply (release_calm L_log s _ i p Hcalm Hl)).
  by rewrite set_ops_idle.
Qed.
End ops.

(** ** Committing *)

Section commit.
Context {F : Fuel} {D : BlockDev} {HD : SyncDev D} (Hfuel : (0 < fuel)%nat) (d st : Z).
Hypothesis (Hreg : log_region d st).

Lemma tx_logged bl l s i p : in_tx d st bl l s i p -> logged d st bl s.
Proof.
  intros [_ Hh Hd Hs Hhm Hnd _ Hmax _ _ _ _ _]. split; try done; [apply Hh|].
  intros j z. by apply header_lookup.
Qed.

(** Recovery after a crash that lost all writes but [ws1] finds the home
    blocks as they were or as they are in [s]. *)
Definition crash_atomic (s : kernel) (ws : list dwrite) : Prop :=
  forall ws1 ws2, ws = ws1 ++ ws2 ->
  forall lb sb ib pb, booted d st (upd_all ws1 (disk_block s)) lb sb ib pb ->
  exists sr, recover_from_log sb = Ret tt sr /\
    ((forall z, home d st z -> disk_block sr d z = disk_block s d z) \/
     (forall z, home d st z -> disk_block sr d z = content s d z)).

(** The state after the last operation has ended. *)
Record committed (s s' : kernel) (i : nat) (p : proc) : Prop := {
  cm_alone : exists l', alone l' s' i p;
  cm_clean : all_clean s';
  cm_header : header [] (k_log s');
  cm_ops : log_outstanding (k_log s') = 0 /\ log_committing (k_log s') = 0;
  cm_log : log_dev (k_log s') = d /\ log_start (k_log s') = st /\ log_size (k_log s') = log_size (k_log s);
  cm_disk : forall z, home d st z -> disk_block s' d z = content s d z;
  cm_empty : head_n (disk_block s' d st) = 0;
  cs_crash : exists ws, k_writes s' = k_writes s ++ ws /\ crash_atomic s ws
}.

(** What [end_op] does to the lock's variables around [commit]. *)
Lemma end_op_last s s2 i p :
  calm s i p -> log_committing (k_log s) = 0 -> log_outstanding (k_log s) = 1 ->
  commit (s <| k_log := set_ops 0 1 (k_log s) |>) = Ret tt s2 -> calm s2 i p ->
  end_op s = Ret tt (s2 <| k_log := (k_log s2) <| log_committing := 0 |> |>
    <| k_procs := wake (k_ticks s2) CLog <$> k_procs s2 |>).
Proof.
  intros Hc Hi Ho Hcm Hc2. assert (Hl : lock_free L_log s) by by apply Hc.
  assert (Hl2 : lock_free L_log s2) by by apply Hc2. unfold end_op.
  rewrite (bind_ret _ _ _ _ _ (acquire_calm _ _ _ _ Hc Hl)). unfold updlog. kget. kget.
  change (log_committing _) with (log_committing (k_log s)). rewrite Hi. cbn [Z.eqb negb].
  change (log_outstanding _ =? 0) with (log_outstanding (k_log s) - 1 =? 0). rewrite Ho. cbn [Z.eqb Z.sub].
  change (1 - 1 =? 0) with true. cbn match. kget.
  erewrite bind_ret by (by apply (release_calm L_log s _ i p Hc Hl)). cbn [when].
  set (s1 := leave_cs s _). assert (E : s1 = s <| k_log := set_ops 0 1 (k_log s) |>).
  { unfold s1. change (log_outstanding (k_log (acq L_log s))) with (log_outstanding (k_log s)). by rewrite Ho. }
  rewrite E, (bind_ret _ _ _ _ _ Hcm).
  rewrite (bind_ret _ _ _ _ _ (acquire_calm _ _ _ _ Hc2 Hl2)). kget.
  erewrite bind_ret by (by apply (wakeup_nested L_log CLog s2 _ i p Hc2)).
  by rewrite (release_calm L_log s2 _ i p Hc2 Hl2).
Qed.

(** [alone] does not depend on the log, nor on processes that wait. *)
Lemma alone_woken l s i p ch :
  alone l s i p -> alone l (s <| k_procs := wake (k_ticks s) ch <$> k_procs s |>) i p.
Proof.
  intros [Hc Hi Hid]. split; [|by apply (cache_inv_ext l s)|done].
  apply (calm_same s _ i p p Hc); [done| |apply Hc]. cbn. apply wake_lookup; apply Hc.
Qed.

(** The blocks on the disk when the commit is over. *)
Lemma commit_disk bl l s s2 i p :
  in_tx d st bl l s i p -> wrote_all (commit_writes d st bl (content s)) i p s s2 ->
  all_clean s2 /\ head_n (disk_block s2 d st) = 0 /\
  forall z, home d st z -> disk_block s2 d z = content s d z.
Proof.
  intros Htx W. pose proof Htx as [Hal Hh Hd Hs Hhm Hnd Hsz Hmax Hout Hidle Hpin Hdirty Hemp].
  pose proof (al_inv _ _ _ _ Hal) as Hinv.
  assert (Hkey : forall n, (d, n) <> (0, 0)) by (intros n; by apply key_nz with st).
  assert (Hlen : length (content s d st) = block_size).
  { destruct (content_cases s d st (ci_uniq _ _ Hinv) (Hkey st)) as [(b & bf & Hb & _ & ->)|[_ ->]];
      [by apply (ci_bufs _ _ Hinv b bf)|apply Hinv]. }
  destruct (commit_final Hfuel d st Hreg bl (content s) (disk_block s)) as [H1 H2]; [lia|done..|].
  split_and!.
  - intros b bf Hb. destruct (dirty bf) eqn:Ed; [|done]. exfalso.
    destruct (wa_unpins _ _ _ _ _ W) as [_ Hu].
    destruct (Hu b bf Hb Ed) as (bf0 & Hb0 & D0 & _ & _ & Hw). apply Hw.
    destruct (Hdirty b bf0 Hb0 D0) as [E1 E2]. exists (d, b_blockno bf0, content s d (b_blockno bf0)).
    rewrite E1. split; [|done]. unfold commit_writes. apply elem_of_app. right. apply elem_of_app. right.
    apply elem_of_app. left. unfold homes. apply list_elem_of_fmap. eauto.
  - by rewrite (wa_disk _ _ _ _ _ W).
  - intros z Hz. rewrite (wa_disk _ _ _ _ _ W), H2 by done. case_decide as Hin; [done|].
    symmetry. eapply content_disk; [done|done|]. intros b bf Hb Hk. destruct (dirty bf) eqn:Ed; [|done].
    destruct (Hdirty b bf Hb Ed) as [_ Hi]. by apply caches_spec in Hk as [_ <-].
Qed.

Lemma end_op_commit bl l s i p :
  in_tx d st bl l s i p -> log_outstanding (k_log s) = 1 ->
  exists s', end_op s = Ret tt s' /\ committed s s' i p.
Proof.
  intros Htx Ho. pose proof Htx as [Hal Hh Hd Hs Hhm Hnd Hsz Hmax Hout Hidle Hpin Hdirty Hemp].
  set (s1 := s <| k_log := set_ops 0 1 (k_log s) |>).
  assert (Hal1 : alone l s1 i p) by by apply alone_log.
  assert (Hlg1 : logged d st bl s1) by (destruct (tx_logged _ _ _ _ _ Htx); by split).
  assert (Hdone : forall s2, commit s1 = Ret tt s2 -> (exists l2, alone l2 s2 i p) ->
    all_clean s2 -> head_n (disk_block s2 d st) = 0 -> k_log s2 = emptied (k_log s1) ->
    (forall z, home d st z -> disk_block s2 d z = content s d z) ->
    (exists ws, k_writes s2 = k_writes s ++ ws /\ crash_atomic s ws) ->
    exists s', end_op s = Ret tt s' /\ committed s s' i p).
  { intros s2 Hcm [l2 Hal2] Hcl Hhd Elog Hdisk Hcr. eexists.
    split; [eapply end_op_last; [apply Hal|done|done|exact Hcm|apply Hal2]|].
    split; cbn; rewrite ?Elog; try done.
    - exists l2. pose proof (alone_log l2 s2 i p ((k_log s2) <| log_committing := 0 |>) Hal2) as H.
      apply (alone_woken _ _ _ _ CLog) in H. rewrite Elog in H. exact H.
    - split; [done|done|apply Hh|constructor]. }
  destruct (decide (bl = [])) as [->|Hne].
  - apply (Hdone s1); try done.
    + unfold commit. kget. change (k_log s1) with (set_ops 0 1 (k_log s)). cbn [log_lh set_ops].
      change (lh_n _) with (lh_n (log_lh (k_log s))). by rewrite (hd_n _ _ Hh).
    + by exists l.
    + intros b bf Hb. destruct (dirty bf) eqn:Ed; [|done]. destruct (Hdirty b bf Hb Ed) as [_ Hi].
      by apply not_elem_of_nil in Hi.
    + pose proof (hd_n _ _ Hh) as E. unfold s1, emptied. cbn. by destruct (k_log s) as [? ? ? ? ? []]; cbn in *; subst.
    + intros z Hz. change (disk_block s1 d z) with (disk_block s d z).
      symmetry. eapply content_disk; [exact Hal|by apply key_nz with st|]. intros b bf Hb _.
      destruct (dirty bf) eqn:Ed; [|done]. destruct (Hdirty b bf Hb Ed) as [_ Hi].
      by apply not_elem_of_nil in Hi.
    + exists []. split; [symmetry; apply app_nil_r|]. intros ws1 ws2 E lb sb ib pb Hboot.
      symmetry in E. apply app_nil in E as [-> ->].
      destruct (recover_booted Hfuel d st Hreg _ _ _ _ _ Hboot) as (sr & Hr & _ & _ & Hdk).
      { by apply head_ok_empty. }
      exists sr. split; [done|left]. intros z Hz. rewrite Hdk. unfold recover_writes.
      rewrite head_blocks_empty by done. cbn [installs imap app]. rewrite upd_all_one.
      apply upd_ne. cbn. intros [= E]. by apply home_start in Hz.
  - destruct (tx_spare Hfuel d st Hreg _ _ _ _ _ Htx) as [bs Hsp].
    assert (Hco : committable d st bl l s1 i p) by (split; try done; by exists bs).
    destruct (commit_ret Hfuel d st Hreg bl l s1 i p Hal1 Hlg1 Hne Hpin (ex_intro _ bs Hsp))
      as (s2 & H2 & W & _ & Elog).
    destruct (commit_crash Hfuel d st Hreg bl l s1 i p Hco) as (s2' & H2' & Hcr).
    assert (s2' = s2) as -> by congruence.
    destruct (commit_disk bl l s s2 i p Htx) as (Hcl & Hhd & Hdisk).
    { destruct W as [W1 W2 W3 W4 W5 W6]. by split. }
    apply (Hdone s2); try done; [apply W|]. eexists. split; [apply W|]. intros ws1 ws2 E.
    apply (Hcr ws1 ws2). by rewrite (wa_writes _ _ _ _ _ W), E.
Qed.

(** ** Transactions *)

(** Between transactions: nothing is dirty, the log is empty. *)
Record quiet (l : list nat) (s : kernel) (i : nat) (p : proc) : Prop := {
  qt_alone : alone l s i p;
  qt_clean : all_clean s;
  qt_header : header [] (k_log s);
  qt_ops : log_outstanding (k_log s) = 0 /\ log_committing (k_log s) = 0;
  qt_dev : log_dev (k_log s) = d;
  qt_start : log_start (k_log s) = st;
  qt_size : log_size (k_log s) <= LOGSIZE;
  qt_empty : head_n (disk_block s d st) = 0
}.

Lemma committed_quiet s s' i p :
  committed s s' i p -> log_size (k_log s) <= LOGSIZE -> exists l', quiet l' s' i p.
Proof.
  intros [[l' Hal] Hcl Hh Hops (Hd & Hs & Hsz) _ Hemp _] Hle. exists l'. split; try done. by rewrite Hsz.
Qed.

Definition update : Type := (Z * (list Z -> list Z))%type.

Definition transaction (ups : list update) : K unit :=
  do! begin_op;
  do! for_each ups (fun u => log_update d (fst u) (snd u));
  end_op.

(** What the updates make of the blocks. *)
Definition apply_ups (ups : list update) (f : blocks) : blocks :=
  foldl (fun f u => upd (d, fst u, snd u (f d (fst u))) f) f ups.

(** An update of a home block that keeps its size. *)
Definition update_ok (u : update) : Prop :=
  home d st (fst u) /\ forall data, length data = block_size -> length (snd u data) = block_size.

Lemma apply_ups_ext ups f g n :
  (forall n, f d n = g d n) -> apply_ups ups f d n = apply_ups ups g d n.
Proof.
  unfold apply_ups. revert f g. induction ups as [|u ups IH]; intros f g H; [apply H|].
  cbn [foldl]. apply IH. intros m. unfold upd. cbn. rewrite H. case_decide; auto.
Qed.

Lemma content_length l s i p n :
  alone l s i p -> length (content s d n) = block_size.
Proof.
  intros Hal. pose proof (al_inv _ _ _ _ Hal) as Hinv.
  destruct (content_cases s d n (ci_uniq _ _ Hinv)) as [(b & bf & Hb & _ & ->)|[_ ->]];
    [by apply key_nz with st|by apply (ci_bufs _ _ Hinv b bf)|apply Hinv].
Qed.

Lemma updates_ret ups bl l s i p :
  in_tx d st bl l s i p -> Forall update_ok ups ->
  Z.of_nat (length bl) + Z.of_nat (length ups) <= log_size (k_log s) - 1 ->
  exists bl' l' s', for_each ups (fun u => log_update d (fst u) (snd u)) s = Ret tt s' /\
    in_tx d st bl' l' s' i p /\
    (forall n, content s' d n = apply_ups ups (content s) d n) /\
    k_disk s' = k_disk s /\ k_writes s' = k_writes s /\
    log_outstanding (k_log s') = log_outstanding (k_log s) /\ log_size (k_log s') = log_size (k_log s).
Proof.
  revert bl l s. induction ups as [|u ups IH]; intros bl l s Htx Hok Hn.
  - exists bl, l, s. done.
  - apply Forall_cons in Hok as [[Hh Hu] Hok]. cbn [length] in Hn.
    destruct (update_ret Hfuel d st Hreg bl l s i p (fst u) (snd u) Htx Hh) as
      (l1 & s1 & H1 & Htx1 & Hco & Hd & Hw & Ho & Hs & _).
    { lia. } { apply Hu. eapply content_length. apply Htx. }
    pose proof (length_absorb (fst u) bl) as Hle.
    destruct (IH (absorb (fst u) bl) l1 s1 Htx1 Hok) as (bl' & l' & s' & H2 & Htx2 & Hco2 & Hd2 & Hw2 & Ho2 & Hs2).
    { lia. }
    exists bl', l', s'. split; [cbn [for_each]; by rewrite (bind_ret _ _ _ _ _ H1)|].
    split_and!; [done| |congruence..]. intros n. rewrite Hco2. cbn [apply_ups foldl].
    apply apply_ups_ext. intros m. apply Hco. by apply key_nz with st.
Qed.

(** The state in which the first operation runs. *)
Definition opened (s : kernel) : kernel := s <| k_log := set_ops (log_outstanding (k_log s) + 1) 0 (k_log s) |>.

Lemma opened_tx l s i p : quiet l s i p -> begin_op s = Ret tt (opened s) /\ in_tx d st [] l (opened s) i p.
Proof.
  intros [Hal Hcl Hh [Ho Hc] Hd Hs Hsz Hemp].
  assert (Hadm : admits (k_log s)).
  { split; [done|]. rewrite (hd_n _ _ Hh), Ho. cbn. done. }
  split; [exact (begin_op_ret s i p (al_calm _ _ _ _ Hal) Hfuel Hadm)|]. split; try done.
  - by apply alone_log.
  - destruct Hh as [A B C E]. by split.
  - intros z Hz. by apply not_elem_of_nil in Hz.
  - constructor.
  - cbn. rewrite Ho. lia.
  - intros z Hz. by apply not_elem_of_nil in Hz.
  - intros b bf Hb Hdb. by rewrite (Hcl b bf Hb) in Hdb.
Qed.

(** When nothing is logged, the cache holds what the disk holds. *)
Lemma quiet_content l s i p n : quiet l s i p -> content s d n = disk_block s d n.
Proof.
  intros [Hal Hcl _ _ _ _ _ _]. eapply content_disk; [apply Hal|by apply key_nz with st|]. intros b bf Hb _. by eapply Hcl.
Qed.

(** The end of an operation that has started in [s] and has not written to the
    disk: what it has logged reaches the disk, and a crash on the way leaves
    the disk as it was or with all of it. *)
Record commits (s s2 s' : kernel) (i : nat) (p : proc) : Prop := {
  co_quiet : exists l', quiet l' s' i p;
  co_disk : forall z, home d st z -> disk_block s' d z = content s2 d z;
  co_crash : exists ws, k_writes s' = k_writes s ++ ws /\
    forall ws1 ws2, ws = ws1 ++ ws2 -> forall lb sb ib pb, booted d st (upd_all ws1 (disk_block s)) lb sb ib pb ->
    exists sr, recover_from_log sb = Ret tt sr /\
      ((forall z, home d st z -> disk_block sr d z = disk_block s d z) \/
       (forall z, home d st z -> disk_block sr d z = content s2 d z))
}.

Lemma closed_ret l s bl l2 s2 i p : quiet l s i p -> in_tx d st bl l2 s2 i p -> (forall n, disk_block s2 d n = disk_block s d n) -> k_writes s2 = k_writes s ->
  log_outstanding (k_log s2) = 1 -> log_size (k_log s2) = log_size (k_log s) ->
  exists s', end_op s2 = Ret tt s' /\ commits s s2 s' i p.
Proof.
  intros [Hal Hcl Hh [Ho Hc] Hd Hs Hsz Hemp] Htx2 Hold Hw2 Ho2 Hs2.
  destruct (end_op_commit bl l2 s2 i p Htx2 Ho2) as (s3 & H3 & Hcm).
  pose proof Hcm as [_ _ _ _ _ Hdk _ (ws & Hws & Hcr)].
  destruct (committed_quiet _ _ _ _ Hcm) as [l3 Hq]; [by rewrite Hs2|].
  exists s3. split; [done|]. split; [by exists l3|done|]. exists ws. split; [by rewrite Hws, Hw2|].
  intros ws1 ws2 E lb sb ib pb [B1 B2 B3 B4 B5 B6].
  destruct (Hcr ws1 ws2 E lb sb ib pb) as (sr & Hr & Hcase).
  { split; try done. intros n. rewrite B6. apply upd_all_ext. by rewrite Hold. }
  exists sr. split; [done|]. destruct Hcase as [Ha|Ha]; [left|right]; intros z Hz; rewrite Ha by done; auto.
Qed.

(** All the updates of a transaction reach the disk, and a crash on the way
    leaves all of them or none. *)
Lemma transaction_ret ups l s i p :
  quiet l s i p -> Forall update_ok ups -> Z.of_nat (length ups) <= log_size (k_log s) - 1 ->
  exists l' s' ws, transaction ups s = Ret tt s' /\ quiet l' s' i p /\
    (forall z, home d st z -> disk_block s' d z = apply_ups ups (disk_block s) d z) /\
    k_writes s' = k_writes s ++ ws /\
    forall ws1 ws2, ws = ws1 ++ ws2 -> forall lb sb ib pb, booted d st (upd_all ws1 (disk_block s)) lb sb ib pb ->
    exists sr, recover_from_log sb = Ret tt sr /\
      ((forall z, home d st z -> disk_block sr d z = disk_block s d z) \/
       (forall z, home d st z -> disk_block sr d z = apply_ups ups (disk_block s) d z)).
Proof.
  intros Hq Hok Hn. destruct (opened_tx l s i p Hq) as [H1 Htx].
  destruct (updates_ret ups [] l (opened s) i p Htx Hok) as (bl & l2 & s2 & H2 & Htx2 & Hco2 & Hd2 & Hw2 & Ho2 & Hs2); [exact Hn|].
  destruct (closed_ret l s bl l2 s2 i p Hq Htx2) as (s3 & H3 & [[l3 Hq3] Hdk (ws & Hws & Hcr)]); [intros n; unfold disk_block; by rewrite Hd2|done| |done|].
  { rewrite Ho2. cbn. by rewrite (proj1 (qt_ops _ _ _ _ Hq)). }
  assert (Hnew : forall z, content s2 d z = apply_ups ups (disk_block s) d z).
  { intros z. rewrite Hco2. apply apply_ups_ext. intros m. by rewrite <- (quiet_content l s i p). }
  exists l3, s3, ws. split_and!; [|done|intros; by rewrite Hdk, Hnew|done|].
  - unfold transaction. rewrite (bind_ret _ _ _ _ _ H1). by rewrite (bind_ret _ _ _ _ _ H2).
  - intros ws1 ws2 E lb sb ib pb B. destruct (Hcr ws1 ws2 E lb sb ib pb B) as (sr & Hr & [Ha|Ha]); exists sr; (split; [done|]); [by left|right].
    intros z Hz. by rewrite Ha, Hnew.
Qed.
End commit.
