(* ===== verification/Console.v ===== *)
(** * console.c: input, and proc.c: procdump

    [consoleintr] edits the input line, [consoleread] and [consolewrite] are
    the functions of the console device; [procdump] is what Control-P prints.
    The bytes that a read delivers go to [put], which gets the offset from the
    start of the caller's buffer; they are also returned, for callers whose
    buffer is a local variable.  [get] delivers the bytes of a write. *)

From S2P Require Import Prelude State Monad Mem Spinlock ConsoleOut Ports Kalloc Vm Sched SleepWake.
From S2P Require Import Sleeplock Bio Log Inode.

(** ** procdump *)

Definition state_name (st : procstate) : string :=
  match st with
  | UNUSED => "unused" | EMBRYO => "embryo" | SLEEPING => "sleep "
  | RUNNABLE => "runble" | RUNNING => "run   " | ZOMBIE => "zombie"
  end.

(** The offset of [ebp] in [struct context]. *)
Definition CTX_EBP : Z := 12.

Definition procdump : K unit :=
  for_each (seq 0 NPROC) (fun k =>
    let! p := getproc k in
    if is_state UNUSED p then ret tt
    else
      do! cprintf_lit "%d %s %s" [AInt (p_pid p); AStr (Some (bytes (state_name (p_state p)))); AStr (Some (until_nul (p_name p)))];
      do! when (is_state SLEEPING p) (
        let! m := gets k_mem in
        let pcs := getcallerpcs m (ld32 m (p_context p + CTX_EBP) + 8) in
        for_each (until_nul pcs) (fun pc => cprintf_lit " %p" [AInt pc]));
      cprintf (Some [NL]) []).

(** ** Input *)

Definition Ctl (c : string) : Z := ch c - ch "@".
Definition DEL : Z := 0x7f.
Definition CR : Z := 13.

Definition input_at (co : console) (i : Z) : Z :=
  default 0 (input_buf co !! Z.to_nat (i mod INPUT_BUF)).

(** Control-U: erase up to the start of the line; at most [INPUT_BUF]
    characters are between [w] and [e]. *)
Fixpoint kill_line (n : nat) : K unit :=
  let! co := gets k_cons in
  if negb (input_e co =? input_w co) && negb (input_at co (input_e co -u 1) =? NL) then
    match n with
    | O => fail FFuel
    | S n' =>
        do! setcons (fun co => co <| input_e := input_e co -u 1 |>);
        do! consputc BACKSPACE;
        kill_line n'
    end
  else ret tt.

(** One character; the result says whether it asks for [procdump]. *)
Definition consoleintr_char (c : Z) : K bool :=
  if c =? Ctl "P" then ret true
  else if c =? Ctl "U" then do! kill_line (Z.to_nat INPUT_BUF); ret false
  else if (c =? Ctl "H") || (c =? DEL) then
    let! co := gets k_cons in
    do! when (negb (input_e co =? input_w co)) (
      do! setcons (fun co => co <| input_e := input_e co -u 1 |>);
      consputc BACKSPACE);
    ret false
  else
    let! co := gets k_cons in
    do! when (negb (c =? 0) && (input_e co -u input_r co <? INPUT_BUF)) (
      let c := if c =? CR then NL else c in
      do! setcons (fun co => co <| input_buf :=
        <[Z.to_nat (input_e co mod INPUT_BUF) := i8 c]> (input_buf co) |>);
      do! setcons (fun co => co <| input_e := input_e co +u 1 |>);
      do! consputc c;
      let! co := gets k_cons in
      when ((c =? NL) || (c =? Ctl "D") || (input_e co =? input_r co +u INPUT_BUF)) (
        do! setcons (fun co => co <| input_w := input_e co |>);
        wakeup CInput));
    ret false.

(** [getc] is called until it returns a negative number; [n] bounds how often. *)
Fixpoint consoleintr_loop (n : nat) (getc : K Z) (doprocdump : bool) : K bool :=
  match n with
  | O => fail FFuel
  | S n' =>
      let! c := getc in
      if c <? 0 then ret doprocdump
      else
        let! d := consoleintr_char c in
        consoleintr_loop n' getc (doprocdump || d)
  end.

(** The index of the console in [devsw]. *)
Definition CONSOLE : Z := 1.

Section console.
Context {F : Fuel} {D : BlockDev} {P : Ports}.

Definition consoleintr (getc : K Z) : K unit :=
  do! acquire L_cons;
  let! doprocdump := consoleintr_loop fuel getc false in
  do! release L_cons;
  when doprocdump procdump.

(** The loop of [consoleread] that waits for a line: false if the process has
    been killed. *)
Definition consoleread_wait : K bool :=
  forever fuel (
    let! co := gets k_cons in
    if input_r co =? input_w co then
      let! cur := curproc in
      let! p := getproc cur in
      if negb (p_killed p =? 0) then ret (Some false)
      else do! sleep CInput (Some L_cons); ret None
    else ret (Some true)).

(** [n] characters are still to be read, [tot] have been. *)
Fixpoint consoleread_loop (n : nat) (put : Z -> list Z -> K unit) (tot : Z) : K (option (list Z)) :=
  match n with
  | O => ret (Some [])
  | S n' =>
      let! alive := consoleread_wait in
      if negb alive then ret None
      else
        let! co := gets k_cons in
        let c := input_at co (input_r co) in
        do! setcons (fun co => co <| input_r := input_r co +u 1 |>);
        if c =? Ctl "D" then
          do! when (0 <? tot) (setcons (fun co => co <| input_r := input_r co -u 1 |>));
          ret (Some [])
        else
          do! put tot [u8 c];
          if c =? NL then ret (Some [u8 c])
          else
            let! r := consoleread_loop n' put (tot + 1) in
            ret (cons (u8 c) <$> r)
  end.

Definition consoleread (ip : nat) (put : Z -> list Z -> K unit) (n : Z) : K (Z * list Z) :=
  do! iunlock (Some ip);
  do! acquire L_cons;
  let! r := consoleread_loop (Z.to_nat n) put 0 in
  do! release L_cons;
  do! ilock (Some ip);
  match r with
  | None => ret (-1, [])
  | Some bs => ret (Z.of_nat (length bs), bs)
  end.

Definition consolewrite (ip : nat) (get : Z -> Z -> K (list Z)) (n : Z) : K Z :=
  do! iunlock (Some ip);
  do! acquire L_cons;
  do! for_each (seq 0 (Z.to_nat n)) (fun i =>
    let! bs := get (Z.of_nat i) 1 in
    for_each bs (fun c => consputc (Z.land c 0xff)));
  do! release L_cons;
  do! ilock (Some ip);
  ret n.

Definition consoleinit : K unit :=
  do! initlock L_cons "console";
  do! modify (fun s => s <| k_devsw := <[CONSOLE := DevConsole]> (k_devsw s) |>);
  do! setcons (fun co => co <| cons_locking := 1 |>);
  do! picenable IRQ_KBD;
  ioapicenable IRQ_KBD 0.
End console.
