(* ===== verification/Input.v ===== *)
(** * kbd.c and uart.c: input devices

    The tables of kbd.h are functions: the entries in sequence from index 0,
    then the designated ones; all others are 0. *)

From S2P Require Import Prelude State Monad Mem Spinlock ConsoleOut Ports Kalloc Vm Sched SleepWake.
From S2P Require Import Sleeplock Bio Log Inode Console.

Definition KBSTATP : Z := 0x64.
Definition KBS_DIB : Z := 0x01.
Definition KBDATAP : Z := 0x60.
Definition SHIFT : Z := 1.
Definition CTL : Z := 2.
Definition ALT : Z := 4.
Definition CAPSLOCK : Z := 8.
Definition NUMLOCK : Z := 16.
Definition SCROLLLOCK : Z := 32.
Definition E0ESC : Z := 64.

(** An array initialised with [seq] and the pairs of [at_index]. *)
Definition keymap (seq : list Z) (at_index : list (Z * Z)) (data : Z) : Z :=
  match list_find (fun e => fst e = data) at_index with
  | Some (_, (_, c)) => c
  | None => nth (Z.to_nat data) seq 0
  end.

Definition shiftcode (data : Z) : Z :=
  keymap [] [(0x1D, CTL); (0x2A, SHIFT); (0x36, SHIFT); (0x38, ALT); (0x9D, CTL); (0xB8, ALT)] data.
Definition togglecode (data : Z) : Z :=
  keymap [] [(0x3A, CAPSLOCK); (0x45, NUMLOCK); (0x46, SCROLLLOCK)] data.

Definition normalmap (data : Z) : Z :=
  keymap [
   0; 27; 49; 50; 51; 52; 53; 54; 55; 56; 57; 48; 45; 61; 8; 9;
   113; 119; 101; 114; 116; 121; 117; 105; 111; 112; 91; 93; 10; 0; 97; 115;
   100; 102; 103; 104; 106; 107; 108; 59; 39; 96; 0; 92; 122; 120; 99; 118;
   98; 110; 109; 44; 46; 47; 0; 42; 0; 32; 0; 0; 0; 0; 0; 0;
   0; 0; 0; 0; 0; 0; 0; 55; 56; 57; 45; 52; 53; 54; 43; 49;
   50; 51; 48; 46; 0; 0; 0; 0]
  [(0x9C, 10); (0xB5, 47); (0xC8, 0xE2); (0xD0, 0xE3); (0xC9, 0xE6); (0xD1, 0xE7); (0xCB, 0xE4); (0xCD, 0xE5); (0x97, 0xE0); (0xCF, 0xE1); (0xD2, 0xE8); (0xD3, 0xE9)] data.

Definition shiftmap (data : Z) : Z :=
  keymap [
   0; 27; 33; 64; 35; 36; 37; 94; 38; 42; 40; 41; 95; 43; 8; 9;
   81; 87; 69; 82; 84; 89; 85; 73; 79; 80; 123; 125; 10; 0; 65; 83;
   68; 70; 71; 72; 74; 75; 76; 58; 34; 126; 0; 124; 90; 88; 67; 86;
   66; 78; 77; 60; 62; 63; 0; 42; 0; 32; 0; 0; 0; 0; 0; 0;
   0; 0; 0; 0; 0; 0; 0; 55; 56; 57; 45; 52; 53; 54; 43; 49;
   50; 51; 48; 46; 0; 0; 0; 0]
  [(0x9C, 10); (0xB5, 47); (0xC8, 0xE2); (0xD0, 0xE3); (0xC9, 0xE6); (0xD1, 0xE7); (0xCB, 0xE4); (0xCD, 0xE5); (0x97, 0xE0); (0xCF, 0xE1); (0xD2, 0xE8); (0xD3, 0xE9)] data.

Definition ctlmap (data : Z) : Z :=
  keymap [
   0; 0; 0; 0; 0; 0; 0; 0; 0; 0; 0; 0; 0; 0; 0; 0;
   17; 23; 5; 18; 20; 25; 21; 9; 15; 16; 0; 0; 13; 0; 1; 19;
   4; 6; 7; 8; 10; 11; 12; 0; 0; 0; 0; 28; 26; 24; 3; 22;
   2; 14; 13; 0; 0; 239; 0; 0]
  [(0x9C, 13); (0xB5, 239); (0xC8, 0xE2); (0xD0, 0xE3); (0xC9, 0xE6); (0xD1, 0xE7); (0xCB, 0xE4); (0xCD, 0xE5); (0x97, 0xE0); (0xCF, 0xE1); (0xD2, 0xE8); (0xD3, 0xE9)] data.

Definition charcode (k data : Z) : Z :=
  if k =? 0 then normalmap data else if k =? 1 then shiftmap data else ctlmap data.

(** What a byte from the keyboard does to [shift], and the character. *)
Definition kbd_byte (shift data : Z) : Z * Z :=
  if data =? 0xE0 then (Z.lor shift E0ESC, 0)
  else if negb (Z.land data 0x80 =? 0) then
    let data := if negb (Z.land shift E0ESC =? 0) then data else Z.land data 0x7F in
    (Z.land shift (Z.lnot (Z.lor (shiftcode data) E0ESC)), 0)
  else
    let '(data, shift) :=
      if negb (Z.land shift E0ESC =? 0)
      then (Z.lor data 0x80, Z.land shift (Z.lnot E0ESC)) else (data, shift) in
    let shift := Z.lor shift (shiftcode data) in
    let shift := Z.lxor shift (togglecode data) in
    let c := charcode (Z.land shift (Z.lor CTL SHIFT)) data in
    let c :=
      if negb (Z.land shift CAPSLOCK =? 0) then
        if (ch "a" <=? c) && (c <=? ch "z") then c + (ch "A" - ch "a")
        else if (ch "A" <=? c) && (c <=? ch "Z") then c + (ch "a" - ch "A")
        else c
      else c in
    (shift, c).

Section devices.
Context {P : Ports} {F : Fuel} {D : BlockDev}.

Definition kbdgetc : K Z :=
  let! st := inb KBSTATP in
  if Z.land st KBS_DIB =? 0 then ret (-1)
  else
    let! data := inb KBDATAP in
    let! shift := gets k_shift in
    let '(shift, c) := kbd_byte shift data in
    do! modify (fun s => s <| k_shift := shift |>);
    ret c.

Definition kbdintr : K unit := consoleintr kbdgetc.

(** ** uart.c *)

Definition COM1 : Z := 0x3f8.

Definition uartinit : K unit :=
  do! outb (COM1 + 2) 0;
  do! outb (COM1 + 3) 0x80;
  do! outb (COM1 + 0) (115200 / 9600);
  do! outb (COM1 + 1) 0;
  do! outb (COM1 + 3) 0x03;
  do! outb (COM1 + 4) 0;
  do! outb (COM1 + 1) 0x01;
  let! status := inb (COM1 + 5) in
  if status =? 0xFF then ret tt
  else
    do! setcons (fun co => co <| uart := 1 |>);
    do! inb (COM1 + 2);
    do! inb (COM1 + 0);
    do! picenable IRQ_COM1;
    do! ioapicenable IRQ_COM1 0;
    for_each (bytes "xv6..." ++ [NL]) uartputc.

Definition uartgetc : K Z :=
  let! co := gets k_cons in
  if uart co =? 0 then ret (-1)
  else
    let! status := inb (COM1 + 5) in
    if Z.land status 0x01 =? 0 then ret (-1) else inb (COM1 + 0).

Definition uartintr : K unit := consoleintr uartgetc.
End devices.
