(* ===== verification/Ide.v ===== *)
(** * ide.c: the disk driver

    Requests wait in a queue linked through [b_qnext]; the disk works on the
    first one, and its interrupt completes it and starts the next. *)

From S2P Require Import Prelude State Monad Mem Spinlock ConsoleOut Ports Kalloc Vm Sched SleepWake.
From S2P Require Import Sleeplock Bio.

Definition SECTOR_SIZE : Z := 512.
Definition IDE_BSY : Z := 0x80.
Definition IDE_DRDY : Z := 0x40.
Definition IDE_DF : Z := 0x20.
Definition IDE_ERR : Z := 0x01.
Definition IDE_CMD_READ : Z := 0x20.
Definition IDE_CMD_WRITE : Z := 0x30.
Definition IDE_CMD_RDMUL : Z := 0xc4.
Definition IDE_CMD_WRMUL : Z := 0xc5.

(** A buffer has what a request asks for. *)
Definition done_flags (fl : Z) : bool := Z.land fl (Z.lor B_VALID B_DIRTY) =? B_VALID.

(** Append [b] to the list that starts at [b0]; [k] bounds its length. *)
Fixpoint queue_append (k : nat) (b0 b : nat) : K unit :=
  match k with
  | O => fail FFuel
  | S k' =>
      let! x := getbuf b0 in
      match b_qnext x with
      | None => updbuf b0 (fun x => x <| b_qnext := Some b |>)
      | Some b1 => queue_append k' b1 b
      end
  end.

Section ide.
Context {P : Ports} {F : Fuel}.

Definition idewait (checkerr : bool) : K Z :=
  let! r := forever fuel (
    let! r := inb 0x1f7 in
    ret (if Z.land r (Z.lor IDE_BSY IDE_DRDY) =? IDE_DRDY then Some r else None)) in
  if checkerr && negb (Z.land r (Z.lor IDE_DF IDE_ERR) =? 0) then ret (-1) else ret 0.

(** The loop that looks for disk 1. *)
Fixpoint probe (k : nat) : K unit :=
  match k with
  | O => ret tt
  | S k' =>
      let! r := inb 0x1f7 in
      if negb (r =? 0) then modify (fun s => s <| k_havedisk1 := 1 |>) else probe k'
  end.

Definition ideinit : K unit :=
  do! initlock L_idelock "ide";
  do! picenable IRQ_IDE;
  let! ncpu := gets k_ncpu in
  do! ioapicenable IRQ_IDE (ncpu - 1);
  do! idewait false;
  do! outb 0x1f6 (Z.lor 0xe0 (Z.shiftl 1 4));
  do! probe 1000;
  outb 0x1f6 (Z.lor 0xe0 (Z.shiftl 0 4)).

Definition idestart (b : option nat) : K unit :=
  match b with
  | None => panic "idestart"
  | Some b =>
      let! x := getbuf b in
      if FSSIZE <=? b_blockno x then panic "incorrect blockno"
      else
        let sector_per_block := BSIZE / SECTOR_SIZE in
        let sector := b_blockno x * sector_per_block in
        let read_cmd := if sector_per_block =? 1 then IDE_CMD_READ else IDE_CMD_RDMUL in
        let write_cmd := if sector_per_block =? 1 then IDE_CMD_WRITE else IDE_CMD_WRMUL in
        if 7 <? sector_per_block then panic "idestart"
        else
          do! idewait false;
          do! outb 0x3f6 0;
          do! outb 0x1f2 sector_per_block;
          do! outb 0x1f3 (Z.land sector 0xff);
          do! outb 0x1f4 (Z.land (Z.shiftr sector 8) 0xff);
          do! outb 0x1f5 (Z.land (Z.shiftr sector 16) 0xff);
          do! outb 0x1f6 (Z.lor (Z.lor 0xe0 (Z.shiftl (Z.land (b_dev x) 1) 4))
                                (Z.land (Z.shiftr sector 24) 0x0f));
          if negb (Z.land (b_flags x) B_DIRTY =? 0) then
            do! outb 0x1f7 write_cmd;
            outsl 0x1f0 (b_data x)
          else outb 0x1f7 read_cmd
  end.

Definition ideintr : K unit :=
  do! acquire L_idelock;
  let! q := gets k_idequeue in
  match q with
  | None => release L_idelock
  | Some b =>
      let! x := getbuf b in
      do! modify (fun s => s <| k_idequeue := b_qnext x |>);
      do! when (Z.land (b_flags x) B_DIRTY =? 0) (
        let! r := idewait true in
        when (0 <=? r) (
          let! data := insl 0x1f0 (Z.to_nat (BSIZE / 4)) in
          updbuf b (fun x => x <| b_data := data |>)));
      do! updbuf b (fun x => x <| b_flags := Z.lor (b_flags x) B_VALID |>);
      do! updbuf b (fun x => x <| b_flags := Z.land (b_flags x) (Z.lnot B_DIRTY) |>);
      do! wakeup (CBuf b);
      let! q := gets k_idequeue in
      do! when (bool_decide (is_Some q)) (idestart q);
      release L_idelock
  end.

Definition ide_rw (b : nat) : K unit :=
  let! h := holdingsleep (SL_buf b) in
  if negb h then panic "iderw: buf not locked"
  else
    let! x := getbuf b in
    if done_flags (b_flags x) then panic "iderw: nothing to do"
    else
      let! havedisk1 := gets k_havedisk1 in
      if negb (b_dev x =? 0) && (havedisk1 =? 0) then panic "iderw: ide disk 1 not present"
      else
        do! acquire L_idelock;
        do! updbuf b (fun x => x <| b_qnext := None |>);
        let! q := gets k_idequeue in
        do! match q with
            | None => modify (fun s => s <| k_idequeue := Some b |>)
            | Some b0 => queue_append NBUF b0 b
            end;
        let! q := gets k_idequeue in
        do! when (bool_decide (q = Some b)) (idestart (Some b));
        do! forever fuel (
          let! x := getbuf b in
          if done_flags (b_flags x) then ret (Some tt)
          else do! sleep (CBuf b) (Some L_idelock); ret None);
        release L_idelock.
End ide.
