(* ===== verification/Fs.v ===== *)
(** * fs.c: contents of files, directories and paths

    [readi] gives the bytes it reads to [put] (with their offset from the
    start of the destination) and returns them as well, for callers whose
    destination is a local variable; [writei] takes the bytes from [get].  A
    path is the list of its characters, without the terminating NUL; a name is
    an array of [DIRSIZ] bytes. *)

From S2P Require Import Prelude State Monad Mem Spinlock ConsoleOut Kalloc Vm Sched SleepWake Sleeplock.
From S2P Require Import Bio Log Inode Console.

(** [struct stat]: 16-bit type, device, inode number, 16-bit link count, size. *)
Record stat := MkStat { st_type : Z; st_dev : Z; st_ino : Z; st_nlink : Z; st_size : Z }.

(** [struct dirent]: a 16-bit inode number and [DIRSIZ] bytes of name. *)
Definition sizeof_dirent : Z := 16.
Definition de_inum (de : list Z) : Z := lget16 0 de.
Definition de_name (de : list Z) : list Z := drop 2 de.
Definition mk_dirent (inum : Z) (name : list Z) : list Z :=
  lput16 0 inum (replicate 2 0) ++ lstrncpy (until_nul name) (Z.to_nat DIRSIZ).

Definition namecmp (s t : list Z) : Z := lstrncmp s t (Z.to_nat DIRSIZ).

(** Destination for a caller that uses the returned bytes. *)
Definition local : Z -> list Z -> K unit := fun _ _ => ret tt.
(** Source for a caller that writes the bytes [bs]. *)
Definition from_bytes (bs : list Z) : Z -> Z -> K (list Z) := fun off n => ret (lget off n bs).

(** ** Paths *)

Definition SLASH : Z := 47.

Fixpoint skip_slashes (path : list Z) : list Z :=
  match path with
  | c :: path' => if c =? SLASH then skip_slashes path' else path
  | [] => []
  end.
(** The characters before the next slash, and the rest. *)
Fixpoint elem (path : list Z) : list Z * list Z :=
  match path with
  | c :: path' =>
      if c =? SLASH then ([], path)
      else let '(e, rest) := elem path' in (c :: e, rest)
  | [] => ([], [])
  end.

(** [name] is the array before the call; only its first bytes are set. *)
Definition skipelem (path name : list Z) : option (list Z * list Z) :=
  match skip_slashes path with
  | [] => None
  | path =>
      let '(s, rest) := elem path in
      let len := Z.of_nat (length s) in
      let name :=
        if DIRSIZ <=? len then lput 0 (take (Z.to_nat DIRSIZ) s) name
        else lput len [0] (lput 0 s name) in
      Some (skip_slashes rest, name)
  end.

Section fs.
Context {F : Fuel} {D : BlockDev}.

Definition stati (ip : nat) : K stat :=
  let! i := getinode ip in
  ret (MkStat (i_type i) (i_dev i) (i_inum i) (i_nlink i) (i_size i)).

(** The device of an inode of type [T_DEV], if it has one. *)
Definition device (i : inode) : K (option devops) :=
  if (i_major i <? 0) || (NDEV <=? i_major i) then ret None
  else gets (fun s => k_devsw s !! i_major i).

(** ** Contents *)

Fixpoint readi_loop (k : nat) (ip : nat) (put : Z -> list Z -> K unit) (tot off n : Z) : K (list Z) :=
  if tot <? n then
    match k with
    | O => fail FFuel
    | S k' =>
        let! i := getinode ip in
        let! addr := bmap ip (off / BSIZE) in
        let! bp := bread (i_dev i) addr in
        let m := Z.min (n - tot) (BSIZE - off mod BSIZE) in
        let! data := getdata bp in
        let bs := lget (off mod BSIZE) m data in
        do! put tot bs;
        do! brelse bp;
        let! rest := readi_loop k' ip put (tot + m) (off + m) n in
        ret (bs ++ rest)
    end
  else ret [].

Definition readi (ip : nat) (put : Z -> list Z -> K unit) (off n : Z) : K (Z * list Z) :=
  let! i := getinode ip in
  if i_type i =? T_DEV then
    let! d := device i in
    match d with
    | None => ret (-1, [])
    | Some DevConsole => consoleread ip put (i32 n)
    end
  else if (i_size i <? off) || (off +u n <? off) then ret (-1, [])
  else
    let n := if i_size i <? off +u n then i_size i -u off else n in
    let! bs := readi_loop (Z.to_nat (n / BSIZE) + 2) ip put 0 off n in
    ret (i32 n, bs).

Fixpoint writei_loop (k : nat) (ip : nat) (get : Z -> Z -> K (list Z)) (tot off n : Z) : K unit :=
  if tot <? n then
    match k with
    | O => fail FFuel
    | S k' =>
        let! i := getinode ip in
        let! addr := bmap ip (off / BSIZE) in
        let! bp := bread (i_dev i) addr in
        let m := Z.min (n - tot) (BSIZE - off mod BSIZE) in
        let! bs := get tot m in
        do! upddata bp (lput (off mod BSIZE) bs);
        do! log_write bp;
        do! brelse bp;
        writei_loop k' ip get (tot + m) (off + m) n
    end
  else ret tt.

Definition writei (ip : nat) (get : Z -> Z -> K (list Z)) (off n : Z) : K Z :=
  let! i := getinode ip in
  if i_type i =? T_DEV then
    let! d := device i in
    match d with
    | None => ret (-1)
    | Some DevConsole => consolewrite ip get (i32 n)
    end
  else if (i_size i <? off) || (off +u n <? off) then ret (-1)
  else if MAXFILE * BSIZE <? off +u n then ret (-1)
  else
    do! writei_loop (Z.to_nat (n / BSIZE) + 2) ip get 0 off n;
    let off := off +u n in
    let! i := getinode ip in
    do! when ((0 <? n) && (i_size i <? off)) (
      do! updinode ip (fun i => i <| i_size := off |>);
      iupdate ip);
    ret (i32 n).

(** ** Directories *)

(** The offset of the first entry from [off] on for which [found] holds of its
    bytes, with these bytes; or the offset at which the loop ends. *)
Fixpoint dirscan (k : nat) (dp : nat) (found : list Z -> bool) (off : Z) : K (Z * option (list Z)) :=
  let! d := getinode dp in
  if off <? i_size d then
    match k with
    | O => fail FFuel
    | S k' =>
        let! (r, de) := readi dp local off sizeof_dirent in
        if negb (r =? sizeof_dirent) then panic "dirlink read"
        else if found de then ret (off, Some de)
        else dirscan k' dp found (off + sizeof_dirent)
    end
  else ret (off, None).
(** Enough for a directory of [d]'s size. *)
Definition dirents (d : inode) : nat := Z.to_nat (i_size d / sizeof_dirent) + 1.

(** The inode of an entry, with the offset of the entry. *)
Definition dirlookup (dp : nat) (name : list Z) : K (option (nat * Z)) :=
  let! d := getinode dp in
  if negb (i_type d =? T_DIR) then panic "dirlookup not DIR"
  else
    let! r := dirscan (dirents d) dp
      (fun de => negb (de_inum de =? 0) && (namecmp name (de_name de) =? 0)) 0 in
    match r with
    | (_, None) => ret None
    | (off, Some de) =>
        let! d := getinode dp in
        let! ip := iget (i_dev d) (de_inum de) in
        ret (Some (ip, off))
    end.

Definition dirlink (dp : nat) (name : list Z) (inum : Z) : K Z :=
  let! r := dirlookup dp name in
  match r with
  | Some (ip, _) => do! iput ip; ret (-1)
  | None =>
      let! d := getinode dp in
      let! (off, _) := dirscan (dirents d) dp (fun de => de_inum de =? 0) 0 in
      let! w := writei dp (from_bytes (mk_dirent inum name)) off sizeof_dirent in
      if negb (w =? sizeof_dirent) then panic "dirlink" else ret 0
  end.

(** ** Path names *)

(** The inode for [path], or for its parent with the last element in the name
    array. *)
Fixpoint namex_loop (k : nat) (ip : nat) (path : list Z) (parent : bool) (name : list Z) :
    K (option nat * list Z) :=
  match skipelem path name with
  | None =>
      if parent then do! iput ip; ret (None, name) else ret (Some ip, name)
  | Some (path, name) =>
      match k with
      | O => fail FFuel
      | S k' =>
          do! ilock (Some ip);
          let! i := getinode ip in
          if negb (i_type i =? T_DIR) then do! iunlockput ip; ret (None, name)
          else if parent && match path with [] => true | _ => false end then
            do! iunlock (Some ip); ret (Some ip, name)
          else
            let! next := dirlookup ip name in
            match next with
            | None => do! iunlockput ip; ret (None, name)
            | Some (next, _) => do! iunlockput ip; namex_loop k' next path parent name
            end
      end
  end.

Definition namex (path : list Z) (parent : bool) (name : list Z) : K (option nat * list Z) :=
  let! ip :=
    match path with
    | c :: _ =>
        if c =? SLASH then iget ROOTDEV ROOTINO
        else
          let! cur := curproc in
          let! p := getproc cur in
          let! cwd := deref "cwd" (p_cwd p) in
          idup cwd
    | [] =>
        let! cur := curproc in
        let! p := getproc cur in
        let! cwd := deref "cwd" (p_cwd p) in
        idup cwd
    end in
  namex_loop (length path) ip path parent name.

Definition namei (path : list Z) : K (option nat) :=
  let! (ip, _) := namex path false (replicate (Z.to_nat DIRSIZ) 0) in ret ip.
Definition nameiparent (path : list Z) : K (option nat * list Z) :=
  namex path true (replicate (Z.to_nat DIRSIZ) 0).
End fs.
