(* ===== verification/FsFacts.v ===== *)
(** * Layout of the file system

    Inodes, directory entries and bitmaps in their blocks: what is written is
    what is read back, and nothing else in the block changes.  [skipelem]
    takes a path apart. *)

From S2P Require Import Prelude State Monad Mem Spinlock ConsoleOut Kalloc Vm Sched SleepWake Sleeplock.
From S2P Require Import Bio Log Inode Console Fs.

(** ** Inodes *)

Lemma length_put_addrs off addrs data : length (put_addrs off addrs data) = length data.
Proof.
  revert off data. induction addrs as [|a addrs IH]; intros off data; [done|]. cbn.
  by rewrite IH, length_lput32.
Qed.

Lemma lbyte_put_addrs_ne off addrs data o :
  0 <= off -> off + 4 * Z.of_nat (length addrs) <= Z.of_nat (length data) -> 0 <= o ->
  o < off \/ off + 4 * Z.of_nat (length addrs) <= o ->
  lbyte (put_addrs off addrs data) o = lbyte data o.
Proof.
  revert off data. induction addrs as [|a addrs IH]; intros off data H0 H1 H2 H3; [done|].
  cbn [put_addrs length] in *. rewrite IH by (rewrite ?length_lput32; lia).
  by rewrite lbyte_lput32_ne by lia.
Qed.

Lemma lget32_put_addrs off addrs data k a :
  0 <= off -> off + 4 * Z.of_nat (length addrs) <= Z.of_nat (length data) ->
  addrs !! k = Some a -> lget32 (off + 4 * Z.of_nat k) (put_addrs off addrs data) = u32 a.
Proof.
  revert off data k. induction addrs as [|a' addrs IH]; intros off data k H0 H1 Hk; [done|].
  cbn [put_addrs length] in *. destruct k as [|k].
  - cbn in Hk. injection Hk as ->. rewrite Z.add_0_r.
    rewrite (lget32_ext _ _ (lput32 off a data)); [rewrite lget32_lput32_eq by lia; done|].
    intros o Ho. rewrite lbyte_put_addrs_ne by (rewrite ?length_lput32; lia). done.
  - replace (off + 4 * Z.of_nat (S k)) with (off + 4 + 4 * Z.of_nat k) by lia.
    apply IH; [lia|rewrite length_lput32; lia|done].
Qed.

(** The values that the fields of an inode on disk can hold. *)
Record dinode_ok (i : inode) : Prop := {
  di_type : - 2 ^ 15 <= i_type i < 2 ^ 15;
  di_major : - 2 ^ 15 <= i_major i < 2 ^ 15;
  di_minor : - 2 ^ 15 <= i_minor i < 2 ^ 15;
  di_nlink : - 2 ^ 15 <= i_nlink i < 2 ^ 15;
  di_size : is_u32 (i_size i);
  di_addrs : Forall is_u32 (i_addrs i);
  di_len : length (i_addrs i) = Z.to_nat (NDIRECT + 1)
}.

(** The fields of [i] that are on disk, with the others from [j]. *)
Definition on_disk (i j : inode) : inode :=
  j <| i_type := i_type i |> <| i_major := i_major i |> <| i_minor := i_minor i |>
    <| i_nlink := i_nlink i |> <| i_size := i_size i |> <| i_addrs := i_addrs i |>.

Lemma lbyte_enc_dinode_ne off i data o :
  length (i_addrs i) = Z.to_nat (NDIRECT + 1) ->
  0 <= off -> off + 64 <= Z.of_nat (length data) -> 0 <= o -> o < off \/ off + 64 <= o ->
  lbyte (enc_dinode off i data) o = lbyte data o.
Proof.
  unfold NDIRECT. intros Hl H0 H1 H2 H3. unfold enc_dinode.
  rewrite lbyte_put_addrs_ne; [|rewrite ?length_lput32, ?length_lput16, ?Hl; cbn; lia..].
  by rewrite lbyte_lput32_ne, !lbyte_lput16_ne by (rewrite ?length_lput16; lia).
Qed.

(** A 16-bit field of an inode: nothing that is written later reaches it. *)
Lemma lget16_enc_dinode off i data :
  length (i_addrs i) = Z.to_nat (NDIRECT + 1) ->
  0 <= off -> off + 64 <= Z.of_nat (length data) ->
  lget16 off (enc_dinode off i data) = u16 (i_type i) /\
  lget16 (off + 2) (enc_dinode off i data) = u16 (i_major i) /\
  lget16 (off + 4) (enc_dinode off i data) = u16 (i_minor i) /\
  lget16 (off + 6) (enc_dinode off i data) = u16 (i_nlink i).
Proof.
  unfold NDIRECT. intros Hl H0 H1. unfold enc_dinode.
  set (d1 := lput16 off (i_type i) data). set (d2 := lput16 (off + 2) (i_major i) d1).
  set (d3 := lput16 (off + 4) (i_minor i) d2). set (d4 := lput16 (off + 6) (i_nlink i) d3).
  set (d5 := lput32 (off + 8) (i_size i) d4).
  assert (E1 : length d1 = length data) by apply length_lput16.
  assert (E2 : length d2 = length data) by (rewrite <- E1; apply length_lput16).
  assert (E3 : length d3 = length data) by (rewrite <- E2; apply length_lput16).
  assert (E4 : length d4 = length data) by (rewrite <- E3; apply length_lput16).
  assert (E5 : length d5 = length data) by (rewrite <- E4; apply length_lput32).
  assert (H5 : forall o, off <= o < off + 8 ->
    lbyte (put_addrs (off + 12) (i_addrs i) d5) o = lbyte d4 o).
  { intros o Ho. rewrite lbyte_put_addrs_ne by (rewrite ?E5, ?Hl; cbn; lia).
    apply lbyte_lput32_ne; lia. }
  split_and!.
  - rewrite (lget16_ext _ _ d4) by (apply H5; lia). unfold d4, d3, d2.
    rewrite !lget16_lput16_ne by (rewrite ?length_lput16; lia). apply lget16_lput16_eq; lia.
  - rewrite (lget16_ext _ _ d4) by (apply H5; lia). unfold d4, d3.
    rewrite !lget16_lput16_ne by (rewrite ?length_lput16; lia). apply lget16_lput16_eq; lia.
  - rewrite (lget16_ext _ _ d4) by (apply H5; lia). unfold d4.
    rewrite !lget16_lput16_ne by (rewrite ?length_lput16; lia). apply lget16_lput16_eq; lia.
  - rewrite (lget16_ext _ _ d4) by (apply H5; lia). apply lget16_lput16_eq; lia.
Qed.

Lemma lget32_enc_dinode off i data :
  length (i_addrs i) = Z.to_nat (NDIRECT + 1) ->
  0 <= off -> off + 64 <= Z.of_nat (length data) ->
  lget32 (off + 8) (enc_dinode off i data) = u32 (i_size i).
Proof.
  unfold NDIRECT. intros Hl H0 H1. unfold enc_dinode. set (d := lput16 (off + 6) _ _).
  assert (E : length d = length data) by (unfold d; by rewrite !length_lput16).
  rewrite (lget32_ext _ _ (lput32 (off + 8) (i_size i) d)); [apply lget32_lput32_eq; lia|].
  intros o Ho. apply lbyte_put_addrs_ne; rewrite ?length_lput32, ?Hl; cbn; lia.
Qed.

Lemma get_addrs_enc_dinode off i data :
  dinode_ok i -> 0 <= off -> off + 64 <= Z.of_nat (length data) ->
  get_addrs (off + 12) (enc_dinode off i data) = i_addrs i.
Proof.
  intros Hi H0 H1. pose proof (di_len _ Hi) as Hl. apply list_eq. intros k. unfold get_addrs.
  destruct (decide (k < length (i_addrs i))%nat) as [Hk|Hk].
  - destruct (lookup_lt_is_Some_2 _ _ Hk) as [a Ha]. rewrite Ha, list_lookup_fmap, lookup_seq_lt by lia.
    cbn. f_equal. unfold enc_dinode. rewrite (lget32_put_addrs _ _ _ k a); [|lia| |done].
    + apply u32_small. pose proof (di_addrs _ Hi) as Hf. rewrite Forall_lookup in Hf. by eapply Hf.
    + rewrite length_lput32, !length_lput16, Hl. unfold NDIRECT. lia.
  - rewrite !lookup_ge_None_2; [done|lia|]. rewrite length_fmap, length_seq, <- Hl. lia.
Qed.

Lemma dec_enc_dinode off i j data :
  dinode_ok i -> 0 <= off -> off + 64 <= Z.of_nat (length data) ->
  dec_dinode off (enc_dinode off i data) j = on_disk i j.
Proof.
  intros Hi H0 H1. pose proof (di_len _ Hi) as Hl. unfold dec_dinode, on_disk.
  destruct (lget16_enc_dinode off i data Hl H0 H1) as (-> & -> & -> & ->).
  rewrite lget32_enc_dinode, get_addrs_enc_dinode by done.
  rewrite !i16_u16 by apply Hi. by rewrite u32_small by apply Hi.
Qed.

(** Another inode of the same block. *)
Lemma dec_enc_dinode_ne off off' i j data :
  length (i_addrs i) = Z.to_nat (NDIRECT + 1) ->
  0 <= off -> off + 64 <= Z.of_nat (length data) -> 0 <= off' ->
  off' + 64 <= off \/ off + 64 <= off' ->
  dec_dinode off' (enc_dinode off i data) j = dec_dinode off' data j.
Proof.
  intros Hl H0 H1 H2 H3. unfold dec_dinode.
  assert (Hb : forall o, off' <= o < off' + 64 -> lbyte (enc_dinode off i data) o = lbyte data o).
  { intros o Ho. apply lbyte_enc_dinode_ne; lia || done. }
  rewrite !(lget16_ext _ (enc_dinode off i data) data) by (apply Hb; lia).
  rewrite (lget32_ext _ (enc_dinode off i data) data) by (intros; apply Hb; lia).
  replace (get_addrs (off' + 12) (enc_dinode off i data)) with (get_addrs (off' + 12) data); [done|].
  apply list_fmap_ext. intros k k' Hk. apply lookup_seq in Hk as [-> Hk]. unfold NDIRECT in Hk.
  symmetry. apply lget32_ext. intros o Ho. apply Hb. lia.
Qed.

(** Inodes of one block are apart. *)
Lemma dinode_off_range inum : 0 <= dinode_off inum /\ dinode_off inum + 64 <= BSIZE.
Proof.
  unfold dinode_off. change IPB with 8. unfold BSIZE. pose proof (Z.mod_pos_bound inum 8). lia.
Qed.

Lemma dinode_off_apart i j :
  i mod IPB <> j mod IPB ->
  dinode_off j + 64 <= dinode_off i \/ dinode_off i + 64 <= dinode_off j.
Proof. unfold dinode_off. lia. Qed.

(** ** The bitmap *)

Lemma bit_get_spec data bi :
  0 <= bi -> (bit_get data bi =? 0) = negb (Z.testbit (lbyte data (bi / 8)) (bi mod 8)).
Proof.
  intros H. unfold bit_get, bit_mask. pose proof (Z.mod_pos_bound bi 8).
  rewrite Z.shiftl_1_l. rewrite <- (land_flag _ (bi mod 8)) by lia. by rewrite negb_involutive.
Qed.

(** The bits as a function of the block. *)
Definition bitmap (data : list Z) (bi : Z) : bool := Z.testbit (lbyte data (bi / 8)) (bi mod 8).

Lemma testbit_u8 z n : 0 <= n < 8 -> Z.testbit (u8 z) n = Z.testbit z n.
Proof. intros H. unfold u8. rewrite Z.mod_pow2_bits_low by lia. done. Qed.

Lemma same_bit bi bj : 0 <= bi -> 0 <= bj -> bi / 8 = bj / 8 -> bi mod 8 = bj mod 8 -> bi = bj.
Proof. intros. rewrite (Z.div_mod bi 8), (Z.div_mod bj 8) by lia. lia. Qed.

Lemma bitmap_set data bi bj :
  0 <= bi < 8 * Z.of_nat (length data) -> 0 <= bj ->
  bitmap (bit_set bi data) bj = bitmap data bj || (bi =? bj).
Proof.
  intros Hi Hj. unfold bitmap, bit_set. pose proof (Z.mod_pos_bound bi 8). pose proof (Z.mod_pos_bound bj 8).
  assert (bi / 8 < Z.of_nat (length data)) by (apply Z.div_lt_upper_bound; lia).
  rewrite lbyte_lput8; [|split; [apply Z.div_pos; lia|done]|apply Z.div_pos; lia].
  destruct (Z.eqb_spec (bj / 8) (bi / 8)) as [E|E].
  - rewrite testbit_u8 by lia. rewrite Z.lor_spec. rewrite E. f_equal. unfold bit_mask.
    rewrite Z.shiftl_1_l, Z.pow2_bits_eqb by lia. apply eq_true_iff_eq. rewrite !Z.eqb_eq. split.
    + intros. apply same_bit; lia.
    + by intros ->.
  - rewrite (proj2 (Z.eqb_neq bi bj)); [by rewrite orb_false_r|]. by intros ->.
Qed.

Lemma bitmap_clear data bi bj :
  0 <= bi < 8 * Z.of_nat (length data) -> 0 <= bj ->
  bitmap (bit_clear bi data) bj = bitmap data bj && negb (bi =? bj).
Proof.
  intros Hi Hj. unfold bitmap, bit_clear. pose proof (Z.mod_pos_bound bi 8). pose proof (Z.mod_pos_bound bj 8).
  assert (bi / 8 < Z.of_nat (length data)) by (apply Z.div_lt_upper_bound; lia).
  rewrite lbyte_lput8; [|split; [apply Z.div_pos; lia|done]|apply Z.div_pos; lia].
  destruct (Z.eqb_spec (bj / 8) (bi / 8)) as [E|E].
  - rewrite testbit_u8 by lia. rewrite Z.land_spec, Z.lnot_spec by lia. rewrite E. do 2 f_equal.
    unfold bit_mask. rewrite Z.shiftl_1_l, Z.pow2_bits_eqb by lia.
    apply eq_true_iff_eq. rewrite !Z.eqb_eq. split.
    + intros. apply same_bit; lia.
    + by intros ->.
  - rewrite (proj2 (Z.eqb_neq bi bj)); [by rewrite andb_true_r|]. by intros ->.
Qed.

(** [find_free] finds the first free block below [size]. *)
Lemma find_free_spec n data b bi size :
  0 <= bi ->
  match find_free n data b bi size with
  | Some bj => bi <= bj < bi + Z.of_nat n /\ b + bj < size /\ bitmap data bj = false /\
      forall k, bi <= k < bj -> bitmap data k = true
  | None => forall k, bi <= k < bi + Z.of_nat n -> b + k < size -> bitmap data k = true
  end.
Proof.
  revert bi. induction n as [|n IH]; intros bi Hbi; cbn [find_free]; [lia|].
  destruct (Z.ltb_spec (b + bi) size) as [Hs|Hs]; [|intros; lia].
  rewrite bit_get_spec by done. fold (bitmap data bi).
  destruct (bitmap data bi) eqn:Eb; cbn [negb].
  - specialize (IH (bi + 1) ltac:(lia)). destruct (find_free n data b (bi + 1) size) as [bj|].
    + destruct IH as (H1 & H2 & H3 & H4). split_and!; [lia|lia|done|done|].
      intros k Hk. destruct (decide (k = bi)) as [->|]; [done|]. apply H4. lia.
    + intros k Hk Hk'. destruct (decide (k = bi)) as [->|]; [done|]. apply IH; lia.
  - split_and!; [lia|lia|done|done|]. intros. lia.
Qed.

(** ** Directory entries *)

Lemma length_mk_dirent inum name : length (mk_dirent inum name) = Z.to_nat sizeof_dirent.
Proof.
  unfold mk_dirent, lstrncpy. rewrite length_app, length_lput16, length_take, length_app, !length_replicate.
  unfold sizeof_dirent, DIRSIZ. lia.
Qed.

Lemma de_inum_mk inum name : de_inum (mk_dirent inum name) = u16 inum.
Proof.
  unfold de_inum, mk_dirent. rewrite <- (lget16_lput16_eq 0 inum (replicate 2 0)) by (cbn; lia).
  apply lget16_ext; unfold lbyte; by rewrite lookup_app_l by (rewrite length_lput16; cbn; lia).
Qed.

Lemma de_name_mk inum name :
  de_name (mk_dirent inum name) = lstrncpy (until_nul name) (Z.to_nat DIRSIZ).
Proof. unfold de_name, mk_dirent. by rewrite drop_app_length' by (rewrite length_lput16; done). Qed.

Lemma until_nul_take n l : until_nul (take n l) = take n (until_nul l).
Proof.
  revert l. induction n as [|n IH]; intros [|c l]; [done..|]. cbn.
  destruct (c =? 0); [done|]. cbn. by rewrite IH.
Qed.

(** The string in a name field is the string that was put there, cut to
    [DIRSIZ] characters. *)
Lemma until_nul_lstrncpy l n : Forall (fun c => c <> 0) l -> until_nul (lstrncpy l n) = take n l.
Proof.
  intros H. unfold lstrncpy. rewrite until_nul_take. destruct n as [|n]; [done|].
  cbn [replicate]. by rewrite until_nul_app.
Qed.

Definition name_bytes (l : list Z) : Prop := Forall (fun c => 0 <= c) l.

Lemma name_bytes_until l : name_bytes l -> name_bytes (until_nul l).
Proof.
  unfold name_bytes. induction 1 as [|c l Hc _ IH]; cbn; [constructor|].
  destruct (c =? 0); by constructor.
Qed.

Lemma namecmp_mk name name' inum :
  name_bytes name -> name_bytes name' ->
  namecmp name (de_name (mk_dirent inum name')) = 0 <->
  take (Z.to_nat DIRSIZ) (until_nul name) = take (Z.to_nat DIRSIZ) (until_nul name').
Proof.
  intros H H'. unfold namecmp. rewrite de_name_mk, lstrncmp_0; [|done|].
  - rewrite !until_nul_take, until_nul_lstrncpy by apply until_nul_nonzero.
    by rewrite take_take, Nat.min_id.
  - unfold lstrncpy. apply Forall_take, Forall_app. split; [by apply name_bytes_until|].
    by apply Forall_replicate.
Qed.

(** ** Path elements *)

(** A path cut at its slashes. *)
Fixpoint split_slash (path : list Z) : list (list Z) :=
  match path with
  | [] => [[]]
  | c :: path' =>
      if c =? SLASH then [] :: split_slash path'
      else match split_slash path' with
           | e :: es => (c :: e) :: es
           | [] => [[c]]
           end
  end.
(** Its elements: adjacent, leading and trailing slashes do not count. *)
Definition elements (path : list Z) : list (list Z) := filter (fun e => e <> []) (split_slash path).

Lemma elements_skip path : elements (skip_slashes path) = elements path.
Proof.
  induction path as [|c path IH]; [done|]. cbn [skip_slashes].
  destruct (c =? SLASH) eqn:E; [|done]. rewrite IH. unfold elements. cbn [split_slash]. rewrite E.
  by rewrite filter_cons_False by auto.
Qed.

Lemma split_slash_elem path :
  exists es, split_slash path = fst (elem path) :: es /\
    match snd (elem path) with [] => es = [] | c :: rest => c = SLASH /\ es = split_slash rest end.
Proof.
  induction path as [|c path IH]; [by exists []|]. cbn. destruct (Z.eqb_spec c SLASH) as [->|Hc].
  - by exists (split_slash path).
  - destruct IH as (es & -> & He). destruct (elem path) as [e rest]. by exists es.
Qed.

Lemma skip_slashes_head path c rest : skip_slashes path = c :: rest -> c <> SLASH.
Proof.
  induction path as [|c' path IH]; [done|]. cbn. destruct (Z.eqb_spec c' SLASH); [done|].
  by intros [= -> ->].
Qed.

Lemma skip_slashes_length path : (length (skip_slashes path) <= length path)%nat.
Proof. induction path as [|c path IH]; [done|]. cbn. destruct (c =? SLASH); cbn; lia. Qed.

Lemma elem_app path : path = fst (elem path) ++ snd (elem path).
Proof.
  induction path as [|c path IH]; [done|]. cbn. destruct (c =? SLASH); [done|].
  destruct (elem path) as [e rest]. cbn in *. by rewrite <- IH.
Qed.

(** The first element of a path that starts with one. *)
Lemma elements_elem c path :
  c <> SLASH -> let '(e, rest) := elem (c :: path) in
  e <> [] /\ elements (c :: path) = e :: elements (skip_slashes rest).
Proof.
  intros Hc. destruct (split_slash_elem (c :: path)) as (es & Hs & He).
  destruct (elem (c :: path)) as [e rest] eqn:E. cbn [fst snd] in Hs, He.
  assert (Hne : e <> []).
  { cbn in E. rewrite (proj2 (Z.eqb_neq _ _) Hc) in E. destruct (elem path). by injection E as <- _. }
  split; [done|]. unfold elements at 1. rewrite Hs. rewrite filter_cons_True by done.
  f_equal. rewrite elements_skip. destruct rest as [|c' rest].
  - by rewrite He.
  - destruct He as [-> ->]. unfold elements. cbn [split_slash]. rewrite Z.eqb_refl.
    by rewrite filter_cons_False by auto.
Qed.

Lemma elements_nil path : elements (skip_slashes path) = [] <-> skip_slashes path = [].
Proof.
  split; [|by intros ->]. destruct (skip_slashes path) as [|c rest] eqn:E; [done|].
  pose proof (elements_elem c rest (skip_slashes_head _ _ _ E)) as H.
  destruct (elem (c :: rest)). destruct H as [_ ->]. done.
Qed.

(** The name array after [skipelem] has copied the element [e]. *)
Lemma skipelem_name e name :
  length name = Z.to_nat DIRSIZ -> Forall (fun c => c <> 0) e ->
  let name' := if DIRSIZ <=? Z.of_nat (length e) then lput 0 (take (Z.to_nat DIRSIZ) e) name
               else lput (Z.of_nat (length e)) [0] (lput 0 e name) in
  length name' = Z.to_nat DIRSIZ /\ until_nul name' = take (Z.to_nat DIRSIZ) e.
Proof.
  unfold DIRSIZ. intros Hn He. cbn zeta. destruct (Z.leb_spec 14 (Z.of_nat (length e))) as [Hl|Hl].
  - split; [rewrite length_lput; [done|lia|rewrite length_take; lia]|].
    unfold lput. cbn [Z.to_nat take]. rewrite drop_ge by (rewrite length_take; lia).
    rewrite app_nil_l, app_nil_r. apply until_nul_id. by apply Forall_take.
  - assert (Hl1 : length (lput 0 e name) = length name) by (apply length_lput; lia).
    split; [rewrite length_lput; [lia|lia|cbn; lia]|]. unfold lput at 1. rewrite Nat2Z.id.
    rewrite (take_ge e) by lia. unfold lput. change (Z.to_nat 0) with 0%nat.
    rewrite take_0, app_nil_l, take_app_length. by apply until_nul_app.
Qed.

Lemma skip_slashes_suffix (P : Z -> Prop) path : Forall P path -> Forall P (skip_slashes path).
Proof. induction 1 as [|c path Hc Hp IH]; [done|]. cbn. by case_match; [|constructor]. Qed.

Lemma skipelem_ret path name :
  length name = Z.to_nat DIRSIZ -> Forall (fun c => c <> 0) path ->
  match skipelem path name with
  | None => elements path = []
  | Some (rest, name') => exists e, elements path = e :: elements rest /\
      (rest = [] <-> elements rest = []) /\ (length rest < length path)%nat /\
      length name' = Z.to_nat DIRSIZ /\ until_nul name' = take (Z.to_nat DIRSIZ) e
  end.
Proof.
  intros Hn Hp. unfold skipelem. rewrite <- (elements_skip path).
  pose proof (skip_slashes_length path) as Hlen. pose proof (skip_slashes_suffix _ path Hp) as Hf.
  destruct (skip_slashes path) as [|c q] eqn:E; [done|].
  pose proof (elements_elem c q (skip_slashes_head _ _ _ E)) as H.
  pose proof (elem_app (c :: q)) as Happ. destruct (elem (c :: q)) as [e rest]. destruct H as [Hne He].
  cbn [fst snd] in Happ. rewrite Happ in Hf. apply Forall_app in Hf as [Hfe _].
  exists e. split; [done|]. split; [symmetry; apply elements_nil|].
  destruct (skipelem_name e name Hn Hfe) as [H1 H2]. split; [|done].
  pose proof (skip_slashes_length rest). rewrite Happ, length_app in Hlen. destruct e; [done|].
  cbn in Hlen. lia.
Qed.
