(* ===== verification/FileFacts.v ===== *)
(** * Reading files

    What [bmap] and [readi] do for a process that is alone in the file system,
    when the blocks of the file are there: the bytes that they deliver are
    those of the file as the cache and the disk hold it, and nothing but the
    order of the buffers changes. *)

From S2P Require Import Prelude State Monad Mem Spinlock Sample ConsoleOut Kalloc Vm Sched SleepWake Sleeplock.
From S2P Require Import Bio BioFacts Cache Log LogFacts Writes LogSpec Inode LogOps Console Fs FsFacts.

(** A process that can read blocks without waiting. *)
Definition ready (s : kernel) (i : nat) (p : proc) : Prop := (exists l, alone l s i p) /\ exists b, spare s b.

(** What reading does to the state. *)
Record reads (i : nat) (p : proc) (s s' : kernel) : Prop := {
  rd_ready : ready s' i p;
  rd_frame : io_frame s s';
  rd_writes : k_writes s' = k_writes s;
  rd_content : forall d n, (d, n) <> (0, 0) -> content s' d n = content s d n
}.

Lemma reads_refl i p s : ready s i p -> reads i p s s.
Proof. intros H. split; [done|apply io_frame_refl|done|done]. Qed.

Lemma reads_trans i p s1 s2 s3 : reads i p s1 s2 -> reads i p s2 s3 -> reads i p s1 s3.
Proof.
  intros [_ F1 W1 C1] [R2 F2 W2 C2]. split; [done|by eapply io_frame_trans|congruence|].
  intros d n H. by rewrite C2, C1.
Qed.

Lemma reads_inodes i p s s' : reads i p s s' -> k_inodes s' = k_inodes s.
Proof. intros H. by rewrite (rd_frame _ _ _ _ H). Qed.
Lemma reads_sb i p s s' : reads i p s s' -> k_sb s' = k_sb s.
Proof. intros H. by rewrite (rd_frame _ _ _ _ H). Qed.

Lemma wrote_nothing i p s s' : ready s i p -> wrote_all [] i p s s' -> io_frame s s' -> reads i p s s'.
Proof.
  intros [[l Hal] [b (bf & Hb & Hd)]] [A _ _ W C [_ U]] F. split; [split; [done|]|done|by rewrite W, app_nil_r|exact C].
  destruct A as [l' A]. assert (Hlen : (b < length (k_bufs s'))%nat).
  { destruct (ci_ring _ _ (al_inv _ _ _ _ A)) as (_ & _ & ->). destruct (ci_ring _ _ (al_inv _ _ _ _ Hal)) as (_ & _ & <-).
    by eapply lookup_lt_Some. }
  destruct (lookup_lt_is_Some_2 _ _ Hlen) as [bf' Hb']. exists b, bf'. split; [done|].
  destruct (dirty bf') eqn:E; [|done]. destruct (U b bf' Hb' E) as (bf2 & Hb2 & Hd2 & _). congruence.
Qed.

(** The inode table does not matter to the cache. *)
Lemma alone_inodes l s i p x : alone l s i p -> alone l (s <| k_inodes := x |>) i p.
Proof.
  intros [Hc Hi Hid]. split; [|by apply (cache_inv_ext l s)|done].
  eapply calm_same; [exact Hc|done|apply Hc..].
Qed.

Lemma ready_inodes s i p x : ready s i p -> ready (s <| k_inodes := x |>) i p.
Proof. intros [[l H] Hs]. split; [|done]. exists l. by apply alone_inodes. Qed.

Lemma ready_length s i p d n : ready s i p -> n <> 0 -> length (content s d n) = block_size.
Proof.
  intros [[l Hal] _] Hn. pose proof (al_inv _ _ _ _ Hal) as Hinv.
  destruct (content_cases s d n (ci_uniq _ _ Hinv)) as [(b & bf & Hb & _ & ->)|[_ ->]];
    [congruence|by apply (ci_bufs _ _ Hinv b bf)|apply Hinv].
Qed.

(** ** Files

    The blocks of a file, and its bytes. *)

Definition block_of (s : kernel) (ino : inode) (f : Z) : Z :=
  if f <? NDIRECT then iaddr ino f else lget32 (4 * (f - NDIRECT)) (content s (i_dev ino) (iaddr ino NDIRECT)).

Definition file_byte (s : kernel) (ino : inode) (x : Z) : Z :=
  lbyte (content s (i_dev ino) (block_of s ino (x / BSIZE))) (x mod BSIZE).

Definition file_bytes (s : kernel) (ino : inode) (off n : Z) : list Z := map (file_byte s ino) (seqZ off n).

Definition file_data (s : kernel) (ino : inode) : list Z := file_bytes s ino 0 (i_size ino).

Record mapped {D : BlockDev} (s : kernel) (ino : inode) (f : Z) : Prop := {
  mp_block : block_of s ino f <> 0;
  mp_ok : blk_ok (i_dev ino) (block_of s ino f) = true;
  mp_indirect : NDIRECT <= f -> iaddr ino NDIRECT <> 0 /\ blk_ok (i_dev ino) (iaddr ino NDIRECT) = true
}.

(** A file all of whose blocks are there. *)
Record whole {D : BlockDev} (s : kernel) (ino : inode) : Prop := {
  wh_size : 0 <= i_size ino <= MAXFILE * BSIZE;
  wh_mapped : forall f, 0 <= f -> f * BSIZE < i_size ino -> mapped s ino f
}.

(** The parts of an inode that say where its file is. *)
Definition same_file (ino ino' : inode) : Prop :=
  i_dev ino' = i_dev ino /\ i_size ino' = i_size ino /\ i_addrs ino' = i_addrs ino.

Lemma block_of_same s ino ino' f : same_file ino ino' -> block_of s ino' f = block_of s ino f.
Proof. intros (E1 & _ & E2). unfold block_of, iaddr. by rewrite E1, E2. Qed.

Lemma block_of_reads {D : BlockDev} i p s s' ino f : reads i p s s' -> mapped s ino f -> block_of s' ino f = block_of s ino f.
Proof.
  intros Hr [_ _ Hi]. unfold block_of. destruct (Z.ltb_spec f NDIRECT); [done|]. destruct (Hi ltac:(lia)) as [Hn _].
  by rewrite (rd_content _ _ _ _ Hr) by congruence.
Qed.

Lemma mapped_reads {D : BlockDev} i p s s' ino f : reads i p s s' -> mapped s ino f -> mapped s' ino f.
Proof. intros Hr Hm. pose proof (block_of_reads _ _ _ _ _ _ Hr Hm) as E. destruct Hm. split; by rewrite ?E. Qed.

Lemma whole_reads {D : BlockDev} i p s s' ino : reads i p s s' -> whole s ino -> whole s' ino.
Proof. intros Hr [H1 H2]. split; [done|]. intros f H3 H4. eapply mapped_reads; eauto. Qed.

Lemma file_byte_reads {D : BlockDev} i p s s' ino x : reads i p s s' -> whole s ino -> 0 <= x < i_size ino -> file_byte s' ino x = file_byte s ino x.
Proof.
  intros Hr Hw Hx. assert (Hm : mapped s ino (x / BSIZE)) by (apply Hw; change BSIZE with 512 in *; Z.div_mod_to_equations; lia).
  unfold file_byte. rewrite (block_of_reads _ _ _ _ _ _ Hr Hm). destruct Hm as [Hn _ _]. by rewrite (rd_content _ _ _ _ Hr) by congruence.
Qed.

Lemma file_bytes_reads {D : BlockDev} i p s s' ino off n : reads i p s s' -> whole s ino -> 0 <= off -> off + n <= i_size ino ->
  file_bytes s' ino off n = file_bytes s ino off n.
Proof.
  intros Hr Hw H1 H2. unfold file_bytes. apply map_ext_in. intros x Hx%list_elem_of_In%elem_of_seqZ.
  eapply file_byte_reads; [done|done|lia].
Qed.

Lemma length_file_bytes s ino off n : length (file_bytes s ino off n) = Z.to_nat n.
Proof. unfold file_bytes. by rewrite length_map, length_seqZ. Qed.

(** A piece of the file. *)
Lemma lget_file s ino off n : 0 <= off -> 0 <= n -> off + n <= i_size ino -> lget off n (file_data s ino) = file_bytes s ino off n.
Proof.
  intros H1 H2 H3. unfold lget, file_data, file_bytes. rewrite <- !fmap_drop, <- fmap_take. f_equal.
  replace (i_size ino) with (off + (n + (i_size ino - off - n))) by lia. rewrite seqZ_app by lia.
  rewrite drop_app_length' by (rewrite length_seqZ; lia). rewrite Z.add_0_l, seqZ_app by lia.
  by rewrite take_app_length' by (rewrite length_seqZ; lia).
Qed.

(** The bytes of a piece of a file that is in one block. *)
Lemma block_bytes s ino off m : length (content s (i_dev ino) (block_of s ino (off / BSIZE))) = block_size ->
  0 <= off -> 0 <= m -> off mod BSIZE + m <= BSIZE ->
  lget (off mod BSIZE) m (content s (i_dev ino) (block_of s ino (off / BSIZE))) = file_bytes s ino off m.
Proof.
  intros Hlen H1 H2 H3. unfold block_size in Hlen. change BSIZE with 512 in *.
  assert (Ho : 0 <= off mod 512) by (apply Z.mod_pos_bound; lia).
  apply list_eq_lbyte; rewrite length_lget by lia; [by rewrite length_file_bytes|]. intros o Hh.
  rewrite lbyte_lget by lia. rewrite decide_True by lia. unfold lbyte at 2, file_bytes. rewrite list_lookup_fmap.
  rewrite lookup_seqZ_lt by lia. cbn. unfold file_byte. change BSIZE with 512.
  replace ((off + Z.of_nat (Z.to_nat o)) / 512) with (off / 512) by (Z.div_mod_to_equations; lia).
  f_equal. Z.div_mod_to_equations; lia.
Qed.

Section read.
Context {F : Fuel} {D : BlockDev} {HD : SyncDev D} (Hfuel : (0 < fuel)%nat).
Context (i : nat) (p : proc).

(** [bread], the use of the data, and [brelse]; in between the inode table may
    change. *)
Lemma block_read s d n : ready s i p -> n <> 0 -> blk_ok d n = true ->
  exists b s1, bread d n s = Ret b s1 /\ getdata b s1 = Ret (content s d n) s1 /\ k_inodes s1 = k_inodes s /\
    forall x, exists s2, brelse b (s1 <| k_inodes := x |>) = Ret tt s2 /\ reads i p (s <| k_inodes := x |>) s2.
Proof.
  intros Hr Hn Hok. pose proof Hr as [[l Hal] Hsp]. assert (Hdn : (d, n) <> (0, 0)) by congruence.
  destruct (first_bread Hfuel l s i p d n Hal Hdn Hok Hsp) as (b & f0 & bf & H1 & Hf & Hi1 & Hc1).
  exists b, (put_buf b bf s). split_and!; [done| |done|].
  - unfold getdata. rewrite (bind_ret _ _ _ _ _ (getbuf_ret _ _ _ (ow_buf _ _ _ _ _ _ (ft_owns _ _ _ _ _ _ _ _ Hf)))).
    unfold ret. f_equal. apply Hf.
  - intros x. set (s0 := s <| k_inodes := x |>).
    assert (Hf' : fetched s0 p d n (put_buf b bf s0) b f0 bf).
    { destruct Hf as [A1 [B1 B2 B3 B4 B5 B6] A3 A4 A5 A6 A7]. by split; [|split|..]. }
    assert (Hi' : cache_inv l (put_buf b bf s0)) by (by apply (cache_inv_ext l (put_buf b bf s))).
    destruct (release_block l s0 i p d n b f0 bf (alone_inodes _ _ _ _ _ Hal) Hf' Hi') as (s2 & H2 & W & Fr); [exact Hc1|].
    exists s2. split; [exact H2|]. apply wrote_nothing; [by apply ready_inodes|done|done].
Qed.

(** The same without a change of the inode table. *)
Lemma block_read_only s d n : ready s i p -> n <> 0 -> blk_ok d n = true ->
  exists b s1 s2, bread d n s = Ret b s1 /\ getdata b s1 = Ret (content s d n) s1 /\ brelse b s1 = Ret tt s2 /\
    reads i p s s2 /\ k_inodes s1 = k_inodes s.
Proof.
  intros H1 H2 H3. destruct (block_read s d n H1 H2 H3) as (b & s1 & R1 & R2 & E & R3).
  destruct (R3 (k_inodes s)) as (s2 & R4 & R5). exists b, s1, s2. split_and!; [done|done| | |done].
  - rewrite <- R4, <- E. by destruct s1.
  - by destruct s.
Qed.

Lemma getinode_ret s ip ino : k_inodes s !! ip = Some ino -> getinode ip s = Ret ino s.
Proof. intros H. unfold getinode. by rewrite H. Qed.

(** [bmap] of a block that is there. *)
Lemma bmap_ret s ip ino f : ready s i p -> k_inodes s !! ip = Some ino -> 0 <= f < MAXFILE -> mapped s ino f ->
  exists s', bmap ip f s = Ret (block_of s ino f) s' /\ reads i p s s'.
Proof.
  intros Hr Hi Hf [Hn Hok Hind]. unfold bmap. rewrite (bind_ret _ _ _ _ _ (getinode_ret _ _ _ Hi)).
  unfold block_of in *. destruct (Z.ltb_spec f NDIRECT) as [Hd|Hd].
  - rewrite (proj2 (Z.eqb_neq _ _) Hn). exists s. split; [done|by apply reads_refl].
  - destruct (Hind Hd) as [Hn1 Hok1]. rewrite (proj2 (Z.ltb_lt (f - NDIRECT) NINDIRECT)) by (unfold MAXFILE in Hf; lia).
    rewrite (proj2 (Z.eqb_neq _ _) Hn1).
    destruct (block_read_only s (i_dev ino) (iaddr ino NDIRECT) Hr Hn1 Hok1) as (b & s1 & s2 & R1 & R2 & R3 & R4 & _).
    exists s2. split; [|done]. erewrite bind_ret by reflexivity. rewrite (bind_ret _ _ _ _ _ R1), (bind_ret _ _ _ _ _ R2).
    rewrite (proj2 (Z.eqb_neq _ _) Hn). erewrite bind_ret by reflexivity. by rewrite (bind_ret _ _ _ _ _ R3).
Qed.

(** The loop of [readi]: [k] turns are enough for the blocks that the piece
    touches. *)
Lemma readi_loop_ret ip ino n k : forall s tot off,
  ready s i p -> k_inodes s !! ip = Some ino -> whole s ino -> 0 <= off -> tot <= n ->
  off + (n - tot) <= i_size ino -> (tot < n -> off mod BSIZE + (n - tot) <= BSIZE * Z.of_nat k) ->
  exists s', readi_loop k ip local tot off n s = Ret (file_bytes s ino off (n - tot)) s' /\ reads i p s s'.
Proof.
  induction k as [|k IH]; intros s tot off Hr Hi Hw H1 H2 H3 H4; cbn [readi_loop].
  { assert (tot = n) as -> by (pose proof (Z.mod_pos_bound off BSIZE); change BSIZE with 512 in *; lia).
    rewrite Z.ltb_irrefl, Z.sub_diag. exists s. split; [done|by apply reads_refl]. }
  destruct (Z.ltb_spec tot n) as [Ht|Ht].
  2: { assert (tot = n) as -> by lia. rewrite Z.sub_diag. exists s. split; [done|by apply reads_refl]. }
  assert (Hf : 0 <= off / BSIZE < MAXFILE /\ off / BSIZE * BSIZE < i_size ino).
  { pose proof (wh_size _ _ Hw). change MAXFILE with 140 in *. change BSIZE with 512 in *. Z.div_mod_to_equations. lia. }
  destruct Hf as [Hf1 Hf2]. assert (Hm : mapped s ino (off / BSIZE)) by (apply Hw; lia).
  rewrite (bind_ret _ _ _ _ _ (getinode_ret _ _ _ Hi)).
  destruct (bmap_ret s ip ino _ Hr Hi Hf1 Hm) as (s1 & B1 & V1). rewrite (bind_ret _ _ _ _ _ B1).
  pose proof (block_of_reads _ _ _ _ _ _ V1 Hm) as Eb. destruct Hm as [Hn Hok _].
  destruct (block_read_only s1 (i_dev ino) (block_of s ino (off / BSIZE)) (rd_ready _ _ _ _ V1) Hn Hok)
    as (b & s2 & s3 & R1 & R2 & R3 & V2 & _).
  rewrite (bind_ret _ _ _ _ _ R1), (bind_ret _ _ _ _ _ R2). set (m := Z.min (n - tot) (BSIZE - off mod BSIZE)).
  assert (Hmod : 0 <= off mod BSIZE < BSIZE) by (apply Z.mod_pos_bound; done).
  assert (Hm : 0 < m <= n - tot /\ m <= BSIZE - off mod BSIZE /\ (m = n - tot \/ m = BSIZE - off mod BSIZE)) by lia. clearbody m.
  assert (Hb : lget (off mod BSIZE) m (content s1 (i_dev ino) (block_of s ino (off / BSIZE))) = file_bytes s ino off m).
  { rewrite (rd_content _ _ _ _ V1) by congruence. apply block_bytes; [by eapply ready_length|lia..]. }
  rewrite Hb. unfold local at 1. erewrite bind_ret by reflexivity. rewrite (bind_ret _ _ _ _ _ R3).
  pose proof (reads_trans _ _ _ _ _ V1 V2) as V3.
  destruct (IH s3 (tot + m) (off + m)) as (s4 & L & V4); [apply V3|by rewrite (reads_inodes _ _ _ _ V3)|by eapply whole_reads|lia..| |].
  { specialize (H4 Ht). change BSIZE with 512 in *. destruct Hm as (_ & _ & [->| ->]); Z.div_mod_to_equations; lia. }
  exists s4. rewrite (bind_ret _ _ _ _ _ L). split; [|by eapply reads_trans]. unfold ret. f_equal.
  rewrite (file_bytes_reads _ _ _ _ _ _ _ V3 Hw) by lia. unfold file_bytes. rewrite <- map_app. f_equal.
  replace (n - tot) with (m + (n - (tot + m))) by lia. by rewrite seqZ_app by lia.
Qed.

(** [readi] of a file that is not a device. *)
Lemma readi_ret s ip ino off n : ready s i p -> k_inodes s !! ip = Some ino -> i_type ino <> T_DEV -> whole s ino ->
  0 <= off < 2 ^ 32 -> 0 <= n < 2 ^ 32 ->
  if (i_size ino <? off) || (2 ^ 32 <=? off + n) then readi ip local off n s = Ret (-1, []) s
  else let n' := Z.min n (i_size ino - off) in
    exists s', readi ip local off n s = Ret (n', lget off n' (file_data s ino)) s' /\ reads i p s s'.
Proof.
  intros Hr Hi Ht Hw Ho Hn. unfold readi. rewrite (bind_ret _ _ _ _ _ (getinode_ret _ _ _ Hi)), (proj2 (Z.eqb_neq _ _) Ht).
  pose proof (wh_size _ _ Hw) as Hs. change (MAXFILE * BSIZE) with 71680 in Hs. unfold u32.
  destruct (Z.ltb_spec (i_size ino) off) as [H1|H1]; cbn [orb]; [done|].
  destruct (Z.leb_spec (2 ^ 32) (off + n)) as [H2|H2].
  { rewrite (proj2 (Z.ltb_lt _ _)); [done|]. Z.div_mod_to_equations. lia. }
  rewrite Z.mod_small by lia. rewrite (proj2 (Z.ltb_ge (off + n) off)) by lia. cbv zeta.
  assert (E : (if i_size ino <? off + n then (i_size ino - off) mod 2 ^ 32 else n) = Z.min n (i_size ino - off)).
  { destruct (Z.ltb_spec (i_size ino) (off + n)); [rewrite Z.mod_small by lia|]; lia. }
  rewrite E. set (n' := Z.min n (i_size ino - off)). assert (Hn' : 0 <= n' <= i_size ino - off) by lia. clearbody n'.
  destruct (readi_loop_ret ip ino n' (Z.to_nat (n' / BSIZE) + 2) s 0 off Hr Hi Hw) as (s' & L & V); [lia..| |].
  { change BSIZE with 512. Z.div_mod_to_equations. lia. }
  exists s'. split; [|done]. rewrite (bind_ret _ _ _ _ _ L), Z.sub_0_r, lget_file by lia. unfold ret. by rewrite i32_small by lia.
Qed.
End read.

(** ** Directories *)

(** The entries of a directory. *)
Definition entries (s : kernel) (d : inode) : list (list Z) :=
  map (fun k => lget (16 * Z.of_nat k) 16 (file_data s d)) (seq 0 (Z.to_nat (i_size d / 16))).

Record directory {D : BlockDev} (s : kernel) (d : inode) : Prop := {
  dr_type : i_type d = T_DIR;
  dr_whole : whole s d;
  dr_size : i_size d mod 16 = 0
}.

Lemma entries_reads {D : BlockDev} i p s s' d : reads i p s s' -> whole s d -> entries s' d = entries s d.
Proof.
  intros Hr Hw. unfold entries. apply map_ext_in. intros k [_ Hk]%in_seq. f_equal.
  unfold file_data. pose proof (wh_size _ _ Hw). eapply file_bytes_reads; [done|done|lia..].
Qed.

(** What [dirscan] finds in the entries that follow the first [j]. *)
Fixpoint scan (found : list Z -> bool) (es : list (list Z)) (j : nat) : Z * option (list Z) :=
  match es with
  | [] => (16 * Z.of_nat j, None)
  | e :: es' => if found e then (16 * Z.of_nat j, Some e) else scan found es' (S j)
  end.

Lemma scan_find found es : forall j, scan found es j =
  match list_find (fun e => found e = true) es with
  | Some (k, e) => (16 * Z.of_nat (j + k), Some e)
  | None => (16 * Z.of_nat (j + length es), None)
  end.
Proof.
  induction es as [|e es IH]; intros j; cbn [scan list_find length]; [by rewrite Nat.add_0_r|].
  case_decide as Hd; [by rewrite Hd, Nat.add_0_r|]. apply not_true_is_false in Hd. rewrite Hd, IH.
  destruct (list_find _ es) as [[k x]|]; cbn; f_equal; lia.
Qed.

Section scan.
Context {F : Fuel} {D : BlockDev} {HD : SyncDev D} (Hfuel : (0 < fuel)%nat).
Context (i : nat) (p : proc).

Lemma dirscan_ret dp d found k : forall s j, ready s i p -> k_inodes s !! dp = Some d -> directory s d ->
  (length (entries s d) - j <= k)%nat -> (j <= length (entries s d))%nat ->
  exists s', dirscan k dp found (16 * Z.of_nat j) s = Ret (scan found (drop j (entries s d)) j) s' /\ reads i p s s'.
Proof.
  assert (Hlen : forall s, length (entries s d) = Z.to_nat (i_size d / 16)) by (intros; unfold entries; by rewrite length_map, length_seq).
  induction k as [|k IH]; intros s j Hr Hd Hdir Hk Hj; cbn [dirscan]; pose proof Hdir as [Ht Hw Hsz]; pose proof (wh_size _ _ Hw) as Hs;
    rewrite (bind_ret _ _ _ _ _ (getinode_ret _ _ _ Hd)).
  { rewrite (proj2 (Z.ltb_ge _ _)) by (rewrite Hlen in *; Z.div_mod_to_equations; lia).
    rewrite drop_ge by lia. exists s. split; [done|by apply reads_refl]. }
  destruct (Z.ltb_spec (16 * Z.of_nat j) (i_size d)) as [Hlt|Hge].
  2: { rewrite drop_ge by (rewrite Hlen; Z.div_mod_to_equations; lia). exists s. split; [done|by apply reads_refl]. }
  assert (Hj' : (j < Z.to_nat (i_size d / 16))%nat) by (Z.div_mod_to_equations; lia).
  assert (E : entries s d !! j = Some (lget (16 * Z.of_nat j) 16 (file_data s d))).
  { unfold entries. rewrite list_lookup_fmap, lookup_seq_lt by lia. done. }
  change (MAXFILE * BSIZE) with 71680 in Hs.
  pose proof (readi_ret Hfuel i p s dp d (16 * Z.of_nat j) 16 Hr Hd ltac:(rewrite Ht; done) Hw ltac:(lia) ltac:(lia)) as R.
  rewrite (proj2 (Z.ltb_ge _ _)), (proj2 (Z.leb_gt _ _)) in R by lia. cbn [orb] in R.
  rewrite Z.min_l in R by (Z.div_mod_to_equations; lia). destruct R as (s1 & R & V).
  change sizeof_dirent with 16. rewrite (bind_ret _ _ _ _ _ R), Z.eqb_refl. cbn [negb].
  rewrite (drop_S _ _ _ E). cbn [scan]. destruct (found _) eqn:Ef; [by exists s1|].
  destruct (IH s1 (S j)) as (s2 & L & V2); [apply V|by rewrite (reads_inodes _ _ _ _ V)| |rewrite (entries_reads _ _ _ _ _ V Hw); lia|
    rewrite (entries_reads _ _ _ _ _ V Hw), Hlen; lia|].
  { split; [done|by eapply whole_reads|done]. }
  exists s2. rewrite (entries_reads _ _ _ _ _ V Hw) in L. split; [|by eapply reads_trans]. rewrite <- L. f_equal. lia.
Qed.
End scan.
