(* ===== verification/PathFacts.v ===== *)
(** * Looking up paths

    The inode cache next to the inodes on the disk, and what [iget], [ilock],
    [iunlock], [iput], [dirlookup] and [namex] do to it, for a process that is
    alone in the file system. *)

From S2P Require Import Prelude State Monad Mem Spinlock Sample ConsoleOut Kalloc Vm Sched SleepWake Sleeplock.
From S2P Require Import Bio BioFacts Cache Log LogFacts Writes LogSpec Inode LogOps Console Fs FsFacts FileFacts.

(** ** The inode cache *)

(** What a file operation that writes nothing does to the state: only the inode
    table, the order of the buffers and the states of sleeping processes
    change. *)
Record looks (i : nat) (p : proc) (s s' : kernel) : Prop := {
  lk_ready : ready s' i p;
  lk_frame : io_frame (s <| k_inodes := k_inodes s' |>) s';
  lk_writes : k_writes s' = k_writes s;
  lk_content : forall d n, (d, n) <> (0, 0) -> content s' d n = content s d n
}.

Lemma looks_reads i p s s' : reads i p s s' -> looks i p s s'.
Proof.
  intros [H1 H2 H3 H4]. split; [done| |done|done]. unfold io_frame in *. rewrite H2 at 1. rewrite H2. by destruct s.
Qed.

Lemma looks_refl i p s : ready s i p -> looks i p s s.
Proof. intros H. by apply looks_reads, reads_refl. Qed.

Lemma looks_trans i p s1 s2 s3 : looks i p s1 s2 -> looks i p s2 s3 -> looks i p s1 s3.
Proof.
  intros [_ F1 W1 C1] [R2 F2 W2 C2]. split; [done| |congruence|].
  - unfold io_frame in *. rewrite F2, F1. by destruct s1.
  - intros d n H. by rewrite C2, C1.
Qed.

Lemma looks_inodes i p s x : ready s i p -> looks i p s (s <| k_inodes := x |>).
Proof. intros H. split; [by apply ready_inodes|by destruct s|done|done]. Qed.

Lemma looks_sb i p s s' : looks i p s s' -> k_sb s' = k_sb s.
Proof. intros [_ E _ _]. by rewrite E. Qed.

(** The references to inode [n] of device [d]. *)
Definition refs (s : kernel) (d n : Z) : Z :=
  match list_find (cached_inode d n) (k_inodes s) with Some (_, ino) => i_ref ino | None => 0 end.

(** The inode as the disk has it: the cached copy [j] filled from its block. *)
Definition from_disk (s : kernel) (j : inode) : inode :=
  dec_dinode (dinode_off (i_inum j)) (content s (i_dev j) (IBLOCK (i_inum j) (k_sb s))) j.

Definition ivalid (ino : inode) : bool := negb (Z.land (i_flags ino) I_VALID =? 0).

Record icache_ok (s : kernel) : Prop := {
  ic_len : length (k_inodes s) = NINODE;
  ic_ref : forall a ia, k_inodes s !! a = Some ia -> 0 <= i_ref ia;
  ic_uniq : forall a b ia ib, k_inodes s !! a = Some ia -> k_inodes s !! b = Some ib -> 0 < i_ref ia -> 0 < i_ref ib ->
    i_dev ia = i_dev ib -> i_inum ia = i_inum ib -> a = b;
  ic_valid : forall a ia, k_inodes s !! a = Some ia -> 0 < i_ref ia -> ivalid ia = true ->
    ia = from_disk s ia /\ IBLOCK (i_inum ia) (k_sb s) <> 0
}.

(** All inodes but that in slot [h] are unlocked. *)
Definition unlocked_but (h : option nat) (s : kernel) : Prop :=
  forall a ia, k_inodes s !! a = Some ia -> h <> Some a -> sl_locked (i_lock ia) = 0.

Lemma refs_found s a ia d n : icache_ok s -> k_inodes s !! a = Some ia -> cached_inode d n ia -> refs s d n = i_ref ia.
Proof.
  intros Hok Ha Hc. unfold refs. destruct (list_find _ _) as [[b ib]|] eqn:E.
  - apply list_find_Some in E as (Hb & [Hb1 [Hb2 Hb3]] & _). destruct Hc as (Hc1 & Hc2 & Hc3).
    assert (a = b) as -> by (eapply (ic_uniq _ Hok); [exact Ha|exact Hb|done|done|congruence|congruence]). congruence.
  - apply list_find_None in E. rewrite Forall_lookup in E. by destruct (E a ia Ha).
Qed.

Lemma refs_none s d n : (forall a ia, k_inodes s !! a = Some ia -> ~ cached_inode d n ia) -> refs s d n = 0.
Proof.
  intros H. unfold refs. destruct (list_find _ _) as [[b ib]|] eqn:E; [|done]. apply list_find_Some in E as (Hb & Hc & _). by destruct (H b ib Hb).
Qed.

Lemma refs_cases s d n : icache_ok s ->
  (exists a ia, k_inodes s !! a = Some ia /\ cached_inode d n ia /\ refs s d n = i_ref ia) \/
  ((forall a ia, k_inodes s !! a = Some ia -> ~ cached_inode d n ia) /\ refs s d n = 0).
Proof.
  intros Hok. unfold refs. destruct (list_find _ _) as [[b ib]|] eqn:E.
  - apply list_find_Some in E as (Hb & Hc & _). left. eauto.
  - apply list_find_None in E. rewrite Forall_lookup in E. by right.
Qed.

(** Replacing the inode of one slot: how the references change. *)
Definition refs_with (ino : inode) (d n : Z) : Z := if bool_decide (cached_inode d n ino) then i_ref ino else 0.

Lemma refs_with_eq ino d n : refs_with ino d n = if decide ((d, n) = (i_dev ino, i_inum ino)) then Z.max 0 (i_ref ino) else 0.
Proof.
  unfold refs_with, cached_inode. case_bool_decide as Hb; case_decide as Hd; try lia.
  - exfalso. apply Hd. destruct Hb as (_ & -> & ->). done.
  - injection Hd as -> ->. assert (~ 0 < i_ref ino) by tauto. lia.
Qed.

Lemma refs_put s x a ia ia' d n : icache_ok s -> icache_ok (s <| k_inodes := x |>) -> k_inodes s !! a = Some ia -> x = <[a := ia']> (k_inodes s) ->
  refs (s <| k_inodes := x |>) d n = refs s d n - refs_with ia d n + refs_with ia' d n.
Proof.
  intros Hok Hok' Ha Ex. assert (Ha' : x !! a = Some ia') by (rewrite Ex; apply list_lookup_insert_eq; by eapply lookup_lt_Some).
  assert (Hne : forall b, b <> a -> x !! b = k_inodes s !! b) by (intros; rewrite Ex; by apply list_lookup_insert_ne).
  unfold refs_with. destruct (bool_decide_reflect (cached_inode d n ia)) as [Hc|Hc].
  - rewrite (refs_found s a ia d n Hok Ha Hc). case_bool_decide as Hc'; [rewrite (refs_found _ a ia' d n Hok' Ha' Hc'); lia|].
    rewrite refs_none; [lia|]. intros b ib Hb Hcb. cbn in Hb. destruct (decide (b = a)) as [->|Hba]; [congruence|].
    rewrite Hne in Hb by done. apply Hba. destruct Hc as (? & ? & ?), Hcb as (? & ? & ?).
    eapply (ic_uniq _ Hok); [exact Hb|exact Ha|done|done|congruence|congruence].
  - case_bool_decide as Hc'.
    + rewrite (refs_found _ a ia' d n Hok' Ha' Hc'). rewrite refs_none; [lia|]. intros b ib Hb Hcb.
      destruct (decide (b = a)) as [->|Hba]; [congruence|]. rewrite <- Hne in Hb by done. apply Hba. destruct Hc' as (? & ? & ?), Hcb as (? & ? & ?).
      eapply (ic_uniq _ Hok'); [exact Hb|exact Ha'|done|done|congruence|congruence].
    + destruct (refs_cases s d n Hok) as [(b & ib & Hb & Hcb & ->)|[Hno ->]].
      * assert (b <> a) by congruence. rewrite (refs_found _ b ib d n Hok'); [lia|cbn; by rewrite Hne|done].
      * rewrite refs_none; [lia|]. intros b ib Hb. cbn in Hb. destruct (decide (b = a)) as [->|Hba]; [congruence|]. rewrite Hne in Hb by done. eauto.
Qed.

Definition put_inode (a : nat) (ino : inode) (s : kernel) : kernel := s <| k_inodes := <[a := ino]> (k_inodes s) |>.

Lemma on_inode_put a f s ino : k_inodes s !! a = Some ino -> on_inode a f s = put_inode a (f ino) s.
Proof. intros H. unfold on_inode, put_inode. by rewrite (list_alter_insert _ _ _ _ H). Qed.

Lemma put_inode_lookup a ino s ino0 : k_inodes s !! a = Some ino0 -> k_inodes (put_inode a ino s) !! a = Some ino.
Proof. intros H. cbn. apply list_lookup_insert_eq. by eapply lookup_lt_Some. Qed.

Lemma put_inode_ne a b ino s : a <> b -> k_inodes (put_inode a ino s) !! b = k_inodes s !! b.
Proof. intros H. cbn. by apply list_lookup_insert_ne. Qed.

Lemma put_inode_put a x y s : put_inode a y (put_inode a x s) = put_inode a y s.
Proof. unfold put_inode. cbn. by rewrite list_insert_insert_eq. Qed.

Lemma updinode_ret a f s ino : k_inodes s !! a = Some ino -> updinode a f s = Ret tt (put_inode a (f ino) s).
Proof. intros H. unfold updinode. rewrite (bind_ret _ _ _ _ _ (getinode_ret _ _ _ H)). unfold modify. by rewrite (on_inode_put _ _ _ _ H). Qed.

Lemma icache_put s a ia ia' : icache_ok s -> k_inodes s !! a = Some ia -> 0 <= i_ref ia' ->
  (0 < i_ref ia' -> forall b ib, b <> a -> k_inodes s !! b = Some ib -> ~ cached_inode (i_dev ia') (i_inum ia') ib) ->
  (0 < i_ref ia' -> ivalid ia' = true -> ia' = from_disk s ia' /\ IBLOCK (i_inum ia') (k_sb s) <> 0) ->
  icache_ok (put_inode a ia' s).
Proof.
  intros [H1 H2 H3 H4] Ha Hr Hu Hv. pose proof (put_inode_lookup a ia' s ia Ha) as Ha'.
  assert (Hb : forall b ib, k_inodes (put_inode a ia' s) !! b = Some ib -> (b = a /\ ib = ia') \/ (b <> a /\ k_inodes s !! b = Some ib)).
  { intros b ib Hb. destruct (decide (b = a)) as [->|Hne]; [left; split; congruence|right]. by rewrite put_inode_ne in Hb by done. }
  split.
  - cbn. by rewrite length_insert.
  - intros b ib [[-> ->]|[_ H]]%Hb; eauto.
  - intros b c ib ic [[-> ->]|[Hne H]]%Hb [[-> ->]|[Hne' H']]%Hb R1 R2 E1 E2; [done| | |eauto]; exfalso.
    + by apply (Hu R1 c ic Hne' H').
    + by apply (Hu R2 b ib Hne H).
  - intros b ib [[-> ->]|[_ H]]%Hb R1 Hvv; [by apply Hv|by eapply (H4 b ib)].
Qed.

(** A slot that keeps its inode. *)
Lemma icache_same s a ia ia' : icache_ok s -> k_inodes s !! a = Some ia -> 0 < i_ref ia -> 0 <= i_ref ia' ->
  i_dev ia' = i_dev ia -> i_inum ia' = i_inum ia ->
  (0 < i_ref ia' -> ivalid ia' = true -> ia' = from_disk s ia' /\ IBLOCK (i_inum ia') (k_sb s) <> 0) ->
  icache_ok (put_inode a ia' s).
Proof.
  intros Hok Ha R R' E1 E2 Hv. eapply icache_put; [done|done|done| |done].
  intros _ b ib Hne Hb (R1 & E3 & E4). apply Hne. eapply (ic_uniq _ Hok); [exact Hb|exact Ha|done|done|congruence|congruence].
Qed.

Lemma from_disk_content s s' j : (forall d n, (d, n) <> (0, 0) -> content s' d n = content s d n) -> k_sb s' = k_sb s ->
  IBLOCK (i_inum j) (k_sb s) <> 0 -> from_disk s' j = from_disk s j.
Proof. intros Hc Hs Hb. unfold from_disk. rewrite Hs, Hc by congruence. done. Qed.

Lemma icache_reads i p s s' : icache_ok s -> reads i p s s' -> icache_ok s'.
Proof.
  intros [H1 H2 H3 H4] Hr. pose proof (reads_inodes _ _ _ _ Hr) as E. pose proof (reads_sb _ _ _ _ Hr) as Es.
  split; rewrite ?E; [done..|]. intros a ia Ha R V. destruct (H4 a ia Ha R V) as [H5 H6]. rewrite Es. split; [|done].
  rewrite (from_disk_content s s'); [done|apply Hr|done|done].
Qed.

(** A slot that keeps its inode and only changes the number of references. *)
Lemma refs_same s a ia ia' : icache_ok s -> icache_ok (put_inode a ia' s) -> k_inodes s !! a = Some ia -> 0 < i_ref ia -> 0 <= i_ref ia' ->
  i_dev ia' = i_dev ia -> i_inum ia' = i_inum ia ->
  forall d n, refs (put_inode a ia' s) d n = refs s d n + if decide ((d, n) = (i_dev ia, i_inum ia)) then i_ref ia' - i_ref ia else 0.
Proof.
  intros Hok Hok' Ha R R' E1 E2 d n. unfold put_inode. rewrite (refs_put s _ a ia ia' d n Hok Hok' Ha eq_refl), !refs_with_eq, E1, E2. case_decide; lia.
Qed.

(** ** Free slots *)

Definition free_slots (s : kernel) : nat := length (filter (fun ino => i_ref ino = 0) (k_inodes s)).

(** The inodes in use. *)
Definition held (l : list inode) : list (Z * Z) := omap (fun ino => if 0 <? i_ref ino then Some (i_dev ino, i_inum ino) else None) l.

Lemma held_length (l : list inode) : (forall (a : nat) ia, l !! a = Some ia -> 0 <= i_ref ia) ->
  (length (held l) + length (filter (fun ino => i_ref ino = 0%Z) l) = length l)%nat.
Proof.
  induction l as [|ino l IH]; intros H; [done|]. pose proof (H 0%nat ino eq_refl) as H0.
  specialize (IH (fun a ia Ha => H (S a) ia Ha)). unfold held in *. cbn [omap list_omap]. destruct (Z.ltb_spec 0 (i_ref ino)).
  - rewrite filter_cons_False by lia. cbn. lia.
  - rewrite filter_cons_True by lia. cbn. lia.
Qed.

Lemma held_elem s d n : icache_ok s -> (d, n) ∈ held (k_inodes s) <-> 0 < refs s d n.
Proof.
  intros Hok. unfold held. rewrite list_elem_of_omap. split.
  - intros (ino & [a Ha]%list_elem_of_lookup & E). destruct (Z.ltb_spec 0 (i_ref ino)); [|done]. injection E as <- <-.
    by rewrite (refs_found s a ino _ _ Hok Ha).
  - intros H. destruct (refs_cases s d n Hok) as [(a & ia & Ha & (R & E1 & E2) & _)|[_ E]]; [|lia].
    exists ia. split; [by eapply list_elem_of_lookup_2|]. rewrite (proj2 (Z.ltb_lt _ _) R). congruence.
Qed.

Lemma held_nodup (l : list inode) : (forall (a b : nat) ia ib, l !! a = Some ia -> l !! b = Some ib -> 0 < i_ref ia -> 0 < i_ref ib ->
    i_dev ia = i_dev ib -> i_inum ia = i_inum ib -> a = b) -> NoDup (held l).
Proof.
  induction l as [|ino l IH]; intros H; [constructor|]. unfold held in *. cbn [omap list_omap].
  assert (IH' : NoDup (held l)). { apply IH. intros a b ia ib Ha Hb R1 R2 E1 E2. specialize (H (S a) (S b) ia ib Ha Hb R1 R2 E1 E2). lia. }
  destruct (Z.ltb_spec 0 (i_ref ino)); [|done]. constructor; [|done]. rewrite list_elem_of_omap.
  intros (x & [a Ha]%list_elem_of_lookup & E). destruct (Z.ltb_spec 0 (i_ref x)); [|done]. injection E as E1 E2.
  specialize (H 0%nat (S a) ino x eq_refl Ha). discriminate H; lia || congruence.
Qed.

(** With the references of [s] and one more, there is at most one slot less. *)
Lemma free_slots_more s s' d n : icache_ok s -> icache_ok s' ->
  (forall d' n', 0 < refs s' d' n' -> 0 < refs s d' n' \/ (d', n') = (d, n)) -> (free_slots s <= S (free_slots s'))%nat.
Proof.
  intros H H' Hr. pose proof (held_length _ (ic_ref _ H)) as L. pose proof (held_length _ (ic_ref _ H')) as L'.
  rewrite (ic_len _ H) in L. rewrite (ic_len _ H') in L'. unfold free_slots.
  assert (Hs : (length (held (k_inodes s')) <= length ((d, n) :: held (k_inodes s)))%nat).
  { apply submseteq_length, NoDup_submseteq; [apply held_nodup, H'|]. intros [d' n'] Hx%held_elem; [|done].
    destruct (Hr d' n' Hx) as [Hx'| ->]; [|by left]. right. by apply held_elem. }
  cbn [length] in Hs. lia.
Qed.

Lemma free_slot s : (0 < free_slots s)%nat -> exists a ia, list_find (fun ino => i_ref ino = 0) (k_inodes s) = Some (a, ia).
Proof.
  unfold free_slots. destruct (filter _ _) as [|x l] eqn:E; cbn; [lia|]. intros _.
  assert (Hx : x ∈ filter (fun ino => i_ref ino = 0) (k_inodes s)) by (rewrite E; by left). apply list_elem_of_filter in Hx as [Hx Hin].
  destruct (list_find_elem_of (fun ino => i_ref ino = 0) (k_inodes s) x Hin Hx) as [[a ia] H]. by exists a, ia.
Qed.

(** ** Inodes on the disk *)

(** Inode [n] of device [d] as the disk has it, not cached. *)
Definition disk_inode (s : kernel) (d n : Z) : inode :=
  from_disk s (MkInode d n 0 (MkSleeplock 0 "" 0) 0 0 0 0 0 0 []).

Record node_ok {D : BlockDev} (s : kernel) (d n : Z) : Prop := {
  nd_block : IBLOCK n (k_sb s) <> 0;
  nd_ok : blk_ok d (IBLOCK n (k_sb s)) = true;
  nd_type : i_type (disk_inode s d n) <> 0;
  nd_nlink : i_nlink (disk_inode s d n) <> 0;
  nd_whole : whole s (disk_inode s d n)
}.

(** A cached inode with the fields of the disk. *)
Definition agrees (s : kernel) (ino : inode) : Prop :=
  let x := disk_inode s (i_dev ino) (i_inum ino) in
  i_type ino = i_type x /\ i_major ino = i_major x /\ i_minor ino = i_minor x /\ i_nlink ino = i_nlink x /\ same_file x ino.

Lemma from_disk_agrees s ino : ino = from_disk s ino -> agrees s ino.
Proof. intros E. unfold agrees, same_file. rewrite E. done. Qed.

Lemma leave_put_inode lk a ino s : leave_cs s (put_inode a ino (acq lk s)) = put_inode a ino s.
Proof. by destruct s. Qed.

Lemma calm_inodes s i p a ino : calm s i p -> calm (put_inode a ino s) i p.
Proof. intros H. eapply calm_same; [exact H|done|apply H..]. Qed.

Lemma ready_calm s i p : ready s i p -> calm s i p.
Proof. intros [[l H] _]. apply H. Qed.

Section ops.
Context {F : Fuel} {D : BlockDev} {HD : SyncDev D} (Hfuel : (0 < fuel)%nat).
Context (i : nat) (p : proc).

(** The end of a critical section of the inode cache. *)
Lemma release_icache {A} s a ino (k : K A) : calm s i p -> (do! release L_icache; k) (put_inode a ino (acq L_icache s)) = k (put_inode a ino s).
Proof.
  intros Hc. assert (Hfree : lock_free L_icache s) by by apply Hc.
  erewrite bind_ret by (by eapply (release_calm L_icache s)). by rewrite leave_put_inode.
Qed.

(** What [iget] makes of the slot that it takes. *)
Definition regot (ino : inode) : inode := ino <| i_ref := i_ref ino + 1 |>.
Definition fresh_inode (d n : Z) (ino : inode) : inode := ino <| i_dev := d |> <| i_inum := n |> <| i_ref := 1 |> <| i_flags := 0 |>.

Lemma iget_walk s d n : calm s i p ->
  match @list_find _ (cached_inode d n) (cached_inode_dec d n) (k_inodes s), list_find (fun ino => i_ref ino = 0) (k_inodes s) with
  | Some (a, ia), _ => iget d n s = Ret a (put_inode a (regot ia) s)
  | None, Some (a, ia) => iget d n s = Ret a (put_inode a (fresh_inode d n ia) s)
  | None, None => iget d n s = Fault (FPanic "iget: no inodes") (acq L_icache s)
  end.
Proof.
  intros Hc. unfold iget. rewrite (bind_ret _ _ _ _ _ (acquire_calm L_icache s i p Hc ltac:(by apply Hc))).
  erewrite bind_ret by reflexivity. cbv beta. change (k_inodes (acq L_icache s)) with (k_inodes s).
  destruct (@list_find _ (cached_inode d n) (cached_inode_dec d n) (k_inodes s)) as [[a ia]|] eqn:E.
  - apply list_find_Some in E as (Ha & _ & _). erewrite bind_ret by (by eapply updinode_ret). by rewrite release_icache.
  - destruct (list_find (fun ino => i_ref ino = 0) (k_inodes s)) as [[a ia]|] eqn:E'; [|done]. apply list_find_Some in E' as (Ha & _ & _).
    do 4 (erewrite bind_ret by (eapply updinode_ret; first [exact Ha|by eapply put_inode_lookup]); rewrite ?put_inode_put).
    by rewrite release_icache.
Qed.

Lemma iget_ret s d n : ready s i p -> icache_ok s -> (0 < refs s d n \/ (0 < free_slots s)%nat) ->
  exists a old ino, iget d n s = Ret a (put_inode a ino s) /\ k_inodes s !! a = Some old /\ icache_ok (put_inode a ino s) /\
    cached_inode d n ino /\ i_lock ino = i_lock old /\
    ((0 < i_ref old /\ ino = regot old) \/ (i_ref old = 0 /\ ino = fresh_inode d n old)) /\
    forall d' n', refs (put_inode a ino s) d' n' = refs s d' n' + if decide ((d', n') = (d, n)) then 1 else 0.
Proof.
  intros Hr Hok Hfree. pose proof (iget_walk s d n (ready_calm _ _ _ Hr)) as W.
  destruct (@list_find _ (cached_inode d n) (cached_inode_dec d n) (k_inodes s)) as [[a ia]|] eqn:E.
  - apply list_find_Some in E as (Ha & (R & E1 & E2) & _). exists a, ia, (regot ia).
    assert (Hok' : icache_ok (put_inode a (regot ia) s)).
    { eapply (icache_same s a ia); [done|done|done|cbn; lia|done|done|]. intros _ Hv.
      destruct (ic_valid _ Hok a ia Ha R Hv) as [H1 H2]. split; [|exact H2]. change (regot ia = regot (from_disk s ia)). by rewrite <- H1. }
    assert (Hc : cached_inode d n (regot ia)) by (split; [cbn; lia|done]). split_and!; [done..|by left|].
    intros d' n'. unfold put_inode. rewrite (refs_put s _ a ia (regot ia) d' n' Hok Hok' Ha eq_refl), !refs_with_eq. cbn. rewrite E1, E2. case_decide; lia.
  - destruct (list_find (fun ino => i_ref ino = 0) (k_inodes s)) as [[a ia]|] eqn:E'.
    2: { destruct Hfree as [Hp|Hp]; [unfold refs in Hp; rewrite E in Hp; lia|]. destruct (free_slot s Hp) as (a & ia & H). congruence. }
    apply list_find_Some in E' as (Ha & R & _). exists a, ia, (fresh_inode d n ia).
    assert (Hno : forall b ib, k_inodes s !! b = Some ib -> ~ cached_inode d n ib).
    { apply list_find_None in E. rewrite Forall_lookup in E. exact E. }
    assert (Hok' : icache_ok (put_inode a (fresh_inode d n ia) s)).
    { eapply (icache_put s a ia); [done|done|cbn; lia|intros _ b ib _; apply Hno|]. intros _ Hv. cbn in Hv. done. }
    assert (Hc : cached_inode d n (fresh_inode d n ia)) by done. split_and!; [done..|by right|].
    intros d' n'. unfold put_inode. rewrite (refs_put s _ a ia (fresh_inode d n ia) d' n' Hok Hok' Ha eq_refl), !refs_with_eq. cbn. rewrite R.
    repeat case_decide; lia.
Qed.

(** [ilock] of an inode that is in use and not locked. *)
Record locked_at (s s' : kernel) (a : nat) (ia ino : inode) : Prop := {
  la_inodes : k_inodes s' = <[a := ino]> (k_inodes s);
  la_key : i_dev ino = i_dev ia /\ i_inum ino = i_inum ia /\ i_ref ino = i_ref ia;
  la_lock : sl_locked (i_lock ino) = 1;
  la_valid : ivalid ino = true;
  la_disk : ino = from_disk s ino
}.

Lemma ivalid_set ino : ivalid (ino <| i_flags := Z.lor (i_flags ino) I_VALID |>) = true.
Proof.
  unfold ivalid. cbn. change I_VALID with (2 ^ 1). rewrite (land_flag _ 1) by lia. by rewrite Z.lor_spec, orb_true_r.
Qed.

Lemma ilock_ret s a ia : ready s i p -> icache_ok s -> k_inodes s !! a = Some ia -> 0 < i_ref ia -> sl_locked (i_lock ia) = 0 ->
  node_ok s (i_dev ia) (i_inum ia) ->
  exists ino s', ilock (Some a) s = Ret tt s' /\ looks i p s s' /\ locked_at s s' a ia ino.
Proof.
  intros Hr Hok Ha R Hl [N1 N2 N3 _ _]. pose proof (ready_calm _ _ _ Hr) as Hc.
  assert (Hlt : (a < NINODE)%nat) by (rewrite <- (ic_len _ Hok); by eapply lookup_lt_Some).
  unfold ilock. rewrite (bind_ret _ _ _ _ _ (getinode_ret _ _ _ Ha)). rewrite (proj2 (Z.ltb_ge _ _)) by lia.
  set (ia1 := ia <| i_lock := taken (p_pid p) (i_lock ia) |>).
  assert (Hacq : acquiresleep (SL_inode a) s = Ret tt (put_inode a ia1 s)).
  { rewrite (acquiresleep_calm (SL_inode a) s i p (i_lock ia) Hc); [|cbn; by rewrite Ha|by apply Hc|done|done].
    f_equal. cbn [on_sl]. unfold put_inode. by rewrite (list_alter_insert _ _ _ _ Ha). }
  rewrite (bind_ret _ _ _ _ _ Hacq). set (s1 := put_inode a ia1 s) in *.
  assert (Ha1 : k_inodes s1 !! a = Some ia1) by (by eapply put_inode_lookup).
  assert (Hr1 : ready s1 i p) by by apply ready_inodes. rewrite (bind_ret _ _ _ _ _ (getinode_ret _ _ _ Ha1)).
  destruct (Z.land (i_flags ia1) I_VALID =? 0) eqn:Ev; unfold when.
  2: { exists ia1, s1. assert (Hv : ivalid ia = true) by (unfold ivalid; change (i_flags ia) with (i_flags ia1); by rewrite Ev).
       split_and!; [done|by apply looks_inodes|]. split; [done|done|done|done|].
       destruct (ic_valid _ Hok a ia Ha R Hv) as [E _]. change (ia1 = (from_disk s ia) <| i_lock := taken (p_pid p) (i_lock ia) |>). by rewrite <- E. }
  erewrite bind_ret by reflexivity. change (k_sb s1) with (k_sb s). change (i_dev ia1) with (i_dev ia). change (i_inum ia1) with (i_inum ia).
  destruct (block_read Hfuel i p s1 (i_dev ia) (IBLOCK (i_inum ia) (k_sb s)) Hr1 N1 N2) as (b & sb1 & R1 & R2 & Ei & R3).
  change (content s1 (i_dev ia) (IBLOCK (i_inum ia) (k_sb s))) with (content s (i_dev ia) (IBLOCK (i_inum ia) (k_sb s))) in R2.
  rewrite (bind_ret _ _ _ _ _ R1), (bind_ret _ _ _ _ _ R2).
  assert (Hb : k_inodes sb1 !! a = Some ia1) by (by rewrite Ei).
  erewrite bind_ret by (by eapply updinode_ret). cbv beta. set (ia2 := dec_dinode _ _ ia1).
  assert (E2 : ia2 = from_disk s ia1) by done. clearbody ia2.
  destruct (R3 (<[a := ia2]> (k_inodes sb1))) as (s2 & R4 & V). unfold put_inode. rewrite (bind_ret _ _ _ _ _ R4).
  pose proof (reads_inodes _ _ _ _ V) as Ei2. cbn in Ei2. rewrite Ei in Ei2. cbn in Ei2. rewrite list_insert_insert_eq in Ei2.
  assert (Ha2 : k_inodes s2 !! a = Some ia2) by (rewrite Ei2; apply list_lookup_insert_eq; by eapply lookup_lt_Some).
  set (ia3 := ia2 <| i_flags := Z.lor (i_flags ia2) I_VALID |>).
  erewrite bind_ret by (by eapply updinode_ret). cbv beta. fold ia3.
  rewrite (bind_ret _ _ _ _ _ (getinode_ret _ _ _ (put_inode_lookup a ia3 s2 ia2 Ha2))).
  assert (E3 : ia3 = from_disk s ia3) by (unfold ia3; rewrite E2; done).
  assert (Ht : i_type ia3 <> 0) by (rewrite E3; unfold ia3; rewrite E2; exact N3). rewrite (proj2 (Z.eqb_neq _ _) Ht).
  exists ia3, (put_inode a ia3 s2). split_and!; [done| |].
  - eapply looks_trans; [apply (looks_inodes i p s (<[a := ia2]> (k_inodes sb1)) Hr)|]. eapply looks_trans; [|by apply looks_inodes, V].
    apply looks_reads. exact V.
  - split; [cbn; by rewrite Ei2, list_insert_insert_eq| | |apply ivalid_set|done]; unfold ia3; rewrite E2; done.
Qed.

(** [iunlock] wakes the processes that wait for the inode. *)
Definition unlocked_inode (ino : inode) : inode := ino <| i_lock := dropped (i_lock ino) |>.

Lemma ready_woken s ch x : ready s i p -> ready (s <| k_inodes := x |> <| k_procs := wake (k_ticks s) ch <$> k_procs s |>) i p.
Proof.
  intros [[l [Hc Hi Hid]] Hs]. split; [|done]. exists l. split; [|by apply (cache_inv_ext l s)|done].
  eapply calm_same; [exact Hc|done| |apply Hc]. apply wake_lookup; apply Hc.
Qed.

Lemma iunlock_ret s a ino : ready s i p -> icache_ok s -> k_inodes s !! a = Some ino -> 0 < i_ref ino -> sl_locked (i_lock ino) = 1 ->
  exists s', iunlock (Some a) s = Ret tt s' /\ looks i p s s' /\ k_inodes s' = <[a := unlocked_inode ino]> (k_inodes s).
Proof.
  intros Hr Hok Ha R Hl. pose proof (ready_calm _ _ _ Hr) as Hc.
  assert (Hlt : (a < NINODE)%nat) by (rewrite <- (ic_len _ Hok); by eapply lookup_lt_Some).
  assert (Hs : slookup (SL_inode a) s = Some (i_lock ino)) by (cbn; by rewrite Ha).
  assert (Hf : lock_free (sl_spin (SL_inode a)) s) by (by apply Hc).
  unfold iunlock. rewrite (bind_ret _ _ _ _ _ (holdingsleep_calm (SL_inode a) s i p _ Hc Hs Hf)), Hl. cbn [negb Z.eqb].
  rewrite (bind_ret _ _ _ _ _ (getinode_ret _ _ _ Ha)), (proj2 (Z.ltb_ge _ _)) by lia.
  exists (drop_sl (SL_inode a) s). split; [exact (releasesleep_calm (SL_inode a) s i p _ Hc Hs Hf)|].
  assert (E : alter (fun ip : inode => ip <| i_lock := dropped (i_lock ip) |>) a (k_inodes s) = <[a := unlocked_inode ino]> (k_inodes s))
    by (by apply list_alter_insert).
  unfold drop_sl. cbn [on_sl]. rewrite E. split; [|done]. split; [by apply ready_woken|by destruct s|done|done].
Qed.

(** [iput] of an inode that has a name: one reference less. *)
Definition putdown (ino : inode) : inode := ino <| i_ref := i_ref ino - 1 |>.

Lemma iput_ret s a ino : ready s i p -> k_inodes s !! a = Some ino -> (i_ref ino <> 1 \/ ivalid ino = false \/ i_nlink ino <> 0) ->
  iput a s = Ret tt (put_inode a (putdown ino) s).
Proof.
  intros Hr Ha Hn. pose proof (ready_calm _ _ _ Hr) as Hc. unfold iput.
  rewrite (bind_ret _ _ _ _ _ (acquire_calm L_icache s i p Hc ltac:(by apply Hc))).
  assert (Ha' : k_inodes (acq L_icache s) !! a = Some ino) by done. rewrite (bind_ret _ _ _ _ _ (getinode_ret _ _ _ Ha')).
  assert (E : (i_ref ino =? 1) && negb (Z.land (i_flags ino) I_VALID =? 0) && (i_nlink ino =? 0) = false).
  { fold (ivalid ino). destruct Hn as [Hn|[->|Hn]]; [by rewrite (proj2 (Z.eqb_neq _ _) Hn)|by rewrite andb_false_r|].
    by rewrite (proj2 (Z.eqb_neq _ _) Hn), andb_false_r. }
  rewrite E. unfold when. erewrite bind_ret by reflexivity. erewrite bind_ret by (by eapply updinode_ret).
  assert (Hfree : lock_free L_icache s) by by apply Hc. rewrite (release_calm L_icache s _ i p Hc Hfree) by done. by rewrite leave_put_inode.
Qed.

(** [dirlookup] in a directory that is locked: the first entry with the name. *)
Definition entry_named (name de : list Z) : bool := negb (de_inum de =? 0) && (namecmp name (de_name de) =? 0).

Lemma dirlookup_ret s a dir name : ready s i p -> icache_ok s -> k_inodes s !! a = Some dir -> directory s dir ->
  match list_find (fun de => entry_named name de = true) (entries s dir) with
  | None => exists s', dirlookup a name s = Ret None s' /\ reads i p s s'
  | Some (k, de) => (0 < refs s (i_dev dir) (de_inum de) \/ (0 < free_slots s)%nat) ->
      exists c old ino s1, dirlookup a name s = Ret (Some (c, 16 * Z.of_nat k)) (put_inode c ino s1) /\ reads i p s s1 /\
        k_inodes s !! c = Some old /\ icache_ok (put_inode c ino s1) /\ cached_inode (i_dev dir) (de_inum de) ino /\ i_lock ino = i_lock old /\
        ((0 < i_ref old /\ ino = regot old) \/ (i_ref old = 0 /\ ino = fresh_inode (i_dev dir) (de_inum de) old)) /\
        forall d' n', refs (put_inode c ino s1) d' n' = refs s d' n' + if decide ((d', n') = (i_dev dir, de_inum de)) then 1 else 0
  end.
Proof.
  intros Hr Hok Ha Hd. unfold dirlookup. rewrite (bind_ret _ _ _ _ _ (getinode_ret _ _ _ Ha)), (dr_type _ _ Hd), Z.eqb_refl. cbn [negb].
  pose proof (wh_size _ _ (dr_whole _ _ Hd)) as Hs.
  destruct (dirscan_ret Hfuel i p a dir (entry_named name) (dirents dir) s 0 Hr Ha Hd) as (s1 & R & V);
    [unfold entries, dirents; rewrite length_map, length_seq; change sizeof_dirent with 16; lia|lia|].
  rewrite scan_find, drop_0 in R. cbn [Nat.add] in R. change (16 * Z.of_nat 0) with 0 in R. fold (entry_named name).
  destruct (list_find _ (entries s dir)) as [[k de]|]; rewrite (bind_ret _ _ _ _ _ R); [|exists s1; split; [reflexivity|exact V]]. intros Hfree.
  pose proof (reads_inodes _ _ _ _ V) as Ei. assert (Ha1 : k_inodes s1 !! a = Some dir) by by rewrite Ei.
  rewrite (bind_ret _ _ _ _ _ (getinode_ret _ _ _ Ha1)).
  assert (Er : forall d' n', refs s1 d' n' = refs s d' n') by (intros; unfold refs; by rewrite Ei).
  destruct (iget_ret s1 (i_dev dir) (de_inum de)) as (c & old & ino & G1 & G2 & G3 & G4 & G5 & G6 & G7);
    [apply V|by eapply icache_reads|unfold free_slots in *; rewrite Er, Ei; exact Hfree|].
  exists c, old, ino, s1. rewrite (bind_ret _ _ _ _ _ G1). split_and!; try done; [by rewrite <- Ei|]. intros d' n'. by rewrite G7, Er.
Qed.

Lemma looks_as_reads s s' : looks i p s s' -> reads i p (s <| k_inodes := k_inodes s' |>) s'.
Proof. intros [H1 H2 H3 H4]. by split. Qed.

Lemma icache_looks s s' : looks i p s s' -> icache_ok (s <| k_inodes := k_inodes s' |>) -> icache_ok s'.
Proof. intros H Hok. eapply icache_reads; [exact Hok|by apply looks_as_reads]. Qed.

Lemma iunlockput_ret s a ino : ready s i p -> icache_ok s -> k_inodes s !! a = Some ino -> 0 < i_ref ino -> sl_locked (i_lock ino) = 1 ->
  i_nlink ino <> 0 ->
  exists s', iunlockput a s = Ret tt s' /\ looks i p s s' /\ k_inodes s' = <[a := putdown (unlocked_inode ino)]> (k_inodes s) /\ icache_ok s' /\
    forall d n, refs s' d n = refs s d n - if decide ((d, n) = (i_dev ino, i_inum ino)) then 1 else 0.
Proof.
  intros Hr Hok Ha R Hl Hn. destruct (iunlock_ret s a ino Hr Hok Ha R Hl) as (s1 & U & V & E1).
  assert (Ha1 : k_inodes s1 !! a = Some (unlocked_inode ino)) by (rewrite E1; apply list_lookup_insert_eq; by eapply lookup_lt_Some).
  pose proof (iput_ret s1 a _ (lk_ready _ _ _ _ V) Ha1 ltac:(right; right; exact Hn)) as P.
  exists (put_inode a (putdown (unlocked_inode ino)) s1). unfold iunlockput. rewrite (bind_ret _ _ _ _ _ U).
  set (x := putdown (unlocked_inode ino)) in *. assert (Ei : k_inodes (put_inode a x s1) = <[a := x]> (k_inodes s)) by (cbn; by rewrite E1, list_insert_insert_eq).
  assert (Hokx : icache_ok (put_inode a x s)).
  { eapply (icache_same s a ino); [done|done|done|cbn; lia|done|done|]. intros _ Hv. destruct (ic_valid _ Hok a ino Ha R Hv) as [E B]. split; [|exact B].
    change (x = putdown (unlocked_inode (from_disk s ino))). by rewrite <- E. }
  assert (V' : looks i p s (put_inode a x s1)) by (eapply looks_trans; [exact V|by apply looks_inodes, V]).
  split_and!; [exact P|done|done| |].
  - eapply icache_looks; [exact V'|]. rewrite Ei. exact Hokx.
  - intros d n. transitivity (refs (put_inode a x s) d n); [unfold refs; by rewrite Ei|].
    rewrite (refs_same s a ino x Hok Hokx Ha R) by (done || (cbn; lia)). cbn. case_decide; lia.
Qed.
End ops.

(** ** The tree of directories *)

(** The entry [de] has the name [e], cut to [DIRSIZ] characters. *)
Definition is_named (e de : list Z) : bool :=
  negb (de_inum de =? 0) && bool_decide (until_nul (take (Z.to_nat DIRSIZ) (de_name de)) = take (Z.to_nat DIRSIZ) e).

Definition lookup_name (s : kernel) (d n : Z) (e : list Z) : option Z :=
  match list_find (fun de => is_named e de = true) (entries s (disk_inode s d n)) with
  | Some (_, de) => Some (de_inum de)
  | None => None
  end.

(** The inode that the names [es] lead to from inode [n]. *)
Fixpoint walk (s : kernel) (d n : Z) (es : list (list Z)) : option Z :=
  match es with
  | [] => Some n
  | e :: es' =>
      if i_type (disk_inode s d n) =? T_DIR then
        match lookup_name s d n e with
        | Some n' => walk s d n' es'
        | None => None
        end
      else None
  end.

(** The inodes of [G] are there, and the directories among them have entries
    for inodes of [G] only. *)
Definition tree {D : BlockDev} (s : kernel) (d : Z) (G : Z -> Prop) : Prop := forall n, G n ->
  node_ok s d n /\
  (i_type (disk_inode s d n) = T_DIR ->
    directory s (disk_inode s d n) /\ Forall name_bytes (entries s (disk_inode s d n)) /\
    Forall (fun de => de_inum de <> 0 -> G (de_inum de)) (entries s (disk_inode s d n))).

Lemma entries_same s x y : same_file x y -> entries s y = entries s x.
Proof.
  intros Hs. pose proof Hs as (E1 & E2 & E3). unfold entries. rewrite E2. apply map_ext. intros k. f_equal.
  unfold file_data, file_bytes. rewrite E2. apply map_ext. intros o. unfold file_byte. by rewrite (block_of_same s x y _ Hs), E1.
Qed.

Lemma file_data_same s x y : same_file x y -> file_data s y = file_data s x.
Proof.
  intros H. pose proof H as (E1 & E2 & E3). unfold file_data, file_bytes. rewrite E2. apply map_ext. intros z.
  unfold file_byte. by rewrite (block_of_same _ _ _ _ H), E1.
Qed.

Lemma mapped_same {D : BlockDev} s x y f : same_file x y -> mapped s x f -> mapped s y f.
Proof.
  intros Hs [H1 H2 H3]. pose proof Hs as (E1 & _ & E3). split; rewrite ?(block_of_same s x y f Hs), ?E1; [done|done|].
  intros Hf. unfold iaddr. rewrite E3. by apply H3.
Qed.

Lemma directory_same {D : BlockDev} s x y : same_file x y -> i_type y = i_type x -> directory s x -> directory s y.
Proof.
  intros Hs Ht [H1 [H2 H3] H4]. pose proof Hs as (_ & E2 & _). split; [congruence| |by rewrite E2].
  split; [by rewrite E2|]. rewrite E2. intros f F1 F2. eapply mapped_same; [done|by apply H3].
Qed.

Section looks.
Context {D : BlockDev} (i : nat) (p : proc) (s s' : kernel) (Hv : looks i p s s').

Lemma disk_inode_looks d n : IBLOCK n (k_sb s) <> 0 -> disk_inode s' d n = disk_inode s d n.
Proof. intros Hb. apply from_disk_content; [apply Hv|by eapply looks_sb|done]. Qed.

Lemma whole_looks x : whole s x -> whole s' x.
Proof.
  intros [H1 H2]. apply (whole_reads i p (s <| k_inodes := k_inodes s' |>)); [by apply looks_as_reads|].
  split; [done|]. intros f F1 F2. destruct (H2 f F1 F2). by split.
Qed.

Lemma entries_looks x : whole s x -> entries s' x = entries s x.
Proof.
  intros [H1 H2]. rewrite (entries_reads i p (s <| k_inodes := k_inodes s' |>) s'); [done|by apply looks_as_reads|].
  split; [done|]. intros f F1 F2. destruct (H2 f F1 F2). by split.
Qed.

Lemma file_data_looks x : whole s x -> file_data s' x = file_data s x.
Proof.
  intros Hw. pose proof (wh_size _ _ Hw) as Hs. unfold file_data.
  rewrite (file_bytes_reads i p (s <| k_inodes := k_inodes s' |>) s'); [done|by apply looks_as_reads| |lia|lia].
  destruct Hw as [H1 H2]. split; [done|]. intros f F1 F2. destruct (H2 f F1 F2). by split.
Qed.

Lemma tree_looks d G : tree s d G -> tree s' d G.
Proof.
  intros Ht n Hn. destruct (Ht n Hn) as [[N1 N2 N3 N4 N5] Hd]. rewrite (disk_inode_looks d n N1). split.
  - split; rewrite ?(looks_sb _ _ _ _ Hv), ?(disk_inode_looks d n N1); [done..|by apply whole_looks].
  - intros T. destruct (Hd T) as ([D1 D2 D3] & B & E). rewrite (entries_looks _ N5). split_and!; [|done|done]. split; [done|by apply whole_looks|done].
Qed.

Lemma walk_looks d G es : tree s d G -> forall n, G n -> walk s' d n es = walk s d n es.
Proof.
  intros Ht. induction es as [|e es IH]; intros n Hn; [done|]. cbn [walk]. destruct (Ht n Hn) as [N Hd].
  pose proof (nd_block _ _ _ N) as N1. unfold lookup_name. rewrite (disk_inode_looks d n N1), (entries_looks _ (nd_whole _ _ _ N)).
  destruct (Z.eqb_spec (i_type (disk_inode s d n)) T_DIR) as [T|T]; [|done]. destruct (Hd T) as (_ & _ & E).
  destruct (list_find _ _) as [[k de]|] eqn:Ef; [|done]. apply list_find_Some in Ef as (L & F & _). apply IH.
  rewrite Forall_forall in E. apply E; [by eapply list_elem_of_lookup_2|]. unfold is_named in F. destruct (Z.eqb_spec (de_inum de) 0); [done|done].
Qed.
End looks.

(** The comparison of [dirlookup] is that of names. *)
Lemma entry_named_is e name de : length name = Z.to_nat DIRSIZ -> until_nul name = take (Z.to_nat DIRSIZ) e -> name_bytes name -> name_bytes de ->
  entry_named name de = is_named e de.
Proof.
  intros Hl Hn B1 B2. unfold entry_named, is_named. f_equal. unfold namecmp.
  assert (B3 : Forall (fun c => 0 <= c) (de_name de)) by (by apply Forall_drop).
  pose proof (lstrncmp_0 name (de_name de) (Z.to_nat DIRSIZ) B1 B3) as H. rewrite (take_ge name), Hn in H by lia.
  case_bool_decide as Hb; [apply Z.eqb_eq|apply Z.eqb_neq]; rewrite H; congruence.
Qed.

Lemma list_find_agree {A} (f g : A -> bool) (l : list A) : Forall (fun x => f x = g x) l ->
  list_find (fun x => f x = true) l = list_find (fun x => g x = true) l.
Proof.
  induction 1 as [|x l E _ IH]; [done|]. cbn. rewrite IH. repeat case_decide; [done|congruence|congruence|done].
Qed.

(** ** Path names *)

Definition path_ok (path : list Z) : Prop := Forall (fun c => 0 < c) path.

Lemma name_bytes_lput off bs l : name_bytes bs -> name_bytes l -> name_bytes (lput off bs l).
Proof. intros H1 H2. unfold name_bytes, lput. rewrite !Forall_app. split_and!; [by apply Forall_take|done|by apply Forall_drop]. Qed.

Lemma skipelem_bytes path name rest name' : path_ok path -> name_bytes name -> skipelem path name = Some (rest, name') ->
  path_ok rest /\ name_bytes name'.
Proof.
  intros Hp Hn. unfold skipelem. pose proof (skip_slashes_suffix _ path Hp) as Hs. destruct (skip_slashes path) as [|c q]; [done|].
  pose proof (elem_app (c :: q)) as Happ. destruct (elem (c :: q)) as [e r]. cbn [fst snd] in Happ. rewrite Happ in Hs. apply Forall_app in Hs as [He Hr].
  intros [= <- <-]. split; [by apply skip_slashes_suffix|].
  assert (Hb : name_bytes e) by (eapply Forall_impl; [exact He|]; intros x Hx; cbn in Hx; lia).
  destruct (_ <=? _); [apply name_bytes_lput; [by apply Forall_take|done]|].
  apply name_bytes_lput; [by repeat constructor|by apply name_bytes_lput].
Qed.

Section path.
Context {F : Fuel} {D : BlockDev} {HD : SyncDev D} (Hfuel : (0 < fuel)%nat).
Context (i : nat) (p : proc) (s0 : kernel) (d : Z) (G : Z -> Prop).
Hypothesis (Hok0 : icache_ok s0) (Hfree : (2 <= free_slots s0)%nat) (Htree : tree s0 d G).

(** The process has one reference more than in [s0], to inode [n] in slot [a]. *)
Record at_node (s : kernel) (n : Z) (a : nat) (ino : inode) : Prop := {
  an_looks : looks i p s0 s;
  an_icache : icache_ok s;
  an_unlocked : unlocked_but None s;
  an_slot : k_inodes s !! a = Some ino;
  an_cached : cached_inode d n ino;
  an_refs : forall d' n', refs s d' n' = refs s0 d' n' + if decide ((d', n') = (d, n)) then 1 else 0
}.

(** It is back to the references of [s0]. *)
Record given_up (s : kernel) : Prop := {
  gu_looks : looks i p s0 s;
  gu_icache : icache_ok s;
  gu_unlocked : unlocked_but None s;
  gu_refs : forall d' n', refs s d' n' = refs s0 d' n'
}.

Lemma lock_icache s s' a ia ino : icache_ok s -> k_inodes s !! a = Some ia -> 0 < i_ref ia -> IBLOCK (i_inum ia) (k_sb s) <> 0 ->
  looks i p s s' -> locked_at s s' a ia ino -> icache_ok s' /\ (forall d' n', refs s' d' n' = refs s d' n') /\ k_inodes s' !! a = Some ino.
Proof.
  intros Hok Ha R Hb V [E (K1 & K2 & K3) _ _ Ed].
  assert (Hokx : icache_ok (put_inode a ino s)).
  { eapply (icache_same s a ia); [done|done|done|lia|done|done|]. intros _ _. split; [done|by rewrite K2]. }
  split_and!.
  - eapply icache_looks; [exact V|]. rewrite E. exact Hokx.
  - intros d' n'. transitivity (refs (put_inode a ino s) d' n'); [unfold refs; by rewrite E|].
    rewrite (refs_same s a ia ino Hok Hokx Ha R) by (done || lia). case_decide; lia.
  - rewrite E. apply list_lookup_insert_eq. by eapply lookup_lt_Some.
Qed.

(** There is a slot for one more inode. *)
Lemma room_left s n : icache_ok s -> (forall d' n', refs s d' n' = refs s0 d' n' + if decide ((d', n') = (d, n)) then 1 else 0) ->
  (0 < free_slots s)%nat.
Proof.
  intros Hok Hr. pose proof (free_slots_more s0 s d n Hok0 Hok) as H. destruct (free_slots s) as [|k]; [|lia].
  assert (free_slots s0 <= 1)%nat; [|lia]. apply H. intros d' n' Hp. rewrite Hr in Hp. case_decide as Hd; [by right|left; lia].
Qed.

Lemma unlocked_put h s s' a ino : unlocked_but h s -> k_inodes s' = <[a := ino]> (k_inodes s) -> h = None \/ h = Some a ->
  sl_locked (i_lock ino) = 0 -> unlocked_but None s'.
Proof.
  intros Hu E Hh Hl c ic Hc _. rewrite E in Hc. destruct (decide (c = a)) as [->|Hne].
  - rewrite list_lookup_insert_eq in Hc; [congruence|]. apply lookup_lt_Some in Hc. by rewrite length_insert in Hc.
  - rewrite list_lookup_insert_ne in Hc by done. apply (Hu c ic Hc). destruct Hh as [->| ->]; congruence.
Qed.

(** The inode is locked, and as the disk has it. *)
Record held_at (s : kernel) (n : Z) (a : nat) (ino : inode) : Prop := {
  ha_looks : looks i p s0 s;
  ha_icache : icache_ok s;
  ha_unlocked : unlocked_but (Some a) s;
  ha_slot : k_inodes s !! a = Some ino;
  ha_cached : cached_inode d n ino;
  ha_locked : sl_locked (i_lock ino) = 1;
  ha_type : i_type ino = i_type (disk_inode s0 d n);
  ha_nlink : i_nlink ino = i_nlink (disk_inode s0 d n);
  ha_file : same_file (disk_inode s0 d n) ino;
  ha_refs : forall d' n', refs s d' n' = refs s0 d' n' + if decide ((d', n') = (d, n)) then 1 else 0
}.

Lemma lock_ret s n a ino : at_node s n a ino -> G n -> exists ino1 s1, ilock (Some a) s = Ret tt s1 /\ held_at s1 n a ino1.
Proof.
  intros [V Hok Hu Ha (R & E1 & E2) Hr] Hn. destruct (tree_looks i p s0 s V d G Htree n Hn) as [N _].
  pose proof (nd_block _ _ _ (proj1 (Htree n Hn))) as N1.
  assert (N' : node_ok s (i_dev ino) (i_inum ino)) by (by rewrite E1, E2).
  destruct (ilock_ret Hfuel i p s a ino (lk_ready _ _ _ _ V) Hok Ha R (Hu a ino Ha ltac:(done)) N') as (ino1 & s1 & L & V1 & La).
  destruct (lock_icache s s1 a ino ino1 Hok Ha R (nd_block _ _ _ N') V1 La) as (Hok1 & Hr1 & Ha1).
  destruct La as [Ei (K1 & K2 & K3) Hl _ Ed]. exists ino1, s1. split; [done|].
  pose proof (from_disk_agrees s ino1 Ed) as (A1 & _ & _ & A2 & A3). rewrite K1, K2, E1, E2, (disk_inode_looks i p s0 s V d n N1) in A1, A2, A3.
  split; [by eapply looks_trans|done| |done|split_and!; [lia|congruence|congruence]|done|done|done|done|].
  - intros c ic Hc Hne. rewrite Ei, list_lookup_insert_ne in Hc by congruence. by apply (Hu c ic).
  - intros d' n'. by rewrite Hr1, Hr.
Qed.

Lemma give_up_ret s n a ino : held_at s n a ino -> G n -> exists s', iunlockput a s = Ret tt s' /\ given_up s'.
Proof.
  intros [V Hok Hu Ha (R & E1 & E2) Hl _ Hnl _ Hr] Hn.
  assert (Hn0 : i_nlink ino <> 0) by (rewrite Hnl; apply (proj1 (Htree n Hn))).
  destruct (iunlockput_ret Hfuel i p s a ino (lk_ready _ _ _ _ V) Hok Ha R Hl Hn0) as (s' & U & V' & E & Hok' & Hr').
  exists s'. split; [done|]. split; [by eapply looks_trans|done|by eapply unlocked_put; [exact Hu|exact E|right|]|].
  intros d' n'. rewrite Hr', Hr, E1, E2. case_decide; lia.
Qed.

(** The entries of the locked directory. *)
Lemma held_entries s n a ino e name : held_at s n a ino -> G n -> i_type (disk_inode s0 d n) = T_DIR ->
  length name = Z.to_nat DIRSIZ -> until_nul name = take (Z.to_nat DIRSIZ) e -> name_bytes name ->
  directory s ino /\ entries s ino = entries s0 (disk_inode s0 d n) /\
  list_find (fun de => entry_named name de = true) (entries s ino) = list_find (fun de => is_named e de = true) (entries s0 (disk_inode s0 d n)).
Proof.
  intros [V _ _ _ _ _ Ht _ Hs _] Hn T L1 L2 L3. destruct (Htree n Hn) as [N Hd]. destruct (Hd T) as (_ & B & _).
  destruct (tree_looks i p s0 s V d G Htree n Hn) as [_ Hd']. pose proof (disk_inode_looks i p s0 s V d n (nd_block _ _ _ N)) as Ed.
  rewrite Ed in Hd'. destruct (Hd' T) as (Hdir & _ & _).
  assert (Ee : entries s ino = entries s0 (disk_inode s0 d n)).
  { rewrite (entries_same s _ _ Hs). by rewrite (entries_looks i p s0 s V _ (nd_whole _ _ _ N)). }
  split_and!; [by eapply directory_same|done|]. rewrite Ee. apply list_find_agree. eapply Forall_impl; [exact B|].
  intros de Hde. by apply entry_named_is.
Qed.

(** [dirlookup] finds inode [n'] and the directory is given back. *)
Lemma step_ret s n a ino e name n' : held_at s n a ino -> G n -> i_type (disk_inode s0 d n) = T_DIR ->
  length name = Z.to_nat DIRSIZ -> until_nul name = take (Z.to_nat DIRSIZ) e -> name_bytes name -> lookup_name s0 d n e = Some n' ->
  G n' /\ exists c off s2 ino' s3, dirlookup a name s = Ret (Some (c, off)) s2 /\ iunlockput a s2 = Ret tt s3 /\ at_node s3 n' c ino'.
Proof.
  intros Hh Hn T L1 L2 L3 Hl. destruct (held_entries s n a ino e name Hh Hn T L1 L2 L3) as (Hdir & Ee & Ef).
  pose proof Hh as [V Hok Hu Ha (R & E1 & E2) Hlk _ Hnl _ Hr].
  pose proof (dirlookup_ret Hfuel i p s a ino name (lk_ready _ _ _ _ V) Hok Ha Hdir) as H. rewrite Ef in H. unfold lookup_name in Hl.
  destruct (list_find _ _) as [[k de]|] eqn:El; [|done]. injection Hl as <-. apply list_find_Some in El as (Hk & Hde & _).
  assert (Hg : G (de_inum de)).
  { destruct (proj2 (Htree n Hn) T) as (_ & _ & Hall). rewrite Forall_forall in Hall. apply Hall; [by eapply list_elem_of_lookup_2|].
    unfold is_named in Hde. by destruct (Z.eqb_spec (de_inum de) 0). }
  split; [done|]. destruct H as (c & old & ino2 & s1 & D1 & V1 & Hc & Hok2 & C2 & K2 & Hcase & Hr2).
  { right. by eapply room_left. }
  rewrite E1 in *. set (s2 := put_inode c ino2 s1) in *. pose proof (reads_inodes _ _ _ _ V1) as Ei.
  assert (V2 : looks i p s0 s2).
  { eapply looks_trans; [exact V|]. eapply looks_trans; [by apply looks_reads|]. apply looks_inodes, V1. }
  (* the directory's slot, which is the found inode's if the entry is for the directory itself *)
  assert (Hslot : exists inoA, k_inodes s2 !! a = Some inoA /\ 0 < i_ref inoA /\ i_lock inoA = i_lock ino /\ i_nlink inoA = i_nlink ino /\
            i_dev inoA = i_dev ino /\ i_inum inoA = i_inum ino /\ (c = a -> inoA = ino2 /\ 1 < i_ref inoA)).
  { destruct (decide (c = a)) as [->|Hne].
    - assert (old = ino) as -> by congruence. exists ino2. destruct Hcase as [[_ ->]|[Hz _]]; [|lia].
      split_and!; [by eapply put_inode_lookup; rewrite Ei|cbn; lia|done..|]. intros _. split; [done|cbn; lia].
    - exists ino. split_and!; [unfold s2; by rewrite put_inode_ne, Ei|done..]. }
  destruct Hslot as (inoA & HA & RA & LA & NA & DA & IA & Hsame).
  assert (Hn0 : i_nlink inoA <> 0) by (rewrite NA, Hnl; apply (proj1 (Htree n Hn))).
  destruct (iunlockput_ret Hfuel i p s2 a inoA (lk_ready _ _ _ _ V2) Hok2 HA RA ltac:(by rewrite LA) Hn0) as (s3 & U & V3 & E3 & Hok3 & Hr3).
  assert (Hu2 : unlocked_but (Some a) s2).
  { intros x ix Hx Hne. destruct (decide (x = c)) as [->|Hxc].
    - assert (ix = ino2) as -> by (unfold s2 in Hx; rewrite (put_inode_lookup c ino2 s1 old) in Hx by (by rewrite Ei); congruence).
      rewrite K2. by apply (Hu c old).
    - unfold s2 in Hx. rewrite put_inode_ne, Ei in Hx by done. by apply (Hu x ix). }
  assert (Hc2 : k_inodes s2 !! c = Some ino2) by (eapply put_inode_lookup; by rewrite Ei).
  exists c, (16 * Z.of_nat k), s2, (if decide (c = a) then putdown (unlocked_inode inoA) else ino2), s3. split_and!; [done|done|].
  split; [by eapply looks_trans|done|by eapply unlocked_put; [exact Hu2|exact E3|right|]| | |].
  - rewrite E3. case_decide as Hca; [rewrite Hca; apply list_lookup_insert_eq; by eapply lookup_lt_Some|by rewrite list_lookup_insert_ne].
  - case_decide as Hca; [|done]. destruct (Hsame Hca) as [-> Hr1]. destruct C2 as (_ & C3 & C4). split_and!; [cbn; lia|done|done].
  - intros d' n'. rewrite Hr3, Hr2, Hr, DA, IA, E1, E2. repeat case_decide; lia.
Qed.

Lemma held_reads s s' n a ino : held_at s n a ino -> reads i p s s' -> held_at s' n a ino.
Proof.
  intros [V Hok Hu Ha C L T N S R] Hr. pose proof (reads_inodes _ _ _ _ Hr) as E.
  split; try done; [eapply looks_trans; [exact V|by apply looks_reads]|by eapply icache_reads|unfold unlocked_but; by rewrite E|by rewrite E|].
  intros d' n'. rewrite <- R. unfold refs. by rewrite E.
Qed.

Lemma miss_ret s n a ino e name : held_at s n a ino -> G n -> i_type (disk_inode s0 d n) = T_DIR ->
  length name = Z.to_nat DIRSIZ -> until_nul name = take (Z.to_nat DIRSIZ) e -> name_bytes name -> lookup_name s0 d n e = None ->
  exists s2 s3, dirlookup a name s = Ret None s2 /\ iunlockput a s2 = Ret tt s3 /\ given_up s3.
Proof.
  intros Hh Hn T L1 L2 L3 Hl. destruct (held_entries s n a ino e name Hh Hn T L1 L2 L3) as (Hdir & _ & Ef).
  pose proof (dirlookup_ret Hfuel i p s a ino name (lk_ready _ _ _ _ (ha_looks _ _ _ _ Hh)) (ha_icache _ _ _ _ Hh) (ha_slot _ _ _ _ Hh) Hdir) as H.
  rewrite Ef in H. unfold lookup_name in Hl. destruct (list_find _ _) as [[k de]|]; [done|]. destruct H as (s2 & D1 & V1).
  destruct (give_up_ret s2 n a ino (held_reads _ _ _ _ _ Hh V1) Hn) as (s3 & U & Hg). by exists s2, s3.
Qed.

(** The loop of [namex] follows the names of the path. *)
Lemma namex_loop_ret k : forall s path name n a ino, (length path <= k)%nat -> at_node s n a ino -> G n -> path_ok path ->
  length name = Z.to_nat DIRSIZ -> name_bytes name ->
  match walk s0 d n (elements path) with
  | Some m => exists c ino' name' s', namex_loop k a path false name s = Ret (Some c, name') s' /\ at_node s' m c ino'
  | None => exists name' s', namex_loop k a path false name s = Ret (None, name') s' /\ given_up s'
  end.
Proof.
  induction k as [|k IH]; intros s path name n a ino Hk Hat Hn Hp Hl Hb; cbn [namex_loop];
    assert (Hz : Forall (fun c => c <> 0) path) by (eapply Forall_impl; [exact Hp|]; intros x Hx; cbn in Hx; lia);
    pose proof (skipelem_ret path name Hl Hz) as Hs; destruct (skipelem path name) as [[rest name1]|] eqn:Es.
  { destruct Hs as (_ & _ & _ & Hlen & _). lia. }
  1, 3: rewrite Hs; exists a, ino, name, s; by split.
  destruct Hs as (e & He & _ & Hlen & Hl1 & Hu1). destruct (skipelem_bytes _ _ _ _ Hp Hb Es) as [Hp1 Hb1]. rewrite He. cbn [walk andb].
  destruct (lock_ret s n a ino Hat Hn) as (ino1 & s1 & L & Hh). rewrite (bind_ret _ _ _ _ _ L).
  rewrite (bind_ret _ _ _ _ _ (getinode_ret _ _ _ (ha_slot _ _ _ _ Hh))), (ha_type _ _ _ _ Hh).
  destruct (Z.eqb_spec (i_type (disk_inode s0 d n)) T_DIR) as [T|T]; cbn [negb].
  2: { destruct (give_up_ret s1 n a ino1 Hh Hn) as (s2 & U & Hg). exists name1, s2. by rewrite (bind_ret _ _ _ _ _ U). }
  destruct (lookup_name s0 d n e) as [n'|] eqn:El.
  - destruct (step_ret s1 n a ino1 e name1 n' Hh Hn T Hl1 Hu1 Hb1 El) as (Hn' & c & off & s2 & ino' & s3 & D1 & U & Hat').
    rewrite (bind_ret _ _ _ _ _ D1), (bind_ret _ _ _ _ _ U). apply (IH s3 rest name1 n' c ino'); try done. lia.
  - destruct (miss_ret s1 n a ino1 e name1 Hh Hn T Hl1 Hu1 Hb1 El) as (s2 & s3 & D1 & U & Hg).
    rewrite (bind_ret _ _ _ _ _ D1), (bind_ret _ _ _ _ _ U). by exists name1, s3.
Qed.

(** [namei] of a path from the root. *)
Lemma namei_ret path : ready s0 i p -> unlocked_but None s0 -> d = ROOTDEV -> G ROOTINO -> path_ok path -> head path = Some SLASH ->
  match walk s0 d ROOTINO (elements path) with
  | Some m => exists c ino s', namei path s0 = Ret (Some c) s' /\ at_node s' m c ino
  | None => exists s', namei path s0 = Ret None s' /\ given_up s'
  end.
Proof.
  intros Hr Hu Hd Hg Hp Hh. destruct path as [|ch path]; [done|]. injection Hh as ->.
  destruct (iget_ret Hfuel i p s0 d ROOTINO Hr Hok0) as (a & old & ino & G1 & G2 & G3 & G4 & G5 & _ & G7); [right; lia|].
  assert (Hat : at_node (put_inode a ino s0) ROOTINO a ino).
  { split; [by apply looks_inodes|done| |by eapply put_inode_lookup|done|done].
    eapply unlocked_put; [exact Hu|done|by left|]. rewrite G5. by apply (Hu a old). }
  pose proof (namex_loop_ret (length (SLASH :: path)) _ (SLASH :: path) (replicate (Z.to_nat DIRSIZ) 0) _ a ino (le_n _) Hat Hg Hp) as H.
  specialize (H ltac:(done) ltac:(by apply Forall_replicate)).
  assert (E : namex (SLASH :: path) false (replicate (Z.to_nat DIRSIZ) 0) s0 =
    namex_loop (length (SLASH :: path)) a (SLASH :: path) false (replicate (Z.to_nat DIRSIZ) 0) (put_inode a ino s0)).
  { unfold namex. rewrite Z.eqb_refl, <- Hd. by rewrite (bind_ret _ _ _ _ _ G1). }
  unfold namei. destruct (walk s0 d ROOTINO (elements (SLASH :: path))) as [m|].
  - destruct H as (c & ino' & name' & s' & L & Hs). exists c, ino', s'. rewrite <- E in L. by rewrite (bind_ret _ _ _ _ _ L).
  - destruct H as (name' & s' & L & Hs). exists s'. rewrite <- E in L. by rewrite (bind_ret _ _ _ _ _ L).
Qed.

(** A file that is opened by its path, read in one piece and given back. *)
Definition read_path (path : list Z) (off n : Z) : K (option (Z * list Z)) :=
  let! ip := namei path in
  match ip with
  | None => ret None
  | Some c => do! ilock (Some c); let! r := readi c local off n in do! iunlockput c; ret (Some r)
  end.

Lemma held_whole s n a ino : held_at s n a ino -> G n -> whole s ino /\ file_data s ino = file_data s0 (disk_inode s0 d n).
Proof.
  intros [V _ _ _ _ _ _ _ Hs _] Hn. pose proof (nd_whole _ _ _ (proj1 (Htree n Hn))) as Hw. split.
  - apply (whole_looks i p s0 s V) in Hw as [W1 W2]. pose proof Hs as (_ & E & _). split; [by rewrite E|].
    intros f F1 F2. rewrite E in F2. eapply mapped_same; [exact Hs|by apply W2].
  - by rewrite (file_data_same s _ _ Hs), (file_data_looks i p s0 s V).
Qed.

Lemma walk_in es : forall n m, G n -> walk s0 d n es = Some m -> G m.
Proof.
  induction es as [|e es IH]; intros n m Hn; cbn [walk]; [by intros [= <-]|]. destruct (Z.eqb_spec (i_type (disk_inode s0 d n)) T_DIR) as [T|T]; [|done].
  unfold lookup_name. destruct (list_find _ _) as [[k de]|] eqn:Ef; [|done]. apply IH. apply list_find_Some in Ef as (L & F0 & _).
  destruct (proj2 (Htree n Hn) T) as (_ & _ & E). rewrite Forall_forall in E. apply E; [by eapply list_elem_of_lookup_2|].
  unfold is_named in F0. by destruct (Z.eqb_spec (de_inum de) 0).
Qed.

Lemma read_path_ret path off n : ready s0 i p -> unlocked_but None s0 -> d = ROOTDEV -> G ROOTINO -> path_ok path -> head path = Some SLASH ->
  0 <= off < 2 ^ 32 -> 0 <= n < 2 ^ 32 ->
  match walk s0 d ROOTINO (elements path) with
  | Some m => let x := disk_inode s0 d m in i_type x <> T_DEV -> exists s', given_up s' /\
      read_path path off n s0 = Ret (Some (if (i_size x <? off) || (2 ^ 32 <=? off + n) then (-1, [])
        else let n' := Z.min n (i_size x - off) in (n', lget off n' (file_data s0 x)))) s'
  | None => exists s', read_path path off n s0 = Ret None s' /\ given_up s'
  end.
Proof.
  intros Hr Hu Hd Hg Hp Hh Ho Hn. pose proof (namei_ret path Hr Hu Hd Hg Hp Hh) as H. unfold read_path.
  destruct (walk s0 d ROOTINO (elements path)) as [m|] eqn:Ew.
  2: { destruct H as (s' & E & Hs). exists s'. by rewrite (bind_ret _ _ _ _ _ E). }
  intros Ht. set (x := disk_inode s0 d m) in *. destruct H as (c & ino & s1 & E & Hat). pose proof (walk_in _ _ _ Hg Ew) as Hm.
  destruct (lock_ret s1 m c ino Hat Hm) as (ino1 & s2 & L & Hh2). destruct (held_whole s2 m c ino1 Hh2 Hm) as [Hw Hf].
  assert (Hsz : i_size ino1 = i_size x) by apply (ha_file _ _ _ _ Hh2).
  pose proof (readi_ret Hfuel i p s2 c ino1 off n (lk_ready _ _ _ _ (ha_looks _ _ _ _ Hh2)) (ha_slot _ _ _ _ Hh2)) as R.
  rewrite (ha_type _ _ _ _ Hh2), Hf, Hsz in R. fold x in R. specialize (R Ht Hw Ho Hn).
  rewrite (bind_ret _ _ _ _ _ E), (bind_ret _ _ _ _ _ L). destruct (_ || _).
  - destruct (give_up_ret s2 m c ino1 Hh2 Hm) as (s3 & U & Hs3). exists s3. by rewrite (bind_ret _ _ _ _ _ R), (bind_ret _ _ _ _ _ U).
  - destruct R as (s3 & R & V). destruct (give_up_ret s3 m c ino1 (held_reads _ _ _ _ _ Hh2 V) Hm) as (s4 & U & Hs4).
    exists s4. by rewrite (bind_ret _ _ _ _ _ R), (bind_ret _ _ _ _ _ U).
Qed.
End path.
