(* ===== verification/WriteFacts.v ===== *)
(** * Writing files

    What [balloc], [bmap] and [writei] do inside a transaction, for a process
    that is alone in the file system: the blocks that they take were free, the
    bytes of the file become those written, and no other file changes. *)

From S2P Require Import Prelude State Monad Mem Spinlock Sample ConsoleOut Kalloc Vm Sched SleepWake Sleeplock.
From S2P Require Import Bio BioFacts Cache Log LogFacts Writes LogSpec Inode LogOps Console Fs FsFacts FileFacts PathFacts.

(** The end of an update, with what follows it. *)
Lemma seq3_ret {A} (a b c : K unit) (k : K A) s s' : (do! a; do! b; c) s = Ret tt s' -> (do! a; do! b; do! c; k) s = k s'.
Proof.
  unfold bind. destruct (a s) as [[] s1| |]; cbn [obind]; [|done|done]. destruct (b s1) as [[] s2| |]; cbn [obind]; [|done|done]. by intros ->.
Qed.

Lemma BBLOCK_same b z sb : b / BPB = z / BPB -> BBLOCK b sb = BBLOCK z sb.
Proof. intros E. unfold BBLOCK. by rewrite E. Qed.

Lemma BBLOCK_inj b z sb : 0 <= b < 2 ^ 31 -> 0 <= z < 2 ^ 31 -> BBLOCK b sb = BBLOCK z sb -> b / BPB = z / BPB.
Proof.
  intros Hb Hz. unfold BBLOCK, u32. change BPB with 4096. intros E.
  assert (Hq : 0 <= b / 4096 < 2 ^ 31 /\ 0 <= z / 4096 < 2 ^ 31) by (Z.div_mod_to_equations; lia).
  set (y := b / 4096) in *. set (x := z / 4096) in *. clearbody x y. rewrite (Z.add_comm y), (Z.add_comm x) in E.
  apply (f_equal (fun w => (w - sb_bmapstart sb) mod 2 ^ 32)) in E. rewrite !Zminus_mod_idemp_l in E.
  replace (sb_bmapstart sb + y - sb_bmapstart sb) with y in E by lia. replace (sb_bmapstart sb + x - sb_bmapstart sb) with x in E by lia.
  rewrite !Z.mod_small in E by lia. done.
Qed.

Lemma filter_agree {A} (f g : A -> bool) (l : list A) : (forall y, y ∈ l -> g y = f y) -> filter (fun y => g y = false) l = filter (fun y => f y = false) l.
Proof.
  induction l as [|x l IH]; intros H; [done|]. rewrite !filter_cons, (H x) by (by left). rewrite IH; [done|]. intros y Hy. apply H. by right.
Qed.

Lemma IBLOCK_inj n m sb : 0 <= n < 2 ^ 31 -> 0 <= m < 2 ^ 31 -> IBLOCK n sb = IBLOCK m sb -> n / IPB = m / IPB.
Proof.
  intros Hn Hm. unfold IBLOCK, u32. change IPB with 8. intros E.
  assert (Hq : 0 <= n / 8 < 2 ^ 31 /\ 0 <= m / 8 < 2 ^ 31) by (Z.div_mod_to_equations; lia).
  set (y := n / 8) in *. set (x := m / 8) in *. clearbody x y.
  apply (f_equal (fun w => (w - sb_inodestart sb) mod 2 ^ 32)) in E. rewrite !Zminus_mod_idemp_l in E.
  replace (y + sb_inodestart sb - sb_inodestart sb) with y in E by lia. replace (x + sb_inodestart sb - sb_inodestart sb) with x in E by lia.
  rewrite !Z.mod_small in E by lia. done.
Qed.

(** One element less. *)
Lemma length_filter_drop `{EqDecision A} (f g : A -> bool) (z : A) (l : list A) : NoDup l -> z ∈ l -> f z = false -> g z = true ->
  (forall y, y ∈ l -> y <> z -> g y = f y) -> length (filter (fun y => f y = false) l) = S (length (filter (fun y => g y = false) l)).
Proof.
  induction l as [|x l IH]; intros Hnd Hz Hf Hg Hy; [by apply not_elem_of_nil in Hz|]. apply NoDup_cons in Hnd as [Hx Hnd].
  destruct (decide (x = z)) as [->|Hne].
  - rewrite filter_cons_True, filter_cons_False by congruence. cbn [length]. f_equal. rewrite (filter_agree f g); [done|].
    intros y Hyl. rewrite Hy; [done|by right|]. by intros ->.
  - apply elem_of_cons in Hz as [->|Hz]; [done|]. specialize (IH Hnd Hz Hf Hg (fun y Hyl => Hy y (list_elem_of_further _ _ _ Hyl))).
    rewrite !filter_cons. rewrite (Hy x) by (done || by left). case_decide; cbn [length]; lia.
Qed.

Section tx.
Context {F : Fuel} {D : BlockDev} {HD : SyncDev D} (Hfuel : (0 < fuel)%nat) (i : nat) (p : proc) (d st : Z).
Hypothesis (Hreg : log_region d st).

(** A transaction that has logged [bl]. *)
Definition tx (bl : list Z) (s : kernel) : Prop := exists l, in_tx d st bl l s i p.

(** What the blocks are not part of. *)
Record same_tx (s s' : kernel) : Prop := {
  sm_sb : k_sb s' = k_sb s;
  sm_disk : forall n, disk_block s' d n = disk_block s d n;
  sm_writes : k_writes s' = k_writes s;
  sm_out : log_outstanding (k_log s') = log_outstanding (k_log s);
  sm_size : log_size (k_log s') = log_size (k_log s)
}.

Lemma same_tx_refl s : same_tx s s.
Proof. by split. Qed.
Lemma same_tx_trans s1 s2 s3 : same_tx s1 s2 -> same_tx s2 s3 -> same_tx s1 s3.
Proof. intros [A1 A2 A3 A4 A5] [B1 B2 B3 B4 B5]. split; [congruence|intros n; by rewrite B2|congruence..]. Qed.

(** A step of the transaction: it has logged [bl'], and the blocks are [f]. *)
Record tx_step (s : kernel) (bl' : list Z) (f : Z -> list Z) (s' : kernel) : Prop := {
  tp_tx : tx bl' s';
  tp_same : same_tx s s';
  tp_inodes : k_inodes s' = k_inodes s;
  tp_content : forall n, content s' d n = f n
}.

Lemma tx_length bl s n : tx bl s -> length (content s d n) = block_size.
Proof. intros [l H]. eapply content_length; [exact Hfuel|exact Hreg|apply H]. Qed.

Lemma tx_ready bl s : tx bl s -> ready s i p.
Proof. intros [l H]. split; [exists l; apply H|by eapply tx_spare]. Qed.

(** Reading keeps the transaction. *)
Lemma tx_quiet_read bl l l' s s' : in_tx d st bl l s i p -> alone l' s' i p -> unpins_all [] s s' -> io_frame s s' ->
  (forall n, disk_block s' d n = disk_block s d n) -> in_tx d st bl l' s' i p.
Proof.
  intros [Hal Hh Hd Hs Hhm Hnd Hsz Hmax Hout Hidle Hpin Hdirty Hemp] Hal' [U1 U2] Hf Hdk. pose proof (io_frame_log _ _ Hf) as El.
  split; rewrite ?El; try done; [| |by rewrite Hdk].
  - intros z Hz. destruct (Hpin z Hz) as (b & bf & Hb & Db & Kb). destruct (U1 b bf Hb Db) as (bf' & Hb' & Db' & E1 & E2).
    { intros (w & Hw & _). by apply not_elem_of_nil in Hw. }
    exists b, bf'. split_and!; [done|done|]. unfold caches in *. by rewrite E1, E2.
  - intros b bf Hb Db. destruct (U2 b bf Hb Db) as (bf0 & Hb0 & D0 & E1 & E2 & _). rewrite E1, E2. by apply (Hdirty b bf0).
Qed.

(** A block is read; then it is released as it is, or changed and logged. *)
Lemma tx_open bl s n : tx bl s -> home d st n ->
  exists b s1, bread d n s = Ret b s1 /\ getdata b s1 = Ret (content s d n) s1 /\ k_inodes s1 = k_inodes s /\ k_sb s1 = k_sb s /\
    (exists s2, brelse b s1 = Ret tt s2 /\ tx_step s bl (content s d) s2) /\
    (forall f, Z.of_nat (length bl) < log_size (k_log s) - 1 -> length (f (content s d n)) = block_size ->
      exists s2, (do! upddata b f; do! log_write b; brelse b) s1 = Ret tt s2 /\
        tx_step s (absorb n bl) (fun m => if decide (m = n) then f (content s d n) else content s d m) s2).
Proof.
  intros [l Htx] Hn. pose proof (tx_alone _ _ _ _ _ _ _ Htx) as Hal. assert (Hnz : (d, n) <> (0, 0)) by (by apply key_nz with st).
  destruct (first_bread Hfuel l s i p d n Hal Hnz (proj1 (proj2 Hn)) (tx_spare Hfuel d st Hreg _ _ _ _ _ Htx)) as (b & f0 & bf & H1 & Hf & Hi1 & Hc1).
  exists b, (put_buf b bf s). split_and!; [done| |done|done| |].
  - unfold getdata. rewrite (bind_ret _ _ _ _ _ (getbuf_ret _ _ _ (ow_buf _ _ _ _ _ _ (ft_owns _ _ _ _ _ _ _ _ Hf)))).
    unfold ret. f_equal. apply Hf.
  - destruct (release_block l s i p d n b f0 bf Hal Hf Hi1 Hc1) as (s2 & H2 & [[l' A] _ Dk W C U] & Fr). exists s2. split; [done|].
    cbn [upd_all foldl] in Dk, C. rewrite app_nil_r in W.
    split; [exists l'; by eapply tx_quiet_read| |by rewrite Fr|intros m; apply C; by apply key_nz with st].
    split; [by rewrite Fr|done|done|by rewrite (io_frame_log _ _ Fr)..].
  - intros f Hroom Hlen. destruct (update_ret Hfuel d st Hreg bl l s i p n f Htx Hn Hroom Hlen) as (l' & s' & U & Htx' & C & Dk & W & O & Sz & Fr).
    unfold log_update in U. rewrite (bind_ret _ _ _ _ _ H1) in U. exists s'. split; [exact U|].
    split; [by exists l'|split; [by rewrite Fr|intros m; unfold disk_block; by rewrite Dk|done|done|done]|by rewrite Fr|].
    intros m. rewrite C by (by apply key_nz with st). unfold upd. cbn [fst snd]. case_decide as E; [|by rewrite decide_False by congruence].
    injection E as ->. by rewrite decide_True.
Qed.

(** ** The bitmap *)

(** Block [b] is marked in the bitmap. *)
Definition used (s : kernel) (b : Z) : bool := bitmap (content s d (BBLOCK b (k_sb s))) (b mod BPB).

(** The blocks below [nm] hold the file system's own data, the others those of
    files. *)
Context (nm : Z).

Record volume (s : kernel) : Prop := {
  vl_size : nm <= sb_size (k_sb s) < 2 ^ 31;
  vl_first : 0 < nm;
  vl_bitmap : forall b, 0 <= b < sb_size (k_sb s) -> home d st (BBLOCK b (k_sb s)) /\ 0 < BBLOCK b (k_sb s) < nm;
  vl_data : forall z, nm <= z < sb_size (k_sb s) -> home d st z;
  vl_meta : forall z, 0 <= z < nm -> used s z = true
}.

(** What taking block [z] does to the blocks. *)
Definition block_taken (s : kernel) (z n : Z) : list Z :=
  if decide (n = z) then replicate (Z.to_nat BSIZE) 0
  else if decide (n = BBLOCK z (k_sb s)) then bit_set (z mod BPB) (content s d n)
  else content s d n.

Lemma used_kept s s' b : k_sb s' = k_sb s -> (forall n, content s' d n = content s d n) -> used s' b = used s b.
Proof. intros E1 E2. unfold used. by rewrite E1, E2. Qed.

(** The search in one block of the bitmap. *)
Lemma find_free_first s b z : 0 <= b -> b mod BPB = 0 -> b <= z < sb_size (k_sb s) -> used s z = false -> (forall y, b <= y < z -> used s y = true) ->
  find_free (Z.to_nat BPB) (content s d (BBLOCK b (k_sb s))) b 0 (sb_size (k_sb s)) = if z <? b + BPB then Some (z - b) else None.
Proof.
  intros Hb Hm Hz Hu Hy. set (data := content s d (BBLOCK b (k_sb s))). change BPB with 4096 in *.
  assert (Hbit : forall k, 0 <= k < 4096 -> bitmap data k = used s (b + k)).
  { intros k Hk. unfold used, data. change BPB with 4096. replace ((b + k) mod 4096) with k by (Z.div_mod_to_equations; lia).
    by rewrite (BBLOCK_same (b + k) b) by (change BPB with 4096; Z.div_mod_to_equations; lia). }
  pose proof (find_free_spec (Z.to_nat 4096) data b 0 (sb_size (k_sb s)) ltac:(lia)) as H.
  destruct (find_free (Z.to_nat 4096) data b 0 (sb_size (k_sb s))) as [bj|].
  - destruct H as (H1 & H2 & H3 & H4). rewrite Hbit in H3 by lia. destruct (Z.lt_trichotomy (b + bj) z) as [?|[?|?]].
    + rewrite Hy in H3 by lia. done.
    + rewrite (proj2 (Z.ltb_lt z (b + 4096))) by lia. f_equal. lia.
    + specialize (H4 (z - b) ltac:(lia)). rewrite Hbit in H4 by lia. replace (b + (z - b)) with z in H4 by lia. congruence.
  - destruct (Z.ltb_spec z (b + 4096)) as [?|?]; [|done]. specialize (H (z - b) ltac:(lia) ltac:(lia)). rewrite Hbit in H by lia.
    replace (b + (z - b)) with z in H by lia. congruence.
Qed.

Lemma bzero_ret bl s z : tx bl s -> home d st z -> Z.of_nat (length bl) < log_size (k_log s) - 1 ->
  exists s', bzero d z s = Ret tt s' /\ tx_step s (absorb z bl) (fun m => if decide (m = z) then replicate (Z.to_nat BSIZE) 0 else content s d m) s'.
Proof.
  intros Htx Hz Hroom. unfold bzero. destruct Hz as [Hr Hz]. rewrite !u32_small by (destruct Hreg; unfold is_u32 in *; lia).
  destruct (tx_open bl s z Htx (conj Hr Hz)) as (b & s1 & R & _ & _ & _ & _ & U). rewrite (bind_ret _ _ _ _ _ R). by apply U.
Qed.

Lemma balloc_loop_ret z k : forall bl s b, tx bl s -> volume s -> 0 <= b -> b mod BPB = 0 -> b <= z < sb_size (k_sb s) -> used s z = false ->
  (forall y, b <= y < z -> used s y = true) -> z < b + BPB * Z.of_nat k -> Z.of_nat (length bl) + 2 <= log_size (k_log s) - 1 ->
  exists s', balloc_loop k d b s = Ret z s' /\ tx_step s (absorb z (absorb (BBLOCK z (k_sb s)) bl)) (block_taken s z) s'.
Proof.
  induction k as [|k IH]; intros bl s b Htx Hv Hb Hm Hz Hu Hy Hk Hroom; [lia|]. cbn [balloc_loop]. kget.
  rewrite (proj2 (Z.ltb_lt b _)) by lia. destruct (vl_bitmap s Hv b ltac:(lia)) as [Hh _].
  destruct (tx_open bl s _ Htx Hh) as (bp & s1 & R & G & Ei & Es & (s2 & Rel & P2) & U). rewrite (bind_ret _ _ _ _ _ R), (bind_ret _ _ _ _ _ G).
  rewrite (find_free_first s b z Hb Hm Hz Hu Hy). change BPB with 4096 in *. destruct (Z.ltb_spec z (b + 4096)) as [Hlt|Hge].
  - assert (Hnz : nm <= z) by (destruct (decide (z < nm)); [rewrite (vl_meta s Hv) in Hu by lia; done|lia]).
    assert (EB : BBLOCK b (k_sb s) = BBLOCK z (k_sb s)) by (apply BBLOCK_same; change BPB with 4096; Z.div_mod_to_equations; lia).
    assert (Emod : z - b = z mod 4096) by (Z.div_mod_to_equations; lia). rewrite Emod in *.
    destruct (U (bit_set (z mod 4096))) as (s3 & U3 & P3); [lia| |].
    { unfold bit_set. rewrite length_lput8. by eapply tx_length. }
    rewrite (seq3_ret _ _ _ _ _ _ U3). replace (b + z mod 4096) with z by lia.
    destruct (bzero_ret _ s3 z (tp_tx _ _ _ _ P3)) as (s4 & Z4 & P4); [apply (vl_data s Hv); lia| |].
    { rewrite (sm_size _ _ (tp_same _ _ _ _ P3)). pose proof (length_absorb (BBLOCK b (k_sb s)) bl). lia. }
    rewrite (bind_ret _ _ _ _ _ Z4). exists s4. split; [done|]. destruct P3 as [_ S3 I3 C3], P4 as [T4 S4 I4 C4]. rewrite EB in T4.
    split; [done|by eapply same_tx_trans|congruence|]. intros n. rewrite C4. unfold block_taken. case_decide; [done|]. rewrite C3, EB.
    change BPB with 4096. case_decide as En; [by rewrite En|done].
  - rewrite (bind_ret _ _ _ _ _ Rel). destruct P2 as [T2 S2 I2 C2]. pose proof (sm_sb _ _ S2) as E2.
    assert (Hu2 : forall y, used s2 y = used s y) by (intros y; by apply used_kept).
    destruct (IH bl s2 (b + 4096) T2) as (s' & L & P'); try (rewrite ?E2, ?Hu2; first [done|lia]).
    + split; rewrite ?E2; try apply Hv. intros y Hyn. rewrite Hu2. by apply Hv.
    + rewrite Z.add_mod, Hm by lia. done.
    + intros y Hyb. rewrite Hu2. apply Hy. lia.
    + rewrite (sm_size _ _ S2). lia.
    + exists s'. split; [done|]. destruct P' as [T' S' I' C']. rewrite E2 in T'. split; [done|by eapply same_tx_trans|congruence|].
      intros n. rewrite C'. unfold block_taken. by rewrite E2, C2.
Qed.

Lemma balloc_ret bl s z : tx bl s -> volume s -> 0 <= z < sb_size (k_sb s) -> used s z = false -> (forall y, 0 <= y < z -> used s y = true) ->
  Z.of_nat (length bl) + 2 <= log_size (k_log s) - 1 ->
  exists s', balloc d s = Ret z s' /\ tx_step s (absorb z (absorb (BBLOCK z (k_sb s)) bl)) (block_taken s z) s'.
Proof.
  intros Htx Hv Hz Hu Hy Hroom. unfold balloc. kget. apply balloc_loop_ret; try done.
  change BPB with 4096. Z.div_mod_to_equations. lia.
Qed.

(** The blocks that [balloc] can take. *)
Definition free_blocks (s : kernel) : nat := length (filter (fun b => used s b = false) (seqZ 0 (sb_size (k_sb s)))).

Lemma free_first s : (0 < free_blocks s)%nat -> exists z, 0 <= z < sb_size (k_sb s) /\ used s z = false /\ forall y, 0 <= y < z -> used s y = true.
Proof.
  unfold free_blocks. intros H. destruct (list_find (fun b => used s b = false) (seqZ 0 (sb_size (k_sb s)))) as [[k z]|] eqn:E.
  - apply list_find_Some in E as (Hk & Hz & Hy). apply lookup_seqZ in Hk as [-> Hk]. exists (0 + Z.of_nat k). split_and!; [lia|lia|done|].
    intros y Hyz. apply not_false_is_true. apply (Hy (Z.to_nat y)); [|lia]. apply lookup_seqZ. lia.
  - apply list_find_None in E. destruct (filter _ _) as [|x l] eqn:Ef in H; [cbn in H; lia|]. exfalso.
    assert (Hx : x ∈ filter (fun b => used s b = false) (seqZ 0 (sb_size (k_sb s)))) by (rewrite Ef; by left).
    apply list_elem_of_filter in Hx as [Hu Hx]. rewrite Forall_forall in E. by apply (E x Hx).
Qed.

Section block_taken.
Context (s s' : kernel) (bl' : list Z) (z : Z).
Hypothesis (Hv : volume s) (Hz : nm <= z < sb_size (k_sb s)) (Hu : used s z = false).
Hypothesis (Hp : tx_step s bl' (block_taken s z) s').
Hypothesis (Hlen : forall n, length (content s d n) = block_size).

Lemma taken_used y : 0 <= y < sb_size (k_sb s) -> used s' y = used s y || (y =? z).
Proof.
  intros Hy. unfold used. rewrite (sm_sb _ _ (tp_same _ _ _ _ Hp)), (tp_content _ _ _ _ Hp). unfold block_taken.
  destruct (vl_bitmap s Hv y Hy) as [_ Hb]. pose proof (vl_size s Hv). rewrite decide_False by lia. case_decide as E.
  - pose proof (BBLOCK_inj y z _ ltac:(lia) ltac:(pose proof (vl_first s Hv); lia) E) as Ed. change BPB with 4096 in *.
    rewrite bitmap_set; [|rewrite Hlen; unfold block_size; change BSIZE with 512; Z.div_mod_to_equations; lia|Z.div_mod_to_equations; lia]. f_equal.
    apply eq_true_iff_eq. rewrite !Z.eqb_eq. Z.div_mod_to_equations. lia.
  - rewrite (proj2 (Z.eqb_neq y z)), orb_false_r; [done|]. by intros ->.
Qed.

Lemma taken_volume : volume s'.
Proof.
  pose proof (sm_sb _ _ (tp_same _ _ _ _ Hp)) as E. pose proof (vl_size s Hv). split; rewrite ?E; try apply Hv. intros y Hy. rewrite taken_used by lia.
  by rewrite (vl_meta s Hv).
Qed.

Lemma taken_content n : nm <= n -> n <> z -> content s' d n = content s d n.
Proof.
  intros Hn Hne. rewrite (tp_content _ _ _ _ Hp). unfold block_taken. rewrite decide_False by done. rewrite decide_False; [done|].
  pose proof (vl_first s Hv). destruct (vl_bitmap s Hv z ltac:(lia)) as [_ Hb]. lia.
Qed.

Lemma taken_zero : content s' d z = replicate (Z.to_nat BSIZE) 0.
Proof. rewrite (tp_content _ _ _ _ Hp). unfold block_taken. by rewrite decide_True. Qed.

Lemma taken_free : free_blocks s = S (free_blocks s').
Proof.
  unfold free_blocks. rewrite (sm_sb _ _ (tp_same _ _ _ _ Hp)). pose proof (vl_first s Hv).
  apply (length_filter_drop (used s) (used s') z); [apply NoDup_seqZ|apply elem_of_seqZ; lia|done| |].
  - rewrite taken_used, Z.eqb_refl by lia. apply orb_true_r.
  - intros y Hy%elem_of_seqZ Hne. rewrite taken_used by lia. by rewrite (proj2 (Z.eqb_neq y z)), orb_false_r.
Qed.
End block_taken.

(** ** The blocks of a file *)

(** The places for block numbers: the direct ones, that of the indirect block,
    and those in it. *)
Definition place (s : kernel) (ino : inode) (k : Z) : Z :=
  if k <? NDIRECT + 1 then iaddr ino k
  else if iaddr ino NDIRECT =? 0 then 0
  else lget32 (4 * (k - (NDIRECT + 1))) (content s d (iaddr ino NDIRECT)).
Definition places : Z := NDIRECT + 1 + NINDIRECT.
Definition place_of (f : Z) : Z := if f <? NDIRECT then f else f + 1.

(** The blocks of the file are blocks for files, in use, and each in one
    place. *)
Record laid (s : kernel) (ino : inode) : Prop := {
  la_dev : i_dev ino = d;
  la_len : length (i_addrs ino) = Z.to_nat (NDIRECT + 1);
  la_slot : forall k, 0 <= k < places -> place s ino k <> 0 -> nm <= place s ino k < sb_size (k_sb s) /\ used s (place s ino k) = true;
  la_inj : forall k l, 0 <= k < places -> 0 <= l < places -> place s ino k = place s ino l -> place s ino k <> 0 -> k = l
}.

Lemma block_slot s ino f : i_dev ino = d -> f < NDIRECT \/ iaddr ino NDIRECT <> 0 -> block_of s ino f = place s ino (place_of f).
Proof.
  intros Hd H. unfold block_of, place, place_of. rewrite Hd. change NDIRECT with 12 in *. destruct (Z.ltb_spec f 12).
  - by rewrite (proj2 (Z.ltb_lt f (12 + 1))) by lia.
  - rewrite (proj2 (Z.ltb_ge (f + 1) (12 + 1))) by lia. rewrite (proj2 (Z.eqb_neq _ 0)) by (destruct H; [lia|done]). by replace (f + 1 - (12 + 1)) with (f - 12) by lia.
Qed.

Lemma slot_of_range f : 0 <= f < MAXFILE -> 0 <= place_of f < places.
Proof. unfold place_of, places, MAXFILE. change NDIRECT with 12. change NINDIRECT with 128. destruct (Z.ltb_spec f 12); lia. Qed.

Lemma slot_of_inj f g : place_of f = place_of g -> f = g.
Proof. unfold place_of. change NDIRECT with 12. destruct (Z.ltb_spec f 12), (Z.ltb_spec g 12); lia. Qed.

Lemma mapped_slot s ino f : i_dev ino = d -> mapped s ino f -> block_of s ino f = place s ino (place_of f).
Proof. intros Hd [_ _ Hi]. apply block_slot; [done|]. destruct (decide (f < NDIRECT)); [by left|right]. apply Hi. lia. Qed.

Lemma mapped_block s ino f : laid s ino -> 0 <= f < MAXFILE -> mapped s ino f ->
  nm <= block_of s ino f < sb_size (k_sb s) /\ used s (block_of s ino f) = true.
Proof.
  intros Hl Hf Hm. pose proof (mapped_slot s ino f (la_dev _ _ Hl) Hm) as E. rewrite E. apply (la_slot _ _ Hl); [by apply slot_of_range|].
  rewrite <- E. apply Hm.
Qed.

(** A block number in its place makes a block of the file. *)
Lemma slot_mapped s ino f : volume s -> laid s ino -> 0 <= f < MAXFILE -> f < NDIRECT \/ iaddr ino NDIRECT <> 0 -> place s ino (place_of f) <> 0 -> mapped s ino f.
Proof.
  intros Hv Hl Hf Hi Hs. pose proof (la_dev _ _ Hl) as Hd. pose proof (block_slot s ino f Hd Hi) as E.
  destruct (la_slot _ _ Hl _ (slot_of_range _ Hf) Hs) as [Hr _]. split; rewrite ?E, ?Hd; [done|by apply (vl_data s Hv)|].
  intros Hn. destruct Hi as [Hi|Hi]; [lia|]. split; [done|].
  assert (Ei : place s ino NDIRECT = iaddr ino NDIRECT) by done. rewrite <- Ei in Hi |- *.
  destruct (la_slot _ _ Hl NDIRECT ltac:(done) Hi) as [Hr' _]. by apply (vl_data s Hv).
Qed.

(** A step that keeps the blocks in use keeps the file. *)
Lemma slot_kept s s' ino k : laid s ino -> (forall n, nm <= n < sb_size (k_sb s) -> used s n = true -> content s' d n = content s d n) -> place s' ino k = place s ino k.
Proof.
  intros Hl Hc. unfold place. destruct (k <? NDIRECT + 1); [done|]. destruct (Z.eqb_spec (iaddr ino NDIRECT) 0) as [?|Hne]; [done|].
  assert (Ei : place s ino NDIRECT = iaddr ino NDIRECT) by done. rewrite <- Ei in Hne |- *.
  destruct (la_slot _ _ Hl NDIRECT ltac:(done) Hne) as [Hr Hu]. by rewrite Hc.
Qed.

Lemma laid_kept s s' ino : laid s ino -> k_sb s' = k_sb s -> (forall n, nm <= n < sb_size (k_sb s) -> used s n = true -> content s' d n = content s d n) ->
  (forall n, nm <= n < sb_size (k_sb s) -> used s n = true -> used s' n = true) -> laid s' ino.
Proof.
  intros Hl Eb Hc Hu. assert (Es : forall k, place s' ino k = place s ino k) by (intros k; by apply slot_kept).
  split; [apply Hl|apply Hl| |].
  - intros k Hk. rewrite Es, Eb. intros Hne. destruct (la_slot _ _ Hl k Hk Hne) as [Hr H1]. split; [done|by apply Hu].
  - intros k k' Hk Hk'. rewrite !Es. by apply Hl.
Qed.

Lemma tx_inodes bl s x : tx bl s -> tx bl (s <| k_inodes := x |>).
Proof. intros [l [Hal Hh Hd Hs Hhm Hnd Hsz Hmax Hout Hidle Hpin Hdirty Hemp]]. exists l. split; try done. by apply alone_inodes. Qed.

Lemma volume_inodes s x : volume s -> volume (s <| k_inodes := x |>).
Proof. intros []. by split. Qed.
Lemma laid_inodes s x ino : laid s ino -> laid (s <| k_inodes := x |>) ino.
Proof. intros []. by split. Qed.
Lemma mapped_inodes s x ino f : mapped s ino f -> mapped (s <| k_inodes := x |>) ino f.
Proof. intros []. by split. Qed.

(** What [bmap] does for block [f] of the file of inode [ip]: it gives the
    block [z], and takes it from the free blocks when there was none. *)
Record mapping (ip : nat) (f : Z) (bl : list Z) (s : kernel) (ino : inode) (z : Z) (bl' : list Z) (s' : kernel) (ino' : inode) : Prop := {
  mg_tx : tx bl' s';
  mg_same : same_tx s s';
  mg_inodes : k_inodes s' = <[ip := ino']> (k_inodes s);
  mg_volume : volume s';
  mg_laid : laid s' ino';
  mg_mapped : mapped s' ino' f;
  mg_block : block_of s' ino' f = z;
  mg_log : (length bl' <= length bl)%nat \/ (length bl' <= length bl + 2)%nat /\ z ∈ bl';
  mg_free : (free_blocks s <= S (free_blocks s'))%nat;
  mg_ino : ino' = ino \/ f < NDIRECT /\ ino' = set_iaddr f z ino;
  mg_there : mapped s ino f -> ino' = ino;
  mg_old : forall n, nm <= n < sb_size (k_sb s) -> used s n = true -> content s' d n = content s d n /\ used s' n = true;
  mg_meta : forall n, 0 <= n < nm -> (forall b, 0 <= b < sb_size (k_sb s) -> n <> BBLOCK b (k_sb s)) -> content s' d n = content s d n;
  mg_slots : forall k, 0 <= k < places -> place s' ino' k = place s ino k \/ used s (place s' ino' k) = false;
  mg_others : forall g, 0 <= g < MAXFILE -> mapped s ino g -> mapped s' ino' g /\ block_of s' ino' g = block_of s ino g
}.

Lemma volume_same s s' : volume s -> k_sb s' = k_sb s -> (forall n, content s' d n = content s d n) -> volume s'.
Proof. intros Hv E C. split; rewrite ?E; try apply Hv. intros z Hz. rewrite (used_kept s s') by done. by apply Hv. Qed.

(** The block is there. *)
Lemma bmap_there ip f bl s ino : tx bl s -> volume s -> laid s ino -> k_inodes s !! ip = Some ino -> 0 <= f < MAXFILE -> mapped s ino f ->
  exists s', bmap ip f s = Ret (block_of s ino f) s' /\ mapping ip f bl s ino (block_of s ino f) bl s' ino.
Proof.
  intros Htx Hv Hl Hi Hf Hm.
  assert (Hsame : forall s', tx_step s bl (content s d) s' -> mapping ip f bl s ino (block_of s ino f) bl s' ino).
  { intros s' [T S I C]. pose proof (sm_sb _ _ S) as E.
    assert (Hl' : laid s' ino) by (apply (laid_kept s); [done|done|by intros|intros n _; by rewrite (used_kept s s')]).
    assert (Hmap : forall g, 0 <= g < MAXFILE -> mapped s ino g -> mapped s' ino g /\ block_of s' ino g = block_of s ino g).
    { intros g Hg Hmg. pose proof (mapped_slot s ino g (la_dev _ _ Hl) Hmg) as Es.
      assert (Hd : g < NDIRECT \/ iaddr ino NDIRECT <> 0) by (destruct (decide (g < NDIRECT)); [by left|right]; apply Hmg; lia).
      assert (Eb : block_of s' ino g = block_of s ino g) by (rewrite Es, (block_slot s' ino g (la_dev _ _ Hl) Hd); apply slot_kept; [done|by intros]).
      split; [|done]. apply slot_mapped; [by eapply volume_same|done|done|done|]. rewrite <- (block_slot s' ino g (la_dev _ _ Hl) Hd), Eb. apply Hmg. }
    split; try done; [by rewrite I, list_insert_id|by eapply volume_same|by apply Hmap|by apply Hmap|by left| |by left| |].
    - unfold free_blocks. rewrite E. rewrite (filter_agree (used s) (used s')); [lia|]. intros y _. by apply used_kept.
    - intros n _ Hu. by rewrite (used_kept s s').
    - intros k _. left. apply slot_kept; [done|by intros]. }
  unfold bmap. rewrite (bind_ret _ _ _ _ _ (getinode_ret _ _ _ Hi)). pose proof Hm as [Hn Hok Hind].
  pose proof (la_dev _ _ Hl) as Hd. unfold block_of in Hn. destruct (Z.ltb_spec f NDIRECT) as [Hlt|Hge].
  - rewrite (proj2 (Z.eqb_neq _ _) Hn). exists s. assert (E : block_of s ino f = iaddr ino f) by (unfold block_of; by rewrite (proj2 (Z.ltb_lt f NDIRECT))).
    split; [by rewrite E|]. apply Hsame. split; [done|apply same_tx_refl|done|done].
  - destruct (Hind Hge) as [Hn1 _]. rewrite (proj2 (Z.ltb_lt (f - NDIRECT) NINDIRECT)) by (unfold MAXFILE in Hf; lia).
    rewrite (proj2 (Z.eqb_neq _ _) Hn1). assert (Hh : home d st (iaddr ino NDIRECT)).
    { apply (vl_data s Hv). change (iaddr ino NDIRECT) with (place s ino NDIRECT). by apply (la_slot _ _ Hl NDIRECT). }
    rewrite Hd in *. destruct (tx_open bl s _ Htx Hh) as (b & s1 & R & G & _ & _ & (s2 & Rel & P) & _).
    exists s2. split; [|by apply Hsame]. erewrite bind_ret by reflexivity. rewrite (bind_ret _ _ _ _ _ R), (bind_ret _ _ _ _ _ G).
    rewrite (proj2 (Z.eqb_neq _ _) Hn). erewrite bind_ret by reflexivity. rewrite (bind_ret _ _ _ _ _ Rel).
    unfold block_of. rewrite (proj2 (Z.ltb_ge f NDIRECT)) by lia. by rewrite Hd.
Qed.

Lemma iaddr_set f z ino k : 0 <= f < Z.of_nat (length (i_addrs ino)) -> 0 <= k -> iaddr (set_iaddr f z ino) k = if decide (k = f) then z else iaddr ino k.
Proof.
  intros Hf Hk. unfold iaddr, set_iaddr. change (i_addrs (ino <| i_addrs := <[Z.to_nat f := z]> (i_addrs ino) |>)) with (<[Z.to_nat f := z]> (i_addrs ino)).
  case_decide as E; [subst; by rewrite list_lookup_insert_eq by lia|]. by rewrite list_lookup_insert_ne by lia.
Qed.

(** A direct block that was missing. *)
Section taken_direct.
Context (f : Z) (bl : list Z) (s : kernel) (ino : inode) (z : Z) (bl' : list Z) (s' : kernel).
Hypothesis (Htx : tx bl s) (Hv : volume s) (Hl : laid s ino) (Hf : 0 <= f < NDIRECT) (H0 : iaddr ino f = 0).
Hypothesis (Hz : nm <= z < sb_size (k_sb s)) (Hu : used s z = false) (Hp : tx_step s bl' (block_taken s z) s').

Lemma taken_old n : nm <= n < sb_size (k_sb s) -> used s n = true -> content s' d n = content s d n /\ used s' n = true.
Proof.
  intros Hn Hun. assert (Hne : n <> z) by congruence. pose proof (vl_first s Hv). split; [apply (taken_content s s' bl' z); done || lia|].
  rewrite (taken_used s s' bl' z Hv Hz Hp (fun m => tx_length bl s m Htx)) by lia. by rewrite Hun.
Qed.

Lemma taken_slot k : 0 <= k -> place s' (set_iaddr f z ino) k = if decide (k = f) then z else place s ino k.
Proof.
  intros Hk. pose proof (la_len _ _ Hl) as Hlen. change NDIRECT with 12 in *. assert (Hr : 0 <= f < Z.of_nat (length (i_addrs ino))) by lia.
  rewrite <- (slot_kept s s' ino k Hl (fun n H1 H2 => proj1 (taken_old n H1 H2))). unfold place. change NDIRECT with 12.
  rewrite !iaddr_set by lia. rewrite (decide_False (P := 12 = f)) by lia. destruct (Z.ltb_spec k (12 + 1)); [done|]. by rewrite decide_False by lia.
Qed.

Lemma taken_laid : laid s' (set_iaddr f z ino).
Proof.
  pose proof (sm_sb _ _ (tp_same _ _ _ _ Hp)) as E. pose proof (vl_first s Hv) as Hnm.
  assert (Hfree : forall k, 0 <= k < places -> place s ino k <> z).
  { intros k Hk Ek. destruct (la_slot _ _ Hl k Hk) as [_ Hk2]; [lia|]. rewrite Ek in Hk2. congruence. }
  split; [apply Hl| | |].
  - change (i_addrs (set_iaddr f z ino)) with (<[Z.to_nat f := z]> (i_addrs ino)). rewrite length_insert. apply Hl.
  - intros k Hk. rewrite taken_slot, E by lia. case_decide; intros Hs.
    + split; [done|]. rewrite (taken_used s s' bl' z Hv Hz Hp (fun m => tx_length bl s m Htx)) by lia. rewrite Z.eqb_refl. apply orb_true_r.
    + destruct (la_slot _ _ Hl k Hk Hs) as [Hr Hk2]. split; [done|by apply taken_old].
  - intros k k' Hk Hk'. rewrite !taken_slot by lia. repeat case_decide; try congruence; intros Ek Hne.
    + by destruct (Hfree k' Hk').
    + by destruct (Hfree k Hk).
    + by apply (la_inj _ _ Hl).
Qed.

Lemma taken_mapping ip (s2 := put_inode ip (set_iaddr f z ino) s') : bl' = absorb z (absorb (BBLOCK z (k_sb s)) bl) -> k_inodes s !! ip = Some ino ->
  mapping ip f bl s ino z bl' s2 (set_iaddr f z ino).
Proof.
  intros Ebl Hi. pose proof taken_laid as Hl'. pose proof (vl_first s Hv) as Hnm. pose proof (la_len _ _ Hl) as Hlen. change NDIRECT with 12 in Hlen, Hf.
  pose proof (taken_volume s s' bl' z Hv Hz Hp (fun m => tx_length bl s m Htx)) as Hv'.
  assert (Hfm : 0 <= f < MAXFILE) by (change MAXFILE with 140; lia). assert (Hso : place_of f = f) by (unfold place_of; change NDIRECT with 12; by rewrite (proj2 (Z.ltb_lt f 12)) by lia).
  assert (Hmap : mapped s' (set_iaddr f z ino) f /\ block_of s' (set_iaddr f z ino) f = z).
  { assert (Es : place s' (set_iaddr f z ino) (place_of f) = z) by (rewrite Hso, taken_slot by lia; by rewrite decide_True).
    split; [apply slot_mapped; try done; [left; change NDIRECT with 12; lia|lia]|].
    rewrite block_slot; [done|apply Hl|left; change NDIRECT with 12; lia]. }
  destruct Hmap as [Hm1 Hm2]. pose proof Hp as [T S I C]. split; [by apply tx_inodes|by destruct S| |by apply volume_inodes|by apply laid_inodes|by apply mapped_inodes|exact Hm2| | | | | | | |].
  - unfold s2, put_inode. cbn. by rewrite I.
  - right. split; [|rewrite Ebl; apply elem_of_absorb; by left]. rewrite Ebl. pose proof (length_absorb z (absorb (BBLOCK z (k_sb s)) bl)).
    pose proof (length_absorb (BBLOCK z (k_sb s)) bl). lia.
  - assert (E : free_blocks s = Datatypes.S (free_blocks s')) by (by apply (taken_free s s' bl' z Hv Hz Hu Hp (fun m => tx_length bl s m Htx))).
    change (free_blocks s2) with (free_blocks s'). lia.
  - right. split; [change NDIRECT with 12; lia|done].
  - intros [Hb _ _]. destruct Hb. unfold block_of. change NDIRECT with 12. by rewrite (proj2 (Z.ltb_lt f 12)) by lia.
  - intros n Hn Hun. by apply taken_old.
  - intros n Hn Hb. change (content s2 d n) with (content s' d n). rewrite C. unfold block_taken. rewrite !decide_False by (lia || apply Hb; lia). done.
  - intros k Hk. change (place s2 (set_iaddr f z ino) k) with (place s' (set_iaddr f z ino) k). rewrite taken_slot by lia. case_decide; [by right|by left].
  - intros g Hg Hmg. pose proof (mapped_slot s ino g (la_dev _ _ Hl) Hmg) as Es.
    assert (Hne : place_of g <> f).
    { rewrite <- Hso. intros ->%slot_of_inj. apply (mp_block _ _ _ Hmg). rewrite Es, Hso. unfold place. change NDIRECT with 12.
      by rewrite (proj2 (Z.ltb_lt f (12 + 1))) by lia. }
    assert (Hd : g < NDIRECT \/ iaddr (set_iaddr f z ino) NDIRECT <> 0).
    { destruct (decide (g < NDIRECT)) as [?|Hge]; [by left|right]. change NDIRECT with 12 in *. rewrite iaddr_set by lia. rewrite decide_False by lia.
      apply Hmg. change NDIRECT with 12. lia. }
    assert (Eb : block_of s' (set_iaddr f z ino) g = block_of s ino g).
    { rewrite (block_slot s' _ g (la_dev _ _ Hl') Hd), taken_slot, decide_False, Es by (done || apply slot_of_range; done). done. }
    split; [|exact Eb]. apply mapped_inodes, (slot_mapped s' _ g Hv' Hl' Hg Hd). rewrite <- (block_slot s' _ g (la_dev _ _ Hl') Hd), Eb. apply Hmg.
Qed.
End taken_direct.

Lemma bmap_tx ip f bl s ino : tx bl s -> volume s -> laid s ino -> k_inodes s !! ip = Some ino -> 0 <= f < MAXFILE -> f < NDIRECT \/ mapped s ino f ->
  Z.of_nat (length bl) + 2 <= log_size (k_log s) - 1 -> (0 < free_blocks s)%nat ->
  exists z s' ino' bl', bmap ip f s = Ret z s' /\ mapping ip f bl s ino z bl' s' ino'.
Proof.
  intros Htx Hv Hl Hi Hf Hm Hroom Hfree. destruct (decide (f < NDIRECT /\ iaddr ino f = 0)) as [[Hlt H0]|Hno].
  2: { assert (Hmap : mapped s ino f).
       { destruct Hm as [Hlt|?]; [|done]. apply slot_mapped; try done; [by left|]. unfold place_of, place. rewrite (proj2 (Z.ltb_lt f NDIRECT)) by lia.
         rewrite (proj2 (Z.ltb_lt f (NDIRECT + 1))) by lia. intros E. by apply Hno. }
       destruct (bmap_there ip f bl s ino Htx Hv Hl Hi Hf Hmap) as (s' & B & M). by exists (block_of s ino f), s', ino, bl. }
  destruct (free_first s Hfree) as (z & Hz & Hu & Hy). destruct (balloc_ret bl s z Htx Hv Hz Hu Hy Hroom) as (s1 & B & P).
  assert (Hnz : nm <= z) by (destruct (decide (z < nm)); [rewrite (vl_meta s Hv) in Hu by lia; done|lia]).
  assert (Hi1 : k_inodes s1 !! ip = Some ino) by (by rewrite (tp_inodes _ _ _ _ P)).
  eexists z, _, (set_iaddr f z ino), _. split.
  - unfold bmap. rewrite (bind_ret _ _ _ _ _ (getinode_ret _ _ _ Hi)), (proj2 (Z.ltb_lt f NDIRECT) Hlt), H0, Z.eqb_refl, (la_dev _ _ Hl).
    rewrite (bind_ret _ _ _ _ _ B), (bind_ret _ _ _ _ _ (updinode_ret ip _ _ _ Hi1)). reflexivity.
  - apply (taken_mapping f bl s ino z _ s1 Htx Hv Hl); (done || lia).
Qed.

(** ** Writing *)

(** The bytes [off] to [off + len] of the file of inode [ip] have become those of
    [g], with [k] turns of the loop. *)
Record wrote (ip : nat) (g : Z -> Z) (off len k : Z) (bl : list Z) (s : kernel) (ino : inode) (bl' : list Z) (s' : kernel) (ino' : inode) : Prop := {
  wr_tx : tx bl' s';
  wr_same : same_tx s s';
  wr_inodes : k_inodes s' = <[ip := ino']> (k_inodes s);
  wr_volume : volume s';
  wr_laid : laid s' ino';
  wr_log : Z.of_nat (length bl') <= Z.of_nat (length bl) + 2 * k;
  wr_free : Z.of_nat (free_blocks s) <= Z.of_nat (free_blocks s') + k;
  wr_fields : ino' = ino <| i_addrs := i_addrs ino' |>;
  wr_there : (forall x, off <= x < off + len -> mapped s ino (x / BSIZE)) -> ino' = ino;
  wr_mapped : forall f, 0 <= f < MAXFILE -> mapped s ino f -> mapped s' ino' f;
  wr_bytes : forall x, 0 <= x < MAXFILE * BSIZE -> off <= x < off + len \/ mapped s ino (x / BSIZE) ->
    mapped s' ino' (x / BSIZE) /\ file_byte s' ino' x = if decide (off <= x < off + len) then g x else file_byte s ino x;
  wr_old : forall n, nm <= n < sb_size (k_sb s) -> used s n = true -> used s' n = true /\
    ((forall k, 0 <= k < places -> place s ino k <> n) -> content s' d n = content s d n);
  wr_meta : forall n, 0 <= n < nm -> (forall b, 0 <= b < sb_size (k_sb s) -> n <> BBLOCK b (k_sb s)) -> content s' d n = content s d n;
  wr_slots : forall k, 0 <= k < places -> place s' ino' k = place s ino k \/ used s (place s' ino' k) = false
}.

Lemma wrote_refl ip g off k bl s ino : 0 <= k -> tx bl s -> volume s -> laid s ino -> k_inodes s !! ip = Some ino -> wrote ip g off 0 k bl s ino bl s ino.
Proof.
  intros Hk Htx Hv Hl Hi. split; try done; [by rewrite list_insert_id|lia|lia|by destruct ino| |by left].
  intros x Hx [?|Hm]; [lia|]. split; [done|]. by rewrite decide_False by lia.
Qed.

Lemma wrote_trans ip g off len1 len2 k1 k2 bl s ino bl1 s1 ino1 bl2 s2 ino2 : 0 <= len1 -> 0 <= len2 -> 0 <= off -> off + len1 + len2 <= MAXFILE * BSIZE -> (ip < length (k_inodes s))%nat ->
  wrote ip g off len1 k1 bl s ino bl1 s1 ino1 -> wrote ip g (off + len1) len2 k2 bl1 s1 ino1 bl2 s2 ino2 ->
  wrote ip g off (len1 + len2) (k1 + k2) bl s ino bl2 s2 ino2.
Proof.
  intros L1 L2 H0 Hend Hip A B. pose proof (sm_sb _ _ (wr_same _ _ _ _ _ _ _ _ _ _ _ A)) as E1.
  destruct A as [T1 S1 I1 V1 D1 G1 R1 F1 X1 M1 Y1 O1 N1 P1], B as [T2 S2 I2 V2 D2 G2 R2 F2 X2 M2 Y2 O2 N2 P2]. rewrite E1 in *.
  split; try done; [by eapply same_tx_trans|by rewrite I2, I1, list_insert_insert_eq|lia|lia|by rewrite F2, F1| |by intros; apply M2, M1| | | |].
  - intros Hm. rewrite X2; [apply X1; intros x Hx; apply Hm; lia|]. intros x Hx. apply M1; [|apply Hm; lia].
    change (MAXFILE * BSIZE) with 71680 in Hend. change BSIZE with 512 in *. change MAXFILE with 140. Z.div_mod_to_equations. lia.
  - intros x Hx Hc. assert (Hcase : (off <= x < off + len1 \/ mapped s ino (x / BSIZE)) \/ off + len1 <= x < off + len1 + len2).
    { destruct Hc as [Hc|Hc]; [|by left; right]. destruct (decide (x < off + len1)); [left; left|right]; lia. }
    destruct Hcase as [Hc1|Hc1].
    + destruct (Y1 x Hx Hc1) as [Q1 Q2]. destruct (Y2 x Hx (or_intror Q1)) as [Q3 Q4]. split; [done|]. rewrite Q4, Q2. repeat case_decide; done || lia.
    + destruct (Y2 x Hx (or_introl Hc1)) as [Q3 Q4]. split; [done|]. rewrite Q4. by rewrite !decide_True by lia.
  - intros n Hn Hu. destruct (O1 n Hn Hu) as [U1 C1]. destruct (O2 n Hn U1) as [U2 C2]. split; [done|]. intros Hs. rewrite C2, C1; [done|done|].
    intros k Hk. destruct (P1 k Hk) as [->|Hf]; [by apply Hs|]. intros E. congruence.
  - intros n Hn Hb. by rewrite N2, N1.
  - intros k Hk. destruct (P2 k Hk) as [E|Hf]; [rewrite E; by apply P1|]. right. apply not_true_is_false. intros Hu.
    destruct (decide (place s2 ino2 k = 0)) as [Ez|Hz].
    { rewrite Ez, (vl_meta s1 V1) in Hf by (pose proof (vl_first s1 V1); lia). done. }
    destruct (la_slot _ _ D2 k Hk Hz) as [Hr _]. rewrite (sm_sb _ _ S2), E1 in Hr. destruct (O1 _ Hr Hu). congruence.
Qed.

(** A change of the bytes of block [f] of a file. *)
Section patch.
Context (s s' : kernel) (ino : inode) (bl' : list Z) (f : Z) (x : list Z).
Hypothesis (Hv : volume s) (Hl : laid s ino) (Hf : 0 <= f < MAXFILE) (Hm : mapped s ino f).
Let z := block_of s ino f.
Hypothesis (Hp : tx_step s bl' (fun n => if decide (n = z) then x else content s d n) s').

Lemma patch_range : nm <= z < sb_size (k_sb s) /\ used s z = true.
Proof. by apply mapped_block. Qed.

Lemma patch_ne n : n <> z -> content s' d n = content s d n.
Proof. intros Hn. rewrite (tp_content _ _ _ _ Hp). by rewrite decide_False. Qed.

Lemma patch_used y : 0 <= y < sb_size (k_sb s) -> used s' y = used s y.
Proof.
  intros Hy. unfold used. rewrite (sm_sb _ _ (tp_same _ _ _ _ Hp)), patch_ne; [done|]. destruct (vl_bitmap s Hv y Hy) as [_ ?]. pose proof patch_range. lia.
Qed.

Lemma patch_volume : volume s'.
Proof.
  pose proof (sm_sb _ _ (tp_same _ _ _ _ Hp)) as E. pose proof (vl_size s Hv). split; rewrite ?E; try apply Hv. intros y Hy. rewrite patch_used by lia. by apply Hv.
Qed.

Lemma patch_slot k : 0 <= k < places -> place s' ino k = place s ino k.
Proof.
  intros Hk. unfold place. destruct (k <? NDIRECT + 1); [done|]. destruct (Z.eqb_spec (iaddr ino NDIRECT) 0) as [?|Hne]; [done|].
  rewrite patch_ne; [done|]. unfold z. rewrite (mapped_slot s ino f (la_dev _ _ Hl) Hm). intros E.
  assert (Es : NDIRECT = place_of f) by (apply (la_inj _ _ Hl); [done|by apply slot_of_range|exact E|exact Hne]).
  unfold place_of in Es. change NDIRECT with 12 in Es. destruct (Z.ltb_spec f 12); lia.
Qed.

Lemma patch_laid : laid s' ino.
Proof.
  pose proof (sm_sb _ _ (tp_same _ _ _ _ Hp)) as E. pose proof (vl_first s Hv). split; [apply Hl|apply Hl| |].
  - intros k Hk. rewrite patch_slot, E by done. intros Hs. destruct (la_slot _ _ Hl k Hk Hs). split; [done|]. by rewrite patch_used by lia.
  - intros k k' Hk Hk'. rewrite !patch_slot by done. by apply (la_inj _ _ Hl).
Qed.

Lemma patch_mapped g : 0 <= g < MAXFILE -> mapped s ino g -> mapped s' ino g /\ block_of s' ino g = block_of s ino g.
Proof.
  intros Hg Hmg. assert (Hd : g < NDIRECT \/ iaddr ino NDIRECT <> 0) by (destruct (decide (g < NDIRECT)); [by left|right]; apply Hmg; lia).
  assert (Eb : block_of s' ino g = block_of s ino g).
  { rewrite !(block_slot _ ino g (la_dev _ _ Hl) Hd). by apply patch_slot, slot_of_range. }
  split; [|done]. apply slot_mapped; [apply patch_volume|apply patch_laid|done|done|]. rewrite <- (block_slot s' ino g (la_dev _ _ Hl) Hd), Eb. apply Hmg.
Qed.

Lemma patch_free : free_blocks s' = free_blocks s.
Proof.
  unfold free_blocks. rewrite (sm_sb _ _ (tp_same _ _ _ _ Hp)). f_equal. apply filter_agree. intros y Hy%elem_of_seqZ. apply patch_used. lia.
Qed.

Lemma patch_byte y : 0 <= y < MAXFILE * BSIZE -> mapped s ino (y / BSIZE) ->
  file_byte s' ino y = if decide (y / BSIZE = f) then lbyte x (y mod BSIZE) else file_byte s ino y.
Proof.
  intros Hy Hmy. assert (Hg : 0 <= y / BSIZE < MAXFILE) by (change BSIZE with 512 in *; change MAXFILE with 140 in *; Z.div_mod_to_equations; lia).
  destruct (patch_mapped _ Hg Hmy) as [_ Eb]. unfold file_byte. rewrite Eb, (la_dev _ _ Hl). case_decide as E.
  - rewrite E, (tp_content _ _ _ _ Hp). by rewrite decide_True.
  - rewrite patch_ne; [done|]. unfold z. rewrite (mapped_slot s ino _ (la_dev _ _ Hl) Hm). pose proof (mapped_slot s ino _ (la_dev _ _ Hl) Hmy) as Es. rewrite Es.
    intros Ez. apply E, slot_of_inj. apply (la_inj _ _ Hl); [by apply slot_of_range..|done|]. rewrite <- Es. apply Hmy.
Qed.
End patch.

(** One turn of the loop of [writei]: [bmap], and the change of the block. *)
Section turn.
Context (ip : nat) (g : Z -> Z) (off : Z) (bs bl : list Z) (s : kernel) (ino : inode) (z : Z) (bl1 : list Z) (s1 : kernel) (ino1 : inode) (s2 : kernel).
Let f := off / BSIZE.
Let o := off mod BSIZE.
Let m := Z.of_nat (length bs).
Hypothesis (Hl : laid s ino) (Hoff : 0 <= off) (Hend : off + m <= MAXFILE * BSIZE) (Hm : 0 < m) (Ho : o + m <= BSIZE).
Hypothesis (Hg : forall j, 0 <= j < m -> g (off + j) = lbyte bs j).
Hypothesis (Mg : mapping ip f bl s ino z bl1 s1 ino1).
Hypothesis (Hp : tx_step s1 (absorb z bl1) (fun n => if decide (n = z) then lput o bs (content s1 d z) else content s1 d n) s2).

Lemma turn_block : 0 <= f < MAXFILE.
Proof. unfold f. change (MAXFILE * BSIZE) with 71680 in Hend. change BSIZE with 512 in *. change MAXFILE with 140. Z.div_mod_to_equations. lia. Qed.

Lemma turn_patch : tx_step s1 (absorb z bl1) (fun n => if decide (n = block_of s1 ino1 f) then lput o bs (content s1 d z) else content s1 d n) s2.
Proof. by rewrite (mg_block _ _ _ _ _ _ _ _ _ Mg). Qed.

Lemma turn_log : Z.of_nat (length (absorb z bl1)) <= Z.of_nat (length bl) + 2.
Proof.
  destruct (mg_log _ _ _ _ _ _ _ _ _ Mg) as [H|[H1 H2]]; [pose proof (length_absorb z bl1); lia|]. unfold absorb. rewrite decide_True by done. lia.
Qed.

(** The bytes of the blocks that were there, after [bmap]. *)
Lemma turn_bmap x : 0 <= x < MAXFILE * BSIZE -> mapped s ino (x / BSIZE) -> mapped s1 ino1 (x / BSIZE) /\ file_byte s1 ino1 x = file_byte s ino x.
Proof.
  intros Hx Hmx. assert (Hr : 0 <= x / BSIZE < MAXFILE) by (change BSIZE with 512 in *; change MAXFILE with 140 in *; Z.div_mod_to_equations; lia).
  destruct (mg_others _ _ _ _ _ _ _ _ _ Mg _ Hr Hmx) as [H1 E]. split; [done|]. unfold file_byte.
  rewrite E, (la_dev _ _ Hl), (la_dev _ _ (mg_laid _ _ _ _ _ _ _ _ _ Mg)). destruct (mapped_block s ino _ Hl Hr Hmx) as [Hb Hu].
  by destruct (mg_old _ _ _ _ _ _ _ _ _ Mg _ Hb Hu) as [-> _].
Qed.

Lemma turn_bytes x : 0 <= x < MAXFILE * BSIZE -> off <= x < off + m \/ mapped s ino (x / BSIZE) ->
  mapped s2 ino1 (x / BSIZE) /\ file_byte s2 ino1 x = if decide (off <= x < off + m) then g x else file_byte s ino x.
Proof.
  intros Hx Hc. pose proof turn_block as Hf. pose proof (mg_volume _ _ _ _ _ _ _ _ _ Mg) as V1. pose proof (mg_laid _ _ _ _ _ _ _ _ _ Mg) as L1.
  pose proof (mg_mapped _ _ _ _ _ _ _ _ _ Mg) as M1.
  assert (Hr : 0 <= x / BSIZE < MAXFILE) by (change BSIZE with 512 in *; change MAXFILE with 140 in *; Z.div_mod_to_equations; lia).
  assert (Hin : off <= x < off + m -> x / BSIZE = f) by (intros; unfold f, o in *; change BSIZE with 512 in *; Z.div_mod_to_equations; lia).
  assert (Hmx : mapped s1 ino1 (x / BSIZE)) by (destruct Hc as [Hc|Hc]; [by rewrite Hin|by apply turn_bmap]).
  split; [by apply (patch_mapped s1 s2 ino1 _ f _ V1 L1 Hf M1 turn_patch)|]. rewrite (patch_byte s1 s2 ino1 _ f _ V1 L1 Hf M1 turn_patch x Hx Hmx).
  assert (Hlen : length (content s1 d z) = block_size) by (eapply tx_length; apply Mg).
  assert (Hxm : 0 <= x mod BSIZE < BSIZE) by (apply Z.mod_pos_bound; done). assert (Hom : 0 <= o) by (apply Z.mod_pos_bound; done).
  case_decide as Ef.
  - rewrite lbyte_lput by (rewrite ?Hlen; unfold block_size; change BSIZE with 512 in *; lia). fold m.
    assert (Hiff : (o <= x mod BSIZE < o + m) <-> (off <= x < off + m)) by (unfold f, o in *; change BSIZE with 512 in *; Z.div_mod_to_equations; lia).
    case_decide as Hi; case_decide as Hi'; try tauto.
    + replace x with (off + (x - off)) at 2 by lia. rewrite Hg by lia. f_equal. unfold f, o in *. change BSIZE with 512 in *. Z.div_mod_to_equations. lia.
    + destruct Hc as [Hc|Hc]; [tauto|]. destruct (turn_bmap x Hx Hc) as [_ <-]. unfold file_byte.
      by rewrite Ef, (mg_block _ _ _ _ _ _ _ _ _ Mg), (la_dev _ _ L1).
  - rewrite decide_False by tauto. destruct Hc as [Hc|Hc]; [tauto|]. by apply turn_bmap.
Qed.

Lemma turn_wrote : wrote ip g off m 1 bl s ino (absorb z bl1) s2 ino1.
Proof.
  pose proof turn_block as Hf. pose proof (mg_volume _ _ _ _ _ _ _ _ _ Mg) as V1. pose proof (mg_laid _ _ _ _ _ _ _ _ _ Mg) as L1.
  pose proof (mg_mapped _ _ _ _ _ _ _ _ _ Mg) as M1. pose proof (patch_range s1 ino1 f L1 Hf M1) as [Hz _].
  pose proof (sm_sb _ _ (mg_same _ _ _ _ _ _ _ _ _ Mg)) as E1. rewrite (mg_block _ _ _ _ _ _ _ _ _ Mg), E1 in Hz.
  assert (Hne : forall n, n <> z -> content s2 d n = content s1 d n).
  { intros n Hn. apply (patch_ne s1 s2 ino1 _ f _ turn_patch). by rewrite (mg_block _ _ _ _ _ _ _ _ _ Mg). }
  split; [apply Hp|eapply same_tx_trans; [apply Mg|apply Hp]|rewrite (tp_inodes _ _ _ _ Hp); apply Mg|by eapply patch_volume; [..|exact turn_patch]
    |by eapply patch_laid; [..|exact turn_patch]|pose proof turn_log; lia| | | | |apply turn_bytes| | |].
  - rewrite (patch_free s1 s2 ino1 _ f _ V1 L1 Hf M1 turn_patch). pose proof (mg_free _ _ _ _ _ _ _ _ _ Mg). lia.
  - destruct (mg_ino _ _ _ _ _ _ _ _ _ Mg) as [->|[_ ->]]; by destruct ino.
  - intros Hall. apply (mg_there _ _ _ _ _ _ _ _ _ Mg). apply Hall. lia.
  - intros h Hh Hmh. destruct (mg_others _ _ _ _ _ _ _ _ _ Mg h Hh Hmh) as [H1 _]. by apply (patch_mapped s1 s2 ino1 _ f _ V1 L1 Hf M1 turn_patch).
  - intros n Hn Hu. destruct (mg_old _ _ _ _ _ _ _ _ _ Mg n Hn Hu) as [C1 U1]. pose proof (vl_first s1 V1).
    split; [by rewrite (patch_used s1 s2 ino1 _ f _ V1 L1 Hf M1 turn_patch) by (rewrite E1; lia)|]. intros Hs. rewrite Hne; [done|]. intros ->.
    assert (Es : place s1 ino1 (place_of f) = z) by (rewrite <- (mapped_slot s1 ino1 f (la_dev _ _ L1) M1); exact (mg_block _ _ _ _ _ _ _ _ _ Mg)).
    destruct (mg_slots _ _ _ _ _ _ _ _ _ Mg _ (slot_of_range f Hf)) as [E|E]; rewrite Es in E; [|congruence]. by apply (Hs _ (slot_of_range f Hf)).
  - intros n Hn Hb. rewrite Hne by lia. by apply (mg_meta _ _ _ _ _ _ _ _ _ Mg).
  - intros k Hk. rewrite (patch_slot s1 s2 ino1 _ f _ L1 Hf M1 turn_patch k Hk). by apply (mg_slots _ _ _ _ _ _ _ _ _ Mg).
Qed.
End turn.

(** The source of the bytes [bs]. *)
Definition supplies (get : Z -> Z -> K (list Z)) (bs : list Z) : Prop := forall tot m s, 0 <= tot -> 0 <= m -> tot + m <= Z.of_nat (length bs) -> get tot m s = Ret (lget tot m bs) s.

(** The blocks beyond the direct ones that are to be written are there. *)
Definition blocks_there (s : kernel) (ino : inode) (off len : Z) : Prop := forall f, NDIRECT <= f -> f * BSIZE < off + len -> off < (f + 1) * BSIZE -> mapped s ino f.

Lemma blocks_there_at s ino off len : 0 < len -> blocks_there s ino off len -> off / BSIZE < NDIRECT \/ mapped s ino (off / BSIZE).
Proof.
  intros Hn Hr. destruct (decide (off / BSIZE < NDIRECT)); [by left|right]. apply Hr; change BSIZE with 512 in *; Z.div_mod_to_equations; lia.
Qed.

(** The loop of [writei], in at most [t] turns. *)
Lemma writei_loop_ret ip get bs base : supplies get bs -> forall k t bl s ino tot, tx bl s -> volume s -> laid s ino -> k_inodes s !! ip = Some ino ->
  let n := Z.of_nat (length bs) in let off := base + tot in
  0 <= off -> 0 <= tot <= n -> off + (n - tot) <= MAXFILE * BSIZE -> blocks_there s ino off (n - tot) ->
  0 <= t <= Z.of_nat k -> (tot < n -> off mod BSIZE + (n - tot) <= BSIZE * t) ->
  Z.of_nat (length bl) + 2 * t + 1 <= log_size (k_log s) - 1 -> t <= Z.of_nat (free_blocks s) ->
  exists bl' s' ino', writei_loop k ip get tot off n s = Ret tt s' /\ wrote ip (fun x => lbyte bs (x - base)) off (n - tot) t bl s ino bl' s' ino'.
Proof.
  intros Hget. induction k as [|k IH]; intros t bl s ino tot Htx Hv Hl Hi n off H1 H2 H3 Hreach Ht H4 Hroom Hfree; cbn [writei_loop];
    (destruct (Z.ltb_spec tot n) as [Hlt|Hge]; [|replace (n - tot) with 0 by lia; exists bl, s, ino; split; [done|apply wrote_refl; (done || lia)]]).
  { pose proof (Z.mod_pos_bound off BSIZE). change BSIZE with 512 in *. lia. }
  assert (Hmod : 0 <= off mod BSIZE < BSIZE) by (apply Z.mod_pos_bound; done).
  set (m := Z.min (n - tot) (BSIZE - off mod BSIZE)).
  assert (Hm : 0 < m <= n - tot /\ m <= BSIZE - off mod BSIZE /\ (m = n - tot \/ m = BSIZE - off mod BSIZE)) by lia. clearbody m.
  assert (Hf : 0 <= off / BSIZE < MAXFILE) by (change (MAXFILE * BSIZE) with 71680 in H3; change BSIZE with 512 in *; change MAXFILE with 140; Z.div_mod_to_equations; lia).
  assert (H1t : 1 <= t) by (change BSIZE with 512 in *; lia).
  rewrite (bind_ret _ _ _ _ _ (getinode_ret _ _ _ Hi)), (la_dev _ _ Hl).
  destruct (bmap_tx ip (off / BSIZE) bl s ino Htx Hv Hl Hi Hf (blocks_there_at s ino off (n - tot) ltac:(lia) Hreach)) as (z & s1 & ino1 & bl1 & B & Mg); [lia|lia|].
  rewrite (bind_ret _ _ _ _ _ B). pose proof (mg_volume _ _ _ _ _ _ _ _ _ Mg) as V1. pose proof (mg_laid _ _ _ _ _ _ _ _ _ Mg) as L1.
  assert (Hz : home d st z).
  { apply (vl_data s1 V1). rewrite <- (mg_block _ _ _ _ _ _ _ _ _ Mg). apply (mapped_block s1 ino1 _ L1 Hf (mg_mapped _ _ _ _ _ _ _ _ _ Mg)). }
  destruct (tx_open bl1 s1 z (mg_tx _ _ _ _ _ _ _ _ _ Mg) Hz) as (b & s1' & R & _ & _ & _ & _ & U). rewrite (bind_ret _ _ _ _ _ R).
  rewrite (bind_ret _ _ _ _ _ (Hget tot m s1' ltac:(lia) ltac:(lia) ltac:(lia))).
  assert (Hlm : length (lget tot m bs) = Z.to_nat m) by (apply length_lget; lia).
  assert (Hlb1 : (length bl1 <= length bl + 2)%nat) by (destruct (mg_log _ _ _ _ _ _ _ _ _ Mg) as [?|[? _]]; lia).
  destruct (U (lput (off mod BSIZE) (lget tot m bs))) as (s2 & E2 & P2).
  { rewrite (sm_size _ _ (mg_same _ _ _ _ _ _ _ _ _ Mg)). lia. }
  { assert (Hc : length (content s1 d z) = block_size) by (eapply tx_length; apply Mg). rewrite length_lput; [done|lia|]. rewrite Hc, Hlm. unfold block_size. change BSIZE with 512 in *. lia. }
  rewrite (seq3_ret _ _ _ _ _ _ E2).
  assert (W : wrote ip (fun x => lbyte bs (x - base)) off m 1 bl s ino (absorb z bl1) s2 ino1).
  { replace m with (Z.of_nat (length (lget tot m bs))) by lia. eapply turn_wrote; [exact Hl|done|rewrite Hlm; lia|rewrite Hlm; lia|rewrite Hlm; lia| |exact Mg|exact P2].
    intros j Hj. rewrite Hlm in Hj. rewrite lbyte_lget by lia. rewrite decide_True by lia. f_equal. unfold off. lia. }
  destruct (IH (t - 1) (absorb z bl1) s2 ino1 (tot + m) (wr_tx _ _ _ _ _ _ _ _ _ _ _ W) (wr_volume _ _ _ _ _ _ _ _ _ _ _ W) (wr_laid _ _ _ _ _ _ _ _ _ _ _ W)) as (bl' & s' & ino' & L & W').
  - rewrite (wr_inodes _ _ _ _ _ _ _ _ _ _ _ W), list_lookup_insert_eq; [done|by eapply lookup_lt_Some].
  - lia.
  - lia.
  - lia.
  - intros f F1 F2 F3. apply (wr_mapped _ _ _ _ _ _ _ _ _ _ _ W).
    + change MAXFILE with 140 in *. change NDIRECT with 12 in *. change BSIZE with 512 in *. lia.
    + apply Hreach; [done|lia|]. change BSIZE with 512 in *. unfold off. lia.
  - lia.
  - intros Hlt'. specialize (H4 Hlt). change BSIZE with 512 in *. destruct Hm as (_ & _ & [->| ->]); [lia|]. fold n in Hlt' |- *. unfold off in *. Z.div_mod_to_equations. lia.
  - pose proof (wr_log _ _ _ _ _ _ _ _ _ _ _ W). rewrite (sm_size _ _ (wr_same _ _ _ _ _ _ _ _ _ _ _ W)). lia.
  - pose proof (wr_free _ _ _ _ _ _ _ _ _ _ _ W). lia.
  - exists bl', s', ino'. replace (off + m) with (base + (tot + m)) by (unfold off; lia). split; [exact L|].
    replace (n - tot) with (m + (n - (tot + m))) by lia. replace t with (1 + (t - 1)) by lia.
    eapply wrote_trans; [lia|lia|done|lia|by eapply lookup_lt_Some|exact W|]. replace (off + m) with (base + (tot + m)) by (unfold off; lia). exact W'.
Qed.

(** ** Storing the inode *)

(** The block of inode [n] is one of the file system's own, outside the bitmap. *)
Record inode_home (s : kernel) (n : Z) : Prop := {
  ih_num : 0 <= n < 2 ^ 31;
  ih_home : home d st (IBLOCK n (k_sb s));
  ih_range : 0 <= IBLOCK n (k_sb s) < nm;
  ih_bitmap : forall b, 0 <= b < sb_size (k_sb s) -> IBLOCK n (k_sb s) <> BBLOCK b (k_sb s)
}.

Definition stored (s : kernel) (ino : inode) (n : Z) : list Z :=
  if decide (n = IBLOCK (i_inum ino) (k_sb s)) then enc_dinode (dinode_off (i_inum ino)) ino (content s d n) else content s d n.

Lemma iupdate_ret ip bl s ino : tx bl s -> k_inodes s !! ip = Some ino -> i_dev ino = d -> inode_home s (i_inum ino) ->
  Z.of_nat (length bl) < log_size (k_log s) - 1 ->
  exists s', iupdate ip s = Ret tt s' /\ tx_step s (absorb (IBLOCK (i_inum ino) (k_sb s)) bl) (stored s ino) s'.
Proof.
  intros Htx Hi Hd [_ Hh _ _] Hroom. unfold iupdate. rewrite (bind_ret _ _ _ _ _ (getinode_ret _ _ _ Hi)). kget. rewrite Hd.
  destruct (tx_open bl s _ Htx Hh) as (b & s1 & R & _ & Ei & _ & _ & U). rewrite (bind_ret _ _ _ _ _ R).
  assert (Hi1 : k_inodes s1 !! ip = Some ino) by (by rewrite Ei). rewrite (bind_ret _ _ _ _ _ (getinode_ret _ _ _ Hi1)).
  destruct (U (enc_dinode (dinode_off (i_inum ino)) ino) Hroom) as (s2 & E2 & [T S I C]).
  { unfold enc_dinode. rewrite length_put_addrs, length_lput32, !length_lput16. by eapply tx_length. }
  exists s2. split; [exact E2|]. split; [done|done|done|]. intros n. rewrite C. unfold stored. by case_decide; subst.
Qed.

(** A change of a block that is neither a file's nor of the bitmap. *)
Section meta.
Context (s s' : kernel) (bl' : list Z) (fc : Z -> list Z).
Hypothesis (Hv : volume s) (Hp : tx_step s bl' fc s').
Hypothesis (Hdata : forall n, nm <= n -> fc n = content s d n) (Hbits : forall b, 0 <= b < sb_size (k_sb s) -> fc (BBLOCK b (k_sb s)) = content s d (BBLOCK b (k_sb s))).

Lemma meta_used y : 0 <= y < sb_size (k_sb s) -> used s' y = used s y.
Proof. intros Hy. unfold used. by rewrite (sm_sb _ _ (tp_same _ _ _ _ Hp)), (tp_content _ _ _ _ Hp), Hbits. Qed.

Lemma meta_content n : nm <= n -> content s' d n = content s d n.
Proof. intros Hn. by rewrite (tp_content _ _ _ _ Hp), Hdata. Qed.

Lemma meta_volume : volume s'.
Proof.
  pose proof (sm_sb _ _ (tp_same _ _ _ _ Hp)) as E. pose proof (vl_size s Hv). split; rewrite ?E; try apply Hv. intros y Hy. rewrite meta_used by lia. by apply Hv.
Qed.

Lemma meta_laid ino : laid s ino -> laid s' ino.
Proof.
  intros Hl. pose proof (vl_first s Hv). apply (laid_kept s); [done|apply Hp|intros n Hn _; apply meta_content; lia|]. intros n Hn Hu. by rewrite meta_used by lia.
Qed.

Lemma meta_block ino g : laid s ino -> 0 <= g < MAXFILE -> mapped s ino g -> mapped s' ino g /\ block_of s' ino g = block_of s ino g.
Proof.
  intros Hl Hg Hmg. assert (Hd : g < NDIRECT \/ iaddr ino NDIRECT <> 0) by (destruct (decide (g < NDIRECT)); [by left|right]; apply Hmg; lia).
  assert (Eb : block_of s' ino g = block_of s ino g).
  { rewrite !(block_slot _ ino g (la_dev _ _ Hl) Hd). apply slot_kept; [done|]. intros n Hn _. apply meta_content. lia. }
  split; [|done]. apply slot_mapped; [apply meta_volume|by apply meta_laid|done|done|]. rewrite <- (block_slot s' ino g (la_dev _ _ Hl) Hd), Eb. apply Hmg.
Qed.

Lemma meta_byte ino x : laid s ino -> 0 <= x < MAXFILE * BSIZE -> mapped s ino (x / BSIZE) -> file_byte s' ino x = file_byte s ino x.
Proof.
  intros Hl Hx Hm. assert (Hg : 0 <= x / BSIZE < MAXFILE) by (change BSIZE with 512 in *; change MAXFILE with 140 in *; Z.div_mod_to_equations; lia).
  unfold file_byte. destruct (meta_block ino _ Hl Hg Hm) as [_ ->]. rewrite (la_dev _ _ Hl), meta_content; [done|]. apply (mapped_block s ino _ Hl Hg Hm).
Qed.
End meta.

(** ** [writei] *)

(** The file of inode [ip] after the bytes [bs] have been written at [off]. *)
Record file_written (ip : nat) (off : Z) (bs : list Z) (s : kernel) (ino : inode) (s' : kernel) (ino' : inode) : Prop := {
  wn_same : same_tx s s';
  wn_inodes : k_inodes s' = <[ip := ino']> (k_inodes s);
  wn_volume : volume s';
  wn_laid : laid s' ino';
  wn_whole : whole s' ino';
  wn_fields : ino' = ino <| i_size := Z.max (i_size ino) (off + Z.of_nat (length bs)) |> <| i_addrs := i_addrs ino' |>;
  wn_stored : ino' = from_disk s' ino';
  wn_data : file_data s' ino' = take (Z.to_nat off) (file_data s ino) ++ bs ++ drop (Z.to_nat off + length bs) (file_data s ino);
  wn_old : forall n, nm <= n < sb_size (k_sb s) -> used s n = true -> used s' n = true /\
    ((forall k, 0 <= k < places -> place s ino k <> n) -> content s' d n = content s d n);
  wn_inode : forall n, n <> i_inum ino -> inode_home s n -> disk_inode s' d n = disk_inode s d n
}.

Lemma lbyte_file s ino x : 0 <= x < i_size ino -> lbyte (file_data s ino) x = file_byte s ino x.
Proof.
  intros Hx. unfold lbyte, file_data, file_bytes. rewrite list_lookup_fmap, lookup_seqZ_lt by lia. cbn. f_equal. lia.
Qed.

(** The bytes of the file, from those of each place. *)
Lemma patched_data s s' ino ino' off bs : 0 <= off <= i_size ino -> i_size ino' = Z.max (i_size ino) (off + Z.of_nat (length bs)) ->
  (forall x, 0 <= x < i_size ino' -> file_byte s' ino' x = if decide (off <= x < off + Z.of_nat (length bs)) then lbyte bs (x - off) else file_byte s ino x) ->
  file_data s' ino' = take (Z.to_nat off) (file_data s ino) ++ bs ++ drop (Z.to_nat off + length bs) (file_data s ino).
Proof.
  intros Ho Es Hx. assert (Hl : length (file_data s ino) = Z.to_nat (i_size ino)) by apply length_file_bytes.
  assert (Hl' : length (file_data s' ino') = Z.to_nat (i_size ino')) by apply length_file_bytes.
  apply list_eq_lbyte; [rewrite !length_app, length_take, length_drop; lia|]. rewrite Hl'. intros x Hr. rewrite lbyte_file, Hx by lia.
  rewrite lbyte_app by lia. rewrite length_take. destruct (decide (x < off)) as [Hlt|Hge].
  - rewrite decide_False, decide_True by lia. rewrite <- lbyte_file by lia. unfold lbyte. by rewrite lookup_take_lt by lia.
  - rewrite (decide_False (P := x < Z.of_nat (Nat.min (Z.to_nat off) (length (file_data s ino))))) by lia. rewrite lbyte_app by lia. case_decide as Hin.
    + rewrite decide_True by lia. f_equal. lia.
    + rewrite decide_False by lia. rewrite <- lbyte_file by lia. unfold lbyte. rewrite lookup_drop. do 2 f_equal. lia.
Qed.

(** The inode that has been stored is the one that is read again, and the
    other inodes are as before. *)
Lemma stored_inode s s' bl bl' ino : tx bl s -> tx_step s bl' (stored s ino) s' -> i_dev ino = d -> dinode_ok ino -> ino = from_disk s' ino.
Proof.
  intros Htx P Hd Hok. unfold from_disk. rewrite Hd, (sm_sb _ _ (tp_same _ _ _ _ P)), (tp_content _ _ _ _ P). unfold stored. rewrite decide_True by done.
  destruct (dinode_off_range (i_inum ino)) as [O1 O2]. rewrite dec_enc_dinode; [by destruct ino|done|done|].
  rewrite (tx_length bl) by done. unfold block_size. change BSIZE with 512 in *. lia.
Qed.

Lemma stored_others s s' bl bl' ino n : tx bl s -> tx_step s bl' (stored s ino) s' -> length (i_addrs ino) = Z.to_nat (NDIRECT + 1) ->
  0 <= i_inum ino < 2 ^ 31 -> 0 <= n < 2 ^ 31 -> n <> i_inum ino -> disk_inode s' d n = disk_inode s d n.
Proof.
  intros Htx P Hl Hi Hn Hne. unfold disk_inode, from_disk. cbn [i_inum i_dev]. rewrite (sm_sb _ _ (tp_same _ _ _ _ P)), (tp_content _ _ _ _ P). unfold stored.
  case_decide as E; [|done]. apply IBLOCK_inj in E; [|done|done]. destruct (dinode_off_range (i_inum ino)) as [O1 O2]. destruct (dinode_off_range n) as [O3 _].
  apply dec_enc_dinode_ne; [done|done| |done|].
  - rewrite (tx_length bl) by done. unfold block_size. change BSIZE with 512 in *. lia.
  - apply dinode_off_apart. change IPB with 8 in *. Z.div_mod_to_equations. lia.
Qed.

(** The block numbers of an inode fit its fields. *)
Lemma dinode_ok_laid s ino ino' x : volume s -> laid s ino' -> dinode_ok ino -> ino' = ino <| i_addrs := i_addrs ino' |> -> is_u32 x -> dinode_ok (ino' <| i_size := x |>).
Proof.
  intros Hv Hl [D1 D2 D3 D4 D5 D6 D7] E Hx. rewrite E. split; try done; [|by rewrite <- (la_len _ _ Hl)].
  apply Forall_lookup. intros k a Hk. change (i_addrs ino' !! k = Some a) in Hk. pose proof (lookup_lt_Some _ _ _ Hk) as Hlt. rewrite (la_len _ _ Hl) in Hlt.
  assert (Es : place s ino' (Z.of_nat k) = a).
  { unfold place. rewrite (proj2 (Z.ltb_lt _ _)) by lia. unfold iaddr. by rewrite Nat2Z.id, Hk. }
  pose proof (vl_size s Hv). pose proof (vl_first s Hv). unfold is_u32. destruct (decide (a = 0)) as [->|Ha]; [lia|].
  destruct (la_slot _ _ Hl (Z.of_nat k)) as [Hr _]; [unfold places; change NINDIRECT with 128; lia|by rewrite Es|]. rewrite Es in Hr. lia.
Qed.

Section end_of_writei.
Context (ip : nat) (off t : Z) (bs bl : list Z) (s : kernel) (ino : inode) (bl1 : list Z) (s1 : kernel) (ino1 : inode).
Let n := Z.of_nat (length bs).
Hypothesis (Hw : whole s ino) (Hl : laid s ino) (Hi : k_inodes s !! ip = Some ino) (Hh : inode_home s (i_inum ino)).
Hypothesis (Hoff : 0 <= off <= i_size ino) (Hend : off + n <= MAXFILE * BSIZE).
Hypothesis (W : wrote ip (fun x => lbyte bs (x - off)) off n t bl s ino bl1 s1 ino1).

Lemma end_block x : 0 <= x < MAXFILE * BSIZE -> x < i_size ino \/ x < off + n -> off <= x < off + n \/ mapped s ino (x / BSIZE).
Proof.
  intros Hx Hc. destruct (decide (off <= x < off + n)); [by left|right]. apply (wh_mapped _ _ Hw); change BSIZE with 512 in *; Z.div_mod_to_equations; lia.
Qed.

Lemma end_bytes x : 0 <= x < Z.max (i_size ino) (off + n) -> mapped s1 ino1 (x / BSIZE) /\
  file_byte s1 ino1 x = if decide (off <= x < off + n) then lbyte bs (x - off) else file_byte s ino x.
Proof.
  intros Hx. pose proof (wh_size _ _ Hw). assert (Hr : 0 <= x < MAXFILE * BSIZE) by lia.
  apply (wr_bytes _ _ _ _ _ _ _ _ _ _ _ W x Hr). apply end_block; [done|lia].
Qed.

Lemma end_mapped f : 0 <= f -> f * BSIZE < Z.max (i_size ino) (off + n) -> mapped s1 ino1 f.
Proof.
  intros H1 H2. destruct (end_bytes (f * BSIZE)) as [H _]; [change BSIZE with 512 in *; lia|]. by rewrite Z.div_mul in H by done.
Qed.

(** The write stays inside the file. *)
Lemma inside_written : off + n <= i_size ino -> ino = from_disk s ino -> file_written ip off bs s ino s1 ino1.
Proof.
  intros Hin Hst. assert (E : ino1 = ino).
  { apply (wr_there _ _ _ _ _ _ _ _ _ _ _ W). intros x Hx. apply (wh_mapped _ _ Hw); change BSIZE with 512 in *; Z.div_mod_to_equations; lia. }
  assert (Emax : Z.max (i_size ino) (off + n) = i_size ino) by lia.
  assert (Hmeta : forall m, inode_home s m -> content s1 d (IBLOCK m (k_sb s)) = content s d (IBLOCK m (k_sb s))).
  { intros m [_ _ M1 M2]. by apply (wr_meta _ _ _ _ _ _ _ _ _ _ _ W). }
  pose proof (sm_sb _ _ (wr_same _ _ _ _ _ _ _ _ _ _ _ W)) as Eb.
  split; [apply W|apply W|apply W|apply W| | | | |apply (wr_old _ _ _ _ _ _ _ _ _ _ _ W)|]; rewrite ?E.
  - split; [apply Hw|]. intros f F1 F2. rewrite <- E. apply end_mapped; [done|lia].
  - fold n. rewrite Emax. by destruct ino.
  - rewrite Hst at 1. unfold from_disk. rewrite Eb, (la_dev _ _ Hl). by rewrite Hmeta.
  - apply patched_data; [done|lia|]. fold n. intros x Hx. rewrite <- E at 1. apply end_bytes. lia.
  - intros m _ Hm. unfold disk_inode, from_disk. cbn [i_inum i_dev]. by rewrite Eb, Hmeta.
Qed.

(** The file grows: its inode is stored. *)
Lemma grown_written s2 bl2 (ino2 := ino1 <| i_size := off + n |>) (s1' := put_inode ip ino2 s1) : i_size ino < off + n -> dinode_ok ino ->
  tx_step s1' bl2 (stored s1' ino2) s2 -> file_written ip off bs s ino s2 ino2.
Proof.
  intros Hgr Hok P. pose proof (wr_same _ _ _ _ _ _ _ _ _ _ _ W) as S1. pose proof (sm_sb _ _ S1) as Eb. pose proof (wr_fields _ _ _ _ _ _ _ _ _ _ _ W) as Ef.
  assert (Enum : i_inum ino2 = i_inum ino) by (unfold ino2; rewrite Ef; done).
  assert (V1 : volume s1') by (apply volume_inodes, W). assert (L1 : laid s1' ino1) by (apply laid_inodes, W).
  assert (Eb1 : k_sb s1' = k_sb s) by exact Eb. destruct Hh as [M0 Mh M1 M2].
  assert (Hdata : forall m, nm <= m -> stored s1' ino2 m = content s1' d m).
  { intros m Hm. unfold stored. rewrite Enum, Eb1. by rewrite decide_False by lia. }
  assert (Hbits : forall b, 0 <= b < sb_size (k_sb s1') -> stored s1' ino2 (BBLOCK b (k_sb s1')) = content s1' d (BBLOCK b (k_sb s1'))).
  { intros b Hb. unfold stored. rewrite Enum, Eb1 in *. rewrite decide_False; [done|]. intros E. by destruct (M2 b Hb). }
  assert (Emax : Z.max (i_size ino) (off + n) = off + n) by lia.
  assert (Hmapped : forall f, 0 <= f -> f * BSIZE < off + n -> mapped s2 ino2 f).
  { intros f F1 F2. assert (Hf : 0 <= f < MAXFILE) by (change (MAXFILE * BSIZE) with 71680 in Hend; change BSIZE with 512 in *; change MAXFILE with 140; lia).
    assert (Hm : mapped s1' ino1 f) by (apply mapped_inodes, end_mapped; [done|lia]).
    by destruct (meta_block s1' s2 _ _ V1 P Hdata Hbits ino1 f L1 Hf Hm) as [[] _]. }
  assert (Hlaid : laid s2 ino2) by (by destruct (meta_laid s1' s2 _ _ V1 P Hdata Hbits ino1 L1)).
  split; [| |exact (meta_volume s1' s2 _ _ V1 P Hbits)|done| | | | | |].
  - eapply same_tx_trans; [exact S1|]. by destruct (tp_same _ _ _ _ P).
  - rewrite (tp_inodes _ _ _ _ P). unfold s1', put_inode. cbn. by rewrite (wr_inodes _ _ _ _ _ _ _ _ _ _ _ W), list_insert_insert_eq.
  - split; [change (i_size ino2) with (off + n); lia|exact Hmapped].
  - fold n. rewrite Emax. unfold ino2. rewrite Ef at 1. done.
  - apply (stored_inode s1' s2 bl1 bl2); [by apply tx_inodes, W|done|apply Hlaid|].
    apply (dinode_ok_laid s1 ino); [apply W|apply W|done|done|]. unfold is_u32. change (MAXFILE * BSIZE) with 71680 in Hend. lia.
  - apply patched_data; [done|change (i_size ino2) with (off + n); lia|]. fold n. change (i_size ino2) with (off + n). intros x Hx.
    destruct (end_bytes x ltac:(lia)) as [Hm <-]. change (file_byte s2 ino2 x) with (file_byte s2 ino1 x). change (file_byte s1 ino1 x) with (file_byte s1' ino1 x).
    apply (meta_byte s1' s2 _ _ V1 P Hdata Hbits); [done|lia|by apply mapped_inodes].
  - intros m Hm Hu. destruct (wr_old _ _ _ _ _ _ _ _ _ _ _ W m Hm Hu) as [U1 C1]. pose proof (vl_first _ V1). split.
    + by rewrite (meta_used s1' s2 _ _ P Hbits) by (rewrite Eb1; lia).
    + intros Hs. rewrite (meta_content s1' s2 _ _ P Hdata) by lia. by apply C1.
  - intros m Hne [Q0 Qh Q1 Q2]. rewrite <- Enum in Hne. rewrite (stored_others s1' s2 bl1 bl2 ino2 m); [|by apply tx_inodes, W|done|apply Hlaid|by rewrite Enum|done|done].
    unfold disk_inode, from_disk. cbn [i_inum i_dev]. rewrite Eb1. change (content s1' d (IBLOCK m (k_sb s))) with (content s1 d (IBLOCK m (k_sb s))).
    by rewrite (wr_meta _ _ _ _ _ _ _ _ _ _ _ W).
Qed.
End end_of_writei.

(** The number of blocks that a piece of a file touches. *)
Definition touched (off n : Z) : Z := (off mod BSIZE + n + (BSIZE - 1)) / BSIZE.

(** A file whose inode is the one on the disk. *)
Record sound (s : kernel) (ino : inode) : Prop := {
  sd_laid : laid s ino;
  sd_whole : whole s ino;
  sd_home : inode_home s (i_inum ino);
  sd_fields : dinode_ok ino;
  sd_stored : ino = from_disk s ino
}.

Lemma writei_ret ip get bs off bl s ino (n := Z.of_nat (length bs)) : tx bl s -> volume s -> k_inodes s !! ip = Some ino -> i_type ino <> T_DEV -> sound s ino -> supplies get bs ->
  0 <= off < 2 ^ 32 -> n < 2 ^ 32 -> blocks_there s ino off n ->
  Z.of_nat (length bl) + 2 * touched off n + 1 <= log_size (k_log s) - 1 -> touched off n <= Z.of_nat (free_blocks s) ->
  if (i_size ino <? off) || (2 ^ 32 <=? off + n) || (MAXFILE * BSIZE <? off + n) then writei ip get off n s = Ret (-1) s
  else exists bl' s' ino', writei ip get off n s = Ret n s' /\ tx bl' s' /\ file_written ip off bs s ino s' ino'.
Proof.
  intros Htx Hv Hi Ht [Hl Hw Hh Hok Hst] Hget Ho Hn Hreach Hroom Hfree. unfold writei.
  rewrite (bind_ret _ _ _ _ _ (getinode_ret _ _ _ Hi)), (proj2 (Z.eqb_neq _ _) Ht). unfold u32.
  destruct (Z.ltb_spec (i_size ino) off) as [H1|H1]; cbn [orb]; [done|].
  destruct (Z.leb_spec (2 ^ 32) (off + n)) as [H2|H2]; cbn [orb].
  { rewrite (proj2 (Z.ltb_lt _ _)); [done|]. Z.div_mod_to_equations. lia. }
  rewrite Z.mod_small by lia. rewrite (proj2 (Z.ltb_ge (off + n) off)) by lia. destruct (Z.ltb_spec (MAXFILE * BSIZE) (off + n)) as [H3|H3]; [done|].
  assert (Hmod : 0 <= off mod BSIZE < BSIZE) by (apply Z.mod_pos_bound; done).
  destruct (writei_loop_ret ip get bs off Hget (Z.to_nat (n / BSIZE) + 2) (touched off n) bl s ino 0 Htx Hv Hl Hi) as (bl1 & s1 & ino1 & L & W);
    rewrite ?Z.add_0_r; fold n; rewrite ?Z.sub_0_r; try (done || lia).
  { unfold touched. change BSIZE with 512 in *. Z.div_mod_to_equations. lia. }
  { intros _. unfold touched. change BSIZE with 512 in *. Z.div_mod_to_equations. lia. }
  rewrite Z.add_0_r in L, W. fold n in L, W. rewrite Z.sub_0_r in W. rewrite (bind_ret _ _ _ _ _ L). cbv zeta.
  assert (Hi1 : k_inodes s1 !! ip = Some ino1) by (rewrite (wr_inodes _ _ _ _ _ _ _ _ _ _ _ W); apply list_lookup_insert_eq; by eapply lookup_lt_Some).
  rewrite (bind_ret _ _ _ _ _ (getinode_ret _ _ _ Hi1)). pose proof (wr_fields _ _ _ _ _ _ _ _ _ _ _ W) as Ef.
  assert (Esz : i_size ino1 = i_size ino) by (by rewrite Ef). rewrite Esz. assert (En : i32 n = n) by (apply i32_small; change (MAXFILE * BSIZE) with 71680 in H3; lia).
  destruct ((0 <? n) && (i_size ino <? off + n)) eqn:Eg; unfold when.
  - apply andb_true_iff in Eg as [_ Eg%Z.ltb_lt]. set (ino2 := ino1 <| i_size := off + n |>). set (s1' := put_inode ip ino2 s1).
    assert (Enum : i_inum ino2 = i_inum ino) by (unfold ino2; by rewrite Ef).
    assert (Hh1 : inode_home s1' (i_inum ino2)).
    { pose proof (sm_sb _ _ (wr_same _ _ _ _ _ _ _ _ _ _ _ W)) as Eb. destruct Hh. split; change (k_sb s1') with (k_sb s1); by rewrite ?Eb, Enum. }
    destruct (iupdate_ret ip bl1 s1' ino2) as (s2 & U & P); [by apply tx_inodes, W|by eapply put_inode_lookup|apply (wr_laid _ _ _ _ _ _ _ _ _ _ _ W)|done| |].
    { pose proof (wr_log _ _ _ _ _ _ _ _ _ _ _ W). change (log_size (k_log s1')) with (log_size (k_log s1)). rewrite (sm_size _ _ (wr_same _ _ _ _ _ _ _ _ _ _ _ W)). lia. }
    assert (E2 : (do! updinode ip (fun i => i <| i_size := off + n |>); iupdate ip) s1 = Ret tt s2).
    { rewrite (bind_ret _ _ _ _ _ (updinode_ret ip _ _ _ Hi1)). exact U. }
    rewrite (bind_ret _ _ _ _ _ E2), En. eexists _, s2, ino2. split_and!; [done|apply P|]. eapply grown_written; first [exact P|exact W|exact Hw|exact Hl|exact Hh|exact H3|exact Eg|exact Hok|lia].
  - erewrite bind_ret by reflexivity. rewrite En. exists bl1, s1, ino1. split_and!; [done|apply W|]. eapply inside_written; [first [exact Hw|exact Hl|exact Hi|exact Hh|exact H3|exact W|exact Hst|lia]..| |exact Hst].
    apply andb_false_iff in Eg as [Eg%Z.ltb_ge|Eg%Z.ltb_ge]; lia.
Qed.

(** ** A write as an operation *)

(** A kernel that sees the blocks [f] on the device. *)
Definition sees_blocks (v : kernel) (f : Z -> list Z) : Prop := forall z, home d st z -> content v d z = f z.

Lemma seen_file v s ino : volume s -> sound s ino -> k_sb v = k_sb s -> sees_blocks v (content s d) ->
  file_data v (disk_inode v d (i_inum ino)) = file_data s ino.
Proof.
  intros Hv [Hl Hw Hh _ Hst] Eb Hs.
  assert (Ed : disk_inode v d (i_inum ino) = disk_inode s d (i_inum ino)).
  { unfold disk_inode, from_disk. cbn [i_inum i_dev]. rewrite Eb. by rewrite (Hs _ (ih_home _ _ Hh)). }
  destruct (from_disk_agrees s ino Hst) as (_ & _ & _ & _ & Hsame). rewrite (la_dev _ _ Hl) in Hsame.
  rewrite Ed, <- (file_data_same v _ _ Hsame). unfold file_data, file_bytes. apply map_ext_in. intros x Hx%list_elem_of_In%elem_of_seqZ.
  assert (Hg : 0 <= x / BSIZE < MAXFILE /\ x / BSIZE * BSIZE < i_size ino).
  { pose proof (wh_size _ _ Hw). change (MAXFILE * BSIZE) with 71680 in *. change BSIZE with 512. change MAXFILE with 140. Z.div_mod_to_equations. lia. }
  destruct Hg as [Hg1 Hg2]. pose proof (wh_mapped _ _ Hw (x / BSIZE) ltac:(lia) Hg2) as Hm.
  assert (Hd : x / BSIZE < NDIRECT \/ iaddr ino NDIRECT <> 0) by (destruct (decide (x / BSIZE < NDIRECT)); [by left|right]; apply Hm; lia).
  assert (Eblk : block_of v ino (x / BSIZE) = block_of s ino (x / BSIZE)).
  { rewrite !(block_slot _ ino _ (la_dev _ _ Hl) Hd). apply slot_kept; [done|]. intros z Hz _. by apply Hs, (vl_data s Hv). }
  unfold file_byte. rewrite Eblk, (la_dev _ _ Hl). destruct (mapped_block s ino _ Hl Hg1 Hm) as [Hr _]. by rewrite (Hs _ (vl_data s Hv _ Hr)).
Qed.

(** [begin_op], [writei], [end_op], as in [filewrite]. *)
Definition write_op (ip : nat) (get : Z -> Z -> K (list Z)) (off n : Z) : K Z :=
  do! begin_op; let! r := writei ip get off n in do! end_op; ret r.

Lemma sound_same s s' ino : k_sb s' = k_sb s -> (forall n, content s' d n = content s d n) -> volume s -> sound s ino -> sound s' ino.
Proof.
  intros E2 E3 Hv [W3 W4 W5 W6 W7].
  assert (Hl : laid s' ino) by (apply (laid_kept s); [done|done|by intros|intros z _ Hz; by rewrite (used_kept s s')]).
  assert (Hv' : volume s') by (by eapply volume_same).
  split; [done| |destruct W5; split; rewrite ?E2; done|done|].
  - split; [apply W4|]. intros f F1 F2. pose proof (wh_mapped _ _ W4 f F1 F2) as Hm.
    assert (Hf : 0 <= f < MAXFILE) by (pose proof (wh_size _ _ W4); change (MAXFILE * BSIZE) with 71680 in *; change BSIZE with 512 in *; change MAXFILE with 140; lia).
    assert (Hd : f < NDIRECT \/ iaddr ino NDIRECT <> 0) by (destruct (decide (f < NDIRECT)); [by left|right]; apply Hm; lia).
    apply slot_mapped; try done. rewrite (slot_kept s s' ino) by (done || by intros). rewrite <- (block_slot s ino f (la_dev _ _ Hl) Hd). apply Hm.
  - rewrite W7 at 1. unfold from_disk. by rewrite E2, (la_dev _ _ Hl), E3.
Qed.

(** The written file, and the files that have no block with it in common. *)
Lemma written_sound ip off bs s ino s' ino' : volume s -> sound s ino -> off + Z.of_nat (length bs) <= MAXFILE * BSIZE -> file_written ip off bs s ino s' ino' -> sound s' ino' /\ i_inum ino' = i_inum ino.
Proof.
  intros Hv [_ Hw Hh Hok _] Hend [Sm _ V L W Ef St _ _ _]. assert (En : i_inum ino' = i_inum ino) by (by rewrite Ef). split; [|done].
  split; [done|done|rewrite En; destruct Hh; split; rewrite ?(sm_sb _ _ Sm); done| |done].
  set (x := Z.max _ _) in Ef. assert (Hx : is_u32 x) by (pose proof (wh_size _ _ Hw); unfold is_u32; change (MAXFILE * BSIZE) with 71680 in *; lia).
  assert (E2 : ino' = (ino <| i_addrs := i_addrs ino' |>) <| i_size := x |>) by (rewrite Ef at 1; reflexivity).
  rewrite E2. apply (dinode_ok_laid s' ino (ino <| i_addrs := i_addrs ino' |>)); [done| |done|done|done]. destruct L as [A1 A2 A3 A4]. split; [by rewrite Ef in A1|done|exact A3|exact A4].
Qed.

Lemma volume_opened s : volume s -> volume (opened s).
Proof. intros Hv. by apply (volume_same s). Qed.
Lemma sound_opened s ino : volume s -> sound s ino -> sound (opened s) ino.
Proof. intros Hv Hs. by apply (sound_same s). Qed.
Lemma data_opened s ino : file_data (opened s) ino = file_data s ino.
Proof. done. Qed.
Lemma free_opened s : free_blocks (opened s) = free_blocks s.
Proof. done. Qed.

(** A step that changes none of the blocks of a file. *)
Definition untouched (s s' : kernel) (ino : inode) : Prop := forall k, 0 <= k < places -> place s ino k <> 0 ->
  content s' d (place s ino k) = content s d (place s ino k) /\ used s' (place s ino k) = true.

Section untouched.
Context (s s' : kernel) (ino : inode).
Hypothesis (Hv' : volume s') (Eb : k_sb s' = k_sb s) (Hs : sound s ino) (Hun : untouched s s' ino).

Lemma untouched_slot k : place s' ino k = place s ino k.
Proof.
  unfold place. destruct (k <? NDIRECT + 1); [done|]. destruct (Z.eqb_spec (iaddr ino NDIRECT) 0) as [?|Hne]; [done|].
  change (iaddr ino NDIRECT) with (place s ino NDIRECT) in Hne |- *. by destruct (Hun NDIRECT ltac:(done) Hne) as [-> _].
Qed.

Lemma untouched_laid : laid s' ino.
Proof.
  pose proof (sd_laid _ _ Hs) as Hl. split; [apply Hl|apply Hl| |].
  - intros k Hk. rewrite untouched_slot, Eb. intros Hne. split; [by apply Hl|by apply Hun].
  - intros k l Hk Hk'. rewrite !untouched_slot. by apply Hl.
Qed.

Lemma untouched_block f : 0 <= f -> f * BSIZE < i_size ino -> mapped s' ino f /\ block_of s' ino f = block_of s ino f /\
  content s' d (block_of s ino f) = content s d (block_of s ino f).
Proof.
  intros F1 F2. pose proof (wh_mapped _ _ (sd_whole _ _ Hs) f F1 F2) as Hm. pose proof (wh_size _ _ (sd_whole _ _ Hs)) as Hsz.
  assert (Hf : 0 <= f < MAXFILE) by (change (MAXFILE * BSIZE) with 71680 in *; change BSIZE with 512 in *; change MAXFILE with 140; lia).
  assert (Hd : f < NDIRECT \/ iaddr ino NDIRECT <> 0) by (destruct (decide (f < NDIRECT)); [by left|right]; apply Hm; lia).
  pose proof (la_dev _ _ (sd_laid _ _ Hs)) as Ed. pose proof (block_slot s ino f Ed Hd) as E. assert (Hne : place s ino (place_of f) <> 0) by (rewrite <- E; apply Hm).
  split_and!.
  - apply slot_mapped; [done|apply untouched_laid|done|done|by rewrite untouched_slot].
  - by rewrite (block_slot s' ino f Ed Hd), untouched_slot, E.
  - rewrite E. by apply Hun; [apply slot_of_range|].
Qed.

Lemma untouched_data : file_data s' ino = file_data s ino.
Proof.
  unfold file_data, file_bytes. apply map_ext_in. intros x Hx%list_elem_of_In%elem_of_seqZ.
  assert (Hf : 0 <= x / BSIZE /\ x / BSIZE * BSIZE < i_size ino) by (change BSIZE with 512; Z.div_mod_to_equations; lia). destruct Hf as [F1 F2].
  destruct (untouched_block _ F1 F2) as (_ & E1 & E2). unfold file_byte. by rewrite E1, (la_dev _ _ (sd_laid _ _ Hs)), E2.
Qed.

Lemma untouched_sound : disk_inode s' d (i_inum ino) = disk_inode s d (i_inum ino) -> sound s' ino.
Proof.
  intros Ed. destruct Hs as [L W H Ok St] eqn:Es. split; [apply untouched_laid| |destruct H; split; rewrite ?Eb; done|done|].
  - split; [apply W|]. intros f F1 F2. by apply untouched_block.
  - rewrite St at 1. change (from_disk s ino) with (on_disk (disk_inode s (i_dev ino) (i_inum ino)) ino).
    change (from_disk s' ino) with (on_disk (disk_inode s' (i_dev ino) (i_inum ino)) ino). by rewrite (la_dev _ _ L), Ed.
Qed.
End untouched.

Lemma file_written_other ip off bs s ino s' ino' other : volume s -> file_written ip off bs s ino s' ino' -> sound s other -> i_inum other <> i_inum ino ->
  (forall k l, 0 <= k < places -> 0 <= l < places -> place s ino k = place s other l -> place s ino k = 0) ->
  sound s' other /\ file_data s' other = file_data s other.
Proof.
  intros Hv Wn Hs Hne Hdis. pose proof (sm_sb _ _ (wn_same _ _ _ _ _ _ _ Wn)) as Eb. pose proof (wn_volume _ _ _ _ _ _ _ Wn) as Hv'.
  assert (Hun : untouched s s' other).
  { intros k Hk Hz. destruct (la_slot _ _ (sd_laid _ _ Hs) k Hk Hz) as [Hr Hu]. destruct (wn_old _ _ _ _ _ _ _ Wn _ Hr Hu) as [U C]. split; [|done].
    apply C. intros l Hl E. apply Hz. rewrite <- E. by apply (Hdis l k). }
  split; [|by apply untouched_data]. apply (untouched_sound s); try done. apply (wn_inode _ _ _ _ _ _ _ Wn); [done|apply Hs].
Qed.

(** The kernel [v] finds the bytes [data] in the file of [ino], and the files
    of [s] that have no block with it in common as they were. *)
Record finds (v s : kernel) (ino : inode) (data : list Z) : Prop := {
  fd_file : file_data v (disk_inode v d (i_inum ino)) = data;
  fd_others : forall other, sound s other -> i_inum other <> i_inum ino ->
    (forall k l, 0 <= k < places -> 0 <= l < places -> place s ino k = place s other l -> place s ino k = 0) ->
    file_data v (disk_inode v d (i_inum other)) = file_data s other
}.

Lemma finds_old v s ino : volume s -> sound s ino -> k_sb v = k_sb s -> sees_blocks v (content s d) -> finds v s ino (file_data s ino).
Proof. intros Hv Hs E H. split; [by apply seen_file|]. intros other Ho _ _. by apply seen_file. Qed.

Lemma finds_new v ip off bs s ino s2 ino2 : volume s -> sound s ino -> off + Z.of_nat (length bs) <= MAXFILE * BSIZE -> file_written ip off bs s ino s2 ino2 ->
  k_sb v = k_sb s -> sees_blocks v (content s2 d) -> finds v s ino (file_data s2 ino2).
Proof.
  intros Hv Hs Hend Wn E H. pose proof (sm_sb _ _ (wn_same _ _ _ _ _ _ _ Wn)) as Eb. pose proof (wn_volume _ _ _ _ _ _ _ Wn) as Hv2.
  destruct (written_sound ip off bs s ino s2 ino2 Hv Hs Hend Wn) as [Hs2 En]. split.
  - rewrite <- En. apply seen_file; [done|done|congruence|done].
  - intros other Ho Hne Hdis. destruct (file_written_other ip off bs s ino s2 ino2 other Hv Wn Ho Hne Hdis) as [Ho2 <-]. apply seen_file; [done|done|congruence|done].
Qed.

Definition overwritten (off : Z) (bs old : list Z) : list Z := take (Z.to_nat off) old ++ bs ++ drop (Z.to_nat off + length bs) old.

Lemma write_op_ret ip get bs off l s ino (n := Z.of_nat (length bs)) : quiet d st l s i p -> volume s -> k_inodes s !! ip = Some ino -> i_type ino <> T_DEV ->
  sound s ino -> supplies get bs -> 0 <= off <= i_size ino -> off + n <= MAXFILE * BSIZE -> blocks_there s ino off n ->
  2 * touched off n + 1 <= log_size (k_log s) - 1 -> touched off n <= Z.of_nat (free_blocks s) ->
  let old := file_data s ino in let new := overwritten off bs old in
  exists s', write_op ip get off n s = Ret n s' /\ (exists l', quiet d st l' s' i p) /\
    (forall v, k_sb v = k_sb s -> sees_blocks v (disk_block s' d) -> finds v s ino new) /\
    exists ws, k_writes s' = k_writes s ++ ws /\
      forall ws1 ws2, ws = ws1 ++ ws2 -> forall lb sb ib pb, booted d st (upd_all ws1 (disk_block s)) lb sb ib pb ->
      exists sr, recover_from_log sb = Ret tt sr /\
        forall v, k_sb v = k_sb s -> sees_blocks v (disk_block sr d) -> finds v s ino old \/ finds v s ino new.
Proof.
  intros Hq Hv Hi Ht Hs Hget Ho Hend Hreach Hroom Hfree old new. destruct (opened_tx Hfuel d st l s i p Hq) as [H1 Htx].
  pose proof (sound_opened s ino Hv Hs) as Hs1. pose proof (volume_opened s Hv) as Hv1.
  assert (Hr1 : blocks_there (opened s) ino off n) by (intros f F1 F2 F3; by destruct (Hreach f F1 F2 F3)).
  pose proof (wh_size _ _ (sd_whole _ _ Hs)) as Hsz. change (MAXFILE * BSIZE) with 71680 in Hsz, Hend.
  pose proof (writei_ret ip get bs off [] (opened s) ino (ex_intro _ l Htx) Hv1 Hi Ht Hs1 Hget ltac:(lia) ltac:(lia) Hr1 Hroom Hfree) as W.
  rewrite (proj2 (Z.ltb_ge (i_size ino) off)), (proj2 (Z.leb_gt (2 ^ 32) _)), (proj2 (Z.ltb_ge (MAXFILE * BSIZE) _)) in W
    by (change (MAXFILE * BSIZE) with 71680; fold n; lia). cbn [orb] in W.
  destruct W as (bl' & s2 & ino2 & E2 & [l2 Htx2] & Wn). fold n in E2. pose proof (wn_same _ _ _ _ _ _ _ Wn) as [Sb Sd Sw So Sz].
  destruct (closed_ret Hfuel d st Hreg l s bl' l2 s2 i p Hq Htx2) as (s3 & H3 & [Hq3 Hdk (ws & Hws & Hcr)]); [done|done| |done|].
  { rewrite So. cbn. by rewrite (proj1 (qt_ops _ _ _ _ _ _ Hq)). }
  assert (Hnew : forall v, k_sb v = k_sb s -> sees_blocks v (content s2 d) -> finds v s ino new).
  { intros v Ev Hsee. destruct (finds_new v ip off bs (opened s) ino s2 ino2 Hv1 Hs1 Hend Wn Ev Hsee) as [F1 F2]. rewrite (wn_data _ _ _ _ _ _ _ Wn) in F1.
    split; [exact F1|]. intros other Hot. apply F2. by apply (sound_same s). }
  exists s3. split_and!; [|done| |].
  - unfold write_op. rewrite (bind_ret _ _ _ _ _ H1), (bind_ret _ _ _ _ _ E2). by rewrite (bind_ret _ _ _ _ _ H3).
  - intros v Ev Hsee. apply Hnew; [done|]. intros z Hz. by rewrite Hsee, Hdk.
  - exists ws. split; [done|]. intros ws1 ws2 E lb sb ib pb B. destruct (Hcr ws1 ws2 E lb sb ib pb B) as (sr & Hr & Hcase). exists sr. split; [done|].
    intros v Ev Hsee. destruct Hcase as [Ha|Ha]; [left|right].
    + apply finds_old; [done|done|done|]. intros z Hz. rewrite Hsee, Ha by done. symmetry. by eapply quiet_content.
    + apply Hnew; [done|]. intros z Hz. by rewrite Hsee, Ha.
Qed.
End tx.
