(* ===== verification/Pipe.v ===== *)
(** * pipe.c and the file table of file.c

    A pipe lives in a page of its own; [k_pipes] maps the address of the page
    to its contents.  The system calls transfer bytes to and from user memory
    at [addr]. *)

From S2P Require Import Prelude State Monad Mem Spinlock ConsoleOut Kalloc Vm User Sched SleepWake.
From S2P Require Import Sleeplock Bio Log Inode Console Fs.

Definition to_user (addr : Z) : Z -> list Z -> K unit := fun off bs => ustore (addr +u off) bs.
Definition from_user (addr : Z) : Z -> Z -> K (list Z) :=
  fun off n => uload (addr +u off) (Z.to_nat n).

(** ** The file table *)

Definition getfile (f : nat) : K file := fun s => deref "file" (k_files s !! f) s.
Definition on_file (f : nat) (g : file -> file) (s : kernel) : kernel :=
  s <| k_files := alter g f (k_files s) |>.
Definition updfile (f : nat) (g : file -> file) : K unit := do! getfile f; modify (on_file f g).

Definition fileinit : K unit := initlock L_ftable "ftable".

Definition filealloc : K (option nat) :=
  do! acquire L_ftable;
  let! fs := gets k_files in
  match list_find (fun f => f_ref f = 0) fs with
  | Some (f, _) =>
      do! updfile f (fun x => x <| f_ref := 1 |>);
      do! release L_ftable;
      ret (Some f)
  | None => do! release L_ftable; ret None
  end.

Definition filedup (f : nat) : K nat :=
  do! acquire L_ftable;
  let! x := getfile f in
  if f_ref x <? 1 then panic "filedup"
  else
    do! updfile f (fun x => x <| f_ref := f_ref x + 1 |>);
    do! release L_ftable;
    ret f.

(** ** Pipes *)

(** The offset of [data] in [struct pipe]: after the [struct spinlock], that is
    [locked], [name], [cpu] and ten [pcs]. *)
Definition PIPE_DATA : Z := 52.

Definition getpipe (p : Z) : K pipe := fun s => deref "pipe" (k_pipes s !! p) s.
Definition on_pipe (p : Z) (g : pipe -> pipe) (s : kernel) : kernel :=
  s <| k_pipes := alter g p (k_pipes s) |>.
Definition updpipe (p : Z) (g : pipe -> pipe) : K unit := do! getpipe p; modify (on_pipe p g).

Section pipe.
Context {L : Linker} {F : Fuel} {D : BlockDev}.

Definition pipeclose (p writable : Z) : K unit :=
  do! acquire (L_pipe p);
  do! (if negb (writable =? 0) then
    do! updpipe p (fun x => x <| pi_writeopen := 0 |>);
    wakeup (CPipeRead p)
  else
    do! updpipe p (fun x => x <| pi_readopen := 0 |>);
    wakeup (CPipeWrite p));
  let! x := getpipe p in
  if (pi_readopen x =? 0) && (pi_writeopen x =? 0) then
    do! release (L_pipe p);
    do! modify (fun s => s <| k_pipes := delete p (k_pipes s) |>);
    kfree p
  else release (L_pipe p).

(** The loop that waits for room: false if the write must fail. *)
Definition pipewrite_wait (p : Z) : K bool :=
  forever fuel (
    let! x := getpipe p in
    if pi_nwrite x =? pi_nread x +u PIPESIZE then
      let! cur := curproc in
      let! pr := getproc cur in
      if (pi_readopen x =? 0) || negb (p_killed pr =? 0) then ret (Some false)
      else
        do! wakeup (CPipeRead p);
        do! sleep (CPipeWrite p) (Some (L_pipe p));
        ret None
    else ret (Some true)).

Definition pipe_put (c : Z) (x : pipe) : pipe :=
  x <| pi_data := <[Z.to_nat (pi_nwrite x mod PIPESIZE) := c]> (pi_data x) |>
    <| pi_nwrite := pi_nwrite x +u 1 |>.
Definition pipe_peek (x : pipe) : Z := default 0 (pi_data x !! Z.to_nat (pi_nread x mod PIPESIZE)).

(** [k] bytes are left to write, the next one at offset [i]. *)
Fixpoint pipewrite_loop (k : nat) (p : Z) (get : Z -> Z -> K (list Z)) (i : Z) : K bool :=
  match k with
  | O => ret true
  | S k' =>
      let! room := pipewrite_wait p in
      if negb room then ret false
      else
        let! bs := get i 1 in
        do! updpipe p (pipe_put (hd 0 bs));
        pipewrite_loop k' p get (i + 1)
  end.

Definition pipewrite (p : Z) (get : Z -> Z -> K (list Z)) (n : Z) : K Z :=
  do! acquire (L_pipe p);
  let! ok := pipewrite_loop (Z.to_nat n) p get 0 in
  if negb ok then do! release (L_pipe p); ret (-1)
  else
    do! wakeup (CPipeRead p);
    do! release (L_pipe p);
    ret n.

Definition piperead_wait (p : Z) : K bool :=
  forever fuel (
    let! x := getpipe p in
    if (pi_nread x =? pi_nwrite x) && negb (pi_writeopen x =? 0) then
      let! cur := curproc in
      let! pr := getproc cur in
      if negb (p_killed pr =? 0) then ret (Some false)
      else do! sleep (CPipeRead p) (Some (L_pipe p)); ret None
    else ret (Some true)).

(** The number of bytes copied; [i] have been before. *)
Fixpoint piperead_loop (k : nat) (p : Z) (put : Z -> list Z -> K unit) (i : Z) : K Z :=
  match k with
  | O => ret i
  | S k' =>
      let! x := getpipe p in
      if pi_nread x =? pi_nwrite x then ret i
      else
        do! updpipe p (fun x => x <| pi_nread := pi_nread x +u 1 |>);
        do! put i [pipe_peek x];
        piperead_loop k' p put (i + 1)
  end.

Definition piperead (p : Z) (put : Z -> list Z -> K unit) (n : Z) : K Z :=
  do! acquire (L_pipe p);
  let! ok := piperead_wait p in
  if negb ok then do! release (L_pipe p); ret (-1)
  else
    let! i := piperead_loop (Z.to_nat n) p put 0 in
    do! wakeup (CPipeWrite p);
    do! release (L_pipe p);
    ret i.

(** ** Closing a file *)

Definition fileclose (f : nat) : K unit :=
  do! acquire L_ftable;
  let! x := getfile f in
  if f_ref x <? 1 then panic "fileclose"
  else
    do! updfile f (fun x => x <| f_ref := f_ref x - 1 |>);
    let! x := getfile f in
    if 0 <? f_ref x then release L_ftable
    else
      do! updfile f (fun x => x <| f_ref := 0 |>);
      do! updfile f (fun x => x <| f_type := FD_NONE |>);
      do! release L_ftable;
      match f_type x with
      | FD_PIPE => pipeclose (f_pipe x) (f_writable x)
      | FD_INODE =>
          do! begin_op;
          let! ip := deref "ip" (f_ip x) in
          do! iput ip;
          end_op
      | FD_NONE => ret tt
      end.

(** ** Making a pipe *)

Definition pipe_end (p readable writable : Z) (x : file) : file :=
  x <| f_type := FD_PIPE |> <| f_readable := readable |> <| f_writable := writable |>
    <| f_pipe := p |>.

(** The label [bad], with the files and the page that have been allocated. *)
Definition pipealloc_bad (f0 f1 : option nat) : K (option (nat * nat)) :=
  do! match f0 with Some f => fileclose f | None => ret tt end;
  do! match f1 with Some f => fileclose f | None => ret tt end;
  ret None.

Definition pipealloc : K (option (nat * nat)) :=
  let! r0 := filealloc in
  match r0 with
  | None => pipealloc_bad None None
  | Some f0 =>
      let! r1 := filealloc in
      match r1 with
      | None => pipealloc_bad (Some f0) None
      | Some f1 =>
          let! p := kalloc in
          if p =? 0 then pipealloc_bad (Some f0) (Some f1)
          else
            do! modify (fun s => s <| k_pipes := <[p :=
              MkPipe (arr (k_mem s) (p + PIPE_DATA) (Z.to_nat PIPESIZE)) 0 0 1 1]> (k_pipes s) |>);
            do! initlock (L_pipe p) "pipe";
            do! updfile f0 (pipe_end p 1 0);
            do! updfile f1 (pipe_end p 0 1);
            ret (Some (f0, f1))
      end
  end.
End pipe.
