(* ===== verification/PipeFacts.v ===== *)
(** * Pipes are queues

    The ring buffer of a pipe holds a list of at most [PIPESIZE] bytes;
    [pipewrite] appends to it and [piperead] takes from its front.  The
    counters [nread] and [nwrite] wrap around, which does no harm because
    [PIPESIZE] divides [2 ^ 32]. *)

From S2P Require Import Prelude State Monad Mem Spinlock Sample ConsoleOut Ports Kalloc Vm User.
From S2P Require Import Sched SleepWake Sleeplock Bio Log Inode Console Fs Pipe.

(** ** The ring buffer *)

Definition count (x : pipe) : Z := pi_nwrite x -u pi_nread x.

Record pipe_ok (x : pipe) : Prop := {
  po_len : length (pi_data x) = Z.to_nat PIPESIZE;
  po_read : is_u32 (pi_nread x);
  po_write : is_u32 (pi_nwrite x);
  po_count : count x <= PIPESIZE
}.

Definition cell (x : pipe) (k : nat) : Z :=
  default 0 (pi_data x !! Z.to_nat ((pi_nread x + Z.of_nat k) mod PIPESIZE)).
Definition contents (x : pipe) : list Z := cell x <$> seq 0 (Z.to_nat (count x)).

Lemma length_contents x : length (contents x) = Z.to_nat (count x).
Proof. unfold contents. by rewrite length_fmap, length_seq. Qed.

Lemma u32_mod_pipesize z : u32 z mod PIPESIZE = z mod PIPESIZE.
Proof.
  unfold u32, PIPESIZE. change (2 ^ 32) with (512 * 2 ^ 23).
  rewrite Z.rem_mul_r by lia. rewrite Z.mul_comm, Z.mod_add by lia. by apply Z.mod_mod.
Qed.

Lemma count_range x : 0 <= count x.
Proof. apply u32_range. Qed.

Lemma full_test x :
  pipe_ok x -> (pi_nwrite x =? pi_nread x +u PIPESIZE) = (count x =? PIPESIZE).
Proof.
  intros [_ Hr Hw _]. unfold count. apply eq_true_iff_eq. rewrite !Z.eqb_eq. split.
  - intros ->. rewrite u32_sub_l. replace (pi_nread x + PIPESIZE - pi_nread x) with PIPESIZE by lia. done.
  - intros H. rewrite <- H. unfold u32. rewrite Zplus_mod_idemp_r.
    replace (pi_nread x + (pi_nwrite x - pi_nread x)) with (pi_nwrite x) by lia.
    by rewrite Z.mod_small.
Qed.

Lemma empty_test x : pipe_ok x -> (pi_nread x =? pi_nwrite x) = (count x =? 0).
Proof.
  intros [_ Hr Hw _]. unfold count, is_u32 in *. apply eq_true_iff_eq. rewrite !Z.eqb_eq. split.
  - intros ->. by rewrite Z.sub_diag.
  - unfold u32. intros H. apply Z.mod_divide in H as [q Hq]; lia.
Qed.

Lemma count_put c x : count x < PIPESIZE -> count (pipe_put c x) = count x + 1.
Proof.
  intros H. pose proof (count_range x). unfold count, pipe_put in *. cbn.
  rewrite u32_sub_l. replace (pi_nwrite x + 1 - pi_nread x) with (pi_nwrite x - pi_nread x + 1) by lia.
  rewrite <- u32_add_l. apply u32_small. unfold is_u32, PIPESIZE in *. lia.
Qed.

Lemma write_cell x : Z.to_nat (pi_nwrite x mod PIPESIZE)
  = Z.to_nat ((pi_nread x + Z.of_nat (Z.to_nat (count x))) mod PIPESIZE).
Proof.
  f_equal. rewrite Z2Nat.id by apply count_range. unfold count.
  rewrite <- (Zplus_mod_idemp_r (u32 _)), u32_mod_pipesize, Zplus_mod_idemp_r.
  f_equal. lia.
Qed.

(** Different places in the queue are different cells. *)
Lemma cells_differ r j k :
  (j < k)%nat -> (Z.of_nat k < PIPESIZE) ->
  Z.to_nat ((r + Z.of_nat j) mod PIPESIZE) <> Z.to_nat ((r + Z.of_nat k) mod PIPESIZE).
Proof.
  unfold PIPESIZE. intros Hj Hk H. apply Z2Nat.inj in H; [|apply Z.mod_pos_bound; lia..].
  pose proof (Z.div_mod (r + Z.of_nat j) 512). pose proof (Z.div_mod (r + Z.of_nat k) 512). lia.
Qed.

Lemma put_ok c x : pipe_ok x -> count x < PIPESIZE -> pipe_ok (pipe_put c x).
Proof.
  intros [H1 H2 H3 H4] H. split.
  - cbn. by rewrite length_insert.
  - done.
  - apply u32_range.
  - rewrite count_put by done. lia.
Qed.

Lemma put_contents c x :
  pipe_ok x -> count x < PIPESIZE -> contents (pipe_put c x) = contents x ++ [c].
Proof.
  intros [Hlen _ _ _] H. unfold contents. rewrite count_put by done. pose proof (count_range x).
  replace (Z.to_nat (count x + 1)) with (Z.to_nat (count x) + 1)%nat by lia.
  rewrite seq_app, fmap_app. f_equal.
  - apply list_fmap_ext. intros j k Hj. apply lookup_seq in Hj as [-> Hj]. unfold cell. cbn.
    rewrite write_cell, list_lookup_insert_ne; [done|]. intros E. symmetry in E. revert E.
    apply cells_differ; [done|lia].
  - cbn. unfold cell. cbn. rewrite write_cell, list_lookup_insert_eq; [done|].
    rewrite Hlen. apply Z2Nat.inj_lt; [apply Z.mod_pos_bound|..]; unfold PIPESIZE; try lia.
    apply Z.mod_pos_bound. lia.
Qed.

Definition pipe_skip (x : pipe) : pipe := x <| pi_nread := pi_nread x +u 1 |>.

Lemma count_skip x : 0 < count x -> count (pipe_skip x) = count x - 1.
Proof.
  intros H. pose proof (u32_range (pi_nwrite x - pi_nread x)) as Hr. unfold count, pipe_skip in *. cbn.
  rewrite u32_sub_r. replace (pi_nwrite x - (pi_nread x + 1)) with (pi_nwrite x - pi_nread x - 1) by lia.
  rewrite <- u32_sub_l. apply u32_small. unfold is_u32 in *. lia.
Qed.

Lemma skip_ok x : pipe_ok x -> 0 < count x -> pipe_ok (pipe_skip x).
Proof. intros [H1 H2 H3 H4] H. split; [done|apply u32_range|done|]. rewrite count_skip; lia. Qed.

Lemma skip_contents x :
  0 < count x -> contents x = pipe_peek x :: contents (pipe_skip x).
Proof.
  intros H. unfold contents. rewrite count_skip by done.
  replace (Z.to_nat (count x)) with (S (Z.to_nat (count x - 1))) by lia.
  rewrite <- cons_seq, <- fmap_S_seq, fmap_cons, <- list_fmap_compose. f_equal.
  - unfold cell, pipe_peek. by rewrite Z.add_0_r.
  - apply list_fmap_ext. intros j k _. unfold compose, cell.
    replace ((pi_nread (pipe_skip x) + Z.of_nat k) mod PIPESIZE)
      with ((pi_nread x + Z.of_nat (S k)) mod PIPESIZE); [done|].
    change (pi_nread (pipe_skip x)) with (u32 (pi_nread x + 1)).
    rewrite <- (Zplus_mod_idemp_l (u32 _)), u32_mod_pipesize, Zplus_mod_idemp_l. f_equal. lia.
Qed.

(** All bytes of a list in turn. *)
Definition put_list (x : pipe) (bs : list Z) : pipe := foldl (fun x c => pipe_put c x) x bs.

Lemma put_list_ok x bs :
  pipe_ok x -> count x + Z.of_nat (length bs) <= PIPESIZE ->
  pipe_ok (put_list x bs) /\ contents (put_list x bs) = contents x ++ bs /\
  count (put_list x bs) = count x + Z.of_nat (length bs) /\
  pi_readopen (put_list x bs) = pi_readopen x /\ pi_writeopen (put_list x bs) = pi_writeopen x.
Proof.
  unfold put_list. revert x. induction bs as [|c bs IH]; intros x Hx Hn; cbn [foldl length] in *.
  - rewrite app_nil_r, Z.add_0_r. done.
  - destruct (IH (pipe_put c x)) as (H1 & H2 & H3 & H4 & H5).
    + apply put_ok; [done|lia].
    + rewrite count_put by lia. lia.
    + rewrite put_contents in H2 by (done || lia). rewrite count_put in H3 by lia.
      split_and!; [done| |lia|done|done]. by rewrite H2, <- app_assoc.
Qed.

(** ** Reading and writing *)

Section ops.
Context {L : Linker} {F : Fuel} {D : BlockDev}.
Context (p : Z) (s : kernel) (i : nat) (pr : proc) (x : pipe).
Hypothesis (Hcalm : calm s i pr) (Hlock : lock_free (L_pipe p) s) (Hpipe : k_pipes s !! p = Some x).
Hypothesis (Hok : pipe_ok x) (Hfuel : (0 < fuel)%nat).

(** The state with the lock of the pipe held and the pipe [x']. *)
Definition inside (x' : pipe) : kernel :=
  (acq (L_pipe p) s) <| k_pipes := <[p := x']> (k_pipes s) |>.
(** The state when the lock is released. *)
Definition outside (x' : pipe) : kernel := s <| k_pipes := <[p := x']> (k_pipes s) |>.

Lemma acquire_inside : acquire (L_pipe p) s = Ret tt (inside x).
Proof.
  rewrite (acquire_calm _ _ _ _ Hcalm Hlock). unfold inside. by rewrite insert_id.
Qed.

Lemma getpipe_inside x' : getpipe p (inside x') = Ret x' (inside x').
Proof. unfold getpipe, inside. cbn. by rewrite lookup_insert_eq. Qed.

Lemma alter_inside (g : pipe -> pipe) x' :
  alter g p (<[p := x']> (k_pipes s)) = <[p := g x']> (k_pipes s).
Proof.
  apply map_eq. intros k. destruct (decide (k = p)) as [->|Hk].
  - by rewrite lookup_alter_eq, !lookup_insert_eq.
  - by rewrite lookup_alter_ne, !lookup_insert_ne.
Qed.

Lemma updpipe_inside g x' : updpipe p g (inside x') = Ret tt (inside (g x')).
Proof.
  unfold updpipe. rewrite (bind_ret _ _ _ _ _ (getpipe_inside x')). unfold modify, on_pipe.
  change (k_pipes (inside x')) with (<[p := x']> (k_pipes s)). by rewrite alter_inside.
Qed.

Lemma inside_locks x' ps : same_locks (acq (L_pipe p) s) ((inside x') <| k_procs := ps |>).
Proof. done. Qed.

Lemma inside_sees x' : sees s (inside x').
Proof.
  destruct Hcalm as [(c & Hc & _) _ _ _]. split_and!; [done|done|]. cbn.
  by rewrite list_lookup_alter_eq, Hc.
Qed.

Lemma release_inside x' ps :
  release (L_pipe p) ((inside x') <| k_procs := ps |>) = Ret tt ((outside x') <| k_procs := ps |>).
Proof. by rewrite (release_calm _ s _ i pr Hcalm Hlock). Qed.

Lemma wakeup_inside ch x' ps :
  wakeup ch ((inside x') <| k_procs := ps |>)
  = Ret tt ((inside x') <| k_procs := wake (k_ticks s) ch <$> ps |>).
Proof. by rewrite (wakeup_nested (L_pipe p) ch s _ i pr Hcalm). Qed.

Lemma inside_procs x' : inside x' = (inside x') <| k_procs := k_procs s |>.
Proof. done. Qed.

(** *** Writing *)

(** [get] delivers the bytes [bs] from offset [j] on. *)
Definition gives (get : Z -> Z -> K (list Z)) (j : Z) (bs : list Z) : Prop :=
  forall k b x', bs !! k = Some b -> get (j + Z.of_nat k) 1 (inside x') = Ret [b] (inside x').

Lemma gives_user addr bs :
  is_u32 addr -> uload addr (length bs) s = Ret bs s -> gives (from_user addr) 0 bs.
Proof.
  intros Ha Hu k b x' Hk. unfold from_user. cbn [Z.to_nat].
  apply (uload1_sees _ s); [apply inside_sees|]. by eapply (uload_byte _ _ _ bs).
Qed.

Lemma wait_room x' :
  pipe_ok x' -> count x' < PIPESIZE -> pipewrite_wait p (inside x') = Ret true (inside x').
Proof.
  intros Hx Hn. unfold pipewrite_wait. destruct fuel as [|n]; [lia|]. cbn [forever].
  rewrite (bind_ret _ _ _ (Some true) (inside x')); [done|].
  rewrite (bind_ret _ _ _ _ _ (getpipe_inside x')).
  rewrite full_test by done. by rewrite (proj2 (Z.eqb_neq _ _)) by lia.
Qed.

(** Bytes for which there is room are appended. *)
Lemma pipewrite_loop_app get bs n j x' :
  pipe_ok x' -> count x' + Z.of_nat (length bs) <= PIPESIZE -> gives get j bs ->
  pipewrite_loop (length bs + n) p get j (inside x')
  = pipewrite_loop n p get (j + Z.of_nat (length bs)) (inside (put_list x' bs)).
Proof.
  revert j x'. induction bs as [|b bs IH]; intros j x' Hx Hn Hg.
  - cbn. by rewrite Z.add_0_r.
  - cbn [length] in Hn. cbn [length Nat.add pipewrite_loop].
    rewrite (bind_ret _ _ _ _ _ (wait_room x' Hx ltac:(lia))). cbn [negb].
    erewrite bind_ret. 2: { pose proof (Hg 0%nat b x' eq_refl) as H. by rewrite Z.add_0_r in H. }
    rewrite (bind_ret _ _ _ _ _ (updpipe_inside _ x')). cbn [hd]. rewrite IH.
    + f_equal. lia.
    + apply put_ok; [done|lia].
    + rewrite count_put by lia. lia.
    + intros k b' y Hk. replace (j + 1 + Z.of_nat k) with (j + Z.of_nat (S k)) by lia. by apply Hg.
Qed.

Lemma pipewrite_fits get bs :
  gives get 0 bs -> count x + Z.of_nat (length bs) <= PIPESIZE ->
  pipewrite p get (Z.of_nat (length bs)) s
  = Ret (Z.of_nat (length bs))
      ((outside (put_list x bs)) <| k_procs := wake (k_ticks s) (CPipeRead p) <$> k_procs s |>).
Proof.
  intros Hg Hn. unfold pipewrite. rewrite (bind_ret _ _ _ _ _ acquire_inside), Nat2Z.id.
  rewrite (bind_ret _ _ _ true (inside (put_list x bs)))
    by (rewrite <- (Nat.add_0_r (length bs)); by rewrite pipewrite_loop_app).
  cbn [negb]. rewrite inside_procs. rewrite (bind_ret _ _ _ _ _ (wakeup_inside _ _ _)).
  by rewrite (bind_ret _ _ _ _ _ (release_inside _ _)).
Qed.

(** A full pipe: the write fails if nobody can read it or the writer has been
    killed, and waits otherwise. *)
Lemma curproc_inside x' : curproc (inside x') = Ret i (inside x').
Proof.
  destruct Hcalm as [(c & Hc & _ & _ & Hi) _ _ _]. eapply (curproc_ret _ (cpu_push c)); [|done].
  cbn. by rewrite list_lookup_alter_eq, Hc.
Qed.
Lemma getproc_inside x' : getproc i (inside x') = Ret pr (inside x').
Proof. apply getproc_ret. apply Hcalm. Qed.

Lemma wait_broken x' :
  pipe_ok x' -> count x' = PIPESIZE -> pi_readopen x' = 0 \/ p_killed pr <> 0 ->
  pipewrite_wait p (inside x') = Ret false (inside x').
Proof.
  intros Hx Hn Hb. unfold pipewrite_wait. destruct fuel as [|n]; [lia|]. cbn [forever].
  rewrite (bind_ret _ _ _ (Some false) (inside x')); [done|].
  rewrite (bind_ret _ _ _ _ _ (getpipe_inside x')).
  rewrite full_test, Hn, Z.eqb_refl by done. rewrite (bind_ret _ _ _ _ _ (curproc_inside x')).
  rewrite (bind_ret _ _ _ _ _ (getproc_inside x')).
  replace ((pi_readopen x' =? 0) || negb (p_killed pr =? 0)) with true; [done|].
  symmetry. apply orb_true_iff. rewrite Z.eqb_eq, negb_true_iff, Z.eqb_neq. done.
Qed.

Lemma pipewrite_broken get bs rest :
  gives get 0 bs -> count x + Z.of_nat (length bs) = PIPESIZE -> (0 < rest)%nat ->
  pi_readopen x = 0 \/ p_killed pr <> 0 ->
  pipewrite p get (Z.of_nat (length bs + rest)) s = Ret (-1) (outside (put_list x bs)).
Proof.
  intros Hg Hn Hr Hb. unfold pipewrite. rewrite (bind_ret _ _ _ _ _ acquire_inside), Nat2Z.id.
  destruct (put_list_ok x bs Hok ltac:(lia)) as (H1 & _ & H3 & H4 & _).
  destruct rest as [|rest]; [lia|].
  rewrite (bind_ret _ _ _ false (inside (put_list x bs))).
  - cbn [negb]. rewrite inside_procs. rewrite (bind_ret _ _ _ _ _ (release_inside _ _)). done.
  - rewrite pipewrite_loop_app by (done || lia). cbn [pipewrite_loop].
    rewrite (bind_ret _ _ _ _ _ (wait_broken _ H1 ltac:(lia) ltac:(rewrite H4; done))). done.
Qed.

(** The process that sleeps on [ch], and all that [sleep] leaves behind. *)
Lemma sleep_inside ch x' ps :
  ps !! i = Some pr -> (k_strategy s = 2 -> cons_ready s) ->
  exists s1 k, sleep ch (Some (L_pipe p)) ((inside x') <| k_procs := ps |>) = Swtch s1 k /\
    k_pipes s1 = <[p := x']> (k_pipes s) /\ k_procs s1 = <[i := asleep ch pr]> ps /\
    lock_free (L_pipe p) s1.
Proof.
  intros Hps Hcons. pose proof Hcalm as [(c & Hc & Hn & _ & Hi) Hp Hr Hf].
  pose proof (calm_wf _ _ _ Hcalm) as Hwf. set (s0 := (inside x') <| k_procs := ps |>).
  assert (Hms : may_sleep (L_pipe p) s0 (cpu_push c) i pr).
  { split_and!.
    - split; [cbn; by rewrite list_lookup_alter_eq, Hc|cbn; lia|done|done|done|lia|].
      intros E. apply (cons_ready_acq (L_pipe p) s) in Hwf as H0; [|done|auto]. done.
    - by destruct (acq_in_cs (L_pipe p) s Hwf) as [Hh _].
    - intros _. destruct (Hf L_ptable I) as [nm Hnm]. exists nm. cbn. by rewrite lookup_insert_ne. }
  destruct (sleep_swtch ch _ _ _ _ _ Hms) as (co & _ & _ & Hs).
  destruct (handover_ok _ _ _ _ _ Hms) as (_ & _ & _ & Hfree).
  do 2 eexists. split; [exact Hs|].
  assert (Hh : handover (L_pipe p) s0 = rel (L_pipe p) (acq L_ptable s0)).
  { unfold handover. by rewrite decide_False. }
  split_and!; [by rewrite Hh| |].
  - rewrite Hh. cbn. by rewrite (list_alter_insert _ _ _ _ Hps).
  - by apply Hfree.
Qed.

Lemma pipewrite_blocks get bs rest :
  gives get 0 bs -> count x + Z.of_nat (length bs) = PIPESIZE -> (0 < rest)%nat ->
  pi_readopen x <> 0 -> p_killed pr = 0 -> (k_strategy s = 2 -> cons_ready s) ->
  exists s1 k, pipewrite p get (Z.of_nat (length bs + rest)) s = Swtch s1 k /\
    k_pipes s1 = <[p := put_list x bs]> (k_pipes s) /\
    k_procs s1 = <[i := asleep (CPipeWrite p) pr]> (wake (k_ticks s) (CPipeRead p) <$> k_procs s) /\
    lock_free (L_pipe p) s1.
Proof.
  intros Hg Hn Hr Ho Hk Hcons. unfold pipewrite. rewrite (bind_ret _ _ _ _ _ acquire_inside), Nat2Z.id.
  destruct (put_list_ok x bs Hok ltac:(lia)) as (H1 & _ & H3 & H4 & _). set (x' := put_list x bs) in *.
  destruct (sleep_inside (CPipeWrite p) x' (wake (k_ticks s) (CPipeRead p) <$> k_procs s))
    as (s1 & k & Hs & Hps & Hprocs & Hfree); [apply wake_lookup; apply Hcalm|done|].
  destruct rest as [|rest]; [lia|].
  assert (exists n, fuel = S n) as [n Ef] by (exists (fuel - 1)%nat; lia).
  exists s1. eexists. split; [|done].
  erewrite bind_swtch; [reflexivity|]. rewrite pipewrite_loop_app by (done || lia). fold x'.
  cbn [pipewrite_loop]. erewrite bind_swtch; [reflexivity|].
  unfold pipewrite_wait. rewrite Ef. cbn [forever].
  erewrite bind_swtch; [reflexivity|].
  rewrite (bind_ret _ _ _ _ _ (getpipe_inside x')), full_test by done.
  rewrite (proj2 (Z.eqb_eq (count x') PIPESIZE)) by lia.
  rewrite (bind_ret _ _ _ _ _ (curproc_inside x')), (bind_ret _ _ _ _ _ (getproc_inside x')).
  rewrite H4, Hk, (proj2 (Z.eqb_neq _ _) Ho). cbn [Z.eqb negb orb].
  rewrite inside_procs. rewrite (bind_ret _ _ _ _ _ (wakeup_inside _ _ _)).
  erewrite bind_swtch; [reflexivity|]. exact Hs.
Qed.

(** *** Reading *)

(** The state inside the lock with the memory [m]. *)
Definition inside_m (m : mem) (x' : pipe) : kernel := (inside x') <| k_mem := m |>.

Lemma inside_m_sees m x' : sees (s <| k_mem := m |>) (inside_m m x').
Proof. apply sees_mem, inside_sees. Qed.

Lemma getpipe_inside_m m x' : getpipe p (inside_m m x') = Ret x' (inside_m m x').
Proof. unfold getpipe, inside_m, inside. cbn. by rewrite lookup_insert_eq. Qed.

Lemma updpipe_inside_m m g x' : updpipe p g (inside_m m x') = Ret tt (inside_m m (g x')).
Proof.
  unfold updpipe. rewrite (bind_ret _ _ _ _ _ (getpipe_inside_m m x')). unfold modify, on_pipe.
  change (k_pipes (inside_m m x')) with (<[p := x']> (k_pipes s)). by rewrite alter_inside.
Qed.

Definition skip_n (n : nat) (x' : pipe) : pipe := Nat.iter n pipe_skip x'.

Lemma skip_n_ok n x' :
  pipe_ok x' -> (n <= length (contents x'))%nat ->
  pipe_ok (skip_n n x') /\ contents (skip_n n x') = drop n (contents x').
Proof.
  intros Hx. rewrite length_contents. induction n as [|n IH]; intros Hn; [done|]. cbn.
  destruct IH as [H1 H2]; [lia|]. fold (skip_n n x'). assert (Hc : 0 < count (skip_n n x')).
  { apply (f_equal length) in H2. rewrite length_drop, !length_contents in H2. lia. }
  split; [by apply skip_ok|]. pose proof (skip_contents _ Hc) as H3. rewrite H2 in H3.
  replace (S n) with (n + 1)%nat by lia. by rewrite <- drop_drop, H3.
Qed.

Lemma piperead_loop_ret addr n j m m' x' :
  pipe_ok x' ->
  ustore (addr +u j) (take n (contents x')) (s <| k_mem := m |>) = Ret tt (s <| k_mem := m' |>) ->
  piperead_loop n p (to_user addr) j (inside_m m x')
  = Ret (j + Z.of_nat (length (take n (contents x'))))
      (inside_m m' (skip_n (length (take n (contents x'))) x')).
Proof.
  revert j m x'. induction n as [|n IH]; intros j m x' Hx Hu.
  { cbn in *. injection Hu as ->. by rewrite Z.add_0_r. }
  cbn [piperead_loop]. rewrite (bind_ret _ _ _ _ _ (getpipe_inside_m m x')), empty_test by done.
  pose proof (count_range x') as Hr. destruct (Z.eqb_spec (count x') 0) as [E|E].
  - assert (Hc : contents x' = []) by (apply nil_length_inv; rewrite length_contents; lia).
    rewrite Hc in *. cbn in *. injection Hu as ->. by rewrite Z.add_0_r.
  - rewrite (skip_contents x') in * by lia. cbn [take ustore] in Hu. unfold bind in Hu.
    destruct (ustore8 _ _ _) as [[] s2| |] eqn:E8 in Hu; cbn [obind] in Hu; [|done..].
    apply ustore8_inv in E8 as [Hs2 E8].
    rewrite (bind_ret _ _ _ _ _ (updpipe_inside_m m _ x')). fold (pipe_skip x').
    rewrite (bind_ret _ _ _ tt (inside_m (k_mem s2) (pipe_skip x'))).
    2: { unfold to_user. cbn [ustore]. unfold bind. rewrite (E8 _ (inside_m_sees _ _)). done. }
    rewrite (IH (j + 1) (k_mem s2) (pipe_skip x')).
    + cbn [take length]. f_equal; [lia|]. f_equal. unfold skip_n. by rewrite Nat.iter_succ_r.
    + apply skip_ok; [done|lia].
    + replace (addr +u (j + 1)) with (addr +u j +u 1) by (rewrite u32_add_l; f_equal; lia).
      rewrite <- Hu, Hs2. done.
Qed.

(** A read returns what there is, up to [n] bytes, if there is anything or the
    write end is closed. *)
Lemma piperead_ret addr n m' :
  is_u32 addr -> 0 < count x \/ pi_writeopen x = 0 ->
  ustore addr (take n (contents x)) s = Ret tt (s <| k_mem := m' |>) ->
  let k := length (take n (contents x)) in
  piperead p (to_user addr) (Z.of_nat n) s
  = Ret (Z.of_nat k) ((outside (skip_n k x)) <| k_mem := m' |>
      <| k_procs := wake (k_ticks s) (CPipeWrite p) <$> k_procs s |>).
Proof.
  intros Ha Hready Hu. cbn zeta. unfold piperead. rewrite (bind_ret _ _ _ _ _ acquire_inside), Nat2Z.id.
  rewrite (bind_ret _ _ _ true (inside x)).
  2: { unfold piperead_wait. destruct fuel as [|f]; [lia|]. cbn [forever].
       rewrite (bind_ret _ _ _ (Some true) (inside x)); [done|].
       rewrite (bind_ret _ _ _ _ _ (getpipe_inside x)), empty_test by done.
       replace ((count x =? 0) && negb (pi_writeopen x =? 0)) with false; [done|].
       symmetry. apply andb_false_iff. rewrite negb_false_iff, Z.eqb_neq, Z.eqb_eq. lia. }
  cbn [negb].
  assert (Hu' : ustore (addr +u 0) (take n (contents x)) (s <| k_mem := k_mem s |>)
    = Ret tt (s <| k_mem := m' |>)).
  { rewrite Z.add_0_r, u32_small by done. rewrite <- Hu. f_equal. by destruct Hcalm, s. }
  pose proof (piperead_loop_ret addr n 0 (k_mem s) m' x Hok Hu') as Hl.
  rewrite (bind_ret _ _ _ _ _ Hl). set (x' := skip_n _ _).
  erewrite bind_ret by (by apply (wakeup_nested (L_pipe p) _ s _ i pr Hcalm)).
  by erewrite bind_ret by (by apply (release_calm _ s _ i pr Hcalm Hlock)).
Qed.

(** An empty pipe with an open write end makes the reader wait. *)
Lemma piperead_blocks put n :
  count x = 0 -> pi_writeopen x <> 0 -> p_killed pr = 0 -> (k_strategy s = 2 -> cons_ready s) ->
  exists s1 k, piperead p put n s = Swtch s1 k /\
    k_pipes s1 = <[p := x]> (k_pipes s) /\
    k_procs s1 = <[i := asleep (CPipeRead p) pr]> (k_procs s) /\ lock_free (L_pipe p) s1.
Proof.
  intros Hc Hw Hk Hcons. destruct (sleep_inside (CPipeRead p) x (k_procs s))
    as (s1 & k & Hs & Hps & Hprocs & Hfree); [apply Hcalm|done|].
  assert (exists n, fuel = S n) as [f Ef] by (exists (fuel - 1)%nat; lia).
  exists s1. eexists. split; [|done]. unfold piperead. rewrite (bind_ret _ _ _ _ _ acquire_inside).
  erewrite bind_swtch; [reflexivity|]. unfold piperead_wait. rewrite Ef. cbn [forever].
  erewrite bind_swtch; [reflexivity|].
  rewrite (bind_ret _ _ _ _ _ (getpipe_inside x)), empty_test, Hc by done.
  rewrite (proj2 (Z.eqb_neq _ _) Hw). cbn [Z.eqb andb negb].
  rewrite (bind_ret _ _ _ _ _ (curproc_inside x)), (bind_ret _ _ _ _ _ (getproc_inside x)), Hk.
  cbn [Z.eqb negb]. erewrite bind_swtch; [reflexivity|]. exact Hs.
Qed.
End ops.
