(* ===== verification/File.v ===== *)
(** * file.c: reading and writing open files *)

From S2P Require Import Prelude State Monad Mem Spinlock ConsoleOut Kalloc Vm User Sched SleepWake.
From S2P Require Import Sleeplock Bio Log Inode Console Fs Pipe.

(** The bytes of [struct stat] in memory: [type] at 0, [dev] at 4, [ino] at 8,
    [nlink] at 12 and [size] at 16; the two bytes after each [short] are
    padding that [stati] leaves alone. *)
Definition put_stat (addr : Z) (st : stat) : K unit :=
  do! ustore (addr +u 4) (bytes32 (st_dev st));
  do! ustore (addr +u 8) (bytes32 (st_ino st));
  do! ustore addr (take 2 (bytes32 (st_type st)));
  do! ustore (addr +u 12) (take 2 (bytes32 (st_nlink st)));
  ustore (addr +u 16) (bytes32 (st_size st)).

Section file.
Context {L : Linker} {F : Fuel} {D : BlockDev}.

Definition filestat (f : nat) (addr : Z) : K Z :=
  let! x := getfile f in
  match f_type x with
  | FD_INODE =>
      do! ilock (f_ip x);
      let! ip := deref "ip" (f_ip x) in
      let! st := stati ip in
      do! put_stat addr st;
      do! iunlock (f_ip x);
      ret 0
  | _ => ret (-1)
  end.

Definition fileread (f : nat) (addr n : Z) : K Z :=
  let! x := getfile f in
  if f_readable x =? 0 then ret (-1)
  else match f_type x with
  | FD_PIPE => piperead (f_pipe x) (to_user addr) n
  | FD_INODE =>
      do! ilock (f_ip x);
      let! ip := deref "ip" (f_ip x) in
      let! x := getfile f in
      let! (r, _) := readi ip (to_user addr) (f_off x) (u32 n) in
      do! when (0 <? r) (updfile f (fun x => x <| f_off := f_off x +u r |>));
      do! iunlock (f_ip x);
      ret r
  | FD_NONE => panic "fileread"
  end.

(** The most that one transaction writes. *)
Definition write_max : Z := ((LOGSIZE - 1 - 1 - 2) / 2) * 512.

(** [i] bytes of [n] have been written; the result is the value of [i] after
    the loop.  [k] bounds its turns. *)
Fixpoint filewrite_loop (k : nat) (f ip : nat) (addr i n : Z) : K Z :=
  if i <? n then
    match k with
    | O => fail FFuel
    | S k' =>
        let n1 := Z.min (n - i) write_max in
        do! begin_op;
        do! ilock (Some ip);
        let! x := getfile f in
        let! r := writei ip (from_user (addr +u i)) (f_off x) (u32 n1) in
        do! when (0 <? r) (updfile f (fun x => x <| f_off := f_off x +u r |>));
        do! iunlock (Some ip);
        do! end_op;
        if r <? 0 then ret i
        else if negb (r =? n1) then panic "short filewrite"
        else filewrite_loop k' f ip addr (i + r) n
    end
  else ret i.

Definition filewrite (f : nat) (addr n : Z) : K Z :=
  let! x := getfile f in
  if f_writable x =? 0 then ret (-1)
  else match f_type x with
  | FD_PIPE => pipewrite (f_pipe x) (from_user addr) n
  | FD_INODE =>
      let! ip := deref "ip" (f_ip x) in
      let! i := filewrite_loop (Z.to_nat (n / write_max) + 1) f ip addr 0 n in
      ret (if i =? n then n else -1)
  | FD_NONE => panic "filewrite"
  end.
End file.
