(* ===== verification/Proc.v ===== *)
(** * proc.c: creating, ending and waiting for processes

    A trap frame and a context are words on the kernel stack of the process,
    at the addresses [p_tf] and [p_context]. *)

From S2P Require Import Prelude State Monad Mem Spinlock ConsoleOut Kalloc Vm User Sched SleepWake.
From S2P Require Import Sleeplock Bio Log Inode Console Fs Pipe.

(** Offsets in [struct trapframe] and [struct context]. *)
Definition TF_EAX : Z := 28.
Definition TF_ES : Z := 40.
Definition TF_DS : Z := 44.
Definition TF_TRAPNO : Z := 48.
Definition TF_ERR : Z := 52.
Definition TF_EIP : Z := 56.
Definition TF_CS : Z := 60.
Definition TF_EFLAGS : Z := 64.
Definition TF_ESP : Z := 68.
Definition TF_SS : Z := 72.
Definition sizeof_tf : Z := 76.
Definition CTX_EIP : Z := 16.
Definition sizeof_context : Z := 20.

(** [p->name] of 16 bytes. *)
Definition PNAME : nat := 16.

(** The current process. *)
Definition thisproc : K (nat * proc) :=
  let! cur := curproc in let! p := getproc cur in ret (cur, p).

Definition pinit : K unit := initlock L_ptable "ptable".

(** The fields that [allocproc] sets under the lock. *)
Definition embryo (pid ticks : Z) (p : proc) : proc :=
  p <| p_q3rtime := u32 (-1) |> <| p_q3tatime := u32 (-1) |> <| p_q2tatime := u32 (-1) |>
    <| p_q2rtime := u32 (-1) |> <| p_state := EMBRYO |> <| p_pid := pid |> <| p_ctime := ticks |>
    <| p_rtime := 0 |> <| p_GRT := 0 |> <| p_cid := 0 |> <| p_myquantum := 0 |>
    <| p_queuelevel := 3 |> <| p_priority := ticks |>.

(** [p->name[0] = 0] and the other fields that are reset when a child is
    collected. *)
Definition reaped (p : proc) : proc :=
  p <| p_pid := 0 |> <| p_parent := None |> <| p_name := <[0%nat := 0]> (p_name p) |>
    <| p_killed := 0 |> <| p_state := UNUSED |>.

Section proc.
Context {L : Linker} {F : Fuel} {D : BlockDev}.

Definition allocproc : K (option nat) :=
  do! acquire L_ptable;
  let! ps := gets k_procs in
  match list_find (fun p => p_state p = UNUSED) ps with
  | None => do! release L_ptable; ret None
  | Some (p, _) =>
      let! pid := gets k_nextpid in
      let! ticks := gets k_ticks in
      do! updproc p (embryo pid ticks);
      do! modify (fun s => s <| k_nextpid := i32 (pid + 1) |>);
      do! release L_ptable;
      let! kstack := kalloc in
      do! updproc p (fun x => x <| p_kstack := kstack |>);
      if kstack =? 0 then
        do! updproc p (fun x => x <| p_state := UNUSED |>);
        ret None
      else
        let sp := kstack + KSTACKSIZE - sizeof_tf in
        do! updproc p (fun x => x <| p_tf := sp |>);
        let sp := sp - 4 in
        do! store32 sp sym_trapret;
        let sp := sp - sizeof_context in
        do! updproc p (fun x => x <| p_context := sp |>);
        do! setmem (fun m => memset m sp 0 sizeof_context);
        do! store32 (sp + CTX_EIP) sym_forkret;
        ret (Some p)
  end.

Definition store16 (a v : Z) : K unit := setmem (fun m => st16 m a v).
Definition load16 (a : Z) : K Z := gets (fun s => ld16 (k_mem s) a).

Definition userinit : K unit :=
  let! r := allocproc in
  do! modify (fun s => s <| k_initproc := r |>);
  let! p := deref "allocproc" r in
  let! pgdir := setupkvm in
  do! updproc p (fun x => x <| p_pgdir := pgdir |>);
  if pgdir =? 0 then panic "userinit: out of memory?"
  else
    do! inituvm pgdir sym_initcode;
    do! updproc p (fun x => x <| p_sz := PGSIZE |>);
    let! x := getproc p in
    let tf := p_tf x in
    do! setmem (fun m => memset m tf 0 sizeof_tf);
    do! store16 (tf + TF_CS) (Z.lor (Z.shiftl SEG_UCODE 3) DPL_USER);
    do! store16 (tf + TF_DS) (Z.lor (Z.shiftl SEG_UDATA 3) DPL_USER);
    let! ds := load16 (tf + TF_DS) in
    do! store16 (tf + TF_ES) ds;
    let! ds := load16 (tf + TF_DS) in
    do! store16 (tf + TF_SS) ds;
    do! store32 (tf + TF_EFLAGS) FL_IF;
    do! store32 (tf + TF_ESP) PGSIZE;
    do! store32 (tf + TF_EIP) 0;
    do! updproc p (fun x => x <| p_name := lsafestrcpy (p_name x) (bytes "initcode") PNAME |>);
    let! cwd := namei [SLASH] in
    do! updproc p (fun x => x <| p_cwd := cwd |>);
    do! acquire L_ptable;
    let! ticks := gets k_ticks in
    do! updproc p (fun x => x <| p_state := RUNNABLE |> <| p_priority := ticks |>);
    release L_ptable.

Definition growproc (n : Z) : K Z :=
  let! (cur, p) := thisproc in
  let sz := p_sz p in
  if 0 <? n then
    let! sz := allocuvm (p_pgdir p) sz (sz +u n) in
    if sz =? 0 then ret (-1)
    else do! updproc cur (fun x => x <| p_sz := sz |>); do! switchuvm cur; ret 0
  else if n <? 0 then
    let! sz := deallocuvm (p_pgdir p) sz (sz +u n) in
    if sz =? 0 then ret (-1)
    else do! updproc cur (fun x => x <| p_sz := sz |>); do! switchuvm cur; ret 0
  else
    do! updproc cur (fun x => x <| p_sz := sz |>); do! switchuvm cur; ret 0.

(** The second half of [fork]: [np] has got its address space. *)
Definition fork_child (cur np : nat) : K Z :=
  let! p := getproc cur in
  do! updproc np (fun x => x <| p_sz := p_sz p |>);
  do! updproc np (fun x => x <| p_parent := Some cur |>);
  let! x := getproc np in
  do! setmem (fun m => memmove m (p_tf x) (p_tf p) sizeof_tf);
  do! store32 (p_tf x + TF_EAX) 0;
  do! for_each (seq 0 NOFILE) (fun i =>
    let! p := getproc cur in
    match p_ofile p !! i with
    | Some (Some f) =>
        let! f := filedup f in
        updproc np (fun x => x <| p_ofile := <[i := Some f]> (p_ofile x) |>)
    | _ => ret tt
    end);
  let! p := getproc cur in
  let! cwd := deref "cwd" (p_cwd p) in
  let! cwd := idup cwd in
  do! updproc np (fun x => x <| p_cwd := Some cwd |>);
  let! p := getproc cur in
  do! updproc np (fun x => x <| p_name := lsafestrcpy (p_name x) (until_nul (p_name p)) PNAME |>);
  let! x := getproc np in
  let pid := p_pid x in
  do! acquire L_ptable;
  let! ticks := gets k_ticks in
  do! updproc np (fun x => x <| p_state := RUNNABLE |> <| p_priority := ticks |>);
  do! release L_ptable;
  ret pid.

Definition fork : K Z :=
  let! r := allocproc in
  match r with
  | None => ret (-1)
  | Some np =>
      let! (cur, p) := thisproc in
      let! pgdir := copyuvm (p_pgdir p) (p_sz p) in
      do! updproc np (fun x => x <| p_pgdir := pgdir |>);
      if pgdir =? 0 then
        let! x := getproc np in
        do! kfree (p_kstack x);
        do! updproc np (fun x => x <| p_kstack := 0 |> <| p_state := UNUSED |>);
        ret (-1)
      else fork_child cur np
  end.

(** The channel of [wakeup1] called with a process. *)
Definition proc_chan (p : option nat) : chan := match p with Some i => CProc i | None => CNull end.

(** Pass child [k] of [cur] to [initproc]. *)
Definition abandon (cur k : nat) : K unit :=
  let! x := getproc k in
  if bool_decide (p_parent x = Some cur) then
    let! init := gets k_initproc in
    do! updproc k (fun x => x <| p_parent := init |>);
    when (is_state ZOMBIE x) (wakeup1 (proc_chan init))
  else ret tt.

(** The end of [exit], from the lock of the process table on. *)
Definition exit_zombie (cur : nat) : K unit :=
  do! acquire L_ptable;
  let! p := getproc cur in
  do! wakeup1 (proc_chan (p_parent p));
  let! ps := gets k_procs in
  do! for_each (seq 0 (length ps)) (abandon cur);
  do! updproc cur (fun x => x <| p_state := ZOMBIE |>);
  let! ticks := gets k_ticks in
  do! updproc cur (fun x => x <| p_etime := ticks |>);
  do! sched;
  panic "zombie exit".

Definition exit : K unit :=
  let! cur := curproc in
  let! init := gets k_initproc in
  if bool_decide (init = Some cur) then panic "init exiting"
  else
    do! for_each (seq 0 NOFILE) (fun fd =>
      let! p := getproc cur in
      match p_ofile p !! fd with
      | Some (Some f) =>
          do! fileclose f;
          updproc cur (fun x => x <| p_ofile := <[fd := None]> (p_ofile x) |>)
      | _ => ret tt
      end);
    do! begin_op;
    let! p := getproc cur in
    let! cwd := deref "cwd" (p_cwd p) in
    do! iput cwd;
    do! end_op;
    do! updproc cur (fun x => x <| p_cwd := None |>);
    exit_zombie cur.

(** Free the slot of the zombie [k]; the lock is held. *)
Definition reap (k : nat) : K Z :=
  let! x := getproc k in
  let pid := p_pid x in
  do! kfree (p_kstack x);
  do! updproc k (fun x => x <| p_kstack := 0 |>);
  do! freevm (p_pgdir x);
  do! updproc k reaped;
  ret pid.

(** The loop that [wait], [wait22] and [wait33] share: [report] is what they
    do with the child that is found, before its slot is freed. *)
Definition wait_for (report : proc -> K unit) : K Z :=
  do! acquire L_ptable;
  forever fuel (
    let! cur := curproc in
    let! ps := gets k_procs in
    match list_find (fun p => p_parent p = Some cur /\ p_state p = ZOMBIE) ps with
    | Some (k, x) =>
        do! report x;
        let! pid := reap k in
        do! release L_ptable;
        ret (Some pid)
    | None =>
        let havekids := existsb (fun p => bool_decide (p_parent p = Some cur)) ps in
        let! p := getproc cur in
        if negb havekids || negb (p_killed p =? 0) then
          do! release L_ptable;
          ret (Some (-1))
        else
          do! sleep (CProc cur) (Some L_ptable);
          ret None
    end).

Definition wait : K Z := wait_for (fun _ => ret tt).

(** The results are stored through pointers to [char]: one byte each. *)
Definition wtime_of (p : proc) : Z := p_etime p -u p_ctime p -u p_rtime p.

Definition wait22 (wtime rtime : Z) : K Z :=
  wait_for (fun p =>
    do! ustore8 wtime (wtime_of p);
    ustore8 rtime (p_rtime p)).

Definition wait33 (wtime rtime cid q3rtime q3tatime q2rtime q2tatime : Z) : K Z :=
  wait_for (fun p =>
    do! ustore8 wtime (wtime_of p);
    do! ustore8 rtime (p_rtime p);
    do! ustore8 cid (p_cid p);
    do! ustore8 q3rtime (p_q3rtime p);
    do! ustore8 q3tatime (p_q3tatime p);
    do! ustore8 q2rtime (p_q2rtime p);
    do! ustore8 q2tatime (p_q2tatime p);
    do! cprintf (Some (bytes "proc: proc->q3rtime:  %d  &&   proc->q3tatime: %d  " ++ [NL]))
      [AInt (p_q3rtime p); AInt (p_q3tatime p)];
    cprintf (Some (bytes "proc: proc->q2rtime:  %d  &&   proc->q2tatime: %d  " ++ [NL]))
      [AInt (p_q2rtime p); AInt (p_q2tatime p)]).

(** The first time a new process runs in the kernel. *)
Definition forkret : K unit :=
  do! release L_ptable;
  let! first := gets k_first in
  when (negb (first =? 0)) (
    do! modify (fun s => s <| k_first := 0 |>);
    do! iinit ROOTDEV;
    initlog ROOTDEV).
End proc.
