(* ===== verification/ProcFacts.v ===== *)
(** * Processes and their memory: lemmas

    Growing, creating and collecting processes, for a process that runs in the
    kernel between critical sections ([calm]); the address spaces of the
    processes are those of [Uvm] and [Kvm]. *)

From S2P Require Import Prelude State Monad Mem Spinlock ConsoleOut Kalloc Vm VmFacts Uvm.
From S2P Require Import Kvm User UserFacts Sched SleepWake Sleeplock Bio Log Inode Console Fs Pipe.
From S2P Require Import Proc.

Section calm_memory.
Context {L : Linker} {LO : LinkerOk L}.

(** The allocator and the console can be used by a calm process. *)
Lemma calm_kready s i p : calm s i p -> kready s.
Proof.
  intros H. split.
  - right. split; [by eapply calm_wf|]. by apply (calm_locks _ _ _ H).
  - unfold after_kmem. case_match; [done|]. by eapply calm_settle.
Qed.

Lemma kready_on_proc i f s : kready s -> kready (on_proc i f s).
Proof.
  intros [H1 H2]. split; [exact H1|]. unfold after_kmem in *. cbn. case_match; [done|].
  change (settle (on_proc i f s)) with (on_proc i f (settle s)). by rewrite H2.
Qed.

Lemma calm_cready s i p : calm s i p -> cons_ok (k_cons s) -> cready s.
Proof.
  intros H Hc. split; [split; [done|right; split; [by eapply calm_wf|by apply (calm_locks _ _ _ H)]]|].
  unfold after_cons. case_match; [done|]. by eapply calm_settle.
Qed.

Lemma calm_vm_only s s' i p : calm s i p -> vm_only s s' -> calm s' i p.
Proof. intros H [-> _]. by eapply calm_same; [exact H|done|apply H|apply H]. Qed.

(** [vm_state] does not depend on the process table. *)
Lemma vm_state_ext s s' sp up l :
  vm_state s sp up l -> kready s' -> k_mem s' = k_mem s -> k_freelist s' = k_freelist s -> vm_state s' sp up l.
Proof.
  intros [Hr [H1 H2 H3 H4] Hu Hn] Hr' Hm Hf. split; [done| |by rewrite Hm|done].
  split; rewrite ?Hm, ?Hf; done.
Qed.

(** What [switchuvm] leaves of the processor of a calm process. *)
Definition cpu_reload (n : nat) (p : proc) (c : cpu) : cpu :=
  MkCpu (c_apicid c) (c_started c) (c_ncli c) (c_intena c) (c_if c) (c_proc c)
    (<[SEG_TSS := (SEG16 STS_T32A (sym_ts n) (sizeof_ts - 1) 0) <| sd_s := 0 |>]> (c_gdt c))
    (p_kstack p +u KSTACKSIZE) (Z.shiftl SEG_KDATA 3) 0xFFFF (Z.shiftl SEG_TSS 3) (V2P (p_pgdir p)).

Lemma switchuvm_calm s i p :
  calm s i p -> p_pgdir p <> 0 -> switchuvm i s = Ret tt (on_cpu (cpu_reload (k_cpunum s) p) s).
Proof.
  intros [(c & Hc & Hn & Hif & Hi) Hp _ _] Hpg. unfold switchuvm, lcr3, upd_cpu.
  rewrite (bind_ret _ _ _ _ _ (pushcli_ret s (ex_intro _ _ Hc))). kget. do 2 kget.
  erewrite bind_ret by (eapply curproc_ret; [do 3 eapply on_cpu_lookup; exact Hc|exact Hi]).
  erewrite bind_ret by (apply getproc_ret; exact Hp). do 3 kget.
  erewrite bind_ret by (apply getproc_ret; exact Hp).
  rewrite (proj2 (Z.eqb_neq _ _) Hpg). kget.
  rewrite !on_cpu_on_cpu. erewrite popcli_ret; [|by apply on_cpu_lookup, Hc|done|cbn; rewrite Hn; lia].
  rewrite on_cpu_on_cpu. f_equal. eapply on_cpu_ext; [done|].
  unfold cpu_reload, cpu_pop, cpu_push. unfold_set. cbn. rewrite Hn, Hif. cbn. done.
Qed.

Lemma calm_reload s i p q : calm s i p -> calm (on_cpu (cpu_reload (k_cpunum s) q) s) i p.
Proof.
  intros [(c & Hc & Hn & Hif & Hi) Hp Hr Hl]. split; [|done|done|done].
  exists (cpu_reload (k_cpunum s) q c). split; [by apply on_cpu_lookup|]. cbn. done.
Qed.
End calm_memory.

(** ** growproc *)

(** The address space of a process: its pages hold [p_sz] bytes. *)
Record proc_space {L : Linker} (s : kernel) (p : proc) (sp : space) (up : upages) (l : list Z) : Prop := {
  ps_vm : vm_state s sp up l;
  ps_dir : p_pgdir p = sp_dir sp;
  ps_size : length up = npages (p_sz p);
  ps_user : 0 <= p_sz p < KERNBASE
}.

Section growproc.
Context {L : Linker} {LO : LinkerOk L}.

Lemma proc_space_nonnull s p sp up l : proc_space s p sp up l -> p_pgdir p <> 0.
Proof.
  intros [Hv -> _ _]. pose proof (page_ok_range _ (sp_dir_ok _ _ (uvm_space _ _ _ (vs_uvm _ _ _ _ Hv)))).
  unfold KERNBASE in *. lia.
Qed.

Lemma thisproc_calm s i p : calm s i p -> thisproc s = Ret (i, p) s.
Proof.
  intros [(c & Hc & _ & _ & Hi) Hp _ _]. unfold thisproc.
  rewrite (bind_ret _ _ _ _ _ (curproc_ret s c i Hc Hi)). by rewrite (bind_ret _ _ _ _ _ (getproc_ret _ _ _ Hp)).
Qed.

(** The size is set and the processor reloaded. *)
Definition resized (i : nat) (sz : Z) (s : kernel) : kernel := on_proc i (fun x => x <| p_sz := sz |>) s.

Lemma calm_resized s i p sz : calm s i p -> calm (resized i sz s) i (p <| p_sz := sz |>).
Proof.
  intros H. eapply calm_same; [exact H|done| |apply H]. by apply on_proc_lookup, (calm_proc _ _ _ H).
Qed.

Lemma set_size_ret s i p sz :
  calm s i p -> p_pgdir p <> 0 ->
  (do! updproc i (fun x => x <| p_sz := sz |>); do! switchuvm i; ret 0) s =
    Ret 0 (on_cpu (cpu_reload (k_cpunum s) (p <| p_sz := sz |>)) (resized i sz s)).
Proof.
  intros H Hp. rewrite (bind_ret _ _ _ _ _ (updproc_ret s i p _ (calm_proc _ _ _ H))).
  fold (resized i sz s). by rewrite (bind_ret _ _ _ _ _ (switchuvm_calm _ i _ (calm_resized s i p sz H) Hp)).
Qed.

(** The current process after [growproc]: its processor uses its address space. *)
Definition reloaded (s : kernel) (p : proc) : Prop :=
  c_cr3 <$> k_cpus s !! k_cpunum s = Some (V2P (p_pgdir p)).

Lemma proc_space_set s i p sz sp up l :
  calm s i p -> vm_state s sp up l -> p_pgdir p = sp_dir sp -> length up = npages sz -> 0 <= sz < KERNBASE ->
  let p' := p <| p_sz := sz |> in
  let s' := on_cpu (cpu_reload (k_cpunum s) p') (resized i sz s) in
  calm s' i p' /\ proc_space s' p' sp up l /\ reloaded s' p'.
Proof.
  intros H Hv Hd Hl Hsz p' s'. pose proof (calm_reload _ i p' p' (calm_resized s i p sz H)) as Hc.
  split_and!; [exact Hc| |].
  - split; [|done|done|done]. eapply vm_state_ext; [exact Hv|by eapply calm_kready|done|done].
  - destruct H as [(c & Hcc & _) _ _ _]. unfold reloaded. change (k_cpunum s') with (k_cpunum s).
    assert (E : k_cpus s' !! k_cpunum s = Some (cpu_reload (k_cpunum s) p' c))
      by exact (on_cpu_lookup (cpu_reload (k_cpunum s) p') (resized i sz s) c Hcc).
    by rewrite E.
Qed.

Lemma growproc_up n s i p sp up l :
  calm s i p -> cons_ok (k_cons s) -> proc_space s p sp up l -> 0 < n < 2 ^ 31 ->
  exists r s' p' sp' up' l', growproc n s = Ret r s' /\ calm s' i p' /\ proc_space s' p' sp' up' l' /\
    ((r = 0 /\ p' = p <| p_sz := p_sz p + n |> /\ reloaded s' p' /\
      exists fresh, up' = up ++ fresh /\ Forall (fresh_page (k_mem s')) fresh) \/
     (r = -1 /\ p' = p /\ up' = up)) /\
    (p_sz p + n < KERNBASE -> (2 * (npages (p_sz p + n) - npages (p_sz p)) <= length l)%nat -> r = 0).
Proof.
  intros H Hco Hps Hn. pose proof Hps as [Hv Hd Hl Hsz].
  unfold growproc. rewrite (bind_ret _ _ _ _ _ (thisproc_calm s i p H)). cbn iota zeta beta.
  rewrite (proj2 (Z.ltb_lt 0 n)) by lia. rewrite Hd.
  rewrite u32_small by (unfold KERNBASE in *; lia).
  destruct (Z.lt_ge_cases (p_sz p + n) KERNBASE) as [Hk|Hk].
  2:{ exists (-1), s, p, sp, up, l. unfold allocuvm. rewrite (proj2 (Z.leb_le _ _)) by lia.
      split_and!; [done|done|done|by right|lia]. }
  destruct (allocuvm_spec s sp up l (p_sz p) (p_sz p + n)) as (r & s1 & sp1 & up1 & l1 & H1 & Hen & Hres);
    [done|by eapply calm_cready|lia|done|done|].
  rewrite (bind_ret _ _ _ _ _ H1).
  destruct Hres as [(-> & Hst & Hl1 & fresh & -> & Hfr)|(-> & Hst & ->)].
  - rewrite (proj2 (Z.eqb_neq (p_sz p + n) 0)) by lia.
    assert (H1c : calm s1 i p) by (eapply calm_vm_only; [exact H|apply Hst]).
    rewrite (set_size_ret s1 i p _ H1c (proc_space_nonnull _ _ _ _ _ Hps)).
    destruct (proc_space_set s1 i p (p_sz p + n) sp1 (up ++ fresh) l1) as (R1 & R2 & R3);
      [done|apply Hst|by rewrite (vt_dir _ _ _ _ _ _ _ _ _ _ Hst)|done|lia|].
    eexists 0, _, _, sp1, (up ++ fresh), l1. split_and!; [done|exact R1|exact R2| |done].
    left. split_and!; [done|done|exact R3|]. exists fresh. done.
  - cbn [Z.eqb]. exists (-1), s1, p, sp1, up, l1.
    rewrite <- Hl in Hst. rewrite drop_all, take_ge in Hst by lia.
    split_and!; [done|eapply calm_vm_only; [exact H|apply Hst]| |by right|].
    + split; [apply Hst|by rewrite (vt_dir _ _ _ _ _ _ _ _ _ _ Hst)|done|done].
    + intros _ Hx. specialize (Hen Hx). lia.
Qed.
(** Shrinking by less than the size; by the size; by more than the size. *)
Lemma growproc_down n s i p sp up l :
  calm s i p -> proc_space s p sp up l -> - 2 ^ 31 <= n < 0 ->
  (0 < p_sz p + n ->
    let p' := p <| p_sz := p_sz p + n |> in let j := npages (p_sz p + n) in
    exists s', growproc n s = Ret 0 s' /\ calm s' i p' /\ reloaded s' p' /\
      proc_space s' p' sp (take j up) (reverse (drop j up).*1 ++ l)) /\
  (0 < p_sz p -> n = - p_sz p ->
    exists s', growproc n s = Ret (-1) s' /\ calm s' i p /\ vm_state s' sp [] (reverse up.*1 ++ l)) /\
  (0 < p_sz p -> p_sz p + n < 0 ->
    exists s', growproc n s = Ret 0 s' /\ calm s' i p /\ reloaded s' p /\ proc_space s' p sp up l).
Proof.
  intros H Hps Hn. pose proof Hps as [Hv Hd Hl Hsz].
  assert (Hg : growproc n s = (let! sz := deallocuvm (sp_dir sp) (p_sz p) (p_sz p +u n) in
    if sz =? 0 then ret (-1) else do! updproc i (fun x => x <| p_sz := sz |>); do! switchuvm i; ret 0) s).
  { unfold growproc. rewrite (bind_ret _ _ _ _ _ (thisproc_calm s i p H)). cbn iota zeta beta.
    rewrite (proj2 (Z.ltb_ge 0 n)), (proj2 (Z.ltb_lt n 0)) by lia. by rewrite Hd. }
  pose proof (proc_space_nonnull _ _ _ _ _ Hps) as Hnn.
  assert (Hcut : 0 <= p_sz p + n -> let j := npages (p_sz p + n) in
    exists s', deallocuvm (sp_dir sp) (p_sz p) (p_sz p +u n) s = Ret (p_sz p + n) s' /\
      vm_step (drop j up).*1 [] s sp up l s' sp (take j up) (reverse (drop j up).*1 ++ l)).
  { intros Hpos j. rewrite u32_small by (unfold KERNBASE in *; lia).
    destruct (deallocuvm_step s sp up l (p_sz p) (p_sz p + n)) as (s' & H1 & _ & H2); [done|lia|lia|lia|eauto]. }
  split_and!.
  - intros Hpos p' j. destruct (Hcut ltac:(lia)) as (s1 & H1 & Hst). fold j in Hst.
    rewrite Hg, (bind_ret _ _ _ _ _ H1), (proj2 (Z.eqb_neq (p_sz p + n) 0)) by lia.
    assert (H1c : calm s1 i p) by (eapply calm_vm_only; [exact H|apply Hst]).
    rewrite (set_size_ret s1 i p _ H1c Hnn).
    destruct (proc_space_set s1 i p (p_sz p + n) sp (take j up) (reverse (drop j up).*1 ++ l)) as (R1 & R2 & R3);
      [done|apply Hst|done| |lia|].
    + rewrite length_take, Hl. unfold j, npages, PGSIZE. Z.div_mod_to_equations. lia.
    + eexists. split_and!; [done|exact R1|exact R3|exact R2].
  - intros Hpos En. destruct (Hcut ltac:(lia)) as (s1 & H1 & Hst).
    rewrite Hg, (bind_ret _ _ _ _ _ H1). replace (p_sz p + n) with 0 in * by lia. cbn [Z.eqb].
    change (npages 0) with 0%nat in Hst. rewrite drop_0, take_0 in Hst.
    exists s1. split_and!; [done|eapply calm_vm_only; [exact H|apply Hst]|apply Hst].
  - intros Hpos Hneg. rewrite Hg. unfold deallocuvm.
    assert (Hw : p_sz p +u n = p_sz p + n + 2 ^ 32).
    { unfold u32. rewrite <- (Z.mod_add _ 1) by lia. rewrite Z.mod_small; unfold KERNBASE in *; lia. }
    rewrite Hw, (proj2 (Z.leb_le _ _)) by (unfold KERNBASE in *; lia). kget.
    rewrite (proj2 (Z.eqb_neq (p_sz p) 0)) by lia. rewrite (set_size_ret s i p _ H Hnn).
    destruct (proc_space_set s i p (p_sz p) sp up l) as (R1 & R2 & R3); [done..|].
    assert (E : p <| p_sz := p_sz p |> = p) by (by destruct p). rewrite E in *. eauto.
Qed.
End growproc.

(** ** wait *)

Section wait.
Context {L : Linker} {LO : LinkerOk L}.

(** A page outside is freed. *)
Lemma vm_state_kfree s sp up l pg :
  vm_state s sp up l -> page_ok pg -> pg ∉ sp_pages sp ++ up.*1 ++ l ->
  exists s', kfree pg s = Ret tt s' /\ mem_only s s' /\ vm_state s' sp up (pg :: l) /\
    framed [pg] (k_mem s) (k_mem s').
Proof.
  intros Hv Hpg Hnin. pose proof Hv as [Hr Hi Hu Hn].
  destruct (kfree_give s pg l Hr Hi Hpg) as (s' & H1 & Hi' & Ho & Hf).
  { intros Hx. apply Hnin. rewrite !elem_of_app. tauto. }
  exists s'. split_and!; [done|done| |done]. split; [by eapply kready_mem_only|done| |].
  - eapply uvm_same; [exact Hu|]. eapply framed_apart; [exact Hf|by apply Forall_one|apply (sp_pages_ok _ _ (uvm_space _ _ _ Hu))|].
    intros q Hq ->%list_elem_of_singleton. apply Hnin, elem_of_app. by left.
  - assert (E : sp_pages sp ++ up.*1 ++ pg :: l ≡ₚ pg :: sp_pages sp ++ up.*1 ++ l) by solve_perm.
    rewrite E. by apply NoDup_cons.
Qed.

(** All that a process owns: its kernel stack and its address space. *)
Record owns_memory (s : kernel) (x : proc) (sp : space) (up : upages) (l : list Z) : Prop := {
  om_vm : vm_state s sp up l;
  om_dir : p_pgdir x = sp_dir sp;
  om_user : (length up <= npages KERNBASE)%nat;
  om_stack : page_ok (p_kstack x);
  om_apart : p_kstack x ∉ sp_pages sp ++ up.*1 ++ l
}.

Definition reaped_slot (x : proc) : proc := reaped (x <| p_kstack := 0 |>).

Lemma reap_ret k s x sp up l :
  k_procs s !! k = Some x -> owns_memory s x sp up l ->
  exists m' fl' l',
    reap k s = Ret (p_pid x) (s <| k_mem := m' |> <| k_freelist := fl' |>
                              <| k_procs := <[k := reaped_slot x]> (k_procs s) |>) /\
    (forall s', k_mem s' = m' -> k_freelist s' = fl' -> kmem_inv s' l') /\
    l' ≡ₚ p_kstack x :: sp_pages sp ++ up.*1 ++ l /\
    framed (p_kstack x :: sp_pages sp ++ up.*1) (k_mem s) m'.
Proof.
  intros Hk [Hv Hd Hlen Hst Hap]. unfold reap. rewrite (bind_ret _ _ _ _ _ (getproc_ret _ _ _ Hk)).
  destruct (vm_state_kfree s sp up l _ Hv Hst Hap) as (s1 & H1 & Ho1 & Hv1 & Hf1).
  rewrite (bind_ret _ _ _ _ _ H1).
  assert (Hk1 : k_procs s1 !! k = Some x) by (by rewrite Ho1).
  rewrite (bind_ret _ _ _ _ _ (updproc_ret s1 k x _ Hk1)).
  set (s2 := on_proc k (fun x => x <| p_kstack := 0 |>) s1).
  assert (Hv2 : vm_state s2 sp up (p_kstack x :: l)) by (eapply vm_state_ext; [exact Hv1|apply kready_on_proc, Hv1|done|done]).
  destruct (freevm_spec s2 sp up _ Hv2 Hlen) as (s3 & l' & H3 & Ho3 & Hi3 & Hp3 & Hf3).
  rewrite <- Hd in H3. rewrite (bind_ret _ _ _ _ _ H3).
  assert (Hk3 : k_procs s3 !! k = Some (x <| p_kstack := 0 |>)).
  { rewrite Ho3. cbn. rewrite list_lookup_alter_eq. by rewrite Hk1. }
  rewrite (bind_ret _ _ _ _ _ (updproc_ret s3 k _ _ Hk3)).
  exists (k_mem s3), (k_freelist s3), l'. split_and!.
  - f_equal. unfold on_proc. rewrite (list_alter_insert _ _ _ _ Hk3).
    assert (Ep : k_procs s3 = <[k := x <| p_kstack := 0 |>]> (k_procs s)).
    { rewrite Ho3. cbn. rewrite (list_alter_insert _ _ _ _ Hk1). by rewrite Ho1. }
    rewrite Ep, list_insert_insert_eq. unfold mem_only in Ho1, Ho3. rewrite Ho3. unfold s2. rewrite Ho1. done.
  - intros s' E1 E2. destruct Hi3 as [A1 A2 A3 A4]. split; rewrite ?E1, ?E2; done.
  - rewrite Hp3. solve_perm.
  - eapply framed_trans; [eapply framed_sub; [exact Hf1|solve_sub]|].
    eapply framed_sub; [exact Hf3|solve_sub].
Qed.
Lemma calm_acq_kready s i p : calm s i p -> kready (acq L_ptable s).
Proof.
  intros H. pose proof H as [(c & Hc & Hn & _) _ _ Hl]. split.
  - right. split; [apply acq_wf; by eapply calm_wf|]. destruct (Hl L_kmem I) as [nm Hk].
    exists nm. cbn. by rewrite lookup_insert_ne.
  - unfold after_kmem. case_match; [done|]. unfold settle.
    apply (on_cpu_id _ _ (cpu_push c)); [cbn; by rewrite list_lookup_alter_eq, Hc|].
    unfold cpu_settle. cbn. by rewrite Hn.
Qed.

Lemma owns_memory_acq s i p x sp up l :
  calm s i p -> owns_memory s x sp up l -> owns_memory (acq L_ptable s) x sp up l.
Proof.
  intros H [Hv Hd Hl Hs Ha]. split; try done.
  eapply vm_state_ext; [exact Hv|by eapply calm_acq_kready|done|done].
Qed.

(** The zombie child that [wait] collects: the first one in the table. *)
Definition zombie_of (i : nat) (p : proc) : Prop := p_parent p = Some i /\ p_state p = ZOMBIE.

Context {F : Fuel} (Hfuel : (0 < fuel)%nat).

Lemma wait_for_found report s i p k x sp up l s1 :
  calm s i p -> list_find (zombie_of i) (k_procs s) = Some (k, x) ->
  report x (acq L_ptable s) = Ret tt s1 -> same_locks (acq L_ptable s) s1 -> k_procs s1 = k_procs s ->
  owns_memory s1 x sp up l ->
  exists m' fl' l',
    let s' := (leave_cs s s1) <| k_mem := m' |> <| k_freelist := fl' |>
                              <| k_procs := <[k := reaped_slot x]> (k_procs s) |> in
    wait_for report s = Ret (p_pid x) s' /\ kmem_inv s' l' /\
    l' ≡ₚ p_kstack x :: sp_pages sp ++ up.*1 ++ l /\
    framed (p_kstack x :: sp_pages sp ++ up.*1) (k_mem s1) m'.
Proof.
  intros H Hfind Hrep Hlk Hps Hom. pose proof (calm_locks _ _ _ H L_ptable I) as Hfree.
  assert (exists n, fuel = S n) as [n Hn] by (exists (pred fuel); lia).
  assert (Hk1 : k_procs s1 !! k = Some x) by (rewrite Hps; by apply list_find_Some in Hfind as [? _]).
  destruct (reap_ret k s1 x sp up l Hk1 Hom) as (m' & fl' & l' & H2 & H3 & H4 & H5).
  exists m', fl', l'. intros s'.
  split_and!; [|by apply H3|done|done].
  unfold wait_for. rewrite (bind_ret _ _ _ _ _ (acquire_calm _ _ _ _ H Hfree)). rewrite Hn. cbn [forever].
  rewrite (bind_ret _ _ _ (Some (p_pid x)) s'); [done|]. rewrite (bind_ret _ _ _ _ _ (acq_curproc L_ptable s i p H)). kget.
  change (k_procs (acq L_ptable s)) with (k_procs s).
  unfold zombie_of in Hfind. rewrite Hfind, (bind_ret _ _ _ _ _ Hrep), (bind_ret _ _ _ _ _ H2), Hps.
  erewrite bind_ret by (eapply (release_calm L_ptable s); [exact H|done|destruct Hlk as (A & B & C); by split_and!]).
  done.
Qed.

(** No zombie child: the process gives up, or goes to sleep. *)
Lemma wait_for_none report s i p :
  calm s i p -> list_find (zombie_of i) (k_procs s) = None -> (k_strategy s = 2 -> cons_ready s) ->
  let havekids := existsb (fun q => bool_decide (p_parent q = Some i)) (k_procs s) in
  (havekids = false \/ p_killed p <> 0 -> wait_for report s = Ret (-1) s) /\
  (havekids = true -> p_killed p = 0 ->
    exists s1 k, wait_for report s = Swtch s1 k /\ k_procs s1 = <[i := asleep (CProc i) p]> (k_procs s)).
Proof.
  intros H Hfind Hco havekids. pose proof (calm_locks _ _ _ H L_ptable I) as Hfree.
  assert (exists n, fuel = S n) as [n Hn] by (exists (pred fuel); lia).
  assert (Hp1 : getproc i (acq L_ptable s) = Ret p (acq L_ptable s)) by apply getproc_ret, H.
  unfold wait_for. rewrite (bind_ret _ _ _ _ _ (acquire_calm _ _ _ _ H Hfree)). rewrite Hn. cbn [forever].
  split.
  - intros Hgive. rewrite (bind_ret _ _ _ (Some (-1)) s); [done|]. rewrite (bind_ret _ _ _ _ _ (acq_curproc L_ptable s i p H)). kget.
    change (k_procs (acq L_ptable s)) with (k_procs s). unfold zombie_of in Hfind. rewrite Hfind.
    rewrite (bind_ret _ _ _ _ _ Hp1). fold havekids.
    replace (negb havekids || negb (p_killed p =? 0)) with true.
    + erewrite bind_ret by (eapply (release_calm L_ptable s); [exact H|done|done]). unfold leave_cs. by destruct s.
    + destruct Hgive as [->|Hk]; [done|]. rewrite (proj2 (Z.eqb_neq _ _) Hk). by rewrite orb_true_r.
  - intros Hkids Hkill. pose proof H as [(c & Hc & Hcn & _ & Hci) Hp _ _].
    assert (Hms : may_sleep L_ptable (acq L_ptable s) (cpu_push c) i p).
    { split_and!; [|apply (acq_in_cs L_ptable s); by eapply calm_wf|done].
      split; [cbn; by rewrite list_lookup_alter_eq, Hc|cbn; lia|done|done|done|lia|].
      intros E. apply cons_ready_acq; [by eapply calm_wf|done|auto]. }
    destruct (sleep_swtch (CProc i) L_ptable _ _ _ _ Hms) as (co & _ & _ & Hsl).
    eexists _, _. split.
    + erewrite bind_swtch; [reflexivity|]. rewrite (bind_ret _ _ _ _ _ (acq_curproc L_ptable s i p H)). kget.
      change (k_procs (acq L_ptable s)) with (k_procs s). unfold zombie_of in Hfind. rewrite Hfind.
      rewrite (bind_ret _ _ _ _ _ Hp1). fold havekids. rewrite Hkids, Hkill. cbn [negb orb Z.eqb].
      erewrite bind_swtch by exact Hsl. reflexivity.
    + cbn. by rewrite (list_alter_insert _ _ _ _ Hp).
Qed.
End wait.
