(* ===== verification/ForkFacts.v ===== *)
(** * fork: lemmas

    [allocproc] takes an unused slot and builds the kernel stack of the new
    process; [fork] copies the parent's address space, trap frame, open files,
    directory and name into it. *)

From S2P Require Import Prelude State Monad Mem Spinlock ConsoleOut Kalloc Vm VmFacts Uvm.
From S2P Require Import Kvm User UserFacts Sched SleepWake Sleeplock Bio Log Inode Console Fs Pipe.
From S2P Require Import Proc ProcFacts.

(** Two states are equal if all variables are. *)
Lemma kernel_ext a b :
  k_cpunum a = k_cpunum b -> k_cpus a = k_cpus b -> k_locks a = k_locks b ->
  k_strategy a = k_strategy b -> k_ticks a = k_ticks b -> k_procs a = k_procs b ->
  k_initproc a = k_initproc b -> k_nextpid a = k_nextpid b -> k_first a = k_first b ->
  k_mem a = k_mem b -> k_use_lock a = k_use_lock b -> k_freelist a = k_freelist b ->
  k_kpgdir a = k_kpgdir b -> k_cons a = k_cons b -> k_disk a = k_disk b ->
  k_idequeue a = k_idequeue b -> k_havedisk1 a = k_havedisk1 b -> k_bufs a = k_bufs b ->
  k_bhead a = k_bhead b -> k_log a = k_log b -> k_sb a = k_sb b ->
  k_inodes a = k_inodes b -> k_files a = k_files b -> k_pipes a = k_pipes b ->
  k_devsw a = k_devsw b -> k_ports a = k_ports b -> k_writes a = k_writes b ->
  k_shift a = k_shift b -> k_lapic a = k_lapic b -> k_ioapic a = k_ioapic b ->
  k_ismp a = k_ismp b -> k_ncpu a = k_ncpu b -> k_ioapicid a = k_ioapicid b ->
  k_irqmask a = k_irqmask b -> a = b.
Proof. destruct a, b. cbn. intros. by subst. Qed.

(** ** Changes that keep the process calm *)

Lemma calm_on_proc s i p k f : calm s i p -> k <> i -> calm (on_proc k f s) i p.
Proof.
  intros H Hne. eapply calm_same; [exact H|done| |apply H]. cbn. rewrite list_lookup_alter_ne by done. apply H.
Qed.

Lemma calm_on_inode s i p ip f : calm s i p -> calm (on_inode ip f s) i p.
Proof. intros H. by eapply calm_same; [exact H|done|apply H|apply H]. Qed.
Lemma on_inode_procs ip f s : k_procs (on_inode ip f s) = k_procs s.
Proof. done. Qed.

Lemma on_proc_insert s i f p : k_procs s !! i = Some p -> k_procs (on_proc i f s) = <[i := f p]> (k_procs s).
Proof. apply list_alter_insert. Qed.
Lemma on_proc_inodes k f s : k_inodes (on_proc k f s) = k_inodes s.
Proof. done. Qed.
Lemma on_inode_inodes ip f s : k_inodes (on_inode ip f s) = alter f ip (k_inodes s).
Proof. done. Qed.
Lemma with_mem_procs m s : k_procs (s <| k_mem := m |>) = k_procs s.
Proof. done. Qed.

(** Under the lock of the process table: a change of a slot. *)
Lemma locked_slot s i p k f :
  calm s i p -> leave_cs s (on_proc k f (acq L_ptable s)) = on_proc k f s.
Proof. intros H. unfold leave_cs. by destruct s. Qed.

Lemma filedup_calm s i p f x :
  calm s i p -> k_files s !! f = Some x -> 1 <= f_ref x ->
  filedup f s = Ret f (on_file f (fun x => x <| f_ref := f_ref x + 1 |>) s).
Proof.
  intros H Hf Hr. pose proof (calm_locks _ _ _ H L_ftable I) as Hl. unfold filedup.
  rewrite (bind_ret _ _ _ _ _ (acquire_calm _ _ _ _ H Hl)).
  assert (Hg : getfile f (acq L_ftable s) = Ret x (acq L_ftable s)) by (unfold getfile; cbn; by rewrite Hf).
  rewrite (bind_ret _ _ _ _ _ Hg), (proj2 (Z.ltb_ge _ _)) by lia.
  unfold updfile. erewrite bind_ret by (rewrite (bind_ret _ _ _ _ _ Hg); reflexivity).
  erewrite bind_ret by (eapply (release_calm L_ftable s); [exact H|done|done]). done.
Qed.

Lemma idup_calm s i p ip x :
  calm s i p -> k_inodes s !! ip = Some x ->
  idup ip s = Ret ip (on_inode ip (fun x => x <| i_ref := i_ref x + 1 |>) s).
Proof.
  intros H Hf. pose proof (calm_locks _ _ _ H L_icache I) as Hl. unfold idup.
  rewrite (bind_ret _ _ _ _ _ (acquire_calm _ _ _ _ H Hl)).
  assert (Hg : getinode ip (acq L_icache s) = Ret x (acq L_icache s)) by (unfold getinode; cbn; by rewrite Hf).
  unfold updinode. erewrite bind_ret by (rewrite (bind_ret _ _ _ _ _ Hg); reflexivity).
  erewrite bind_ret by (eapply (release_calm L_icache s); [exact H|done|done]). done.
Qed.

(** ** The open files *)

Definition add_ref (x : file) : file := x <| f_ref := f_ref x + 1 |>.

(** The file table after the descriptors [js] of [ofile] have been duplicated,
    and the descriptors of the child. *)
Definition dup_files (js : list nat) (ofile : list (option nat)) (fs : list file) : list file :=
  foldl (fun fs j => match ofile !! j with Some (Some f) => alter add_ref f fs | _ => fs end) fs js.
Definition child_files (js : list nat) (ofile cfile : list (option nat)) : list (option nat) :=
  foldl (fun c j => match ofile !! j with Some (Some f) => <[j := Some f]> c | _ => c end) cfile js.

(** Every open descriptor refers to a file in use. *)
Definition files_open (ofile : list (option nat)) (fs : list file) : Prop :=
  forall j f, ofile !! j = Some (Some f) -> exists x, fs !! f = Some x /\ 1 <= f_ref x.

Lemma files_open_alter ofile fs f : files_open ofile fs -> files_open ofile (alter add_ref f fs).
Proof.
  intros H j g Hj. destruct (H j g Hj) as (x & Hx & Hr). destruct (decide (f = g)) as [->|Hne].
  - exists (add_ref x). rewrite list_lookup_alter_eq, Hx. split; [done|]. cbn. lia.
  - exists x. by rewrite list_lookup_alter_ne.
Qed.

Lemma dup_loop js s i p k :
  calm s i p -> k <> i -> files_open (p_ofile p) (k_files s) -> (exists x, k_procs s !! k = Some x) ->
  for_each js (fun j =>
    let! p := getproc i in
    match p_ofile p !! j with
    | Some (Some f) =>
        let! f := filedup f in
        updproc k (fun x => x <| p_ofile := <[j := Some f]> (p_ofile x) |>)
    | _ => ret tt
    end) s =
  Ret tt (s <| k_files := dup_files js (p_ofile p) (k_files s) |>
            <| k_procs := alter (fun x => x <| p_ofile := child_files js (p_ofile p) (p_ofile x) |>) k (k_procs s) |>).
Proof.
  intros H Hne Ho. revert s H Ho. induction js as [|j js IH]; intros s H Ho (x & Hx); cbn [for_each].
  - unfold ret. f_equal. unfold dup_files, child_files. cbn.
    rewrite (list_alter_id _ _ _ _ Hx) by (by destruct x). by destruct s.
  - assert (Hstep : exists s1, (let! p := getproc i in
        match p_ofile p !! j with
        | Some (Some f) =>
            let! f := filedup f in
            updproc k (fun x => x <| p_ofile := <[j := Some f]> (p_ofile x) |>)
        | _ => ret tt
        end) s = Ret tt s1 /\
      s1 = s <| k_files := dup_files [j] (p_ofile p) (k_files s) |>
             <| k_procs := alter (fun x => x <| p_ofile := child_files [j] (p_ofile p) (p_ofile x) |>) k (k_procs s) |>).
    { eexists. split; [|done]. rewrite (bind_ret _ _ _ _ _ (getproc_ret _ _ _ (calm_proc _ _ _ H))).
      unfold dup_files, child_files. cbn [foldl].
      destruct (p_ofile p !! j) as [[f|]|] eqn:Ej.
      - destruct (Ho j f Ej) as (y & Hy & Hr). rewrite (bind_ret _ _ _ _ _ (filedup_calm _ _ _ _ _ H Hy Hr)).
        by rewrite (updproc_ret _ k x).
      - rewrite (list_alter_id _ _ _ _ Hx) by (by destruct x). by destruct s.
      - rewrite (list_alter_id _ _ _ _ Hx) by (by destruct x). by destruct s. }
    destruct Hstep as (s1 & H1 & E1). rewrite (bind_ret _ _ _ _ _ H1).
    rewrite (IH s1).
    + subst s1. cbn. f_equal. unfold dup_files, child_files. cbn [foldl]. by rewrite list_alter_alter.
    + subst s1. eapply calm_same; [exact H|done| |apply H]. cbn. rewrite list_lookup_alter_ne by done. apply H.
    + subst s1. cbn. unfold dup_files. cbn [foldl]. destruct (p_ofile p !! j) as [[f|]|]; [by apply files_open_alter|done|done].
    + subst s1. cbn. rewrite list_lookup_alter_eq, Hx. cbn. eauto.
Qed.

Lemma foldl_ext_in {A B} (f g : A -> B -> A) (l : list B) (a : A) :
  (forall a b, b ∈ l -> f a b = g a b) -> foldl f a l = foldl g a l.
Proof.
  revert a. induction l as [|b l IH]; intros a H; cbn; [done|].
  rewrite H by apply list_elem_of_here. apply IH. intros. apply H. by apply list_elem_of_further.
Qed.

(** All descriptors: each file gains one reference for each of them. *)
Definition refs_to (f : nat) (ofile : list (option nat)) : nat :=
  length (filter (fun o => o = Some f) ofile).

Lemma dup_files_ref ofile fs f x :
  fs !! f = Some x ->
  dup_files (seq 0 (length ofile)) ofile fs !! f = Some (x <| f_ref := f_ref x + Z.of_nat (refs_to f ofile) |>).
Proof.
  intros Hx. induction ofile as [|o ofile IH] using rev_ind; [by destruct x; cbn in *; rewrite Z.add_0_r|].
  rewrite length_app, Nat.add_1_r, seq_S. unfold dup_files. rewrite foldl_app. cbn [foldl].
  assert (E : dup_files (seq 0 (length ofile)) (ofile ++ [o]) fs = dup_files (seq 0 (length ofile)) ofile fs).
  { unfold dup_files. apply foldl_ext_in. intros y j Hj. apply elem_of_seq in Hj. by rewrite lookup_app_l by lia. }
  unfold dup_files in E. rewrite E. fold (dup_files (seq 0 (length ofile)) ofile fs).
  assert (Hr : refs_to f (ofile ++ [o]) = (refs_to f ofile + (if decide (o = Some f) then 1 else 0))%nat).
  { unfold refs_to. rewrite filter_app, length_app. f_equal. rewrite filter_cons. by case_decide. }
  rewrite Hr, Nat.add_0_l, list_lookup_middle by done. destruct o as [g|].
  - destruct (decide (g = f)) as [->|Hne].
    + rewrite list_lookup_alter_eq, IH, decide_True by done. destruct x. unfold add_ref. unfold_set. cbn. do 2 f_equal; lia.
    + rewrite list_lookup_alter_ne, IH, decide_False, Nat.add_0_r by congruence. done.
  - rewrite IH, decide_False, Nat.add_0_r by done. done.
Qed.

Lemma child_files_all ofile : child_files (seq 0 (length ofile)) ofile (replicate (length ofile) None) = ofile.
Proof.
  assert (H : forall n, (n <= length ofile)%nat ->
    child_files (seq 0 n) ofile (replicate (length ofile) None) = take n ofile ++ replicate (length ofile - n) None).
  { intros n. induction n as [|n IH]; intros Hn; [by rewrite Nat.sub_0_r|].
    rewrite seq_S. unfold child_files in *. rewrite foldl_app, IH by lia. cbn [foldl Nat.add].
    destruct (lookup_lt_is_Some_2 ofile n) as [o Ho]; [lia|]. rewrite Ho, (take_S_r _ _ _ Ho).
    replace (length ofile - n)%nat with (S (length ofile - S n)) by lia. cbn [replicate].
    rewrite <- app_assoc. cbn [app]. destruct o as [f|]; [|done].
    rewrite insert_app_r_alt by (rewrite length_take; lia). rewrite length_take, Nat.min_l, Nat.sub_diag by lia. done. }
  rewrite (H (length ofile)) by lia. by rewrite take_ge, Nat.sub_diag, app_nil_r.
Qed.

#[local] Strategy opaque [dup_files child_files].

(** ** allocproc *)

Section allocproc.
Context {L : Linker} {LO : LinkerOk L}.

(** The slot that [allocproc] returns, with the kernel stack [ks]. *)
Definition TF_OFF : Z := KSTACKSIZE - sizeof_tf.
Definition CTX_OFF : Z := TF_OFF - 4 - sizeof_context.

Definition newborn (ks pid ticks : Z) (x : proc) : proc :=
  (embryo pid ticks x) <| p_kstack := ks |> <| p_tf := ks + TF_OFF |> <| p_context := ks + CTX_OFF |>.

(** The kernel stack: the context that [swtch] loads continues in [forkret],
    whose return address is [trapret]. *)
Definition first_frame (m : mem) (ks : Z) : mem :=
  st32 (memset (st32 m (ks + TF_OFF - 4) sym_trapret) (ks + CTX_OFF) 0 sizeof_context)
    (ks + CTX_OFF + CTX_EIP) sym_forkret.

Lemma first_frame_framed m ks : framed [ks] m (first_frame m ks).
Proof.
  intros a Ha. assert (Hn : ~ in_page ks a) by (apply Ha, list_elem_of_here).
  unfold in_page, PGSIZE in Hn. unfold first_frame, CTX_OFF, TF_OFF, KSTACKSIZE, sizeof_tf, sizeof_context, CTX_EIP in *.
  rewrite ld8_st32_ne by lia. rewrite ld8_memset, decide_False by lia. apply ld8_st32_ne. lia.
Qed.

Lemma ld32_st32_u32 m a v : ld32 (st32 m a v) a = u32 v.
Proof.
  unfold ld32, st32. rewrite !ld8_st8.
  repeat (destruct (decide _); try lia). unfold u8, u32.
  change (2 ^ 32) with (2 ^ 8 * (2 ^ 8 * (2 ^ 8 * 2 ^ 8))).
  rewrite !Z.rem_mul_r by lia. rewrite !Z.div_div by lia.
  change (2 ^ 8 * 2 ^ 8) with (2 ^ 16). change (2 ^ 16 * 2 ^ 8) with (2 ^ 24). lia.
Qed.

Lemma first_frame_words m ks :
  ld32 (first_frame m ks) (ks + TF_OFF - 4) = u32 sym_trapret /\
  ld32 (first_frame m ks) (ks + CTX_OFF + CTX_EIP) = u32 sym_forkret.
Proof.
  split; [|apply ld32_st32_u32]. unfold first_frame.
  unfold CTX_OFF, TF_OFF, KSTACKSIZE, sizeof_tf, sizeof_context, CTX_EIP in *.
  rewrite ld32_st32_ne by lia. rewrite <- (ld32_st32_u32 m (ks + (4096 - 76) - 4) sym_trapret).
  apply ld32_agree. intros j Hj. rewrite ld8_memset, decide_False by lia. done.
Qed.

Lemma allocproc_none s i p :
  calm s i p -> list_find (fun p => p_state p = UNUSED) (k_procs s) = None -> allocproc s = Ret None s.
Proof.
  intros H Hf. pose proof (calm_locks _ _ _ H L_ptable I) as Hl. unfold allocproc.
  rewrite (bind_ret _ _ _ _ _ (acquire_calm _ _ _ _ H Hl)). kget.
  change (k_procs (acq L_ptable s)) with (k_procs s). rewrite Hf.
  erewrite bind_ret by (eapply (release_calm L_ptable s); [exact H|done|done]). unfold leave_cs. by destruct s.
Qed.

(** The part of [allocproc] under the lock. *)
Definition claimed (k : nat) (s : kernel) : kernel :=
  (on_proc k (embryo (k_nextpid s) (k_ticks s)) s) <| k_nextpid := i32 (k_nextpid s + 1) |>.

Lemma calm_claimed s i p k : calm s i p -> k <> i -> calm (claimed k s) i p.
Proof.
  intros H Hne. eapply calm_same; [exact H|done| |apply H]. cbn. rewrite list_lookup_alter_ne by done. apply H.
Qed.

Lemma allocproc_ok s i p k x ks l :
  calm s i p -> list_find (fun p => p_state p = UNUSED) (k_procs s) = Some (k, x) -> kmem_inv s (ks :: l) ->
  exists fl', let s' := s <| k_procs := <[k := newborn ks (k_nextpid s) (k_ticks s) x]> (k_procs s) |>
      <| k_nextpid := i32 (k_nextpid s + 1) |> <| k_mem := first_frame (k_mem s) ks |> <| k_freelist := fl' |> in
    allocproc s = Ret (Some k) s' /\ kmem_inv s' l /\ k <> i /\ calm s' i p.
Proof.
  intros H Hf Hi. pose proof (calm_locks _ _ _ H L_ptable I) as Hl.
  apply list_find_Some in Hf as Hf'. destruct Hf' as (Hx & Hst & _).
  assert (Hne : k <> i).
  { intros ->. pose proof (calm_proc _ _ _ H) as Hp. rewrite Hp in Hx. injection Hx as ->.
    by rewrite (calm_running _ _ _ H) in Hst. }
  set (s1 := claimed k s).
  pose proof (calm_claimed s i p k H Hne) as H1.
  assert (Hi1 : kmem_inv s1 (ks :: l)) by (by destruct Hi).
  destruct (kalloc_take s1 ks l (calm_kready _ _ _ H1) Hi1) as (s2 & K1 & Hi2 & Km & Ko).
  exists (k_freelist s2). intros s'.
  assert (Hpk : page_ok ks) by (by pose proof (kmem_pages _ _ Hi) as [? _]%Forall_cons).
  split_and!; [| |done|].
  - unfold allocproc. rewrite (bind_ret _ _ _ _ _ (acquire_calm _ _ _ _ H Hl)). kget.
    change (k_procs (acq L_ptable s)) with (k_procs s). rewrite Hf. kget. kget.
    rewrite (bind_ret _ _ _ _ _ (updproc_ret (acq L_ptable s) k x _ Hx)). kget.
    erewrite bind_ret by (eapply (release_calm L_ptable s); [exact H|done|done]).
    match goal with |- bind _ _ ?t = _ => change t with s1 end.
    rewrite (bind_ret _ _ _ _ _ K1).
    assert (Hx2 : k_procs s2 !! k = Some (embryo (k_nextpid s) (k_ticks s) x)).
    { rewrite Ko. cbn. by rewrite list_lookup_alter_eq, Hx. }
    rewrite (bind_ret _ _ _ _ _ (updproc_ret s2 k _ _ Hx2)).
    rewrite (proj2 (Z.eqb_neq ks 0)) by (apply page_ok_range in Hpk; unfold KERNBASE in *; lia).
    erewrite bind_ret by (eapply updproc_ret, on_proc_lookup, Hx2). unfold store32, setmem. kget.
    erewrite bind_ret by (eapply updproc_ret; rewrite with_mem_procs; by do 2 apply on_proc_lookup). kget. kget.
    unfold ret. f_equal. unfold on_proc. cbn. rewrite !list_alter_alter, (list_alter_insert _ _ _ _ Hx2).
    rewrite Km, Ko. cbn. rewrite (list_alter_insert _ _ _ _ Hx), list_insert_insert_eq.
    unfold s', first_frame, newborn, CTX_OFF, TF_OFF. cbn.
    replace (ks + (KSTACKSIZE - sizeof_tf)) with (ks + KSTACKSIZE - sizeof_tf) by lia.
    replace (ks + (KSTACKSIZE - sizeof_tf - 4 - sizeof_context)) with (ks + KSTACKSIZE - sizeof_tf - 4 - sizeof_context) by lia.
    done.
  - eapply (kmem_inv_framed s2); [exact Hi2| |done|rewrite Km; apply first_frame_framed|by apply Forall_one|].
    + cbn. apply mem_ok_st32, mem_ok_memset, mem_ok_st32, (kmem_bytes _ _ Hi).
    + intros q ->%list_elem_of_singleton. by pose proof (kmem_nodup _ _ Hi) as [? _]%NoDup_cons.
  - eapply calm_same; [exact H|done| |apply H]. cbn. rewrite list_lookup_insert_ne by done. apply H.
Qed.
End allocproc.

(** ** The second half of fork *)

(** Give the current state a name. *)
Ltac name_state s E := match goal with |- bind _ _ ?t = _ => remember t as s eqn:E end.

Lemma ld8_st32_zero m a b : a <= b < a + 4 -> ld8 (st32 m a 0) b = 0.
Proof. intros H. unfold st32. rewrite !ld8_st8. repeat case_decide; try lia; done. Qed.

#[local] Strategy opaque [memmove memset st32 lsafestrcpy].

Section fork.
Context {L : Linker} {LO : LinkerOk L}.

(** The child's slot when it is runnable. *)
Definition child_slot (cur : nat) (p : proc) (ticks : Z) (y : proc) : proc :=
  y <| p_sz := p_sz p |> <| p_parent := Some cur |>
    <| p_ofile := child_files (seq 0 NOFILE) (p_ofile p) (p_ofile y) |> <| p_cwd := p_cwd p |>
    <| p_name := lsafestrcpy (p_name y) (until_nul (p_name p)) PNAME |>
    <| p_state := RUNNABLE |> <| p_priority := ticks |>.

(** The child's trap frame: that of the parent, with 0 in %eax. *)
Definition child_frame (m : mem) (ctf ptf : Z) : mem :=
  st32 (memmove m ctf ptf sizeof_tf) (ctf + TF_EAX) 0.

Lemma publish_child s cur p np y pid :
  calm s cur p -> np <> cur -> k_procs s !! np = Some y ->
  (do! acquire L_ptable;
   let! ticks := gets k_ticks in
   do! updproc np (fun x => x <| p_state := RUNNABLE |> <| p_priority := ticks |>);
   do! release L_ptable;
   (ret pid : K Z)) s =
  Ret pid (on_proc np (fun x => x <| p_state := RUNNABLE |> <| p_priority := k_ticks s |>) s).
Proof.
  intros H Hne Hy. pose proof (calm_locks _ _ _ H L_ptable I) as Hl.
  rewrite (bind_ret _ _ _ _ _ (acquire_calm _ _ _ _ H Hl)). kget.
  rewrite (bind_ret _ _ _ _ _ (updproc_ret (acq L_ptable s) np _ _ Hy)).
  erewrite bind_ret by (eapply (release_calm L_ptable s); [exact H|exact Hl|done]).
  rewrite (locked_slot s cur p) by exact H. reflexivity.
Qed.

Lemma fork_child_ret s cur p np y cwd ino :
  calm s cur p -> np <> cur -> k_procs s !! np = Some y -> files_open (p_ofile p) (k_files s) ->
  p_cwd p = Some cwd -> k_inodes s !! cwd = Some ino ->
  fork_child cur np s = Ret (p_pid y)
    (s <| k_mem := child_frame (k_mem s) (p_tf y) (p_tf p) |>
       <| k_files := dup_files (seq 0 NOFILE) (p_ofile p) (k_files s) |>
       <| k_inodes := alter (fun x => x <| i_ref := i_ref x + 1 |>) cwd (k_inodes s) |>
       <| k_procs := <[np := child_slot cur p (k_ticks s) y]> (k_procs s) |>).
Proof.
  intros H Hne Hy Hof Hcwd Hino. unfold fork_child.
  rewrite (bind_ret _ _ _ _ _ (getproc_ret _ _ _ (calm_proc _ _ _ H))).
  rewrite (bind_ret _ _ _ _ _ (updproc_ret s np y _ Hy)).
  erewrite bind_ret by (eapply updproc_ret, on_proc_lookup, Hy).
  erewrite bind_ret by (eapply getproc_ret, on_proc_lookup, on_proc_lookup, Hy).
  unfold setmem, store32. kget. kget.
  rewrite on_proc_on_proc.
  set (y1 := y <| p_sz := p_sz p |> <| p_parent := Some cur |>).
  name_state s3 E3.
  assert (Hp3 : k_procs s3 = <[np := y1]> (k_procs s)) by (rewrite E3; exact (list_alter_insert _ _ _ _ Hy)).
  assert (Hlt : (np < length (k_procs s))%nat) by (by eapply lookup_lt_Some).
  assert (H3 : calm s3 cur p).
  { eapply calm_same; [exact H|by rewrite E3| |apply H]. rewrite Hp3, list_lookup_insert_ne by done. apply H. }
  assert (Hof3 : files_open (p_ofile p) (k_files s3)) by (by rewrite E3).
  erewrite bind_ret.
  2:{ apply (dup_loop (seq 0 NOFILE) s3 cur p np H3 Hne Hof3). exists y1. rewrite Hp3. by apply list_lookup_insert_eq. }
  name_state s4 E4.
  set (y2 := y1 <| p_ofile := child_files (seq 0 NOFILE) (p_ofile p) (p_ofile y) |>).
  assert (Hp4 : k_procs s4 = <[np := y2]> (k_procs s)).
  { rewrite E4. cbn [k_procs]. rewrite Hp3, (list_alter_insert _ _ _ y1) by (by apply list_lookup_insert_eq).
    by rewrite list_insert_insert_eq. }
  assert (H4 : calm s4 cur p).
  { eapply calm_same; [exact H3|by rewrite E4| |apply H]. rewrite Hp4, list_lookup_insert_ne by done. apply H. }
  rewrite (bind_ret _ _ _ _ _ (getproc_ret _ _ _ (calm_proc _ _ _ H4))), Hcwd.
  erewrite bind_ret by reflexivity.
  assert (Hino4 : k_inodes s4 !! cwd = Some ino) by (by rewrite E4, E3).
  rewrite (bind_ret _ _ _ _ _ (idup_calm s4 cur p cwd ino H4 Hino4)).
  name_state s5 E5.
  assert (Hy5 : k_procs s5 !! np = Some y2) by (rewrite E5, on_inode_procs, Hp4; by apply list_lookup_insert_eq).
  assert (H5 : calm s5 cur p) by (rewrite E5; by apply calm_on_inode).
  rewrite (bind_ret _ _ _ _ _ (updproc_ret s5 np y2 _ Hy5)).
  name_state s6 E6.
  assert (H6 : calm s6 cur p) by (rewrite E6; by apply calm_on_proc).
  rewrite (bind_ret _ _ _ _ _ (getproc_ret _ _ _ (calm_proc _ _ _ H6))).
  assert (Hy6 : k_procs s6 !! np = Some (y2 <| p_cwd := Some cwd |>)) by (rewrite E6; by apply on_proc_lookup).
  rewrite (bind_ret _ _ _ _ _ (updproc_ret s6 np _ _ Hy6)).
  name_state s7 E7.
  set (y7 := y2 <| p_cwd := Some cwd |> <| p_name := lsafestrcpy (p_name y) (until_nul (p_name p)) PNAME |>).
  assert (H7 : calm s7 cur p) by (rewrite E7; by apply calm_on_proc).
  assert (Hy7 : k_procs s7 !! np = Some y7) by (rewrite E7; rewrite (on_proc_lookup _ _ _ _ Hy6); reflexivity).
  rewrite (bind_ret _ _ _ _ _ (getproc_ret _ _ _ Hy7)).
  rewrite (publish_child s7 cur p np y7 (p_pid y7) H7 Hne Hy7).
  change (p_pid y7) with (p_pid y). f_equal.
  assert (Hp7 : k_procs s7 = <[np := y7]> (k_procs s)).
  { rewrite E7, (on_proc_insert _ _ _ _ Hy6), E6, (on_proc_insert _ _ _ _ Hy5), E5, on_inode_procs, Hp4.
    by rewrite !list_insert_insert_eq. }
  assert (Ht7 : k_ticks s7 = k_ticks s) by (rewrite E7, E6, E5, E4, E3; reflexivity).
  apply kernel_ext; lazymatch goal with
    | |- k_procs _ = _ => idtac
    | |- k_mem _ = _ => transitivity (child_frame (k_mem s) (p_tf y) (p_tf p)); [rewrite E7, E6, E5, E4, E3|]; reflexivity
    | |- k_files _ = _ => transitivity (dup_files (seq 0 NOFILE) (p_ofile p) (k_files s)); [rewrite E7, E6, E5, E4, E3|]; reflexivity
    | |- k_inodes _ = _ => transitivity (alter (fun x => x <| i_ref := i_ref x + 1 |>) cwd (k_inodes s));
        [rewrite on_proc_inodes, E7, on_proc_inodes, E6, on_proc_inodes, E5, on_inode_inodes; f_equal; rewrite E4, E3|]; reflexivity
    | |- ?k _ = _ => transitivity (k s); [rewrite E7, E6, E5, E4, E3|]; reflexivity
    end.
  rewrite (on_proc_insert _ _ _ _ Hy7), Hp7, list_insert_insert_eq.
  rewrite Ht7.
  unfold child_slot. rewrite Hcwd. reflexivity.
Qed.

(** ** The whole of fork *)

Lemma child_frame_framed m ks ptf :
  mem_ok m -> framed [ks] m (child_frame m (ks + TF_OFF) ptf).
Proof.
  intros Hm a Ha. assert (Hn : ~ in_page ks a) by (apply Ha, list_elem_of_here).
  unfold in_page, PGSIZE in Hn. unfold child_frame, TF_OFF, KSTACKSIZE, TF_EAX, sizeof_tf in *.
  rewrite ld8_st32_ne by lia. by rewrite ld8_memmove, decide_False by (done || lia).
Qed.

(** The new trap frame: the parent's, with 0 in %eax. *)
Lemma child_frame_bytes m ctf ptf j :
  mem_ok m -> 0 <= j < sizeof_tf ->
  ld8 (child_frame m ctf ptf) (ctf + j) = if decide (TF_EAX <= j < TF_EAX + 4) then 0 else ld8 m (ptf + j).
Proof.
  intros Hm Hj. unfold child_frame, TF_EAX, sizeof_tf in *. case_decide.
  - apply ld8_st32_zero. lia.
  - rewrite ld8_st32_ne by lia. rewrite ld8_memmove, decide_True by (done || lia). f_equal. lia.
Qed.

(** A change of a page that belongs to neither address space. *)
Lemma copying_framed s s' sp up spc upc l ps :
  copying sp up s spc upc l -> Forall page_ok (sp_pages sp ++ up.*1) -> kready s' -> mem_ok (k_mem s') ->
  k_freelist s' = k_freelist s -> framed ps (k_mem s) (k_mem s') -> Forall page_ok ps ->
  (forall q, q ∈ ps -> q ∉ (sp_pages sp ++ up.*1) ++ sp_pages spc ++ upc.*1 ++ l) ->
  copying sp up s' spc upc l /\ forall q, q ∈ sp_pages spc -> same_page (k_mem s) (k_mem s') q.
Proof.
  intros [Hc Hp Ha Hd Hl] Hok Hr Hm Hfl Hf Hps Hout. pose proof (vm_state_pages _ _ _ _ Hc) as Hokc.
  assert (Hsame : forall q, q ∈ (sp_pages sp ++ up.*1) ++ sp_pages spc ++ upc.*1 ++ l -> same_page (k_mem s) (k_mem s') q).
  { eapply framed_apart; [exact Hf|done|by apply Forall_app|]. intros q Hq Hx. by apply (Hout q). }
  split; [split; [| |done| |done]|].
  - eapply (vm_state_framed s); [done..|]. intros q Hq Hx. apply (Hout q Hq).
    rewrite !elem_of_app in *. tauto.
  - eapply uvm_same; [exact Hp|]. intros q Hq. apply Hsame. rewrite !elem_of_app. tauto.
  - eapply copied_same; [|exact Hd]. intros q [Hq%take_upages_elem|Hq]%elem_of_app; apply Hsame; rewrite !elem_of_app; tauto.
  - intros q Hq. apply Hsame. rewrite !elem_of_app. tauto.
Qed.

(** The state after [allocproc]: a slot and a kernel stack are taken. *)
Record started (s : kernel) (cur : nat) (p : proc) (k : nat) (x : proc) (ks : Z) (s' : kernel) : Prop := {
  st_procs : k_procs s' = <[k := newborn ks (k_nextpid s) (k_ticks s) x]> (k_procs s);
  st_mem : k_mem s' = first_frame (k_mem s) ks;
  st_files : k_files s' = k_files s;
  st_inodes : k_inodes s' = k_inodes s;
  st_ticks : k_ticks s' = k_ticks s;
  st_pid : k_nextpid s' = i32 (k_nextpid s + 1);
  st_other : k <> cur;
  st_calm : calm s' cur p
}.

Lemma fork_start s cur p k x sp up ks l :
  calm s cur p -> list_find (fun p => p_state p = UNUSED) (k_procs s) = Some (k, x) ->
  vm_state s sp up (ks :: l) ->
  exists s1, allocproc s = Ret (Some k) s1 /\ started s cur p k x ks s1 /\ vm_state s1 sp up l.
Proof.
  intros H Hf Hv. destruct (allocproc_ok s cur p k x ks l H Hf (vs_kmem _ _ _ _ Hv)) as (fl & A & Hi & Hne & Hc).
  eexists. split; [exact A|]. split; [by split|]. pose proof Hv as [_ Hk Hu Hn].
  assert (Hpk : page_ok ks) by (eapply vs_free_ok; [exact Hv|apply list_elem_of_here]).
  pose proof (vm_state_pages _ _ _ _ Hv) as Hok. apply Forall_app in Hok as [Hok _].
  apply NoDup_app in Hn as (Hn1 & Hn2 & Hn3). apply NoDup_app in Hn3 as (Hn3 & Hn4 & Hn5).
  apply NoDup_cons in Hn5 as [Hn5 Hn6]. split; [by eapply calm_kready|done| |].
  - eapply uvm_same; [exact Hu|]. eapply framed_apart; [apply first_frame_framed|by apply Forall_one|done|].
    intros q Hq ->%list_elem_of_singleton. apply (Hn2 ks Hq). rewrite elem_of_app, elem_of_cons. tauto.
  - apply NoDup_app. split_and!; [done| |apply NoDup_app; split_and!; [done| |done]].
    + intros q Hq. specialize (Hn2 q Hq). rewrite elem_of_app, elem_of_cons in *. tauto.
    + intros q Hq. specialize (Hn4 q Hq). rewrite elem_of_cons in *. tauto.
Qed.

(** What a successful fork leaves: the child's slot, its copy of the parent's
    memory in pages that were free, its trap frame, and the references it holds. *)
Record forked (s : kernel) (cur : nat) (p : proc) (k : nat) (x : proc) (sp : space) (up : upages)
    (ks : Z) (l : list Z) (cwd : nat) (s' : kernel) : Prop := {
  fk_child : exists spc upc l',
    k_procs s' = <[k := child_slot cur p (k_ticks s)
      ((newborn ks (k_nextpid s) (k_ticks s) x) <| p_pgdir := sp_dir spc |>)]> (k_procs s) /\
    copying sp up s' spc upc l' /\ length upc = length up /\ kvm (k_mem s') spc /\
    sp_pages spc ++ upc.*1 ++ l' ≡ₚ l;
  fk_frame : forall j, 0 <= j < sizeof_tf ->
    ld8 (k_mem s') (ks + TF_OFF + j) =
      if decide (TF_EAX <= j < TF_EAX + 4) then 0 else ld8 (k_mem s) (p_tf p + j);
  fk_resume : ld32 (k_mem s') (ks + TF_OFF - 4) = u32 sym_trapret /\
    ld32 (k_mem s') (ks + CTX_OFF + CTX_EIP) = u32 sym_forkret;
  fk_memory : framed (ks :: l) (k_mem s) (k_mem s');
  fk_files : k_files s' = dup_files (seq 0 NOFILE) (p_ofile p) (k_files s);
  fk_cwd : k_inodes s' = alter (fun x => x <| i_ref := i_ref x + 1 |>) cwd (k_inodes s);
  fk_pid : k_nextpid s' = i32 (k_nextpid s + 1);
  fk_calm : calm s' cur p
}.

(** The pages that [copyuvm] may write do not contain the new kernel stack. *)
Lemma stack_words m m' ks l :
  page_ok ks -> Forall page_ok l -> ks ∉ l -> framed l (first_frame m ks) m' ->
  ld32 m' (ks + TF_OFF - 4) = u32 sym_trapret /\ ld32 m' (ks + CTX_OFF + CTX_EIP) = u32 sym_forkret.
Proof.
  intros Hk Hl Hn Hf. pose proof (framed_page _ _ _ ks Hf Hl Hk Hn) as Hs.
  destruct (first_frame_words m ks) as [E1 E2]. rewrite <- E1, <- E2.
  split; [replace (ks + TF_OFF - 4) with (ks + (TF_OFF - 4)) by lia|
          replace (ks + CTX_OFF + CTX_EIP) with (ks + (CTX_OFF + CTX_EIP)) by lia];
  apply (same_page_ld32 _ _ _ _ Hs); unfold CTX_OFF, TF_OFF, KSTACKSIZE, sizeof_tf, sizeof_context, CTX_EIP, PGSIZE; lia.
Qed.

(** The child's frame does not touch the words below it. *)
Lemma child_frame_below m ctf ptf a : mem_ok m -> a + 4 <= ctf -> ld32 (child_frame m ctf ptf) a = ld32 m a.
Proof.
  intros Hm Ha. apply ld32_agree. intros j Hj. unfold child_frame, TF_EAX, sizeof_tf.
  rewrite ld8_st32_ne by lia. by rewrite ld8_memmove, decide_False by (done || lia).
Qed.

Definition has_frame (p : proc) (pages : list Z) : Prop :=
  exists kp, p_tf p = kp + TF_OFF /\ page_ok kp /\ kp ∉ pages.

Lemma has_frame_same p ps m m' :
  framed ps m m' -> Forall page_ok ps -> has_frame p ps ->
  forall j, 0 <= j < sizeof_tf -> ld8 m' (p_tf p + j) = ld8 m (p_tf p + j).
Proof.
  intros Hf Hps (kp & Etf & Hk & Hn) j Hj. apply (framed_page _ _ _ kp Hf Hps Hk Hn).
  rewrite Etf. unfold in_page, TF_OFF, KSTACKSIZE, sizeof_tf, PGSIZE in *. lia.
Qed.

(** The second half, after a successful copy. *)
Lemma fork_finish s cur p k x ks s1 s2 sp up spc upc l l' cwd ino :
  started s cur p k x ks s1 -> (k < length (k_procs s))%nat ->
  vm_state s sp up (ks :: l) -> has_frame p (ks :: l) ->
  files_open (p_ofile p) (k_files s) -> p_cwd p = Some cwd -> k_inodes s !! cwd = Some ino ->
  mem_only s1 s2 -> framed l (k_mem s1) (k_mem s2) -> copying sp up s2 spc upc l' ->
  length upc = length up -> kvm (k_mem s2) spc -> sp_pages spc ++ upc.*1 ++ l' ≡ₚ l ->
  exists s', (do! updproc k (fun x => x <| p_pgdir := sp_dir spc |>); fork_child cur k) s2 = Ret (k_nextpid s) s' /\
    forked s cur p k x sp up ks l cwd s'.
Proof.
  intros St Hlt Hv Htf Hof Hcwd Hino Ho Hf Hc Hlen Hkv Hperm.
  pose proof (vm_state_pages _ _ _ _ Hv) as Hok. rewrite app_assoc in Hok.
  apply Forall_app in Hok as [Hok1 Hok2]. pose proof Hok2 as [Hpk Hokl]%Forall_cons.
  assert (Hmok : mem_ok (k_mem s2)) by apply (kmem_bytes _ _ (vs_kmem _ _ _ _ (cp_child _ _ _ _ _ _ Hc))).
  pose proof (st_other _ _ _ _ _ _ _ St) as Hne.
  assert (Hksl : ks ∉ l) by (by pose proof (kmem_nodup _ _ (vs_kmem _ _ _ _ Hv)) as [? _]%NoDup_cons).
  set (y := newborn ks (k_nextpid s) (k_ticks s) x) in *.
  assert (Hp2 : k_procs s2 = <[k := y]> (k_procs s)) by (rewrite Ho; apply St).
  assert (Hy2 : k_procs s2 !! k = Some y) by (rewrite Hp2; by apply list_lookup_insert_eq).
  assert (Hc2 : calm s2 cur p).
  { eapply calm_same; [apply St|by rewrite Ho| |apply St]. rewrite Ho. apply St. }
  rewrite (bind_ret _ _ _ _ _ (updproc_ret s2 k y _ Hy2)).
  set (y3 := y <| p_pgdir := sp_dir spc |>).
  remember (on_proc k (fun x => x <| p_pgdir := sp_dir spc |>) s2) as s3 eqn:E3.
  assert (Hc3 : calm s3 cur p) by (rewrite E3; by apply calm_on_proc).
  assert (Hp3 : k_procs s3 = <[k := y3]> (k_procs s)).
  { rewrite E3, (on_proc_insert _ _ _ _ Hy2), Hp2. apply list_insert_insert_eq. }
  assert (Hm3 : k_mem s3 = k_mem s2 /\ k_freelist s3 = k_freelist s2) by (by rewrite E3).
  destruct Hm3 as [Hm3 Hfl3].
  assert (Hf3 : k_files s3 = k_files s) by (rewrite E3; transitivity (k_files s2); [done|rewrite Ho; apply St]).
  assert (Hi3 : k_inodes s3 = k_inodes s) by (rewrite E3; transitivity (k_inodes s2); [done|rewrite Ho; apply St]).
  assert (Ht3 : k_ticks s3 = k_ticks s) by (rewrite E3; transitivity (k_ticks s2); [done|rewrite Ho; apply St]).
  assert (Hn3 : k_nextpid s3 = i32 (k_nextpid s + 1)) by (rewrite E3; transitivity (k_nextpid s2); [done|rewrite Ho; apply St]).
  clear E3. rewrite <- Hf3 in Hof. rewrite <- Hi3 in Hino.
  assert (Hy3 : k_procs s3 !! k = Some y3) by (rewrite Hp3; by apply list_lookup_insert_eq).
  rewrite (fork_child_ret s3 cur p k y3 cwd ino Hc3 Hne Hy3 Hof Hcwd Hino).
  eexists. split; [reflexivity|].
  match goal with |- forked _ _ _ _ _ _ _ _ _ _ ?t => remember t as s4 eqn:E4 end.
  assert (Hm4 : k_mem s4 = child_frame (k_mem s2) (ks + TF_OFF) (p_tf p)) by (by rewrite E4, <- Hm3).
  assert (Hp4 : k_procs s4 = <[k := child_slot cur p (k_ticks s) y3]> (k_procs s)).
  { rewrite E4. cbn [k_procs]. rewrite Hp3, Ht3. apply list_insert_insert_eq. }
  assert (Hfr : framed [ks] (k_mem s2) (k_mem s4)) by (rewrite Hm4; by apply child_frame_framed).
  assert (Hf12 : framed (ks :: l) (k_mem s) (k_mem s2)).
  { rewrite (st_mem _ _ _ _ _ _ _ St) in Hf.
    eapply framed_trans; [eapply (framed_sub [ks]); [apply first_frame_framed|solve_sub]|].
    eapply framed_sub; [exact Hf|solve_sub]. }
  assert (Hc4 : calm s4 cur p).
  { eapply calm_same; [exact Hc3|by rewrite E4| |apply Hc3]. rewrite Hp4, list_lookup_insert_ne by done.
    rewrite <- (calm_proc _ _ _ Hc3), Hp3. by rewrite list_lookup_insert_ne. }
  destruct (vs_free_apart _ _ _ _ ks Hv (list_elem_of_here _ _)) as [Hk1 Hk2].
  destruct (copying_framed s2 s4 sp up spc upc l' [ks] Hc Hok1) as [Hcp Hsame].
  - by eapply calm_kready.
  - rewrite Hm4. by apply mem_ok_st32, mem_ok_memmove.
  - rewrite E4. exact Hfl3.
  - exact Hfr.
  - by apply Forall_one.
  - intros q ->%list_elem_of_singleton. rewrite elem_of_app, Hperm, elem_of_app. tauto.
  - split.
    + exists spc, upc, l'. split_and!; [exact Hp4|exact Hcp|done| |done].
      intros va Hva. rewrite (pte_same _ _ _ _ Hsame). by apply Hkv.
    + intros j Hj. rewrite Hm4, child_frame_bytes by done. case_decide; [done|].
      by apply (has_frame_same p (ks :: l) (k_mem s)).
    + rewrite Hm4, !child_frame_below by (done || unfold CTX_OFF, TF_OFF, sizeof_context, CTX_EIP; lia).
      apply (stack_words (k_mem s) _ ks l); [done|done|done|]. by rewrite <- (st_mem _ _ _ _ _ _ _ St).
    + eapply framed_trans; [exact Hf12|]. eapply framed_sub; [exact Hfr|solve_sub].
    + rewrite E4. transitivity (dup_files (seq 0 NOFILE) (p_ofile p) (k_files s3)); [done|by rewrite Hf3].
    + rewrite E4. transitivity (alter (fun x => x <| i_ref := i_ref x + 1 |>) cwd (k_inodes s3)); [done|by rewrite Hi3].
    + rewrite E4. exact Hn3.
    + exact Hc4.
Qed.

(** No page for the kernel stack: the slot is free again. *)
Lemma allocproc_nomem s i p k x :
  calm s i p -> list_find (fun p => p_state p = UNUSED) (k_procs s) = Some (k, x) -> kmem_inv s [] ->
  allocproc s = Ret None (s <| k_procs := <[k := (embryo (k_nextpid s) (k_ticks s) x) <| p_kstack := 0 |> <| p_state := UNUSED |>]> (k_procs s) |>
    <| k_nextpid := i32 (k_nextpid s + 1) |>).
Proof.
  intros H Hf Hi. pose proof (calm_locks _ _ _ H L_ptable I) as Hl.
  apply list_find_Some in Hf as Hf'. destruct Hf' as (Hx & Hst & _).
  assert (Hne : k <> i).
  { intros ->. pose proof (calm_proc _ _ _ H) as Hp. rewrite Hp in Hx. injection Hx as ->.
    by rewrite (calm_running _ _ _ H) in Hst. }
  pose proof (calm_claimed s i p k H Hne) as H1.
  assert (Hi1 : kmem_inv (claimed k s) []) by (by destruct Hi).
  pose proof (kalloc_empty (claimed k s) (calm_kready _ _ _ H1) Hi1) as K1.
  unfold allocproc. rewrite (bind_ret _ _ _ _ _ (acquire_calm _ _ _ _ H Hl)). kget.
  change (k_procs (acq L_ptable s)) with (k_procs s). rewrite Hf. kget. kget.
  rewrite (bind_ret _ _ _ _ _ (updproc_ret (acq L_ptable s) k x _ Hx)). kget.
  erewrite bind_ret by (eapply (release_calm L_ptable s); [exact H|done|done]).
  match goal with |- bind _ _ ?t = _ => change t with (claimed k s) end.
  rewrite (bind_ret _ _ _ _ _ K1).
  assert (Hx2 : k_procs (claimed k s) !! k = Some (embryo (k_nextpid s) (k_ticks s) x)).
  { cbn. by rewrite list_lookup_alter_eq, Hx. }
  rewrite (bind_ret _ _ _ _ _ (updproc_ret _ k _ _ Hx2)). cbn [Z.eqb].
  erewrite bind_ret by (eapply updproc_ret, on_proc_lookup, Hx2).
  unfold ret. f_equal. unfold on_proc. cbn. rewrite !list_alter_alter, (list_alter_insert _ _ _ _ Hx). done.
Qed.

(** No memory for the copy: the kernel stack is freed and the slot is free again. *)
Lemma fork_undo s2 cur p k y l :
  calm s2 cur p -> k <> cur -> k_procs s2 !! k = Some y -> kmem_inv s2 l -> page_ok (p_kstack y) -> p_kstack y ∉ l ->
  exists s', (do! updproc k (fun x => x <| p_pgdir := 0 |>);
      let! x := getproc k in
      do! kfree (p_kstack x);
      do! updproc k (fun x => x <| p_kstack := 0 |> <| p_state := UNUSED |>);
      (ret (-1) : K Z)) s2 = Ret (-1) s' /\
    kmem_inv s' (p_kstack y :: l) /\ framed [p_kstack y] (k_mem s2) (k_mem s') /\
    s' = s2 <| k_mem := k_mem s' |> <| k_freelist := k_freelist s' |>
            <| k_procs := <[k := y <| p_pgdir := 0 |> <| p_kstack := 0 |> <| p_state := UNUSED |>]> (k_procs s2) |>.
Proof.
  intros H Hne Hy Hi Hok Hn.
  rewrite (bind_ret _ _ _ _ _ (updproc_ret s2 k y _ Hy)).
  pose proof (on_proc_lookup s2 k (fun x => x <| p_pgdir := 0 |>) y Hy) as Hy3. cbv beta in Hy3.
  remember (on_proc k (fun x => x <| p_pgdir := 0 |>) s2) as s3 eqn:E3.
  rewrite (bind_ret _ _ _ _ _ (getproc_ret _ _ _ Hy3)).
  assert (Hi3 : kmem_inv s3 l) by (rewrite E3; by destruct Hi).
  assert (H3 : calm s3 cur p) by (rewrite E3; by apply calm_on_proc).
  destruct (kfree_give s3 (p_kstack y) l (calm_kready _ _ _ H3) Hi3 Hok Hn) as (s4 & K & Hi4 & Ho & Hf).
  change (p_kstack (y <| p_pgdir := 0 |>)) with (p_kstack y).
  rewrite (bind_ret _ _ _ _ _ K).
  assert (Hy4 : k_procs s4 !! k = Some (y <| p_pgdir := 0 |>)) by (rewrite Ho; exact Hy3).
  rewrite (bind_ret _ _ _ _ _ (updproc_ret s4 k _ _ Hy4)).
  eexists. split; [reflexivity|]. split_and!.
  - by destruct Hi4.
  - change (k_mem (on_proc k _ s4)) with (k_mem s4). by rewrite E3 in Hf.
  - unfold on_proc. rewrite (list_alter_insert _ _ _ _ Hy4).
    assert (Ep : k_procs s4 = <[k := y <| p_pgdir := 0 |>]> (k_procs s2)).
    { rewrite Ho. cbn [k_procs]. rewrite E3. exact (on_proc_insert _ _ _ _ Hy). }
    rewrite Ep, list_insert_insert_eq. unfold mem_only in Ho. rewrite Ho. rewrite E3. done.
Qed.

(** The copy failed: what [fork] leaves. *)
Lemma fork_fails s cur p k x sp up ks l s1 s2 l' out :
  started s cur p k x ks s1 -> (k < length (k_procs s))%nat -> vm_state s sp up (ks :: l) ->
  mem_only s1 s2 -> framed l (k_mem s1) (k_mem s2) -> kmem_inv s2 l' -> l' ++ out ≡ₚ l ->
  exists s' y, (do! updproc k (fun x => x <| p_pgdir := 0 |>);
      let! x := getproc k in
      do! kfree (p_kstack x);
      do! updproc k (fun x => x <| p_kstack := 0 |> <| p_state := UNUSED |>);
      (ret (-1) : K Z)) s2 = Ret (-1) s' /\ p_state y = UNUSED /\ k_procs s' = <[k := y]> (k_procs s) /\
    kmem_inv s' (ks :: l') /\ uvm (k_mem s') sp up.
Proof.
  intros St Hlt Hv Ho Hf Hi Hperm. set (y := newborn ks (k_nextpid s) (k_ticks s) x).
  pose proof (vm_state_pages _ _ _ _ Hv) as Hok. rewrite app_assoc in Hok.
  apply Forall_app in Hok as [Hok1 Hok2]. pose proof Hok2 as [Hpk Hokl]%Forall_cons.
  pose proof (kmem_nodup _ _ (vs_kmem _ _ _ _ Hv)) as [Hksl _]%NoDup_cons.
  assert (Hp2 : k_procs s2 = <[k := y]> (k_procs s)) by (rewrite Ho; apply St).
  assert (Hc2 : calm s2 cur p).
  { eapply calm_same; [apply St|by rewrite Ho| |apply St]. rewrite Ho. apply St. }
  assert (Hn : p_kstack y ∉ l').
  { intros Hx. apply Hksl. rewrite <- Hperm. apply elem_of_app. by left. }
  destruct (fork_undo s2 cur p k y l' Hc2 (st_other _ _ _ _ _ _ _ St)) as (s' & H1 & H2 & H3 & H4);
    [rewrite Hp2; by apply list_lookup_insert_eq|done|done|done|].
  exists s', (y <| p_pgdir := 0 |> <| p_kstack := 0 |> <| p_state := UNUSED |>). split_and!; [exact H1|done| |exact H2|].
  - rewrite H4. cbn [k_procs]. rewrite Hp2. apply list_insert_insert_eq.
  - assert (Hfr : framed (ks :: l) (k_mem s) (k_mem s')).
    { rewrite (st_mem _ _ _ _ _ _ _ St) in Hf.
      eapply framed_trans; [eapply (framed_sub [ks]); [apply first_frame_framed|solve_sub]|].
      eapply framed_trans; [eapply framed_sub; [exact Hf|solve_sub]|].
      eapply (framed_sub [ks]); [exact H3|solve_sub]. }
    pose proof (vs_nodup _ _ _ _ Hv) as Hnd. apply NoDup_app in Hnd as (_ & Hap & _). apply Forall_app in Hok1 as [Hok1 _].
    eapply uvm_same; [apply Hv|]. eapply framed_apart; [exact Hfr|done|done|].
    intros q Hq Hx. apply (Hap q Hq), elem_of_app. by right.
Qed.

(** [fork] on every branch. *)
Lemma fork_cases s cur p sp up l cwd ino :
  calm s cur p -> proc_space s p sp up l -> has_frame p l ->
  files_open (p_ofile p) (k_files s) -> p_cwd p = Some cwd -> k_inodes s !! cwd = Some ino ->
  match list_find (fun p => p_state p = UNUSED) (k_procs s), l with
  | None, _ => fork s = Ret (-1) s
  | Some (k, x), [] =>
      exists y, p_state y = UNUSED /\
        fork s = Ret (-1) (s <| k_procs := <[k := y]> (k_procs s) |> <| k_nextpid := i32 (k_nextpid s + 1) |>)
  | Some (k, x), ks :: l =>
      exists r s', fork s = Ret r s' /\
        ((r = k_nextpid s /\ forked s cur p k x sp up ks l cwd s') \/
         (r = -1 /\ (length l <= 1026 + npages (p_sz p))%nat /\ exists y l' out, p_state y = UNUSED /\ k_procs s' = <[k := y]> (k_procs s) /\
            kmem_inv s' (ks :: l') /\ l' ++ out ≡ₚ l /\ uvm (k_mem s') sp up))
  end.
Proof.
  intros H [Hv Hd Hsz Hu] Htf Hof Hcwd Hino.
  destruct (list_find _ (k_procs s)) as [[k x]|] eqn:Hf.
  2:{ unfold fork. rewrite (bind_ret _ _ _ _ _ (allocproc_none s cur p H Hf)). done. }
  destruct l as [|ks l].
  { unfold fork. rewrite (bind_ret _ _ _ _ _ (allocproc_nomem s cur p k x H Hf (vs_kmem _ _ _ _ Hv))).
    eexists. split; [|reflexivity]. done. }
  destruct (fork_start s cur p k x sp up ks l H Hf Hv) as (s1 & Ha & St & Hv1).
  assert (Hlt : (k < length (k_procs s))%nat) by (apply list_find_Some in Hf as (Hx & _); by eapply lookup_lt_Some).
  unfold fork. rewrite (bind_ret _ _ _ _ _ Ha).
  rewrite (bind_ret _ _ _ _ _ (thisproc_calm s1 cur p (st_calm _ _ _ _ _ _ _ St))). cbn iota beta.
  destruct (copyuvm_spec s1 sp up l (p_sz p) Hv1 Hsz ltac:(lia)) as (r & s2 & H1 & H2 & H3 & H4).
  rewrite Hd, (bind_ret _ _ _ _ _ H1).
  destruct H4 as [(spc & upc & l' & -> & Hc & Hlen & Hk & Hperm)|(-> & Hfew & l' & out & Hi & Hperm)].
  - assert (Hnz : sp_dir spc <> 0).
    { pose proof (sp_dir_ok _ _ (uvm_space _ _ _ (vs_uvm _ _ _ _ (cp_child _ _ _ _ _ _ Hc)))) as ?%page_ok_range.
      unfold KERNBASE in *. lia. }
    rewrite (proj2 (Z.eqb_neq _ _) Hnz).
    destruct (fork_finish s cur p k x ks s1 s2 sp up spc upc l l' cwd ino) as (s' & F1 & F2); try done.
    exists (k_nextpid s), s'. split; [exact F1|]. by left.
  - destruct (fork_fails s cur p k x sp up ks l s1 s2 l' out) as (s' & y & F1 & F2 & F3 & F4 & F5); try done.
    exists (-1), s'. split; [exact F1|]. right. split_and!; [done|done|]. by exists y, l', out.
Qed.
End fork.
