(* ===== verification/ExitFacts.v ===== *)
(** * The end of a process

    What [exit] does to the process table: the parent is woken, the children
    are passed to init, and the process is left as a zombie that [wait] finds. *)

From S2P Require Import Prelude State Monad Mem Spinlock Sample ConsoleOut Kalloc Vm VmFacts Uvm Kvm.
From S2P Require Import User UserFacts Sched SleepWake Sleeplock File Proc ProcFacts ForkFacts.

(** ** The table, slot by slot *)

Definition orphan (cur : nat) (init : option nat) (q : proc) : proc :=
  if bool_decide (p_parent q = Some cur) then q <| p_parent := init |> else q.

#[export] Instance zombie_of_dec i p : Decision (zombie_of i p).
Proof. unfold zombie_of. apply _. Defined.

(** One turn of the loop over the children. *)
Definition abandoned (t : Z) (cur : nat) (init : option nat) (ps : list proc) (k : nat) : list proc :=
  match ps !! k with
  | Some q =>
      let ps1 := <[k := orphan cur init q]> ps in
      if bool_decide (zombie_of cur q) then wake t (proc_chan init) <$> ps1 else ps1
  | None => ps
  end.

(** All turns together: each slot on its own. *)
Definition left_behind (t : Z) (cur : nat) (init : option nat) (ps : list proc) (q : proc) : proc :=
  let q := orphan cur init q in
  if existsb (fun q => bool_decide (zombie_of cur q)) ps then wake t (proc_chan init) q else q.

Lemma wake_wake t ch q : wake t ch (wake t ch q) = wake t ch q.
Proof.
  unfold wake at 2 3. destruct (is_state SLEEPING q && _) eqn:E; [|unfold wake; by rewrite E]. done.
Qed.

Lemma wake_orphan t ch cur init q : wake t ch (orphan cur init q) = orphan cur init (wake t ch q).
Proof.
  unfold orphan. assert (E : p_parent (wake t ch q) = p_parent q) by (unfold wake; by case_match). rewrite E.
  case_match; [|done]. unfold wake. change (is_state SLEEPING (q <| p_parent := init |>)) with (is_state SLEEPING q).
  change (p_chan (q <| p_parent := init |>)) with (p_chan q). by case_match.
Qed.

Lemma zombie_wake t ch cur q : zombie_of cur (wake t ch q) <-> zombie_of cur q.
Proof.
  unfold zombie_of, wake. destruct (is_state SLEEPING q && bool_decide (p_chan q = ch)) eqn:E; [|done].
  apply andb_prop in E as [E _]. unfold is_state in E. apply bool_decide_eq_true in E. cbn. rewrite E. by split; intros [_ ?].
Qed.

(** The table after the first [n] turns. *)
Definition abandoned_upto (t : Z) (cur : nat) (init : option nat) (ps : list proc) (n k : nat) (q : proc) : proc :=
  let q := if decide (k < n)%nat then orphan cur init q else q in
  if existsb (fun q => bool_decide (zombie_of cur q)) (take n ps) then wake t (proc_chan init) q else q.

Lemma abandoned_foldl t cur init ps n :
  (n <= length ps)%nat ->
  foldl (abandoned t cur init) ps (seq 0 n) = imap (abandoned_upto t cur init ps n) ps.
Proof.
  induction n as [|n IH]; intros Hn.
  - cbn. symmetry. apply list_eq. intros k. rewrite list_lookup_imap. destruct (ps !! k); [|done]. cbn. done.
  - rewrite seq_S, foldl_app, IH by lia. cbn [foldl Nat.add]. unfold abandoned.
    destruct (lookup_lt_is_Some_2 ps n) as [q Hq]; [lia|]. assert (Hget : imap (abandoned_upto t cur init ps n) ps !! n = Some (abandoned_upto t cur init ps n n q)) by (by rewrite list_lookup_imap, Hq).
    rewrite Hget.
    set (b := existsb (fun q => bool_decide (zombie_of cur q)) (take n ps)).
    assert (Hb' : existsb (fun q => bool_decide (zombie_of cur q)) (take (S n) ps) = b || bool_decide (zombie_of cur q)).
    { rewrite (take_S_r _ _ _ Hq), existsb_app. cbn. by rewrite orb_false_r. }
    assert (Hzb : bool_decide (zombie_of cur (abandoned_upto t cur init ps n n q)) = bool_decide (zombie_of cur q)).
    { apply bool_decide_ext. unfold abandoned_upto. rewrite decide_False by lia. case_match; [apply zombie_wake|done]. }
    rewrite Hzb. apply list_eq. intros k.
    destruct (decide (k < length ps)%nat) as [Hk|Hk].
    2:{ rewrite (lookup_ge_None_2 (imap _ _)) by (rewrite length_imap; lia).
        apply lookup_ge_None_2. case_match; rewrite ?length_fmap, length_insert, length_imap; lia. }
    destruct (lookup_lt_is_Some_2 ps k Hk) as [x Hx]. replace (imap (abandoned_upto t cur init ps (S n)) ps !! k)
      with (Some (abandoned_upto t cur init ps (S n) k x)) by (by rewrite list_lookup_imap, Hx).
    assert (Hk' : <[n := orphan cur init (abandoned_upto t cur init ps n n q)]> (imap (abandoned_upto t cur init ps n) ps) !! k =
      Some (if b then wake t (proc_chan init) (if decide (k < S n)%nat then orphan cur init x else x)
            else if decide (k < S n)%nat then orphan cur init x else x)).
    { destruct (decide (k = n)) as [->|Hne].
      - rewrite list_lookup_insert_eq by (rewrite length_imap; lia). assert (x = q) as -> by congruence. f_equal.
        unfold abandoned_upto. fold b. rewrite decide_False, decide_True by lia. destruct b; [by rewrite wake_orphan|done].
      - rewrite list_lookup_insert_ne by done. rewrite list_lookup_imap, Hx. cbn. f_equal. unfold abandoned_upto. fold b.
        destruct (decide (k < n)%nat); [rewrite decide_True by lia|rewrite decide_False by lia]; done. }
    change (abandoned_upto t cur init ps (S n) k x) with
      (let q := if decide (k < S n)%nat then orphan cur init x else x in
       if existsb (fun q => bool_decide (zombie_of cur q)) (take (S n) ps) then wake t (proc_chan init) q else q).
    rewrite Hb'.
    destruct (bool_decide (zombie_of cur q)).
    + rewrite list_lookup_fmap, Hk', orb_true_r. cbn. destruct b; [by rewrite wake_wake|done].
    + by rewrite Hk', orb_false_r.
Qed.

Lemma abandoned_all t cur init ps :
  foldl (abandoned t cur init) ps (seq 0 (length ps)) = left_behind t cur init ps <$> ps.
Proof.
  rewrite abandoned_foldl by done. apply list_eq. intros k. rewrite list_lookup_imap, list_lookup_fmap.
  destruct (ps !! k) as [q|] eqn:E; [|done]. cbn. f_equal. unfold abandoned_upto, left_behind.
  rewrite decide_True by (by eapply lookup_lt_Some). by rewrite firstn_all.
Qed.

Lemma length_abandoned t cur init js : forall ps, length (foldl (abandoned t cur init) ps js) = length ps.
Proof.
  induction js as [|k js IH]; intros ps; [done|]. cbn. rewrite IH. unfold abandoned.
  destruct (ps !! k); [|done]. case_match; by rewrite ?length_fmap, length_insert.
Qed.

(** ** The code *)

Lemma abandon_ret cur k s q :
  k_procs s !! k = Some q ->
  abandon cur k s = Ret tt (s <| k_procs := abandoned (k_ticks s) cur (k_initproc s) (k_procs s) k |>).
Proof.
  intros Hq. unfold abandon. rewrite (bind_ret _ _ _ _ _ (getproc_ret _ _ _ Hq)).
  unfold abandoned, orphan. rewrite Hq. unfold zombie_of. destruct (bool_decide_reflect (p_parent q = Some cur)) as [E|E].
  - kget. rewrite (bind_ret _ _ _ _ _ (updproc_ret s k q _ Hq)). unfold on_proc.
    rewrite (list_alter_insert _ _ _ _ Hq). unfold is_state, when. destruct (decide (p_state q = ZOMBIE)) as [Ez|Ez].
    + rewrite !bool_decide_true by tauto. unfold wakeup1, modify. done.
    + rewrite !bool_decide_false by tauto. done.
  - rewrite bool_decide_false by tauto. rewrite list_insert_id by done. by destruct s.
Qed.

Lemma abandon_loop cur js : forall s, Forall (fun k => (k < length (k_procs s))%nat) js ->
  for_each js (abandon cur) s =
    Ret tt (s <| k_procs := foldl (abandoned (k_ticks s) cur (k_initproc s)) (k_procs s) js |>).
Proof.
  induction js as [|k js IH]; intros s Hjs; [by destruct s|]. apply Forall_cons in Hjs as [Hk Hjs].
  destruct (lookup_lt_is_Some_2 _ _ Hk) as [q Hq]. cbn [for_each foldl].
  rewrite (bind_ret _ _ _ _ _ (abandon_ret cur k s q Hq)). rewrite IH; [done|].
  cbn [k_procs]. eapply Forall_impl; [exact Hjs|]. intros j. cbn.
  pose proof (length_abandoned (k_ticks s) cur (k_initproc s) [k] (k_procs s)) as E. cbn in E. by rewrite E.
Qed.


Lemma when_chan (t : Z) ch q : p_state (wake t ch q) = ZOMBIE <-> p_state q = ZOMBIE.
Proof.
  unfold wake. destruct (is_state SLEEPING q && bool_decide (p_chan q = ch)) eqn:E; [|done].
  apply andb_prop in E as [E _]. unfold is_state in E. apply bool_decide_eq_true in E. by rewrite E.
Qed.

(** The table that [exit] leaves: the parent's sleep is ended, the children
    belong to init, which is woken if one of them is a zombie. *)
Definition bereaved (s : kernel) (cur : nat) (p : proc) : list proc :=
  let ps := wake (k_ticks s) (proc_chan (p_parent p)) <$> k_procs s in
  left_behind (k_ticks s) cur (k_initproc s) ps <$> ps.

Definition zombie (t : Z) (q : proc) : proc := q <| p_state := ZOMBIE |> <| p_etime := t |>.

Lemma bereaved_lookup s cur p k q :
  k_procs s !! k = Some q ->
  bereaved s cur p !! k = Some (left_behind (k_ticks s) cur (k_initproc s)
    (wake (k_ticks s) (proc_chan (p_parent p)) <$> k_procs s) (wake (k_ticks s) (proc_chan (p_parent p)) q)).
Proof. intros H. unfold bereaved. by rewrite !list_lookup_fmap, H. Qed.

Lemma wake_cases t ch q :
  wake t ch q = q \/
  (p_state q = SLEEPING /\ p_chan q = ch /\ wake t ch q = q <| p_state := RUNNABLE |> <| p_priority := t |>).
Proof.
  unfold wake. destruct (is_state SLEEPING q && bool_decide (p_chan q = ch)) eqn:E; [right|by left].
  apply andb_prop in E as [E1 E2]. unfold is_state in E1. apply bool_decide_eq_true in E1, E2. done.
Qed.

Lemma wake_sleeper t ch q : p_state q = SLEEPING -> p_chan q = ch -> p_state (wake t ch q) = RUNNABLE.
Proof. intros H1 H2. unfold wake, is_state. by rewrite !bool_decide_true by done. Qed.

(** A runnable process stays so. *)
Lemma wake_runnable t ch q : p_state q = RUNNABLE -> p_state (wake t ch q) = RUNNABLE.
Proof. intros H. destruct (wake_cases t ch q) as [->|(E & _)]; [done|]. by rewrite H in E. Qed.

Lemma orphan_core cur init q :
  p_state (orphan cur init q) = p_state q /\ p_chan (orphan cur init q) = p_chan q /\
  p_pid (orphan cur init q) = p_pid q /\ p_priority (orphan cur init q) = p_priority q /\
  p_parent (orphan cur init q) = if bool_decide (p_parent q = Some cur) then init else p_parent q.
Proof. unfold orphan. by case_match. Qed.

(** How [exit] changes the slot of another process. *)
Record after_exit (s : kernel) (cur : nat) (p x x' : proc) : Prop := {
  ae_pid : p_pid x' = p_pid x;
  ae_parent : p_parent x' = if bool_decide (p_parent x = Some cur) then k_initproc s else p_parent x;
  ae_state : p_state x' = p_state x \/
    (p_state x = SLEEPING /\ p_state x' = RUNNABLE /\ p_priority x' = k_ticks s /\
     (p_chan x = proc_chan (p_parent p) \/ p_chan x = proc_chan (k_initproc s)))
}.

Lemma left_behind_after s cur p x ps :
  after_exit s cur p x (left_behind (k_ticks s) cur (k_initproc s) ps (wake (k_ticks s) (proc_chan (p_parent p)) x)).
Proof.
  set (t := k_ticks s). set (init := k_initproc s). unfold left_behind.
  assert (H1 : after_exit s cur p x (orphan cur init (wake t (proc_chan (p_parent p)) x))).
  { destruct (orphan_core cur init (wake t (proc_chan (p_parent p)) x)) as (E1 & _ & E3 & E4 & E5).
    destruct (wake_cases t (proc_chan (p_parent p)) x) as [E|(Es & Ech & E)]; rewrite E in *; split; [done|done|by left|done|done|].
    right. rewrite E1, E4. split_and!; try done. by left. }
  destruct (existsb _ ps); [|done]. destruct H1 as [Hpid Hpar Hst].
  set (y := orphan cur init (wake t (proc_chan (p_parent p)) x)) in *.
  destruct (wake_cases t (proc_chan init) y) as [->|(Es & Ech & E)]; [done|]. rewrite E. split; [done|done|]. right.
  destruct Hst as [Hst|(? & Hst & _)]; [|congruence]. split_and!; [congruence|done|done|]. right.
  destruct (orphan_core cur init (wake t (proc_chan (p_parent p)) x)) as (_ & E2 & _). fold y in E2. fold init. rewrite <- Ech, E2.
  by destruct (wake_cases t (proc_chan (p_parent p)) x) as [->|(_ & _ & ->)].
Qed.

Lemma left_behind_woken t cur init ps q :
  p_state q = RUNNABLE -> p_state (left_behind t cur init ps q) = RUNNABLE.
Proof.
  intros H. unfold left_behind. destruct (orphan_core cur init q) as (E & _).
  case_match; [apply wake_runnable|]; congruence.
Qed.

Lemma zombie_child_seen s cur p j c :
  k_procs s !! j = Some c -> zombie_of cur c ->
  existsb (fun q => bool_decide (zombie_of cur q)) (wake (k_ticks s) (proc_chan (p_parent p)) <$> k_procs s) = true.
Proof.
  intros Hj Hz. apply existsb_exists. exists (wake (k_ticks s) (proc_chan (p_parent p)) c). split.
  - apply list_elem_of_In, list_elem_of_fmap. exists c. split; [done|]. by eapply list_elem_of_lookup_2.
  - apply bool_decide_true. by apply zombie_wake.
Qed.

Lemma cons_ready_same s s' : same_locks s s' -> k_cons s' = k_cons s -> cons_ready s -> cons_ready s'.
Proof.
  intros (E1 & E2 & E3) Ec [H1 H2]. split; [by rewrite Ec|]. rewrite Ec. destruct H2 as [H2|[H2 H3]]; [by left|right].
  unfold on_cpu_wf, lock_free in *. by rewrite E1, E2, E3.
Qed.

Lemma exit_zombie_swtch s cur p :
  calm s cur p -> (k_strategy s = 2 -> cons_ready s) ->
  exists s1 k, exit_zombie cur s = Swtch s1 k /\ lock_held L_ptable s1 /\
    k_procs s1 = alter (zombie (k_ticks s)) cur (bereaved s cur p) /\
    (forall s', exists f s'', k s' = Fault f s'').
Proof.
  intros H Hco. pose proof (calm_locks _ _ _ H L_ptable I) as Hl. pose proof H as [(c & Hc & Hcn & _ & Hci) Hp Hrun _].
  unfold exit_zombie. rewrite (bind_ret _ _ _ _ _ (acquire_calm _ _ _ _ H Hl)).
  assert (Hp1 : k_procs (acq L_ptable s) !! cur = Some p) by exact Hp.
  rewrite (bind_ret _ _ _ _ _ (getproc_ret _ _ _ Hp1)). unfold wakeup1. kget. kget.
  erewrite bind_ret by (apply abandon_loop; cbn; rewrite length_fmap; apply Forall_forall; intros j ?%elem_of_seq; lia).
  match goal with |- context [bind _ _ ?t] => remember t as s2 eqn:E2 end.
  assert (Hp2 : k_procs s2 = bereaved s cur p) by (rewrite E2; apply abandoned_all).
  assert (Hs2 : k_cpus s2 = k_cpus (acq L_ptable s) /\ k_cpunum s2 = k_cpunum s /\ k_locks s2 = k_locks (acq L_ptable s) /\
    k_ticks s2 = k_ticks s /\ k_strategy s2 = k_strategy s /\ k_cons s2 = k_cons s) by (by rewrite E2).
  clear E2. destruct Hs2 as (Ec & En & El & Et & Est & Eco).
  set (q := left_behind (k_ticks s) cur (k_initproc s) (wake (k_ticks s) (proc_chan (p_parent p)) <$> k_procs s)
    (wake (k_ticks s) (proc_chan (p_parent p)) p)).
  assert (Hq : k_procs s2 !! cur = Some q) by (rewrite Hp2; by apply bereaved_lookup).
  rewrite (bind_ret _ _ _ _ _ (updproc_ret s2 cur q _ Hq)). kget.
  erewrite bind_ret by (eapply updproc_ret, on_proc_lookup, Hq).
  change (k_ticks (on_proc cur _ s2)) with (k_ticks s2). rewrite on_proc_on_proc, Et.
  match goal with |- context [bind _ _ ?t] => remember t as s3 eqn:E3 end.
  assert (Hp3 : k_procs s3 = alter (zombie (k_ticks s)) cur (bereaved s cur p)) by (rewrite E3, <- Hp2; done).
  assert (Hsl : same_locks (acq L_ptable s) s3) by (split_and!; rewrite E3; done).
  pose proof (in_cs_same _ _ _ Hsl (acq_in_cs L_ptable s (calm_wf _ _ _ H))) as Hcs.
  assert (Hms : may_sched s3 (cpu_push c) cur (zombie (k_ticks s) q)).
  { split; [| |cbn; lia|done|done| |done].
    - apply Hcs.
    - rewrite E3. cbn. rewrite Ec, En. cbn. by rewrite list_lookup_alter_eq, Hc.
    - rewrite Hp3, <- Hp2. by rewrite list_lookup_alter_eq, Hq. }
  destruct (sched_swtch s3 (cpu_push c) cur _ Hms) as (co & Hsw & _).
  { intros Es. apply (cons_ready_same (acq L_ptable s)); [done|by rewrite E3|].
    apply cons_ready_acq; [by eapply calm_wf|done|]. apply Hco. rewrite <- Est, <- Es. by rewrite E3. }
  eexists _, _. split; [by apply bind_swtch|]. split_and!.
  - exact (ms_held _ _ _ _ Hms).
  - exact Hp3.
  - intros s'. unfold resume, upd_cpu, modify, obind, panic, fail. by eexists _, _.
Qed.
