(* ===== verification/SampleFs.v ===== *)
(** * Concrete machines

    The machines that the witnesses of the theorems start from.  [SampleFs]:
    the buffers as [binit] leaves them, a disk of 1000 blocks with the log at
    blocks 2 to 31, and a process that runs in the kernel.  [SampleVm]: the
    same with free pages and a process whose address space is one page of
    memory. *)

From S2P Require Import Prelude State Monad Mem Spinlock Sample ConsoleOut Kalloc Vm Sched SleepWake.
From S2P Require Import Sleeplock Bio Memide BioFacts Cache Log LogFacts Writes LogSpec Inode LogOps.
From S2P Require Import VmFacts Uvm Kvm User UserFacts File Proc ProcFacts ForkFacts.

Module SampleFs.
Definition image : FsImage := 512000.
Definition fuel1 : Fuel := 1%nat.

Definition running : proc := (Sample.job 7 0 3) <| p_state := RUNNING |>.
Definition cpu1 : cpu := Sample.cpu0 <| c_intena := true |> <| c_proc := Some 0%nat |>.

Definition sleep_locks : list (lockid * spinlock) :=
  ((fun i => (L_buf i, Sample.free_lock "sleep lock")) <$> seq 0 NBUF) ++
  ((fun i => (L_inode i, Sample.free_lock "sleep lock")) <$> seq 0 NINODE).
Definition locks : gmap lockid spinlock := list_to_map (map_to_list Sample.locks ++ sleep_locks).

(** Buffer [k] after [binit]: the list is 29, 28, ..., 0. *)
Definition buffer (k : nat) : buf :=
  MkBuf 0 0 0 (MkSleeplock 0 "buffer" 0) 0 (S k) (match k with O => bcache_head | S j => j end) None
    (replicate (Z.to_nat BSIZE) 0).
Definition inode0 : inode :=
  MkInode 0 0 0 (MkSleeplock 0 "inode" 0) 0 0 0 0 0 0 (replicate 13 0).
Definition file0 : file := MkFile FD_NONE 0 0 0 0 None 0.
Definition log0 : logstate := MkLog 2 30 0 0 1 (MkLogheader 0 (replicate 30 0)).

Definition kern : kernel :=
  (Sample.machine 1 5 [running]) <| k_cpus := [cpu1] |> <| k_locks := locks |>
    <| k_bufs := buffer <$> seq 0 NBUF |> <| k_bhead := (0%nat, 29%nat) |> <| k_log := log0 |>
    <| k_inodes := replicate NINODE inode0 |> <| k_files := replicate NFILE file0 |>.

(** ** It satisfies the invariants *)

Definition freeb (s : kernel) (l : lockid) : bool :=
  match k_locks s !! l with Some (MkSpinlock 0 _ None) => true | _ => false end.

Lemma freeb_free s l : freeb s l = true -> lock_free l s.
Proof.
  unfold freeb, lock_free. destruct (k_locks s !! l) as [[[|z|z] nm [c|]]|]; try done. by exists nm.
Qed.

Lemma kern_locks l : static_lock l -> lock_free l kern.
Proof.
  assert (Hb : forallb (fun i => freeb kern (L_buf i)) (seq 0 NBUF) = true) by (vm_compute; reflexivity).
  assert (Hi : forallb (fun i => freeb kern (L_inode i)) (seq 0 NINODE) = true) by (vm_compute; reflexivity).
  rewrite forallb_forall in Hb, Hi. intros Hl. apply freeb_free. destruct l as [| | | | | | | | |i|i|p];
    [vm_compute; reflexivity..| | |done].
  - apply Hb, in_seq. cbn in Hl. lia.
  - apply Hi, in_seq. cbn in Hl. lia.
Qed.

Lemma kern_calm : calm kern 0 running.
Proof. split; [by exists cpu1|done|done|apply kern_locks]. Qed.

Lemma kern_buf b bf : k_bufs kern !! b = Some bf -> bf = buffer b.
Proof.
  intros H. change (k_bufs kern) with (buffer <$> seq 0 NBUF) in H. rewrite list_lookup_fmap in H.
  destruct (seq 0 NBUF !! b) as [k|] eqn:E; [|done]. apply lookup_seq in E as [-> _]. by injection H as <-.
Qed.

Lemma kern_ring : ring (reverse (seq 0 NBUF)) kern.
Proof.
  split; [|split].
  - vm_compute. repeat split; reflexivity.
  - apply reverse_Permutation.
  - reflexivity.
Qed.

Lemma kern_alone : alone (reverse (seq 0 NBUF)) kern 0 running.
Proof.
  split; [apply kern_calm| |].
  - split; [apply kern_ring| | |].
    + intros a b ba bb d n Ha Hb Hda Hdb Hdn. apply kern_buf in Ha as ->. apply caches_spec in Hda as [<- <-].
      by destruct Hdn.
    + intros b bf Hb. apply kern_buf in Hb as ->. by split.
    + intros d n. unfold disk_block. cbn. apply length_replicate.
  - intros b bf Hb. by apply kern_buf in Hb as ->.
Qed.

Lemma kern_quiet : quiet 1 2 (reverse (seq 0 NBUF)) kern 0 running.
Proof.
  split; [apply kern_alone| | |done|done|done|vm_compute; discriminate|vm_compute; reflexivity].
  - intros b bf Hb. by apply kern_buf in Hb as ->.
  - split; [done|done|done|constructor].
Qed.

Lemma image_region : log_region (D := memide (I := image)) 1 2.
Proof.
  split; [lia|lia|]. intros k Hk. cbn. change (disksize (I := image)) with 1000.
  apply Z.ltb_lt. change LOGSIZE with 30 in Hk. lia.
Qed.

Lemma image_home z : 100 <= z < 1000 -> home (D := memide (I := image)) 1 2 z.
Proof.
  intros Hz. split_and!; [lia|lia| |right; change LOGSIZE with 30; lia].
  cbn. change (disksize (I := image)) with 1000. apply Z.ltb_lt. lia.
Qed.
End SampleFs.

Module SampleVm.
#[local] Instance linker : Linker := Sample.linker.
#[local] Instance linker_ok : LinkerOk Sample.linker := Sample.linker_ok.

Definition page (i : nat) : Z := KERNBASE + 0x300000 + PGSIZE * Z.of_nat i.
Definition dir : Z := page 0.
Definition stack : Z := page 1.
Definition free : list Z := page <$> seq 2 4000.

(** The process, and the machine before its memory is built. *)
Definition user : proc :=
  SampleFs.running <| p_sz := PGSIZE |> <| p_pgdir := dir |> <| p_kstack := stack |>
    <| p_tf := stack + TF_OFF |> <| p_cwd := Some 0%nat |>.
Definition with_user (s : kernel) : kernel :=
  s <| k_procs := <[0%nat := user]> (k_procs s) |> <| k_freelist := 0 |>.
Definition base : kernel := with_user SampleFs.kern.

Lemma calm_with_user s p : calm s 0 p -> calm (with_user s) 0 user.
Proof.
  intros H. apply (calm_same s _ 0 p user H); [done| |done]. cbn. apply list_lookup_insert_eq.
  eapply lookup_lt_Some, H.
Qed.

Lemma base_calm : calm base 0 user.
Proof. exact (calm_with_user _ _ SampleFs.kern_calm). Qed.

Lemma page_page_ok i : (i < 5000)%nat -> page_ok (page i).
Proof.
  intros Hi. unfold page_ok, page. change sym_end with (KERNBASE + 0x200000).
  unfold KERNBASE, PHYSTOP, PGSIZE. split_and!; [apply Z.mod_divide; [lia|]|lia|lia].
  exists (524288 + 768 + Z.of_nat i). lia.
Qed.

Lemma pages_nodup k n : NoDup (page <$> seq k n).
Proof.
  apply NoDup_fmap_2_strong; [|apply NoDup_seq]. intros i j _ _. unfold page, PGSIZE. lia.
Qed.

Lemma page_notin i k n : (i < k)%nat -> page i ∉ page <$> seq k n.
Proof.
  intros Hi (j & Hj & Hin)%list_elem_of_fmap. apply elem_of_seq in Hin. unfold page, PGSIZE in Hj. lia.
Qed.

(** Pages can be given to the allocator. *)
Lemma free_pages ps : forall s l, kready s -> kmem_inv s l -> Forall page_ok ps -> NoDup (ps ++ l) ->
  exists s', mem_only s s' /\ kmem_inv s' (ps ++ l).
Proof.
  induction ps as [|q ps IH]; intros s l Hr Hi Hok Hn; [by exists s; split; [apply mem_only_refl|]|].
  apply Forall_cons in Hok as [Hq Hok]. apply NoDup_cons in Hn as [Hqn Hn].
  destruct (IH s l Hr Hi Hok Hn) as (s1 & Ho1 & Hi1).
  destruct (kfree_give s1 q (ps ++ l) (kready_mem_only _ _ Ho1 Hr) Hi1 Hq Hqn) as (s2 & _ & Hi2 & Ho2 & _).
  exists s2. split; [by eapply mem_only_trans|done].
Qed.

Lemma with_user_inv s : k_mem s = ∅ -> kmem_inv (with_user s) [].
Proof.
  intros E. split; [cbn; rewrite E|apply chain_nil|constructor|constructor].
  intros a b H. by rewrite lookup_empty in H.
Qed.

Lemma base_inv : kmem_inv base [].
Proof. by apply with_user_inv. Qed.

Lemma mem_only_mem s s1 m : mem_only s s1 -> mem_only s (s1 <| k_mem := m |>).
Proof. unfold mem_only. intros H. by rewrite H. Qed.

(** The machine with an empty address space for the process. *)
Lemma empty_user : exists s, mem_only base s /\ vm_state s (MkSpace dir ∅) [] free.
Proof.
  assert (Hok : Forall page_ok free).
  { apply Forall_fmap, Forall_forall. intros i Hi%elem_of_seq. apply page_page_ok. lia. }
  destruct (free_pages free base [] (calm_kready _ _ _ base_calm) base_inv Hok) as (s1 & Ho & Hi).
  { rewrite app_nil_r. apply pages_nodup. }
  rewrite app_nil_r in Hi. exists (s1 <| k_mem := memset (k_mem s1) dir 0 PGSIZE |>).
  assert (Hd : page_ok dir) by (apply page_page_ok; lia).
  pose proof (mem_only_mem base s1 (memset (k_mem s1) dir 0 PGSIZE) Ho) as Ho'.
  split; [exact Ho'|]. split.
  - exact (kready_mem_only _ _ Ho' (calm_kready _ _ _ base_calm)).
  - eapply (kmem_inv_framed s1); [done|apply mem_ok_memset, (kmem_bytes _ _ Hi)|done|apply framed_memset|by apply Forall_one|].
    intros q ->%list_elem_of_singleton. apply page_notin. lia.
  - split; [by apply empty_space_ok|constructor|]. intros va Hva. unfold pte. cbn [sp_tabs]. rewrite lookup_empty.
    by rewrite entry_None by (cbn; lia).
  - change (sp_pages (MkSpace dir ∅)) with [dir]. apply NoDup_cons. split.
    + apply page_notin. lia.
    + apply pages_nodup.
Qed.

(** What the witnesses use of the machine: the process runs, its memory is one
    page, and its kernel stack is a page of its own. *)
Record ready (s : kernel) (sp : space) (up : upages) (l : list Z) : Prop := {
  rd_base : exists m fl c, s = base <| k_mem := m |> <| k_freelist := fl |> <| k_cons := c |>;
  rd_calm : calm s 0 user;
  rd_cons : cons_ok (k_cons s);
  rd_space : proc_space s user sp up l;
  rd_one : exists p, up = [(p, PTE_P + PTE_W + PTE_U)];
  rd_stack : page_ok stack /\ stack ∉ sp_pages sp ++ up.*1 ++ l;
  rd_room : (2000 <= length l)%nat
}.

Lemma base_cons : cons_ok (k_cons base).
Proof. done. Qed.

Lemma mem_only_cons s s' : mem_only s s' -> k_cons s' = k_cons s.
Proof. intros ->. done. Qed.

Lemma mem_vm_base s s1 s2 :
  mem_only s s1 -> vm_only s1 s2 -> exists m fl c, s2 = s <| k_mem := m |> <| k_freelist := fl |> <| k_cons := c |>.
Proof. intros H1 (H2 & _). rewrite H2, H1. by eexists _, _, _. Qed.

Lemma one_page : exists s sp up l, ready s sp up l.
Proof.
  destruct empty_user as (s0 & Ho & Hv). pose proof (calm_vm_only _ _ _ _ base_calm (mem_vm_only _ _ Ho)) as Hc0.
  pose proof (mem_only_cons _ _ Ho) as Ek.
  assert (Hcr : cready s0) by (apply (calm_cready _ _ _ Hc0); rewrite Ek; apply base_cons).
  destruct (allocuvm_spec s0 (MkSpace dir ∅) [] free 0 PGSIZE Hv Hcr) as (r & s & sp & up & l & _ & Hr & Ha);
    [unfold PGSIZE; lia|unfold PGSIZE, KERNBASE; lia|done|].
  destruct Ha as [(_ & Hst & Hlen & fresh & Efr & Hfr)|(E & _)]; [|exfalso; rewrite Hr in E; [done|vm_compute; lia]].
  pose proof Hst as [Hvs Hon Hd Hp _ _]. change (npages PGSIZE) with 1%nat in Hlen.
  exists s, sp, up, l. split.
  - by eapply mem_vm_base.
  - by eapply calm_vm_only.
  - destruct Hon as (_ & _ & Hok). apply Hok. rewrite Ek. apply base_cons.
  - by split.
  - destruct up as [|[p f] [|? ?]]; try done. exists p. cbn in Efr. subst fresh.
    apply Forall_cons in Hfr as [[Ef _] _]. cbn in Ef. by rewrite Ef.
  - split; [apply page_page_ok; lia|]. rewrite app_nil_r in Hp. rewrite Hp.
    change (sp_pages (MkSpace dir ∅)) with [dir]. intros [Hx%list_elem_of_singleton|Hx]%elem_of_app.
    + unfold stack, dir, page, PGSIZE in Hx. lia.
    + cbn [fmap list_fmap app] in Hx. revert Hx. apply page_notin. lia.
  - pose proof (sp_pages_few _ _ (uvm_space _ _ _ (vs_uvm _ _ _ _ Hvs))) as Hfew. rewrite app_nil_r in Hp. apply Permutation_length in Hp.
    assert (Hfl : length free = 4000%nat) by (unfold free; by rewrite length_fmap, length_seq).
    rewrite !length_app, length_fmap, Hlen in Hp. change (length (sp_pages (MkSpace dir ∅))) with 1%nat in Hp. cbn [fmap list_fmap length] in Hp. lia.
Qed.
End SampleVm.
