(* ===== verification/Exec.v ===== *)
(** * exec.c, with loaduvm of vm.c *)

From S2P Require Import Prelude State Monad Mem Spinlock ConsoleOut Kalloc Vm User Sched SleepWake.
From S2P Require Import Sleeplock Bio Log Inode Console Fs Pipe Proc.

(** [struct elfhdr] and [struct proghdr], by their offsets. *)
Definition ELF_MAGIC : Z := 0x464C457F.
Definition ELF_PROG_LOAD : Z := 1.
Definition sizeof_elfhdr : Z := 52.
Definition elf_magic (e : list Z) : Z := lget32 0 e.
Definition elf_entry (e : list Z) : Z := lget32 24 e.
Definition elf_phoff (e : list Z) : Z := lget32 28 e.
Definition elf_phnum (e : list Z) : Z := lget16 44 e.
Definition sizeof_proghdr : Z := 32.
Definition ph_type (p : list Z) : Z := lget32 0 p.
Definition ph_off (p : list Z) : Z := lget32 4 p.
Definition ph_vaddr (p : list Z) : Z := lget32 8 p.
Definition ph_filesz (p : list Z) : Z := lget32 16 p.
Definition ph_memsz (p : list Z) : Z := lget32 20 p.

(** The part of a path after its last slash: [last] has the characters since
    the previous one. *)
Fixpoint after_slash (last path : list Z) : list Z :=
  match path with
  | [] => last
  | c :: path' => if c =? SLASH then after_slash path' path' else after_slash last path'
  end.
Definition basename (path : list Z) : list Z := after_slash path path.

(** Destination of a read into kernel memory. *)
Definition to_kernel (a : Z) : Z -> list Z -> K unit :=
  fun off bs => setmem (fun m => st_list m (a + off) bs).

Section exec.
Context {L : Linker} {F : Fuel} {D : BlockDev}.

Fixpoint loaduvm_loop (k : nat) (pgdir addr : Z) (ip : nat) (offset i sz : Z) : K Z :=
  if i <? sz then
    match k with
    | O => fail FFuel
    | S k' =>
        let! pte := walkpgdir pgdir (addr +u i) false in
        if pte =? 0 then panic "loaduvm: address should exist"
        else
          let! e := load32 pte in
          let pa := PTE_ADDR e in
          let n := if sz - i <? PGSIZE then sz - i else PGSIZE in
          let! (r, _) := readi ip (to_kernel (P2V pa)) (offset +u i) n in
          if negb (r =? n) then ret (-1)
          else loaduvm_loop k' pgdir addr ip offset (i + PGSIZE) sz
    end
  else ret 0.
Definition loaduvm (pgdir addr : Z) (ip : nat) (offset sz : Z) : K Z :=
  if negb (addr mod PGSIZE =? 0) then panic "loaduvm: addr must be page aligned"
  else loaduvm_loop (Z.to_nat (sz / PGSIZE) + 1) pgdir addr ip offset 0 sz.

(** The label [bad]: [ip] is the inode that is still locked. *)
Definition exec_bad (pgdir : Z) (ip : option nat) : K Z :=
  do! when (negb (pgdir =? 0)) (freevm pgdir);
  match ip with
  | Some ip => do! iunlockput ip; do! end_op; ret (-1)
  | None => ret (-1)
  end.

(** Load the [k] program segments whose headers start at [off]; the size of
    the image, or None for [goto bad]. *)
Fixpoint exec_load (k : nat) (pgdir : Z) (ip : nat) (off sz : Z) : K (option Z) :=
  match k with
  | O => ret (Some sz)
  | S k' =>
      let! (r, ph) := readi ip local (u32 off) sizeof_proghdr in
      if negb (r =? sizeof_proghdr) then ret None
      else if negb (ph_type ph =? ELF_PROG_LOAD) then exec_load k' pgdir ip (off + sizeof_proghdr) sz
      else if ph_memsz ph <? ph_filesz ph then ret None
      else if ph_vaddr ph +u ph_memsz ph <? ph_vaddr ph then ret None
      else
        let! sz := allocuvm pgdir sz (ph_vaddr ph +u ph_memsz ph) in
        if sz =? 0 then ret None
        else if negb (ph_vaddr ph mod PGSIZE =? 0) then ret None
        else
          let! r := loaduvm pgdir (ph_vaddr ph) ip (ph_off ph) (ph_filesz ph) in
          if r <? 0 then ret None
          else exec_load k' pgdir ip (off + sizeof_proghdr) sz
  end.

(** Push the argument strings; the stack pointer and the addresses of the
    strings. *)
Fixpoint exec_args (pgdir : Z) (argv : list (list Z)) (argc : nat) (sp : Z) :
    K (option (Z * list Z)) :=
  match argv with
  | [] => ret (Some (sp, []))
  | arg :: argv' =>
      if (MAXARG <=? argc)%nat then ret None
      else
        let len := Z.of_nat (length arg) + 1 in
        let sp := Z.land (sp -u len) (u32 (Z.lnot 3)) in
        let! r := copyout pgdir sp (arg ++ [0]) in
        if r <? 0 then ret None
        else
          let! rest := exec_args pgdir argv' (S argc) sp in
          match rest with
          | None => ret None
          | Some (sp', addrs) => ret (Some (sp', sp :: addrs))
          end
  end.

(** The words of [ustack]. *)
Definition ustack (sp : Z) (addrs : list Z) : list Z :=
  let argc := Z.of_nat (length addrs) in
  [0xffffffff; argc; sp -u (argc + 1) * 4] ++ addrs ++ [0].

(** Replace the address space of the current process. *)
Definition exec_commit (path : list Z) (pgdir sz sp entry : Z) : K Z :=
  let! (cur, p) := thisproc in
  do! updproc cur (fun x => x <| p_name := lsafestrcpy (p_name x) (basename path) PNAME |>);
  let! p := getproc cur in
  let oldpgdir := p_pgdir p in
  do! updproc cur (fun x => x <| p_pgdir := pgdir |> <| p_sz := sz |>);
  let! ticks := gets k_ticks in
  do! updproc cur (fun x => x <| p_ctime := ticks |>);
  let! p := getproc cur in
  do! store32 (p_tf p + TF_EIP) entry;
  do! store32 (p_tf p + TF_ESP) sp;
  do! switchuvm cur;
  do! freevm oldpgdir;
  ret 0.

(** After the program is loaded: the stack. *)
Definition exec_stack (path : list Z) (argv : list (list Z)) (pgdir sz entry : Z) : K Z :=
  let sz := PGROUNDUP sz in
  let! sz := allocuvm pgdir sz (sz +u 2 * PGSIZE) in
  if sz =? 0 then exec_bad pgdir None
  else
    do! clearpteu pgdir (sz -u 2 * PGSIZE);
    let! r := exec_args pgdir argv 0 sz in
    match r with
    | None => exec_bad pgdir None
    | Some (sp, addrs) =>
        let argc := Z.of_nat (length addrs) in
        let us := ustack sp addrs in
        let sp := sp -u (3 + argc + 1) * 4 in
        let! r := copyout pgdir sp (us ≫= bytes32) in
        if r <? 0 then exec_bad pgdir None
        else exec_commit path pgdir sz sp entry
    end.

(** [readi(...) < sizeof(elf)] compares unsigned integers, so that -1 is not
    less; then [elf] is an uninitialised variable. *)
Definition exec (path : list Z) (argv : list (list Z)) : K Z :=
  do! begin_op;
  let! r := namei path in
  match r with
  | None => do! end_op; ret (-1)
  | Some ip =>
      do! ilock (Some ip);
      let! (r, elf) := readi ip local 0 sizeof_elfhdr in
      if u32 r <? sizeof_elfhdr then exec_bad 0 (Some ip)
      else if r <? 0 then fail (FUB "exec: uninitialised elf")
      else if negb (elf_magic elf =? ELF_MAGIC) then exec_bad 0 (Some ip)
      else
        let! pgdir := setupkvm in
        if pgdir =? 0 then exec_bad 0 (Some ip)
        else
          let! r := exec_load (Z.to_nat (elf_phnum elf)) pgdir ip (i32 (elf_phoff elf)) 0 in
          match r with
          | None => exec_bad pgdir (Some ip)
          | Some sz =>
              do! iunlockput ip;
              do! end_op;
              exec_stack path argv pgdir sz (elf_entry elf)
          end
  end.
End exec.
