(* ===== verification/Syscall.v ===== *)
(** * syscall.c: arguments of system calls

    [fetchint] and the functions built on it return None for -1.  A string
    argument is returned with its characters: user memory that holds it cannot
    change before it is used. *)

From S2P Require Import Prelude State Monad Mem Spinlock Kalloc ConsoleOut Vm User Sched SleepWake Sleeplock Bio Log Inode Console Fs.
From S2P Require Import Pipe Proc.

Definition fetchint (addr : Z) : K (option Z) :=
  let! (_, p) := thisproc in
  if (p_sz p <=? addr) || (p_sz p <? addr +u 4) then ret None
  else let! v := uload32 addr in ret (Some (i32 v)).

(** The characters from [a] up to the first NUL before [ep]; [k] bounds how
    many there are. *)
Fixpoint fetchstr_loop (k : nat) (a ep : Z) : K (option (list Z)) :=
  if a <? ep then
    match k with
    | O => fail FFuel
    | S k' =>
        let! c := uload8 a in
        if c =? 0 then ret (Some [])
        else let! r := fetchstr_loop k' (a + 1) ep in ret (cons c <$> r)
    end
  else ret None.
Definition fetchstr (addr : Z) : K (option (list Z)) :=
  let! (_, p) := thisproc in
  if p_sz p <=? addr then ret None
  else fetchstr_loop (Z.to_nat (p_sz p - addr)) addr (p_sz p).

Definition argint (n : Z) : K (option Z) :=
  let! (_, p) := thisproc in
  let! esp := load32 (p_tf p + TF_ESP) in
  fetchint (esp +u 4 +u 4 * n).

Definition argptr (n size : Z) : K (option Z) :=
  let! r := argint n in
  match r with
  | None => ret None
  | Some i =>
      let! (_, p) := thisproc in
      if (size <? 0) || (p_sz p <=? u32 i) || (p_sz p <? u32 i +u size) then ret None
      else ret (Some (u32 i))
  end.

Definition argstr (n : Z) : K (option (list Z)) :=
  let! r := argint n in
  match r with
  | None => ret None
  | Some addr => fetchstr (u32 addr)
  end.

(** * sysproc.c: system calls about processes *)

(** A pointer argument whose failure is not tested: then the variable keeps its
    initial value 0. *)
Definition argptr_or_null (n : Z) : K Z :=
  let! r := argptr n 4 in ret (default 0 r).

(** The statistics that [sys_nice] records when a process leaves queue 3 or 2. *)
Definition leave_queue (ticks : Z) (p : proc) : proc :=
  let p := if p_queuelevel p =? 3 then
      p <| p_q3rtime := p_rtime p |> <| p_q3tatime := ticks -u p_ctime p |>
    else p in
  let p := if p_queuelevel p =? 2 then
      p <| p_q2rtime := p_rtime p -u p_q3rtime p |>
        <| p_q2tatime := ticks -u p_ctime p -u p_q3tatime p |>
    else p in
  p <| p_queuelevel := p_queuelevel p - 1 |>.

Definition sys_getpid : K Z := let! (_, p) := thisproc in ret (p_pid p).

(** Despite its name it reports times of the calling process. *)
Definition sys_getppid : K Z :=
  let! wtime := argptr_or_null 0 in
  let! rtime := argptr_or_null 1 in
  let! (_, p) := thisproc in
  do! ustore8 wtime (p_etime p -u p_ctime p -u p_rtime p);
  do! ustore8 rtime (p_rtime p);
  ret 0.

Definition sys_setcid : K Z :=
  let! r := argint 0 in
  let! z := deref "sys_setcid: uninitialised z" r in
  let! cur := curproc in
  do! updproc cur (fun p => p <| p_cid := z |>);
  ret 1.

Definition sys_nice : K Z :=
  let! (cur, p) := thisproc in
  if 1 <? p_queuelevel p then
    let! ticks := gets k_ticks in
    do! updproc cur (leave_queue ticks);
    ret 1
  else ret 0.

Definition sys_uptime : K Z :=
  do! acquire L_tickslock;
  let! xticks := gets k_ticks in
  do! release L_tickslock;
  ret (i32 xticks).

Definition sys_kill : K Z :=
  let! r := argint 0 in
  match r with None => ret (-1) | Some pid => kill pid end.

Section sysproc.
Context {L : Linker} {F : Fuel} {D : BlockDev}.

Definition sys_fork : K Z := fork.
Definition sys_exit : K Z := do! exit; ret 0.
Definition sys_wait : K Z := wait.

Definition sys_wait2 : K Z :=
  let! wtime := argptr_or_null 0 in
  let! rtime := argptr_or_null 1 in
  wait22 wtime rtime.

Definition sys_wait3 : K Z :=
  let! wtime := argptr_or_null 0 in
  let! rtime := argptr_or_null 1 in
  let! cid := argptr_or_null 2 in
  let! q3rtime := argptr_or_null 3 in
  let! q3tatime := argptr_or_null 4 in
  let! q2rtime := argptr_or_null 5 in
  let! q2tatime := argptr_or_null 6 in
  wait33 wtime rtime cid q3rtime q3tatime q2rtime q2tatime.

Definition sys_sbrk : K Z :=
  let! r := argint 0 in
  match r with
  | None => ret (-1)
  | Some n =>
      let! (_, p) := thisproc in
      let addr := i32 (p_sz p) in
      let! g := growproc n in
      if g <? 0 then ret (-1) else ret addr
  end.

(** The comparison with [n] is one of unsigned integers. *)
Definition sys_sleep : K Z :=
  let! r := argint 0 in
  match r with
  | None => ret (-1)
  | Some n =>
      do! acquire L_tickslock;
      let! ticks0 := gets k_ticks in
      forever fuel (
        let! ticks := gets k_ticks in
        if ticks -u ticks0 <? u32 n then
          let! (_, p) := thisproc in
          if negb (p_killed p =? 0) then
            do! release L_tickslock; ret (Some (-1))
          else
            do! sleep CTicks (Some L_tickslock); ret None
        else do! release L_tickslock; ret (Some 0))
  end.
End sysproc.
