(* ===== verification/Sysfile.v ===== *)
(** * sysfile.c: system calls about files *)

From S2P Require Import Prelude State Monad Mem Spinlock ConsoleOut Kalloc Vm User Sched SleepWake.
From S2P Require Import Sleeplock Bio Log Inode Console Fs Pipe File Proc Exec Syscall.

Definition O_RDONLY : Z := 0.
Definition O_WRONLY : Z := 1.
Definition O_RDWR : Z := 2.
Definition O_CREATE : Z := 0x200.

(** The descriptor and the file. *)
Definition argfd (n : Z) : K (option (nat * nat)) :=
  let! r := argint n in
  match r with
  | None => ret None
  | Some fd =>
      if (fd <? 0) || (Z.of_nat NOFILE <=? fd) then ret None
      else
        let! (_, p) := thisproc in
        match p_ofile p !! Z.to_nat fd with
        | Some (Some f) => ret (Some (Z.to_nat fd, f))
        | _ => ret None
        end
  end.

Definition set_ofile (fd : nat) (f : option nat) : K unit :=
  let! cur := curproc in
  updproc cur (fun p => p <| p_ofile := <[fd := f]> (p_ofile p) |>).

Definition fdalloc (f : nat) : K (option nat) :=
  let! (_, p) := thisproc in
  match list_find (fun o => o = None) (take NOFILE (p_ofile p)) with
  | Some (fd, _) => do! set_ofile fd (Some f); ret (Some fd)
  | None => ret None
  end.

Definition sys_dup : K Z :=
  let! r := argfd 0 in
  match r with
  | None => ret (-1)
  | Some (_, f) =>
      let! r := fdalloc f in
      match r with
      | None => ret (-1)
      | Some fd => do! filedup f; ret (Z.of_nat fd)
      end
  end.

(** Add [k] to the link count, a [short]. *)
Definition add_nlink (k : Z) (ip : nat) : K unit :=
  updinode ip (fun i => i <| i_nlink := i16 (i_nlink i + k) |>).

Definition DOT : list Z := bytes ".".
Definition DOTDOT : list Z := bytes "..".

Section sysfile.
Context {L : Linker} {F : Fuel} {D : BlockDev}.

(** The arguments of [sys_read] and [sys_write]: file, buffer, size. *)
Definition arg_transfer : K (option (nat * Z * Z)) :=
  let! r := argfd 0 in
  match r with
  | None => ret None
  | Some (_, f) =>
      let! r := argint 2 in
      match r with
      | None => ret None
      | Some n =>
          let! r := argptr 1 n in
          match r with
          | None => ret None
          | Some p => ret (Some (f, p, n))
          end
      end
  end.

Definition sys_read : K Z :=
  let! r := arg_transfer in
  match r with None => ret (-1) | Some (f, p, n) => fileread f p n end.

Definition sys_write : K Z :=
  let! r := arg_transfer in
  match r with None => ret (-1) | Some (f, p, n) => filewrite f p n end.

Definition sys_close : K Z :=
  let! r := argfd 0 in
  match r with
  | None => ret (-1)
  | Some (fd, f) =>
      do! set_ofile fd None;
      do! fileclose f;
      ret 0
  end.

Definition sys_fstat : K Z :=
  let! r := argfd 0 in
  match r with
  | None => ret (-1)
  | Some (_, f) =>
      let! r := argptr 1 20 in
      match r with
      | None => ret (-1)
      | Some st => filestat f st
      end
  end.

(** The label [bad] of [sys_link]. *)
Definition link_bad (ip : nat) : K Z :=
  do! ilock (Some ip);
  do! add_nlink (-1) ip;
  do! iupdate ip;
  do! iunlockput ip;
  do! end_op;
  ret (-1).

(** The second half of [sys_link]: enter [new] for [ip]. *)
Definition link_new (ip : nat) (new : list Z) : K Z :=
  let! (r, name) := nameiparent new in
  match r with
  | None => link_bad ip
  | Some dp =>
      do! ilock (Some dp);
      let! d := getinode dp in
      let! i := getinode ip in
      let! failed :=
        if negb (i_dev d =? i_dev i) then ret true
        else let! r := dirlink dp name (i_inum i) in ret (r <? 0) in
      if (failed : bool) then do! iunlockput dp; link_bad ip
      else
        do! iunlockput dp;
        do! iput ip;
        do! end_op;
        ret 0
  end.

Definition link (old new : list Z) : K Z :=
  do! begin_op;
  let! r := namei old in
  match r with
  | None => do! end_op; ret (-1)
  | Some ip =>
      do! ilock (Some ip);
      let! i := getinode ip in
      if i_type i =? T_DIR then
        do! iunlockput ip; do! end_op; ret (-1)
      else
        do! add_nlink 1 ip;
        do! iupdate ip;
        do! iunlock (Some ip);
        link_new ip new
  end.

Definition sys_link : K Z :=
  let! r := argstr 0 in
  match r with
  | None => ret (-1)
  | Some old =>
      let! r := argstr 1 in
      match r with None => ret (-1) | Some new => link old new end
  end.

Fixpoint isdirempty_loop (k : nat) (dp : nat) (off : Z) : K bool :=
  let! d := getinode dp in
  if off <? i_size d then
    match k with
    | O => fail FFuel
    | S k' =>
        let! (r, de) := readi dp local off sizeof_dirent in
        if negb (r =? sizeof_dirent) then panic "isdirempty: readi"
        else if negb (de_inum de =? 0) then ret false
        else isdirempty_loop k' dp (off + sizeof_dirent)
    end
  else ret true.
Definition isdirempty (dp : nat) : K bool :=
  let! d := getinode dp in isdirempty_loop (dirents d) dp (2 * sizeof_dirent).

(** The label [bad] of [sys_unlink]. *)
Definition unlink_bad (dp : nat) : K Z :=
  do! iunlockput dp; do! end_op; ret (-1).

(** Remove the entry at [off] of [dp], which is for [ip]; both are locked. *)
Definition unlink_entry (dp ip : nat) (off : Z) : K Z :=
  let! w := writei dp (from_bytes (replicate (Z.to_nat sizeof_dirent) 0)) off sizeof_dirent in
  if negb (w =? sizeof_dirent) then panic "unlink: writei"
  else
    let! i := getinode ip in
    do! when (i_type i =? T_DIR) (do! add_nlink (-1) dp; iupdate dp);
    do! iunlockput dp;
    do! add_nlink (-1) ip;
    do! iupdate ip;
    do! iunlockput ip;
    do! end_op;
    ret 0.

Definition unlink (path : list Z) : K Z :=
  do! begin_op;
  let! (r, name) := nameiparent path in
  match r with
  | None => do! end_op; ret (-1)
  | Some dp =>
      do! ilock (Some dp);
      if (namecmp name DOT =? 0) || (namecmp name DOTDOT =? 0) then unlink_bad dp
      else
        let! r := dirlookup dp name in
        match r with
        | None => unlink_bad dp
        | Some (ip, off) =>
            do! ilock (Some ip);
            let! i := getinode ip in
            if i_nlink i <? 1 then panic "unlink: nlink < 1"
            else
              let! full :=
                if i_type i =? T_DIR then let! e := isdirempty ip in ret (negb e) else ret false in
              if (full : bool) then do! iunlockput ip; unlink_bad dp
              else unlink_entry dp ip off
        end
  end.

Definition sys_unlink : K Z :=
  let! r := argstr 0 in
  match r with None => ret (-1) | Some path => unlink path end.

(** A new inode [ip], locked, entered in [dp] as [name]. *)
Definition create_new (dp : nat) (name : list Z) (type major minor : Z) : K nat :=
  let! d := getinode dp in
  let! ip := ialloc (i_dev d) type in
  do! ilock (Some ip);
  do! updinode ip (fun i => i <| i_major := major |> <| i_minor := minor |> <| i_nlink := 1 |>);
  do! iupdate ip;
  let! i := getinode ip in
  do! when (type =? T_DIR) (
    do! add_nlink 1 dp;
    do! iupdate dp;
    let! r := dirlink ip DOT (i_inum i) in
    if r <? 0 then panic "create dots"
    else
      let! d := getinode dp in
      let! r := dirlink ip DOTDOT (i_inum d) in
      if r <? 0 then panic "create dots" else ret tt);
  let! r := dirlink dp name (i_inum i) in
  if r <? 0 then panic "create: dirlink"
  else
    do! iunlockput dp;
    ret ip.

Definition create (path : list Z) (type major minor : Z) : K (option nat) :=
  let! (r, name) := nameiparent path in
  match r with
  | None => ret None
  | Some dp =>
      do! ilock (Some dp);
      let! r := dirlookup dp name in
      match r with
      | Some (ip, _) =>
          do! iunlockput dp;
          do! ilock (Some ip);
          let! i := getinode ip in
          if (type =? T_FILE) && (i_type i =? T_FILE) then ret (Some ip)
          else do! iunlockput ip; ret None
      | None =>
          let! ip := create_new dp name type major minor in
          ret (Some ip)
      end
  end.

(** The inode that [sys_open] opens, locked; None after [end_op]. *)
Definition open_inode (path : list Z) (omode : Z) : K (option nat) :=
  if negb (Z.land omode O_CREATE =? 0) then
    let! r := create path T_FILE 0 0 in
    match r with
    | None => do! end_op; ret None
    | Some ip => ret (Some ip)
    end
  else
    let! r := namei path in
    match r with
    | None => do! end_op; ret None
    | Some ip =>
        do! ilock (Some ip);
        let! i := getinode ip in
        if (i_type i =? T_DIR) && negb (omode =? O_RDONLY) then
          do! iunlockput ip; do! end_op; ret None
        else ret (Some ip)
    end.

Definition open_file (ip : nat) (omode : Z) (x : file) : file :=
  x <| f_type := FD_INODE |> <| f_ip := Some ip |> <| f_off := 0 |>
    <| f_readable := (if Z.land omode O_WRONLY =? 0 then 1 else 0) |>
    <| f_writable := (if negb (Z.land omode O_WRONLY =? 0) || negb (Z.land omode O_RDWR =? 0)
                      then 1 else 0) |>.

Definition open (path : list Z) (omode : Z) : K Z :=
  do! begin_op;
  let! r := open_inode path omode in
  match r with
  | None => ret (-1)
  | Some ip =>
      let! r := filealloc in
      match r with
      | None => do! iunlockput ip; do! end_op; ret (-1)
      | Some f =>
          let! r := fdalloc f in
          match r with
          | None => do! fileclose f; do! iunlockput ip; do! end_op; ret (-1)
          | Some fd =>
              do! iunlock (Some ip);
              do! end_op;
              do! updfile f (open_file ip omode);
              ret (Z.of_nat fd)
          end
      end
  end.

Definition sys_open : K Z :=
  let! r := argstr 0 in
  match r with
  | None => ret (-1)
  | Some path =>
      let! r := argint 1 in
      match r with None => ret (-1) | Some omode => open path omode end
  end.

(** The end of [sys_mkdir] and [sys_mknod]. *)
Definition made (r : option nat) : K Z :=
  match r with
  | None => do! end_op; ret (-1)
  | Some ip => do! iunlockput ip; do! end_op; ret 0
  end.

Definition sys_mkdir : K Z :=
  do! begin_op;
  let! r := argstr 0 in
  match r with
  | None => made None
  | Some path => let! r := create path T_DIR 0 0 in made r
  end.

Definition sys_mknod : K Z :=
  do! begin_op;
  let! r := argstr 0 in
  match r with
  | None => made None
  | Some path =>
      let! r := argint 1 in
      match r with
      | None => made None
      | Some major =>
          let! r := argint 2 in
          match r with
          | None => made None
          | Some minor => let! r := create path T_DEV (i16 major) (i16 minor) in made r
          end
      end
  end.

Definition sys_chdir : K Z :=
  do! begin_op;
  let! r := argstr 0 in
  let! r := match r with None => ret None | Some path => namei path end in
  match r with
  | None => do! end_op; ret (-1)
  | Some ip =>
      do! ilock (Some ip);
      let! i := getinode ip in
      if negb (i_type i =? T_DIR) then
        do! iunlockput ip; do! end_op; ret (-1)
      else
        do! iunlock (Some ip);
        let! (cur, p) := thisproc in
        let! cwd := deref "cwd" (p_cwd p) in
        do! iput cwd;
        do! end_op;
        do! updproc cur (fun p => p <| p_cwd := Some ip |>);
        ret 0
  end.

(** The argument vector at [uargv], from element [i] on; at most [k] elements. *)
Fixpoint fetch_argv (k : nat) (uargv i : Z) : K (option (list (list Z))) :=
  match k with
  | O => ret None
  | S k' =>
      let! r := fetchint (uargv +u 4 * i) in
      match r with
      | None => ret None
      | Some uarg =>
          if uarg =? 0 then ret (Some [])
          else
            let! r := fetchstr (u32 uarg) in
            match r with
            | None => ret None
            | Some arg =>
                let! rest := fetch_argv k' uargv (i + 1) in
                ret (cons arg <$> rest)
            end
      end
  end.

Definition sys_exec : K Z :=
  let! r := argstr 0 in
  match r with
  | None => ret (-1)
  | Some path =>
      let! r := argint 1 in
      match r with
      | None => ret (-1)
      | Some uargv =>
          let! r := fetch_argv MAXARG (u32 uargv) 0 in
          match r with None => ret (-1) | Some argv => exec path argv end
      end
  end.

Definition sys_pipe : K Z :=
  let! r := argptr 0 8 in
  match r with
  | None => ret (-1)
  | Some fd =>
      let! r := pipealloc in
      match r with
      | None => ret (-1)
      | Some (rf, wf) =>
          let! r0 := fdalloc rf in
          match r0 with
          | None => do! fileclose rf; do! fileclose wf; ret (-1)
          | Some fd0 =>
              let! r1 := fdalloc wf in
              match r1 with
              | None =>
                  do! set_ofile fd0 None;
                  do! fileclose rf; do! fileclose wf; ret (-1)
              | Some fd1 =>
                  do! ustore32 fd (Z.of_nat fd0);
                  do! ustore32 (fd +u 4) (Z.of_nat fd1);
                  ret 0
              end
          end
      end
  end.
End sysfile.
