(* ===== verification/Trap.v ===== *)
(** * trap.c and the dispatch of system calls *)

From S2P Require Import Prelude State Monad Mem Spinlock ConsoleOut Ports Kalloc Vm User Sched.
From S2P Require Import SleepWake Sleeplock Bio Log Inode Console Input Ide Fs Pipe File Proc.
From S2P Require Import Exec Syscall Sysfile.

(** [SETGATE]: the offset, the selector, whether it is a trap gate (which
    leaves interrupts enabled), the privilege level. *)
Record gatedesc := MkGate { gd_off : Z; gd_cs : Z; gd_trap : bool; gd_dpl : Z }.

(** The table that [tvinit] builds from the addresses [vectors]. *)
Definition idt (vectors : Z -> Z) (i : Z) : gatedesc :=
  if i =? T_SYSCALL then MkGate (vectors i) (Z.shiftl SEG_KCODE 3) true DPL_USER
  else MkGate (vectors i) (Z.shiftl SEG_KCODE 3) false 0.

Section trap.
Context {P : Ports} {L : Linker} {F : Fuel} {D : BlockDev}.

(** [tvinit] also names the lock of [ticks]. *)
Definition tvinit : K unit := initlock L_tickslock "time".

(** [syscalls]; index 0 is empty. *)
Definition syscalls (num : Z) : option (K Z) :=
  nth (Z.to_nat num) [
    None; Some sys_fork; Some sys_exit; Some sys_wait; Some sys_pipe; Some sys_read;
    Some sys_kill; Some sys_exec; Some sys_fstat; Some sys_chdir; Some sys_dup; Some sys_getpid;
    Some sys_sbrk; Some sys_sleep; Some sys_uptime; Some sys_open; Some sys_write; Some sys_mknod;
    Some sys_unlink; Some sys_link; Some sys_mkdir; Some sys_close; Some sys_getppid;
    Some sys_nice; Some sys_wait2; Some sys_setcid; Some sys_wait3 ] None.
Definition NSYSCALLS : Z := 27.

Definition syscall : K unit :=
  let! (cur, p) := thisproc in
  let! eax := load32 (p_tf p + TF_EAX) in
  let num := i32 eax in
  match (if (0 <? num) && (num <? NSYSCALLS) then syscalls num else None) with
  | Some f =>
      let! r := f in
      let! p := getproc cur in
      store32 (p_tf p + TF_EAX) r
  | None =>
      do! cprintf (Some (bytes "%d %s: unknown sys call %d" ++ [NL]))
        [AInt (p_pid p); AStr (Some (until_nul (p_name p))); AInt num];
      store32 (p_tf p + TF_EAX) (-1)
  end.

(** The interrupt handler of the disk driver in use. *)
Class DiskIntr := disk_intr : K unit.
Context {I : DiskIntr}.

Definition if_killed (k : K unit) : K unit :=
  let! (_, p) := thisproc in when (negb (p_killed p =? 0)) k.

Definition tick : K unit :=
  do! acquire L_tickslock;
  do! modify (fun s => s <| k_ticks := k_ticks s +u 1 |>);
  do! wakeup CTicks;
  release L_tickslock.

(** Count the tick for the process that runs. *)
Definition charge (p : proc) : proc :=
  p <| p_rtime := p_rtime p +u 1 |> <| p_myquantum := p_myquantum p +u 1 |>.

Definition on_running (k : nat -> proc -> K unit) : K unit :=
  let! cur := myproc in
  match cur with
  | None => ret tt
  | Some cur => let! p := getproc cur in when (is_state RUNNING p) (k cur p)
  end.

Definition timer_intr : K unit :=
  let! n := gets k_cpunum in
  do! when (n =? 0)%nat tick;
  do! lapiceoi;
  on_running (fun cur _ => updproc cur charge).

(** The default case of the [switch]; [cr2] is the faulting address. *)
Definition bad_trap (tf cr2 : Z) : K unit :=
  let! m := gets k_mem in
  let trapno := ld32 m (tf + TF_TRAPNO) in
  let! n := gets k_cpunum in
  let! cur := myproc in
  match cur with
  | Some cur =>
      if Z.land (ld16 m (tf + TF_CS)) 3 =? 0 then
        do! cprintf (Some (bytes "unexpected trap %d from cpu %d eip %x (cr2=0x%x)" ++ [NL]))
          [AInt trapno; AInt (Z.of_nat n); AInt (ld32 m (tf + TF_EIP)); AInt cr2];
        panic "trap"
      else
        let! p := getproc cur in
        do! cprintf (Some (bytes "pid %d %s: trap %d err %d on cpu %d eip 0x%x addr 0x%x--kill proc" ++ [NL]))
          [AInt (p_pid p); AStr (Some (until_nul (p_name p))); AInt trapno;
           AInt (ld32 m (tf + TF_ERR)); AInt (Z.of_nat n); AInt (ld32 m (tf + TF_EIP)); AInt cr2];
        updproc cur (fun p => p <| p_killed := 1 |>)
  | None =>
      do! cprintf (Some (bytes "unexpected trap %d from cpu %d eip %x (cr2=0x%x)" ++ [NL]))
        [AInt trapno; AInt (Z.of_nat n); AInt (ld32 m (tf + TF_EIP)); AInt cr2];
      panic "trap"
  end.

Definition trap_switch (tf cr2 : Z) : K unit :=
  let! trapno := load32 (tf + TF_TRAPNO) in
  if trapno =? T_IRQ0 + IRQ_TIMER then timer_intr
  else if trapno =? T_IRQ0 + IRQ_IDE then do! disk_intr; lapiceoi
  else if trapno =? T_IRQ0 + IRQ_IDE + 1 then ret tt
  else if trapno =? T_IRQ0 + IRQ_KBD then do! kbdintr; lapiceoi
  else if trapno =? T_IRQ0 + IRQ_COM1 then do! uartintr; lapiceoi
  else if (trapno =? T_IRQ0 + 7) || (trapno =? T_IRQ0 + IRQ_SPURIOUS) then
    let! n := gets k_cpunum in
    let! cs := load16 (tf + TF_CS) in
    let! eip := load32 (tf + TF_EIP) in
    do! cprintf (Some (bytes "cpu%d: spurious interrupt at %x:%x" ++ [NL]))
      [AInt (Z.of_nat n); AInt cs; AInt eip];
    lapiceoi
  else bad_trap tf cr2.

(** Exit if the process has been killed and was in user space. *)
Definition exit_if_killed (tf : Z) : K unit :=
  let! cur := myproc in
  match cur with
  | None => ret tt
  | Some cur =>
      let! p := getproc cur in
      let! cs := load16 (tf + TF_CS) in
      when (negb (p_killed p =? 0) && (Z.land cs 3 =? DPL_USER)) exit
  end.

(** Preemption: under strategy 1 at the end of the quantum only. *)
Definition preempt (trapno : Z) : K unit :=
  on_running (fun _ p =>
    when (trapno =? T_IRQ0 + IRQ_TIMER) (
      let! strategy := gets k_strategy in
      if strategy =? 1 then when (p_myquantum p =? QUANTA) yield else yield)).

Definition trap (tf cr2 : Z) : K unit :=
  let! trapno := load32 (tf + TF_TRAPNO) in
  if trapno =? T_SYSCALL then
    do! if_killed exit;
    let! cur := curproc in
    do! updproc cur (fun p => p <| p_tf := tf |>);
    do! syscall;
    if_killed exit
  else
    do! trap_switch tf cr2;
    do! exit_if_killed tf;
    do! preempt trapno;
    exit_if_killed tf.
End trap.
