(* ===== verification/TrapFacts.v ===== *)
(** * Timer interrupts

    What a timer interrupt does to the process it finds running: the tick is
    counted, and the process keeps the processor or gives it up as the
    strategy says. *)

From S2P Require Import Prelude State Monad Mem Spinlock Sample ConsoleOut Ports Kalloc Vm User.
From S2P Require Import Sched SleepWake Sleeplock Bio Log Inode Console Input Ide Fs Pipe File.
From S2P Require Import Proc Exec Syscall Sysfile Trap.

(** The clock is advanced by processor 0. *)
Definition ticked (s : kernel) : kernel :=
  let t := k_ticks s +u 1 in
  if (k_cpunum s =? 0)%nat
  then s <| k_ticks := t |> <| k_procs := wake t CTicks <$> k_procs s |> else s.

(** The state after the interrupt, if the process goes on. *)
Definition charged (i : nat) (s : kernel) : kernel := on_proc i charge (ticked s).

Section timer.
Context {P : Ports} {L : Linker} {F : Fuel} {D : BlockDev} {I : DiskIntr}.
Context `{!MmioQuiet P}.

Lemma tick_calm s i p :
  calm s i p -> k_cpunum s = 0%nat -> tick s = Ret tt (ticked s).
Proof.
  intros Hc H0. pose proof (calm_locks _ _ _ Hc L_tickslock Logic.I) as Hl. unfold tick.
  rewrite (bind_ret _ _ _ _ _ (acquire_calm _ _ _ _ Hc Hl)). kget.
  erewrite bind_ret by (by apply (wakeup_nested L_tickslock _ s _ i p Hc)).
  rewrite (release_calm L_tickslock s _ i p Hc Hl) by done.
  f_equal. unfold ticked. rewrite H0. by destruct s.
Qed.

Lemma calm_ticked s i p : calm s i p -> calm (ticked s) i p.
Proof.
  intros Hc. unfold ticked. destruct (_ =? _)%nat; [|done].
  apply (calm_same s _ i p p Hc); [done| |apply Hc]. cbn. apply wake_lookup; apply Hc.
Qed.

Lemma timer_intr_calm s i p : calm s i p -> timer_intr s = Ret tt (charged i s).
Proof.
  intros Hc. unfold timer_intr. kget.
  assert (Ht : when (k_cpunum s =? 0)%nat tick s = Ret tt (ticked s)).
  { destruct (k_cpunum s =? 0)%nat eqn:E; cbn [when].
    - by eapply tick_calm; [|apply Nat.eqb_eq].
    - unfold ticked. by rewrite E. }
  rewrite (bind_ret _ _ _ _ _ Ht), (bind_ret _ _ _ _ _ (lapiceoi_ret _)).
  destruct (calm_ticked _ _ _ Hc) as [(c & Hcpu & _ & _ & Hi) Hp Hr _]. unfold on_running.
  rewrite (bind_ret _ _ _ _ _ (myproc_ret _ _ Hcpu)), Hi, (bind_ret _ _ _ _ _ (getproc_ret _ _ _ Hp)).
  unfold is_state. rewrite bool_decide_eq_true_2 by done. cbn [when].
  by erewrite updproc_ret by exact Hp.
Qed.

Lemma calm_charged s i p : calm s i p -> calm (charged i s) i (charge p).
Proof.
  intros Hc. apply calm_ticked in Hc. apply (calm_same _ _ i p _ Hc); [done| |apply Hc].
  by apply on_proc_lookup, Hc.
Qed.

Lemma exit_if_killed_calm tf s i p :
  calm s i p -> p_killed p = 0 -> exit_if_killed tf s = Ret tt s.
Proof.
  intros [(c & Hcpu & _ & _ & Hi) Hp _ _] Hk. unfold exit_if_killed.
  rewrite (bind_ret _ _ _ _ _ (myproc_ret _ _ Hcpu)), Hi, (bind_ret _ _ _ _ _ (getproc_ret _ _ _ Hp)).
  kget. by rewrite Hk.
Qed.

Lemma trap_switch_timer s i p tf cr2 :
  calm s i p -> ld32 (k_mem s) (tf + TF_TRAPNO) = T_IRQ0 + IRQ_TIMER ->
  trap_switch tf cr2 s = Ret tt (charged i s).
Proof.
  intros Hc Htrap. unfold trap_switch. kget. rewrite Htrap, Z.eqb_refl. by eapply timer_intr_calm.
Qed.

(** Everything that [trap] does before it may give up the processor. *)
Lemma trap_timer s i p tf cr2 :
  calm s i p -> p_killed p = 0 -> ld32 (k_mem s) (tf + TF_TRAPNO) = T_IRQ0 + IRQ_TIMER ->
  trap tf cr2 s = bind (preempt (T_IRQ0 + IRQ_TIMER)) (fun _ => exit_if_killed tf) (charged i s).
Proof.
  intros Hc Hk Htrap. unfold trap. kget. rewrite Htrap.
  change (T_IRQ0 + IRQ_TIMER =? T_SYSCALL) with false. cbn [bool_decide].
  rewrite (bind_ret _ _ _ _ _ (trap_switch_timer _ _ _ _ cr2 Hc Htrap)).
  by rewrite (bind_ret _ _ _ _ _ (exit_if_killed_calm tf _ _ _ (calm_charged _ _ _ Hc) Hk)).
Qed.

(** Whether a tick makes process [p] give up the processor. *)
Definition preempts (strategy : Z) (p : proc) : bool :=
  negb (strategy =? 1) || (p_myquantum p +u 1 =? QUANTA).

Lemma on_running_calm k s i p : calm s i p -> on_running k s = k i p s.
Proof.
  intros [(c & Hcpu & _ & _ & Hi) Hp Hr _]. unfold on_running.
  rewrite (bind_ret _ _ _ _ _ (myproc_ret _ _ Hcpu)), Hi, (bind_ret _ _ _ _ _ (getproc_ret _ _ _ Hp)).
  unfold is_state. by rewrite bool_decide_eq_true_2.
Qed.

Lemma preempt_calm s i p :
  calm s i p ->
  preempt (T_IRQ0 + IRQ_TIMER) s
  = (if negb (k_strategy s =? 1) || (p_myquantum p =? QUANTA) then yield s else Ret tt s).
Proof.
  intros Hc. unfold preempt. rewrite (on_running_calm _ _ _ _ Hc), Z.eqb_refl. cbn [when]. kget.
  destruct (k_strategy s =? 1); [|done]. cbn [negb orb]. by destruct (_ =? QUANTA).
Qed.

Lemma ticked_strategy s : k_strategy (ticked s) = k_strategy s.
Proof. unfold ticked. by destruct (_ =? _)%nat. Qed.
Lemma ticked_cons s : k_cons (ticked s) = k_cons s.
Proof. unfold ticked. by destruct (_ =? _)%nat. Qed.
Lemma ticked_mem s : k_mem (ticked s) = k_mem s.
Proof. unfold ticked. by destruct (_ =? _)%nat. Qed.

Lemma trap_goes_on s i p tf cr2 :
  calm s i p -> p_killed p = 0 -> ld32 (k_mem s) (tf + TF_TRAPNO) = T_IRQ0 + IRQ_TIMER ->
  preempts (k_strategy s) p = false -> trap tf cr2 s = Ret tt (charged i s).
Proof.
  intros Hc Hk Ht Hpre. rewrite (trap_timer _ _ _ _ _ Hc Hk Ht).
  pose proof (calm_charged _ _ _ Hc) as Hc'. unfold bind. rewrite (preempt_calm _ _ _ Hc').
  change (k_strategy (charged i s)) with (k_strategy (ticked s)). rewrite ticked_strategy.
  change (p_myquantum (charge p)) with (p_myquantum p +u 1).
  unfold preempts in Hpre. rewrite Hpre. cbn. by eapply exit_if_killed_calm.
Qed.

Lemma cons_ready_ticked s : cons_ready s -> cons_ready (ticked s).
Proof. unfold ticked. by destruct (_ =? _)%nat. Qed.

Lemma trap_yields s i p tf cr2 :
  calm s i p -> p_killed p = 0 -> ld32 (k_mem s) (tf + TF_TRAPNO) = T_IRQ0 + IRQ_TIMER ->
  preempts (k_strategy s) p = true -> (k_strategy s = 2 -> cons_ready s) ->
  exists s1 k, trap tf cr2 s = Swtch s1 k /\ lock_held L_ptable s1 /\
    k_procs s1 = <[i := yielded (k_ticks (ticked s)) (charge p)]> (k_procs (ticked s)).
Proof.
  intros Hc Hk Ht Hpre Hcons. rewrite (trap_timer _ _ _ _ _ Hc Hk Ht).
  pose proof (calm_charged _ _ _ Hc) as Hc'. unfold bind. rewrite (preempt_calm _ _ _ Hc').
  change (k_strategy (charged i s)) with (k_strategy (ticked s)). rewrite ticked_strategy.
  change (p_myquantum (charge p)) with (p_myquantum p +u 1).
  unfold preempts in Hpre. rewrite Hpre.
  pose proof (calm_wf _ _ _ Hc') as Hwf. pose proof Hc' as [(c & Hcpu & Hn & _ & Hi) Hp Hr Hf].
  destruct (yield_swtch (charged i s) c i (charge p)) as (co & _ & _ & ->).
  { split; [done..|lia|lia|]. intros E. apply cons_ready_ticked. apply Hcons.
    by rewrite <- (ticked_strategy s). }
  { by apply Hf. }
  do 2 eexists. split; [reflexivity|]. split.
  - destruct (acq_in_cs L_ptable (charged i s) Hwf) as [[nm Hh] _]. by exists nm.
  - cbn. rewrite list_alter_alter.
    by erewrite list_alter_insert by apply (calm_proc _ _ _ (calm_ticked _ _ _ Hc)).
Qed.

(** ** The quantum of strategy 1 *)

(** [n] timer interrupts in a row. *)
Fixpoint interrupts (n : nat) (tf cr2 : Z) : K unit :=
  match n with O => ret tt | S n' => do! trap tf cr2; interrupts n' tf cr2 end.

Definition used (n : Z) (p : proc) : proc :=
  p <| p_rtime := p_rtime p +u n |> <| p_myquantum := p_myquantum p +u n |>.

Lemma interrupts_go_on n s i p tf cr2 :
  calm s i p -> p_killed p = 0 -> ld32 (k_mem s) (tf + TF_TRAPNO) = T_IRQ0 + IRQ_TIMER ->
  k_strategy s = 1 -> 0 <= p_myquantum p -> p_myquantum p + Z.of_nat n < QUANTA ->
  is_u32 (p_rtime p) ->
  exists s', interrupts n tf cr2 s = Ret tt s' /\ calm s' i (used (Z.of_nat n) p) /\
    k_strategy s' = 1 /\ k_mem s' = k_mem s.
Proof.
  unfold QUANTA. revert s p. induction n as [|n IH]; intros s p Hc Hk Ht Hs H0 Hq Hr.
  - exists s. split_and!; [done| |done|done]. replace (used (Z.of_nat 0) p) with p; [done|].
    unfold used. unfold_set. unfold is_u32 in *. rewrite !Z.add_0_r, !u32_small by (unfold is_u32; lia).
    by destruct p.
  - cbn [interrupts]. erewrite bind_ret.
    2: { eapply trap_goes_on; [done..|]. unfold preempts. rewrite Hs. cbn.
         rewrite u32_small by (unfold is_u32; lia). apply Z.eqb_neq. unfold QUANTA. lia. }
    destruct (IH (charged i s) (charge p)) as (s' & H1 & H2 & H3 & H4).
    + by apply calm_charged.
    + done.
    + cbn. by rewrite ticked_mem.
    + cbn. by rewrite ticked_strategy.
    + cbn. rewrite u32_small by (unfold is_u32; lia). lia.
    + cbn. rewrite u32_small by (unfold is_u32; lia). lia.
    + cbn. apply u32_range.
    + exists s'. split_and!; [done| |done|]; [|cbn in H4; by rewrite H4, ticked_mem].
      replace (used (Z.of_nat (S n)) p) with (used (Z.of_nat n) (charge p)); [done|].
      unfold used, charge. unfold_set. cbn.
      replace (p_rtime p +u 1 +u Z.of_nat n) with (p_rtime p +u Z.of_nat (S n)).
      * replace (p_myquantum p +u 1 +u Z.of_nat n) with (p_myquantum p +u Z.of_nat (S n)); [done|].
        autorewrite with cint. f_equal. lia.
      * autorewrite with cint. f_equal. lia.
Qed.
End timer.
