(* ===== verification/Boot.v ===== *)
(** * Starting the kernel (main.c, timer.c)

    The order in which [main] initialises the parts of the kernel, the other
    processors, and the page directory that the entry code uses. *)

From Stdlib Require Import Ascii String.
From S2P Require Import Prelude State Monad Mem Spinlock ConsoleOut Kalloc Ports Vm Sched Bio Console Input Ide Fs Pipe File Proc Exec Syscall Sysfile Trap.

(** Symbols of the image of entryother.S and of the entry code. *)
Class EntryImage := {
  sym_entryother : Z;          (* _binary_entryother_start *)
  entryother_size : Z;         (* _binary_entryother_size *)
  sym_mpenter : Z;
  sym_entrypgdir : Z
}.

(** ** timer.c *)

Definition IO_TIMER1 : Z := 0x040.
Definition TIMER_FREQ : Z := 1193182.
Definition TIMER_DIV (x : Z) : Z := (TIMER_FREQ + x / 2) / x.
Definition TIMER_MODE : Z := IO_TIMER1 + 3.
Definition TIMER_SEL0 : Z := 0x00.
Definition TIMER_RATEGEN : Z := 0x04.
Definition TIMER_16BIT : Z := 0x30.

Section boot.
Context {P : Ports} {L : Linker} {F : Fuel} {D : BlockDev} {E : EntryImage}.

Definition timerinit : K unit :=
  do! outb TIMER_MODE (Z.lor (Z.lor TIMER_SEL0 TIMER_RATEGEN) TIMER_16BIT);
  do! outb IO_TIMER1 (TIMER_DIV 100 mod 256);
  do! outb IO_TIMER1 (TIMER_DIV 100 / 256);
  picenable IRQ_TIMER.

(** ** main.c *)

(** [idtinit] loads a register that points to [idt]; interrupts are calls of
    [trap] in this model. *)
Definition mpmain : K unit :=
  let! n := gets k_cpunum in
  do! cprintf (Some (bytes "cpu%d: starting" ++ [NL])) [AInt (Z.of_nat n)];
  do! upd_cpu (fun c => c <| c_started := 1 |>);
  scheduler.

Definition mpenter : K unit :=
  do! switchkvm;
  do! seginit;
  do! lapicinit;
  mpmain.

(** Processor [c] is started and waited for. *)
Definition startother (code : Z) (c : nat) : K unit :=
  let! n := gets k_cpunum in
  if decide (c = n) then ret tt
  else
    let! stack := kalloc in
    do! store32 (code - 4) (stack +u KSTACKSIZE);
    do! store32 (code - 8) sym_mpenter;
    do! store32 (code - 12) (V2P sym_entrypgdir);
    let! cpus := gets k_cpus in
    let! x := deref "cpu" (cpus !! c) in
    do! lapicstartap (c_apicid x) (V2P code);
    forever fuel (
      let! cpus := gets k_cpus in
      let! x := deref "cpu" (cpus !! c) in
      ret (if c_started x =? 0 then None else Some tt)).

Definition startothers : K unit :=
  let code := P2V 0x7000 in
  do! setmem (fun m => memmove m code sym_entryother entryother_size);
  let! ncpu := gets k_ncpu in
  for_each (seq 0 (Z.to_nat ncpu)) (startother code).

Definition main : K unit :=
  do! kinit1 sym_end (P2V (4 * 1024 * 1024));
  do! kvmalloc;
  do! mpinit;
  do! lapicinit;
  do! seginit;
  let! n := gets k_cpunum in
  do! cprintf (Some ([NL] ++ bytes "cpu%d: starting xv6" ++ [NL; NL])) [AInt (Z.of_nat n)];
  do! picinit;
  do! ioapicinit;
  do! consoleinit;
  do! uartinit;
  do! pinit;
  do! tvinit;
  do! binit;
  do! fileinit;
  do! ideinit;
  let! ismp := gets k_ismp in
  do! when (ismp =? 0) timerinit;
  do! startothers;
  do! kinit2 (P2V (4 * 1024 * 1024)) (P2V PHYSTOP);
  do! userinit;
  mpmain.
End boot.

(** ** The page directory of the entry code *)

Definition PTE_PS : Z := 0x080.
Definition PDXSHIFT : Z := 22.
Definition entrypgdir : list Z :=
  <[Z.to_nat (Z.shiftr KERNBASE PDXSHIFT) := Z.lor (Z.lor PTE_P PTE_W) PTE_PS]>
    (<[0%nat := Z.lor (Z.lor PTE_P PTE_W) PTE_PS]> (replicate 1024 0)).

(** The address that the processor reaches with 4-megabyte pages. *)
Definition entry_translate (va : Z) : option Z :=
  let pde := nth (Z.to_nat (Z.shiftr va PDXSHIFT)) entrypgdir 0 in
  if (Z.land pde PTE_P =? 0) || (Z.land pde PTE_PS =? 0) then None
  else Some (Z.land pde 0xFFC00000 + Z.land va 0x3FFFFF).

(** The entry code sees the first 4 megabytes twice, where it runs and where
    the kernel is linked, and nothing else. *)
Lemma entry_translate_spec va : is_u32 va -> entry_translate va =
  if decide (va < 4 * 1024 * 1024) then Some va
  else if decide (KERNBASE <= va < KERNBASE + 4 * 1024 * 1024) then Some (va - KERNBASE) else None.
Proof.
  intros [H1 H2]. unfold entry_translate, PDXSHIFT. rewrite Z.shiftr_div_pow2 by lia.
  replace (Z.land va 0x3FFFFF) with (va mod 2 ^ 22) by (symmetry; apply (Z.land_ones va 22); lia).
  pose proof (Z.div_mod va (2 ^ 22)) as Hd. pose proof (Z.mod_pos_bound va (2 ^ 22)) as Hm.
  assert (Hq : 0 <= va / 2 ^ 22 < 1024) by (split; [apply Z.div_pos; lia|apply Z.div_lt_upper_bound; lia]).
  unfold KERNBASE. destruct (decide (va / 2 ^ 22 = 0)) as [E0|E0]; [|destruct (decide (va / 2 ^ 22 = 512)) as [E1|E1]].
  - rewrite E0. change (nth (Z.to_nat 0) entrypgdir 0) with 131. cbn [Z.land PTE_P]. rewrite decide_True by lia.
    change ((Z.land 131 PTE_P =? 0) || (Z.land 131 PTE_PS =? 0)) with false. change (Z.land 131 4290772992) with 0. f_equal. lia.
  - rewrite E1. replace (nth (Z.to_nat 512) entrypgdir 0) with 131 by (vm_compute; reflexivity).
    rewrite decide_False, decide_True by lia.
    change ((Z.land 131 PTE_P =? 0) || (Z.land 131 PTE_PS =? 0)) with false. change (Z.land 131 4290772992) with 0. f_equal. lia.
  - assert (En : nth (Z.to_nat (va / 2 ^ 22)) entrypgdir 0 = 0).
    { unfold entrypgdir. rewrite nth_lookup. change (Z.to_nat (Z.shiftr KERNBASE PDXSHIFT)) with 512%nat.
      rewrite list_lookup_insert_ne, list_lookup_insert_ne by lia. rewrite lookup_replicate_2 by lia. done. }
    rewrite En, decide_False, decide_False by lia. done.
Qed.
