(* ===== verification/Asm.v ===== *)
(** * The assembly code: switches, traps, entry points

    A small machine with the registers that the assembly files use, and the
    code of swtch.S, trapasm.S, vectors.pl, usys.S, initcode.S, entry.S and the
    32-bit half of entryother.S as lists of instructions.  Segments are flat,
    so an address is an offset.  Code runs up to an instruction that leaves it:
    a jump, a call, a trap or a return. *)

From Stdlib Require Import Ascii String.
From S2P Require Import Prelude State Mem ConsoleOut Vm Trap Boot.

(** ** The machine *)

Inductive reg := EAX | ECX | EDX | EBX | ESP | EBP | ESI | EDI.
Inductive sreg := CS | DS | ES | FS | GS | SS.
Inductive creg := CR0 | CR3 | CR4.

Record machine := MkMachine {
  m_eax : Z; m_ecx : Z; m_edx : Z; m_ebx : Z; m_esp : Z; m_ebp : Z; m_esi : Z; m_edi : Z;
  m_cs : Z; m_ds : Z; m_es : Z; m_fs : Z; m_gs : Z; m_ss : Z;
  m_cr0 : Z; m_cr3 : Z; m_cr4 : Z;
  eflags : Z;
  bytes_at : mem
}.

Definition regs (m : machine) (x : reg) : Z :=
  match x with EAX => m_eax m | ECX => m_ecx m | EDX => m_edx m | EBX => m_ebx m | ESP => m_esp m | EBP => m_ebp m | ESI => m_esi m | EDI => m_edi m end.
Definition segs (m : machine) (x : sreg) : Z :=
  match x with CS => m_cs m | DS => m_ds m | ES => m_es m | FS => m_fs m | GS => m_gs m | SS => m_ss m end.
Definition ctl (m : machine) (x : creg) : Z :=
  match x with CR0 => m_cr0 m | CR3 => m_cr3 m | CR4 => m_cr4 m end.

Definition set_reg (x : reg) (v : Z) (m : machine) : machine :=
  match x with
  | EAX => MkMachine v (m_ecx m) (m_edx m) (m_ebx m) (m_esp m) (m_ebp m) (m_esi m) (m_edi m) (m_cs m) (m_ds m) (m_es m) (m_fs m) (m_gs m) (m_ss m) (m_cr0 m) (m_cr3 m) (m_cr4 m) (eflags m) (bytes_at m)
  | ECX => MkMachine (m_eax m) v (m_edx m) (m_ebx m) (m_esp m) (m_ebp m) (m_esi m) (m_edi m) (m_cs m) (m_ds m) (m_es m) (m_fs m) (m_gs m) (m_ss m) (m_cr0 m) (m_cr3 m) (m_cr4 m) (eflags m) (bytes_at m)
  | EDX => MkMachine (m_eax m) (m_ecx m) v (m_ebx m) (m_esp m) (m_ebp m) (m_esi m) (m_edi m) (m_cs m) (m_ds m) (m_es m) (m_fs m) (m_gs m) (m_ss m) (m_cr0 m) (m_cr3 m) (m_cr4 m) (eflags m) (bytes_at m)
  | EBX => MkMachine (m_eax m) (m_ecx m) (m_edx m) v (m_esp m) (m_ebp m) (m_esi m) (m_edi m) (m_cs m) (m_ds m) (m_es m) (m_fs m) (m_gs m) (m_ss m) (m_cr0 m) (m_cr3 m) (m_cr4 m) (eflags m) (bytes_at m)
  | ESP => MkMachine (m_eax m) (m_ecx m) (m_edx m) (m_ebx m) v (m_ebp m) (m_esi m) (m_edi m) (m_cs m) (m_ds m) (m_es m) (m_fs m) (m_gs m) (m_ss m) (m_cr0 m) (m_cr3 m) (m_cr4 m) (eflags m) (bytes_at m)
  | EBP => MkMachine (m_eax m) (m_ecx m) (m_edx m) (m_ebx m) (m_esp m) v (m_esi m) (m_edi m) (m_cs m) (m_ds m) (m_es m) (m_fs m) (m_gs m) (m_ss m) (m_cr0 m) (m_cr3 m) (m_cr4 m) (eflags m) (bytes_at m)
  | ESI => MkMachine (m_eax m) (m_ecx m) (m_edx m) (m_ebx m) (m_esp m) (m_ebp m) v (m_edi m) (m_cs m) (m_ds m) (m_es m) (m_fs m) (m_gs m) (m_ss m) (m_cr0 m) (m_cr3 m) (m_cr4 m) (eflags m) (bytes_at m)
  | EDI => MkMachine (m_eax m) (m_ecx m) (m_edx m) (m_ebx m) (m_esp m) (m_ebp m) (m_esi m) v (m_cs m) (m_ds m) (m_es m) (m_fs m) (m_gs m) (m_ss m) (m_cr0 m) (m_cr3 m) (m_cr4 m) (eflags m) (bytes_at m)
  end.
Definition set_seg (x : sreg) (v : Z) (m : machine) : machine :=
  match x with
  | CS => MkMachine (m_eax m) (m_ecx m) (m_edx m) (m_ebx m) (m_esp m) (m_ebp m) (m_esi m) (m_edi m) v (m_ds m) (m_es m) (m_fs m) (m_gs m) (m_ss m) (m_cr0 m) (m_cr3 m) (m_cr4 m) (eflags m) (bytes_at m)
  | DS => MkMachine (m_eax m) (m_ecx m) (m_edx m) (m_ebx m) (m_esp m) (m_ebp m) (m_esi m) (m_edi m) (m_cs m) v (m_es m) (m_fs m) (m_gs m) (m_ss m) (m_cr0 m) (m_cr3 m) (m_cr4 m) (eflags m) (bytes_at m)
  | ES => MkMachine (m_eax m) (m_ecx m) (m_edx m) (m_ebx m) (m_esp m) (m_ebp m) (m_esi m) (m_edi m) (m_cs m) (m_ds m) v (m_fs m) (m_gs m) (m_ss m) (m_cr0 m) (m_cr3 m) (m_cr4 m) (eflags m) (bytes_at m)
  | FS => MkMachine (m_eax m) (m_ecx m) (m_edx m) (m_ebx m) (m_esp m) (m_ebp m) (m_esi m) (m_edi m) (m_cs m) (m_ds m) (m_es m) v (m_gs m) (m_ss m) (m_cr0 m) (m_cr3 m) (m_cr4 m) (eflags m) (bytes_at m)
  | GS => MkMachine (m_eax m) (m_ecx m) (m_edx m) (m_ebx m) (m_esp m) (m_ebp m) (m_esi m) (m_edi m) (m_cs m) (m_ds m) (m_es m) (m_fs m) v (m_ss m) (m_cr0 m) (m_cr3 m) (m_cr4 m) (eflags m) (bytes_at m)
  | SS => MkMachine (m_eax m) (m_ecx m) (m_edx m) (m_ebx m) (m_esp m) (m_ebp m) (m_esi m) (m_edi m) (m_cs m) (m_ds m) (m_es m) (m_fs m) (m_gs m) v (m_cr0 m) (m_cr3 m) (m_cr4 m) (eflags m) (bytes_at m)
  end.
Definition set_ctl (x : creg) (v : Z) (m : machine) : machine :=
  match x with
  | CR0 => MkMachine (m_eax m) (m_ecx m) (m_edx m) (m_ebx m) (m_esp m) (m_ebp m) (m_esi m) (m_edi m) (m_cs m) (m_ds m) (m_es m) (m_fs m) (m_gs m) (m_ss m) v (m_cr3 m) (m_cr4 m) (eflags m) (bytes_at m)
  | CR3 => MkMachine (m_eax m) (m_ecx m) (m_edx m) (m_ebx m) (m_esp m) (m_ebp m) (m_esi m) (m_edi m) (m_cs m) (m_ds m) (m_es m) (m_fs m) (m_gs m) (m_ss m) (m_cr0 m) v (m_cr4 m) (eflags m) (bytes_at m)
  | CR4 => MkMachine (m_eax m) (m_ecx m) (m_edx m) (m_ebx m) (m_esp m) (m_ebp m) (m_esi m) (m_edi m) (m_cs m) (m_ds m) (m_es m) (m_fs m) (m_gs m) (m_ss m) (m_cr0 m) (m_cr3 m) v (eflags m) (bytes_at m)
  end.
Definition set_flags (v : Z) (m : machine) : machine :=
  MkMachine (m_eax m) (m_ecx m) (m_edx m) (m_ebx m) (m_esp m) (m_ebp m) (m_esi m) (m_edi m) (m_cs m) (m_ds m) (m_es m) (m_fs m) (m_gs m) (m_ss m) (m_cr0 m) (m_cr3 m) (m_cr4 m) v (bytes_at m).
Definition set_mem (b : mem) (m : machine) : machine :=
  MkMachine (m_eax m) (m_ecx m) (m_edx m) (m_ebx m) (m_esp m) (m_ebp m) (m_esi m) (m_edi m) (m_cs m) (m_ds m) (m_es m) (m_fs m) (m_gs m) (m_ss m) (m_cr0 m) (m_cr3 m) (m_cr4 m) (eflags m) b.

(** [$n], a register, [disp(base)] and an absolute address. *)
Inductive operand := Imm (n : Z) | Reg (r : reg) | Seg (s : sreg) | Ctl (c : creg) | Mem (disp : Z) (base : reg) | Abs (a : Z).

Inductive instr :=
| pushl (o : operand) | popl (o : operand) | pushal | popal
| movl (src dst : operand) | movw (src dst : operand)
| addl (n : Z) (r : reg) | orl (n : Z) (r : reg)
| call (f : string) | call_at (o : operand) | jmp (l : string) | jmp_reg (r : reg)
| int (n : Z) | ret | iret.

(** How a piece of code ends. *)
Inductive leave := Over | Jump (l : string) | Calls (f : string) | Traps (n : Z) | Goes (a : Z).

Definition addr (o : operand) (m : machine) : Z :=
  match o with Mem disp base => regs m base +u disp | Abs a => a | _ => 0 end.
Definition value (o : operand) (m : machine) : Z :=
  match o with
  | Imm n => u32 n | Reg r => regs m r | Seg s => segs m s | Ctl c => ctl m c
  | Mem _ _ | Abs _ => ld32 (bytes_at m) (addr o m)
  end.
Definition assign (o : operand) (v : Z) (m : machine) : machine :=
  match o with
  | Imm _ => m | Reg r => set_reg r v m | Seg s => set_seg s (u16 v) m | Ctl c => set_ctl c v m
  | Mem _ _ | Abs _ => set_mem (st32 (bytes_at m) (addr o m) v) m
  end.

Definition push (v : Z) (m : machine) : machine :=
  let sp := regs m ESP -u 4 in set_reg ESP sp (set_mem (st32 (bytes_at m) sp v) m).
Definition top (m : machine) : Z := ld32 (bytes_at m) (regs m ESP).
Definition drop4 (m : machine) : machine := set_reg ESP (regs m ESP +u 4) m.

(** [pushal] stores the registers in this order, with the stack pointer as it
    was; [popal] loads them in the opposite order and skips the stack pointer. *)
Definition pusha_order : list reg := [EAX; ECX; EDX; EBX; ESP; EBP; ESI; EDI].

Definition pop_reg (r : reg) (m : machine) : machine :=
  match r with ESP => drop4 m | _ => let v := top m in set_reg r v (drop4 m) end.

(** [movw] to the low half of a register keeps the high half. *)
Definition low16 (old v : Z) : Z := (old / 2 ^ 16) * 2 ^ 16 + u16 v.

(** The address behind a call is pushed for the function to return to. *)
Class CodeAddr := return_to : string -> Z.

Section exec.
Context {A : CodeAddr}.

(** A return from a trap restores the stack pointer and its segment when it
    leaves for a less privileged level. *)
Definition do_iret (m : machine) : machine * Z :=
  let cpl := Z.land (segs m CS) 3 in
  let eip := top m in let m := drop4 m in
  let cs := u16 (top m) in let m := set_seg CS cs (drop4 m) in
  let m := set_flags (top m) (drop4 m) in
  if Z.land cs 3 =? cpl then (m, eip)
  else
    let sp := top m in let m := drop4 m in
    let ss := u16 (top m) in
    (set_reg ESP sp (set_seg SS ss m), eip).

Definition exec (i : instr) (m : machine) : machine * leave :=
  match i with
  | pushl o => (push (value o m) m, Over)
  | popl o => let v := top m in (assign o v (drop4 m), Over)
  | pushal => let sp := regs m ESP in (fold_left (fun m' r => push (match r with ESP => sp | _ => regs m r end) m') pusha_order m, Over)
  | popal => (fold_left (fun m' r => pop_reg r m') (rev pusha_order) m, Over)
  | movl src dst => (assign dst (value src m) m, Over)
  | movw src (Reg r) => (set_reg r (low16 (regs m r) (value src m)) m, Over)
  | movw src dst => (assign dst (value src m) m, Over)
  | addl n r => (set_reg r (regs m r +u n) m, Over)
  | orl n r => (set_reg r (Z.lor (regs m r) n) m, Over)
  | call f => (push (return_to f) m, Calls f)
  | call_at o => let a := value o m in (push (return_to EmptyString) m, Goes a)
  | jmp l => (m, Jump l)
  | jmp_reg r => (m, Goes (regs m r))
  | int n => (m, Traps n)
  | ret => (drop4 m, Goes (top m))
  | iret => let '(m', eip) := do_iret m in (m', Goes eip)
  end.

(** Run the code; what is left of it is behind the instruction that leaves. *)
Fixpoint run (code : list instr) (m : machine) : machine * leave * list instr :=
  match code with
  | [] => (m, Over, [])
  | i :: code' => match exec i m with (m', Over) => run code' m' | (m', l) => (m', l, code') end
  end.
End exec.

(** ** swtch.S *)

Definition swtch : list instr := [
  movl (Mem 4 ESP) (Reg EAX);
  movl (Mem 8 ESP) (Reg EDX);
  pushl (Reg EBP);
  pushl (Reg EBX);
  pushl (Reg ESI);
  pushl (Reg EDI);
  movl (Reg ESP) (Mem 0 EAX);
  movl (Reg EDX) (Reg ESP);
  popl (Reg EDI);
  popl (Reg ESI);
  popl (Reg EBX);
  popl (Reg EBP);
  ret ].

(** ** trapasm.S *)

Definition trapret : list instr := [
  popal;
  popl (Seg GS);
  popl (Seg FS);
  popl (Seg ES);
  popl (Seg DS);
  addl 0x8 ESP;
  iret ].

Definition alltraps : list instr := [
  pushl (Seg DS);
  pushl (Seg ES);
  pushl (Seg FS);
  pushl (Seg GS);
  pushal;
  movw (Imm (Z.shiftl SEG_KDATA 3)) (Reg EAX);
  movw (Reg EAX) (Seg DS);
  movw (Reg EAX) (Seg ES);
  movw (Imm (Z.shiftl SEG_KCPU 3)) (Reg EAX);
  movw (Reg EAX) (Seg FS);
  movw (Reg EAX) (Seg GS);
  pushl (Reg ESP);
  call "trap";
  addl 4 ESP ] ++ trapret.

(** ** vectors.pl *)

(** The traps for which the processor pushes an error code. *)
Definition pushes_error (i : Z) : bool := (i =? 8) || (10 <=? i) && (i <=? 14) || (i =? 17).

Definition vector (i : Z) : list instr :=
  (if negb (pushes_error i) then [pushl (Imm 0)] else []) ++ [pushl (Imm i); jmp "alltraps"].

(** A trap through gate [g]: the processor changes to the stack [ss0:esp0] of
    the task when the privilege level changes, saves where it was, and an
    interrupt gate turns interrupts off. *)
Definition deliver (ss0 esp0 : Z) (g : gatedesc) (err : option Z) (eip : Z) (m : machine) : machine :=
  let m1 := if Z.land (segs m CS) 3 =? Z.land (gd_cs g) 3 then m
    else push (regs m ESP) (push (segs m SS) (set_seg SS ss0 (set_reg ESP esp0 m))) in
  let m2 := push eip (push (segs m CS) (push (eflags m) m1)) in
  let m3 := match err with Some e => push e m2 | None => m2 end in
  set_seg CS (gd_cs g) (if gd_trap g then m3 else set_flags (Z.ldiff (eflags m3) FL_IF) m3).

(** ** usys.S *)

(** [SYSCALL(name)] with the number [SYS_name]. *)
Definition usys (num : Z) : list instr := [movl (Imm num) (Reg EAX); int T_SYSCALL; ret].

Definition usys_table : list (string * Z) := [
  ("fork", 1); ("exit", 2); ("wait", 3); ("pipe", 4); ("read", 5); ("write", 16); ("close", 21); ("kill", 6); ("exec", 7); ("open", 15);
  ("mknod", 17); ("unlink", 18); ("fstat", 8); ("link", 19); ("mkdir", 20); ("chdir", 9); ("dup", 10); ("getpid", 11); ("sbrk", 12);
  ("sleep", 13); ("uptime", 14); ("getppid", 22); ("nice", 23); ("wait2", 24); ("setcid", 25); ("wait3", 26) ]%string.

(** ** initcode.S *)

(** The code starts at 0; [init] and [argv] are the addresses of its data. *)
Definition initcode_start (init argv : Z) : list instr := [
  pushl (Imm argv);
  pushl (Imm init);
  pushl (Imm 0);
  movl (Imm 7) (Reg EAX);
  int T_SYSCALL ].
Definition initcode_exit : list instr := [movl (Imm 2) (Reg EAX); int T_SYSCALL; jmp "exit"].

(** The bytes of the two data items. *)
Definition initcode_init : list Z := bytes "/init" ++ [0; 0].
Definition initcode_argv (init : Z) : list Z := [init mod 256; init / 256 mod 256; init / 65536 mod 256; init / 16777216 mod 256; 0; 0; 0; 0].

(** ** entry.S and the second half of entryother.S *)

Definition CR0_PE : Z := 0x00000001.
Definition CR0_WP : Z := 0x00010000.
Definition CR0_PG : Z := 0x80000000.
Definition CR4_PSE : Z := 0x00000010.

Definition multiboot_header : list Z := [0x1badb002; 0; u32 (- 0x1badb002 - 0)].

Definition entry (entrypgdir stack main : Z) : list instr := [
  movl (Ctl CR4) (Reg EAX);
  orl CR4_PSE EAX;
  movl (Reg EAX) (Ctl CR4);
  movl (Imm (V2P entrypgdir)) (Reg EAX);
  movl (Reg EAX) (Ctl CR3);
  movl (Ctl CR0) (Reg EAX);
  orl (Z.lor CR0_PG CR0_WP) EAX;
  movl (Reg EAX) (Ctl CR0);
  movl (Imm (stack + KSTACKSIZE)) (Reg ESP);
  movl (Imm main) (Reg EAX);
  jmp_reg EAX ].

(** [start] is the address that startothers copies the code to. *)
Definition start32 (start : Z) : list instr := [
  movw (Imm (Z.shiftl SEG_KDATA 3)) (Reg EAX);
  movw (Reg EAX) (Seg DS);
  movw (Reg EAX) (Seg ES);
  movw (Reg EAX) (Seg SS);
  movw (Imm 0) (Reg EAX);
  movw (Reg EAX) (Seg FS);
  movw (Reg EAX) (Seg GS);
  movl (Ctl CR4) (Reg EAX);
  orl CR4_PSE EAX;
  movl (Reg EAX) (Ctl CR4);
  movl (Abs (start - 12)) (Reg EAX);
  movl (Reg EAX) (Ctl CR3);
  movl (Ctl CR0) (Reg EAX);
  orl (Z.lor CR0_PE (Z.lor CR0_PG CR0_WP)) EAX;
  movl (Reg EAX) (Ctl CR0);
  movl (Abs (start - 4)) (Reg ESP);
  call_at (Abs (start - 8)) ].
