(* ===== verification/AsmFacts.v ===== *)
(** * What the assembly code does *)

From Stdlib Require Import Ascii String.
From S2P Require Import Prelude State Mem ConsoleOut Vm Proc Trap Boot Asm.

(** Run straight-line code: the machine afterwards as a record. *)
Ltac asm_run :=
  cbv [run exec do_iret push top drop4 pop_reg assign value addr set_reg set_seg set_ctl set_flags set_mem fold_left rev app pusha_order regs segs ctl
    m_eax m_ecx m_edx m_ebx m_esp m_ebp m_esi m_edi m_cs m_ds m_es m_fs m_gs m_ss m_cr0 m_cr3 m_cr4 eflags bytes_at].

(** The registers of a context that swtch saves and loads. *)
Definition saved (r : reg) : option Z :=
  match r with EDI => Some 0 | ESI => Some 4 | EBX => Some 8 | EBP => Some 12 | _ => None end.

Definition apart (a n b k : Z) : Prop := a + n <= b \/ b + k <= a.

(** Stack arithmetic without wrap-around. *)
Ltac stack := asm_run;
  repeat match goal with |- context [u32 ?x] => lazymatch x with context [u32 _] => fail | _ => rewrite (u32_small x) by (unfold is_u32 in *; lia) end end.

(** Read back a word of memory: the store that wrote it, or one before. *)
Ltac mem_word := repeat first [
    rewrite ld32_st32_ne by lia
  | match goal with |- ld32 (st32 ?b ?a ?v) ?c = _ => replace c with a by lia; rewrite ld32_st32_eq by (auto || unfold is_u32; lia) end ].

Definition words_ok (m : machine) : Prop := forall r, is_u32 (regs m r).

Section swtch.
Context {A : CodeAddr}.

(** The context of a thread that is not running: [struct context]. *)
Record context_at (b : mem) (a : Z) (m : machine) (eip : Z) : Prop := {
  cx_edi : ld32 b a = regs m EDI;
  cx_esi : ld32 b (a + 4) = regs m ESI;
  cx_ebx : ld32 b (a + 8) = regs m EBX;
  cx_ebp : ld32 b (a + 12) = regs m EBP;
  cx_eip : ld32 b (a + CTX_EIP) = eip
}.

(** What [swtch] needs: [old] and [new] on the stack, and the context at [new]
    out of the way of the words that it writes. *)
Record swtch_call (m : machine) (old new : Z) : Prop := {
  sc_old : ld32 (bytes_at m) (regs m ESP + 4) = old;
  sc_new : ld32 (bytes_at m) (regs m ESP + 8) = new;
  sc_stack : 16 <= regs m ESP /\ regs m ESP + 12 <= 2 ^ 32;
  sc_range : 0 <= new /\ new + sizeof_context < 2 ^ 32 /\ 0 <= old /\ old + 4 <= 2 ^ 32;
  sc_apart : apart new sizeof_context (regs m ESP - 16) 16 /\ apart new sizeof_context old 4 /\ apart old 4 (regs m ESP - 16) 20
}.

Lemma run_app c1 c2 m m' : run c1 m = (m', Over, []) -> run (c1 ++ c2) m = run c2 m'.
Proof.
  revert m. induction c1 as [|i c1 IH]; intros m; cbn [run app]; [congruence|].
  destruct (exec i m) as [m1 []]; [apply IH|discriminate..].
Qed.

Lemma run_cons i c m m' : exec i m = (m', Over) -> run (i :: c) m = run c m'.
Proof. intros E. cbn [run]. by rewrite E. Qed.

Definition swtch_save : list instr := take 8 swtch.
Definition swtch_load : list instr := drop 8 swtch.

Lemma load_context m new : regs m ESP = new -> 0 <= new -> new + sizeof_context < 2 ^ 32 ->
  exists m', run swtch_load m = (m', Goes (ld32 (bytes_at m) (new + CTX_EIP)), []) /\
    context_at (bytes_at m) new m' (ld32 (bytes_at m) (new + CTX_EIP)) /\ regs m' ESP = new + sizeof_context /\
    segs m' = segs m /\ ctl m' = ctl m /\ eflags m' = eflags m /\ bytes_at m' = bytes_at m.
Proof.
  unfold sizeof_context, CTX_EIP. destruct m. intros E H1 H2. cbn in E. subst. unfold swtch_load, swtch. cbn [drop]. stack.
  replace (new + 4 + 4 + 4 + 4) with (new + 16) by lia. eexists. split; [reflexivity|].
  split_and!; [split|..]; asm_run; first [done|lia|f_equal; lia].
Qed.

Lemma save_context m old new : words_ok m -> swtch_call m old new -> let sp := regs m ESP in
  exists m', run swtch_save m = (m', Over, []) /\ regs m' ESP = new /\
    bytes_at m' = st32 (st32 (st32 (st32 (st32 (bytes_at m) (sp - 4) (regs m EBP)) (sp - 8) (regs m EBX)) (sp - 12) (regs m ESI)) (sp - 16) (regs m EDI)) old (sp - 16) /\
    segs m' = segs m /\ ctl m' = ctl m /\ eflags m' = eflags m.
Proof.
  intros Hw [E1 E2 [H1 H2] (H3 & H4 & H5 & H6) _] sp. unfold sizeof_context in *. destruct m. cbn in *. unfold swtch_save, swtch. cbn [take]. stack.
  rewrite E1, E2. eexists. split; [reflexivity|]. split_and!; try done. stack. repeat match goal with |- st32 _ _ _ = st32 _ _ _ => f_equal end; lia.
Qed.

Lemma swtch_run m old new : words_ok m -> swtch_call m old new ->
  exists m', run swtch m = (m', Goes (ld32 (bytes_at m) (new + CTX_EIP)), []) /\
    context_at (bytes_at m) new m' (ld32 (bytes_at m) (new + CTX_EIP)) /\ regs m' ESP = new + sizeof_context /\
    context_at (bytes_at m') (regs m ESP - 16) m (ld32 (bytes_at m) (regs m ESP)) /\ ld32 (bytes_at m') old = regs m ESP - 16 /\
    segs m' = segs m /\ ctl m' = ctl m /\ eflags m' = eflags m /\
    (forall a, ~ (regs m ESP - 16 <= a < regs m ESP) -> ~ (old <= a < old + 4) -> ld8 (bytes_at m') a = ld8 (bytes_at m) a).
Proof.
  intros Hw Hc. destruct (save_context m old new Hw Hc) as (m1 & R1 & S1 & B1 & G1 & G1a & G1b). destruct Hc as [E1 E2 [H1 H2] (H3 & H4 & H5 & H6) (A1 & A2 & A3)].
  set (sp := regs m ESP) in *. destruct (load_context m1 new S1 H3 H4) as (m2 & R2 & C2 & S2 & G2 & G3 & G4 & B2).
  unfold sizeof_context, apart, CTX_EIP in *. pose proof (fun r => Hw r) as W.
  assert (Hnew : forall k, 0 <= k <= 16 -> ld32 (bytes_at m1) (new + k) = ld32 (bytes_at m) (new + k)) by (intros k Hk; rewrite B1; mem_word; done).
  exists m2. split; [|split].
  - rewrite <- (Hnew 16) by lia. rewrite <- R2. change swtch with (swtch_save ++ swtch_load). by apply run_app.
  - destruct C2 as [C1 C2 C3 C4 C5]. unfold CTX_EIP in *. pose proof (Hnew 0 ltac:(lia)) as H0. rewrite Z.add_0_r in H0.
    split; unfold CTX_EIP; [by rewrite <- H0|..]; rewrite <- Hnew by lia; done.
  - rewrite B2, B1. pose proof (W EDI). pose proof (W ESI). pose proof (W EBX). pose proof (W EBP). split_and!; try congruence.
    + split; unfold CTX_EIP; mem_word; first [done|f_equal; lia].
    + rewrite ld32_st32_eq; [done|unfold is_u32; lia].
    + intros a Ha1 Ha2. rewrite !ld8_st32_ne by lia. done.
Qed.
End swtch.

(** ** Traps *)

(** Where a register is in [struct trapframe]; the stack pointer is the one of
    the code that was interrupted. *)
Definition tf_reg (r : reg) : Z :=
  match r with EDI => 0 | ESI => 4 | EBP => 8 | EBX => 16 | EDX => 20 | ECX => 24 | EAX => TF_EAX | ESP => TF_ESP end.
Definition tf_seg (s : sreg) : Z :=
  match s with GS => 32 | FS => 36 | ES => TF_ES | DS => TF_DS | CS => TF_CS | SS => TF_SS end.

Record trapframe_at (b : mem) (tf : Z) (m : machine) (eip : Z) : Prop := {
  tr_regs : forall r, ld32 b (tf + tf_reg r) = regs m r;
  tr_segs : forall s, ld32 b (tf + tf_seg s) = segs m s;
  tr_eip : ld32 b (tf + TF_EIP) = eip;
  tr_eflags : ld32 b (tf + TF_EFLAGS) = eflags m
}.

(** Registers hold words, segment registers hold selectors. *)
Record machine_ok (m : machine) : Prop := {
  mo_regs : words_ok m;
  mo_segs : forall s, 0 <= segs m s < 2 ^ 16;
  mo_eflags : is_u32 (eflags m)
}.

(** The code in user mode. *)
Definition in_user (m : machine) : Prop := Z.land (segs m CS) 3 = 3.

Lemma u16_low16 a v : u16 (low16 a v) = u16 v.
Proof. unfold low16, u16. rewrite Z.add_comm, Z.mod_add by lia. apply Z.mod_mod. lia. Qed.

(** Equal chains of stores. *)
Ltac stores := repeat match goal with |- st32 _ _ _ = st32 _ _ _ => f_equal end; try lia.

Section trap.
Context {A : CodeAddr}.

(** A trap with number [n] while the machine is at [eip]: the processor, then
    the code of the vector, up to the call of [trap]. *)
Definition trap_entry (ss0 sp0 : Z) (vectors : Z -> Z) (n : Z) (err : option Z) (eip : Z) (m : machine) : machine * leave * list instr :=
  match run (vector n) (deliver ss0 sp0 (idt vectors n) err eip m) with
  | (m', Jump _, _) => run alltraps m'
  | r => r
  end.

(** The memory at the call: the frame, the argument and the return address. *)
Definition entry_mem (sp0 n err eip : Z) (m : machine) : mem :=
  let b := st32 (bytes_at m) (sp0 - 4) (segs m SS) in
  let b := st32 b (sp0 - 8) (regs m ESP) in
  let b := st32 b (sp0 - 12) (eflags m) in
  let b := st32 b (sp0 - 16) (segs m CS) in
  let b := st32 b (sp0 - 20) eip in
  let b := st32 b (sp0 - 24) err in
  let b := st32 b (sp0 - 28) n in
  let b := st32 b (sp0 - 32) (segs m DS) in
  let b := st32 b (sp0 - 36) (segs m ES) in
  let b := st32 b (sp0 - 40) (segs m FS) in
  let b := st32 b (sp0 - 44) (segs m GS) in
  let b := st32 b (sp0 - 48) (regs m EAX) in
  let b := st32 b (sp0 - 52) (regs m ECX) in
  let b := st32 b (sp0 - 56) (regs m EDX) in
  let b := st32 b (sp0 - 60) (regs m EBX) in
  let b := st32 b (sp0 - 64) (sp0 - 44) in
  let b := st32 b (sp0 - 68) (regs m EBP) in
  let b := st32 b (sp0 - 72) (regs m ESI) in
  let b := st32 b (sp0 - 76) (regs m EDI) in
  let b := st32 b (sp0 - 80) (sp0 - 76) in
  st32 b (sp0 - 84) (return_to "trap").

Lemma trap_entry_run ss0 sp0 vectors n err eip m : in_user m -> 0 <= n < 256 -> (is_Some err <-> pushes_error n = true) -> 84 <= sp0 < 2 ^ 32 ->
  exists m', trap_entry ss0 sp0 vectors n err eip m = (m', Calls "trap", addl 4 ESP :: trapret) /\
    bytes_at m' = entry_mem sp0 n (default 0 err) eip m /\ regs m' ESP = sp0 - 84 /\
    (segs m' CS = Z.shiftl SEG_KCODE 3 /\ segs m' SS = ss0 /\ segs m' DS = Z.shiftl SEG_KDATA 3 /\ segs m' ES = Z.shiftl SEG_KDATA 3 /\
     segs m' FS = Z.shiftl SEG_KCPU 3 /\ segs m' GS = Z.shiftl SEG_KCPU 3) /\
    eflags m' = (if n =? T_SYSCALL then eflags m else Z.ldiff (eflags m) FL_IF).
Proof.
  unfold in_user, trap_entry, deliver, vector, idt. intros Hu Hn Herr Hsp. destruct m. cbn in Hu.
  destruct err as [e|], (pushes_error n) eqn:E;
    [|exfalso; by discriminate (proj1 Herr ltac:(by eexists))|exfalso; by destruct (proj2 Herr eq_refl)|]; cbn [negb app];
    (destruct (n =? T_SYSCALL); cbn [gd_trap gd_cs gd_off gd_dpl]).
  all: unfold alltraps, trapret, entry_mem; asm_run; rewrite Hu; change (Z.land (Z.shiftl SEG_KCODE 3) 3) with 0; change (3 =? 0) with false; stack.
  all: eexists; split; [reflexivity|]; asm_run; rewrite !u16_low16; split_and!; try reflexivity; stores; done.
Qed.

Lemma entry_frame sp0 n err eip m : machine_ok m -> is_u32 eip -> is_u32 err -> 0 <= n < 256 -> 84 <= sp0 < 2 ^ 32 ->
  let b := entry_mem sp0 n err eip m in let tf := sp0 - sizeof_tf in
  trapframe_at b tf m eip /\ ld32 b (tf + TF_TRAPNO) = n /\ ld32 b (tf + TF_ERR) = err /\ ld32 b (tf - 4) = tf /\
  (forall a, ~ (sp0 - 84 <= a < sp0) -> ld8 b a = ld8 (bytes_at m) a).
Proof.
  intros [Hr Hs Hf] He Herr Hn Hsp. unfold is_u32 in He, Herr.
  assert (Hs' : forall s, is_u32 (segs m s)) by (intros s; specialize (Hs s); unfold is_u32; lia). pose proof (fun r => Hr r) as Hr'. unfold words_ok in Hr.
  intros b tf. unfold tf, sizeof_tf, TF_TRAPNO, TF_ERR. split_and!; [split| | | |].
  - intros r. destruct r; unfold b, entry_mem, tf_reg, TF_EAX, TF_ESP; mem_word; done.
  - intros s. destruct s; unfold b, entry_mem, tf_seg, TF_ES, TF_DS, TF_CS, TF_SS; mem_word; done.
  - unfold b, entry_mem, TF_EIP. by mem_word.
  - unfold b, entry_mem, TF_EFLAGS. by mem_word.
  - unfold b, entry_mem. by mem_word.
  - unfold b, entry_mem. by mem_word.
  - unfold b, entry_mem. by mem_word.
  - intros a Ha. unfold b, entry_mem. by rewrite !ld8_st32_ne by lia.
Qed.

(** [trapret] with the stack pointer at a frame of user code: the machine is
    as the frame says. *)
Lemma trapret_run m tf : regs m ESP = tf -> 0 <= tf -> tf + sizeof_tf < 2 ^ 32 -> Z.land (segs m CS) 3 = 0 ->
  Z.land (u16 (ld32 (bytes_at m) (tf + TF_CS))) 3 = 3 ->
  exists m', run trapret m = (m', Goes (ld32 (bytes_at m) (tf + TF_EIP)), []) /\
    (forall r, regs m' r = ld32 (bytes_at m) (tf + tf_reg r)) /\ (forall s, segs m' s = u16 (ld32 (bytes_at m) (tf + tf_seg s))) /\
    eflags m' = ld32 (bytes_at m) (tf + TF_EFLAGS) /\ ctl m' = ctl m /\ bytes_at m' = bytes_at m.
Proof.
  unfold sizeof_tf, TF_CS, TF_EIP, TF_EFLAGS. intros E H0 H1 Hk Hu. destruct m. cbn in E, Hk, Hu. subst. unfold trapret. stack.
  replace (tf + 4 + 4 + 4 + 4 + 4 + 4 + 4 + 4 + 4 + 4 + 4 + 4 + 8 + 4) with (tf + 60) by lia. rewrite Hu, Hk. change (3 =? 0) with false. cbv iota.
  replace (tf + 4 + 4 + 4 + 4 + 4 + 4 + 4 + 4 + 4 + 4 + 4 + 4 + 8) with (tf + 56) by lia. eexists. split; [reflexivity|].
  split_and!; asm_run; try done; [intros r; destruct r|intros s; destruct s|];
    cbv [tf_reg tf_seg TF_EAX TF_ESP TF_ES TF_DS TF_CS TF_SS];
    match goal with |- context [ld32 _ ?a] => match goal with |- _ = ?rhs => match rhs with context [ld32 _ ?c] => replace c with a by lia end end end; done.
Qed.
End trap.

(** ** The frame of a new process *)

Lemma ld32_shift b b' a a' : (forall i, 0 <= i < 4 -> ld8 b' (a' + i) = ld8 b (a + i)) -> ld32 b' a' = ld32 b a.
Proof.
  intros H. unfold ld32. pose proof (H 0 ltac:(lia)) as H0. rewrite !Z.add_0_r in H0. rewrite H0, !H by lia. done.
Qed.

(** A copy of a frame with 0 in %eax, word by word. *)
Lemma copied_frame b b' tf ptf :
  (forall j, 0 <= j < sizeof_tf -> ld8 b' (tf + j) = if decide (TF_EAX <= j < TF_EAX + 4) then 0 else ld8 b (ptf + j)) ->
  ld32 b' (tf + TF_EAX) = 0 /\ forall o, 0 <= o -> o + 4 <= sizeof_tf -> o + 4 <= TF_EAX \/ TF_EAX + 4 <= o -> ld32 b' (tf + o) = ld32 b (ptf + o).
Proof.
  unfold sizeof_tf, TF_EAX. intros H. split.
  - unfold ld32. rewrite <- !Z.add_assoc. cbn [Z.add Pos.add Pos.succ]. rewrite !H by lia. rewrite !decide_True by lia. done.
  - intros o H1 H2 H3. apply ld32_shift. intros i Hi. rewrite <- !Z.add_assoc, H by lia. by rewrite decide_False by lia.
Qed.

(** ** System calls and the first program *)

Lemma flags_set x y a : Z.land y a = a -> Z.land (Z.lor x y) a = a.
Proof.
  intros H. apply Z.bits_inj'. intros k Hk. apply (f_equal (fun z => Z.testbit z k)) in H. rewrite Z.land_spec in H.
  rewrite Z.land_spec, Z.lor_spec. destruct (Z.testbit x k), (Z.testbit y k), (Z.testbit a k); done.
Qed.

Section stubs.
Context {A : CodeAddr}.

(** A stub traps with its number in %eax; the arguments of its caller are where
    [argint] looks for them, behind the return address. *)
Lemma usys_run num m : is_u32 num ->
  exists m', run (usys num) m = (m', Traps T_SYSCALL, [ret]) /\ regs m' EAX = num /\
    (forall r, r <> EAX -> regs m' r = regs m r) /\ bytes_at m' = bytes_at m.
Proof.
  intros H. destruct m. unfold usys. stack. eexists. split; [reflexivity|]. split_and!; try done; asm_run. by intros [].
Qed.

(** The first program calls [exec(init, argv)]. *)
Lemma initcode_run init argv m : is_u32 init -> is_u32 argv -> 12 <= regs m ESP < 2 ^ 32 ->
  exists m', run (initcode_start init argv) m = (m', Traps T_SYSCALL, []) /\ regs m' EAX = 7 /\
    ld32 (bytes_at m') (regs m' ESP + 4) = init /\ ld32 (bytes_at m') (regs m' ESP + 8) = argv.
Proof.
  intros Hi Ha Hsp. destruct m. cbn in Hsp. unfold initcode_start. stack. eexists. split; [reflexivity|].
  split_and!; asm_run; try done; mem_word; try done; rewrite u32_small by (unfold is_u32 in *; lia); done.
Qed.

(** ** Entry *)

(** The processor that boots: paging with [entrypgdir], the stack of the kernel,
    and on to [main]. *)
Lemma entry_run dir stk main m : is_u32 (stk + KSTACKSIZE) -> is_u32 main -> is_u32 (V2P dir) ->
  exists m', run (entry dir stk main) m = (m', Goes main, []) /\ regs m' ESP = stk + KSTACKSIZE /\ ctl m' CR3 = V2P dir /\
    Z.land (ctl m' CR0) CR0_PG = CR0_PG /\ Z.land (ctl m' CR4) CR4_PSE = CR4_PSE /\ bytes_at m' = bytes_at m.
Proof.
  unfold is_u32. intros H1 H2 H3. destruct m. unfold entry. stack. eexists. split; [reflexivity|]. split_and!; asm_run; try done.
  - by apply flags_set.
  - by apply flags_set.
Qed.

(** A processor that startothers has started reads its stack, its entry point
    and its page directory from the words below its code. *)
Lemma start32_run start m : 12 <= start -> let b := bytes_at m in 4 <= ld32 b (start - 4) < 2 ^ 32 ->
  exists m', run (start32 start) m = (m', Goes (ld32 b (start - 8)), []) /\ regs m' ESP = ld32 b (start - 4) - 4 /\ ctl m' CR3 = ld32 b (start - 12) /\
    Z.land (ctl m' CR0) CR0_PG = CR0_PG /\ Z.land (ctl m' CR4) CR4_PSE = CR4_PSE /\
    segs m' DS = Z.shiftl SEG_KDATA 3 /\ segs m' SS = Z.shiftl SEG_KDATA 3.
Proof.
  intros H1 b H2. destruct m. cbn in *. unfold start32. stack. eexists. split; [reflexivity|].
  split_and!; asm_run; rewrite ?u16_low16; try done; by apply flags_set.
Qed.
End stubs.
