(* ===== verification/Regex.v ===== *)
(** * The pattern matcher of grep (grep.c)

    [match_], [matchhere] and [matchstar] work on the bytes of C strings before
    their NUL.  They are compared with a reference: the pattern is read as a
    list of items, and a list of items denotes a set of strings. *)

From S2P Require Import Prelude.

Definition CARET : Z := 94.
Definition DOT : Z := 46.
Definition STAR : Z := 42.
Definition DOLLAR : Z := 36.

(** [matchstar(c, re, text)]; [here] is [matchhere(re, _)]. *)
Fixpoint matchstar (here : list Z -> bool) (c : Z) (text : list Z) : bool :=
  if here text then true
  else match text with
       | [] => false
       | x :: text' => if (x =? c) || (c =? DOT) then matchstar here c text' else false
       end.

Fixpoint matchhere (re text : list Z) : bool :=
  match re with
  | [] => true
  | c :: re1 =>
      match re1 with
      | d :: re2 =>
          if d =? STAR then matchstar (matchhere re2) c text
          else match text with
               | x :: text' => if (c =? DOT) || (c =? x) then matchhere re1 text' else false
               | [] => false
               end
      | [] =>
          if c =? DOLLAR then match text with [] => true | _ :: _ => false end
          else match text with
               | x :: text' => if (c =? DOT) || (c =? x) then matchhere re1 text' else false
               | [] => false
               end
      end
  end.

(** The [do ... while] of [match]: the empty string is tried, too. *)
Fixpoint match_from (re text : list Z) : bool :=
  if matchhere re text then true
  else match text with
       | [] => false
       | _ :: text' => match_from re text'
       end.

Definition match_ (re text : list Z) : bool :=
  match re with
  | c :: re' => if c =? CARET then matchhere re' text else match_from re text
  | [] => match_from re text
  end.

(** ** The reference *)

Inductive atom := Any | Lit (c : Z).
Inductive item := One (a : atom) | Many (a : atom) | AtEnd.

Definition atom_of (c : Z) : atom := if c =? DOT then Any else Lit c.

Fixpoint items (re : list Z) : list item :=
  match re with
  | [] => []
  | c :: re1 =>
      match re1 with
      | d :: re2 => if d =? STAR then Many (atom_of c) :: items re2 else One (atom_of c) :: items re1
      | [] => if c =? DOLLAR then [AtEnd] else [One (atom_of c)]
      end
  end.

Definition accepts (a : atom) (x : Z) : Prop := match a with Any => True | Lit c => x = c end.

(** The items match the string [w] when [rest] follows it. *)
Inductive denotes (rest : list Z) : list item -> list Z -> Prop :=
| den_nil : denotes rest [] []
| den_one a its x w : accepts a x -> denotes rest its w -> denotes rest (One a :: its) (x :: w)
| den_many a its u w : Forall (accepts a) u -> denotes rest its w -> denotes rest (Many a :: its) (u ++ w)
| den_end its : rest = [] -> denotes rest (AtEnd :: its) [].

Definition prefix_match (its : list item) (text : list Z) : Prop :=
  exists w rest, text = w ++ rest /\ denotes rest its w.

Lemma accepts_of c x : accepts (atom_of c) x <-> (c =? DOT) || (c =? x) = true.
Proof.
  unfold atom_of. destruct (Z.eqb_spec c DOT) as [->|Hc]; cbn; [done|].
  rewrite Z.eqb_eq. split; congruence.
Qed.

(** Any number of instances of the atom, then the rest of the pattern. *)
Lemma matchstar_spec here c text :
  matchstar here c text = true <->
  exists u v, text = u ++ v /\ Forall (accepts (atom_of c)) u /\ here v = true.
Proof.
  induction text as [|x text IH]; cbn.
  - split.
    + destruct (here []) eqn:E; [|done]. intros _. by exists [], [].
    + intros (u & v & Huv & _ & Hv). symmetry in Huv. apply app_nil in Huv as [-> ->]. by rewrite Hv.
  - destruct (here (x :: text)) eqn:E; [split; [intros _; by exists [], (x :: text)|done]|].
    rewrite (orb_comm (x =? c)), (Z.eqb_sym x c). split.
    + destruct ((c =? DOT) || (c =? x)) eqn:Ha; [|done]. intros (u & v & -> & Hu & Hv)%IH.
      exists (x :: u), v. split_and!; [done| |done]. constructor; [by apply accepts_of|done].
    + intros (u & v & Huv & Hu & Hv). destruct u as [|y u]; cbn in Huv; [subst v; congruence|].
      injection Huv as -> ->. apply Forall_cons in Hu as [Hy Hu]. rewrite (proj1 (accepts_of c y) Hy).
      apply IH. by exists u, v.
Qed.

Lemma prefix_one a its text :
  prefix_match (One a :: its) text <-> exists x text', text = x :: text' /\ accepts a x /\ prefix_match its text'.
Proof.
  split.
  - intros (w & rest & -> & Hd). inversion Hd as [|a' its' x w' Hx Hw| |]; subst. exists x, (w' ++ rest).
    split_and!; [done|done|]. by exists w', rest.
  - intros (x & text' & -> & Hx & w & rest & -> & Hd). exists (x :: w), rest. split; [done|]. by constructor.
Qed.

Lemma prefix_many a its text :
  prefix_match (Many a :: its) text <-> exists u v, text = u ++ v /\ Forall (accepts a) u /\ prefix_match its v.
Proof.
  split.
  - intros (w & rest & -> & Hd). inversion Hd as [| |a' its' u w' Hu Hw|]; subst. exists u, (w' ++ rest).
    split_and!; [by rewrite app_assoc|done|]. by exists w', rest.
  - intros (u & v & -> & Hu & w & rest & -> & Hd). exists (u ++ w), rest. split; [by rewrite app_assoc|]. by constructor.
Qed.

Lemma prefix_end text : prefix_match [AtEnd] text <-> text = [].
Proof.
  split.
  - intros (w & rest & -> & Hd). inversion Hd; subst. done.
  - intros ->. exists [], []. split; [done|]. by constructor.
Qed.

Lemma prefix_nil text : prefix_match [] text.
Proof. exists [], text. split; [done|constructor]. Qed.

(** One ordinary character of the pattern. *)
Lemma one_step c text (rec : list Z -> bool) its :
  (forall t, rec t = true <-> prefix_match its t) ->
  match text with x :: text' => if (c =? DOT) || (c =? x) then rec text' else false | [] => false end = true <->
  prefix_match (One (atom_of c) :: its) text.
Proof.
  intros Hrec. rewrite prefix_one. destruct text as [|x text]; [split; [done|by intros (? & ? & ? & _)]|]. split.
  - destruct ((c =? DOT) || (c =? x)) eqn:E; [|done]. intros H%Hrec. exists x, text. by rewrite accepts_of.
  - intros (y & text' & [= <- <-] & Hy & Ht). rewrite (proj1 (accepts_of c x) Hy). by apply Hrec.
Qed.

Lemma matchhere_spec re : forall text, matchhere re text = true <-> prefix_match (items re) text.
Proof.
  induction re as [re IH] using (induction_ltof1 _ (@length Z)). unfold ltof in IH. intros text.
  destruct re as [|c [|d re]]; cbn [matchhere items].
  - split; [intros _; apply prefix_nil|done].
  - destruct (Z.eqb_spec c DOLLAR) as [->|Hc].
    + rewrite prefix_end. by destruct text.
    + apply (one_step c text (fun _ => true) []). intros t. split; [intros _; apply prefix_nil|done].
  - destruct (Z.eqb_spec d STAR) as [->|Hd].
    + rewrite matchstar_spec, prefix_many. split; intros (u & v & E & Hu & Hv); exists u, v; (split_and!; [done|done|]).
      * apply IH; [cbn; lia|done].
      * apply IH; [cbn; lia|done].
    + apply (one_step c text (matchhere (d :: re))). apply IH. cbn. lia.
Qed.

Lemma match_from_spec re text :
  match_from re text = true <-> exists u v, text = u ++ v /\ prefix_match (items re) v.
Proof.
  induction text as [|x text IH]; cbn.
  - destruct (matchhere re []) eqn:E.
    + split; [intros _|done]. exists [], []. split; [done|]. by apply matchhere_spec.
    + split; [done|]. intros (u & v & Huv & Hv). symmetry in Huv. apply app_nil in Huv as [-> ->].
      apply matchhere_spec in Hv. congruence.
  - destruct (matchhere re (x :: text)) eqn:E.
    + split; [intros _|done]. exists [], (x :: text). split; [done|]. by apply matchhere_spec.
    + rewrite IH. split.
      * intros (u & v & -> & Hv). by exists (x :: u), v.
      * intros ([|y u] & v & Huv & Hv); cbn in Huv.
        -- subst v. apply matchhere_spec in Hv. congruence.
        -- injection Huv as -> ->. by exists u, v.
Qed.
