(* ===== verification/UserProg.v ===== *)
(** * User programs and their system calls

    A user program is a tree of system calls (user.h): each call waits for the
    kernel's reply, [exit] ends the program.  What a program does is described
    by its runs: the calls it makes and the replies it gets.  A theorem about a
    program speaks about all runs in which the replies are those of a kernel. *)

From Stdlib Require Import Ascii String.
From S2P Require Import Prelude State Monad Mem Spinlock ConsoleOut.

(** The calls of user.h with their arguments; a buffer is passed as its bytes. *)
Inductive syscall :=
| SFork
| SWait
| SPipe
| SWrite (fd : Z) (data : list Z)
| SRead (fd n : Z)
| SClose (fd : Z)
| SKill (pid : Z)
| SExec (path : list Z) (argv : list (list Z))
| SOpen (path : list Z) (mode : Z)
| SMknod (path : list Z) (major minor : Z)
| SUnlink (path : list Z)
| SFstat (fd : Z)
| SLink (old new : list Z)
| SMkdir (path : list Z)
| SChdir (path : list Z)
| SDup (fd : Z)
| SGetpid
| SSbrk (n : Z)
| SSleep (n : Z)
| SUptime
| SGetppid
| SNice
| SWait2
| SWait3
| SSetcid (cid : Z).

(** The result, and what the kernel stores through pointers: the bytes of
    [read], the descriptors of [pipe], the fields of [fstat]. *)
Record reply := MkReply { r_val : Z; r_data : list Z }.

Inductive prog (A : Type) : Type :=
| Done (a : A)
| Exit
| Stuck (why : string)
| Call (c : syscall) (k : reply -> prog A).
Arguments Done {A}. Arguments Exit {A}. Arguments Stuck {A}. Arguments Call {A}.

Fixpoint pbind {A B} (m : prog A) (f : A -> prog B) : prog B :=
  match m with
  | Done a => f a
  | Exit => Exit
  | Stuck why => Stuck why
  | Call c k => Call c (fun r => pbind (k r) f)
  end.

Notation "'let*' x := m 'in' k" := (pbind m (fun x => k))
  (at level 200, x pattern at level 0, m at level 200, k at level 200, right associativity).
Notation "'do*' m ; k" := (pbind m (fun _ => k))
  (at level 200, m at level 200, k at level 200, right associativity).

Definition sys (c : syscall) : prog reply := Call c Done.
Definition sysv (c : syscall) : prog Z := Call c (fun r => Done (r_val r)).

(** ** Runs *)

Definition trace : Type := list (syscall * reply).
Inductive final (A : Type) : Type := Finished (a : A) | Exited.
Arguments Finished {A}. Arguments Exited {A}.

Inductive runs {A} : prog A -> trace -> final A -> Prop :=
| runs_done a : runs (Done a) [] (Finished a)
| runs_exit : runs Exit [] Exited
| runs_call c k r t o : runs (k r) t o -> runs (Call c k) ((c, r) :: t) o.

(** The run of a program on a list of replies, if they are enough. *)
Fixpoint play {A} (rs : list reply) (p : prog A) {struct p} : option (trace * final A * list reply) :=
  match p with
  | Done a => Some ([], Finished a, rs)
  | Exit => Some ([], Exited, rs)
  | Stuck _ => None
  | Call c k =>
      match rs with
      | [] => None
      | r :: rs =>
          match play rs (k r) with
          | Some (t, o, rs') => Some ((c, r) :: t, o, rs')
          | None => None
          end
      end
  end.

Lemma play_runs {A} (p : prog A) : forall rs t o rs', play rs p = Some (t, o, rs') -> runs p t o.
Proof.
  induction p as [a| |why|c k IH]; intros rs t o rs' H; cbn in H.
  - injection H as <- <- _. constructor.
  - injection H as <- <- _. constructor.
  - discriminate H.
  - destruct rs as [|r rs]; [discriminate H|].
    destruct (play rs (k r)) as [[[t1 o1] rs1]|] eqn:E; [|discriminate H]. injection H as <- <- _.
    constructor. by eapply IH.
Qed.

Lemma runs_bind_inv {A B} (m : prog A) (f : A -> prog B) : forall t o,
  runs (pbind m f) t o ->
  (exists a t1 t2, t = t1 ++ t2 /\ runs m t1 (Finished a) /\ runs (f a) t2 o) \/
  (o = Exited /\ runs m t Exited).
Proof.
  induction m as [a| |why|c k IH]; intros t o H; cbn in H.
  - left. exists a, [], t. split_and!; [done|constructor|done].
  - inversion H; subst. right. split; [done|constructor].
  - inversion H.
  - inversion H as [| |c' k' r t' o' Hr]; subst. destruct (IH r t' o Hr) as [(a & t1 & t2 & -> & H1 & H2)|[-> H1]].
    + left. exists a, ((c, r) :: t1), t2. split_and!; [done|by constructor|done].
    + right. split; [done|by constructor].
Qed.

Lemma runs_bind {A B} (m : prog A) (f : A -> prog B) t1 a : runs m t1 (Finished a) ->
  forall t2 o, runs (f a) t2 o -> runs (pbind m f) (t1 ++ t2) o.
Proof.
  intros H. remember (Finished a) as fa eqn:E. induction H as [b| |c k r t o H IH]; intros t2 o2 H2.
  - injection E as ->. done.
  - discriminate E.
  - cbn. constructor. by apply IH.
Qed.

Lemma runs_sys {B} c (f : reply -> prog B) t o :
  runs (pbind (sys c) f) t o -> exists r t', t = (c, r) :: t' /\ runs (f r) t' o.
Proof. intros H. inversion H; subst. eauto. Qed.

Lemma runs_sysv {B} c (f : Z -> prog B) t o :
  runs (pbind (sysv c) f) t o -> exists r t', t = (c, r) :: t' /\ runs (f (r_val r)) t' o.
Proof. intros H. inversion H; subst. eauto. Qed.

(** What was written to a descriptor, and what was read from it. *)
Definition written (fd : Z) (t : trace) : list Z :=
  concat (map (fun e => match fst e with SWrite fd' data => if fd' =? fd then data else [] | _ => [] end) t).
Definition readin (fd : Z) (t : trace) : list Z :=
  concat (map (fun e => match fst e with SRead fd' _ => if fd' =? fd then r_data (snd e) else [] | _ => [] end) t).

Arguments written : simpl never.
Arguments readin : simpl never.

Lemma written_nil fd : written fd [] = [].
Proof. done. Qed.
Lemma readin_nil fd : readin fd [] = [].
Proof. done. Qed.
Lemma written_write fd fd' data r t : written fd ((SWrite fd' data, r) :: t) = (if fd' =? fd then data else []) ++ written fd t.
Proof. done. Qed.
Lemma written_read fd fd' n r t : written fd ((SRead fd' n, r) :: t) = written fd t.
Proof. done. Qed.
Lemma readin_read fd fd' n r t : readin fd ((SRead fd' n, r) :: t) = (if fd' =? fd then r_data r else []) ++ readin fd t.
Proof. done. Qed.
Lemma readin_write fd fd' data r t : readin fd ((SWrite fd' data, r) :: t) = readin fd t.
Proof. done. Qed.

Lemma fd_written_app fd t1 t2 : written fd (t1 ++ t2) = written fd t1 ++ written fd t2.
Proof. unfold written. by rewrite map_app, concat_app. Qed.
Lemma readin_app fd t1 t2 : readin fd (t1 ++ t2) = readin fd t1 ++ readin fd t2.
Proof. unfold readin. by rewrite map_app, concat_app. Qed.

(** ** What the kernel promises

    [read] returns at most [n] bytes, 0 at the end of the file and -1 on an
    error; a [write] that succeeds takes all the bytes. *)
Definition reply_ok (e : syscall * reply) : Prop :=
  match fst e with
  | SRead _ n =>
      (r_val (snd e) = -1 /\ r_data (snd e) = []) \/
      (r_val (snd e) = Z.of_nat (length (r_data (snd e))) /\ r_val (snd e) <= Z.max 0 n /\
       Forall (fun b => 0 <= b < 256) (r_data (snd e)))
  | SWrite _ data => r_val (snd e) = -1 \/ r_val (snd e) = Z.of_nat (length data)
  | _ => True
  end.

Definition trace_ok (t : trace) : Prop := Forall reply_ok t.

#[export] Hint Rewrite written_nil readin_nil written_write written_read readin_read readin_write fd_written_app readin_app Z.eqb_refl : traces.

Lemma trace_ok_app t1 t2 : trace_ok (t1 ++ t2) <-> trace_ok t1 /\ trace_ok t2.
Proof. apply Forall_app. Qed.

(** Step through a run. *)
Ltac run_inv H :=
  match type of H with
  | runs (Done _) _ _ => inversion H; subst; clear H
  | runs Exit _ _ => inversion H; subst; clear H
  | runs (Stuck _) _ _ => inversion H
  | runs (Call _ _) _ _ => let H' := fresh H in inversion H as [| |? ? ? ? ? H']; subst; clear H; cbv beta in H'; rename H' into H
  end.
