(* ===== verification/Ulib.v ===== *)
(** * The user library (ulib.c, printf.c)

    The string functions on the bytes of the process's memory; [gets], [stat]
    and [printf] as programs; [atoi].  A loop that runs to a NUL has a bound on
    the bytes it may look at, which a string of that length does not reach. *)

From Stdlib Require Import Ascii String.
From S2P Require Import Prelude State Monad Mem Spinlock ConsoleOut UserProg.

(** ** ulib.c *)

Fixpoint ustrcpy (bound : nat) (m : mem) (s t : Z) : option mem :=
  match bound with
  | O => None
  | S b =>
      let c := ld8 m t in
      let m := st8 m s c in
      if c =? 0 then Some m else ustrcpy b m (s + 1) (t + 1)
  end.

Fixpoint ustrcmp (bound : nat) (m : mem) (p q : Z) : option Z :=
  match bound with
  | O => None
  | S b =>
      if negb (ld8 m p =? 0) && (ld8 m p =? ld8 m q) then ustrcmp b m (p + 1) (q + 1)
      else Some (ld8 m p - ld8 m q)
  end.

Fixpoint ustrlen_loop (bound : nat) (m : mem) (s n : Z) : option Z :=
  match bound with
  | O => None
  | S b => if ld8 m (s + n) =? 0 then Some n else ustrlen_loop b m s (n + 1)
  end.
Definition ustrlen (bound : nat) (m : mem) (s : Z) : option Z := ustrlen_loop bound m s 0.

Definition umemset (m : mem) (dst c n : Z) : mem := stosb m dst c (Z.to_nat n).

(** The address of the first [c], or 0. *)
Fixpoint ustrchr (bound : nat) (m : mem) (s c : Z) : option Z :=
  match bound with
  | O => None
  | S b =>
      if ld8 m s =? 0 then Some 0
      else if ld8 m s =? u8 c then Some s
      else ustrchr b m (s + 1) c
  end.

(** The bytes go up from the first one, wherever the areas lie. *)
Definition umemmove (m : mem) (vdst vsrc n : Z) : mem := copy_up m vdst vsrc (Z.to_nat n).

Definition CR : Z := 13.

(** The characters that [gets] has put in [buf] before the NUL. *)
Fixpoint gets_loop (n : nat) (i max : Z) : prog (list Z) :=
  match n with
  | O => Stuck "gets"
  | S n' =>
      if i + 1 <? max then
        let* r := sys (SRead 0 1) in
        if r_val r <? 1 then Done []
        else
          let c := hd 0 (r_data r) in
          if (c =? NL) || (c =? CR) then Done [c]
          else let* l := gets_loop n' (i + 1) max in Done (c :: l)
      else Done []
  end.
Definition gets (max : Z) : prog (list Z) := gets_loop (S (Z.to_nat max)) 0 max.

Definition O_RDONLY : Z := 0x000.
Definition O_WRONLY : Z := 0x001.
Definition O_RDWR : Z := 0x002.
Definition O_CREATE : Z := 0x200.

(** The result and the fields type, dev, ino, nlink and size of [struct stat]. *)
Definition stat (n : list Z) : prog reply :=
  let* fd := sysv (SOpen n O_RDONLY) in
  if fd <? 0 then Done (MkReply (-1) [])
  else
    let* r := sys (SFstat fd) in
    do* sysv (SClose fd);
    Done r.

Fixpoint atoi_loop (s : list Z) (n : Z) : Z :=
  match s with
  | c :: s' => if (48 <=? c) && (c <=? 57) then atoi_loop s' (i32 (n * 10 + c - 48)) else n
  | [] => n
  end.
Definition atoi (s : list Z) : Z := atoi_loop s 0.

(** ** printf.c *)

Definition putc (fd c : Z) : prog unit := do* sysv (SWrite fd [u8 c]); Done tt.

Fixpoint puts (fd : Z) (l : list Z) : prog unit :=
  match l with
  | [] => Done tt
  | c :: l' => do* putc fd c; puts fd l'
  end.

Definition udigits : list Z := bytes "0123456789ABCDEF".

(** [buf] from its end, as the last loop of [printint] writes it. *)
Definition uprintint_chars (xx base : Z) (sgn : bool) : list Z :=
  let neg := sgn && (xx <? 0) in
  let x := if neg then u32 (- xx) else u32 xx in
  reverse (digit_loop 16 udigits x base ++ (if neg then [ch "-"] else [])).

Definition uprintint (fd xx base : Z) (sgn : bool) : prog unit := puts fd (uprintint_chars (i32 xx) base sgn).

(** [state] is 0 or '%'; an argument of the wrong kind or a missing one is
    undefined behaviour. *)
Fixpoint printf_loop (fd : Z) (state : bool) (fmt : list Z) (args : list carg) : prog unit :=
  match fmt with
  | [] => Done tt
  | c :: fmt' =>
      if negb state then
        if c =? ch "%" then printf_loop fd true fmt' args
        else do* putc fd c; printf_loop fd false fmt' args
      else if c =? ch "d" then
        match args with
        | AInt z :: args => do* uprintint fd z 10 true; printf_loop fd false fmt' args
        | _ => Stuck "printf argument"
        end
      else if (c =? ch "x") || (c =? ch "p") then
        match args with
        | AInt z :: args => do* uprintint fd z 16 false; printf_loop fd false fmt' args
        | _ => Stuck "printf argument"
        end
      else if c =? ch "s" then
        match args with
        | AStr s :: args =>
            do* puts fd (match s with None => bytes "(null)" | Some s => s end);
            printf_loop fd false fmt' args
        | _ => Stuck "printf argument"
        end
      else if c =? ch "c" then
        match args with
        | AInt z :: args => do* putc fd z; printf_loop fd false fmt' args
        | _ => Stuck "printf argument"
        end
      else if c =? ch "%" then do* putc fd c; printf_loop fd false fmt' args
      else do* putc fd (ch "%"); do* putc fd c; printf_loop fd false fmt' args
  end.
Definition printf (fd : Z) (fmt : list Z) (args : list carg) : prog unit := printf_loop fd false fmt args.

Arguments printf : simpl never.

(** A string literal that ends in a newline. *)
Definition line (s : string) : list Z := bytes s ++ [NL].
