(* ===== verification/UlibFacts.v ===== *)
(** * The user library: its functions and their meaning

    The pointer loops against the strings they reach, [printf] against a
    reading of its format as directives, and [atoi] against [printint]. *)

From Stdlib Require Import Ascii String.
From S2P Require Import Prelude State Monad Mem Spinlock ConsoleOut UserProg Ulib.

(** ** Strings *)

Lemma ustrcpy_cstr bound : forall m s t l,
  mem_ok m -> cstr m t l -> (length l < bound)%nat -> s + Z.of_nat (length l) < t \/ t + Z.of_nat (length l) < s ->
  exists m', ustrcpy bound m s t = Some m' /\ cstr m' s l /\
    forall a, ~ (s <= a <= s + Z.of_nat (length l)) -> ld8 m' a = ld8 m a.
Proof.
  induction bound as [|b IH]; intros m s t l Hm Hl Hb Hd; [lia|]. cbn [ustrcpy]. destruct l as [|c l].
  - apply cstr_nil in Hl. rewrite Hl. cbn. eexists. split_and!; [done|apply cstr_nil; by rewrite ld8_st8_eq|].
    intros a Ha. cbn in Ha. by rewrite ld8_st8_ne by lia.
  - apply cstr_cons in Hl as (Hc & Hc0 & Hl). rewrite Hc, (proj2 (Z.eqb_neq c 0)) by done. cbn [length] in *.
    destruct (IH (st8 m s c) (s + 1) (t + 1) l) as (m' & H1 & H2 & H3); [by apply mem_ok_st8|apply cstr_st8; [lia|done]|lia|lia|].
    exists m'. split_and!; [done| |].
    + apply cstr_cons. split_and!; [|done|done]. rewrite H3, ld8_st8_eq by lia. apply u8_small.
      rewrite <- Hc. by apply ld8_range.
    + intros a Ha. rewrite H3 by lia. by rewrite ld8_st8_ne by lia.
Qed.

(** The strings agree on [pre] and then differ, or both end. *)
Lemma ustrcmp_cstr bound : forall m p q pre r1 r2,
  cstr m p (pre ++ r1) -> cstr m q (pre ++ r2) -> (length pre < bound)%nat ->
  (r1 <> [] -> hd 0 r1 <> hd 0 r2) ->
  ustrcmp bound m p q = Some (hd 0 r1 - hd 0 r2).
Proof.
  induction bound as [|b IH]; intros m p q pre r1 r2 H1 H2 Hb Hd; [lia|]. cbn [ustrcmp]. destruct pre as [|c pre]; cbn in H1, H2.
  - assert (E1 : ld8 m p = hd 0 r1) by (destruct r1; [by apply cstr_nil|by apply cstr_cons in H1 as (? & _)]).
    assert (E2 : ld8 m q = hd 0 r2) by (destruct r2; [by apply cstr_nil|by apply cstr_cons in H2 as (? & _)]).
    rewrite E1, E2. destruct r1 as [|c r1]; [done|]. cbn [hd] in *.
    rewrite (proj2 (Z.eqb_neq c (hd 0 r2))) by (by apply Hd). by rewrite andb_false_r.
  - apply cstr_cons in H1 as (E1 & Hc & H1). apply cstr_cons in H2 as (E2 & _ & H2).
    rewrite E1, E2, Z.eqb_refl, (proj2 (Z.eqb_neq c 0)) by done. cbn [negb andb]. apply IH with pre; [done|done|cbn in Hb; lia|done].
Qed.

Lemma ustrlen_loop_cstr bound : forall m s n l,
  cstr m (s + n) l -> (length l < bound)%nat -> ustrlen_loop bound m s n = Some (n + Z.of_nat (length l)).
Proof.
  induction bound as [|b IH]; intros m s n l Hl Hb; [lia|]. cbn [ustrlen_loop]. destruct l as [|c l].
  - apply cstr_nil in Hl. rewrite Hl. cbn. f_equal. lia.
  - apply cstr_cons in Hl as (-> & Hc & Hl). rewrite (proj2 (Z.eqb_neq c 0)) by done. cbn [length] in *.
    rewrite (IH m s (n + 1) l); [f_equal; lia|by rewrite Z.add_assoc|lia].
Qed.

Lemma ustrchr_cstr bound : forall m s l c,
  cstr m s l -> (length l < bound)%nat -> 0 <= c < 256 -> 0 < s ->
  ustrchr bound m s c = Some (match list_find (fun x => x = c) l with Some (i, _) => s + Z.of_nat i | None => 0 end).
Proof.
  induction bound as [|b IH]; intros m s l c Hl Hb Hc Hs; [lia|]. cbn [ustrchr]. destruct l as [|x l].
  - apply cstr_nil in Hl. by rewrite Hl.
  - apply cstr_cons in Hl as (-> & Hx & Hl). rewrite (proj2 (Z.eqb_neq x 0)) by done. rewrite u8_small by done.
    cbn [list_find length] in *. destruct (Z.eqb_spec x c) as [->|Hne].
    + rewrite decide_True by done. f_equal. lia.
    + rewrite decide_False by done. rewrite (IH m (s + 1) l c Hl) by lia.
      destruct (list_find _ l) as [[i y]|]; cbn; f_equal; lia.
Qed.

(** ** atoi and printint *)

Definition is_digit (c : Z) : Prop := 48 <= c <= 57.

Lemma atoi_loop_app l : forall r n, Forall is_digit l -> atoi_loop (l ++ r) n = atoi_loop r (atoi_loop l n).
Proof.
  induction l as [|c l IH]; intros r n Hl; [done|]. apply Forall_cons in Hl as [Hc Hl]. unfold is_digit in Hc.
  cbn. rewrite (proj2 (Z.leb_le 48 c)), (proj2 (Z.leb_le c 57)) by lia. cbn. by apply IH.
Qed.

Lemma decimal_digit x : nth (Z.to_nat (x mod 10)) udigits 0 = 48 + x mod 10.
Proof.
  pose proof (Z.mod_pos_bound x 10 ltac:(lia)) as H. generalize dependent (x mod 10). intros d Hd.
  assert (d = 0 \/ d = 1 \/ d = 2 \/ d = 3 \/ d = 4 \/ d = 5 \/ d = 6 \/ d = 7 \/ d = 8 \/ d = 9) as Hc by lia.
  repeat destruct Hc as [->|Hc]; try (vm_compute; reflexivity). subst d. vm_compute. reflexivity.
Qed.

Lemma digit_loop_digits n : forall x, Forall is_digit (digit_loop n udigits x 10).
Proof.
  induction n as [|n IH]; intros x; cbn [digit_loop]; constructor.
  - rewrite decimal_digit. unfold is_digit. pose proof (Z.mod_pos_bound x 10 ltac:(lia)). lia.
  - by case_match.
Qed.

Lemma atoi_digits n : forall x, 0 <= x < 2 ^ 31 -> x < 10 ^ Z.of_nat n -> (0 < n)%nat ->
  atoi_loop (reverse (digit_loop n udigits x 10)) 0 = x.
Proof.
  induction n as [|n IH]; intros x Hx Hn Hp; [lia|]. cbn [digit_loop]. rewrite reverse_cons.
  set (ds := if x / 10 =? 0 then [] else digit_loop n udigits (x / 10) 10).
  assert (Hds : atoi_loop (reverse ds) 0 = x / 10 /\ Forall is_digit ds).
  { subst ds. destruct (Z.eqb_spec (x / 10) 0) as [E|E]; [by rewrite E|]. split; [|apply digit_loop_digits].
    rewrite Nat2Z.inj_succ, Z.pow_succ_r in Hn by lia.
    apply IH; [split; [apply Z.div_pos; lia|apply Z.div_lt_upper_bound; lia]|apply Z.div_lt_upper_bound; lia|].
    destruct n; [|lia]. exfalso. apply E. apply Z.div_small. change (10 ^ Z.of_nat 0) with 1 in Hn. lia. }
  destruct Hds as [E Hd]. rewrite atoi_loop_app by (by apply Forall_reverse).
  rewrite E, decimal_digit. cbn [atoi_loop]. pose proof (Z.mod_pos_bound x 10 ltac:(lia)) as Hm.
  rewrite (proj2 (Z.leb_le 48 _)), (proj2 (Z.leb_le _ 57)) by lia. cbn [andb].
  pose proof (Z.div_mod x 10 ltac:(lia)). rewrite i32_small by lia. lia.
Qed.

(** ** printf *)

Definition writes (fd : Z) (l : list Z) : list syscall := (fun c => SWrite fd [u8 c]) <$> l.

Lemma runs_bind_iff {A B} (m : prog A) (f : A -> prog B) t o :
  (forall t', ~ runs m t' Exited) ->
  runs (pbind m f) t o <-> exists a t1 t2, t = t1 ++ t2 /\ runs m t1 (Finished a) /\ runs (f a) t2 o.
Proof.
  intros Hm. split.
  - intros [H|[_ H]]%runs_bind_inv; [done|by apply Hm in H].
  - intros (a & t1 & t2 & -> & H1 & H2). by eapply runs_bind.
Qed.

Lemma runs_putc fd c t o : runs (putc fd c) t o <-> o = Finished tt /\ t.*1 = writes fd [c].
Proof.
  split.
  - intros H. unfold putc, sysv in H. cbn in H. run_inv H. run_inv H. done.
  - intros [-> Ht]. destruct t as [|[c1 r1] [|]]; try done. cbn in Ht. injection Ht as ->. repeat constructor.
Qed.

(** A program that only writes the bytes [l]. *)
Definition prints {A} (fd : Z) (p : prog A) (l : list Z) (a : A) : Prop :=
  forall t o, runs p t o <-> o = Finished a /\ t.*1 = writes fd l.

Lemma prints_done {A} fd (a : A) : prints fd (Done a) [] a.
Proof.
  intros t o. split; [intros H; by run_inv H|]. intros [-> Ht]. destruct t; [constructor|done].
Qed.

Lemma prints_bind {A B} fd (m : prog A) (f : A -> prog B) l1 l2 a b :
  prints fd m l1 a -> prints fd (f a) l2 b -> prints fd (pbind m f) (l1 ++ l2) b.
Proof.
  intros H1 H2 t o. rewrite runs_bind_iff by (intros t' [? _]%H1; done). unfold writes. rewrite fmap_app. split.
  - intros (a' & t1 & t2 & -> & R1 & R2). apply H1 in R1 as [[= ->] E1]. apply H2 in R2 as [-> E2].
    split; [done|]. by rewrite fmap_app, E1, E2.
  - intros [-> Ht]. exists a. apply fmap_app_inv in Ht as (t1 & t2 & E1 & E2 & ->). exists t1, t2.
    split_and!; [done|by apply H1|by apply H2].
Qed.

Lemma prints_putc fd c : prints fd (putc fd c) [c] tt.
Proof. intros t o. apply runs_putc. Qed.

Lemma prints_puts fd l : prints fd (puts fd l) l tt.
Proof.
  induction l as [|c l IH]; [apply prints_done|]. cbn [puts].
  apply (prints_bind fd (putc fd c) (fun _ => puts fd l) [c] l tt tt); [apply prints_putc|done].
Qed.

(** The meaning of a format: directives, each of which takes its argument. *)
Inductive directive := Raw (l : list Z) | Dec | Hex | Str | Chr.

Definition conversion (c : Z) : directive :=
  if c =? ch "d" then Dec
  else if (c =? ch "x") || (c =? ch "p") then Hex
  else if c =? ch "s" then Str
  else if c =? ch "c" then Chr
  else if c =? ch "%" then Raw [c]
  else Raw [ch "%"; c].

Fixpoint directives (fmt : list Z) : list directive :=
  match fmt with
  | [] => []
  | c :: fmt1 =>
      if c =? ch "%" then
        match fmt1 with
        | [] => []
        | d :: fmt2 => conversion d :: directives fmt2
        end
      else Raw [c] :: directives fmt1
  end.

Definition render1 (d : directive) (args : list carg) : option (list Z * list carg) :=
  match d, args with
  | Raw l, _ => Some (l, args)
  | Dec, AInt z :: args => Some (uprintint_chars (i32 z) 10 true, args)
  | Hex, AInt z :: args => Some (uprintint_chars (i32 z) 16 false, args)
  | Str, AStr s :: args => Some (default (bytes "(null)") s, args)
  | Chr, AInt z :: args => Some ([z], args)
  | _, _ => None
  end.

Fixpoint render (ds : list directive) (args : list carg) : option (list Z) :=
  match ds with
  | [] => Some []
  | d :: ds =>
      match render1 d args with
      | Some (l, args) => app l <$> render ds args
      | None => None
      end
  end.

(** The turn of the loop after a '%'. *)
Lemma printf_conversion fd c fmt args l args' l' :
  render1 (conversion c) args = Some (l, args') ->
  prints fd (printf_loop fd false fmt args') l' tt ->
  prints fd (printf_loop fd true (c :: fmt) args) (l ++ l') tt.
Proof.
  intros H Hf. unfold conversion in H. cbn [printf_loop negb].
  destruct (c =? ch "d"); [destruct args as [|[z|s] args]; try discriminate H; cbn [render1] in H; injection H as <- <-;
    apply (prints_bind fd _ (fun _ => _) _ _ tt); [apply prints_puts|done]|].
  destruct ((c =? ch "x") || (c =? ch "p")); [destruct args as [|[z|s] args]; try discriminate H; cbn [render1] in H; injection H as <- <-;
    apply (prints_bind fd _ (fun _ => _) _ _ tt); [apply prints_puts|done]|].
  destruct (c =? ch "s"); [destruct args as [|[z|s] args]; try discriminate H; cbn [render1] in H; injection H as <- <-;
    apply (prints_bind fd _ (fun _ => _) _ _ tt); [destruct s; apply prints_puts|done]|].
  destruct (c =? ch "c"); [destruct args as [|[z|s] args]; try discriminate H; cbn [render1] in H; injection H as <- <-;
    apply (prints_bind fd _ (fun _ => _) [z] _ tt); [apply prints_putc|done]|].
  destruct (c =? ch "%"); cbn [render1] in H; injection H as <- <-.
  - apply (prints_bind fd _ (fun _ => _) [c] _ tt); [apply prints_putc|done].
  - apply (prints_bind fd _ (fun _ => _) [ch "%"] (c :: l') tt); [apply prints_putc|].
    apply (prints_bind fd _ (fun _ => _) [c] _ tt); [apply prints_putc|done].
Qed.

Lemma printf_renders_from fd fmt : forall args l,
  render (directives fmt) args = Some l -> prints fd (printf_loop fd false fmt args) l tt.
Proof.
  induction fmt as [fmt IH] using (induction_ltof1 _ (@length Z)). unfold ltof in IH. intros args l H.
  destruct fmt as [|c fmt]; [cbn in H; injection H as <-; apply prints_done|].
  cbn [directives] in H. cbn [printf_loop negb]. destruct (c =? ch "%").
  - destruct fmt as [|d fmt]; [cbn in H; injection H as <-; apply prints_done|].
    cbn [render] in H. destruct (render1 (conversion d) args) as [[l1 args1]|] eqn:E1; [|done].
    destruct (render (directives fmt) args1) as [l2|] eqn:E2; [|done]. injection H as <-.
    eapply printf_conversion; [done|]. apply IH; [cbn; lia|done].
  - cbn [render render1] in H. destruct (render (directives fmt) args) as [l2|] eqn:E2; [|done]. injection H as <-.
    apply (prints_bind fd _ (fun _ => _) [c] l2 tt); [apply prints_putc|]. apply IH; [cbn; lia|done].
Qed.

Lemma printf_prints fd fmt args l :
  render (directives fmt) args = Some l -> prints fd (printf fd fmt args) l tt.
Proof. exact (printf_renders_from fd fmt args l). Qed.

(** ** Comparing strings *)

Lemma cstr_nonzero m l : forall a, cstr m a l -> Forall (fun c => c <> 0) l.
Proof. induction l as [|c l IH]; intros a H; [constructor|]. apply cstr_cons in H as (_ & Hc & H). constructor; [done|by eapply IH]. Qed.

Lemma common_prefix (l1 : list Z) : forall l2, Forall (fun c => c <> 0) l1 -> Forall (fun c => c <> 0) l2 ->
  exists pre r1 r2, l1 = pre ++ r1 /\ l2 = pre ++ r2 /\ (r1 <> [] -> hd 0 r1 <> hd 0 r2) /\ (hd 0 r1 - hd 0 r2 = 0 <-> l1 = l2).
Proof.
  induction l1 as [|x l1 IH]; intros l2 H1 H2.
  - exists [], [], l2. split_and!; [done|done|done|]. destruct l2 as [|y l2]; [done|]. apply Forall_cons in H2 as [Hy _]. cbn. split; [lia|done].
  - apply Forall_cons in H1 as [Hx H1]. destruct l2 as [|y l2].
    + exists [], (x :: l1), []. split_and!; [done|done|done|]. cbn. split; [lia|done].
    + apply Forall_cons in H2 as [Hy H2]. destruct (decide (x = y)) as [->|Hne].
      * destruct (IH l2 H1 H2) as (pre & r1 & r2 & -> & -> & Hd & He). exists (y :: pre), r1, r2. split_and!; [done|done|done|].
        rewrite He. split; [by intros ->|by intros [= ->]].
      * exists [], (x :: l1), (y :: l2). split_and!; [done|done|by intros _|]. cbn. split; [lia|]. intros [= ? _]. done.
Qed.

Lemma ustrcmp_equal bound m p q l1 l2 : cstr m p l1 -> cstr m q l2 -> (length l1 < bound)%nat ->
  exists z, ustrcmp bound m p q = Some z /\ (z = 0 <-> l1 = l2).
Proof.
  intros H1 H2 Hb. destruct (common_prefix l1 l2 (cstr_nonzero _ _ _ H1) (cstr_nonzero _ _ _ H2)) as (pre & r1 & r2 & E1 & E2 & Hd & He).
  exists (hd 0 r1 - hd 0 r2). split; [|done]. rewrite E1 in H1, Hb. rewrite E2 in H2. rewrite length_app in Hb.
  apply (ustrcmp_cstr bound m p q pre); [done|done|lia|done].
Qed.
