(* ===== verification/Programs.v ===== *)
(** * User programs

    cat, wc, echo, rm, mkdir, ln, kill, ls, grep and init as programs over the
    system calls.  [argv] is the list of the arguments, the name of the program
    first; a loop around a call that may go on for ever has a bound on its
    turns. *)

From Stdlib Require Import Ascii String.
From S2P Require Import Prelude State Monad Mem Spinlock ConsoleOut Regex UserProg Ulib.

(** The loop over the arguments. *)
Fixpoint each (l : list (list Z)) (body : list Z -> prog unit) : prog unit :=
  match l with
  | [] => Done tt
  | a :: l' => do* body a; each l' body
  end.

(** ** cat.c *)

Fixpoint cat (turns : nat) (fd : Z) : prog unit :=
  match turns with
  | O => Stuck "cat"
  | S turns' =>
      let* r := sys (SRead fd 512) in
      let n := r_val r in
      if 0 <? n then
        let* w := sysv (SWrite 1 (take (Z.to_nat n) (r_data r))) in
        if negb (w =? n) then do* printf 1 (line "cat: write error") []; Exit
        else cat turns' fd
      else if n <? 0 then do* printf 1 (line "cat: read error") []; Exit
      else Done tt
  end.

Definition cat_main (turns : nat) (argv : list (list Z)) : prog unit :=
  if Z.of_nat (length argv) <=? 1 then do* cat turns 0; Exit
  else
    do* each (drop 1 argv) (fun a =>
      let* fd := sysv (SOpen a 0) in
      if fd <? 0 then do* printf 1 (line "cat: cannot open %s") [AStr (Some a)]; Exit
      else do* cat turns fd; do* sysv (SClose fd); Done tt);
    Exit.

(** ** wc.c *)

Definition wc_space (c : Z) : bool := existsb (Z.eqb c) [32; 13; 9; 10; 11].

Record counts := MkCounts { wc_l : Z; wc_w : Z; wc_c : Z; wc_in : bool }.

Fixpoint wc_count (data : list Z) (k : counts) : counts :=
  match data with
  | [] => k
  | b :: data' =>
      let l := if b =? NL then i32 (wc_l k + 1) else wc_l k in
      let c := i32 (wc_c k + 1) in
      wc_count data'
        (if wc_space b then MkCounts l (wc_w k) c false
         else if negb (wc_in k) then MkCounts l (i32 (wc_w k + 1)) c true
         else MkCounts l (wc_w k) c true)
  end.

Fixpoint wc_loop (turns : nat) (fd : Z) (name : list Z) (k : counts) : prog unit :=
  match turns with
  | O => Stuck "wc"
  | S turns' =>
      let* r := sys (SRead fd 512) in
      let n := r_val r in
      if 0 <? n then wc_loop turns' fd name (wc_count (take (Z.to_nat n) (r_data r)) k)
      else if n <? 0 then do* printf 1 (line "wc: read error") []; Exit
      else printf 1 (line "%d %d %d %s") [AInt (wc_l k); AInt (wc_w k); AInt (wc_c k); AStr (Some name)]
  end.
Definition wc (turns : nat) (fd : Z) (name : list Z) : prog unit := wc_loop turns fd name (MkCounts 0 0 0 false).

Definition wc_main (turns : nat) (argv : list (list Z)) : prog unit :=
  if Z.of_nat (length argv) <=? 1 then do* wc turns 0 []; Exit
  else
    do* each (drop 1 argv) (fun a =>
      let* fd := sysv (SOpen a 0) in
      if fd <? 0 then do* printf 1 (line "wc: cannot open %s") [AStr (Some a)]; Exit
      else do* wc turns fd a; do* sysv (SClose fd); Done tt);
    Exit.

(** ** echo.c *)

Fixpoint echo_loop (l : list (list Z)) : prog unit :=
  match l with
  | [] => Done tt
  | a :: l' =>
      do* printf 1 (bytes "%s%s") [AStr (Some a); AStr (Some (match l' with [] => [NL] | _ => [32] end))];
      echo_loop l'
  end.
Definition echo_main (argv : list (list Z)) : prog unit := do* echo_loop (drop 1 argv); Exit.

(** ** rm.c, mkdir.c, ln.c, kill.c *)

(** The loop of rm and mkdir: it stops at the first failure. *)
Fixpoint until_failure (call : list Z -> syscall) (msg : list Z) (l : list (list Z)) : prog unit :=
  match l with
  | [] => Done tt
  | a :: l' =>
      let* r := sysv (call a) in
      if r <? 0 then printf 2 msg [AStr (Some a)] else until_failure call msg l'
  end.

Definition rm_main (argv : list (list Z)) : prog unit :=
  if Z.of_nat (length argv) <? 2 then do* printf 2 (line "Usage: rm files...") []; Exit
  else do* until_failure SUnlink (line "rm: %s failed to delete") (drop 1 argv); Exit.

Definition mkdir_main (argv : list (list Z)) : prog unit :=
  if Z.of_nat (length argv) <? 2 then do* printf 2 (line "Usage: mkdir files...") []; Exit
  else do* until_failure SMkdir (line "mkdir: %s failed to create") (drop 1 argv); Exit.

Definition ln_main (argv : list (list Z)) : prog unit :=
  match argv with
  | [_; a; b] =>
      let* r := sysv (SLink a b) in
      do* (if r <? 0 then printf 2 (line "link %s %s: failed") [AStr (Some a); AStr (Some b)] else Done tt);
      Exit
  | _ => do* printf 2 (line "Usage: ln old new") []; Exit
  end.

Definition kill_main (argv : list (list Z)) : prog unit :=
  if Z.of_nat (length argv) <? 2 then do* printf 2 (line "usage: kill pid...") []; Exit
  else do* each (drop 1 argv) (fun a => do* sysv (SKill (atoi a)); Done tt); Exit.

(** ** grep.c *)

(** The line before the first newline and what follows it; [strchr] stops at
    a NUL. *)
Fixpoint split_line (s : list Z) : option (list Z * list Z) :=
  match s with
  | [] => None
  | c :: s' =>
      if c =? 0 then None
      else if c =? NL then Some ([], s')
      else match split_line s' with Some (l, rest) => Some (c :: l, rest) | None => None end
  end.

(** The inner loop: the lines in the [m] bytes of [buf] are printed or not;
    what is left after the last newline. *)
Fixpoint grep_lines (turns : nat) (pattern s : list Z) : prog (list Z) :=
  match turns with
  | O => Stuck "grep"
  | S turns' =>
      match split_line s with
      | None => Done s
      | Some (l, rest) =>
          do* (if match_ pattern l then do* sysv (SWrite 1 (l ++ [NL])); Done tt else Done tt);
          grep_lines turns' pattern rest
      end
  end.

(** [pending] are the [m] bytes of [buf]; without a newline they are dropped. *)
Fixpoint grep_loop (turns : nat) (pattern : list Z) (fd : Z) (pending : list Z) : prog unit :=
  match turns with
  | O => Stuck "grep"
  | S turns' =>
      let* r := sys (SRead fd (1024 - Z.of_nat (length pending) - 1)) in
      let n := r_val r in
      if 0 <? n then
        let s := pending ++ take (Z.to_nat n) (r_data r) in
        let* p := grep_lines (S (length s)) pattern s in
        grep_loop turns' pattern fd (if (length p =? length s)%nat then [] else p)
      else Done tt
  end.
Definition grep (turns : nat) (pattern : list Z) (fd : Z) : prog unit := grep_loop turns pattern fd [].

Definition grep_main (turns : nat) (argv : list (list Z)) : prog unit :=
  match argv with
  | _ :: pattern :: files =>
      match files with
      | [] => do* grep turns pattern 0; Exit
      | _ =>
          do* each files (fun a =>
            let* fd := sysv (SOpen a 0) in
            if fd <? 0 then do* printf 1 (line "grep: cannot open %s") [AStr (Some a)]; Exit
            else do* grep turns pattern fd; do* sysv (SClose fd); Done tt);
          Exit
      end
  | _ => do* printf 2 (line "usage: grep pattern [file ...]") []; Exit
  end.

(** ** ls.c *)

Definition DIRSIZ : Z := 14.
Definition SLASH : Z := 47.

(** The part of the path after its last slash. *)
Fixpoint after_slash (path : list Z) : list Z :=
  match path with
  | [] => []
  | c :: path' => if existsb (Z.eqb SLASH) path then after_slash path' else path
  end.

Definition fmtname (path : list Z) : list Z :=
  let p := after_slash path in
  if DIRSIZ <=? Z.of_nat (length p) then p
  else p ++ replicate (Z.to_nat (DIRSIZ - Z.of_nat (length p))) 32.

(** The fields of [struct stat] in the order of stat.h. *)
Definition st_type (r : reply) : Z := nth 0 (r_data r) 0.
Definition st_ino (r : reply) : Z := nth 2 (r_data r) 0.
Definition st_size (r : reply) : Z := nth 4 (r_data r) 0.
Definition T_DIR : Z := 1.
Definition T_FILE : Z := 2.

Definition ls_entry (path : list Z) (st : reply) : prog unit :=
  printf 1 (line "%s %d %d %d") [AStr (Some (fmtname path)); AInt (st_type st); AInt (st_ino st); AInt (st_size st)].

(** The entries of a directory: 16 bytes each, the inode number first. *)
Fixpoint ls_dir (turns : nat) (fd : Z) (prefix : list Z) : prog unit :=
  match turns with
  | O => Stuck "ls"
  | S turns' =>
      let* de := sys (SRead fd 16) in
      if r_val de =? 16 then
        if lget16 0 (r_data de) =? 0 then ls_dir turns' fd prefix
        else
          let buf := prefix ++ until_nul (take 14 (drop 2 (r_data de))) in
          let* st := stat buf in
          if r_val st <? 0 then
            do* printf 1 (line "ls: cannot stat %s") [AStr (Some buf)];
            ls_dir turns' fd prefix
          else
            do* ls_entry buf st;
            ls_dir turns' fd prefix
      else Done tt
  end.

Definition ls (turns : nat) (path : list Z) : prog unit :=
  let* fd := sysv (SOpen path 0) in
  if fd <? 0 then printf 2 (line "ls: cannot open %s") [AStr (Some path)]
  else
    let* st := sys (SFstat fd) in
    if r_val st <? 0 then
      do* printf 2 (line "ls: cannot stat %s") [AStr (Some path)];
      do* sysv (SClose fd); Done tt
    else
      do* (if st_type st =? T_FILE then ls_entry path st
           else if st_type st =? T_DIR then
             if 512 <? Z.of_nat (length path) + 1 + DIRSIZ + 1 then printf 1 (line "ls: path too long") []
             else ls_dir turns fd (path ++ [SLASH])
           else Done tt);
      do* sysv (SClose fd); Done tt.

Definition ls_main (turns : nat) (argv : list (list Z)) : prog unit :=
  if Z.of_nat (length argv) <? 2 then do* ls turns (bytes "."); Exit
  else do* each (drop 1 argv) (ls turns); Exit.

(** ** init.c *)

(** Collect children until the shell [pid] is one of them or none is left. *)
Fixpoint init_wait (turns : nat) (pid : Z) : prog unit :=
  match turns with
  | O => Stuck "init"
  | S turns' =>
      let* wpid := sysv SWait in
      if (0 <=? wpid) && negb (wpid =? pid) then do* printf 1 (line "zombie!") []; init_wait turns' pid
      else Done tt
  end.

Fixpoint init_loop (turns : nat) : prog unit :=
  match turns with
  | O => Stuck "init"
  | S turns' =>
      do* printf 1 (line "init: starting sh") [];
      let* pid := sysv SFork in
      if pid <? 0 then do* printf 1 (line "init: fork failed") []; Exit
      else if pid =? 0 then
        do* sysv (SExec (bytes "sh") [bytes "sh"]);
        do* printf 1 (line "init: exec sh failed") [];
        Exit
      else do* init_wait turns' pid; init_loop turns'
  end.

Definition init_main (turns : nat) : prog unit :=
  let* fd := sysv (SOpen (bytes "console") O_RDWR) in
  do* (if fd <? 0 then
         do* sysv (SMknod (bytes "console") 1 1);
         do* sysv (SOpen (bytes "console") O_RDWR); Done tt
       else Done tt);
  do* sysv (SDup 0);
  do* sysv (SDup 0);
  init_loop turns.
