(* ===== verification/ProgramFacts.v ===== *)
(** * User programs: how they run

    Lemmas about the runs of cat, wc, echo and grep on a descriptor that
    delivers its bytes in arbitrary pieces. *)

From Stdlib Require Import Ascii String.
From S2P Require Import Prelude State Monad Mem Spinlock ConsoleOut Regex UserProg Ulib UlibFacts Programs.

#[local] Strategy opaque [printf bytes].

(** The reply of [read] that delivers the bytes [c]. *)
Definition got (c : list Z) : reply := MkReply (Z.of_nat (length c)) c.
Definition eof : reply := MkReply 0 [].

Lemma take_got (c : list Z) : take (Z.to_nat (Z.of_nat (length c))) c = c.
Proof. by rewrite Nat2Z.id, firstn_all. Qed.

Lemma got_pos (c : list Z) : c <> [] -> (0 <? Z.of_nat (length c)) = true.
Proof. intros H. apply Z.ltb_lt. destruct c; [done|cbn; lia]. Qed.

Lemma play_bind {A B} (m : prog A) (f : A -> prog B) : forall rs t a rs',
  play rs m = Some (t, Finished a, rs') ->
  play rs (pbind m f) = match play rs' (f a) with Some (t2, o, rs2) => Some (t ++ t2, o, rs2) | None => None end.
Proof.
  induction m as [b| |why|c k IH]; intros rs t a rs' H; cbn in H.
  - injection H as <- -> ->. cbn. by destruct (play rs' (f a)) as [[[? ?] ?]|].
  - discriminate H.
  - discriminate H.
  - destruct rs as [|r rs]; [discriminate H|]. cbn.
    destruct (play rs (k r)) as [[[t1 o1] rs1]|] eqn:E; [|discriminate H]. injection H as <- -> ->.
    rewrite (IH r rs t1 a rs' E). by destruct (play rs' (f a)) as [[[? ?] ?]|].
Qed.

(** A program that only prints takes one reply for each byte. *)
Lemma play_prints {A} fd (p : prog A) l a : prints fd p l a -> forall rs rs',
  length rs = length l ->
  exists t, play (rs ++ rs') p = Some (t, Finished a, rs') /\ written fd t = map u8 l /\ (forall fd', readin fd' t = []).
Proof.
  intros Hp rs rs' Hlen.
  set (t := zip (writes fd l) rs).
  assert (Ht : t.*1 = writes fd l) by (apply fst_zip; unfold writes; rewrite length_fmap; lia).
  assert (Hr : runs p t (Finished a)) by (by apply Hp).
  assert (Hs : t.*2 = rs) by (apply snd_zip; unfold writes; rewrite length_fmap; lia).
  clearbody t. exists t. split; [|split].
  - clear - Hr Hs. revert Hr. rewrite <- Hs. clear. intros Hr.
    remember (Finished a) as fa eqn:E. induction Hr as [b| |c k r t o H IH]; cbn.
    + by rewrite E.
    + discriminate E.
    + by rewrite (IH E).
  - clear - Ht. revert l Ht. induction t as [|[c r] t IH]; intros [|x l] Ht; try done.
    cbn in Ht. injection Ht as -> Ht. autorewrite with traces. cbn. f_equal. by apply IH.
  - clear - Ht. intros fd'. revert l Ht. induction t as [|[c r] t IH]; intros [|x l] Ht; try done.
    cbn in Ht. injection Ht as -> Ht. autorewrite with traces. by apply (IH l).
Qed.

(** ** cat *)

(** The replies to cat when it is given the pieces [chunks]. *)
Definition cat_replies (chunks : list (list Z)) : list reply :=
  concat ((fun c => [got c; MkReply (Z.of_nat (length c)) []]) <$> chunks) ++ [eof].

Lemma cat_play chunks : forall turns fd rs,
  Forall (fun c => c <> []) chunks -> (length chunks < turns)%nat ->
  exists t, play (cat_replies chunks ++ rs) (cat turns fd) = Some (t, Finished tt, rs) /\
    written 1 t = concat chunks /\ readin fd t = concat chunks.
Proof.
  induction chunks as [|c chunks IH]; intros [|turns] fd rs Hc Hlen; try (cbn in Hlen; lia).
  - eexists. split; [reflexivity|]. by autorewrite with traces.
  - apply Forall_cons in Hc as [Hne Hc]. cbn in Hlen. destruct (IH turns fd rs Hc ltac:(lia)) as (t & H1 & H2 & H3).
    cbn [cat cat_replies fmap list_fmap concat app pbind sys play got r_val r_data].
    rewrite (got_pos c Hne). cbn [pbind sysv play r_val]. rewrite Z.eqb_refl, take_got. cbn [negb].
    unfold cat_replies in H1. rewrite H1. eexists. split; [reflexivity|]. autorewrite with traces. by rewrite H2, H3.
Qed.

(** Every run of cat: it copies its input and ends, or a call has failed and
    it exits. *)
Lemma cat_runs turns : forall fd t o,
  runs (cat turns fd) t o -> trace_ok t -> fd <> 1 ->
  (o = Finished tt /\ written 1 t = readin fd t) \/ (o = Exited /\ Exists (fun e => r_val (snd e) = -1) t).
Proof.
  induction turns as [|turns IH]; intros fd t o H Hok Hfd; [cbn in H; run_inv H|].
  cbn [cat] in H. apply runs_sys in H as (r & t' & -> & H). apply Forall_cons in Hok as [Hr Hok]. unfold reply_ok in Hr. cbn in Hr.
  destruct (Z.ltb_spec 0 (r_val r)) as [Hn|Hn].
  - apply runs_sysv in H as (r0 & t0 & -> & H). apply Forall_cons in Hok as [Hw Hok]. unfold reply_ok in Hw. cbn in Hw.
    destruct Hr as [[E _]|(E & _)]; [lia|]. rewrite E, take_got in *.
    destruct (Z.eqb_spec (r_val r0) (Z.of_nat (length (r_data r)))) as [E0|E0]; cbn [negb] in H.
    + destruct (IH fd _ o H Hok Hfd) as [[-> H1]|[-> H1]]; [left|right; split; [done|by do 2 apply Exists_cons_tl]].
      split; [done|]. autorewrite with traces. by rewrite H1.
    + right. destruct Hw as [Hw|Hw]; [|congruence]. split; [|apply Exists_cons_tl, Exists_cons_hd, Hw].
      apply runs_bind_inv in H as [(a & t1 & t2 & _ & _ & H)|[-> _]]; [by run_inv H|done].
  - destruct (Z.ltb_spec (r_val r) 0) as [Hneg|Hz].
    + right. destruct Hr as [[Hr _]|(E & _)]; [|lia]. split; [|by apply Exists_cons_hd].
      apply runs_bind_inv in H as [(a & t1 & t2 & _ & _ & H)|[-> _]]; [by run_inv H|done].
    + run_inv H. left. destruct Hr as [[Hr _]|(E & _)]; [lia|]. split; [done|].
      autorewrite with traces. assert (length (r_data r) = 0%nat) as ->%nil_length_inv by lia. done.
Qed.

(** ** wc *)

Definition nlines (l : list Z) : nat := length (filter (fun b => b = NL) l).
(** A word starts at [i]: no white space there, and none or white space before. *)
Definition word_start (l : list Z) (i : nat) : bool :=
  match l !! i with
  | Some b => negb (wc_space b) && match i with O => true | S j => match l !! j with Some a => wc_space a | None => true end end
  | None => false
  end.
Definition nwords (l : list Z) : nat := length (filter (fun i => word_start l i = true) (seq 0 (length l))).
Definition in_word (l : list Z) : bool := match last l with Some b => negb (wc_space b) | None => false end.

Lemma filter_ext_in {A} (P Q : A -> Prop) {HP : forall x, Decision (P x)} {HQ : forall x, Decision (Q x)} (l : list A) :
  (forall x, x ∈ l -> P x <-> Q x) -> filter P l = filter Q l.
Proof.
  induction l as [|x l IH]; intros H; [done|]. rewrite !filter_cons.
  rewrite IH by (intros y Hy; apply H; by apply list_elem_of_further).
  destruct (H x (list_elem_of_here _ _)) as [H1 H2]. repeat case_decide; tauto.
Qed.

Lemma nwords_snoc l b :
  nwords (l ++ [b]) = (nwords l + (if negb (wc_space b) && negb (in_word l) then 1 else 0))%nat.
Proof.
  unfold nwords. rewrite length_app. cbn [length]. rewrite Nat.add_1_r, seq_S, filter_app, length_app.
  assert (Hold : filter (fun i => word_start (l ++ [b]) i = true) (seq 0 (length l)) = filter (fun i => word_start l i = true) (seq 0 (length l))).
  { apply filter_ext_in. intros i Hi%elem_of_seq. unfold word_start. rewrite lookup_app_l by lia.
    destruct (l !! i) as [x|]; [|done]. destruct i as [|j]; [done|]. by rewrite lookup_app_l by lia. }
  rewrite Hold. f_equal. cbn [Nat.add]. rewrite filter_cons, filter_nil.
  assert (Hw : word_start (l ++ [b]) (length l) = negb (wc_space b) && negb (in_word l)).
  { unfold word_start. rewrite lookup_app_r, Nat.sub_diag by lia. cbn. f_equal. unfold in_word.
    destruct l as [|x l] using rev_ind; [done|]. rewrite last_snoc, length_app. cbn [length]. rewrite Nat.add_1_r.
    rewrite lookup_app_l by (rewrite length_app; cbn; lia). rewrite lookup_app_r, Nat.sub_diag by lia. cbn. by rewrite negb_involutive. }
  rewrite Hw. destruct (negb (wc_space b) && negb (in_word l)); [by rewrite decide_True|by rewrite decide_False].
Qed.

Lemma wc_count_app l1 : forall l2 k, wc_count (l1 ++ l2) k = wc_count l2 (wc_count l1 k).
Proof. induction l1 as [|b l1 IH]; intros l2 k; [done|]. cbn. by rewrite IH. Qed.

Lemma counts_le l : (nlines l <= length l)%nat /\ (nwords l <= length l)%nat.
Proof.
  unfold nlines, nwords. split; [apply length_filter|]. etrans; [apply length_filter|]. by rewrite length_seq.
Qed.

Lemma wc_count_spec l : Z.of_nat (length l) < 2 ^ 31 ->
  wc_count l (MkCounts 0 0 0 false) = MkCounts (Z.of_nat (nlines l)) (Z.of_nat (nwords l)) (Z.of_nat (length l)) (in_word l).
Proof.
  induction l as [|b l IH] using rev_ind; intros Hl; [done|]. rewrite length_app in *. cbn [length] in Hl.
  destruct (counts_le l) as [B1 B2]. rewrite wc_count_app, IH by lia. cbn [wc_count].
  rewrite nwords_snoc. unfold nlines. rewrite filter_app, length_app. fold (nlines l).
  rewrite filter_cons, filter_nil. assert (Ei : in_word (l ++ [b]) = negb (wc_space b)) by (unfold in_word; by rewrite last_snoc). rewrite Ei. cbn [wc_l wc_w wc_c wc_in length].
  destruct (Z.eqb_spec b NL) as [->|Hb]; [rewrite decide_True by done|rewrite decide_False by done];
    destruct (wc_space _); cbn [negb andb]; try destruct (in_word l); cbn [negb];
    rewrite ?i32_small by lia; f_equal; cbn [length]; lia.
Qed.

Definition wc_replies (chunks : list (list Z)) : list reply := (got <$> chunks) ++ [eof].

Lemma wc_play chunks : forall turns fd name k l rs ws,
  Forall (fun c => c <> []) chunks -> (length chunks < turns)%nat ->
  let k' := wc_count (concat chunks) k in
  render (directives (line "%d %d %d %s")) [AInt (wc_l k'); AInt (wc_w k'); AInt (wc_c k'); AStr (Some name)] = Some l ->
  length ws = length l ->
  exists t, play (wc_replies chunks ++ ws ++ rs) (wc_loop turns fd name k) = Some (t, Finished tt, rs) /\
    written 1 t = map u8 l /\ readin fd t = concat chunks.
Proof.
  induction chunks as [|c chunks IH]; intros [|turns] fd name k l rs ws Hc Hlen k' Hl Hws; try (cbn in Hlen; lia).
  - cbn [wc_loop wc_replies fmap list_fmap app pbind sys play eof r_val Z.ltb Z.compare].
    destruct (play_prints 1 _ l tt (printf_prints 1 _ _ l Hl) ws rs Hws) as (t & H1 & H2 & H3).
    cbn [concat wc_count] in *. subst k'. rewrite H1. eexists. split; [reflexivity|].
    autorewrite with traces. by rewrite H2, H3.
  - apply Forall_cons in Hc as [Hne Hc]. cbn in Hlen. cbn [concat] in k'. unfold k' in Hl. rewrite wc_count_app in Hl.
    destruct (IH turns fd name (wc_count c k) l rs ws Hc ltac:(lia) Hl Hws) as (t & H1 & H2 & H3).
    cbn [wc_loop wc_replies fmap list_fmap app pbind sys play got r_val r_data].
    rewrite (got_pos c Hne), take_got. unfold wc_replies in H1. rewrite H1. eexists. split; [reflexivity|].
    autorewrite with traces. by rewrite H2, H3.
Qed.

(** ** grep *)

(** The complete lines of a text, and what follows the last newline. *)
Fixpoint cut_lines (l : list Z) : list (list Z) * list Z :=
  match l with
  | [] => ([], [])
  | c :: l' =>
      let '(ls, tail) := cut_lines l' in
      if c =? NL then ([] :: ls, tail)
      else match ls with
           | [] => ([], c :: tail)
           | x :: ls' => ((c :: x) :: ls', tail)
           end
  end.

Definition selected (pattern : list Z) (ls : list (list Z)) : list (list Z) := filter (fun l => match_ pattern l = true) ls.
Definition with_newlines (ls : list (list Z)) : list Z := concat ((fun l => l ++ [NL]) <$> ls).

Definition no_nul (l : list Z) : Prop := Forall (fun c => c <> 0) l.

Lemma split_line_spec s : no_nul s ->
  match split_line s with
  | Some (l, rest) => s = l ++ NL :: rest /\ cut_lines s = (l :: (cut_lines rest).1, (cut_lines rest).2)
  | None => NL ∉ s /\ cut_lines s = ([], s)
  end.
Proof.
  induction s as [|c s IH]; intros Hs; [split; [apply not_elem_of_nil|done]|]. apply Forall_cons in Hs as [Hc Hs].
  cbn [split_line cut_lines]. rewrite (proj2 (Z.eqb_neq c 0)) by done. destruct (Z.eqb_spec c NL) as [->|Hne].
  - split; [done|]. by destruct (cut_lines s).
  - specialize (IH Hs). destruct (split_line s) as [[l rest]|]; destruct IH as [H1 H2]; rewrite H2.
    + split; [by rewrite H1|done].
    + split; [|done]. intros [?|?]%elem_of_cons; [congruence|done].
Qed.

Lemma cut_lines_app a : forall b,
  cut_lines (a ++ b) = ((cut_lines a).1 ++ (cut_lines ((cut_lines a).2 ++ b)).1, (cut_lines ((cut_lines a).2 ++ b)).2).
Proof.
  induction a as [|c a IH]; intros b; [cbn; by destruct (cut_lines b)|]. cbn [app cut_lines]. rewrite IH.
  destruct (cut_lines a) as [ls tail]. cbn [fst snd]. destruct (Z.eqb_spec c NL) as [->|Hne]; [done|].
  destruct ls as [|x ls]; cbn [app fst snd]; [|done].
  cbn [cut_lines]. destruct (cut_lines (tail ++ b)) as [ls2 tail2]. cbn [fst snd].
  rewrite (proj2 (Z.eqb_neq c NL)) by done. by destruct ls2.
Qed.

(** Without a newline there is no complete line, and with one there is. *)
Lemma cut_lines_none s : NL ∉ s -> cut_lines s = ([], s).
Proof.
  induction s as [|c s IH]; intros H; [done|]. apply not_elem_of_cons in H as [Hc H]. cbn. rewrite IH by done.
  by rewrite (proj2 (Z.eqb_neq c NL)).
Qed.

Lemma cut_lines_length s : (length (cut_lines s).2 <= length s)%nat /\ (NL ∈ s -> (length (cut_lines s).2 < length s)%nat).
Proof.
  induction s as [|c s [IH1 IH2]]; [split; [done|by intros ?%elem_of_nil]|]. cbn [cut_lines length].
  destruct (cut_lines s) as [ls tail] eqn:E. cbn [fst snd] in *. destruct (Z.eqb_spec c NL) as [->|Hne]; [cbn; lia|].
  destruct ls as [|x ls]; cbn [fst snd length]; (split; [lia|]); intros [?|Hin]%elem_of_cons; try congruence; specialize (IH2 Hin); lia.
Qed.

Lemma cut_lines_sub s c : c ∈ (cut_lines s).2 -> c ∈ s.
Proof.
  revert c. induction s as [|x s IH]; intros c; [done|]. cbn [cut_lines]. destruct (cut_lines s) as [ls tail]. cbn [fst snd] in *.
  destruct (x =? NL); [intros H; apply list_elem_of_further; auto|]. destruct ls; cbn [snd].
  - intros [->|H]%elem_of_cons; [apply list_elem_of_here|apply list_elem_of_further; auto].
  - intros H. apply list_elem_of_further; auto.
Qed.

(** One bufferful: the matching lines are written, the tail is left. *)
Lemma grep_lines_play pattern w : forall turns s rs,
  no_nul s -> (length s < turns)%nat ->
  let ls := selected pattern (cut_lines s).1 in
  exists t, play (replicate (length ls) w ++ rs) (grep_lines turns pattern s) = Some (t, Finished (cut_lines s).2, rs) /\
    written 1 t = with_newlines ls /\ (forall fd, readin fd t = []) /\ Forall (fun e => match fst e with SRead _ _ => False | _ => True end) t.
Proof.
  induction turns as [|turns IH]; intros s rs Hs Hlen; [lia|]. pose proof (split_line_spec s Hs) as Hsp.
  cbn [grep_lines]. destruct (split_line s) as [[l rest]|].
  - destruct Hsp as [E1 E2]. rewrite E2. cbn [fst snd].
    assert (Hr : no_nul rest /\ (length rest < turns)%nat).
    { rewrite E1 in Hs, Hlen. unfold no_nul in *. rewrite Forall_app, Forall_cons in Hs. rewrite length_app in Hlen. cbn in Hlen.
      split; [tauto|lia]. }
    destruct (IH rest rs (proj1 Hr) (proj2 Hr)) as (t & H1 & H2 & H3 & H4).
    unfold selected in *. rewrite filter_cons. destruct (match_ pattern l) eqn:Em.
    + rewrite decide_True by done. cbn [length replicate app pbind sysv play]. rewrite H1. eexists. split; [reflexivity|].
      autorewrite with traces. rewrite H2. split; [done|]. split; [done|]. by constructor.
    + rewrite decide_False by done. cbn [pbind]. rewrite H1. eexists. split; [reflexivity|]. done.
  - destruct Hsp as [_ E2]. rewrite E2. cbn. eexists. split; [reflexivity|]. by split_and!.
Qed.

(** The replies when the file comes in the pieces [chunks]; each write gets [w]. *)
Fixpoint grep_replies (pattern : list Z) (w : reply) (pending : list Z) (chunks : list (list Z)) : list reply :=
  match chunks with
  | [] => [eof]
  | c :: chunks' =>
      let '(ls, tail) := cut_lines (pending ++ c) in
      got c :: replicate (length (selected pattern ls)) w ++ grep_replies pattern w tail chunks'
  end.

(** A piece that grep can take as the code means it: it ends a line, contains
    no NUL and leaves room in the buffer. *)
Definition good_chunk (c : list Z) : Prop := no_nul c /\ NL ∈ c /\ (length c <= 511)%nat.

Definition read_fits (e : syscall * reply) : Prop :=
  match fst e with SRead _ n => r_val (snd e) <= n | _ => True end.

Lemma cut_lines_tail s : NL ∉ (cut_lines s).2.
Proof.
  induction s as [|c s IH]; [apply not_elem_of_nil|]. cbn [cut_lines]. destruct (cut_lines s) as [ls tail]. cbn [snd] in *.
  destruct (Z.eqb_spec c NL) as [->|Hne]; [done|]. destruct ls; cbn [snd]; [|done].
  intros [?|?]%elem_of_cons; [congruence|done].
Qed.

Lemma cut_lines_some s : NL ∈ s -> (cut_lines s).1 <> [].
Proof.
  induction s as [|c s IH]; [by intros ?%elem_of_nil|]. intros H. cbn [cut_lines]. destruct (cut_lines s) as [ls tail]. cbn [fst] in *.
  destruct (Z.eqb_spec c NL) as [->|Hne]; [done|]. apply elem_of_cons in H as [?|H]; [congruence|]. specialize (IH H).
  destruct ls; [done|]. cbn. done.
Qed.

Lemma cut_lines_tail_app a c : NL ∈ c -> (cut_lines (a ++ c)).2 = (cut_lines c).2.
Proof.
  intros H. induction a as [|x a IH]; [done|]. cbn [app cut_lines].
  pose proof (cut_lines_some (a ++ c) ltac:(apply elem_of_app; by right)) as Hne.
  destruct (cut_lines (a ++ c)) as [ls tail]. cbn [fst snd] in *. destruct (x =? NL); [done|]. by destruct ls.
Qed.

Lemma selected_app pattern a b : selected pattern (a ++ b) = selected pattern a ++ selected pattern b.
Proof. apply filter_app. Qed.
Lemma with_newlines_app a b : with_newlines (a ++ b) = with_newlines a ++ with_newlines b.
Proof. unfold with_newlines. by rewrite fmap_app, concat_app. Qed.

Lemma grep_play pattern w chunks : forall turns fd pending rs,
  Forall good_chunk chunks -> no_nul pending -> NL ∉ pending -> (length pending <= 511)%nat -> (length chunks < turns)%nat ->
  exists t, play (grep_replies pattern w pending chunks ++ rs) (grep_loop turns pattern fd pending) = Some (t, Finished tt, rs) /\
    readin fd t = concat chunks /\ Forall read_fits t /\
    written 1 t = with_newlines (selected pattern (cut_lines (pending ++ concat chunks)).1).
Proof.
  induction chunks as [|c chunks IH]; intros [|turns] fd pending rs Hc Hp Hnl Hlen Ht; try (cbn in Ht; lia).
  - cbn [concat]. rewrite app_nil_r, cut_lines_none by done. eexists. split; [reflexivity|].
    autorewrite with traces. split_and!; [done| |done]. constructor; [|constructor]. unfold read_fits. cbn. lia.
  - apply Forall_cons in Hc as [(Hc1 & Hc2 & Hc3) Hc]. cbn in Ht. cbn [grep_replies].
    assert (Hs : no_nul (pending ++ c)) by (by apply Forall_app).
    pose proof (cut_lines_tail_app pending c Hc2) as Et. pose proof (cut_lines_tail c) as Hnt.
    pose proof (cut_lines_length c) as [Hl1 _]. pose proof (cut_lines_length (pending ++ c)) as [_ Hl2].
    specialize (Hl2 ltac:(apply elem_of_app; by right)).
    assert (Hnt2 : no_nul (cut_lines c).2).
    { apply Forall_forall. intros x Hx. apply cut_lines_sub in Hx. unfold no_nul in Hc1. rewrite Forall_forall in Hc1. auto. }
    destruct (IH turns fd (cut_lines c).2 rs Hc Hnt2 Hnt ltac:(lia) ltac:(lia)) as (t2 & P1 & P2 & P3 & P4).
    rewrite <- Et in P1, P4, Hl1.
    destruct (grep_lines_play pattern w (S (length (pending ++ c))) (pending ++ c)
      (grep_replies pattern w (cut_lines (pending ++ c)).2 chunks ++ rs) Hs (Nat.lt_succ_diag_r _)) as (t1 & G1 & G2 & G3 & G4).
    cbn [concat]. rewrite app_assoc, (cut_lines_app (pending ++ c) (concat chunks)). cbn [fst].
    rewrite selected_app, with_newlines_app. destruct (cut_lines (pending ++ c)) as [ls tail]. cbn [fst snd] in *.
    cbn [grep_loop]. cbn [app pbind sys play got r_val r_data]. rewrite (got_pos c) by (by intros ->; apply elem_of_nil in Hc2).
    rewrite take_got, <- app_assoc. rewrite (play_bind _ _ _ _ _ _ G1).
    rewrite (proj2 (Nat.eqb_neq (length tail) (length (pending ++ c)))) by lia. rewrite P1.
    eexists. split; [reflexivity|]. autorewrite with traces. rewrite P2, P4, G2, (G3 fd). split_and!; [done| |done].
    constructor; [unfold read_fits; cbn; lia|]. apply Forall_app. split; [|done].
    eapply Forall_impl; [exact G4|]. intros [[] r]; unfold read_fits; cbn; tauto.
Qed.

(** A piece without a newline is forgotten: the rest is searched as if it had
    not been there. *)
Lemma grep_forgets pattern fd turns c rs :
  no_nul c -> NL ∉ c -> c <> [] ->
  play (got c :: rs) (grep_loop (S turns) pattern fd []) =
    match play rs (grep_loop turns pattern fd []) with
    | Some (t, o, rs') => Some ((SRead fd 1023, got c) :: t, o, rs')
    | None => None
    end.
Proof.
  intros H1 H2 H3. cbn [grep_loop]. cbn [length Z.of_nat pbind sys play got r_val r_data app].
  rewrite (got_pos c H3), take_got. cbn [grep_lines].
  pose proof (split_line_spec c H1) as Hs. destruct (split_line c) as [[l rest]|].
  - destruct Hs as [-> _]. exfalso. apply H2, elem_of_app. right. apply list_elem_of_here.
  - cbn [pbind]. rewrite Nat.eqb_refl. done.
Qed.
