(* ===== verification/TestPrograms.v ===== *)
(** * The test programs of the scheduler and of fork

    zombie, forktest, stressfs, Gsanity, gsanity2, RRsanity, frrTest, parent and
    sanity as programs over the system calls, what forktest's verdict means,
    and what RRsanity and sanity report of the times that [wait2] and [wait3]
    give them. *)

From Stdlib Require Import Ascii String.
From S2P Require Import Prelude State Monad Mem Spinlock ConsoleOut Regex UserProg Ulib UlibFacts Programs ProgramFacts.

(** The loop [for(i = from; ...; i++)] of [n] turns. *)
Fixpoint upfrom (n : nat) (i : Z) (body : Z -> prog unit) : prog unit :=
  match n with
  | O => Done tt
  | S n' => do* body i; upfrom n' (i + 1) body
  end.

Definition ignore (c : syscall) : prog unit := do* sysv c; Done tt.

(** ** zombie.c *)

Definition zombie_main : prog unit :=
  let* pid := sysv SFork in
  do* (if 0 <? pid then ignore (SSleep 5) else Done tt);
  Exit.

(** ** forktest.c

    It has a [printf] of its own, which writes its string with one call. *)

Definition forktest_N : nat := 1000.

Definition forktest_printf (fd : Z) (s : list Z) : prog unit := ignore (SWrite fd s).

(** The first loop; the number of children that were made. *)
Fixpoint fork_loop (turns : nat) (n : nat) : prog nat :=
  match turns with
  | O => Done n
  | S turns' =>
      let* pid := sysv SFork in
      if pid <? 0 then Done n
      else if pid =? 0 then Exit
      else fork_loop turns' (S n)
  end.

Fixpoint wait_loop (n : nat) : prog unit :=
  match n with
  | O => Done tt
  | S n' =>
      let* pid := sysv SWait in
      if pid <? 0 then do* forktest_printf 1 (line "wait stopped early"); Exit
      else wait_loop n'
  end.

Definition forktest : prog unit :=
  do* forktest_printf 1 (line "fork test");
  let* n := fork_loop forktest_N 0 in
  if (n =? forktest_N)%nat then do* forktest_printf 1 (line "fork claimed to work N times!"); Exit
  else
    do* wait_loop n;
    let* pid := sysv SWait in
    if negb (pid =? -1) then do* forktest_printf 1 (line "wait got too many"); Exit
    else forktest_printf 1 (line "fork test OK").

Definition forktest_main : prog unit := do* forktest; Exit.

(** ** stressfs.c *)

(** The first loop: the value of [i] with which this process leaves it. *)
Fixpoint stress_forks (turns : nat) (i : Z) : prog Z :=
  match turns with
  | O => Done i
  | S turns' =>
      let* pid := sysv SFork in
      if 0 <? pid then Done i else stress_forks turns' (i + 1)
  end.

Definition stressfs_main : prog unit :=
  do* printf 1 (line "stressfs starting") [];
  let data := replicate 512 (ch "a") in
  let* i := stress_forks 4 0 in
  do* printf 1 (line "write %d") [AInt i];
  let path := bytes "stressfs" ++ [u8 (ch "0" + i)] in
  let* fd := sysv (SOpen path (Z.lor O_CREATE O_RDWR)) in
  do* upfrom 20 0 (fun _ => ignore (SWrite fd data));
  do* ignore (SClose fd);
  do* printf 1 (line "read") [];
  let* fd := sysv (SOpen path O_RDONLY) in
  do* upfrom 20 0 (fun _ => ignore (SRead fd 512));
  do* ignore (SClose fd);
  do* ignore SWait;
  Exit.

(** ** Gsanity.c and gsanity2.c *)

Definition print_turns (n : nat) : prog unit :=
  upfrom n 0 (fun i =>
    let* pid := sysv SGetpid in
    printf 1 (line "process %d is printing for the %d time.") [AInt pid; AInt i]).

Definition Gsanity_main : prog unit :=
  let* pid := sysv SGetpid in
  do* printf 1 (line "father pid is %d") [AInt pid];
  do* ignore (SSleep 100);
  do* ignore SFork;
  do* print_turns 50;
  Exit.

Definition gsanity2_main : prog unit :=
  let* father := sysv SGetpid in
  do* printf 1 (line "father pid is %d.") [AInt father];
  do* ignore (SSleep 10);
  let* pid := sysv SFork in
  do* (if 0 <=? pid then print_turns 50 else printf 1 (bytes "fork error") []);
  Exit.

(** ** Children and their times *)

(** The loop that forks: the child [i] runs [child i] and exits. *)
Fixpoint fork_children (n : nat) (i : Z) (child : Z -> prog unit) : prog unit :=
  match n with
  | O => Done tt
  | S n' =>
      let* pid := sysv SFork in
      if pid <? 0 then do* printf 1 (line "fork failed") []; Exit
      else if pid =? 0 then do* child i; Exit
      else fork_children n' (i + 1) child
  end.

(** An [int] of which the kernel has stored the low byte: [wait2], [wait3] and
    [getppid] store through pointers to char.  [old] is what the variable held;
    [data] has the bytes in the order of the arguments. *)
Definition stored (old : Z) (data : list Z) (k : nat) : Z :=
  match data !! k with
  | Some b => i32 (u32 old / 256 * 256 + u8 b)
  | None => old
  end.

(** ** RRsanity.c and frrTest.c

    [locals i] are the values of [wtime] and [rtime] before the call in turn
    [i]: the variables are not initialised. *)

Definition two_newlines (s : string) : list Z := line s ++ [NL].

Definition report (locals : Z -> Z * Z) (i : Z) (data : list Z) : prog unit :=
  let wtime := stored (fst (locals i)) data 0 in
  let rtime := stored (snd (locals i)) data 1 in
  do* printf 1 (bytes "child %d : ") [AInt i];
  printf 1 (two_newlines "wtime : %d , rtime : %d , turnaround time : %d") [AInt wtime; AInt rtime; AInt (i32 (wtime + rtime))].

Definition RRsanity_main (locals : Z -> Z * Z) : prog unit :=
  do* fork_children 10 0 (fun _ =>
    let* pid := sysv SGetpid in
    upfrom 10 0 (fun j => printf 1 (line "Child %d prints for the %d time") [AInt pid; AInt j]));
  do* upfrom 10 0 (fun i => let* r := sys SWait2 in report locals i (r_data r));
  Exit.

Definition frrTest_main : prog unit :=
  do* fork_children 10 0 (fun _ => Done tt);
  do* upfrom 10 0 (fun _ => ignore SWait2);
  Exit.

(** ** parent.c *)

Definition foo : prog unit := ignore (SSleep 20).

Definition waittest (wTime rTime : Z) : prog unit :=
  do* printf 1 (line "wait test") [];
  let* pid := sysv SFork in
  if pid =? 0 then do* foo; Exit
  else
    let* r := sys SGetppid in
    do* printf 1 (line "hi ") [];
    printf 1 (line "wTime: %d rTime: %d ") [AInt (stored wTime (r_data r) 0); AInt (stored rTime (r_data r) 1)].

Definition parent_main (wTime rTime : Z) : prog unit := do* waittest wTime rTime; Exit.

(** ** sanity.c *)

(** What [wait3] leaves in the variables of one turn. *)
Record child_times := MkTimes { wtime : Z; rtime : Z; cid : Z; q3rtime : Z; q3tatime : Z; q2rtime : Z; q2tatime : Z }.

Definition stored_times (old : child_times) (data : list Z) : child_times :=
  MkTimes (stored (wtime old) data 0) (stored (rtime old) data 1) (stored (cid old) data 2) (stored (q3rtime old) data 3)
    (stored (q3tatime old) data 4) (stored (q2rtime old) data 5) (stored (q2tatime old) data 6).

Record sums := MkSums {
  avg_waiting : Z; avg_tatime : Z; Q3_waiting : Z; Q3_tatime : Z; Q2_waiting : Z; Q2_tatime : Z; Q1_waiting : Z; Q1_tatime : Z }.

Definition no_sums : sums := MkSums 0 0 0 0 0 0 0 0.

Definition add_times (k : child_times) (x : sums) : sums :=
  let w v := i32 (v + wtime k) in
  let t v := i32 (v + i32 (rtime k + wtime k)) in
  let c3 := q3tatime k =? 255 in let c2 := q2tatime k =? 255 in
  let x1 := MkSums (w (avg_waiting x)) (t (avg_tatime x)) (Q3_waiting x) (Q3_tatime x) (Q2_waiting x) (Q2_tatime x) (Q1_waiting x) (Q1_tatime x) in
  if negb c3 && negb c2 then
    MkSums (avg_waiting x1) (avg_tatime x1) (Q3_waiting x) (Q3_tatime x) (Q2_waiting x) (Q2_tatime x) (w (Q1_waiting x)) (t (Q1_tatime x))
  else if negb c3 && c2 then
    MkSums (avg_waiting x1) (avg_tatime x1) (Q3_waiting x) (Q3_tatime x) (w (Q2_waiting x)) (t (Q2_tatime x)) (Q1_waiting x) (Q1_tatime x)
  else if c3 && c2 then
    MkSums (avg_waiting x1) (avg_tatime x1) (w (Q3_waiting x)) (t (Q3_tatime x)) (Q2_waiting x) (Q2_tatime x) (Q1_waiting x) (Q1_tatime x)
  else x1.

Fixpoint wait3_loop (locals : Z -> child_times) (n : nat) (i : Z) (x : sums) : prog sums :=
  match n with
  | O => Done x
  | S n' =>
      let* r := sys SWait3 in
      let k := stored_times (locals i) (r_data r) in
      do* (if (q3tatime k =? 255) && (q2tatime k =? 255) then printf 1 (line "3") [] else Done tt);
      wait3_loop locals n' (i + 1) (add_times k x)
  end.

Definition sanity_child (i : Z) : prog unit :=
  do* ignore (SSetcid i);
  if i mod 3 =? 0 then ignore SNice
  else if i mod 3 =? 1 then do* ignore SNice; ignore SNice
  else Done tt.

Definition sanity_main (locals : Z -> child_times) : prog unit :=
  do* fork_children 30 0 sanity_child;
  let* x := wait3_loop locals 30 0 no_sums in
  do* printf 1 (two_newlines "average wtime : %d , average turnaround time : %d") [AInt (avg_waiting x); AInt (avg_tatime x)];
  do* printf 1 (two_newlines "Q3 wtime : %d , Q3 turnaround time : %d") [AInt (Q3_waiting x); AInt (Q3_tatime x)];
  do* printf 1 (two_newlines "Q2 wtime : %d , Q2 turnaround time : %d") [AInt (Q2_waiting x); AInt (Q2_tatime x)];
  do* printf 1 (two_newlines "Q1 wtime : %d , Q1 turnaround time : %d") [AInt (Q1_waiting x); AInt (Q1_tatime x)];
  Exit.

(** ** What they mean *)

#[local] Strategy opaque [printf bytes].

Definition forked (e : syscall * reply) : bool := match fst e with SFork => 0 <? r_val (snd e) | _ => false end.
Definition collected (e : syscall * reply) : bool := match fst e with SWait => 0 <=? r_val (snd e) | _ => false end.
Definition count (f : syscall * reply -> bool) (t : trace) : nat := length (List.filter f t).

Lemma count_cons f e t : count f (e :: t) = ((if f e then 1 else 0) + count f t)%nat.
Proof. unfold count. cbn. by destruct (f e). Qed.

Lemma count_app f t1 t2 : count f (t1 ++ t2) = (count f t1 + count f t2)%nat.
Proof. unfold count. by rewrite List.filter_app, length_app. Qed.

Lemma written_other fd c r t : (forall d, c <> SWrite fd d) -> written fd ((c, r) :: t) = written fd t.
Proof.
  intros H. unfold written. destruct c; try done. cbn. destruct (Z.eqb_spec fd0 fd) as [->|]; [by destruct (H data)|done].
Qed.

(** The trace of a child: it exits when [fork] has returned 0. *)
Definition ends_in_child (t : trace) : Prop := exists t' r, t = t' ++ [(SFork, r)] /\ r_val r = 0.

Lemma child_cons e t : ends_in_child t -> ends_in_child (e :: t).
Proof. intros (t' & r & -> & H). by exists (e :: t'), r. Qed.

Lemma child_app t1 t2 : ends_in_child t2 -> ends_in_child (t1 ++ t2).
Proof. intros (t' & r & -> & H). exists (t1 ++ t'), r. by rewrite <- app_assoc. Qed.

Lemma fork_loop_runs turns : forall n t o, runs (fork_loop turns n) t o -> written 1 t = [] /\ count collected t = 0%nat /\
  ((o = Exited /\ ends_in_child t) \/ (o = Finished (n + count forked t)%nat /\ (count forked t <= turns)%nat)).
Proof.
  induction turns as [|turns IH]; intros n t o H; cbn [fork_loop] in H.
  - run_inv H. split_and!; [done..|right]. unfold count. cbn. split; [by rewrite Nat.add_0_r|lia].
  - apply runs_sysv in H as (r & t' & -> & H). rewrite written_other by done. rewrite !count_cons. cbn [fst snd collected forked].
    destruct (Z.ltb_spec (r_val r) 0) as [H1|H1]; [|destruct (Z.eqb_spec (r_val r) 0) as [H2|H2]].
    + run_inv H. rewrite (proj2 (Z.ltb_ge _ _)) by lia. split_and!; [done..|right]. cbn. split; [by rewrite Nat.add_0_r|lia].
    + run_inv H. split_and!; [done..|left]. split; [done|]. by exists [], r.
    + rewrite (proj2 (Z.ltb_lt _ _)) by lia. destruct (IH _ _ _ H) as (W & C & [[-> K]|[-> K]]).
      * split_and!; [done..|left]. split; [done|by apply child_cons].
      * split_and!; [done..|right]. split; [f_equal; lia|lia].
Qed.

Lemma forktest_printf_runs s t o : runs (forktest_printf 1 s) t o ->
  o = Finished tt /\ written 1 t = s /\ count forked t = 0%nat /\ count collected t = 0%nat.
Proof. intros H. apply runs_sysv in H as (r & t' & -> & H). run_inv H. rewrite written_write, app_nil_r. done. Qed.

Lemma verdict_runs s t o : runs (do* forktest_printf 1 s; @Exit unit) t o ->
  o = Exited /\ written 1 t = s /\ count forked t = 0%nat /\ count collected t = 0%nat.
Proof.
  intros [(a & t1 & t2 & -> & H1 & H2)|[-> H1]]%runs_bind_inv; [|by apply forktest_printf_runs in H1 as [? _]].
  run_inv H2. rewrite app_nil_r. apply forktest_printf_runs in H1 as (_ & H1). done.
Qed.

Lemma wait_loop_runs n : forall t o, runs (wait_loop n) t o -> count forked t = 0%nat /\
  ((o = Finished tt /\ written 1 t = [] /\ count collected t = n) \/
   (o = Exited /\ written 1 t = line "wait stopped early" /\ (count collected t < n)%nat)).
Proof.
  induction n as [|n IH]; intros t o H; cbn [wait_loop] in H; [run_inv H; split; [done|by left]|].
  apply runs_sysv in H as (r & t' & -> & H). rewrite written_other by done. rewrite !count_cons. cbn [fst snd collected forked].
  destruct (Z.ltb_spec (r_val r) 0) as [H1|H1].
  - apply verdict_runs in H as (-> & W & C1 & C2). rewrite C1, C2, (proj2 (Z.leb_gt _ _)) by lia. split; [done|right]. split_and!; [done|done|lia].
  - rewrite (proj2 (Z.leb_le _ _)) by lia. destruct (IH _ _ H) as (C & [(-> & W & K)|(-> & W & K)]); (split; [done|]).
    + left. split_and!; [done|done|lia].
    + right. split_and!; [done|done|lia].
Qed.

(** What the message of a run says of the children made and collected. *)
Definition verdict_ok (n w : nat) (verdict : list Z) : Prop :=
  (verdict = line "fork claimed to work N times!" /\ n = forktest_N) \/
  (verdict = line "wait stopped early" /\ (w < n < forktest_N)%nat) \/
  (verdict = line "wait got too many" /\ (n <= w)%nat /\ (n < forktest_N)%nat) \/
  (verdict = line "fork test OK" /\ w = n /\ (n < forktest_N)%nat).

(** The part of forktest that follows the first loop. *)
Lemma forktest_rest n t o : (n <= forktest_N)%nat ->
  runs (if (n =? forktest_N)%nat then do* forktest_printf 1 (line "fork claimed to work N times!"); Exit
        else do* wait_loop n; let* pid := sysv SWait in
          if negb (pid =? -1) then do* forktest_printf 1 (line "wait got too many"); Exit else forktest_printf 1 (line "fork test OK")) t o ->
  count forked t = 0%nat /\ verdict_ok n (count collected t) (written 1 t).
Proof.
  unfold verdict_ok. generalize forktest_N. intros N Hn H. destruct (Nat.eqb_spec n N) as [->|Hne].
  { apply verdict_runs in H as (_ & W & C & _). split; [done|by left]. }
  apply runs_bind_inv in H as [([] & t1 & t2 & -> & H1 & H2)|[-> H1]]; apply wait_loop_runs in H1 as (C1 & [(E & W1 & K1)|(E & W1 & K1)]); try discriminate E.
  - apply runs_sysv in H2 as (r & t3 & -> & H2). rewrite fd_written_app, !count_app, !count_cons, written_other, C1, W1, K1 by done. cbn [forked collected fst snd].
    destruct (Z.eqb_spec (r_val r) (-1)) as [Hr|Hr]; cbn [negb] in H2.
    + apply forktest_printf_runs in H2 as (_ & W & -> & ->). rewrite W, (proj2 (Z.leb_gt _ _)) by lia. split; [done|]. do 3 right. split_and!; [done|lia..].
    + apply verdict_runs in H2 as (_ & W & -> & ->). rewrite W. split; [done|]. do 2 right. left. split_and!; [done|lia..].
  - rewrite C1, W1. split; [done|]. right; left. split; [done|lia].
Qed.

(** What forktest prints.  A child exits at once; in the parent the message
    says how the children it has made compare with those it has collected. *)
Theorem forktest_verdict t o : runs forktest_main t o -> o = Exited /\
  (ends_in_child t \/
   exists verdict, written 1 t = line "fork test" ++ verdict /\ verdict_ok (count forked t) (count collected t) verdict).
Proof.
  assert (Ho : runs forktest_main t o -> o = Exited /\ exists o', runs forktest t o').
  { intros [(a & t1 & t2 & -> & H1 & H2)|[-> H1]]%runs_bind_inv; [run_inv H2; rewrite app_nil_r|]; eauto. }
  intros [-> [o' H]]%Ho. split; [done|]. unfold forktest in H.
  apply runs_bind_inv in H as [([] & t1 & t2 & -> & H1 & H)|[_ H1]]; apply forktest_printf_runs in H1 as (E & W1 & C1 & C2); [|discriminate E].
  apply runs_bind_inv in H as [(n & t3 & t4 & -> & H3 & H4)|[_ H3]]; apply fork_loop_runs in H3 as (W3 & C3 & [[E' K]|[E' K]]); try discriminate E'.
  - injection E' as ->. apply forktest_rest in H4 as (C4 & V); [|done]. right. exists (written 1 t4).
    rewrite !fd_written_app, !count_app, W1, W3, C1, C2, C3, C4. cbn [Nat.add app]. by rewrite Nat.add_0_r.
  - left. by apply child_app.
Qed.

(** *** The reports of times *)

(** The bytes that the kernel has stored in the replies to [c]. *)
Definition stored_by (c : syscall) (t : trace) : list (list Z) :=
  omap (fun e => match c, fst e with SWait2, SWait2 | SWait3, SWait3 => Some (r_data (snd e)) | _, _ => None end) t.

Lemma stored_by_app c t1 t2 : stored_by c (t1 ++ t2) = stored_by c t1 ++ stored_by c t2.
Proof. apply omap_app. Qed.

Lemma printed {A} (p : prog A) l a t o c : prints 1 p l a -> runs p t o ->
  o = Finished a /\ written 1 t = map u8 l /\ stored_by c t = [] /\ Forall (fun e => fst e <> SFork) t.
Proof.
  intros Hp [-> Ht]%Hp. split; [done|]. clear Hp. revert l Ht. induction t as [|[s r] t IH]; intros [|x l] Ht; try done.
  cbn in Ht. injection Ht as -> Ht. destruct (IH l Ht) as (W & S & F). rewrite written_write, W.
  split_and!; [done|by destruct c|by constructor].
Qed.

Definition in_parent (e : syscall * reply) : Prop := fst e = SFork -> 0 < r_val (snd e).

Lemma fork_children_runs n child : forall i t o, runs (fork_children n i child) t o -> Forall in_parent t ->
  o = Finished tt /\ written 1 t = [] /\ forall c, stored_by c t = [].
Proof.
  induction n as [|n IH]; intros i t o H Hp; cbn [fork_children] in H; [by run_inv H|].
  apply runs_sysv in H as (r & t' & -> & H). apply Forall_cons in Hp as [H0 Hp]. specialize (H0 eq_refl). cbn in H0.
  rewrite (proj2 (Z.ltb_ge _ _)), (proj2 (Z.eqb_neq _ _)) in H by lia. destruct (IH _ _ _ H Hp) as (-> & W & S).
  split_and!; [done|by rewrite written_other|]. intros c. rewrite <- (S c). by destruct c.
Qed.

Definition decimal (z : Z) : list Z := uprintint_chars (i32 z) 10 true.

(** The two lines about child [i]. *)
Definition report_text (locals : Z -> Z * Z) (i : Z) (data : list Z) : list Z :=
  let w := stored (fst (locals i)) data 0 in let r := stored (snd (locals i)) data 1 in
  bytes "child " ++ decimal i ++ bytes " : " ++
  bytes "wtime : " ++ decimal w ++ bytes " , rtime : " ++ decimal r ++ bytes " , turnaround time : " ++ decimal (i32 (w + r)) ++ [NL; NL].

Lemma report_prints locals i data : prints 1 (report locals i data) (report_text locals i data) tt.
Proof.
  unfold report, report_text. set (w := stored _ data 0). set (r := stored _ data 1).
  replace (bytes "child " ++ _) with ((bytes "child " ++ decimal i ++ bytes " : ") ++
    bytes "wtime : " ++ decimal w ++ bytes " , rtime : " ++ decimal r ++ bytes " , turnaround time : " ++ decimal (i32 (w + r)) ++ [NL; NL])
    by (by rewrite <- !app_assoc).
  apply (prints_bind 1 _ (fun _ => _) _ _ tt); apply printf_prints; reflexivity.
Qed.

Lemma reports_run locals n : forall i t o, runs (upfrom n i (fun i => let* r := sys SWait2 in report locals i (r_data r))) t o ->
  o = Finished tt /\ length (stored_by SWait2 t) = n /\
  written 1 t = map u8 (concat (imap (fun k => report_text locals (i + Z.of_nat k)) (stored_by SWait2 t))).
Proof.
  induction n as [|n IH]; intros i t o H; cbn [upfrom] in H; [by run_inv H|].
  apply runs_bind_inv in H as [([] & t1 & t2 & -> & H1 & H2)|[-> H1]]; apply runs_sys in H1 as (r & t3 & -> & H1);
    destruct (printed _ _ _ _ _ SWait2 (report_prints locals i (r_data r)) H1) as (E & W & S & _); [|discriminate E].
  destruct (IH _ _ _ H2) as (-> & L & W2). cbn [app]. rewrite written_other, fd_written_app, W, W2 by done.
  change (stored_by SWait2 ((SWait2, r) :: t3 ++ t2)) with (r_data r :: stored_by SWait2 (t3 ++ t2)). rewrite stored_by_app, S.
  cbn [app length imap concat]. split_and!; [done|by rewrite L|]. rewrite map_app, Z.add_0_r. do 3 f_equal.
  apply imap_ext. intros k x _. cbn. f_equal. lia.
Qed.

(** RRsanity in the parent collects ten children and reports the times that
    the kernel stored for each of them. *)
Theorem RRsanity_reports locals t o : runs (RRsanity_main locals) t o -> Forall in_parent t ->
  o = Exited /\ length (stored_by SWait2 t) = 10%nat /\
  written 1 t = map u8 (concat (imap (fun k => report_text locals (Z.of_nat k)) (stored_by SWait2 t))).
Proof.
  intros H Hp. unfold RRsanity_main in H.
  apply runs_bind_inv in H as [([] & t1 & t2 & -> & H1 & H2)|[_ H1]]; [|by apply fork_children_runs in H1 as [? _]].
  apply Forall_app in Hp as [Hp1 Hp2]. destruct (fork_children_runs _ _ _ _ _ H1 Hp1) as (_ & W1 & S1).
  rewrite fd_written_app, stored_by_app, W1, S1. cbn [app].
  apply runs_bind_inv in H2 as [([] & t3 & t4 & -> & H3 & H4)|[_ H3]]; [|by apply reports_run in H3 as [? _]].
  run_inv H4. rewrite app_nil_r. apply reports_run in H3 as (_ & L & W). split_and!; [done|done|]. rewrite W. do 2 f_equal.
Qed.

(** A time is reported as it is if and only if the variable, which is not
    initialised, happens to have the upper three bytes of the time. *)
Theorem stored_exact old data k v : - 2 ^ 31 <= v < 2 ^ 31 -> data !! k = Some (u8 v) ->
  stored old data k = v <-> u32 old / 256 = u32 v / 256.
Proof.
  intros Hv E. unfold stored. rewrite E. unfold i32, u32, u8 in *. Z.div_mod_to_equations. lia.
Qed.

(** *** The sums of sanity *)

Definition total_of (f : child_times -> Z) (ks : list child_times) : Z := foldr (fun k z => f k + z) 0 ks.
Definition in_queue (q : nat) (k : child_times) : bool :=
  let c3 := q3tatime k =? 255 in let c2 := q2tatime k =? 255 in
  match q with 3%nat => c3 && c2 | 2%nat => negb c3 && c2 | _ => negb c3 && negb c2 end.
Definition part_of (q : nat) (f : child_times -> Z) (k : child_times) : Z := if in_queue q k then f k else 0.

Definition waiting (k : child_times) : Z := wtime k.
Definition turnaround (k : child_times) : Z := rtime k + wtime k.

(** [v] is the [int] that has collected the values of [f]. *)
Definition collects (f : child_times -> Z) (ks : list child_times) (v : Z) : Prop := v = i32 (total_of f ks).

Record sums_of (ks : list child_times) (x : sums) : Prop := {
  so_aw : collects waiting ks (avg_waiting x); so_at : collects turnaround ks (avg_tatime x);
  so_3w : collects (part_of 3 waiting) ks (Q3_waiting x); so_3t : collects (part_of 3 turnaround) ks (Q3_tatime x);
  so_2w : collects (part_of 2 waiting) ks (Q2_waiting x); so_2t : collects (part_of 2 turnaround) ks (Q2_tatime x);
  so_1w : collects (part_of 1 waiting) ks (Q1_waiting x); so_1t : collects (part_of 1 turnaround) ks (Q1_tatime x)
}.

Lemma total_snoc f ks k : total_of f (ks ++ [k]) = total_of f ks + f k.
Proof. unfold total_of. induction ks as [|x ks IH]; cbn [foldr app]; [lia|]. rewrite IH. lia. Qed.

Lemma i32_add_l x y : i32 (i32 x + y) = i32 (x + y).
Proof.
  unfold i32. f_equal. replace (_ - 2 ^ 31 + y + 2 ^ 31) with ((x + 2 ^ 31) mod 2 ^ 32 + y) by lia.
  rewrite Zplus_mod_idemp_l. f_equal. lia.
Qed.
Lemma i32_add_r x y : i32 (x + i32 y) = i32 (x + y).
Proof. by rewrite (Z.add_comm x (i32 y)), i32_add_l, Z.add_comm. Qed.
Lemma i32_idem x : i32 (i32 x) = i32 x.
Proof. pose proof (i32_add_l x 0) as H. by rewrite !Z.add_0_r in H. Qed.

Lemma collects_add f ks k v z : collects f ks v -> i32 z = i32 (f k) -> collects f (ks ++ [k]) (i32 (v + z)).
Proof. unfold collects. intros -> Hz. by rewrite total_snoc, i32_add_l, <- (i32_add_r _ z), Hz, i32_add_r. Qed.

Lemma collects_keep f ks k v : collects f ks v -> f k = 0 -> collects f (ks ++ [k]) v.
Proof. unfold collects. intros -> Hz. by rewrite total_snoc, Hz, Z.add_0_r. Qed.

Lemma add_times_sums ks x k : sums_of ks x -> sums_of (ks ++ [k]) (add_times k x).
Proof.
  intros []. assert (Ht : i32 (i32 (rtime k + wtime k)) = i32 (turnaround k)) by apply i32_idem.
  unfold add_times. destruct (q3tatime k =? 255) eqn:E3, (q2tatime k =? 255) eqn:E2; cbn [negb andb];
    split; cbn; first [by apply collects_add | apply collects_add; [done|unfold part_of, in_queue; rewrite E3, E2; done]
      | apply collects_keep; [done|unfold part_of, in_queue; by rewrite E3, E2]].
Qed.

Lemma wait3_runs locals n : forall i x t o ks, sums_of ks x -> runs (wait3_loop locals n i x) t o ->
  exists x', o = Finished x' /\ length (stored_by SWait3 t) = n /\
    sums_of (ks ++ imap (fun k => stored_times (locals (i + Z.of_nat k))) (stored_by SWait3 t)) x'.
Proof.
  induction n as [|n IH]; intros i x t o ks Hx H; cbn [wait3_loop] in H.
  { run_inv H. exists x. cbn. by rewrite app_nil_r. }
  apply runs_sys in H as (r & t1 & -> & H). set (k := stored_times _ _) in H.
  assert (Hp : exists l, prints 1 (if (q3tatime k =? 255) && (q2tatime k =? 255) then printf 1 (line "3") [] else Done tt) l tt).
  { destruct (_ && _); eexists; [apply printf_prints; reflexivity|apply prints_done]. }
  destruct Hp as [l Hp].
  apply runs_bind_inv in H as [([] & t2 & t3 & -> & H2 & H3)|[_ H2]]; destruct (printed _ _ _ _ _ SWait3 Hp H2) as (E & _ & S & _); [|discriminate E].
  destruct (IH _ _ _ _ _ (add_times_sums _ _ k Hx) H3) as (x' & -> & L & Hs). exists x'. split; [done|].
  change (stored_by SWait3 ((SWait3, r) :: t2 ++ t3)) with (r_data r :: stored_by SWait3 (t2 ++ t3)). rewrite stored_by_app, S.
  cbn [app length imap]. split; [by rewrite L|]. rewrite <- app_assoc in Hs. cbn [app] in Hs. rewrite Z.add_0_r. fold k.
  erewrite imap_ext; [exact Hs|]. intros j d _. cbn. f_equal. f_equal. lia.
Qed.

Lemma parts_add f ks : Forall (fun k => q3tatime k = 255 -> q2tatime k = 255) ks ->
  total_of (part_of 3 f) ks + total_of (part_of 2 f) ks + total_of (part_of 1 f) ks = total_of f ks.
Proof.
  induction 1 as [|k ks Hk _ IH]; [done|]. cbn [total_of foldr]. fold (total_of f ks). rewrite <- IH. unfold total_of.
  assert (Ek : part_of 3 f k + part_of 2 f k + part_of 1 f k = f k); [|lia].
  unfold part_of, in_queue. destruct (Z.eqb_spec (q3tatime k) 255), (Z.eqb_spec (q2tatime k) 255); cbn; lia.
Qed.

Lemma collected_parts f ks x3 x2 x1 v : Forall (fun k => q3tatime k = 255 -> q2tatime k = 255) ks ->
  collects (part_of 3 f) ks x3 -> collects (part_of 2 f) ks x2 -> collects (part_of 1 f) ks x1 -> collects f ks v -> i32 (x3 + x2 + x1) = v.
Proof.
  unfold collects. intros Hk -> -> -> ->. rewrite <- (parts_add f ks Hk), i32_add_r, <- i32_add_l, i32_add_r, i32_add_l, <- Z.add_assoc, i32_add_l.
  f_equal. lia.
Qed.

(** What sanity has when its loop ends: [avg_waiting] and [avg_tatime], which
    it prints as averages, are the sums over all the children, and the others
    the sums over the children of a queue; so the times of the queues add up
    to those of all children if no child is of the kind that the three tests
    leave out. *)
Theorem sanity_sums locals n i t o : runs (wait3_loop locals n i no_sums) t o ->
  exists x ks, o = Finished x /\ length ks = n /\ sums_of ks x /\
    ks = imap (fun k => stored_times (locals (i + Z.of_nat k))) (stored_by SWait3 t) /\
    (Forall (fun k => q3tatime k = 255 -> q2tatime k = 255) ks ->
      i32 (Q3_waiting x + Q2_waiting x + Q1_waiting x) = avg_waiting x /\ i32 (Q3_tatime x + Q2_tatime x + Q1_tatime x) = avg_tatime x).
Proof.
  intros H. assert (H0 : sums_of [] no_sums) by (split; done). destruct (wait3_runs _ _ _ _ _ _ [] H0 H) as (x & -> & L & Hs).
  exists x, (imap (fun k => stored_times (locals (i + Z.of_nat k))) (stored_by SWait3 t)).
  split_and!; [done|by rewrite length_imap|done|done|]. destruct Hs. intros Hk. split; by eapply collected_parts.
Qed.
