(* ===== verification/Shell.v ===== *)
(** * The shell: parsing (sh.c)

    The parser works on the bytes of the line before its NUL; a [char *] into
    the line is an offset, [es] is the length.  A word of a command is the pair
    of offsets [(q, eq)] that the code keeps in [argv] and [eargv] (or [file]
    and [efile]) until [nulterminate].  The parsing functions call each other,
    so each takes a bound on the depth of calls and turns. *)

From Stdlib Require Import Ascii String.
From S2P Require Import Prelude State Monad Mem Spinlock ConsoleOut UserProg Ulib.

(** The five kinds of [struct cmd]. *)
Inductive cmd (W : Type) : Type :=
| CExec (argv : list W)
| CRedir (c : cmd W) (file : W) (mode fd : Z)
| CPipe (left right : cmd W)
| CList (left right : cmd W)
| CBack (c : cmd W).
Arguments CExec {W}. Arguments CRedir {W}. Arguments CPipe {W}. Arguments CList {W}. Arguments CBack {W}.

Fixpoint cmd_map {V W} (f : V -> W) (c : cmd V) : cmd W :=
  match c with
  | CExec argv => CExec (f <$> argv)
  | CRedir c file mode fd => CRedir (cmd_map f c) (f file) mode fd
  | CPipe l r => CPipe (cmd_map f l) (cmd_map f r)
  | CList l r => CList (cmd_map f l) (cmd_map f r)
  | CBack c => CBack (cmd_map f c)
  end.

Fixpoint cmd_words {W} (c : cmd W) : list W :=
  match c with
  | CExec argv => argv
  | CRedir c file _ _ => cmd_words c ++ [file]
  | CPipe l r => cmd_words l ++ cmd_words r
  | CList l r => cmd_words l ++ cmd_words r
  | CBack c => cmd_words c
  end.

Definition word : Type := nat * nat.

Definition MAXARGS : nat := 10.
Definition whitespace : list Z := [32; 9; 13; 10; 11].
Definition symbols : list Z := bytes "<|>&;()".
(** [strchr(set, c)] for the sets of the parser, which contain no NUL. *)
Definition mem_set (set : list Z) (c : Z) : bool := existsb (Z.eqb c) set.
Definition is_space (c : Z) : bool := mem_set whitespace c.
Definition is_plain (c : Z) : bool := negb (is_space c) && negb (mem_set symbols c).

(** What the parser can end with: a value, the message of [panic], the rest of
    the line that [parsecmd] prints before it panics, or the bound on its depth. *)
Inductive parse (A : Type) : Type := Parsed (a : A) | Panicked (msg : string) | Leftovers (rest : list Z) | TooDeep.
Arguments Parsed {A}. Arguments Panicked {A}. Arguments Leftovers {A}. Arguments TooDeep {A}.

Definition parse_bind {A B} (m : parse A) (f : A -> parse B) : parse B :=
  match m with Parsed a => f a | Panicked msg => Panicked msg | Leftovers l => Leftovers l | TooDeep => TooDeep end.
Notation "'let+' x := m 'in' k" := (parse_bind m (fun x => k))
  (at level 200, x pattern at level 0, m at level 200, k at level 200, right associativity).

Section parser.
Variable buf : list Z.
Definition es : nat := length buf.
Definition char_at (s : nat) : Z := nth s buf 0.

(** [while(s < es && p(char at s)) s++] *)
Fixpoint skip_while (p : Z -> bool) (n s : nat) : nat :=
  match n with
  | O => s
  | S n' => if p (char_at s) then skip_while p n' (S s) else s
  end.
Definition skip (p : Z -> bool) (s : nat) : nat := skip_while p (es - s) s.

(** The code of the token, its first and last offset, and the next [s]. *)
Definition gettoken (s : nat) : Z * nat * nat * nat :=
  let s := skip is_space s in
  let q := s in
  let c := char_at s in
  let '(ret, s) :=
    if c =? 0 then (0, s)
    else if mem_set (bytes "|();&<") c then (c, S s)
    else if c =? ch ">" then
      if char_at (S s) =? ch ">" then (ch "+", S (S s)) else (c, S s)
    else (ch "a", skip is_plain s) in
  let eq := s in
  (ret, q, eq, skip is_space s).

Definition peek (s : nat) (toks : list Z) : bool * nat :=
  let s := skip is_space s in
  (negb (char_at s =? 0) && mem_set toks (char_at s), s).

(** A redirection that is to be put around a command. *)
Record redirection := MkRedir { rd_file : word; rd_mode : Z; rd_fd : Z }.
Definition redir_cmd (c : cmd word) (r : redirection) : cmd word := CRedir c (rd_file r) (rd_mode r) (rd_fd r).

(** The redirections at [s], the first one first: [cmd = redircmd(cmd, ...)]
    puts each around what is there, while [parseexec] still adds arguments to
    the command inside. *)
Fixpoint parseredirs (n s : nat) : parse (list redirection * nat) :=
  match n with
  | O => TooDeep
  | S n' =>
      let '(b, s) := peek s (bytes "<>") in
      if b then
        let '(tok, _, _, s) := gettoken s in
        let '(t2, q, eq, s) := gettoken s in
        if negb (t2 =? ch "a") then Panicked "missing file for redirection"
        else
          let+ (rs, s) := parseredirs n' s in
          let r := if tok =? ch "<" then MkRedir (q, eq) O_RDONLY 0
                   else MkRedir (q, eq) (Z.lor O_WRONLY O_CREATE) 1 in
          Parsed (r :: rs, s)
      else Parsed ([], s)
  end.

(** The loop over the arguments of a simple command; [argc] are read. *)
Fixpoint parseargs (n argc s : nat) : parse (list word * list redirection * nat) :=
  match n with
  | O => TooDeep
  | S n' =>
      let '(b, s) := peek s (bytes "|)&;") in
      if b then Parsed ([], [], s)
      else
        let '(tok, q, eq, s) := gettoken s in
        if tok =? 0 then Parsed ([], [], s)
        else if negb (tok =? ch "a") then Panicked "syntax"
        else if (MAXARGS <=? S argc)%nat then Panicked "too many args"
        else
          let+ (rs, s) := parseredirs n' s in
          let+ (args, rs', s) := parseargs n' (S argc) s in
          Parsed ((q, eq) :: args, rs ++ rs', s)
  end.

(** [while(peek(ps, es, "&"))] of [parseline] *)
Fixpoint parseback (n : nat) (c : cmd word) (s : nat) : parse (cmd word * nat) :=
  match n with
  | O => TooDeep
  | S n' =>
      let '(b, s) := peek s (bytes "&") in
      if b then let '(_, _, _, s) := gettoken s in parseback n' (CBack c) s
      else Parsed (c, s)
  end.

Fixpoint parseline (n s : nat) : parse (cmd word * nat) :=
  match n with
  | O => TooDeep
  | S n' =>
      let+ (c, s) := parsepipe n' s in
      let+ (c, s) := parseback n' c s in
      let '(b, s) := peek s (bytes ";") in
      if b then
        let '(_, _, _, s) := gettoken s in
        let+ (r, s) := parseline n' s in
        Parsed (CList c r, s)
      else Parsed (c, s)
  end
with parsepipe (n s : nat) : parse (cmd word * nat) :=
  match n with
  | O => TooDeep
  | S n' =>
      let+ (c, s) := parseexec n' s in
      let '(b, s) := peek s (bytes "|") in
      if b then
        let '(_, _, _, s) := gettoken s in
        let+ (r, s) := parsepipe n' s in
        Parsed (CPipe c r, s)
      else Parsed (c, s)
  end
with parseexec (n s : nat) : parse (cmd word * nat) :=
  match n with
  | O => TooDeep
  | S n' =>
      let '(b, s) := peek s (bytes "(") in
      if b then parseblock n' s
      else
        let+ (rs, s) := parseredirs n' s in
        let+ (args, rs', s) := parseargs n' 0 s in
        Parsed (foldl redir_cmd (CExec args) (rs ++ rs'), s)
  end
with parseblock (n s : nat) : parse (cmd word * nat) :=
  match n with
  | O => TooDeep
  | S n' =>
      let '(b, s) := peek s (bytes "(") in
      if negb b then Panicked "parseblock"
      else
        let '(_, _, _, s) := gettoken s in
        let+ (c, s) := parseline n' s in
        let '(b, s) := peek s (bytes ")") in
        if negb b then Panicked "syntax - missing )"
        else
          let '(_, _, _, s) := gettoken s in
          let+ (rs, s) := parseredirs n' s in
          Parsed (foldl redir_cmd c rs, s)
  end.
End parser.

(** The NULs that end the words of a command. *)
Fixpoint nulterminate (c : cmd word) (buf : list Z) : list Z :=
  match c with
  | CExec argv => foldl (fun b w => <[snd w := 0]> b) buf argv
  | CRedir c file _ _ => <[snd file := 0]> (nulterminate c buf)
  | CPipe l r => nulterminate r (nulterminate l buf)
  | CList l r => nulterminate r (nulterminate l buf)
  | CBack c => nulterminate c buf
  end.

(** The depth that a line of this length can need. *)
Definition depth (buf : list Z) : nat := 6 * length buf + 10.

(** The command and the line with its NULs. *)
Definition parsecmd (buf : list Z) : parse (cmd word * list Z) :=
  let+ (c, s) := parseline buf (depth buf) 0 in
  let '(_, s) := peek buf s [] in
  if negb (s =? es buf)%nat then Leftovers (drop s buf)
  else Parsed (c, nulterminate c buf).

(** The string at a word of the line. *)
Definition string_at (buf : list Z) (w : word) : list Z := until_nul (drop (fst w) buf).
