(* ===== verification/ShellFacts.v ===== *)
(** * The shell: lexing and parsing

    A line is a sequence of tokens with white space between them.  [gettoken]
    and [peek] read that sequence, and the parser builds from the tokens of a
    command, as the grammar writes them, the command itself. *)

From Stdlib Require Import Ascii String.
From S2P Require Import Prelude State Monad Mem Spinlock ConsoleOut UserProg Ulib Shell.

(** ** Tokens *)

Inductive token := TSym (c : Z) | TApp | TWord (w : list Z).

Definition tok_text (t : token) : list Z :=
  match t with TSym c => [c] | TApp => bytes ">>" | TWord w => w end.
Definition tok_code (t : token) : Z :=
  match t with TSym c => c | TApp => ch "+" | TWord _ => ch "a" end.

Definition plain (c : Z) : Prop := is_plain c = true /\ c <> 0.
Definition tok_ok (t : token) : Prop :=
  match t with
  | TSym c => mem_set symbols c = true
  | TApp => True
  | TWord w => w <> [] /\ Forall plain w
  end.

(** What may follow a token directly. *)
Definition ends (t : token) (l : list Z) : Prop :=
  match t with
  | TSym c => c = ch ">" -> hd 0 l <> ch ">"
  | TApp => True
  | TWord _ => match l with [] => True | c :: _ => is_plain c = false end
  end.

Definition spaces (l : list Z) : Prop := Forall (fun c => is_space c = true) l.

Inductive lexes : list Z -> list token -> Prop :=
| lex_nil ws : spaces ws -> lexes ws []
| lex_cons ws t l ts : spaces ws -> tok_ok t -> ends t l -> lexes l ts -> lexes (ws ++ tok_text t ++ l) (t :: ts).

(** ** Offsets *)

Section offsets.
Variable buf : list Z.

(** At offset [s] the rest of the line is [l]. *)
Definition rest (s : nat) (l : list Z) : Prop := (s <= length buf)%nat /\ drop s buf = l.

Lemma rest_length s l : rest s l -> length l = (length buf - s)%nat.
Proof. intros [_ <-]. apply length_drop. Qed.

Lemma rest_app s a b : rest s (a ++ b) -> rest (s + length a) b.
Proof.
  intros H. pose proof (rest_length _ _ H) as Hl. rewrite length_app in Hl. destruct H as [Hs H]. split; [lia|].
  rewrite <- drop_drop, H. apply drop_app_length.
Qed.

Lemma rest_char s l : rest s l -> char_at buf s = hd 0 l.
Proof.
  intros [Hs H]. unfold char_at. rewrite <- (take_drop s buf), H at 1. rewrite app_nth2; rewrite length_take; [|lia].
  replace (s - s `min` length buf)%nat with 0%nat by lia. by destruct l.
Qed.

Lemma skip_while_spec p a : forall s b n,
  rest s (a ++ b) -> n = length (a ++ b) -> Forall (fun c => p c = true) a ->
  match b with [] => True | c :: _ => p c = false end -> skip_while buf p n s = (s + length a)%nat.
Proof.
  induction a as [|c a IH]; intros s b n Hr -> Ha Hb; cbn [length app].
  - rewrite Nat.add_0_r. destruct b as [|c b]; [done|]. cbn. rewrite (rest_char _ _ Hr). cbn. by rewrite Hb.
  - apply Forall_cons in Ha as [Hc Ha]. cbn. rewrite (rest_char _ _ Hr). cbn. rewrite Hc.
    rewrite (IH (S s) b); [lia| |done|done|done]. apply (rest_app s [c]) in Hr. by rewrite Nat.add_1_r in Hr.
Qed.

Lemma skip_spec p s a b :
  rest s (a ++ b) -> Forall (fun c => p c = true) a ->
  match b with [] => True | c :: _ => p c = false end ->
  skip buf p s = (s + length a)%nat /\ rest (skip buf p s) b.
Proof.
  intros Hr Ha Hb. assert (E : skip buf p s = (s + length a)%nat).
  { unfold skip. apply skip_while_spec with b; [done| |done|done]. unfold es. by rewrite (rest_length _ _ Hr). }
  split; [done|]. rewrite E. by apply rest_app.
Qed.
End offsets.

Lemma symbol_facts c : mem_set symbols c = true ->
  is_space c = false /\ is_plain c = false /\ c <> 0 /\ (mem_set (bytes "|();&<") c = true \/ c = ch ">") /\
  c <> ch "a" /\ c <> ch "+".
Proof.
  intros H. unfold mem_set in H. apply existsb_exists in H as (d & Hd & E%Z.eqb_eq). subst d.
  change symbols with [60; 124; 62; 38; 59; 40; 41] in Hd.
  repeat destruct Hd as [<-|Hd]; try done; vm_compute; (split_and!; try done); by (left + right).
Qed.

Lemma plain_facts c : plain c -> is_space c = false /\ c <> 0 /\ mem_set (bytes "|();&<") c = false /\ c <> ch ">".
Proof.
  intros [H Hc]. unfold is_plain in H. apply andb_prop in H as [H1%negb_true_iff H2%negb_true_iff].
  split_and!; [done|done| |].
  - apply not_true_is_false. intros H. unfold mem_set in *. apply existsb_exists in H as (d & Hd & E%Z.eqb_eq). subst d.
    change (bytes "|();&<") with [124; 40; 41; 59; 38; 60] in Hd.
    repeat destruct Hd as [<-|Hd]; try done; vm_compute in H2; discriminate H2.
  - intros ->. vm_compute in H2. discriminate H2.
Qed.

Definition starts (l : list Z) : Prop := match l with [] => True | c :: _ => is_space c = false end.

Lemma tok_text_head t : tok_ok t -> exists c r, tok_text t = c :: r /\ is_space c = false /\ c <> 0.
Proof.
  intros H. destruct t as [c| |[|c w]]; cbn [tok_text] in *.
  - exists c, []. destruct (symbol_facts c H) as (? & _ & ? & _). done.
  - by eexists _, _.
  - by destruct H.
  - destruct H as [_ [Hc _]%Forall_cons]. apply plain_facts in Hc as (? & ? & _). by eexists _, _.
Qed.

(** The white space at the front of a sequence of tokens. *)
Lemma lexes_front l ts : lexes l ts -> exists ws l', l = ws ++ l' /\ spaces ws /\ starts l' /\ lexes l' ts.
Proof.
  intros H. destruct H as [ws Hws|ws t l ts Hws Ht He Hl].
  - exists ws, []. split_and!; [by rewrite app_nil_r|done|done|apply (lex_nil []); constructor].
  - exists ws, (tok_text t ++ l). split_and!; [done|done| |].
    + destruct (tok_text_head t Ht) as (c & r & -> & Hc & _). done.
    + apply (lex_cons [] t l ts); [constructor|done..].
Qed.

Section lexer.
Variable buf : list Z.

Lemma skip_front s l ts :
  rest buf s l -> lexes l ts ->
  exists l', rest buf (skip buf is_space s) l' /\ starts l' /\ lexes l' ts.
Proof.
  intros Hr (ws & l' & -> & Hws & Hs & Hl)%lexes_front. exists l'. split; [|done].
  apply (skip_spec buf is_space s ws l' Hr Hws). by destruct l'.
Qed.

(** Tokens that start at the front of the line. *)
Lemma lexes_starts l t ts : lexes l (t :: ts) -> starts l ->
  exists l', l = tok_text t ++ l' /\ tok_ok t /\ ends t l' /\ lexes l' ts.
Proof.
  intros H Hs. inversion H as [|ws t' l' ts' Hws Ht He Hl]; subst. destruct ws as [|c ws]; [by exists l'|].
  apply Forall_cons in Hws as [Hc _]. cbn in Hc, Hs. congruence.
Qed.

Lemma lexes_end l : lexes l [] -> starts l -> l = [].
Proof.
  intros H Hs. inversion H as [ws Hws|]; subst. destruct l as [|c l]; [done|].
  apply Forall_cons in Hws as [Hc _]. cbn in Hc, Hs. congruence.
Qed.

Lemma peek_spec s l ts toks :
  rest buf s l -> lexes l ts ->
  exists s' l', peek buf s toks = (match ts with t :: _ => mem_set toks (hd 0 (tok_text t)) | [] => false end, s') /\
    (s <= s')%nat /\ rest buf s' l' /\ lexes l' ts.
Proof.
  intros Hr Hl. destruct (lexes_front l ts Hl) as (ws & l' & -> & Hws & Hs & Hl').
  destruct (skip_spec buf is_space s ws l' Hr Hws) as [E Hr']; [by destruct l'|].
  exists (skip buf is_space s), l'. split_and!; [|lia|done|done]. unfold peek. f_equal.
  rewrite (rest_char _ _ _ Hr'). destruct ts as [|t ts].
  - by rewrite (lexes_end l' Hl' Hs).
  - destruct (lexes_starts l' t ts Hl' Hs) as (l2 & -> & Ht & _). destruct (tok_text_head t Ht) as (c & r & -> & _ & Hc).
    cbn. by rewrite (proj2 (Z.eqb_neq c 0)) by done.
Qed.

Definition content (w : word) : list Z := take (snd w - fst w) (drop (fst w) buf).

Lemma gettoken_spec s l t ts :
  rest buf s l -> lexes l (t :: ts) ->
  exists q s' l', gettoken buf s = (tok_code t, q, (q + length (tok_text t))%nat, s') /\
    content (q, (q + length (tok_text t))%nat) = tok_text t /\
    (s < s')%nat /\ rest buf s' l' /\ lexes l' ts.
Proof.
  intros Hr Hl. destruct (lexes_front l _ Hl) as (ws & l0 & -> & Hws & Hs & Hl0).
  destruct (skip_spec buf is_space s ws l0 Hr Hws) as [Eq Hrq]; [by destruct l0|].
  destruct (lexes_starts l0 t ts Hl0 Hs) as (l1 & -> & Ht & He & Hl1).
  set (q := skip buf is_space s) in *. pose proof (rest_app buf q (tok_text t) l1 Hrq) as Hr1.
  remember (q + length (tok_text t))%nat as e eqn:Ede.
  destruct (lexes_front l1 _ Hl1) as (ws2 & l2 & -> & Hws2 & Hs2 & Hl2).
  destruct (skip_spec buf is_space e ws2 l2 Hr1 Hws2) as [Ee Hre]; [by destruct l2|].
  assert (Hlen : (0 < length (tok_text t))%nat) by (destruct t as [c| |[|c w]]; cbn; [lia|lia|by destruct Ht|lia]).
  assert (Hcont : content (q, e) = tok_text t).
  { unfold content. cbn [fst snd]. destruct Hrq as [_ E]. rewrite E.
    replace (e - q)%nat with (length (tok_text t)) by lia. apply take_app_length. }
  exists q, (skip buf is_space e), l2. rewrite <- Ede. split_and!; [|exact Hcont|lia|done|done].
  unfold gettoken. fold q. rewrite (rest_char _ _ _ Hrq). destruct t as [c| |w]; cbn [tok_text tok_code app hd] in *.
  - destruct (symbol_facts c Ht) as (_ & _ & Hc0 & Hc & _). rewrite (proj2 (Z.eqb_neq c 0)) by done.
    replace e with (S q) in * by (cbn in Ede; lia).
    destruct (mem_set (bytes "|();&<") c) eqn:Em; [done|]. destruct Hc as [Hc| ->]; [done|].
    cbn [Z.eqb]. rewrite (rest_char _ _ _ Hr1). rewrite Z.eqb_refl. rewrite (proj2 (Z.eqb_neq _ _)); [done|]. by apply He.
  - change (bytes ">>") with [ch ">"; ch ">"] in *. cbn [app hd].
    pose proof (rest_app buf q [ch ">"] ([ch ">"] ++ ws2 ++ l2) Hrq) as Hr2. cbn in Hr2. rewrite Nat.add_1_r in Hr2.
    rewrite (rest_char _ _ _ Hr2). replace e with (S (S q)) by (cbn in Ede; lia). done.
  - destruct Ht as [Hw0 Hw]. destruct w as [|c w]; [done|]. cbn [app hd].
    pose proof Hw as [Hc _]%Forall_cons. destruct (plain_facts c Hc) as (_ & H0 & Hm & Hgt).
    rewrite (proj2 (Z.eqb_neq c 0)), Hm, (proj2 (Z.eqb_neq c _)) by done.
    destruct (skip_spec buf is_plain q (c :: w) (ws2 ++ l2) Hrq) as [Ep _]; [|by destruct (ws2 ++ l2)|].
    + eapply Forall_impl; [exact Hw|]. by intros x [Hx _].
    + by rewrite Ep, Ede.
Qed.

Lemma gettoken_end s l :
  rest buf s l -> lexes l [] -> exists q e s', gettoken buf s = (0, q, e, s') /\ rest buf s' [].
Proof.
  intros Hr Hl. destruct (skip_front s l [] Hr Hl) as (l' & Hr' & Hs & Hl'). rewrite (lexes_end l' Hl' Hs) in Hr'.
  unfold gettoken. rewrite (rest_char _ _ _ Hr'). cbn. eexists _, _, _. split; [reflexivity|].
  assert (E : skip buf is_space (skip buf is_space s) = (skip buf is_space s + length (@nil Z))%nat).
  { by apply (skip_spec buf is_space (skip buf is_space s) [] []). }
  rewrite E, Nat.add_0_r. done.
Qed.
End lexer.
