(* ===== verification/Grammar.v ===== *)
(** * The shell: the grammar

    The language of command lines as the parser's functions recognise it,
    with the tokens of each phrase and the command that it stands for. *)

From Stdlib Require Import Ascii String.
From S2P Require Import Prelude State Monad Mem Spinlock ConsoleOut UserProg Ulib Shell ShellFacts.

Inductive sredir := RIn (w : list Z) | ROut (w : list Z) | RApp (w : list Z).

(** line ::= pipe '&'* [';' line],  pipe ::= exec ['|' pipe],
    exec ::= redir* (word redir* )* | '(' line ')' redir*  *)
Inductive sline :=
| LEnd (p : spipe) (bg : nat)
| LSeq (p : spipe) (bg : nat) (l : sline)
with spipe :=
| POne (e : sexec)
| PBar (e : sexec) (p : spipe)
with sexec :=
| ESimple (rs : list sredir) (ws : list (list Z * list sredir))
| EBlock (l : sline) (rs : list sredir).

Scheme sline_mind := Induction for sline Sort Prop
with spipe_mind := Induction for spipe Sort Prop
with sexec_mind := Induction for sexec Sort Prop.
Combined Scheme syntax_mind from sline_mind, spipe_mind, sexec_mind.

(** ** Tokens *)

Definition toks_redir (r : sredir) : list token :=
  match r with
  | RIn w => [TSym (ch "<"); TWord w]
  | ROut w => [TSym (ch ">"); TWord w]
  | RApp w => [TApp; TWord w]
  end.
Definition toks_redirs (rs : list sredir) : list token := concat (toks_redir <$> rs).
Definition toks_args (ws : list (list Z * list sredir)) : list token :=
  concat ((fun a => TWord (fst a) :: toks_redirs (snd a)) <$> ws).

Fixpoint toks_line (l : sline) : list token :=
  match l with
  | LEnd p bg => toks_pipe p ++ replicate bg (TSym (ch "&"))
  | LSeq p bg l => toks_pipe p ++ replicate bg (TSym (ch "&")) ++ TSym (ch ";") :: toks_line l
  end
with toks_pipe (p : spipe) : list token :=
  match p with
  | POne e => toks_exec e
  | PBar e p => toks_exec e ++ TSym (ch "|") :: toks_pipe p
  end
with toks_exec (e : sexec) : list token :=
  match e with
  | ESimple rs ws => toks_redirs rs ++ toks_args ws
  | EBlock l rs => TSym (ch "(") :: toks_line l ++ TSym (ch ")") :: toks_redirs rs
  end.

(** ** Commands *)

Definition redir_around (c : cmd (list Z)) (r : sredir) : cmd (list Z) :=
  match r with
  | RIn w => CRedir c w O_RDONLY 0
  | ROut w => CRedir c w (Z.lor O_WRONLY O_CREATE) 1
  | RApp w => CRedir c w (Z.lor O_WRONLY O_CREATE) 1
  end.

Fixpoint cmd_line (l : sline) : cmd (list Z) :=
  match l with
  | LEnd p bg => Nat.iter bg CBack (cmd_pipe p)
  | LSeq p bg l => CList (Nat.iter bg CBack (cmd_pipe p)) (cmd_line l)
  end
with cmd_pipe (p : spipe) : cmd (list Z) :=
  match p with
  | POne e => cmd_exec e
  | PBar e p => CPipe (cmd_exec e) (cmd_pipe p)
  end
with cmd_exec (e : sexec) : cmd (list Z) :=
  match e with
  | ESimple rs ws => foldl redir_around (CExec (fst <$> ws)) (rs ++ concat (snd <$> ws))
  | EBlock l rs => foldl redir_around (cmd_line l) rs
  end.

(** A simple command has less than MAXARGS words. *)
Fixpoint few_line (l : sline) : bool :=
  match l with LEnd p _ => few_pipe p | LSeq p _ l => few_pipe p && few_line l end
with few_pipe (p : spipe) : bool :=
  match p with POne e => few_exec e | PBar e p => few_exec e && few_pipe p end
with few_exec (e : sexec) : bool :=
  match e with ESimple _ ws => (length ws <? MAXARGS)%nat | EBlock l _ => few_line l end.

(** ** The parser on phrases of the grammar *)

(** The next token is one of [set], or the line ends. *)
Definition follows (set : list token) (ts : list token) : Prop :=
  match ts with [] => True | t :: _ => In t set end.

Definition after_line : list token := [TSym (ch ")")].
Definition after_pipe : list token := [TSym (ch ")"); TSym (ch "&"); TSym (ch ";")].
Definition after_exec : list token := [TSym (ch ")"); TSym (ch "&"); TSym (ch ";"); TSym (ch "|")].

Section phrases.
Variable buf : list Z.

(** Decide a test on concrete characters. *)
Ltac eval_if := match goal with |- context [if ?b then _ else _] => let v := eval vm_compute in b in change b with v end; cbv iota.

(** The parser has gone from [s] to [s'], where the tokens [ts] are left. *)
Definition at_tokens (s : nat) (ts : list token) : Prop := exists l, rest buf s l /\ lexes l ts.

Lemma peek_at s ts toks : at_tokens s ts ->
  exists s', peek buf s toks = (match ts with t :: _ => mem_set toks (hd 0 (tok_text t)) | [] => false end, s') /\ at_tokens s' ts.
Proof. intros (l & Hr & Hl). destruct (peek_spec buf s l ts toks Hr Hl) as (s' & l' & H1 & _ & H2 & H3). exists s'. split; [done|]. by exists l'. Qed.

Lemma gettoken_at s t ts : at_tokens s (t :: ts) ->
  exists q e s', gettoken buf s = (tok_code t, q, e, s') /\ content buf (q, e) = tok_text t /\ at_tokens s' ts.
Proof.
  intros (l & Hr & Hl). destruct (gettoken_spec buf s l t ts Hr Hl) as (q & s' & l' & H1 & H2 & _ & H3 & H4).
  eexists q, _, s'. split_and!; [exact H1|exact H2|]. by exists l'.
Qed.

Definition redir_content (r : redirection) : sredir -> Prop := fun sr =>
  forall c, cmd_map (content buf) (redir_cmd c r) = redir_around (cmd_map (content buf) c) sr.

Lemma redirs_content rl rs : Forall2 redir_content rl rs -> forall c,
  cmd_map (content buf) (foldl redir_cmd c rl) = foldl redir_around (cmd_map (content buf) c) rs.
Proof. induction 1 as [|r sr rl rs Hr _ IH]; intros c; [done|]. cbn. by rewrite IH, Hr. Qed.

Lemma at_tok_ok s t ts : at_tokens s (t :: ts) -> tok_ok t.
Proof. intros (l & _ & Hl). by inversion Hl. Qed.

(** No set of symbols contains the first character of a word. *)
Lemma word_no_symbol w set : tok_ok (TWord w) -> (forall c, mem_set set c = true -> mem_set symbols c = true) ->
  mem_set set (hd 0 w) = false.
Proof.
  intros [Hw Hp] Hs. destruct w as [|c w]; [done|]. apply Forall_cons in Hp as [[Hc _] _]. cbn.
  apply not_true_is_false. intros H%Hs. unfold is_plain in Hc. rewrite H in Hc. by rewrite andb_false_r in Hc.
Qed.

Lemma symbols_sub set c : forallb (mem_set symbols) set = true -> mem_set set c = true -> mem_set symbols c = true.
Proof.
  intros Hf H. rewrite forallb_forall in Hf. unfold mem_set in H. apply existsb_exists in H as (d & Hd & ->%Z.eqb_eq). by apply Hf.
Qed.

(** The next token is not in the set of characters [set]. *)
Definition next_not (set : list Z) (ts : list token) : Prop :=
  match ts with [] => True | t :: _ => mem_set set (hd 0 (tok_text t)) = false end.

Lemma peek_not s ts set : at_tokens s ts -> next_not set ts -> exists s', peek buf s set = (false, s') /\ at_tokens s' ts.
Proof.
  intros H Hn. destruct (peek_at s ts set H) as (s' & E & H'). exists s'. split; [|done]. rewrite E. f_equal. by destruct ts.
Qed.

Lemma parseredirs_at rs : forall n s ts,
  at_tokens s (toks_redirs rs ++ ts) -> next_not (bytes "<>") ts -> (length rs < n)%nat ->
  exists rl s', parseredirs buf n s = Parsed (rl, s') /\ Forall2 redir_content rl rs /\ at_tokens s' ts.
Proof.
  induction rs as [|r rs IH]; intros [|n] s ts H Hn Hlen; try (cbn in Hlen; lia).
  - cbn in H. cbn [parseredirs]. destruct (peek_not s ts _ H Hn) as (s' & E & H'). rewrite E. by exists [], s'.
  - cbn in Hlen. unfold toks_redirs in H. cbn [fmap list_fmap concat] in H. rewrite <- app_assoc in H. fold (toks_redirs rs) in H.
    destruct (peek_at s _ (bytes "<>") H) as (s1 & E1 & H1). cbn [parseredirs]. rewrite E1.
    assert (Hw : exists t w, toks_redir r = [t; TWord w] /\ mem_set (bytes "<>") (hd 0 (tok_text t)) = true /\
      forall q e, content buf (q, e) = w -> redir_content (if tok_code t =? ch "<" then MkRedir (q, e) O_RDONLY 0
        else MkRedir (q, e) (Z.lor O_WRONLY O_CREATE) 1) r).
    { destruct r as [w|w|w]; eexists _, w; (split_and!; [reflexivity|reflexivity|]); intros q e Hc c; eval_if; cbn [redir_cmd redir_around cmd_map rd_file rd_mode rd_fd]; by rewrite Hc. }
    destruct Hw as (t & w & Et & Hm & Hcont). rewrite Et in H1 |- *. cbn [app] in H1 |- *. rewrite Hm.
    destruct (gettoken_at s1 t _ H1) as (q1 & e1 & s2 & E2 & _ & H2). rewrite E2.
    destruct (gettoken_at s2 (TWord w) _ H2) as (q2 & e2 & s3 & E3 & Hw2 & H3). rewrite E3.
    cbn [tok_code tok_text] in *. rewrite Z.eqb_refl. cbn [negb].
    destruct (IH n s3 ts H3 Hn ltac:(lia)) as (rl & s4 & E4 & Hrl & H4). rewrite E4. cbn [parse_bind].
    eexists _, s4. split; [reflexivity|]. split; [|done]. constructor; [by apply Hcont|done].
Qed.

(** What follows the words and redirections of a simple command so far. *)
Lemma args_next set s pre ws ts :
  forallb (mem_set symbols) set = true -> forallb (fun t => negb (mem_set set (hd 0 (tok_text t)))) after_exec = true ->
  at_tokens s (pre ++ toks_args ws ++ ts) -> follows after_exec ts -> next_not set (toks_args ws ++ ts).
Proof.
  intros Hset Hfol (l & _ & Hl) Hf. destruct ws as [|[w rs] ws].
  - cbn. destruct ts as [|t ts]; [done|]. rewrite forallb_forall in Hfol. apply negb_true_iff. by apply Hfol.
  - unfold toks_args in *. cbn [fmap list_fmap concat app fst snd] in *.
    apply word_no_symbol; [|intros c; by apply symbols_sub]. revert l Hl.
    induction pre as [|t pre IH]; intros l Hl; inversion Hl; subst; eauto.
Qed.

Lemma length_toks_redirs rs : length (toks_redirs rs) = (2 * length rs)%nat.
Proof.
  unfold toks_redirs. induction rs as [|r rs IH]; [done|]. cbn [fmap list_fmap concat length]. rewrite length_app. destruct r; cbn; lia.
Qed.

Lemma parseargs_at ws : forall n argc s ts,
  at_tokens s (toks_args ws ++ ts) -> follows after_exec ts -> (length (toks_args ws) < n)%nat ->
  (argc + length ws < MAXARGS)%nat ->
  exists args rl s', parseargs buf n argc s = Parsed (args, rl, s') /\ content buf <$> args = fst <$> ws /\
    Forall2 redir_content rl (concat (snd <$> ws)) /\ at_tokens s' ts.
Proof.
  induction ws as [|[w rs] ws IH]; intros [|n] argc s ts H Hf Hlen Hargc; try (cbn in Hlen; lia).
  - cbn in H. cbn [parseargs]. destruct (peek_at s ts (bytes "|)&;") H) as (s' & E & H'). rewrite E. destruct ts as [|t ts].
    + destruct H' as (l & Hr & Hl). destruct (gettoken_end buf s' l Hr Hl) as (q & e & s2 & E2 & Hr2). rewrite E2. cbn.
      exists [], [], s2. split_and!; [done|done|constructor|]. exists []. split; [done|]. apply lex_nil. constructor.
    + assert (mem_set (bytes "|)&;") (hd 0 (tok_text t)) = true) as ->.
      { cbn in Hf. repeat destruct Hf as [<-|Hf]; done. }
      exists [], [], s'. by split_and!.
  - unfold toks_args in *. cbn [fmap list_fmap concat fst snd] in *. fold (toks_args ws) in *.
    cbn [app] in H. rewrite <- app_assoc in H. cbn [app length] in Hlen. rewrite length_app in Hlen. cbn [length] in Hargc.
    pose proof (at_tok_ok _ _ _ H) as Hok.
    destruct (peek_not s _ (bytes "|)&;") H) as (s1 & E1 & H1).
    { apply word_no_symbol; [done|]. intros c. by apply symbols_sub. }
    cbn [parseargs]. rewrite E1. destruct (gettoken_at s1 (TWord w) _ H1) as (q & e & s2 & E2 & Hw & H2). rewrite E2.
    cbn [tok_code tok_text] in *. change (ch "a" =? 0) with false. rewrite Z.eqb_refl. cbn [negb].
    rewrite (proj2 (Nat.leb_gt MAXARGS (S argc))) by lia.
    destruct (parseredirs_at rs n s2 (toks_args ws ++ ts)) as (rl & s3 & E3 & Hrl & H3); [done| | |].
    { by apply (args_next _ s2 (toks_redirs rs)). }
    { rewrite length_toks_redirs in Hlen. lia. }
    rewrite E3. cbn [parse_bind]. destruct (IH n (S argc) s3 ts H3 Hf ltac:(lia) ltac:(lia)) as (args & rl2 & s4 & E4 & Ha & Hrl2 & H4).
    rewrite E4. cbn [parse_bind]. eexists _, _, s4. split; [reflexivity|]. split_and!; [|by apply Forall2_app|done].
    rewrite fmap_cons, Hw, Ha. done.
Qed.

Lemma parseback_at bg : forall n c s ts,
  at_tokens s (replicate bg (TSym (ch "&")) ++ ts) -> follows (TSym (ch ";") :: after_line) ts -> (bg < n)%nat ->
  exists s', parseback buf n c s = Parsed (Nat.iter bg CBack c, s') /\ at_tokens s' ts.
Proof.
  induction bg as [|bg IH]; intros [|n] c s ts H Hf Hlen; try lia.
  - cbn in H. cbn [parseback]. destruct (peek_not s ts (bytes "&") H) as (s' & E & H').
    { destruct ts as [|t ts]; [done|]. cbn in Hf. repeat destruct Hf as [<-|Hf]; done. }
    rewrite E. by exists s'.
  - cbn [replicate app] in H. destruct (peek_at s _ (bytes "&") H) as (s1 & E1 & H1). cbn [parseback]. rewrite E1.
    change (mem_set (bytes "&") (hd 0 (tok_text (TSym (ch "&"))))) with true.
    destruct (gettoken_at s1 _ _ H1) as (q & e & s2 & E2 & _ & H2). rewrite E2.
    destruct (IH n (CBack c) s2 ts H2 Hf ltac:(lia)) as (s3 & E3 & H3). rewrite E3. exists s3. split; [|done].
    by rewrite <- Nat.iter_succ_r.
Qed.

Definition line_ok (l : sline) : Prop := few_line l = true -> forall n s ts,
  at_tokens s (toks_line l ++ ts) -> follows after_line ts -> (4 * length (toks_line l) + 4 <= n)%nat ->
  exists c s', parseline buf n s = Parsed (c, s') /\ cmd_map (content buf) c = cmd_line l /\ at_tokens s' ts.
Definition pipe_ok (p : spipe) : Prop := few_pipe p = true -> forall n s ts,
  at_tokens s (toks_pipe p ++ ts) -> follows after_pipe ts -> (4 * length (toks_pipe p) + 3 <= n)%nat ->
  exists c s', parsepipe buf n s = Parsed (c, s') /\ cmd_map (content buf) c = cmd_pipe p /\ at_tokens s' ts.
Definition exec_ok (e : sexec) : Prop := few_exec e = true -> forall n s ts,
  at_tokens s (toks_exec e ++ ts) -> follows after_exec ts -> (4 * length (toks_exec e) + 2 <= n)%nat ->
  exists c s', parseexec buf n s = Parsed (c, s') /\ cmd_map (content buf) c = cmd_exec e /\ at_tokens s' ts.

Lemma map_back bg c : cmd_map (content buf) (Nat.iter bg CBack c) = Nat.iter bg CBack (cmd_map (content buf) c).
Proof. induction bg as [|bg IH]; [done|]. rewrite !Nat.iter_succ. cbn [cmd_map]. by rewrite IH. Qed.

(** The pipeline and its '&'s at the front of a line. *)
Lemma parse_front p bg n s ts :
  pipe_ok p -> few_pipe p = true -> at_tokens s (toks_pipe p ++ replicate bg (TSym (ch "&")) ++ ts) ->
  follows (TSym (ch ";") :: after_line) ts -> (4 * length (toks_pipe p) + 3 <= n)%nat -> (bg < n)%nat ->
  exists c s1 s', parsepipe buf n s = Parsed (c, s1) /\ parseback buf n c s1 = Parsed (Nat.iter bg CBack c, s') /\
    cmd_map (content buf) c = cmd_pipe p /\ at_tokens s' ts.
Proof.
  intros Hp Hfew H Hf Hn Hbg. destruct (Hp Hfew n s _ H) as (c & s1 & E1 & Hc & H1); [|done|].
  { destruct bg; [|by right; left]. cbn. destruct ts as [|t ts]; [done|]. cbn in *. tauto. }
  destruct (parseback_at bg n c s1 ts H1 Hf Hbg) as (s2 & E2 & H2). by exists c, s1, s2.
Qed.

Lemma line_end_ok p bg : pipe_ok p -> line_ok (LEnd p bg).
Proof.
  intros Hp Hfew [|n] s ts H Hf Hn; [lia|]. cbn [toks_line] in *. rewrite length_app, length_replicate in Hn. rewrite <- app_assoc in H.
  destruct (parse_front p bg n s ts Hp Hfew H) as (c & s1 & s2 & E1 & E2 & Hc & H2); [|lia|lia|].
  { destruct ts; [done|]. by right. }
  cbn [parseline]. rewrite E1. cbn [parse_bind]. rewrite E2. cbn [parse_bind].
  destruct (peek_not s2 ts (bytes ";") H2) as (s3 & E3 & H3).
  { destruct ts as [|t ts]; [done|]. cbn in Hf. repeat destruct Hf as [<-|Hf]; done. }
  rewrite E3. eexists _, s3. split; [reflexivity|]. split; [|done]. rewrite map_back, Hc. done.
Qed.

Lemma line_seq_ok p bg l : pipe_ok p -> line_ok l -> line_ok (LSeq p bg l).
Proof.
  intros Hp Hl Hfew [|n] s ts H Hf Hn; [lia|]. cbn [few_line] in Hfew. apply andb_prop in Hfew as [Hf1 Hf2].
  cbn [toks_line] in *. rewrite !length_app, length_replicate in Hn. cbn [length] in Hn. rewrite <- !app_assoc in H. cbn [app] in H.
  destruct (parse_front p bg n s _ Hp Hf1 H) as (c & s1 & s2 & E1 & E2 & Hc & H2); [by left|lia|lia|].
  cbn [parseline]. rewrite E1. cbn [parse_bind]. rewrite E2. cbn [parse_bind].
  destruct (peek_at s2 _ (bytes ";") H2) as (s3 & E3 & H3). rewrite E3.
  change (mem_set (bytes ";") (hd 0 (tok_text (TSym (ch ";"))))) with true. cbv iota.
  destruct (gettoken_at s3 _ _ H3) as (q & e & s4 & E4 & _ & H4). rewrite E4.
  destruct (Hl Hf2 n s4 ts H4 Hf ltac:(lia)) as (r & s5 & E5 & Hr & H5). rewrite E5. cbn [parse_bind].
  eexists _, s5. split; [reflexivity|]. split; [|done]. cbn [cmd_map cmd_line]. by rewrite map_back, Hc, Hr.
Qed.

Lemma pipe_one_ok e : exec_ok e -> pipe_ok (POne e).
Proof.
  intros He Hfew [|n] s ts H Hf Hn; [lia|]. cbn [toks_pipe] in *.
  destruct (He Hfew n s ts H) as (c & s1 & E1 & Hc & H1); [|lia|].
  { destruct ts as [|t ts]; [done|]. cbn in *. tauto. }
  cbn [parsepipe]. rewrite E1. cbn [parse_bind]. destruct (peek_not s1 ts (bytes "|") H1) as (s2 & E2 & H2).
  { destruct ts as [|t ts]; [done|]. cbn in Hf. repeat destruct Hf as [<-|Hf]; done. }
  rewrite E2. by eexists _, s2.
Qed.

Lemma pipe_bar_ok e p : exec_ok e -> pipe_ok p -> pipe_ok (PBar e p).
Proof.
  intros He Hp Hfew [|n] s ts H Hf Hn; [lia|]. cbn [few_pipe] in Hfew. apply andb_prop in Hfew as [Hf1 Hf2].
  cbn [toks_pipe] in *. rewrite length_app in Hn. cbn [length] in Hn. rewrite <- app_assoc in H. cbn [app] in H.
  destruct (He Hf1 n s _ H) as (c & s1 & E1 & Hc & H1); [by do 3 right; left|lia|].
  cbn [parsepipe]. rewrite E1. cbn [parse_bind]. destruct (peek_at s1 _ (bytes "|") H1) as (s2 & E2 & H2). rewrite E2.
  change (mem_set (bytes "|") (hd 0 (tok_text (TSym (ch "|"))))) with true. cbv iota.
  destruct (gettoken_at s2 _ _ H2) as (q & e2 & s3 & E3 & _ & H3). rewrite E3.
  destruct (Hp Hf2 n s3 ts H3 Hf ltac:(lia)) as (r & s4 & E4 & Hr & H4). rewrite E4. cbn [parse_bind].
  eexists _, s4. split; [reflexivity|]. split; [|done]. cbn [cmd_map cmd_pipe]. by rewrite Hc, Hr.
Qed.

Lemma exec_simple_ok rs ws : exec_ok (ESimple rs ws).
Proof.
  intros Hfew [|n] s ts H Hf Hn; [lia|]. cbn [few_exec toks_exec] in *. apply Nat.ltb_lt in Hfew.
  rewrite length_app, length_toks_redirs in Hn. rewrite <- app_assoc in H.
  destruct (peek_not s _ (bytes "(") H) as (s1 & E1 & H1).
  { destruct rs as [|r rs]; [by apply (args_next _ s [])|]. by destruct r. }
  cbn [parseexec]. rewrite E1.
  destruct (parseredirs_at rs n s1 _ H1) as (rl & s2 & E2 & Hrl & H2); [by apply (args_next _ s1 (toks_redirs rs))|lia|].
  rewrite E2. cbn [parse_bind].
  destruct (parseargs_at ws n 0 s2 ts H2 Hf) as (args & rl2 & s3 & E3 & Ha & Hrl2 & H3); [lia|lia|].
  rewrite E3. cbn [parse_bind]. eexists _, s3. split; [reflexivity|]. split; [|done].
  rewrite (redirs_content (rl ++ rl2) (rs ++ concat (snd <$> ws))) by (by apply Forall2_app). cbn [cmd_map cmd_exec]. by rewrite Ha.
Qed.

Lemma exec_block_ok l rs : line_ok l -> exec_ok (EBlock l rs).
Proof.
  intros Hl Hfew [|[|n]] s ts H Hf Hn; [lia|lia|]. cbn [few_exec toks_exec] in *. cbn [length] in Hn. rewrite length_app in Hn. cbn [length] in Hn.
  rewrite length_toks_redirs in Hn. cbn [app] in H. rewrite <- app_assoc in H. cbn [app] in H.
  assert (Eb : mem_set (bytes "(") (hd 0 (tok_text (TSym (ch "(")))) = true) by done.
  destruct (peek_at s _ (bytes "(") H) as (s1 & E1 & H1). cbn [parseexec]. rewrite E1, Eb. cbn [parseblock].
  destruct (peek_at s1 _ (bytes "(") H1) as (s2 & E2 & H2). rewrite E2, Eb. cbn [negb].
  destruct (gettoken_at s2 _ _ H2) as (q & e & s3 & E3 & _ & H3). rewrite E3.
  destruct (Hl Hfew n s3 _ H3) as (c & s4 & E4 & Hc & H4); [by left|lia|]. rewrite E4. cbn [parse_bind].
  destruct (peek_at s4 _ (bytes ")") H4) as (s5 & E5 & H5). rewrite E5.
  change (mem_set (bytes ")") (hd 0 (tok_text (TSym (ch ")"))))) with true. cbn [negb].
  destruct (gettoken_at s5 _ _ H5) as (q2 & e2 & s6 & E6 & _ & H6). rewrite E6.
  destruct (parseredirs_at rs n s6 ts H6) as (rl & s7 & E7 & Hrl & H7); [|lia|].
  { destruct ts as [|t ts]; [done|]. cbn in Hf. repeat destruct Hf as [<-|Hf]; done. }
  rewrite E7. cbn [parse_bind]. eexists _, s7. split; [reflexivity|]. split; [|done].
  rewrite (redirs_content rl rs Hrl), Hc. done.
Qed.

Lemma parse_syntax : (forall l, line_ok l) /\ (forall p, pipe_ok p) /\ (forall e, exec_ok e).
Proof.
  apply syntax_mind; auto using line_end_ok, line_seq_ok, pipe_one_ok, pipe_bar_ok, exec_simple_ok, exec_block_ok.
Qed.
End phrases.

(** Every token takes a character of the line. *)
Lemma lexes_length l ts : lexes l ts -> (length ts <= length l)%nat.
Proof.
  induction 1 as [ws Hws|ws t l ts Hws Ht He Hl IH]; [cbn; lia|]. rewrite !length_app. cbn [length].
  destruct (tok_text_head t Ht) as (c & r & -> & _). cbn. lia.
Qed.

Lemma parsecmd_syntax buf l : few_line l = true -> lexes buf (toks_line l) ->
  exists c, parsecmd buf = Parsed (c, nulterminate c buf) /\ cmd_map (content buf) c = cmd_line l.
Proof.
  intros Hfew Hl. pose proof (lexes_length _ _ Hl) as Hlen.
  assert (H0 : at_tokens buf 0 (toks_line l ++ [])).
  { rewrite app_nil_r. exists buf. split; [|done]. split; [lia|done]. }
  destruct (proj1 (parse_syntax buf) l Hfew (depth buf) 0%nat [] H0 I) as (c & s & E & Hc & H1); [unfold depth; lia|].
  exists c. split; [|done]. unfold parsecmd. rewrite E. cbn [parse_bind].
  destruct H1 as (l1 & Hr & Hl1). destruct (skip_front buf s l1 [] Hr Hl1) as (l2 & Hr2 & Hs2 & Hl2).
  rewrite (lexes_end l2 Hl2 Hs2) in Hr2. pose proof (rest_length _ _ _ Hr2) as Hn. cbn [length] in Hn.
  unfold peek. cbn iota beta zeta. rewrite (proj2 (Nat.eqb_eq (skip buf is_space s) (es buf))); [done|].
  destruct Hr2 as [Hle _]. unfold es. lia.
Qed.

(** ** Printing *)

(** A line with a space before every token. *)
Definition print_tokens (ts : list token) : list Z := concat ((fun t => 32 :: tok_text t) <$> ts) ++ [NL].
Definition print_line (l : sline) : list Z := print_tokens (toks_line l).

Definition word_okb (w : list Z) : bool := negb (length w =? 0)%nat && forallb (fun c => is_plain c && negb (c =? 0)) w.
(** The tokens that a line may have: the words are words. *)
Definition words_ok (ts : list token) : bool := forallb (fun t => match t with TWord w => word_okb w | TSym c => mem_set symbols c | TApp => true end) ts.

Lemma word_okb_spec w : word_okb w = true -> w <> [] /\ Forall plain w.
Proof.
  unfold word_okb. intros [H1 H2]%andb_prop. split; [by intros ->|]. apply Forall_forall. intros c Hc.
  rewrite forallb_forall in H2. specialize (H2 c ltac:(by apply list_elem_of_In)). apply andb_prop in H2 as [H2 H3].
  apply negb_true_iff, Z.eqb_neq in H3. done.
Qed.

Lemma lexes_print ts : words_ok ts = true -> lexes (print_tokens ts) ts.
Proof.
  induction ts as [|t ts IH]; intros H; [apply lex_nil; by constructor|]. cbn [words_ok forallb] in H. apply andb_prop in H as [Ht H].
  change (print_tokens (t :: ts)) with (((32 :: tok_text t) ++ concat ((fun t => 32 :: tok_text t) <$> ts)) ++ [NL]).
  rewrite <- app_assoc. change (concat ((fun t => 32 :: tok_text t) <$> ts) ++ [NL]) with (print_tokens ts).
  change ((32 :: tok_text t) ++ print_tokens ts) with ([32] ++ tok_text t ++ print_tokens ts).
  assert (Hhd : exists c r, print_tokens ts = c :: r /\ (c = 32 \/ c = NL)) by (destruct ts; cbn; eauto).
  destruct Hhd as (c & r & Hp & Hc). apply lex_cons; [by constructor| | |by apply IH].
  - destruct t; [exact Ht|done|by apply word_okb_spec].
  - rewrite Hp. destruct t; cbn; [|done|]; destruct Hc as [->| ->]; done.
Qed.

Lemma print_no_nul ts : words_ok ts = true -> Forall (fun c => c <> 0) (print_tokens ts).
Proof.
  induction ts as [|t ts IH]; intros H; [by constructor|]. cbn [words_ok forallb] in H. apply andb_prop in H as [Ht H].
  change (print_tokens (t :: ts)) with (((32 :: tok_text t) ++ concat ((fun t => 32 :: tok_text t) <$> ts)) ++ [NL]).
  rewrite <- app_assoc. apply Forall_app. split; [|by apply IH]. constructor; [done|]. destruct t as [c| |w]; cbn [tok_text].
  - constructor; [|done]. intros ->. discriminate Ht.
  - by repeat constructor.
  - apply word_okb_spec in Ht as [_ Ht]. eapply Forall_impl; [exact Ht|]. by intros c [_ ?].
Qed.
