(* ===== verification/ShellWords.v ===== *)
(** * The shell: every line is parsed

    The parser ends on every line, its bound on the depth is never reached,
    and the words of the command it returns are those that [nulterminate] leaves
    as strings in the line. *)

From Stdlib Require Import Ascii String.
From S2P Require Import Prelude State Monad Mem Spinlock ConsoleOut UserProg Ulib Shell ShellFacts.

Section words.
Variable buf : list Z.

(** A word is a longest sequence of plain characters. *)
Record good_word (w : word) : Prop := {
  gw_nonempty : (fst w < snd w)%nat;
  gw_inside : (snd w <= length buf)%nat;
  gw_plain : forall i, (fst w <= i < snd w)%nat -> is_plain (char_at buf i) = true;
  gw_end : snd w = length buf \/ is_plain (char_at buf (snd w)) = false
}.

Lemma skip_while_inv p n : forall s, (s + n <= length buf)%nat ->
  let s' := skip_while buf p n s in
  (s <= s' <= s + n)%nat /\ (forall i, (s <= i < s')%nat -> p (char_at buf i) = true) /\
  (s' = (s + n)%nat \/ p (char_at buf s') = false).
Proof.
  induction n as [|n IH]; intros s Hs; cbn; [split_and!; [lia|lia|intros; lia|left; lia]|].
  destruct (p (char_at buf s)) eqn:E; [|split_and!; [lia|lia|intros; lia|by right]].
  destruct (IH (S s) ltac:(lia)) as (H1 & H2 & H3). split_and!; [lia|lia| |].
  - intros i Hi. destruct (decide (i = s)) as [->|Hne]; [done|]. apply H2. lia.
  - destruct H3 as [H3|H3]; [left; lia|by right].
Qed.

Lemma skip_inv p s : (s <= length buf)%nat ->
  (s <= skip buf p s <= length buf)%nat /\ (forall i, (s <= i < skip buf p s)%nat -> p (char_at buf i) = true) /\
  (skip buf p s = length buf \/ p (char_at buf (skip buf p s)) = false).
Proof.
  intros Hs. unfold skip, es. destruct (skip_while_inv p (length buf - s) s ltac:(lia)) as (H1 & H2 & H3).
  split_and!; [lia|lia|done|]. destruct H3 as [H3|H3]; [left; lia|by right].
Qed.

Lemma char_end s : (length buf <= s)%nat -> char_at buf s = 0.
Proof. intros H. unfold char_at. by apply nth_overflow. Qed.

Lemma symbol_split c : mem_set symbols c = true -> mem_set (bytes "|();&<") c = true \/ c = ch ">".
Proof. intros H. by destruct (symbol_facts c H) as (_ & _ & _ & ? & _). Qed.

(** [gettoken] moves forward, past a character unless the line has ended, and
    its words are words. *)
Lemma gettoken_inv s tok q e s' : (s <= length buf)%nat -> gettoken buf s = (tok, q, e, s') ->
  (s <= s' <= length buf)%nat /\ (tok <> 0 -> (s < s')%nat) /\ (tok = ch "a" -> good_word (q, e)).
Proof.
  intros Hs. unfold gettoken. destruct (skip_inv is_space s Hs) as (H1 & _ & H3). set (q0 := skip buf is_space s) in *.
  assert (Hin : char_at buf q0 <> 0 -> (q0 < length buf)%nat).
  { intros Hc. destruct (decide (q0 < length buf)%nat); [done|]. by rewrite char_end in Hc by lia. }
  destruct (Z.eqb_spec (char_at buf q0) 0) as [E0|E0].
  { intros [= <- <- <- <-]. destruct (skip_inv is_space q0 ltac:(lia)) as (H4 & _). split_and!; [lia|lia|done|done]. }
  specialize (Hin E0). destruct (mem_set (bytes "|();&<") (char_at buf q0)) eqn:Em.
  { intros [= <- <- <- <-]. destruct (skip_inv is_space (S q0) ltac:(lia)) as (H4 & _). split_and!; [lia|lia|lia|].
    intros E. rewrite E in Em. discriminate Em. }
  destruct (Z.eqb_spec (char_at buf q0) (ch ">")) as [Eg|Eg].
  { destruct (Z.eqb_spec (char_at buf (S q0)) (ch ">")) as [Eg2|Eg2]; intros [= <- <- <- <-].
    - assert (Hin2 : (S q0 < length buf)%nat).
      { destruct (decide (S q0 < length buf)%nat); [done|]. by rewrite char_end in Eg2 by lia. }
      destruct (skip_inv is_space (S (S q0)) ltac:(lia)) as (H4 & _). by split_and!; [lia|lia|lia|].
    - destruct (skip_inv is_space (S q0) ltac:(lia)) as (H4 & _). split_and!; [lia|lia|lia|]. intros E. rewrite E in Eg. discriminate Eg. }
  intros [= <- <- <- <-]. destruct (skip_inv is_plain q0 ltac:(lia)) as (H4 & H5 & H6). set (e := skip buf is_plain q0) in *.
  destruct (skip_inv is_space e ltac:(lia)) as (H7 & _).
  assert (Hp : is_plain (char_at buf q0) = true).
  { unfold is_plain. destruct H3 as [H3|H3]; [lia|]. rewrite H3. cbn. apply negb_true_iff, not_true_is_false.
    intros [H|H]%symbol_split; congruence. }
  assert (Hlt : (q0 < e)%nat) by (destruct H6 as [H6|H6]; [lia|]; destruct (decide (q0 = e)) as [E|]; [congruence|lia]).
  split_and!; [lia|lia|lia|]. intros _. split; cbn [fst snd]; [lia|lia|done|done].
Qed.

Lemma peek_inv s toks b s' : (s <= length buf)%nat -> peek buf s toks = (b, s') ->
  (s <= s' <= length buf)%nat /\ (b = true -> char_at buf s' <> 0 /\ skip buf is_space s' = s').
Proof.
  intros Hs. unfold peek. destruct (skip_inv is_space s Hs) as (H1 & _ & H3). set (q := skip buf is_space s) in *.
  intros [= <- <-]. split; [lia|]. intros Hb. apply andb_prop in Hb as [Hb _]. apply negb_true_iff, Z.eqb_neq in Hb. split; [done|].
  destruct H3 as [H3|H3]; [by rewrite char_end in Hb by lia|].
  assert (Hlt : (q < length buf)%nat) by (destruct (decide (q < length buf)%nat); [done|by rewrite char_end in Hb by lia]).
  unfold skip, es. destruct (length buf - q)%nat eqn:E; [lia|]. cbn [skip_while]. by rewrite H3.
Qed.

Lemma peek_again s toks s1 : (s <= length buf)%nat -> peek buf s toks = (true, s1) -> peek buf s1 toks = (true, s1).
Proof.
  intros Hs Hp. destruct (peek_inv s toks true s1 Hs Hp) as [_ H]. destruct (H eq_refl) as [_ Hsk].
  unfold peek in *. rewrite Hsk. injection Hp as Hb E. rewrite E in Hb. by rewrite Hb.
Qed.

(** After a successful [peek], [gettoken] takes a token. *)
Lemma peek_gettoken s toks s1 tok q e s2 : (s <= length buf)%nat -> peek buf s toks = (true, s1) ->
  gettoken buf s1 = (tok, q, e, s2) -> (s <= s1)%nat /\ (s1 < s2 <= length buf)%nat.
Proof.
  intros Hs Hp Hg. destruct (peek_inv s toks true s1 Hs Hp) as [H1 H2]. destruct (H2 eq_refl) as [Hc Hsk].
  destruct (gettoken_inv s1 tok q e s2 ltac:(lia) Hg) as (H3 & H4 & _).
  assert (tok <> 0); [|lia]. unfold gettoken in Hg. rewrite Hsk in Hg.
  rewrite (proj2 (Z.eqb_neq _ _) Hc) in Hg. intros ->.
  destruct (mem_set (bytes "|();&<") (char_at buf s1)); [congruence|].
  destruct (char_at buf s1 =? ch ">") eqn:E1; [destruct (char_at buf (S s1) =? ch ">")|];
    apply (f_equal (fun r => fst (fst (fst r)))) in Hg; cbn [fst] in Hg; first [congruence|discriminate Hg].
Qed.

(** ** The parser *)

(** The messages of [panic] that a line can lead to. *)
Definition syntax_errors : list string :=
  ["missing file for redirection"; "syntax"; "too many args"; "syntax - missing )"]%string.

(** The outcome of a parsing function called at [s]: not the bound; a later
    offset and good words, or a syntax error. *)
Definition outcome_ok {A} (words : A -> list word) (s : nat) (r : parse (A * nat)) : Prop :=
  match r with
  | Parsed (a, s') => (s <= s' <= length buf)%nat /\ Forall good_word (words a)
  | Panicked msg => msg ∈ syntax_errors
  | Leftovers _ | TooDeep => False
  end.

Ltac syntax_error := cbn [outcome_ok]; unfold syntax_errors; repeat constructor.

Definition redirs_words (rs : list redirection) : list word := rd_file <$> rs.

Lemma outcome_back {A} (words : A -> list word) s s' r : (s <= s')%nat -> outcome_ok words s' r -> outcome_ok words s r.
Proof. intros Hs. destruct r as [[a s2]|msg|l|]; cbn; [|done|done|done]. intros [H1 H2]. split; [lia|done]. Qed.

Lemma outcome_bind {A B} (wa : A -> list word) (wb : B -> list word) s m f :
  outcome_ok wa s m ->
  (forall a s1, (s <= s1 <= length buf)%nat -> Forall good_word (wa a) -> m = Parsed (a, s1) -> outcome_ok wb s (f (a, s1))) ->
  outcome_ok wb s (parse_bind m f).
Proof. intros Hm Hf. destruct m as [[a s1]|msg|l|]; cbn in *; [|done|done|done]. destruct Hm as [H1 H2]. by apply Hf. Qed.

Lemma parseredirs_ok n : forall s, (s <= length buf)%nat -> (length buf - s < n)%nat -> outcome_ok redirs_words s (parseredirs buf n s).
Proof.
  induction n as [|n IH]; intros s Hs Hn; [lia|]. cbn [parseredirs].
  destruct (peek buf s (bytes "<>")) as [b s1] eqn:Ep. destruct (peek_inv s _ b s1 Hs Ep) as [H1 _].
  destruct b; [|split; [lia|constructor]].
  destruct (gettoken buf s1) as [[[tok q1] e1] s2] eqn:Eg1. destruct (peek_gettoken s _ s1 tok q1 e1 s2 Hs Ep Eg1) as [_ H2].
  destruct (gettoken buf s2) as [[[t2 q] e] s3] eqn:Eg2. destruct (gettoken_inv s2 t2 q e s3 ltac:(lia) Eg2) as (H3 & _ & Hw).
  destruct (Z.eqb_spec t2 (ch "a")) as [Ea|Ea]; cbn [negb]; [|syntax_error]. specialize (Hw Ea).
  apply (outcome_back _ s s3); [lia|]. apply (outcome_bind redirs_words); [apply IH; lia|].
  intros rs s4 H4 Hrs _. split; [lia|]. constructor; [|done]. by destruct (tok =? ch "<").
Qed.

Lemma parseback_ok n : forall c s, (s <= length buf)%nat -> (length buf - s < n)%nat -> Forall good_word (cmd_words c) ->
  outcome_ok cmd_words s (parseback buf n c s).
Proof.
  induction n as [|n IH]; intros c s Hs Hn Hc; [lia|]. cbn [parseback].
  destruct (peek buf s (bytes "&")) as [b s1] eqn:Ep. destruct (peek_inv s _ b s1 Hs Ep) as [H1 _].
  destruct b; [|split; [lia|done]].
  destruct (gettoken buf s1) as [[[tok q1] e1] s2] eqn:Eg1. destruct (peek_gettoken s _ s1 tok q1 e1 s2 Hs Ep Eg1) as [_ H2].
  apply (outcome_back _ s s2); [lia|]. apply IH; [lia|lia|done].
Qed.

Definition args_words (a : list word * list redirection) : list word := fst a ++ redirs_words (snd a).

Lemma parseargs_ok n : forall argc s, (s <= length buf)%nat -> (length buf - s < n)%nat ->
  outcome_ok args_words s (parseargs buf n argc s).
Proof.
  induction n as [|n IH]; intros argc s Hs Hn; [lia|]. cbn [parseargs].
  destruct (peek buf s (bytes "|)&;")) as [b s1] eqn:Ep. destruct (peek_inv s _ b s1 Hs Ep) as [H1 _].
  destruct b; [split; [lia|constructor]|].
  destruct (gettoken buf s1) as [[[tok q] e] s2] eqn:Eg. destruct (gettoken_inv s1 tok q e s2 ltac:(lia) Eg) as (H2 & Hlt & Hw).
  destruct (Z.eqb_spec tok 0) as [E0|E0]; [split; [lia|constructor]|]. specialize (Hlt E0).
  destruct (Z.eqb_spec tok (ch "a")) as [Ea|Ea]; cbn [negb]; [|syntax_error]. specialize (Hw Ea).
  destruct (MAXARGS <=? S argc)%nat; [syntax_error|]. apply (outcome_back _ s s2); [lia|].
  apply (outcome_bind redirs_words); [apply parseredirs_ok; lia|]. intros rs s3 H3 Hrs _.
  apply (outcome_back _ s2 s3); [lia|]. apply (outcome_bind args_words); [apply IH; lia|].
  intros [args rs'] s4 H4 [Ha Hr]%Forall_app _. split; [lia|]. unfold args_words, redirs_words in *. cbn [fst snd] in *.
  rewrite fmap_app. constructor; [done|]. by rewrite !Forall_app.
Qed.

Lemma redirs_around_words rs : forall c, Forall good_word (cmd_words c) -> Forall good_word (redirs_words rs) ->
  Forall good_word (cmd_words (foldl redir_cmd c rs)).
Proof.
  induction rs as [|r rs IH]; intros c Hc Hr; [done|]. apply Forall_cons in Hr as [H1 H2]. cbn [foldl]. apply IH; [|done].
  cbn. apply Forall_app. split; [done|]. by constructor.
Qed.

Lemma parser_ok n :
  (forall s, (s <= length buf)%nat -> (4 * (length buf - s) + 4 <= n)%nat -> outcome_ok cmd_words s (parseline buf n s)) /\
  (forall s, (s <= length buf)%nat -> (4 * (length buf - s) + 3 <= n)%nat -> outcome_ok cmd_words s (parsepipe buf n s)) /\
  (forall s, (s <= length buf)%nat -> (4 * (length buf - s) + 2 <= n)%nat -> outcome_ok cmd_words s (parseexec buf n s)) /\
  (forall s, (s <= length buf)%nat -> (4 * (length buf - s) + 1 <= n)%nat -> fst (peek buf s (bytes "(")) = true ->
    outcome_ok cmd_words s (parseblock buf n s)).
Proof.
  induction n as [|n (IHl & IHp & IHe & IHb)]; [split_and!; intros s Hs Hn; lia|]. split_and!; intros s Hs Hn; [| | |intros Hblock].
  - cbn [parseline]. apply (outcome_bind cmd_words); [apply IHp; lia|]. intros c s1 H1 Hc _.
    apply (outcome_back _ s s1); [lia|]. apply (outcome_bind cmd_words); [apply parseback_ok; [lia|lia|done]|]. intros c' s2 H2 Hc' _.
    destruct (peek buf s2 (bytes ";")) as [b s3] eqn:Ep. destruct (peek_inv s2 _ b s3 ltac:(lia) Ep) as [H3 _].
    destruct b; [|split; [lia|done]].
    destruct (gettoken buf s3) as [[[tok q1] e1] s4] eqn:Eg. destruct (peek_gettoken s2 _ s3 tok q1 e1 s4 ltac:(lia) Ep Eg) as [_ H4].
    apply (outcome_back _ s1 s4); [lia|]. apply (outcome_bind cmd_words); [apply IHl; lia|]. intros r s5 H5 Hr _.
    split; [lia|]. cbn. by apply Forall_app.
  - cbn [parsepipe]. apply (outcome_bind cmd_words); [apply IHe; lia|]. intros c s1 H1 Hc _.
    destruct (peek buf s1 (bytes "|")) as [b s2] eqn:Ep. destruct (peek_inv s1 _ b s2 ltac:(lia) Ep) as [H2 _].
    destruct b; [|split; [lia|done]].
    destruct (gettoken buf s2) as [[[tok q1] e1] s3] eqn:Eg. destruct (peek_gettoken s1 _ s2 tok q1 e1 s3 ltac:(lia) Ep Eg) as [_ H3].
    apply (outcome_back _ s s3); [lia|]. apply (outcome_bind cmd_words); [apply IHp; lia|]. intros r s4 H4 Hr _.
    split; [lia|]. cbn. by apply Forall_app.
  - cbn [parseexec]. destruct (peek buf s (bytes "(")) as [b s1] eqn:Ep. destruct (peek_inv s _ b s1 Hs Ep) as [H1 _].
    destruct b; [apply (outcome_back _ s s1); [lia|]; apply IHb; [lia|lia|by rewrite (peek_again s _ s1 Hs Ep)]|].
    apply (outcome_back _ s s1); [lia|]. apply (outcome_bind redirs_words); [apply parseredirs_ok; lia|]. intros rs s2 H2 Hrs _.
    apply (outcome_back _ s1 s2); [lia|]. apply (outcome_bind args_words); [apply parseargs_ok; lia|].
    intros [args rs'] s3 H3 [Ha Hr]%Forall_app _. split; [lia|]. apply redirs_around_words; [done|].
    unfold redirs_words in *. rewrite fmap_app. by apply Forall_app.
  - cbn [parseblock]. destruct (peek buf s (bytes "(")) as [b s1] eqn:Ep. cbn [fst] in Hblock. subst b. cbn [negb].
    destruct (gettoken buf s1) as [[[tok q1] e1] s2] eqn:Eg. destruct (peek_gettoken s _ s1 tok q1 e1 s2 Hs Ep Eg) as [H1 H2].
    apply (outcome_back _ s s2); [lia|]. apply (outcome_bind cmd_words); [apply IHl; lia|]. intros c s3 H3 Hc _.
    destruct (peek buf s3 (bytes ")")) as [b s4] eqn:Ep2. destruct b; cbn [negb]; [|syntax_error].
    destruct (gettoken buf s4) as [[[tok2 q2] e2] s5] eqn:Eg2. destruct (peek_gettoken s3 _ s4 tok2 q2 e2 s5 ltac:(lia) Ep2 Eg2) as [H4 H5].
    apply (outcome_back _ s2 s5); [lia|]. apply (outcome_bind redirs_words); [apply parseredirs_ok; lia|]. intros rs s6 H6 Hrs _.
    split; [lia|]. by apply redirs_around_words.
Qed.

(** ** The line after [nulterminate] *)

Definition end_words (ws : list word) (b : list Z) : list Z := foldl (fun b w => <[snd w := 0]> b) b ws.

Lemma nulterminate_ends c : forall b, nulterminate c b = end_words (cmd_words c) b.
Proof.
  unfold end_words. induction c as [argv|c IH file mode fd|l IHl r IHr|l IHl r IHr|c IH]; intros b; cbn [nulterminate cmd_words].
  - done.
  - by rewrite foldl_app, <- IH.
  - by rewrite foldl_app, <- IHl, <- IHr.
  - by rewrite foldl_app, <- IHl, <- IHr.
  - apply IH.
Qed.

Lemma length_end_words ws : forall b, length (end_words ws b) = length b.
Proof. unfold end_words. induction ws as [|w ws IH]; intros b; [done|]. cbn [foldl]. by rewrite IH, length_insert. Qed.

Lemma end_words_other ws i : forall b, Forall (fun w => snd w <> i) ws -> end_words ws b !! i = b !! i.
Proof.
  unfold end_words. induction ws as [|w ws IH]; intros b Hw; [done|]. apply Forall_cons in Hw as [H1 H2]. cbn [foldl].
  by rewrite IH, list_lookup_insert_ne.
Qed.

Lemma end_words_zero ws i : forall b, b !! i = Some 0 -> end_words ws b !! i = Some 0.
Proof.
  unfold end_words. induction ws as [|w ws IH]; intros b Hb; [done|]. cbn [foldl]. apply IH.
  destruct (decide (snd w = i)) as [<-|Hne]; [|by rewrite list_lookup_insert_ne].
  apply list_lookup_insert_eq. by eapply lookup_lt_Some.
Qed.

Lemma end_words_end ws w : forall b, w ∈ ws -> (snd w < length b)%nat -> end_words ws b !! snd w = Some 0.
Proof.
  induction ws as [|x ws IH]; intros b Hw Hl; [by apply elem_of_nil in Hw|].
  change (end_words (x :: ws) b) with (end_words ws (<[snd x := 0]> b)).
  apply elem_of_cons in Hw as [->|Hw]; [apply end_words_zero; by apply list_lookup_insert_eq|].
  apply IH; [done|by rewrite length_insert].
Qed.

(** The end of a word is never inside one. *)
Lemma ends_outside w w' i : good_word w -> good_word w' -> (fst w <= i < snd w)%nat -> snd w' <> i.
Proof.
  intros [_ H1 H2 _] [_ _ _ H3] Hi E. destruct H3 as [H3|H3]; [lia|]. rewrite E, (H2 i Hi) in H3. discriminate H3.
Qed.

Lemma end_words_content ws w : Forall (fun c => c <> 0) buf -> Forall good_word ws -> w ∈ ws ->
  string_at (end_words ws buf) w = content buf w.
Proof.
  intros Hnz Hws Hw. pose proof (proj1 (Forall_forall _ _) Hws w Hw) as Hg. pose proof Hg as [Hlt Hin _ _].
  assert (Hpre : take (snd w - fst w) (drop (fst w) (end_words ws buf)) = content buf w).
  { unfold content. apply list_eq. intros i. destruct (decide (i < snd w - fst w)%nat) as [Hi|Hi].
    - rewrite !lookup_take_lt, !lookup_drop by done. apply end_words_other. eapply Forall_impl; [exact Hws|].
      intros w' Hw'. eapply (ends_outside w w'); [done|done|lia].
    - by rewrite !lookup_take_ge by lia. }
  assert (Hc : Forall (fun c => c <> 0) (content buf w)) by (by apply Forall_take, Forall_drop).
  unfold string_at. rewrite <- (take_drop (snd w - fst w) (drop (fst w) _)), Hpre, drop_drop.
  replace (fst w + (snd w - fst w))%nat with (snd w) by lia.
  destruct (decide (snd w = length buf)) as [E|E].
  - rewrite drop_ge by (rewrite length_end_words; lia). rewrite app_nil_r. by apply until_nul_id.
  - rewrite (drop_S _ 0 (snd w)); [by apply until_nul_app|]. apply end_words_end; [done|lia].
Qed.

(** A line without NULs is parsed or refused, and every word of the command is a
    string of the line. *)
Lemma parsecmd_words : Forall (fun c => c <> 0) buf ->
  match parsecmd buf with
  | Parsed (c, b) => length b = length buf /\ Forall (fun w => string_at b w = content buf w /\ content buf w <> []) (cmd_words c)
  | Panicked msg => msg ∈ syntax_errors
  | Leftovers l => l <> []
  | TooDeep => False
  end.
Proof.
  intros Hnz. unfold parsecmd. pose proof (proj1 (parser_ok (depth buf)) 0%nat ltac:(lia) ltac:(unfold depth; lia)) as H.
  destruct (parseline buf (depth buf) 0) as [[c s]|msg|l|]; cbn [parse_bind outcome_ok] in *; [|done|done|done].
  destruct H as [Hs Hc]. destruct (peek buf s []) as [b s'] eqn:Ep. destruct (peek_inv s [] b s' ltac:(lia) Ep) as [Hs' _].
  destruct (Nat.eqb_spec s' (es buf)) as [E|E]; cbn [negb].
  2: { unfold es in E. intros Ed. apply (f_equal length) in Ed. rewrite length_drop in Ed. cbn in Ed. lia. }
  rewrite nulterminate_ends. split; [apply length_end_words|]. apply Forall_forall. intros w Hw. split; [by apply end_words_content|].
  destruct (proj1 (Forall_forall _ _) Hc w Hw) as [H1 H2 _ _]. intros En. apply (f_equal length) in En.
  unfold content in En. rewrite length_take, length_drop in En. cbn in En. lia.
Qed.
End words.
