(* ===== verification/ShellRun.v ===== *)
(** * The shell: running commands (sh.c)

    [runcmd], [getcmd] and [main] as programs; [malloc] always finds memory for
    the command, whose words are the strings of the line. *)

From Stdlib Require Import Ascii String.
From S2P Require Import Prelude State Monad Mem Spinlock ConsoleOut UserProg Ulib UlibFacts Shell ShellFacts Grammar ShellWords.

Definition sh_panic {A} (s : string) : prog A := do* printf 2 (line "%s") [AStr (Some (bytes s))]; Exit.

Definition fork1 : prog Z :=
  let* pid := sysv SFork in
  if pid =? -1 then sh_panic "fork" else Done pid.

Fixpoint runcmd (c : cmd (list Z)) : prog unit :=
  match c with
  | CExec argv =>
      match argv with
      | [] => Exit
      | a0 :: _ =>
          do* sysv (SExec a0 argv);
          do* printf 2 (line "exec %s failed") [AStr (Some a0)];
          Exit
      end
  | CRedir c file mode fd =>
      do* sysv (SClose fd);
      let* r := sysv (SOpen file mode) in
      if r <? 0 then do* printf 2 (line "open %s failed") [AStr (Some file)]; Exit
      else do* runcmd c; Exit
  | CList lc rc =>
      let* pid := fork1 in
      do* (if pid =? 0 then runcmd lc else Done tt);
      do* sysv SWait;
      do* runcmd rc;
      Exit
  | CPipe lc rc =>
      let* r := sys SPipe in
      if r_val r <? 0 then sh_panic "pipe"
      else
        let p0 := nth 0 (r_data r) 0 in
        let p1 := nth 1 (r_data r) 0 in
        let* pid := fork1 in
        do* (if pid =? 0 then
               do* sysv (SClose 1);
               do* sysv (SDup p1);
               do* sysv (SClose p0);
               do* sysv (SClose p1);
               runcmd lc
             else Done tt);
        let* pid := fork1 in
        do* (if pid =? 0 then
               do* sysv (SClose 0);
               do* sysv (SDup p0);
               do* sysv (SClose p0);
               do* sysv (SClose p1);
               runcmd rc
             else Done tt);
        do* sysv (SClose p0);
        do* sysv (SClose p1);
        do* sysv SWait;
        do* sysv SWait;
        Exit
  | CBack c =>
      let* pid := fork1 in
      do* (if pid =? 0 then runcmd c else Done tt);
      Exit
  end.

(** The string that [gets] leaves in the cleared buffer; [None] for the end of
    the input. *)
Definition getcmd (nbuf : Z) : prog (option (list Z)) :=
  do* printf 2 (bytes "$ ") [];
  let* l := gets nbuf in
  let buf := until_nul l in
  Done (match buf with [] => None | _ => Some buf end).

(** [runcmd(parsecmd(buf))] *)
Definition run_line (buf : list Z) : prog unit :=
  match parsecmd buf with
  | Parsed (c, b) => runcmd (cmd_map (string_at b) c)
  | Panicked msg => sh_panic msg
  | Leftovers l => do* printf 2 (line "leftovers: %s") [AStr (Some l)]; sh_panic "syntax"
  | TooDeep => Stuck "parsecmd"
  end.

Definition starts_with (p l : list Z) : bool := bool_decide (take (length p) l = p).

(** The loop of [main] for at most [n] lines. *)
Fixpoint sh_loop (n : nat) : prog unit :=
  match n with
  | O => Stuck "sh"
  | S n' =>
      let* r := getcmd 100 in
      match r with
      | None => Exit
      | Some buf =>
          if starts_with (bytes "cd ") buf then
            let dir := drop 3 (removelast buf) in
            let* ok := sysv (SChdir dir) in
            do* (if ok <? 0 then printf 2 (line "cannot cd %s") [AStr (Some dir)] else Done tt);
            sh_loop n'
          else
            let* pid := fork1 in
            do* (if pid =? 0 then run_line buf else Done tt);
            do* sysv SWait;
            sh_loop n'
      end
  end.

(** [while((fd = open("console", O_RDWR)) >= 0)] *)
Fixpoint open_console (n : nat) : prog unit :=
  match n with
  | O => Stuck "sh"
  | S n' =>
      let* fd := sysv (SOpen (bytes "console") O_RDWR) in
      if 0 <=? fd then
        if 3 <=? fd then do* sysv (SClose fd); Done tt
        else open_console n'
      else Done tt
  end.

Definition sh_main (n : nat) : prog unit := do* open_console n; sh_loop n.

(** * The shell: what a line runs

    The system calls of the shell over tables of descriptors, and the meaning of
    a command as the list of programs it starts, each with its three standard
    files.  A forked child runs first, to its end. *)

(** What a descriptor refers to: a file that was opened, or an end of a pipe. *)
Inductive ofile := Named (path : list Z) (mode : Z) | PipeRead (n : nat) | PipeWrite (n : nat).

Definition table : Type := list (option ofile).

(** A program starts, with its arguments and its descriptors; a message is
    written to a file. *)
Inductive event := Ran (argv : list (list Z)) (fds : table) | Wrote (f : option ofile) (data : list Z).

Definition fd_file (t : table) (fd : Z) : option ofile := if 0 <=? fd then mjoin (t !! Z.to_nat fd) else None.

(** The lowest free descriptor. *)
Definition take_fd (t : table) (f : ofile) : option (Z * table) :=
  match list_find (fun x => x = None) t with
  | Some (i, _) => Some (Z.of_nat i, <[i := Some f]> t)
  | None => None
  end.

Definition ok (z : Z) : reply := MkReply z [].

Section interp.
(** What [open] and [exec] succeed on, and the process id that [fork] returns. *)
Variable can_open : list Z -> Z -> bool.
Variable can_exec : list Z -> bool.
Variable child : Z.

(** The events of a process with the table [t], when [n] pipes exist; the
    number of pipes then. *)
Fixpoint interp {A} (p : prog A) (t : table) (n : nat) : list event * nat :=
  match p with
  | Done _ | Exit | Stuck _ => ([], n)
  | Call c k =>
      match c with
      | SFork =>
          let '(ev1, n) := interp (k (ok 0)) t n in
          let '(ev2, n) := interp (k (ok child)) t n in
          (ev1 ++ ev2, n)
      | SClose fd =>
          match fd_file t fd with
          | Some _ => interp (k (ok 0)) (<[Z.to_nat fd := None]> t) n
          | None => interp (k (ok (-1))) t n
          end
      | SDup fd =>
          match fd_file t fd with
          | Some f => match take_fd t f with
                      | Some (fd', t) => interp (k (ok fd')) t n
                      | None => interp (k (ok (-1))) t n
                      end
          | None => interp (k (ok (-1))) t n
          end
      | SOpen path mode =>
          if can_open path mode then
            match take_fd t (Named path mode) with
            | Some (fd, t) => interp (k (ok fd)) t n
            | None => interp (k (ok (-1))) t n
            end
          else interp (k (ok (-1))) t n
      | SPipe =>
          match take_fd t (PipeRead n) with
          | Some (fd0, t0) =>
              match take_fd t0 (PipeWrite n) with
              | Some (fd1, t1) => interp (k (MkReply 0 [fd0; fd1])) t1 (S n)
              | None => interp (k (ok (-1))) t n
              end
          | None => interp (k (ok (-1))) t n
          end
      | SExec path argv => if can_exec path then ([Ran argv t], n) else interp (k (ok (-1))) t n
      | SWrite fd data =>
          let '(ev, n) := interp (k (ok (Z.of_nat (length data)))) t n in
          (Wrote (fd_file t fd) data :: ev, n)
      | SWait => interp (k (ok child)) t n
      | _ => interp (k (ok (-1))) t n
      end
  end.

(** ** The meaning of a command *)

Definition stdio (i o e : ofile) : table := [Some i; Some o; Some e] ++ replicate 13 None.

(** A message on the standard error, a byte at a time. *)
Definition notice (e : ofile) (msg : list Z) : list event := (fun c => Wrote (Some e) [u8 c]) <$> msg.

Fixpoint jobs (c : cmd (list Z)) (i o e : ofile) (n : nat) : list event * nat :=
  match c with
  | CExec [] => ([], n)
  | CExec (a0 :: argv) =>
      if can_exec a0 then ([Ran (a0 :: argv) (stdio i o e)], n)
      else (notice e (bytes "exec " ++ a0 ++ bytes " failed" ++ [NL]), n)
  | CRedir c file mode fd =>
      if can_open file mode then
        if fd =? 0 then jobs c (Named file mode) o e n else jobs c i (Named file mode) e n
      else (notice e (bytes "open " ++ file ++ bytes " failed" ++ [NL]), n)
  | CPipe l r =>
      let '(ev1, n1) := jobs l i (PipeWrite n) e (S n) in
      let '(ev2, n2) := jobs r (PipeRead n) o e n1 in
      (ev1 ++ ev2, n2)
  | CList l r =>
      let '(ev1, n1) := jobs l i o e n in
      let '(ev2, n2) := jobs r i o e n1 in
      (ev1 ++ ev2, n2)
  | CBack c => jobs c i o e n
  end.

(** Redirections are of descriptor 0 or 1. *)
Fixpoint std_redirs {W} (c : cmd W) : bool :=
  match c with
  | CExec _ => true
  | CRedir c _ _ fd => ((fd =? 0) || (fd =? 1)) && std_redirs c
  | CPipe l r | CList l r => std_redirs l && std_redirs r
  | CBack c => std_redirs c
  end.

(** ** The shell runs the meaning *)

Lemma interp_assoc {A B C} (m : prog A) (f : A -> prog B) (g : B -> prog C) : forall t n,
  interp (pbind (pbind m f) g) t n = interp (pbind m (fun a => pbind (f a) g)) t n.
Proof.
  induction m as [a| |why|c k IH]; intros t n; [done|done|done|].
  destruct c; cbn [pbind interp]; repeat (case_match; simplify_eq); rewrite ?IH in *; congruence.
Qed.

Lemma interp_ret {A} (m : prog A) : forall t n, interp (pbind m Done) t n = interp m t n.
Proof.
  induction m as [a| |why|c k IH]; intros t n; [done|done|done|].
  destruct c; cbn [pbind interp]; repeat (case_match; simplify_eq); rewrite ?IH in *; congruence.
Qed.

Lemma prints_inv {A} fd (p : prog A) c l a : prints fd p (c :: l) a ->
  exists k, p = Call (SWrite fd [u8 c]) k /\ forall r, prints fd (k r) l a.
Proof.
  intros H. assert (Hr : runs p ((fun x => (x, ok 0)) <$> writes fd (c :: l)) (Finished a)).
  { apply H. split; [done|]. rewrite <- list_fmap_compose. by apply list_fmap_id. }
  destruct p as [b| |why|c' k]; [by inversion Hr..|]. exists k.
  assert (c' = SWrite fd [u8 c]) as -> by (by inversion Hr). split; [done|].
  intros r t o. split.
  - intros Hk. apply (runs_call (SWrite fd [u8 c])) in Hk. apply H in Hk as [-> Ht]. split; [done|]. by injection Ht.
  - intros [-> Ht]. assert (Hk : runs (Call (SWrite fd [u8 c]) k) ((SWrite fd [u8 c], r) :: t) (Finished a)).
    { apply H. split; [done|]. cbn. by rewrite Ht. }
    by inversion Hk.
Qed.

Lemma prints_nil_inv {A} fd (p : prog A) a : prints fd p [] a -> p = Done a.
Proof. intros H. assert (Hr : runs p [] (Finished a)) by (by apply H). by inversion Hr. Qed.

Lemma interp_prints {A B} t e (p : prog A) (f : A -> prog B) l a : fd_file t 2 = Some e -> prints 2 p l a -> forall n,
  interp (pbind p f) t n = let '(ev, n') := interp (f a) t n in (notice e l ++ ev, n').
Proof.
  intros Ht. revert p. induction l as [|c l IH]; intros p Hp n.
  - rewrite (prints_nil_inv _ _ _ Hp). cbn [pbind notice fmap list_fmap app]. by destruct (interp _ _ _).
  - destruct (prints_inv _ _ _ _ _ Hp) as (k & -> & Hk). cbn [pbind interp]. rewrite (IH _ (Hk _)), Ht.
    by destruct (interp (f a) t n).
Qed.

(** A message that ends the program. *)
Lemma interp_notice {A B} t e (p : prog unit) (k : A -> prog B) l n : fd_file t 2 = Some e -> prints 2 p l tt ->
  interp (pbind (pbind p (fun _ => Exit)) k) t n = (notice e l, n).
Proof.
  intros Ht Hp. rewrite interp_assoc, (interp_prints t e p _ l tt Ht Hp). cbn [pbind interp]. by rewrite app_nil_r.
Qed.

Hypothesis Hchild : 0 < child.

Lemma child_is : (child =? -1) = false /\ (child =? 0) = false.
Proof. split; apply Z.eqb_neq; lia. Qed.

(** A command whose meaning is [m]: whatever the program does next. *)
Definition means (p : prog unit) (m : ofile -> ofile -> ofile -> nat -> list event * nat) : Prop :=
  forall B (k : unit -> prog B) i o e n, interp (pbind p k) (stdio i o e) n = m i o e n.

Lemma means_exec argv : means (runcmd (CExec argv)) (jobs (CExec argv)).
Proof.
  intros B k i o e n. destruct argv as [|a0 argv]; [done|]. cbn [runcmd jobs pbind sysv interp].
  destruct (can_exec a0); [done|]. apply (interp_notice (stdio i o e) e); [done|].
  apply printf_prints. unfold line. reflexivity.
Qed.

Lemma means_redir c file mode fd : (fd =? 0) || (fd =? 1) = true -> means (runcmd c) (jobs c) ->
  means (runcmd (CRedir c file mode fd)) (jobs (CRedir c file mode fd)).
Proof.
  intros Hfd Hc B k i o e n. rewrite orb_true_iff, !Z.eqb_eq in Hfd.
  assert (Ht : exists t, fd_file (stdio i o e) fd <> None /\ <[Z.to_nat fd := None]> (stdio i o e) = t /\
    take_fd t (Named file mode) =
      Some (fd, if fd =? 0 then stdio (Named file mode) o e else stdio i (Named file mode) e) /\ fd_file t 2 = Some e).
  { destruct Hfd as [->| ->]; by eexists. }
  destruct Ht as (t & H1 & H2 & H3 & H4). cbn [runcmd jobs pbind sysv interp].
  destruct (fd_file (stdio i o e) fd) as [f|]; [clear H1|done]. rewrite H2. cbn [pbind ok r_val interp].
  destruct (can_open file mode).
  - rewrite H3. cbn [pbind ok r_val]. rewrite (proj2 (Z.ltb_ge fd 0)) by lia.
    destruct (fd =? 0); rewrite interp_assoc; apply Hc.
  - cbn [pbind ok r_val]. apply (interp_notice t e); [done|]. apply printf_prints. unfold line. reflexivity.
Qed.

(** [if(fork1() == 0) p;] and then [q], where the child does not come back. *)
Lemma interp_fork1 {A B} (p : prog unit) (q : unit -> prog A) (k : A -> prog B) t n r :
  interp (pbind p (fun a => pbind (q a) k)) t n = r ->
  interp (pbind (pbind fork1 (fun pid => pbind (if pid =? 0 then p else Done tt) q)) k) t n =
  let '(ev2, n2) := interp (pbind (q tt) k) t (snd r) in (fst r ++ ev2, n2).
Proof.
  destruct child_is as [H1 H2]. intros <-. unfold fork1, sysv. cbn [pbind interp ok r_val]. rewrite H1. cbn [pbind Z.eqb].
  rewrite H2, interp_assoc. cbn [pbind]. by destruct (interp _ t n).
Qed.

Lemma means_back c : means (runcmd c) (jobs c) -> means (runcmd (CBack c)) (jobs (CBack c)).
Proof.
  intros Hc B k i o e n. cbn [runcmd jobs]. erewrite interp_fork1 by apply Hc. cbn [pbind interp].
  rewrite app_nil_r. by destruct (jobs c i o e n).
Qed.

Lemma means_list l r : means (runcmd l) (jobs l) -> means (runcmd r) (jobs r) -> means (runcmd (CList l r)) (jobs (CList l r)).
Proof.
  intros Hl Hr B k i o e n. cbn [runcmd jobs]. erewrite interp_fork1 by apply Hl.
  cbn [pbind sysv interp]. rewrite interp_assoc, Hr. by destruct (jobs l i o e n).
Qed.

Lemma means_pipe l r : means (runcmd l) (jobs l) -> means (runcmd r) (jobs r) -> means (runcmd (CPipe l r)) (jobs (CPipe l r)).
Proof.
  intros Hl Hr B k i o e n. cbn [runcmd jobs pbind sys interp].
  change (take_fd (stdio i o e) (PipeRead n)) with (Some (3, <[3%nat := Some (PipeRead n)]> (stdio i o e))).
  cbv iota beta.
  change (take_fd (<[3%nat := Some (PipeRead n)]> (stdio i o e)) (PipeWrite n)) with
    (Some (4, <[4%nat := Some (PipeWrite n)]> (<[3%nat := Some (PipeRead n)]> (stdio i o e)))).
  cbv iota beta. set (t := <[4%nat := Some (PipeWrite n)]> (<[3%nat := Some (PipeRead n)]> (stdio i o e))).
  cbn [ok r_val r_data nth Z.ltb Z.compare]. change (0 <? 0) with false. cbv iota.
  erewrite interp_fork1.
  2: { cbn [pbind sysv interp]. apply Hl. }
  erewrite interp_fork1.
  2: { cbn [pbind sysv interp]. apply Hr. }
  cbn [pbind sysv interp]. repeat case_match; simplify_eq/=; rewrite ?app_nil_r.
  match goal with H : jobs r _ _ _ _ = _ |- _ => by rewrite H end.
Qed.

Lemma runcmd_means c : std_redirs c = true -> means (runcmd c) (jobs c).
Proof.
  induction c as [argv|c IH file mode fd|l IHl r IHr|l IHl r IHr|c IH]; cbn [std_redirs]; intros H.
  - apply means_exec.
  - apply andb_prop in H as [H1 H2]. apply means_redir; auto.
  - apply andb_prop in H as [H1 H2]. apply means_pipe; auto.
  - apply andb_prop in H as [H1 H2]. apply means_list; auto.
  - apply means_back; auto.
Qed.

(** ** From the line to its jobs *)

Lemma cmd_map_ext {V W} (f g : V -> W) c : Forall (fun w => f w = g w) (cmd_words c) -> cmd_map f c = cmd_map g c.
Proof.
  induction c as [argv|c IH file mode fd|l IHl r IHr|l IHl r IHr|c IH]; cbn [cmd_words cmd_map]; rewrite ?Forall_app; intros H.
  - f_equal. by apply list_fmap_ext, Forall_lookup.
  - destruct H as [H1 H2]. apply Forall_cons in H2 as [H2 _]. f_equal; [by apply IH|exact H2].
  - destruct H as [H1 H2]. f_equal; auto.
  - destruct H as [H1 H2]. f_equal; auto.
  - f_equal; auto.
Qed.

Lemma redirs_std rs : forall c, std_redirs c = true -> std_redirs (foldl redir_around c rs) = true.
Proof. induction rs as [|r rs IH]; intros c Hc; [done|]. apply IH. by destruct r. Qed.

Lemma cmd_line_std : (forall l, std_redirs (cmd_line l) = true) /\ (forall p, std_redirs (cmd_pipe p) = true) /\
  (forall e, std_redirs (cmd_exec e) = true).
Proof.
  assert (Hbg : forall bg c, std_redirs c = true -> std_redirs (Nat.iter bg (@CBack (list Z)) c) = true).
  { intros bg c Hc. by induction bg. }
  apply syntax_mind.
  - intros p Hp bg. by apply Hbg.
  - intros p Hp bg l Hl. cbn. by rewrite Hbg.
  - done.
  - intros e He p Hp. cbn. by rewrite He, Hp.
  - intros rs ws. by apply redirs_std.
  - intros l Hl rs. by apply redirs_std.
Qed.

Lemma run_line_jobs buf l i o e n : Forall (fun c => c <> 0) buf -> lexes buf (toks_line l) -> few_line l = true ->
  interp (run_line buf) (stdio i o e) n = jobs (cmd_line l) i o e n.
Proof.
  intros Hnz Hl Hf. destruct (parsecmd_syntax buf l Hf Hl) as (c & Hp & Hc).
  pose proof (parsecmd_words buf Hnz) as Hw. unfold run_line. rewrite Hp in Hw |- *. destruct Hw as [_ Hw].
  rewrite (cmd_map_ext (string_at (nulterminate c buf)) (content buf)), Hc; [|eapply Forall_impl; [exact Hw|]; by intros w []].
  rewrite <- interp_ret. apply runcmd_means. apply cmd_line_std.
Qed.
End interp.
