(* ===== verification/Umalloc.v ===== *)
(** * The user allocator (umalloc.c)

    The allocator of Kernighan and Ritchie: a circular list of free blocks in
    the order of their addresses, through the static header [base].  A
    [Header] is 8 bytes, its pointer first; sizes are in headers and count the
    header itself.  [sbrk] is what the allocator uses of the kernel. *)

From S2P Require Import Prelude Mem.

(** The memory of the process, [freep] and the break. *)
Record heap := MkHeap { h_mem : mem; h_freep : Z; h_brk : Z }.

(** [sbrk(n)] moves the break, or fails; the result of the call is the old
    break.  The address space of a process ends at KERNBASE. *)
Class Sbrk := {
  sbrk : Z -> Z -> option Z;
  sbrk_grows : forall brk n brk', 0 <= n -> sbrk brk n = Some brk' -> brk' = brk + n /\ brk' <= 2 ^ 31
}.

(** The fields of a header, and [p + n] for a [Header *]. *)
Definition hptr (m : mem) (p : Z) : Z := ld32 m p.
Definition hsize (m : mem) (p : Z) : Z := ld32 m (p + 4).
Definition set_ptr (m : mem) (p v : Z) : mem := st32 m p v.
Definition set_size (m : mem) (p v : Z) : mem := st32 m (p + 4) v.
Definition hadd (p n : Z) : Z := u32 (p + 8 * n).

(** The free block after which [bp] belongs. *)
Fixpoint free_find (fuel : nat) (m : mem) (bp p : Z) : option Z :=
  match fuel with
  | O => None
  | S n =>
      if (p <? bp) && (bp <? hptr m p) then Some p
      else if (hptr m p <=? p) && ((p <? bp) || (bp <? hptr m p)) then Some p
      else free_find n m bp (hptr m p)
  end.

(** The two joins of [free]: with the block above [bp], and with [p] below it. *)
Definition join_above (m : mem) (bp p : Z) : mem :=
  if hadd bp (hsize m bp) =? hptr m p then
    let m := set_size m bp (u32 (hsize m bp + hsize m (hptr m p))) in
    set_ptr m bp (hptr m (hptr m p))
  else set_ptr m bp (hptr m p).

Definition join_below (m : mem) (bp p : Z) : mem :=
  if hadd p (hsize m p) =? bp then
    let m := set_size m p (u32 (hsize m p + hsize m bp)) in
    set_ptr m p (hptr m bp)
  else set_ptr m p bp.

Definition free (fuel : nat) (h : heap) (ap : Z) : option heap :=
  let bp := u32 (ap - 8) in
  match free_find fuel (h_mem h) bp (h_freep h) with
  | None => None
  | Some p => Some (MkHeap (join_below (join_above (h_mem h) bp p) bp p) p (h_brk h))
  end.

Section umalloc.
Context `{Sbrk}.
(** The address of the static header [base]. *)
Variable base : Z.

(** The pointer that it returns; 0 when there is no memory. *)
Definition morecore (fuel : nat) (h : heap) (nu : Z) : option (Z * heap) :=
  let nu := if nu <? 4096 then 4096 else nu in
  match sbrk (h_brk h) (i32 (nu * 8)) with
  | None => Some (0, h)
  | Some brk =>
      let hp := h_brk h in
      match free fuel (MkHeap (set_size (h_mem h) hp nu) (h_freep h) brk) (hadd hp 1) with
      | None => None
      | Some h => Some (h_freep h, h)
      end
  end.

Fixpoint malloc_loop (fuel : nat) (h : heap) (nunits prevp p : Z) : option (Z * heap) :=
  match fuel with
  | O => None
  | S n =>
      let m := h_mem h in
      if nunits <=? hsize m p then
        if hsize m p =? nunits then
          Some (hadd p 1, MkHeap (set_ptr m prevp (hptr m p)) prevp (h_brk h))
        else
          let m := set_size m p (u32 (hsize m p - nunits)) in
          let p := hadd p (hsize m p) in
          let m := set_size m p nunits in
          Some (hadd p 1, MkHeap m prevp (h_brk h))
      else if p =? h_freep h then
        match morecore n h nunits with
        | None => None
        | Some (p, h) => if p =? 0 then Some (0, h) else malloc_loop n h nunits p (hptr (h_mem h) p)
        end
      else malloc_loop n h nunits p (hptr m p)
  end.

Definition units (nbytes : Z) : Z := u32 (u32 (nbytes + 8 - 1) / 8 + 1).

Definition malloc (fuel : nat) (h : heap) (nbytes : Z) : option (Z * heap) :=
  let nunits := units nbytes in
  let h :=
    if h_freep h =? 0 then MkHeap (set_size (set_ptr (h_mem h) base base) base 0) base (h_brk h)
    else h in
  malloc_loop fuel h nunits (h_freep h) (hptr (h_mem h) (h_freep h)).
End umalloc.
