(* ===== verification/UmallocFacts.v ===== *)
(** * The user allocator: its free list

    The circular list as a list of blocks in the order of their addresses,
    with gaps between them, and what [free] and [malloc] do to it. *)

From S2P Require Import Prelude Mem Umalloc.

(** A block: its address and its size in headers. *)
Abbreviation block := (Z * Z)%type.

(** ** Headers and stores *)

(** The bytes at [a .. a + 8) are those of a header. *)
Definition in_header (p a : Z) : Prop := p <= a < p + 8.

Lemma hptr_set_ptr m p v : is_u32 v -> hptr (set_ptr m p v) p = v.
Proof. apply ld32_st32_eq. Qed.
Lemma hsize_set_size m p v : is_u32 v -> hsize (set_size m p v) p = v.
Proof. apply ld32_st32_eq. Qed.
Lemma hptr_set_size_same m p v : hptr (set_size m p v) p = hptr m p.
Proof. apply ld32_st32_ne. lia. Qed.
Lemma hsize_set_ptr_same m p v : hsize (set_ptr m p v) p = hsize m p.
Proof. apply ld32_st32_ne. lia. Qed.

(** The memories agree outside the headers at [ps]. *)
Definition same_but (ps : list Z) (m m' : mem) : Prop :=
  forall a, Forall (fun p => ~ in_header p a) ps -> ld8 m' a = ld8 m a.

Lemma same_but_refl ps m : same_but ps m m.
Proof. by intros a _. Qed.
Lemma same_but_trans ps m m' m'' : same_but ps m m' -> same_but ps m' m'' -> same_but ps m m''.
Proof. intros H1 H2 a Ha. by rewrite H2, H1. Qed.
Lemma same_but_sub ps qs m m' : ps ⊆ qs -> same_but ps m m' -> same_but qs m m'.
Proof. intros Hs H a Ha. apply H. eapply Forall_forall. intros p Hp. exact (proj1 (Forall_forall _ _) Ha p (Hs p Hp)). Qed.
Lemma same_but_ptr m p v : same_but [p] m (set_ptr m p v).
Proof. intros a Ha. apply Forall_cons in Ha as [Ha _]. apply ld8_st32_ne. unfold in_header in Ha. lia. Qed.
Lemma same_but_size m p v : same_but [p] m (set_size m p v).
Proof. intros a Ha. apply Forall_cons in Ha as [Ha _]. apply ld8_st32_ne. unfold in_header in Ha. lia. Qed.

(** Two headers that do not overlap. *)
Definition apart (p q : Z) : Prop := p + 8 <= q \/ q + 8 <= p.

Lemma same_but_header ps m m' q : same_but ps m m' -> Forall (apart q) ps -> hptr m' q = hptr m q /\ hsize m' q = hsize m q.
Proof.
  intros Hm Hq. split; apply ld32_agree; intros i Hi; apply Hm; (eapply Forall_impl; [exact Hq|]);
    intros p Hp; unfold apart, in_header in *; lia.
Qed.

(** ** Segments of the list *)

Fixpoint seg (m : mem) (a : Z) (L : list block) (e : Z) : Prop :=
  match L with
  | [] => a = e
  | (b, s) :: L => a = b /\ hsize m b = s /\ seg m (hptr m b) L e
  end.

Lemma seg_app m L1 : forall a L2 e, seg m a (L1 ++ L2) e <-> exists x, seg m a L1 x /\ seg m x L2 e.
Proof.
  induction L1 as [|[b s] L1 IH]; intros a L2 e; cbn.
  - split; [intros H; by exists a|by intros (x & -> & H)].
  - rewrite IH. split; [intros (-> & Hs & x & H1 & H2); exists x; auto|intros (x & (-> & Hs & H1) & H2); eauto].
Qed.

Lemma seg_same ps m m' L : forall a e, same_but ps m m' -> Forall (fun b => Forall (apart (fst b)) ps) L ->
  seg m a L e -> seg m' a L e.
Proof.
  induction L as [|[b s] L IH]; intros a e Hm HL H; [done|]. apply Forall_cons in HL as [Hb HL].
  destruct H as (-> & Hs & H). destruct (same_but_header ps m m' b Hm Hb) as [E1 E2]. cbn. rewrite E1, E2. auto.
Qed.

Lemma seg_intro m b s nx L e : hsize m b = s -> hptr m b = nx -> seg m nx L e -> seg m b ((b, s) :: L) e.
Proof. by intros <- <- H. Qed.

(** The first address of a segment. *)
Definition first (L : list block) (e : Z) : Z := match L with [] => e | (b, _) :: _ => b end.
Lemma seg_first m a L e : seg m a L e -> a = first L e.
Proof. destruct L as [|[b s] L]; [done|]. by intros (-> & _). Qed.

(** ** Blocks in order, with gaps *)

Definition gap (x y : block) : Prop := fst x + 8 * snd x < fst y /\ fst x + 8 <= fst y.

Fixpoint spaced (L : list block) : Prop :=
  match L with
  | [] => True
  | x :: L => Forall (gap x) L /\ spaced L
  end.

Lemma spaced_app L1 L2 : spaced (L1 ++ L2) <-> spaced L1 /\ spaced L2 /\ Forall (fun x => Forall (gap x) L2) L1.
Proof.
  induction L1 as [|x L1 IH]; cbn; [by rewrite Forall_nil; tauto|]. rewrite IH, Forall_app, Forall_cons. tauto.
Qed.

Lemma gap_apart x y : gap x y -> apart (fst x) (fst y).
Proof. intros [_ H]. by left. Qed.

(** ** The search of [free] *)

(** From a block below [bp] the search goes up to the last one below it. *)
Lemma find_up m bp p sp L2 e M : forall n f,
  seg m f (M ++ (p, sp) :: L2) e -> spaced (M ++ (p, sp) :: L2) -> Forall (fun b => fst b < bp) (M ++ [(p, sp)]) ->
  match L2 with [] => e <= p | (nx, _) :: _ => bp < nx end ->
  (length M < n)%nat -> free_find n m bp f = Some p.
Proof.
  induction M as [|[b s] M IH]; intros n f Hseg Hsp Hlt Hnx Hn; (destruct n as [|n]; [cbn in Hn; lia|]); cbn [app] in *.
  - destruct Hseg as (-> & Hs & Hseg). apply Forall_cons in Hlt as [Hp _]. cbn [fst] in Hp. cbn [free_find].
    rewrite (proj2 (Z.ltb_lt p bp)) by done. cbn [andb orb]. rewrite andb_true_r.
    destruct L2 as [|[nx sn] L2].
    + cbn in Hseg. subst e. rewrite (proj2 (Z.leb_le _ p)) by done. by destruct (bp <? hptr m p).
    + destruct Hseg as (E & _). rewrite E, (proj2 (Z.ltb_lt bp nx)) by done. done.
  - destruct Hseg as (-> & Hs & Hseg). apply Forall_cons in Hlt as [Hb Hlt]. cbn [fst] in Hb. cbn [free_find].
    destruct Hsp as [Hg Hsp]. pose proof (seg_first _ _ _ _ Hseg) as E.
    assert (Hnext : b < hptr m b < bp).
    { rewrite E. destruct M as [|[b' s'] M]; cbn [app first] in *.
      - apply Forall_cons in Hlt as [H1 _]. apply Forall_cons in Hg as [[_ H2] _]. cbn [fst] in *. lia.
      - apply Forall_cons in Hlt as [H1 _]. apply Forall_cons in Hg as [[_ H2] _]. cbn [fst] in *. lia. }
    rewrite (proj2 (Z.ltb_ge bp _)), andb_false_r, (proj2 (Z.leb_gt _ b)) by lia. cbn [andb].
    apply IH; [done|done|done|done|cbn in Hn; lia].
Qed.

(** From a block above [bp] it goes round to the start of the list. *)
Lemma find_over m bp e M : forall n f,
  seg m f M e -> spaced M -> Forall (fun b => bp < fst b) M -> e < bp ->
  free_find (length M + n) m bp f = free_find n m bp e.
Proof.
  induction M as [|[b s] M IH]; intros n f Hseg Hsp Hgt He; [by cbn in Hseg; subst f|].
  destruct Hseg as (-> & Hs & Hseg). destruct Hsp as [Hg Hsp]. apply Forall_cons in Hgt as [Hb Hgt]. cbn [fst] in Hb.
  cbn [length Nat.add free_find]. rewrite (proj2 (Z.ltb_ge b bp)) by lia. cbn [andb orb].
  replace ((hptr m b <=? b) && (bp <? hptr m b)) with false; [by apply IH|]. symmetry. apply andb_false_iff.
  rewrite (seg_first _ _ _ _ Hseg). destruct M as [|[b' s'] M]; cbn [first].
  - right. apply Z.ltb_ge. lia.
  - left. apply Z.leb_gt. apply Forall_cons in Hg as [[_ H2] _]. cbn [fst] in H2. lia.
Qed.

(** The list of a process: [base], then the free blocks. *)
Definition ring (base : Z) (F : list block) : list block := (base, 0) :: F.

(** [bp] lies between [p] and the blocks after it. *)
Record between (L1 : list block) (p sp : Z) (L2 : list block) (bp : Z) : Prop := {
  bt_below : Forall (fun b => fst b < bp) (L1 ++ [(p, sp)]);
  bt_above : Forall (fun b => bp < fst b) L2
}.

(** From the middle of a list. *)
Lemma seg_from m a L x e : seg m a L e -> x ∈ L -> exists A B, L = A ++ x :: B /\ seg m (fst x) (x :: B) e.
Proof.
  intros Hseg (A & B & ->)%list_elem_of_split. exists A, B. split; [done|].
  apply seg_app in Hseg as (y & _ & Hs). destruct x as [b s]. by destruct Hs as (<- & Hs).
Qed.

Lemma ring_low base F L1 p sp L2 bp : ring base F = L1 ++ (p, sp) :: L2 -> spaced (ring base F) ->
  Forall (fun b => fst b < bp) (L1 ++ [(p, sp)]) -> base < bp /\ base <= p.
Proof.
  intros EL Hsp Hb. destruct L1 as [|b L1]; cbn in EL; injection EL as Eb EF.
  - subst. apply Forall_cons in Hb as [Hb _]. cbn in Hb. lia.
  - subst b. apply Forall_cons in Hb as [Hb _]. cbn in Hb. destruct Hsp as [Hg _]. rewrite EF in Hg.
    apply Forall_app in Hg as [_ Hg]. apply Forall_cons in Hg as [[_ H2] _]. cbn [fst] in H2. lia.
Qed.

Lemma free_find_spec m base F L1 p sp L2 bp f n :
  ring base F = L1 ++ (p, sp) :: L2 -> seg m base (ring base F) base -> spaced (ring base F) ->
  between L1 p sp L2 bp -> f ∈ (ring base F).*1 -> (2 * length (ring base F) < n)%nat ->
  free_find n m bp f = Some p.
Proof.
  intros EL Hseg Hsp [Hb Ha] Hf Hn. destruct (ring_low _ _ _ _ _ _ _ EL Hsp Hb) as [Hbase Hpb].
  assert (Hnx : match L2 with [] => base <= p | (nx, _) :: _ => bp < nx end).
  { destruct L2 as [|[nx sn] L2]; [done|]. by apply Forall_cons in Ha as [Ha _]. }
  rewrite EL in *. rewrite length_app in Hn. cbn [length] in Hn.
  apply list_elem_of_fmap in Hf as (x & -> & Hf). pose proof Hseg as (y & _ & Hp)%seg_app.
  pose proof Hsp as (Hsp1 & [Hg Hsp2] & Hsp3)%spaced_app.
  apply elem_of_app in Hf as [Hf|[->|Hf]%elem_of_cons].
  - apply list_elem_of_split in Hf as (A & B & EA). rewrite EA in *. rewrite <- app_assoc in *. cbn [app] in *.
    apply seg_app in Hseg as (z & _ & Hz). destruct x as [b s]. pose proof (seg_first _ _ _ _ Hz) as ->.
    apply spaced_app in Hsp as (_ & Hsp & _). apply Forall_app in Hb as [_ Hb].
    eapply (find_up m bp p sp L2 base ((b, s) :: B)); [exact Hz|done|done|done|]. rewrite length_app in Hn. cbn in *. lia.
  - pose proof (seg_first _ _ _ _ Hp) as ->. eapply (find_up m bp p sp L2 base []); [exact Hp|done| |done|cbn; lia].
    by apply Forall_app in Hb as [_ Hb].
  - destruct Hp as (-> & _ & Hp). destruct (seg_from _ _ _ _ _ Hp Hf) as (A & B & -> & Hx).
    apply spaced_app in Hsp2 as (_ & Hsp2 & _). apply Forall_app in Ha as [_ Ha]. rewrite length_app in Hn.
    replace n with (length (x :: B) + (n - length (x :: B)))%nat by (cbn [length] in *; lia).
    rewrite (find_over m bp base (x :: B) _ (fst x)) by done.
    eapply (find_up m bp p sp _ base L1); [exact Hseg|done|done|done|]. cbn [length] in *. lia.
Qed.

(** ** The joins of [free] *)

(** The blocks after [bp], which may take in the first of them. *)
Definition above (bp sb : Z) (L2 : list block) : Z * list block :=
  match L2 with
  | (nx, sn) :: L3 => if bp + 8 * sb =? nx then (sb + sn, L3) else (sb, L2)
  | [] => (sb, [])
  end.
(** The blocks from [p] on, which may take in [bp]. *)
Definition below (p sp bp su : Z) (L3 : list block) : list block :=
  if p + 8 * sp =? bp then (p, sp + su) :: L3 else (p, sp) :: (bp, su) :: L3.

(** A block lies in the address space of a process. *)
Definition bounded (b : block) : Prop := 0 <= fst b /\ 0 <= snd b /\ fst b + 8 * snd b <= 2 ^ 31.
(** [x] ends at or before [y]; a header takes its 8 bytes. *)
Definition before (x y : block) : Prop := fst x + 8 * snd x <= fst y /\ fst x + 8 <= fst y.

Lemma gap_before x y : gap x y -> before x y.
Proof. unfold gap, before. lia. Qed.

Lemma hadd_small p n : bounded (p, n) -> hadd p n = p + 8 * n.
Proof. intros (H1 & H2 & H3). cbn in *. unfold hadd. apply u32_small. lia. Qed.

Lemma first_u32 L base : 0 <= base < 2 ^ 31 -> Forall bounded L -> is_u32 (first L base).
Proof.
  intros Hb HL. unfold is_u32. destruct L as [|[b s] L]; cbn [first]; [lia|].
  apply Forall_cons in HL as [(H1 & H2 & H3) _]. cbn in *. lia.
Qed.

Lemma join_above_spec m base L1 p sp L2 bp sb :
  seg m base L1 p -> seg m p ((p, sp) :: L2) base -> hsize m bp = sb ->
  0 <= base -> base + 8 <= bp -> bounded (bp, sb) -> 1 <= sb -> Forall bounded L2 -> spaced L2 -> Forall (before (bp, sb)) L2 ->
  Forall (fun x => before x (bp, sb)) (L1 ++ [(p, sp)]) ->
  let '(su, L3) := above bp sb L2 in
  let m' := join_above m bp p in
  seg m' base L1 p /\ hsize m' p = sp /\ seg m' bp ((bp, su) :: L3) base /\ same_but [bp] m m'.
Proof.
  intros H1 (_ & H2 & H3) Hb Hbase Hlow Hbb Hsb HL2 Hsp Ha Hbl. pose proof (seg_first _ _ _ _ H3) as Ep.
  apply Forall_app in Hbl as [Hbl Hp]. apply Forall_cons in Hp as [[_ Hp] _]. cbn [fst snd] in Hp.
  assert (Hbl' : Forall (fun b => Forall (apart (fst b)) [bp]) L1).
  { eapply Forall_impl; [exact Hbl|]. intros x [_ Hx]. constructor; [by left|done]. }
  assert (Hkeep : forall m', same_but [bp] m m' -> seg m' base L1 p /\ hsize m' p = sp).
  { intros m' Hm. split; [by eapply seg_same|]. rewrite <- H2. eapply same_but_header; [exact Hm|]. constructor; [by left|done]. }
  pose proof Hbb as (Hb1 & Hb2 & Hb3). cbn in Hb1, Hb2, Hb3.
  unfold join_above, above. rewrite Hb, (hadd_small bp sb Hbb), Ep.
  destruct L2 as [|[nx sn] L3]; cbn [first].
  - rewrite (proj2 (Z.eqb_neq _ base)) by lia. set (m' := set_ptr m bp base).
    assert (Hm : same_but [bp] m m') by apply same_but_ptr. destruct (Hkeep m' Hm) as [K1 K2]. split_and!; [done|done| |done].
    apply (seg_intro _ _ _ base); [unfold m'; by rewrite hsize_set_ptr_same|apply hptr_set_ptr; unfold is_u32; lia|done].
  - destruct H3 as (_ & Hsn & H3). apply Forall_cons in HL2 as [Hbn HL2]. apply Forall_cons in Ha as [Han Ha]. destruct Hsp as [Hg Hsp].
    pose proof Hbn as (Hn1 & Hn2 & Hn3). cbn in Hn1, Hn2, Hn3. destruct Han as [Ha1 Ha2]. cbn in Ha1, Ha2.
    assert (Hsame : Forall (fun b => Forall (apart (fst b)) [bp]) ((nx, sn) :: L3)).
    { constructor; [constructor; [by right|done]|]. eapply Forall_impl; [exact Ha|]. intros x [_ Hx]. constructor; [by right|done]. }
    destruct (Z.eqb_spec (bp + 8 * sb) nx) as [E|E].
    + set (m1 := set_size m bp (u32 (sb + hsize m nx))).
      assert (Hm1 : same_but [bp] m m1) by apply same_but_size.
      rewrite (proj1 (same_but_header [bp] m m1 p Hm1 ltac:(constructor; [by left|done]))), Ep. cbn [first].
      assert (En : hptr m1 nx = first L3 base).
      { rewrite (proj1 (same_but_header [bp] m m1 nx Hm1 ltac:(constructor; [by right|done]))). by apply (seg_first m _ L3). }
      rewrite En. set (m' := set_ptr m1 bp (first L3 base)).
      assert (Hm : same_but [bp] m m') by (eapply same_but_trans; [exact Hm1|apply same_but_ptr]).
      destruct (Hkeep m' Hm) as [K1 K2]. split_and!; [done|done| |done]. apply (seg_intro _ _ _ (first L3 base)).
      { unfold m', m1. by rewrite hsize_set_ptr_same, hsize_set_size, Hsn, u32_small by (try apply u32_range; lia). }
      { apply hptr_set_ptr, first_u32; [lia|done]. }
      apply Forall_cons in Hsame as [_ Hsame]. eapply (seg_same [bp] m m' L3); [exact Hm|exact Hsame|].
      by rewrite <- (seg_first m _ L3 _ H3).
    + set (m' := set_ptr m bp nx). assert (Hm : same_but [bp] m m') by apply same_but_ptr.
      destruct (Hkeep m' Hm) as [K1 K2]. split_and!; [done|done| |done]. 
      apply (seg_intro _ _ _ nx); [unfold m'; by rewrite hsize_set_ptr_same|apply hptr_set_ptr; unfold is_u32; lia|].
      eapply (seg_same [bp] m m' ((nx, sn) :: L3)); [exact Hm|exact Hsame|done].
Qed.

Lemma join_below_spec m base L1 p sp bp su L3 :
  seg m base L1 p -> hsize m p = sp -> seg m bp ((bp, su) :: L3) base ->
  0 <= base < 2 ^ 31 -> before (p, sp) (bp, su) -> bounded (p, sp) -> bounded (bp, su) -> Forall bounded L3 ->
  Forall (fun x => before x (p, sp)) L1 -> Forall (before (p, sp)) L3 ->
  let m' := join_below m bp p in
  seg m' base (L1 ++ below p sp bp su L3) base /\ same_but [p] m m'.
Proof.
  intros H1 Hs H2 Hbase [Hp1 Hp2] Hbp Hbb HL3 HL1 Hpl. cbn [fst snd] in Hp1, Hp2.
  pose proof H2 as (_ & Hsu & H3). pose proof (seg_first _ _ _ _ H3) as Eb.
  pose proof Hbp as (Hb1 & Hb2 & Hb3). pose proof Hbb as (Hc1 & Hc2 & Hc3). cbn in Hb1, Hb2, Hb3, Hc1, Hc2, Hc3.
  assert (Happ : Forall (fun b => Forall (apart (fst b)) [p]) L1).
  { eapply Forall_impl; [exact HL1|]. intros x [_ Hx]. constructor; [by left|done]. }
  assert (Hapl : Forall (fun b => Forall (apart (fst b)) [p]) L3).
  { eapply Forall_impl; [exact Hpl|]. intros x [_ Hx]. constructor; [by right|done]. }
  unfold join_below, below. rewrite Hs, (hadd_small p sp Hbp). destruct (Z.eqb_spec (p + 8 * sp) bp) as [E|E].
  - rewrite Hsu. set (m1 := set_size m p (u32 (sp + su))). assert (Hm1 : same_but [p] m m1) by apply same_but_size.
    assert (Eb1 : hptr m1 bp = first L3 base).
    { rewrite <- Eb. apply (same_but_header [p] m m1 bp Hm1). constructor; [right; lia|done]. }
    rewrite Eb1. set (m' := set_ptr m1 p (first L3 base)).
    assert (Hm : same_but [p] m m') by (eapply same_but_trans; [exact Hm1|apply same_but_ptr]). split; [|done].
    apply seg_app. exists p. split; [by eapply seg_same|]. apply (seg_intro _ _ _ (first L3 base)).
    { unfold m', m1. by rewrite hsize_set_ptr_same, hsize_set_size, u32_small by (try apply u32_range; lia). }
    { by apply hptr_set_ptr, first_u32. }
    eapply (seg_same [p] m m' L3); [done|done|]. by rewrite <- Eb.
  - set (m' := set_ptr m p bp). assert (Hm : same_but [p] m m') by apply same_but_ptr. split; [|done].
    apply seg_app. exists p. split; [by eapply seg_same|]. 
    apply (seg_intro _ _ _ bp); [unfold m'; by rewrite hsize_set_ptr_same|apply hptr_set_ptr; unfold is_u32; lia|].
    eapply (seg_same [p] m m' ((bp, su) :: L3)); [done| |done]. constructor; [constructor; [right; cbn; lia|done]|done].
Qed.

(** ** A block goes back into the list *)

Definition coalesce (L1 : list block) (p sp bp sb : Z) (L2 : list block) : list block :=
  let '(su, L3) := above bp sb L2 in L1 ++ below p sp bp su L3.

(** The bytes of some block of the list. *)
Definition covers (L : list block) (a : Z) : Prop := Exists (fun b => fst b <= a < fst b + 8 * snd b) L.

Definition disjoint (x y : block) : Prop := before x y \/ before y x.

Lemma locate b F : forall x, before x b -> Forall (disjoint b) F -> spaced (x :: F) ->
  exists L1 p sp L2, x :: F = L1 ++ (p, sp) :: L2 /\ Forall (fun y => before y b) (L1 ++ [(p, sp)]) /\ Forall (before b) L2.
Proof.
  induction F as [|y F IH]; intros x Hx Hd [Hg Hsp].
  - exists [], (fst x), (snd x), []. destruct x. split_and!; [done|by constructor|constructor].
  - apply Forall_cons in Hd as [[Hb|Hb] Hd].
    + exists [], (fst x), (snd x), (y :: F). destruct x as [a s]. split_and!; [done|by constructor|]. constructor; [done|].
      destruct Hsp as [Hgy _]. eapply Forall_impl; [exact Hgy|]. unfold gap, before in *. lia.
    + destruct (IH y Hb Hd Hsp) as (L1 & p & sp & L2 & -> & H1 & H2). exists (x :: L1), p, sp, L2.
      split_and!; [done|by constructor|done].
Qed.

(** What the neighbours of [bp] are. *)
Record place (L1 : list block) (p sp bp sb : Z) (L2 : list block) : Prop := {
  pl_spaced : spaced (L1 ++ (p, sp) :: L2);
  pl_below : Forall (fun y => before y (bp, sb)) (L1 ++ [(p, sp)]);
  pl_above : Forall (before (bp, sb)) L2;
  pl_size : 1 <= sb;
  pl_sizes : Forall (fun b => 1 <= snd b) L2
}.

Lemma above_spec L1 p sp bp sb L2 : place L1 p sp bp sb L2 ->
  let '(su, L3) := above bp sb L2 in
  spaced ((bp, su) :: L3) /\ Forall (gap (p, sp)) L3 /\ Forall (fun x => Forall (gap x) L3) L1 /\ sb <= su /\
  (forall Q : block -> Prop, Forall Q L2 -> Forall Q L3) /\ (length L3 <= length L2)%nat /\
  (forall hi, bp + 8 * sb <= hi -> Forall (fun b => fst b + 8 * snd b <= hi) L2 -> bp + 8 * su <= hi) /\
  (forall a, covers ((bp, su) :: L3) a <-> covers ((bp, sb) :: L2) a).
Proof.
  intros [Hsp Hb Ha Hs HsL]. apply spaced_app in Hsp as (Hsp1 & [Hg Hsp2] & Hx). unfold above.
  assert (Hx' : Forall (fun x => Forall (gap x) L2) L1).
  { eapply Forall_impl; [exact Hx|]. intros x Hq. by apply Forall_cons in Hq as [_ Hq]. }
  destruct L2 as [|[nx sn] L3]; [by split_and!|].
  destruct Hsp2 as [Hgn Hsp3]. destruct (Z.eqb_spec (bp + 8 * sb) nx) as [E|E].
  - apply Forall_cons in HsL as [Hsn HsL]. cbn [snd] in Hsn.
    split_and!; [split; [|done]|by apply Forall_cons in Hg as [_ Hg]| |lia|by intros Q [_ HQ]%Forall_cons|cbn; lia| |].
    + eapply Forall_impl; [exact Hgn|]. unfold gap. cbn [fst snd]. lia.
    + eapply Forall_impl; [exact Hx'|]. intros x Hq. by apply Forall_cons in Hq as [_ Hq].
    + intros hi Hhi Hq. apply Forall_cons in Hq as [Hq _]. cbn [fst snd] in Hq. lia.
    + intros a. unfold covers. rewrite !Exists_cons. cbn [fst snd].
      split; intros [H|H]; auto; [|lia|]; [destruct (decide (a < nx)); [left; lia|right; left; lia]|].
      destruct H as [H|H]; [left; lia|auto].
  - split_and!; try done. split; [|done]. apply Forall_cons in Ha as [[Ha1 Ha2] _]. cbn [fst snd] in Ha1, Ha2. constructor.
    + unfold gap. cbn [fst snd]. lia.
    + eapply Forall_impl; [exact Hgn|]. unfold gap. cbn [fst snd]. lia.
Qed.

Lemma coalesce_spec L1 p sp bp sb L2 : place L1 p sp bp sb L2 -> 0 <= sp ->
  let L := coalesce L1 p sp bp sb L2 in
  spaced L /\ (length L <= S (length (L1 ++ (p, sp) :: L2)))%nat /\
  (forall a, covers L a <-> covers (L1 ++ (p, sp) :: L2) a \/ bp <= a < bp + 8 * sb) /\
  (exists b, b ∈ L /\ sb <= snd b).
Proof.
  intros Hpl Hsp0. pose proof (above_spec _ _ _ _ _ _ Hpl) as H. unfold coalesce. destruct (above bp sb L2) as [su L3].
  destruct H as (Hsp & Hg & Hx & Hsu & _ & Hlen & _ & Hc). destruct Hpl as [Hs Hb Ha Hsb _].
  apply spaced_app in Hs as (Hs1 & _ & Hx1). apply Forall_app in Hb as [Hb1 Hb2]. apply Forall_cons in Hb2 as [[Hp1 Hp2] _].
  cbn [fst snd] in Hp1, Hp2. destruct Hsp as [Hgb Hs3].
  assert (Hcov : forall a, covers (L1 ++ (p, sp) :: (bp, su) :: L3) a <-> covers (L1 ++ (p, sp) :: L2) a \/ bp <= a < bp + 8 * sb).
  { intros a. specialize (Hc a). unfold covers in *. rewrite !Exists_app, !Exists_cons in *. cbn [fst snd] in *. tauto. }
  unfold below. destruct (Z.eqb_spec (p + 8 * sp) bp) as [E|E]; (split_and!; [apply spaced_app; split_and!; [done| |]|..]).
  - split; [|done]. eapply Forall_impl; [exact Hgb|]. unfold gap. cbn [fst snd]. lia.
  - apply Forall_forall. intros x Hin. pose proof (proj1 (Forall_forall _ _) Hx1 x Hin) as Hq.
    pose proof (proj1 (Forall_forall _ _) Hx x Hin) as Hr. apply Forall_cons in Hq as [Hq _]. constructor; [exact Hq|exact Hr].
  - rewrite !length_app. cbn. lia.
  - intros a. rewrite <- Hcov. unfold covers. rewrite !Exists_app, !Exists_cons. cbn [fst snd].
    split; intros [H|[H|H]]; auto; [|lia|]; [destruct (decide (a < bp)); [right; left; lia|right; right; left; lia]|].
    destruct H as [H|H]; [right; left; lia|auto].
  - exists (p, sp + su). split; [set_solver|cbn; lia].
  - split; [|done]. constructor; [|done]. unfold gap. cbn [fst snd]. lia.
  - apply Forall_forall. intros x Hin. pose proof (proj1 (Forall_forall _ _) Hx1 x Hin) as Hq.
    pose proof (proj1 (Forall_forall _ _) Hx x Hin) as Hr. apply Forall_cons in Hq as [Hq _].
    constructor; [exact Hq|]. constructor; [|exact Hr]. unfold gap in *. cbn [fst snd] in *. lia.
  - rewrite !length_app. cbn. lia.
  - exact Hcov.
  - exists (bp, su). split; [set_solver|cbn; lia].
Qed.

(** A free block below the break. *)
Definition free_block (brk : Z) (b : block) : Prop := 1 <= snd b /\ fst b + 8 * snd b <= brk.

Lemma coalesce_ring base F L1 p sp bp sb L2 brk : ring base F = L1 ++ (p, sp) :: L2 -> place L1 p sp bp sb L2 ->
  base + 8 <= bp -> Forall (free_block brk) F -> bp + 8 * sb <= brk ->
  exists F', coalesce L1 p sp bp sb L2 = ring base F' /\ Forall (free_block brk) F'.
Proof.
  intros EL Hpl Hbase HF Hbrk. pose proof (above_spec _ _ _ _ _ _ Hpl) as H. unfold coalesce. destruct (above bp sb L2) as [su L3].
  destruct H as (_ & _ & _ & Hsu & HQ & _ & Hhi & _). pose proof (pl_size _ _ _ _ _ _ Hpl) as Hsb.
  assert (HL2 : Forall (free_block brk) L2).
  { destruct L1 as [|x L1]; [injection EL as _ _ EF; by rewrite <- EF|injection EL as _ EF].
    rewrite EF in HF. by apply Forall_app in HF as [_ [_ HF]%Forall_cons]. }
  assert (Hu : free_block brk (bp, su)).
  { split; cbn; [lia|]. apply Hhi; [done|]. eapply Forall_impl; [exact HL2|]. by intros b [_ Hb]. }
  apply HQ in HL2. unfold below. destruct L1 as [|x L1]; [injection EL as <- <- EF|injection EL as Ex EF].
  - rewrite (proj2 (Z.eqb_neq _ bp)) by lia. exists ((bp, su) :: L3). split; [done|]. by constructor.
  - rewrite EF in HF. apply Forall_app in HF as [H1 HF]. apply Forall_cons in HF as [[Hp1 Hp2] _]. cbn [fst snd] in *. subst x.
    destruct (Z.eqb_spec (p + 8 * sp) bp) as [E|E].
    + exists (L1 ++ (p, sp + su) :: L3). split; [done|]. apply Forall_app. split; [done|]. constructor; [|done].
      destruct Hu as [Hu1 Hu2]. split; cbn [fst snd] in *; lia.
    + exists (L1 ++ (p, sp) :: (bp, su) :: L3). split; [done|]. apply Forall_app. split; [done|]. by do 2 (constructor; [done|]).
Qed.

(** ** The heap *)

(** A block of the program: it has its size in its header. *)
Definition used_block (base : Z) (h : heap) (b : block) : Prop :=
  base + 8 <= fst b /\ free_block (h_brk h) b /\ hsize (h_mem h) (fst b) = snd b.

Fixpoint pairwise_disjoint (A : list block) : Prop :=
  match A with [] => True | x :: A => Forall (disjoint x) A /\ pairwise_disjoint A end.

(** The free blocks [F] and the blocks [A] that the program holds. *)
Record heap_inv (base : Z) (h : heap) (F A : list block) : Prop := {
  hi_base : 0 < base;
  hi_brk : base + 8 <= h_brk h <= 2 ^ 31;
  hi_ring : seg (h_mem h) base (ring base F) base;
  hi_freep : h_freep h ∈ (ring base F).*1;
  hi_spaced : spaced (ring base F);
  hi_free : Forall (free_block (h_brk h)) F;
  hi_used : Forall (used_block base h) A;
  hi_disjoint : pairwise_disjoint A;
  hi_apart : Forall (fun b => Forall (disjoint b) F) A
}.

Lemma disjoint_bytes x y : 1 <= snd x -> 1 <= snd y ->
  (forall a, fst x <= a < fst x + 8 * snd x -> fst y <= a < fst y + 8 * snd y -> False) -> disjoint x y.
Proof.
  intros Hx Hy H. unfold disjoint, before. specialize (H (Z.max (fst x) (fst y))). lia.
Qed.

Lemma disjoint_no_byte x y a : disjoint x y -> fst x <= a < fst x + 8 * snd x -> fst y <= a < fst y + 8 * snd y -> False.
Proof. unfold disjoint, before. lia. Qed.

(** A block that shares no byte with the list is disjoint from its blocks. *)
Lemma disjoint_covers x L : 1 <= snd x -> Forall (fun b => 1 <= snd b) L ->
  (forall a, fst x <= a < fst x + 8 * snd x -> ~ covers L a) -> Forall (disjoint x) L.
Proof.
  intros Hx HL H. apply Forall_forall. intros b Hb. apply disjoint_bytes; [done|exact (proj1 (Forall_forall _ _) HL b Hb)|].
  intros a H1 H2. apply (H a H1). apply Exists_exists. eauto.
Qed.

Lemma covers_disjoint x L a : Forall (disjoint x) L -> fst x <= a < fst x + 8 * snd x -> ~ covers L a.
Proof.
  intros HL Ha (b & Hb & Hc)%Exists_exists. eapply disjoint_no_byte; [exact (proj1 (Forall_forall _ _) HL b Hb)|exact Ha|exact Hc].
Qed.

Lemma covers_ring base F a : covers (ring base F) a <-> covers F a.
Proof. unfold covers, ring. rewrite Exists_cons. cbn [fst snd]. split; [intros [H|H]; [lia|done]|auto]. Qed.

Lemma free_blocks_bounded base h F A : heap_inv base h F A -> Forall bounded (ring base F).
Proof.
  intros [H1 H2 _ _ H3 H4 _ _ _]. constructor; [unfold bounded; cbn; lia|]. destruct H3 as [Hg _].
  apply Forall_forall. intros b Hb. destruct (proj1 (Forall_forall _ _) H4 b Hb) as [Hb1 Hb2].
  destruct (proj1 (Forall_forall _ _) Hg b Hb) as [_ Hb3]. cbn in Hb3. unfold bounded. lia.
Qed.

(** [free] with the place of the block. *)
Lemma free_links base h F A bp sb n : heap_inv base h F ((bp, sb) :: A) -> (2 * length (ring base F) < n)%nat ->
  exists L1 p sp L2 m', ring base F = L1 ++ (p, sp) :: L2 /\ place L1 p sp bp sb L2 /\ bounded (p, sp) /\
    free n h (bp + 8) = Some (MkHeap m' p (h_brk h)) /\
    seg m' base (coalesce L1 p sp bp sb L2) base /\ same_but [bp; p] (h_mem h) m'.
Proof.
  intros Hi Hn. pose proof (free_blocks_bounded _ _ _ _ Hi) as Hbd. destruct Hi as [Hb0 Hbrk Hring Hfp Hsp HF HA _ Hap].
  apply Forall_cons in HA as [(Hlow & [Hsb Hend] & Hsize) _]. apply Forall_cons in Hap as [Hap _]. cbn [fst snd] in *.
  destruct (locate (bp, sb) F (base, 0)) as (L1 & p & sp & L2 & EL & Hbl & Hab); [unfold before; cbn; lia|done|done|].
  change ((base, 0) :: F) with (ring base F) in EL.
  assert (HL2 : Forall (fun b => 1 <= snd b) L2).
  { assert (HF' : Forall (fun b => 1 <= snd b) F) by (eapply Forall_impl; [exact HF|]; by intros b []).
    destruct L1 as [|x L1]; [injection EL as _ _ EF; by rewrite <- EF|injection EL as _ EF].
    rewrite EF in HF'. by apply Forall_app in HF' as [_ [_ HF']%Forall_cons]. }
  assert (Hpl : place L1 p sp bp sb L2) by (split; [by rewrite <- EL|done..]).
  assert (Hfind : free_find n (h_mem h) bp (h_freep h) = Some p).
  { eapply free_find_spec; [exact EL|done|done| |done|done]. 
    split; [eapply Forall_impl; [exact Hbl|]|eapply Forall_impl; [exact Hab|]]; intros y [_ Hy]; cbn [fst snd] in Hy; lia. }
  rewrite EL in Hring, Hsp, Hbd. apply seg_app in Hring as (x & Hs1 & Hs2). pose proof (seg_first _ _ _ _ Hs2) as ->. cbn [first] in *.
  apply Forall_app in Hbd as [Hbd1 Hbd2]. apply Forall_cons in Hbd2 as [Hbp HbL2]. apply spaced_app in Hsp as (Hsp1 & [Hg2 Hsp2] & Hgx).
  assert (Hbb : bounded (bp, sb)) by (unfold bounded; cbn; lia).
  pose proof (join_above_spec _ base L1 p sp L2 bp sb Hs1 Hs2 Hsize ltac:(lia) Hlow Hbb Hsb HbL2 Hsp2 Hab Hbl) as Hu.
  pose proof (above_spec _ _ _ _ _ _ Hpl) as Hv. destruct (above bp sb L2) as [su L3] eqn:Eab.
  destruct Hu as (K1 & K2 & K3 & K4). destruct Hv as (_ & HgL3 & _ & Hsu & HQ & _ & Hhi & _).
  assert (Hbu : bounded (bp, su)).
  { unfold bounded. cbn. split_and!; [lia|lia|]. apply Hhi; [lia|]. eapply Forall_impl; [exact HbL2|]. by intros b (_ & _ & ?). }
  apply Forall_app in Hbl as [Hbl1 Hbl2]. apply Forall_cons in Hbl2 as [Hbl2 _].
  destruct (join_below_spec _ base L1 p sp bp su L3 K1 K2 K3 ltac:(lia) Hbl2 Hbp Hbu (HQ _ HbL2)) as [J1 J2].
  { eapply Forall_impl; [exact Hgx|]. intros y Hy. apply Forall_cons in Hy as [Hy _]. by apply gap_before. }
  { eapply Forall_impl; [exact HgL3|]. intros y. apply gap_before. }
  exists L1, p, sp, L2. eexists. split_and!; [done|done|done| |unfold coalesce; rewrite Eab; exact J1|].
  - unfold free. replace (u32 (bp + 8 - 8)) with bp by (rewrite u32_small; lia). by rewrite Hfind.
  - eapply same_but_trans; (eapply same_but_sub; [|eassumption]); set_solver.
Qed.

(** What a store to the headers of [ps] leaves of a block of the program. *)
Lemma used_same base h m' f brk ps b : used_block base h b -> h_brk h <= brk -> same_but ps (h_mem h) m' ->
  Forall (apart (fst b)) ps -> used_block base (MkHeap m' f brk) b.
Proof.
  intros (H1 & [H2 H3] & H4) Hbrk Hm Hb. split_and!; [done|split; cbn; [done|lia]|]. cbn. rewrite <- H4.
  by eapply same_but_header.
Qed.

Lemma disjoint_apart x y : disjoint x y -> apart (fst x) (fst y).
Proof. unfold disjoint, before, apart. lia. Qed.

(** A header in the ring is outside the blocks of the program. *)
Lemma ring_disjoint base h F A b p sp : heap_inv base h F A -> b ∈ A -> (p, sp) ∈ ring base F -> disjoint (p, sp) b.
Proof.
  intros Hi Hb [Hp|Hp]%elem_of_cons.
  - injection Hp as -> ->. destruct (proj1 (Forall_forall _ _) (hi_used _ _ _ _ Hi) b Hb) as [H1 _]. left. unfold before. cbn. lia.
  - pose proof (proj1 (Forall_forall _ _) (hi_apart _ _ _ _ Hi) b Hb) as H. cbv beta in H.
    destruct (proj1 (Forall_forall _ _) H _ Hp); [by right|by left].
Qed.

Lemma used_apart base h F A bp sb b p sp : heap_inv base h F ((bp, sb) :: A) -> b ∈ A -> (p, sp) ∈ ring base F ->
  disjoint (bp, sb) b /\ disjoint (p, sp) b.
Proof.
  intros Hi Hb Hp. split; [|eapply ring_disjoint; [exact Hi|set_solver|exact Hp]].
  destruct (hi_disjoint _ _ _ _ Hi) as [H _]. exact (proj1 (Forall_forall _ _) H b Hb).
Qed.

(** The bytes of the blocks [A] stay as they are. *)
Definition keeps (A : list block) (m m' : mem) : Prop := forall a, covers A a -> ld8 m' a = ld8 m a.

Lemma keeps_same_but A ps m m' : same_but ps m m' -> (forall b p, b ∈ A -> p ∈ ps -> p + 8 <= fst b \/ fst b + 8 * snd b <= p) -> keeps A m m'.
Proof.
  intros Hm H a (b & Hb & Ha)%Exists_exists. apply Hm, Forall_forall. intros p Hp. specialize (H b p Hb Hp). unfold in_header. lia.
Qed.

Lemma free_spec base h F A bp sb n : heap_inv base h F ((bp, sb) :: A) -> (2 * length (ring base F) < n)%nat ->
  exists h' F', free n h (bp + 8) = Some h' /\ heap_inv base h' F' A /\ h_brk h' = h_brk h /\
    (forall a, covers F' a <-> covers F a \/ bp <= a < bp + 8 * sb) /\ keeps A (h_mem h) (h_mem h') /\
    (length F' <= S (length F))%nat /\ (exists b, b ∈ F' /\ sb <= snd b).
Proof.
  intros Hi Hn. destruct (free_links _ _ _ _ _ _ _ Hi Hn) as (L1 & p & sp & L2 & m' & EL & Hpl & Hbp & Ef & Hseg & Hm).
  assert (Hp : (p, sp) ∈ ring base F) by (rewrite EL; set_solver).
  pose proof Hi as [Hb0 Hbrk _ _ _ HF HA [_ HdA] Hap].
  apply Forall_cons in HA as [(Hlow & [Hsb Hend] & _) HA]. apply Forall_cons in Hap as [_ Hap]. cbn [fst snd] in *.
  destruct (coalesce_ring base F L1 p sp bp sb L2 (h_brk h) EL Hpl Hlow HF Hend) as (F' & EF & HF').
  destruct Hbp as (_ & Hsp0 & _). cbn in Hsp0.
  destruct (coalesce_spec _ _ _ _ _ _ Hpl Hsp0) as (C1 & C2 & C3 & (b & Cb & Csz)).
  rewrite EF, <- EL in *. assert (Hcov : forall a, covers F' a <-> covers F a \/ bp <= a < bp + 8 * sb).
  { intros a. by rewrite <- (covers_ring base F'), C3, covers_ring. }
  exists (MkHeap m' p (h_brk h)), F'. split_and!; [done| |done|done| | |].
  - split; cbn [h_mem h_freep h_brk]; try done.
    + rewrite <- EF. unfold coalesce, below. destruct (above bp sb L2) as [su L3].
      destruct (p + 8 * sp =? bp); rewrite fmap_app; set_solver.
    + apply Forall_forall. intros x Hx. destruct (used_apart _ _ _ _ _ _ _ _ _ Hi Hx Hp) as [D1 D2].
      eapply (used_same base h m' _ _ [bp; p]); [exact (proj1 (Forall_forall _ _) HA x Hx)|done|done|].
      constructor; [|constructor; [|done]]; apply disjoint_apart in D1, D2; unfold apart in *; cbn [fst] in *; lia.
    + apply Forall_forall. intros x Hx. destruct (proj1 (Forall_forall _ _) HA x Hx) as (_ & [Hx1 _] & _).
      apply disjoint_covers; [done|eapply Forall_impl; [exact HF'|]; by intros y []|].
      intros a Ha [H|H]%Hcov; [exact (covers_disjoint x F a (proj1 (Forall_forall _ _) Hap x Hx) Ha H)|].
      destruct (used_apart _ _ _ _ _ _ _ _ _ Hi Hx Hp) as [D1 _]. exact (disjoint_no_byte _ _ a D1 H Ha).
  - eapply keeps_same_but; [exact Hm|]. intros x q Hx Hq. destruct (used_apart _ _ _ _ _ _ _ _ _ Hi Hx Hp) as [D1 D2].
    unfold disjoint, before in *. cbn [fst snd] in *. set_unfold in Hq. destruct Hq as [->|[->|[]]]; lia.
  - cbn in C2. lia.
  - exists b. split; [|done]. apply elem_of_cons in Cb as [->|Cb]; [cbn in Csz; lia|done].
Qed.
