(* ===== verification/MallocFacts.v ===== *)
(** * The user allocator: [malloc]

    The search from [freep] round the list, the block that is cut off, and
    [morecore]. *)

From S2P Require Import Prelude Mem Umalloc UmallocFacts.

(** ** The search *)

(** The first block that is large enough. *)
Lemma first_fit nunits (L : list block) :
  Forall (fun b => snd b < nunits) L \/
  exists M p s L', L = M ++ (p, s) :: L' /\ Forall (fun b => snd b < nunits) M /\ nunits <= s.
Proof.
  induction L as [|[p s] L IH]; [by left|]. destruct (decide (nunits <= s)) as [Hs|Hs].
  - right. by exists [], p, s, L.
  - destruct IH as [IH|(M & q & t & L' & -> & HM & Ht)]; [left; constructor; [cbn; lia|done]|].
    right. exists ((p, s) :: M), q, t, L'. split_and!; [done| |done]. constructor; [cbn; lia|done].
Qed.

(** The address before the end of a segment. *)
Definition last_of (d : Z) (M : list block) : Z := foldl (fun _ b => fst b) d M.

Lemma last_of_snoc d M : M <> [] -> exists M' q sq, M = M' ++ [(q, sq)] /\ last_of d M = q.
Proof.
  intros HM. destruct M as [|[q sq] M _] using rev_ind; [done|]. exists M, q, sq. split; [done|].
  unfold last_of. by rewrite foldl_app.
Qed.

Section malloc.
Context `{Sbrk}.
Variable base : Z.

Lemma scan h nunits M : forall n prevp f e,
  seg (h_mem h) f M e -> Forall (fun b => snd b < nunits) M -> h_freep h ∉ M.*1 ->
  malloc_loop (length M + n) h nunits prevp f = malloc_loop n h nunits (last_of prevp M) e.
Proof.
  induction M as [|[b s] M IH]; intros n prevp f e Hseg Hsm Hf; [by cbn in Hseg; subst f|].
  destruct Hseg as (-> & Hs & Hseg). apply Forall_cons in Hsm as [Hb Hsm]. cbn [snd] in Hb.
  cbn [length Nat.add malloc_loop]. rewrite Hs, (proj2 (Z.leb_gt nunits s)) by lia.
  rewrite (proj2 (Z.eqb_neq b (h_freep h))) by set_solver. apply IH; [done|done|set_solver].
Qed.

Lemma spaced_not_in L1 x L2 : spaced (L1 ++ x :: L2) -> fst x ∉ L1.*1 /\ fst x ∉ L2.*1.
Proof.
  intros (_ & [Hg _] & Hx)%spaced_app. split; intros (y & Ey & Hy)%list_elem_of_fmap.
  - pose proof (proj1 (Forall_forall _ _) Hx y Hy) as Hq. apply Forall_cons in Hq as [[_ Hq] _]. lia.
  - destruct (proj1 (Forall_forall _ _) Hg y Hy) as [_ Hq]. lia.
Qed.

Lemma freep_nonzero h F A : heap_inv base h F A -> h_freep h <> 0.
Proof.
  intros Hi. pose proof (hi_freep _ _ _ _ Hi) as ([f sf] & -> & Hin)%list_elem_of_fmap. pose proof (hi_base _ _ _ _ Hi).
  apply elem_of_cons in Hin as [[= -> ->]|Hin]; [cbn; lia|]. destruct (hi_spaced _ _ _ _ Hi) as [Hg _].
  destruct (proj1 (Forall_forall _ _) Hg _ Hin) as [_ Hq]. cbn in *. lia.
Qed.

(** The loop stops at a block that is large enough, with the one before it, or
    has seen all blocks and is at [freep]. *)
Lemma search h F A nunits n : heap_inv base h F A -> 1 <= nunits ->
  let start := malloc_loop (length (ring base F) + n) h nunits (h_freep h) (hptr (h_mem h) (h_freep h)) in
  (exists L1 q sq p s L2 k, ring base F = L1 ++ (q, sq) :: (p, s) :: L2 /\ nunits <= s /\
     start = malloc_loop (S k + n) h nunits q p) \/
  (Forall (fun b => snd b < nunits) F /\ exists prevp, start = malloc_loop (S n) h nunits prevp (h_freep h)).
Proof.
  intros Hi Hn. pose proof (hi_ring _ _ _ _ Hi) as Hring. pose proof (hi_spaced _ _ _ _ Hi) as Hsp.
  pose proof (hi_freep _ _ _ _ Hi) as Hf. apply list_elem_of_fmap in Hf as ([f sf] & Ef & Hf). cbn [fst] in Ef. rewrite Ef.
  apply list_elem_of_split in Hf as (L1 & L2 & EL). rewrite EL in Hring, Hsp |- *.
  destruct (spaced_not_in _ _ _ Hsp) as [Hn1 Hn2]. cbn [fst] in Hn1, Hn2.
  apply seg_app in Hring as (x & Hs1 & Hs2). destruct Hs2 as (-> & Hsf & Hs2).
  assert (Hbig : forall L1' p s L2', ring base F = L1' ++ (p, s) :: L2' -> nunits <= s -> L1' <> []).
  { intros [|y L1'] p s L2' E Hs; [|done]. injection E as _ E _. lia. }
  destruct (first_fit nunits L2) as [Hsm2|(M & p & s & L3 & -> & HM & Hs)].
  - destruct (first_fit nunits L1) as [Hsm1|(M & p & s & L3 & -> & HM & Hs)].
    + destruct (decide (nunits <= sf)) as [Hbf|Hbf].
      * left. pose proof (Hbig L1 f sf L2 EL Hbf) as Hne.
        destruct (last_of_snoc (last_of f L2) L1 Hne) as (M' & q & sq & E & Hl).
        exists M', q, sq, f, sf, L2, 0%nat. split_and!; [by rewrite E, <- app_assoc|done|].
        replace (length (L1 ++ (f, sf) :: L2) + n)%nat with (length L2 + (length L1 + S n))%nat by (rewrite length_app; cbn; lia).
        rewrite (scan h nunits L2 _ f _ base), (scan h nunits L1 _ _ _ f), Hl; [done|done|done|by rewrite Ef|done|done|by rewrite Ef].
      * right. split.
        { assert (HF : Forall (fun b => snd b < nunits) (ring base F)); [|by apply Forall_cons in HF as [_ HF]].
          rewrite EL. apply Forall_app. split; [done|]. constructor; [cbn; lia|done]. }
        eexists. replace (length (L1 ++ (f, sf) :: L2) + n)%nat with (length L2 + (length L1 + S n))%nat by (rewrite length_app; cbn; lia).
        rewrite (scan h nunits L2 _ f _ base), (scan h nunits L1 _ _ _ f); [done|done|done|by rewrite Ef|done|done|by rewrite Ef].
    + left. assert (HnM : f ∉ M.*1) by (rewrite fmap_app in Hn1; set_solver +Hn1).
      rewrite <- app_assoc in *. cbn [app] in *. pose proof (Hbig M p s _ EL Hs) as Hne.
      destruct (last_of_snoc (last_of f L2) M Hne) as (M' & q & sq & E & Hl).
      exists M', q, sq, p, s, (L3 ++ (f, sf) :: L2), (length L3 + 1)%nat. split_and!; [by rewrite E, <- app_assoc|done|].
      apply seg_app in Hs1 as (x & Hs1 & Hs3). pose proof (seg_first _ _ _ _ Hs3) as ->. cbn [first] in *.
      replace (length (M ++ (p, s) :: L3 ++ (f, sf) :: L2) + n)%nat with (length L2 + (length M + (S (length L3 + 1) + n)))%nat
        by (rewrite length_app; cbn; rewrite length_app; cbn; lia).
      rewrite (scan h nunits L2 _ f _ base), (scan h nunits M _ _ _ p), Hl; [done|done|done|by rewrite Ef|done|done|by rewrite Ef].
  - left. assert (HnM : f ∉ M.*1) by (rewrite fmap_app in Hn2; set_solver +Hn2).
    destruct (last_of_snoc f ((f, sf) :: M) ltac:(done)) as (M' & q & sq & E & Hl).
    exists (L1 ++ M'), q, sq, p, s, L3, (length L1 + 1 + length L3)%nat. split_and!; [|done|].
    { rewrite <- app_assoc. change ((f, sf) :: M ++ (p, s) :: L3) with (((f, sf) :: M) ++ (p, s) :: L3). by rewrite E, <- app_assoc. }
    apply seg_app in Hs2 as (x & Hs2 & Hs3). pose proof (seg_first _ _ _ _ Hs3) as ->. cbn [first] in *.
    replace (length (L1 ++ (f, sf) :: M ++ (p, s) :: L3) + n)%nat with (length M + (S (length L1 + 1 + length L3) + n))%nat
      by (rewrite length_app; cbn; rewrite length_app; cbn; lia).
    rewrite (scan h nunits M _ f _ p); [|done|done|by rewrite Ef]. by rewrite <- Hl.
Qed.

(** ** Cutting a block off *)

Lemma ring_tail F L1 q sq R R' : ring base F = L1 ++ (q, sq) :: R ->
  exists F', L1 ++ (q, sq) :: R' = ring base F' /\ (length F' + length R = length F + length R')%nat /\
    forall P : block -> Prop, Forall P F -> Forall P R' -> Forall P F'.
Proof.
  intros E. destruct L1 as [|x L1]; [injection E as <- <- EF|injection E as <- EF]; rewrite EF.
  - exists R'. split_and!; [done|lia|done].
  - exists (L1 ++ (q, sq) :: R'). split_and!; [done|rewrite !length_app; cbn; lia|].
    intros P HF HR. apply Forall_app in HF as [H1 H2]. apply Forall_cons in H2 as [H2 _]. apply Forall_app. split; [done|by constructor].
Qed.

(** The block [(b, n)] is the end of the block [(p, s)]. *)
Record cut_from (p s b n : Z) (L2 R' : list block) : Prop := {
  cf_size : 1 <= n;
  cf_inside : p <= b;
  cf_end : b + 8 * n = p + 8 * s;
  cf_rest : R' = L2 \/ (R' = (p, s - n) :: L2 /\ 1 <= s - n);
  cf_covers : forall a, covers ((p, s) :: L2) a <-> covers R' a \/ b <= a < b + 8 * n
}.

Lemma cut_spaced L1 q sq p s L2 b n R' : spaced (L1 ++ (q, sq) :: (p, s) :: L2) -> cut_from p s b n L2 R' ->
  spaced (L1 ++ (q, sq) :: R') /\ Forall (fun x => before x (b, n)) (L1 ++ [(q, sq)]) /\ Forall (disjoint (b, n)) R'.
Proof.
  intros (Hs1 & (Hgq & Hgp & Hs2) & Hx)%spaced_app [Hn Hin Hend Hrest _].
  assert (Hb : Forall (disjoint (b, n)) L2).
  { eapply Forall_impl; [exact Hgp|]. unfold gap, disjoint, before. cbn [fst snd]. lia. }
  assert (Hx2 : Forall (fun x => Forall (gap x) ((q, sq) :: L2)) L1).
  { eapply Forall_impl; [exact Hx|]. intros x Hq. apply Forall_cons in Hq as [H1 H2]. apply Forall_cons in H2 as [_ H2]. by constructor. }
  apply Forall_cons in Hgq as [Hqp HqL]. split_and!.
  - apply spaced_app. split; [done|]. destruct Hrest as [->|[-> Hr]]; [done|]. split.
    + split; [constructor; [exact Hqp|done]|]. split; [|done].
      eapply Forall_impl; [exact Hgp|]. unfold gap. cbn [fst snd]. lia.
    + apply Forall_forall. intros x Hin'. pose proof (proj1 (Forall_forall _ _) Hx x Hin') as Hq.
      apply Forall_cons in Hq as [H1 H2]. apply Forall_cons in H2 as [H2 H3]. constructor; [done|]. constructor; [exact H2|exact H3].
  - apply Forall_app. split; [|constructor; [|done]].
    + eapply Forall_impl; [exact Hx|]. intros x Hq. apply Forall_cons in Hq as [_ Hq]. apply Forall_cons in Hq as [Hq _].
      unfold gap, before in *. cbn [fst snd] in *. lia.
    + unfold gap, before in *. cbn [fst snd] in *. lia.
  - destruct Hrest as [->|[-> Hr]]; [done|]. constructor; [|done]. right. unfold before. cbn [fst snd]. lia.
Qed.

Lemma cut_spec h F A L1 q sq p s L2 b n R' m' ps :
  heap_inv base h F A -> ring base F = L1 ++ (q, sq) :: (p, s) :: L2 -> cut_from p s b n L2 R' ->
  seg m' base (L1 ++ (q, sq) :: R') base -> hsize m' b = n ->
  same_but ps (h_mem h) m' -> Forall (fun x => x = q \/ p <= x <= p + 8 * (s - 1)) ps ->
  exists F', heap_inv base (MkHeap m' q (h_brk h)) F' ((b, n) :: A) /\
    (forall a, covers F a <-> covers F' a \/ b <= a < b + 8 * n) /\ keeps A (h_mem h) m' /\ (length F' <= length F)%nat.
Proof.
  intros Hi EL Hcut Hseg Hsize Hm Hps. pose proof Hi as [Hb0 Hbrk _ _ Hsp HF HA HdA Hap].
  rewrite EL in Hsp. destruct (cut_spaced _ _ _ _ _ _ _ _ _ Hsp Hcut) as (Hsp' & Hbl & Hd). pose proof Hcut as [Hn Hin Hend Hrest Hcov].
  destruct (ring_tail F L1 q sq _ R' EL) as (F' & EF & Hlen & HP). rewrite EF in Hseg, Hsp'.
  assert (Hpin : (p, s) ∈ ring base F) by (rewrite EL; set_solver +).
  assert (Hqin : (q, sq) ∈ ring base F) by (rewrite EL; set_solver +).
  assert (Hlow : base + 8 <= p /\ 1 <= s /\ p + 8 * s <= h_brk h).
  { assert (Hpf : (p, s) ∈ F).
    { destruct L1 as [|x L1]; [injection EL as _ _ ->|injection EL as _ ->]; set_solver +. }
    destruct (proj1 (Forall_forall _ _) HF _ Hpf) as [H1 H2]. cbn in H1, H2. split_and!; [|done|done].
    destruct (hi_spaced _ _ _ _ Hi) as [Hg _]. by destruct (proj1 (Forall_forall _ _) Hg _ Hpf). }
  assert (HF' : Forall (free_block (h_brk h)) F').
  { apply HP; [done|]. assert (HL2 : Forall (free_block (h_brk h)) L2).
    { destruct L1 as [|x L1]; [injection EL as _ _ EF'|injection EL as _ EF']; rewrite EF' in HF; [by apply Forall_cons in HF as [_ HF]|].
      apply Forall_app in HF as [_ HF]. by apply Forall_cons in HF as [_ [_ HF]%Forall_cons]. }
    destruct Hrest as [->|[-> Hr]]; [done|]. constructor; [|done]. split; cbn; lia. }
  assert (Hcov' : forall a, covers F a <-> covers F' a \/ b <= a < b + 8 * n).
  { intros a. rewrite <- (covers_ring base F), <- (covers_ring base F'), EL, <- EF. specialize (Hcov a).
    unfold covers in *. rewrite !Exists_app, (Exists_cons _ (q, sq)), (Exists_cons _ (q, sq)). tauto. }
  assert (HdF : Forall (disjoint (b, n)) F').
  { assert (HdR : Forall (disjoint (b, n)) (ring base F')); [|by apply Forall_cons in HdR as [_ HdR]]. rewrite <- EF.
    apply Forall_app in Hbl as [Hb1 Hb2]. apply Forall_cons in Hb2 as [Hb2 _].
    apply Forall_app. split; [|constructor; [by right|done]]. eapply Forall_impl; [exact Hb1|]. intros x Hx. by right. }
  assert (Hfar : forall x y, x ∈ A -> y ∈ ps -> y + 8 <= fst x \/ fst x + 8 * snd x <= y).
  { intros x y Hx Hy. pose proof (ring_disjoint _ _ _ _ _ _ _ Hi Hx Hpin) as D1. pose proof (ring_disjoint _ _ _ _ _ _ _ Hi Hx Hqin) as D2.
    destruct (proj1 (Forall_forall _ _) HA x Hx) as (_ & [Hx1 _] & _).
    unfold disjoint, before in D1, D2. cbn [fst snd] in D1, D2. destruct (proj1 (Forall_forall _ _) Hps y Hy) as [->|Hy']; lia. }
  exists F'. split_and!; [|done|by eapply keeps_same_but|]; [|destruct Hrest as [->|[-> _]]; cbn in Hlen; lia].
  split; cbn [h_mem h_freep h_brk]; try done.
  - rewrite <- EF, fmap_app. set_solver +.
  - constructor; [split_and!; [cbn; lia|split; cbn; lia|done]|]. apply Forall_forall. intros x Hx.
    eapply (used_same base h m' _ _ ps); [exact (proj1 (Forall_forall _ _) HA x Hx)|done|done|].
    apply Forall_forall. intros y Hy. destruct (proj1 (Forall_forall _ _) HA x Hx) as (_ & [Hx1 _] & _).
    specialize (Hfar x y Hx Hy). unfold apart. lia.
  - split; [|done]. apply Forall_forall. intros x Hx. pose proof (ring_disjoint _ _ _ _ _ _ _ Hi Hx Hpin) as D1.
    unfold disjoint, before in *. cbn [fst snd] in *. destruct (proj1 (Forall_forall _ _) HA x Hx) as (_ & [Hx1 _] & _). lia.
  - constructor; [done|]. apply Forall_forall. intros x Hx. destruct (proj1 (Forall_forall _ _) HA x Hx) as (_ & [Hx1 _] & _).
    apply disjoint_covers; [done|eapply Forall_impl; [exact HF'|]; by intros y []|].
    intros a Ha Hc. apply (covers_disjoint x F a (proj1 (Forall_forall _ _) Hap x Hx) Ha). apply Hcov'. by left.
Qed.

(** A block of [n] headers at [b] has been handed out. *)
Record handed_out (h : heap) (F A : list block) (n b : Z) (h' : heap) (F' : list block) : Prop := {
  ho_inv : heap_inv base h' F' ((b, n) :: A);
  ho_brk : h_brk h <= h_brk h';
  ho_covers : forall a, covers F a \/ h_brk h <= a < h_brk h' <-> covers F' a \/ b <= a < b + 8 * n;
  ho_keeps : keeps A (h_mem h) (h_mem h');
  ho_length : (length F' <= S (length F))%nat
}.

(** The surroundings of a block [(p, s)] of the list, after [(q, sq)]. *)
Record surroundings (m : mem) (L1 : list block) (q sq p s : Z) (L2 : list block) : Prop := {
  su_before : seg m base L1 q;
  su_q : hsize m q = sq;
  su_next : hptr m q = p;
  su_p : hsize m p = s;
  su_after : seg m (hptr m p) L2 base;
  su_first : is_u32 (hptr m p);
  su_bound : 0 <= p /\ p + 8 * s <= 2 ^ 31;
  su_below : Forall (fun y => fst y + 8 <= q) L1;
  su_gap : q + 8 <= p;
  su_above : Forall (fun y => p + 8 * s < fst y /\ p + 8 <= fst y) L2
}.

Lemma surrounded h F A L1 q sq p s L2 : heap_inv base h F A -> ring base F = L1 ++ (q, sq) :: (p, s) :: L2 ->
  surroundings (h_mem h) L1 q sq p s L2.
Proof.
  intros Hi EL. pose proof (free_blocks_bounded _ _ _ _ Hi) as Hbd. pose proof (hi_ring _ _ _ _ Hi) as Hring.
  pose proof (hi_spaced _ _ _ _ Hi) as Hsp. pose proof (hi_base _ _ _ _ Hi). pose proof (hi_brk _ _ _ _ Hi). rewrite EL in Hring, Hbd, Hsp.
  apply seg_app in Hring as (x & Hs1 & Hqs). pose proof (seg_first _ _ _ _ Hqs) as ->. cbn [first] in Hs1, Hqs.
  destruct Hqs as (_ & Hsq & Hps). destruct Hps as (Eqp & Hss & Hs2).
  apply Forall_app in Hbd as [_ Hbd]. apply Forall_cons in Hbd as [Hbq Hbd]. apply Forall_cons in Hbd as [(Hp0 & _ & Hp1) HbL2].
  apply spaced_app in Hsp as (_ & (Hgq & Hgp & _) & Hgx). apply Forall_cons in Hgq as [[_ Hgqp] _]. split; try done.
  - rewrite (seg_first _ _ _ _ Hs2). apply first_u32; [lia|done].
  - eapply Forall_impl; [exact Hgx|]. intros y Hy. by apply Forall_cons in Hy as [[_ Hy] _].
Qed.

Lemma apart_below q (L : list block) : Forall (fun y => fst y + 8 <= q) L -> forall ps, Forall (fun x => q <= x) ps -> Forall (fun y => Forall (apart (fst y)) ps) L.
Proof.
  intros HL ps Hps. eapply Forall_impl; [exact HL|]. intros y Hy. eapply Forall_impl; [exact Hps|]. intros x Hx. cbv beta in *. left. lia.
Qed.

Lemma apart_above e (L : list block) : Forall (fun y => e <= fst y) L -> forall ps, Forall (fun x => x + 8 <= e) ps -> Forall (fun y => Forall (apart (fst y)) ps) L.
Proof.
  intros HL ps Hps. eapply Forall_impl; [exact HL|]. intros y Hy. eapply Forall_impl; [exact Hps|]. intros x Hx. cbv beta in *. right. lia.
Qed.

Lemma take_exact h F A L1 q sq p n L2 :
  heap_inv base h F A -> ring base F = L1 ++ (q, sq) :: (p, n) :: L2 -> 1 <= n ->
  exists F', handed_out h F A n p (MkHeap (set_ptr (h_mem h) q (hptr (h_mem h) p)) q (h_brk h)) F' /\ (length F' <= length F)%nat.
Proof.
  intros Hi EL Hn. destruct (surrounded _ _ _ _ _ _ _ _ _ Hi EL) as [Hs1 Hsq Hqp Hsp Hs2 Hu32 Hbd Hbl Hgap Hab].
  assert (Hcut : cut_from p n p n L2 L2).
  { split; [lia|lia|lia|by left|]. intros a. unfold covers. rewrite Exists_cons. cbn [fst snd]. tauto. }
  set (m' := set_ptr (h_mem h) q (hptr (h_mem h) p)). assert (Hm : same_but [q] (h_mem h) m') by apply same_but_ptr.
  assert (Hseg : seg m' base (L1 ++ (q, sq) :: L2) base).
  { apply seg_app. exists q. split; [eapply seg_same; [exact Hm|apply (apart_below q); [done|by constructor]|done]|].
    apply (seg_intro _ _ _ (hptr (h_mem h) p)); [unfold m'; by rewrite hsize_set_ptr_same|by apply hptr_set_ptr|].
    eapply seg_same; [exact Hm|apply (apart_above p)|done]; [|constructor; [lia|done]].
    eapply Forall_impl; [exact Hab|]. cbv beta. lia. }
  assert (Hsz : hsize m' p = n).
  { rewrite <- Hsp. eapply same_but_header; [exact Hm|]. constructor; [by right|done]. }
  destruct (cut_spec h F A L1 q sq p n L2 p n L2 m' [q] Hi EL Hcut Hseg Hsz Hm) as (F' & K1 & K2 & K3 & K4).
  { constructor; [by left|done]. }
  exists F'. split; [|done]. split; cbn [h_brk h_mem]; try done; [|lia]. intros a. rewrite <- K2. split; [intros [?|?]; [done|lia]|auto].
Qed.

Lemma take_split h F A L1 q sq p s L2 n :
  heap_inv base h F A -> ring base F = L1 ++ (q, sq) :: (p, s) :: L2 -> 1 <= n < s ->
  let b := p + 8 * (s - n) in
  exists F', handed_out h F A n b (MkHeap (set_size (set_size (h_mem h) p (s - n)) b n) q (h_brk h)) F' /\ (length F' <= length F)%nat.
Proof.
  intros Hi EL Hn b. destruct (surrounded _ _ _ _ _ _ _ _ _ Hi EL) as [Hs1 Hsq Hqp Hsp Hs2 Hu32 Hbd Hbl Hgap Hab].
  assert (Hcut : cut_from p s b n L2 ((p, s - n) :: L2)).
  { split; [lia|unfold b; lia|unfold b; lia|right; split; [done|lia]|]. intros a. unfold covers. rewrite !Exists_cons. cbn [fst snd].
    unfold b. split; intros [H1|H1]; auto; [|destruct H1; [left; lia|auto]|left; lia].
    destruct (decide (a < p + 8 * (s - n))); [left; left; lia|right; lia]. }
  set (m1 := set_size (h_mem h) p (s - n)). set (m' := set_size m1 b n). assert (Hb : p + 8 <= b) by (unfold b; lia).
  assert (Hm : same_but [p; b] (h_mem h) m').
  { eapply same_but_trans; (eapply same_but_sub; [|apply same_but_size]); set_solver +. }
  assert (Hp : hptr m' p = hptr (h_mem h) p /\ hsize m' p = s - n).
  { destruct (same_but_header [b] m1 m' p ltac:(apply same_but_size) ltac:(constructor; [by left|done])) as [E1 E2]. rewrite E1, E2.
    unfold m1. rewrite hptr_set_size_same, hsize_set_size by (unfold is_u32; lia). done. }
  assert (Hseg : seg m' base (L1 ++ (q, sq) :: (p, s - n) :: L2) base).
  { destruct Hp as [E1 E2]. apply seg_app. exists q. split.
    { eapply seg_same; [exact Hm|apply (apart_below q); [done|]|done]. repeat (constructor; [lia|]). done. }
    destruct (same_but_header [p; b] (h_mem h) m' q Hm) as [E3 E4]; [constructor; [by left|constructor; [left; lia|done]]|].
    apply (seg_intro _ _ _ p); [by rewrite E4|by rewrite E3|]. apply (seg_intro _ _ _ (hptr (h_mem h) p)); [done|done|].
    eapply seg_same; [exact Hm|apply (apart_above (p + 8 * s))|done]; [|repeat (constructor; [unfold b; lia|]); done].
    eapply Forall_impl; [exact Hab|]. cbv beta. lia. }
  assert (Hsz : hsize m' b = n) by (apply hsize_set_size; unfold is_u32; lia).
  destruct (cut_spec h F A L1 q sq p s L2 b n _ m' [p; b] Hi EL Hcut Hseg Hsz Hm) as (F' & K1 & K2 & K3 & K4).
  { constructor; [right; lia|]. constructor; [right; unfold b; lia|done]. }
  exists F'. split; [|done]. split; cbn [h_brk h_mem]; try done; [|lia]. intros a. rewrite <- K2. split; [intros [?|?]; [done|lia]|auto].
Qed.

Lemma take_spec h F A L1 q sq p s L2 nunits k :
  heap_inv base h F A -> ring base F = L1 ++ (q, sq) :: (p, s) :: L2 -> 1 <= nunits <= s ->
  exists b h' F', malloc_loop (S k) h nunits q p = Some (b + 8, h') /\ handed_out h F A nunits b h' F' /\
    h_brk h' = h_brk h /\ (length F' <= length F)%nat.
Proof.
  intros Hi EL Hn. destruct (surrounded _ _ _ _ _ _ _ _ _ Hi EL) as [_ _ _ Hsp _ _ Hbd _ _ _].
  cbn [malloc_loop]. rewrite Hsp, (proj2 (Z.leb_le nunits s)) by lia. destruct (Z.eqb_spec s nunits) as [E|E].
  - rewrite E in EL, Hbd. destruct (take_exact _ _ _ _ _ _ _ _ _ Hi EL ltac:(lia)) as (F' & HF & Hlen).
    eexists p, _, F'. split_and!; [unfold hadd; by rewrite u32_small by lia|exact HF|done|done].
  - destruct (take_split _ _ _ _ _ _ _ _ _ nunits Hi EL ltac:(lia)) as (F' & HF & Hlen).
    rewrite (u32_small (s - nunits)) by lia. rewrite hsize_set_size by (unfold is_u32; lia).
    replace (hadd p (s - nunits)) with (p + 8 * (s - nunits)) by (unfold hadd; rewrite u32_small; lia).
    eexists _, _, F'. split_and!; [unfold hadd; by rewrite u32_small by lia|exact HF|done|done].
Qed.

(** ** More memory *)

Definition more_units (nu : Z) : Z := if nu <? 4096 then 4096 else nu.

Lemma more_units_spec nu : nu < 2 ^ 28 -> nu <= more_units nu /\ 4096 <= more_units nu < 2 ^ 28.
Proof. unfold more_units. destruct (Z.ltb_spec nu 4096); lia. Qed.

(** The new memory as a block of the program, before it is freed. *)
Lemma grown_inv h F A nu brk : heap_inv base h F A -> 4096 <= nu < 2 ^ 28 -> brk = h_brk h + 8 * nu -> brk <= 2 ^ 31 ->
  heap_inv base (MkHeap (set_size (h_mem h) (h_brk h) nu) (h_freep h) brk) F ((h_brk h, nu) :: A).
Proof.
  intros Hi Hnu -> Hbrk. pose proof (free_blocks_bounded _ _ _ _ Hi) as Hbd. destruct Hi as [H0 Hb Hring Hf Hsp HF HA Hd Hap].
  set (m' := set_size (h_mem h) (h_brk h) nu). assert (Hm : same_but [h_brk h] (h_mem h) m') by apply same_but_size.
  assert (HendF : Forall (fun y => fst y + 8 <= h_brk h) (ring base F)).
  { constructor; [cbn; lia|]. eapply Forall_impl; [exact HF|]. intros y [Hy1 Hy2]. lia. }
  assert (HdF : Forall (disjoint (h_brk h, nu)) F).
  { eapply Forall_impl; [exact HF|]. intros y [Hy1 Hy2]. right. unfold before. cbn. lia. }
  split; cbn [h_mem h_freep h_brk]; try done; [lia| | | | |].
  - eapply seg_same; [exact Hm|apply (apart_below (h_brk h)); [done|by constructor]|done].
  - eapply Forall_impl; [exact HF|]. unfold free_block. lia.
  - constructor.
    + split_and!; [cbn; lia|split; cbn; lia|]. cbn. apply hsize_set_size. unfold is_u32. lia.
    + eapply Forall_impl; [exact HA|]. intros y Hy. eapply (used_same base h m' _ _ [h_brk h]); [exact Hy|lia|done|].
      destruct Hy as (_ & [Hy1 Hy2] & _). constructor; [left; lia|done].
  - split; [|done]. eapply Forall_impl; [exact HA|]. intros y (_ & [Hy1 Hy2] & _). right. unfold before. cbn. lia.
  - by constructor.
Qed.

Lemma morecore_spec h F A nu n : heap_inv base h F A -> 1 <= nu < 2 ^ 28 -> (2 * length (ring base F) < n)%nat ->
  match sbrk (h_brk h) (8 * more_units nu) with
  | None => morecore n h nu = Some (0, h)
  | Some brk => exists h' F', morecore n h nu = Some (h_freep h', h') /\ heap_inv base h' F' A /\ h_brk h' = brk /\ h_brk h <= brk /\
      (forall a, covers F' a <-> covers F a \/ h_brk h <= a < brk) /\ keeps A (h_mem h) (h_mem h') /\
      (length F' <= S (length F))%nat /\ (exists b, b ∈ F' /\ nu <= snd b)
  end.
Proof.
  intros Hi Hnu Hn. unfold morecore. change (if nu <? 4096 then 4096 else nu) with (more_units nu).
  destruct (more_units_spec nu ltac:(lia)) as [Hm1 Hm2]. set (mu := more_units nu) in *.
  replace (i32 (mu * 8)) with (8 * mu) by (rewrite i32_small; lia).
  destruct (sbrk (h_brk h) (8 * mu)) as [brk|] eqn:Es; [|done]. destruct (sbrk_grows (h_brk h) (8 * mu) brk ltac:(lia) Es) as [Eb Hbrk].
  pose proof (grown_inv h F A mu brk Hi Hm2 Eb Hbrk) as Hg. pose proof (hi_brk _ _ _ _ Hi). pose proof (hi_base _ _ _ _ Hi).
  replace (hadd (h_brk h) 1) with (h_brk h + 8) by (unfold hadd; rewrite u32_small; lia).
  destruct (free_spec _ _ _ _ _ _ n Hg Hn) as (h' & F' & -> & K1 & K2 & K3 & K4 & K5 & (b & K6 & K7)).
  exists h', F'. split_and!; [done|done|done|lia| | |done|].
  - intros a. rewrite K3, Eb. tauto.
  - intros a Ha. rewrite (K4 a Ha). apply (same_but_size (h_mem h) (h_brk h) mu). constructor; [|done].
    apply Exists_exists in Ha as (x & Hx & Ha). destruct (proj1 (Forall_forall _ _) (hi_used _ _ _ _ Hi) x Hx) as (_ & [_ Hx2] & _).
    unfold in_header. lia.
  - exists b. split; [done|lia].
Qed.

(** ** The whole of [malloc] *)

(** What [malloc] gives: a new block, or nothing when the kernel refuses. *)
Definition malloc_result (h : heap) (F A : list block) (nunits : Z) (r : option (Z * heap)) : Prop :=
  (exists b h' F', r = Some (b + 8, h') /\ handed_out h F A nunits b h' F') \/
  (exists h', r = Some (0, h') /\ sbrk (h_brk h) (8 * more_units nunits) = None /\ Forall (fun b => snd b < nunits) F /\
     heap_inv base h' F A /\ h_brk h' = h_brk h /\ keeps A (h_mem h) (h_mem h')).

Lemma malloc_loop_spec h F A nunits n : heap_inv base h F A -> 1 <= nunits < 2 ^ 28 -> (4 * length (ring base F) + 4 < n)%nat ->
  malloc_result h F A nunits (malloc_loop n h nunits (h_freep h) (hptr (h_mem h) (h_freep h))).
Proof.
  intros Hi Hnu Hn. set (len := length (ring base F)) in *. replace n with (len + (n - len))%nat by lia.
  pose proof (search h F A nunits (n - len) Hi ltac:(lia)) as Hsr. cbv zeta in Hsr. fold len in Hsr.
  destruct Hsr as [(L1 & q & sq & p & s & L2 & k & EL & Hs & ->)|(Hsm & prevp & ->)].
  { destruct (take_spec h F A L1 q sq p s L2 nunits (k + (n - len)) Hi EL ltac:(lia)) as (b & h' & F' & E & Hh & _).
    left. by exists b, h', F'. }
  cbn [malloc_loop]. assert (Hf : hsize (h_mem h) (h_freep h) < nunits).
  { pose proof (hi_freep _ _ _ _ Hi) as ([f sf] & Ef & Hin)%list_elem_of_fmap. cbn [fst] in Ef. rewrite Ef.
    destruct (seg_from _ _ _ _ _ (hi_ring _ _ _ _ Hi) Hin) as (X & Y & EL & _ & -> & _).
    assert (HR : Forall (fun b => snd b < nunits) (ring base F)) by (constructor; [cbn; lia|done]).
    exact (proj1 (Forall_forall _ _) HR _ Hin). }
  rewrite (proj2 (Z.leb_gt _ _) Hf), Z.eqb_refl.
  pose proof (morecore_spec h F A nunits (n - len) Hi Hnu ltac:(fold len; lia)) as Hmc.
  destruct (sbrk (h_brk h) (8 * more_units nunits)) as [brk|] eqn:Es; [|rewrite Hmc; right; by exists h].
  destruct Hmc as (h1 & F1 & -> & Hi1 & Hb1 & Hb2 & Hc & Hk & Hlen & (b & Hb & Hbs)).
  rewrite (proj2 (Z.eqb_neq _ _) (freep_nonzero _ _ _ Hi1)).
  set (len1 := length (ring base F1)) in *. assert (Hl1 : (len1 <= S len)%nat) by (unfold len1, len; cbn [ring length]; lia).
  replace (n - len)%nat with (len1 + (n - len - len1))%nat by lia.
  pose proof (search h1 F1 A nunits (n - len - len1) Hi1 ltac:(lia)) as Hsr. cbv zeta in Hsr. fold len1 in Hsr.
  destruct Hsr as [(L1 & q & sq & p & s & L2 & k & EL & Hs & ->)|(Hsm1 & _)].
  2: { pose proof (proj1 (Forall_forall _ _) Hsm1 b Hb). cbv beta in *. lia. }
  destruct (take_spec h1 F1 A L1 q sq p s L2 nunits (k + (n - len - len1)) Hi1 EL ltac:(lia)) as (b' & h' & F' & E & Hh & Ebrk & Hlen').
  left. exists b', h', F'. split; [done|]. destruct Hh as [K1 K2 K3 K4 K5]. split; [done|lia| | |].
  - intros a. rewrite Ebrk, Hb1. rewrite <- Hc. rewrite <- K3, Ebrk. split; [auto|intros [?|?]; [done|lia]].
  - intros a Ha. by rewrite K4, Hk.
  - lia.
Qed.

(** The block has room for the bytes and the header, and less than a header to
    spare. *)
Lemma units_spec nbytes : 0 <= nbytes < 2 ^ 31 - 16 ->
  1 <= units nbytes < 2 ^ 28 /\ nbytes + 8 <= 8 * units nbytes < nbytes + 16.
Proof.
  intros Hb. unfold units. rewrite (u32_small (nbytes + 8 - 1)) by lia.
  assert (Hd : 0 <= (nbytes + 8 - 1) / 8 < 2 ^ 28 - 1) by (split; [apply Z.div_pos; lia|apply Z.div_lt_upper_bound; lia]).
  rewrite u32_small by lia. pose proof (Z.div_mod (nbytes + 8 - 1) 8). pose proof (Z.mod_pos_bound (nbytes + 8 - 1) 8). lia.
Qed.

(** Before the first call there is no list. *)
Record fresh_heap (h : heap) : Prop := {
  fh_base : 0 < base;
  fh_brk : base + 8 <= h_brk h <= 2 ^ 31;
  fh_freep : h_freep h = 0
}.

Definition first_heap (h : heap) : heap := MkHeap (set_size (set_ptr (h_mem h) base base) base 0) base (h_brk h).

Lemma first_heap_inv h : fresh_heap h -> heap_inv base (first_heap h) [] [].
Proof.
  intros [H1 H2 H3]. split; cbn [first_heap h_mem h_freep h_brk ring]; try done.
  - apply (seg_intro _ _ _ base); [apply hsize_set_size; unfold is_u32; lia| |done].
    rewrite hptr_set_size_same. apply hptr_set_ptr. unfold is_u32. lia.
  - set_solver +.
Qed.

Definition heap_ready (h : heap) (F A : list block) : Prop :=
  heap_inv base h F A \/ (fresh_heap h /\ F = [] /\ A = []).

Lemma malloc_spec h F A nbytes n : heap_ready h F A -> 0 <= nbytes < 2 ^ 31 - 16 -> (4 * length F + 8 < n)%nat ->
  malloc_result h F A (units nbytes) (malloc base n h nbytes).
Proof.
  intros Hr Hb Hn. destruct (units_spec nbytes Hb) as [Hu _]. unfold malloc. destruct Hr as [Hi|(Hf & -> & ->)].
  - rewrite (proj2 (Z.eqb_neq _ _) (freep_nonzero _ _ _ Hi)).
    apply malloc_loop_spec; [done|done|cbn [ring length]; lia].
  - rewrite (fh_freep _ Hf). cbn [Z.eqb]. change (MkHeap _ base (h_brk h)) with (first_heap h).
    destruct (malloc_loop_spec (first_heap h) [] [] (units nbytes) n (first_heap_inv h Hf) Hu ltac:(cbn; lia))
      as [(b & h' & F' & E & Hh)|(h' & E & Hs & H1 & H2 & H3 & H4)].
    + left. exists b, h', F'. split; [done|]. destruct Hh as [K1 K2 K3 K4 K5]. split; try done. intros a Ha. by apply Exists_nil in Ha.
    + right. exists h'. split_and!; try done. intros a Ha. by apply Exists_nil in Ha.
Qed.
End malloc.

(** * The user allocator: its clients

    A program that calls [malloc] and [free] and writes to the bytes it was
    given, next to what it may expect: arrays that do not touch each other and
    hold what was last written to them. *)

(** An array that the program holds: the pointer, the length it asked for, and
    the bytes it has written. *)
Record region := MkRegion { r_ptr : Z; r_len : Z; r_bytes : gmap Z Z }.

Inductive op :=
| OMalloc (nbytes : Z)
| OFree (i : nat)
| OWrite (i : nat) (off v : Z).

(** [malloc] takes less than 2 GB. *)
Definition op_ok (o : op) : Prop := match o with OMalloc n => 0 <= n < 2 ^ 31 - 16 | _ => True end.

Section clients.
Context `{Sbrk}.
Variable base : Z.

Definition run_op (fuel : nat) (st : heap * list region) (o : op) : option (heap * list region) :=
  let '(h, rs) := st in
  match o with
  | OMalloc nbytes =>
      match malloc base fuel h nbytes with
      | None => None
      | Some (p, h) => Some (h, if p =? 0 then rs else MkRegion p nbytes ∅ :: rs)
      end
  | OFree i =>
      match rs !! i with
      | None => Some st
      | Some r => match free fuel h (r_ptr r) with
                  | None => None
                  | Some h => Some (h, delete i rs)
                  end
      end
  | OWrite i off v =>
      match rs !! i with
      | None => Some st
      | Some r =>
          if (0 <=? off) && (off <? r_len r) then
            Some (MkHeap (st8 (h_mem h) (r_ptr r + off) v) (h_freep h) (h_brk h),
                  <[i := MkRegion (r_ptr r) (r_len r) (<[off := u8 v]> (r_bytes r))]> rs)
          else Some st
      end
  end.

Fixpoint run_ops (fuel : nat) (st : heap * list region) (os : list op) : option (heap * list region) :=
  match os with
  | [] => Some st
  | o :: os => match run_op fuel st o with None => None | Some st => run_ops fuel st os end
  end.

(** The array lies in the block, after its header, and has its bytes. *)
Record holds (m : mem) (r : region) (b : block) : Prop := {
  ho_ptr : r_ptr r = fst b + 8;
  ho_len : 0 <= r_len r /\ r_len r + 8 <= 8 * snd b;
  ho_bytes : forall off v, r_bytes r !! off = Some v -> 0 <= off < r_len r /\ ld8 m (r_ptr r + off) = v
}.

Definition state_ok (k : nat) (st : heap * list region) : Prop :=
  exists F A, heap_ready base (fst st) F A /\ Forall2 (holds (h_mem (fst st))) (snd st) A /\ (length F <= k)%nat.

Lemma holds_keeps m m' rs A : keeps A m m' -> Forall2 (holds m) rs A -> Forall2 (holds m') rs A.
Proof.
  intros Hk Hf. apply Forall2_same_length_lookup. split; [by eapply Forall2_length|]. intros i r b Hr Hb.
  destruct (Forall2_lookup_lr _ _ _ _ _ _ Hf Hr Hb) as [H1 H2 H3]. split; [done|done|]. intros off v Hv.
  destruct (H3 off v Hv) as [H4 H5]. split; [done|]. rewrite <- H5. apply Hk, Exists_exists. exists b.
  split; [by eapply list_elem_of_lookup_2|]. lia.
Qed.

Lemma pairwise_perm A A' : A ≡ₚ A' -> pairwise_disjoint A -> pairwise_disjoint A'.
Proof.
  induction 1 as [|x A A' HA IH|x y A|A A' A'' _ IH1 _ IH2]; [done| | |by auto].
  - intros [H1 H2]. split; [by rewrite <- HA|auto].
  - intros (H1 & H2 & H3). apply Forall_cons in H1 as [H1 H4]. split; [|done].
    constructor; [unfold disjoint in *; tauto|done].
Qed.

Lemma pairwise_lookup A : forall i j x y, pairwise_disjoint A -> A !! i = Some x -> A !! j = Some y -> i <> j -> disjoint x y.
Proof.
  induction A as [|z A IH]; intros i j x y HA Hi Hj Hne; [done|]. destruct HA as [H1 H2].
  destruct i as [|i], j as [|j]; cbn in Hi, Hj; [done| | |eapply IH; eauto].
  - injection Hi as ->. apply (proj1 (Forall_forall _ _) H1). by eapply list_elem_of_lookup_2.
  - injection Hj as ->. pose proof (proj1 (Forall_forall _ _) H1 x (list_elem_of_lookup_2 _ _ _ Hi)). unfold disjoint in *. tauto.
Qed.

Lemma heap_inv_perm h F A A' : A ≡ₚ A' -> heap_inv base h F A -> heap_inv base h F A'.
Proof.
  intros HA [H1 H2 H3 H4 H5 H6 H7 H8 H9]. split; try done; [by rewrite <- HA|by eapply pairwise_perm|by rewrite <- HA].
Qed.

(** A write to the bytes of a block after its header. *)
Lemma header_agree m a v p : ~ in_header p a -> hptr (st8 m a v) p = hptr m p /\ hsize (st8 m a v) p = hsize m p.
Proof. unfold in_header. intros Hp. split; apply ld32_agree; intros i Hi; apply ld8_st8_ne; lia. Qed.

Lemma seg_agree m a v L : forall x e, Forall (fun b => ~ in_header (fst b) a) L -> seg m x L e -> seg (st8 m a v) x L e.
Proof.
  induction L as [|[b s] L IH]; intros x e HL Hs; [done|]. apply Forall_cons in HL as [Hb HL]. destruct Hs as (-> & Hs & Hseg).
  destruct (header_agree m a v b Hb) as [E1 E2]. cbn. rewrite E1, E2. auto.
Qed.

Lemma write_inv h F A b a v : heap_inv base h F A -> b ∈ A -> fst b + 8 <= a < fst b + 8 * snd b ->
  heap_inv base (MkHeap (st8 (h_mem h) a v) (h_freep h) (h_brk h)) F A.
Proof.
  intros Hi Hb Ha. pose proof Hi as [H1 H2 H3 H4 H5 H6 H7 H8 H9]. split; try done; cbn [h_mem h_freep h_brk].
  - apply seg_agree; [|done]. apply Forall_forall. intros [p s] Hp. pose proof (ring_disjoint _ _ _ _ _ _ _ Hi Hb Hp) as D.
    unfold disjoint, before, in_header in *. cbn [fst snd] in *. lia.
  - apply Forall_forall. intros x Hx. destruct (proj1 (Forall_forall _ _) H7 x Hx) as (K1 & [K2 K4] & K3).
    split_and!; [done|by split|]. cbn [h_mem]. rewrite <- K3. apply header_agree.
    apply list_elem_of_lookup in Hb as [i Hbi], Hx as [j Hxj]. destruct (decide (i = j)) as [<-|Hij].
    + assert (x = b) as -> by congruence. unfold in_header. lia.
    + pose proof (pairwise_lookup A i j b x H8 Hbi Hxj Hij) as D. unfold disjoint, before, in_header in *. lia.
Qed.

Lemma malloc_ok k h rs nbytes fuel : state_ok k (h, rs) -> 0 <= nbytes < 2 ^ 31 - 16 -> (4 * k + 8 < fuel)%nat ->
  exists st', run_op fuel (h, rs) (OMalloc nbytes) = Some st' /\ state_ok (S k) st'.
Proof.
  intros (F & A & Hr & Hf & Hk) Hn Hfuel. cbn [fst snd] in *. destruct (units_spec nbytes Hn) as [_ Hu].
  destruct (malloc_spec base h F A nbytes fuel Hr Hn ltac:(lia)) as [(b & h' & F' & E & Hh)|(h' & E & _ & _ & Hi & _ & Hke)]; cbn [run_op].
  - rewrite E. destruct Hh as [Hi _ _ Hke Hlen]. pose proof (hi_used _ _ _ _ Hi) as Hus. pose proof (hi_base _ _ _ _ Hi).
    apply Forall_cons in Hus as [(Hb & _) _]. cbn [fst] in Hb. rewrite (proj2 (Z.eqb_neq (b + 8) 0)) by lia.
    eexists. split; [done|]. exists F', ((b, units nbytes) :: A). split_and!; [by left| |lia]. cbn [fst snd].
    constructor; [|by eapply holds_keeps]. split; cbn [r_ptr r_len r_bytes fst snd]; [done|lia|].
    intros off v Hv. by rewrite lookup_empty in Hv.
  - rewrite E. cbn [Z.eqb]. eexists. split; [done|]. exists F, A. split_and!; [by left|by eapply holds_keeps|lia].
Qed.

Lemma free_ok k h rs i fuel : state_ok k (h, rs) -> (4 * k + 8 < fuel)%nat ->
  exists st', run_op fuel (h, rs) (OFree i) = Some st' /\ state_ok (S k) st'.
Proof.
  intros (F & A & Hr & Hf & Hk) Hfuel. cbn [fst snd run_op] in *.
  destruct (rs !! i) as [r|] eqn:Er; [|exists (h, rs); split; [done|]; exists F, A; split_and!; [done|done|lia]].
  destruct (Forall2_lookup_l _ _ _ _ _ Hf Er) as (b & Hb & [Hp _ _]). destruct Hr as [Hi|(_ & _ & ->)]; [|done].
  pose proof (delete_Permutation A i b Hb) as HA. destruct b as [bp sb].
  destruct (free_spec base h F (delete i A) bp sb fuel (heap_inv_perm _ _ _ _ HA Hi) ltac:(cbn [ring length]; lia))
    as (h' & F' & E & Hi' & _ & _ & Hke & Hlen & _).
  cbn [fst] in Hp. rewrite Hp, E. eexists. split; [done|]. exists F', (delete i A). split_and!; [by left| |lia].
  eapply holds_keeps; [exact Hke|]. by apply Forall2_delete.
Qed.

Lemma write_ok k h rs i off v fuel : state_ok k (h, rs) ->
  exists st', run_op fuel (h, rs) (OWrite i off v) = Some st' /\ state_ok (S k) st'.
Proof.
  intros (F & A & Hr & Hf & Hk). cbn [fst snd run_op] in *.
  assert (Hsame : exists st', Some (h, rs) = Some st' /\ state_ok (S k) st').
  { exists (h, rs). split; [done|]. exists F, A. split_and!; [done|done|lia]. }
  destruct (rs !! i) as [r|] eqn:Er; [|done]. destruct ((0 <=? off) && (off <? r_len r)) eqn:Eo; [|done].
  apply andb_prop in Eo as [Eo1%Z.leb_le Eo2%Z.ltb_lt].
  destruct (Forall2_lookup_l _ _ _ _ _ Hf Er) as (b & Hb & [Hp Hl Hby]). destruct Hr as [Hi|(_ & _ & ->)]; [|done].
  eexists. split; [done|]. exists F, A. split_and!; [left|cbn [fst snd h_mem]|lia].
  { eapply write_inv; [exact Hi|by eapply list_elem_of_lookup_2|lia]. }
  apply Forall2_same_length_lookup. split; [rewrite length_insert; by eapply Forall2_length|]. intros j r' b' Hr' Hb'.
  destruct (decide (i = j)) as [<-|Hij].
  - rewrite list_lookup_insert_eq in Hr' by (by eapply lookup_lt_Some). injection Hr' as <-. assert (b' = b) as -> by congruence.
    split; cbn [r_ptr r_len r_bytes]; [done|done|]. intros o w Hw. destruct (decide (off = o)) as [<-|Hoo].
    + rewrite lookup_insert_eq in Hw. injection Hw as <-. split; [lia|]. apply ld8_st8_eq.
    + rewrite lookup_insert_ne in Hw by done. destruct (Hby o w Hw) as [H1 H2]. split; [done|]. by rewrite ld8_st8_ne by lia.
  - rewrite list_lookup_insert_ne in Hr' by done. destruct (Forall2_lookup_lr _ _ _ _ _ _ Hf Hr' Hb') as [Hp' Hl' Hby'].
    split; [done|done|]. intros o w Hw. destruct (Hby' o w Hw) as [H1 H2]. split; [done|].
    pose proof (pairwise_lookup A i j b b' (hi_disjoint _ _ _ _ Hi) Hb Hb' Hij) as D.
    rewrite ld8_st8_ne; [done|]. unfold disjoint, before in D. lia.
Qed.

Lemma run_ops_ok os : forall k st fuel, state_ok k st -> Forall op_ok os -> (4 * (k + length os) + 8 < fuel)%nat ->
  exists st', run_ops fuel st os = Some st' /\ state_ok (k + length os) st'.
Proof.
  induction os as [|o os IH]; intros k [h rs] fuel Hst Hos Hfuel; cbn [run_ops length] in *.
  - exists (h, rs). split; [done|]. by rewrite Nat.add_0_r.
  - apply Forall_cons in Hos as [Ho Hos].
    assert (Hstep : exists st', run_op fuel (h, rs) o = Some st' /\ state_ok (S k) st').
    { destruct o as [n|i|i off v]; [by apply malloc_ok; [| |lia]|by apply free_ok; [|lia]|by apply write_ok]. }
    destruct Hstep as (st' & -> & Hst'). destruct (IH (S k) st' fuel Hst' Hos ltac:(lia)) as (st2 & E & H2).
    exists st2. split; [done|]. by replace (k + S (length os))%nat with (S k + length os)%nat by lia.
Qed.

(** What the program may rely on: its arrays are apart, and hold what it wrote. *)
Lemma state_ok_regions k h rs : state_ok k (h, rs) ->
  (forall i j r r', rs !! i = Some r -> rs !! j = Some r' -> i <> j ->
     r_ptr r + r_len r <= r_ptr r' \/ r_ptr r' + r_len r' <= r_ptr r) /\
  (forall i r off v, rs !! i = Some r -> r_bytes r !! off = Some v -> ld8 (h_mem h) (r_ptr r + off) = v).
Proof.
  intros (F & A & Hr & Hf & _). cbn [fst snd] in *. split.
  - intros i j r r' Hi Hj Hij. destruct (Forall2_lookup_l _ _ _ _ _ Hf Hi) as (b & Hb & [Hp Hl _]).
    destruct (Forall2_lookup_l _ _ _ _ _ Hf Hj) as (b' & Hb' & [Hp' Hl' _]). destruct Hr as [Hin|(_ & _ & ->)]; [|done].
    pose proof (pairwise_lookup A i j b b' (hi_disjoint _ _ _ _ Hin) Hb Hb' Hij) as D. unfold disjoint, before in D. lia.
  - intros i r off v Hi Hv. destruct (Forall2_lookup_l _ _ _ _ _ Hf Hi) as (b & Hb & [_ _ Hby]). by apply Hby.
Qed.
End clients.
