(* ===== verification/BootLoader.v ===== *)
(** * The boot loader (bootmain.c)

    The loader runs on physical memory and reads the kernel, an ELF file that
    starts at sector 1, through the ports of the disk.  What the disk does is a
    class; its law is that of a read of one sector by its number. *)

From S2P Require Import Prelude Mem.

Class AtaPorts := {
  ata : Type;
  ata_inb : ata -> Z -> Z * ata;
  ata_outb : ata -> Z -> Z -> ata;
  ata_insl : ata -> Z -> nat -> list Z * ata      (* so many words, as bytes *)
}.

Definition SECTSIZE : Z := 512.
Definition ELF_MAGIC_NUMBER : Z := 0x464C457F.

(** A loop of the loader has a bound on its turns; [None] when it is reached. *)
Definition obind {A B} (m : option A) (f : A -> option B) : option B := match m with Some a => f a | None => None end.
Notation "'let?' x := m 'in' k" := (obind m (fun x => k))
  (at level 200, x pattern at level 0, m at level 200, k at level 200, right associativity).

(** [insl] to memory. *)
Fixpoint put_bytes (m : mem) (a : Z) (l : list Z) : mem :=
  match l with
  | [] => m
  | b :: l' => put_bytes (st8 m a b) (a + 1) l'
  end.

Section loader.
Context {P : AtaPorts}.

Fixpoint waitdisk (fuel : nat) (d : ata) : option ata :=
  match fuel with
  | O => None
  | S n => let '(v, d) := ata_inb d 0x1F7 in
           if negb (Z.land v 0xC0 =? 0x40) then waitdisk n d else Some d
  end.

(** The command for a sector: the bytes of its number go to four ports. *)
Definition read_command (d : ata) (offset : Z) : ata :=
  let d := ata_outb d 0x1F2 1 in
  let d := ata_outb d 0x1F3 (u8 offset) in
  let d := ata_outb d 0x1F4 (u8 (Z.shiftr offset 8)) in
  let d := ata_outb d 0x1F5 (u8 (Z.shiftr offset 16)) in
  let d := ata_outb d 0x1F6 (u8 (Z.lor (Z.shiftr offset 24) 0xE0)) in
  ata_outb d 0x1F7 0x20.

Definition readsect (fuel : nat) (md : mem * ata) (dst offset : Z) : option (mem * ata) :=
  let '(m, d) := md in
  let? d := waitdisk fuel d in
  let d := read_command d offset in
  let? d := waitdisk fuel d in
  let '(bs, d) := ata_insl d 0x1F0 (Z.to_nat (SECTSIZE / 4)) in
  Some (put_bytes m dst bs, d).

Fixpoint readseg_loop (fuel n : nat) (md : mem * ata) (pa epa offset : Z) : option (mem * ata) :=
  if pa <? epa then
    match n with
    | O => None
    | S n' => let? md := readsect fuel md pa offset in readseg_loop fuel n' md (pa +u SECTSIZE) epa (offset +u 1)
    end
  else Some md.

(** The number of sectors that [count] bytes can touch bounds the turns. *)
Definition readseg (fuel : nat) (md : mem * ata) (pa count offset : Z) : option (mem * ata) :=
  let epa := pa +u count in
  let pa := pa -u offset mod SECTSIZE in
  let offset := offset / SECTSIZE +u 1 in
  readseg_loop fuel (Z.to_nat (count / SECTSIZE) + 2) md pa epa offset.

(** Fields of the headers in memory. *)
Definition ELF : Z := 0x10000.
Definition mem_magic (m : mem) : Z := ld32 m ELF.
Definition mem_entry (m : mem) : Z := ld32 m (ELF + 24).
Definition mem_phoff (m : mem) : Z := ld32 m (ELF + 28).
Definition mem_phnum (m : mem) : Z := ld16 m (ELF + 44).

Fixpoint load_segments (fuel n : nat) (md : mem * ata) (ph : Z) : option (mem * ata) :=
  match n with
  | O => Some md
  | S n' =>
      let m := fst md in
      let off := ld32 m (ph + 4) in
      let pa := ld32 m (ph + 12) in
      let filesz := ld32 m (ph + 16) in
      let? md := readseg fuel md pa filesz off in
      let '(m, d) := md in
      let memsz := ld32 m (ph + 20) in
      let filesz := ld32 m (ph + 16) in
      let m := if filesz <? memsz then stosb m (pa +u filesz) 0 (Z.to_nat (memsz -u filesz)) else m in
      load_segments fuel n' (m, d) (ph + 32)
  end.

(** The entry point it jumps to, or [None] inside when there is no kernel. *)
Definition bootmain (fuel : nat) (md : mem * ata) : option (option Z * (mem * ata)) :=
  let? md := readseg fuel md ELF 4096 0 in
  let m := fst md in
  if negb (mem_magic m =? ELF_MAGIC_NUMBER) then Some (None, md)
  else
    let? md := load_segments fuel (Z.to_nat (mem_phnum m)) md (ELF +u mem_phoff m) in
    Some (Some (mem_entry (fst md)), md).
End loader.

(** ** The disk

    LBA28: bits 0 to 7, 8 to 15 and 16 to 23 of the sector number go to ports
    1F3 to 1F5, bits 24 to 27 with 0xE0 (drive 0) to 1F6; the disk is ready after
    a number of polls that [ata_patience] bounds. *)
Class AtaDisk (P : AtaPorts) := {
  sector : Z -> list Z;
  ata_patience : nat;
  sector_length : forall n, length (sector n) = 512%nat;
  sector_bytes : forall n, Forall (fun b => 0 <= b < 256) (sector n);
  ata_reads : forall d n, 0 <= n < 2 ^ 28 ->
    exists d1 d2 d3, waitdisk ata_patience d = Some d1 /\
      waitdisk ata_patience
        (ata_outb (ata_outb (ata_outb (ata_outb (ata_outb (ata_outb d1 0x1F2 1)
          0x1F3 (n mod 2 ^ 8)) 0x1F4 (n / 2 ^ 8 mod 2 ^ 8)) 0x1F5 (n / 2 ^ 16 mod 2 ^ 8)) 0x1F6 (0xE0 + n / 2 ^ 24)) 0x1F7 0x20) = Some d2 /\
      ata_insl d2 0x1F0 128 = (sector n, d3)
}.

(** ** What is loaded *)

Lemma ld8_put_bytes l : forall m a x, Forall (fun b => 0 <= b < 256) l ->
  ld8 (put_bytes m a l) x = if decide (a <= x < a + Z.of_nat (length l)) then nth (Z.to_nat (x - a)) l 0 else ld8 m x.
Proof.
  induction l as [|b l IH]; intros m a x Hl; cbn [put_bytes length].
  - rewrite decide_False by (cbn; lia). done.
  - apply Forall_cons in Hl as [Hb Hl]. rewrite IH by done. destruct (decide (x = a)) as [->|Hne].
    + rewrite decide_False, decide_True by lia. rewrite ld8_st8_eq, u8_small by done. by replace (Z.to_nat (a - a)) with 0%nat by lia.
    + rewrite ld8_st8_ne by done. destruct (decide (a + 1 <= x < a + 1 + Z.of_nat (length l))) as [Hi|Hi].
      * rewrite decide_True by lia. by replace (Z.to_nat (x - a)) with (S (Z.to_nat (x - (a + 1)))) by lia.
      * by rewrite decide_False by lia.
Qed.

Section disk.
Context {P : AtaPorts} {D : AtaDisk P}.

(** Byte [i] of the kernel file. *)
Definition kbyte (i : Z) : Z := nth (Z.to_nat (i mod SECTSIZE)) (sector (1 + i / SECTSIZE)) 0.

(** The memory [m'] is [m] with the bytes of the kernel from [off] on at [lo .. hi). *)
Definition loaded (m m' : mem) (lo hi off : Z) : Prop :=
  forall a, ld8 m' a = if decide (lo <= a < hi) then kbyte (off + (a - lo)) else ld8 m a.

Lemma read_command_lba d n : 0 <= n < 2 ^ 28 -> read_command d n =
  ata_outb (ata_outb (ata_outb (ata_outb (ata_outb (ata_outb d 0x1F2 1)
    0x1F3 (n mod 2 ^ 8)) 0x1F4 (n / 2 ^ 8 mod 2 ^ 8)) 0x1F5 (n / 2 ^ 16 mod 2 ^ 8)) 0x1F6 (0xE0 + n / 2 ^ 24)) 0x1F7 0x20.
Proof.
  intros Hn. unfold read_command. rewrite !Z.shiftr_div_pow2 by lia. unfold u8.
  assert (Hd : 0 <= n / 2 ^ 24 < 16) by (split; [apply Z.div_pos; lia|apply Z.div_lt_upper_bound; lia]).
  replace (Z.lor (n / 2 ^ 24) 224 mod 2 ^ 8) with (0xE0 + n / 2 ^ 24); [done|].
  generalize dependent (n / 2 ^ 24). intros h Hh.
  assert (h = 0 \/ h = 1 \/ h = 2 \/ h = 3 \/ h = 4 \/ h = 5 \/ h = 6 \/ h = 7 \/ h = 8 \/ h = 9 \/ h = 10 \/ h = 11 \/ h = 12 \/ h = 13 \/ h = 14 \/ h = 15) as Hc by lia.
  repeat destruct Hc as [->|Hc]; try reflexivity. subst h. reflexivity.
Qed.

Lemma readsect_loads m d dst n : 0 <= n -> n + 1 < 2 ^ 28 ->
  exists m' d', readsect ata_patience (m, d) dst (n + 1) = Some (m', d') /\ loaded m m' dst (dst + SECTSIZE) (n * SECTSIZE).
Proof.
  intros Hn Hn2. destruct (ata_reads d (n + 1) ltac:(lia)) as (d1 & d2 & d3 & H1 & H2 & H3).
  unfold readsect. rewrite H1. cbn [obind]. rewrite read_command_lba by lia. rewrite H2. cbn [obind].
  change (Z.to_nat (SECTSIZE / 4)) with 128%nat. rewrite H3. eexists _, d3. split; [done|].
  intros a. rewrite ld8_put_bytes by apply sector_bytes. rewrite sector_length. unfold SECTSIZE.
  destruct (decide (dst <= a < dst + Z.of_nat 512)) as [Ha|Ha]; [rewrite decide_True by lia|by rewrite decide_False by lia].
  unfold kbyte, SECTSIZE. replace ((n * 512 + (a - dst)) mod 512) with (a - dst) by (Z.div_mod_to_equations; lia).
  by replace (1 + (n * 512 + (a - dst)) / 512) with (n + 1) by (Z.div_mod_to_equations; lia).
Qed.

Lemma loaded_next m m1 m2 lo mid hi off : lo <= mid <= hi -> loaded m m1 lo mid off -> loaded m1 m2 mid hi (off + (mid - lo)) ->
  loaded m m2 lo hi off.
Proof.
  intros Hm H1 H2 a. rewrite H2, H1. repeat case_decide; try lia; try done. f_equal. lia.
Qed.

Lemma readseg_loop_loads n : forall m d pa epa sec, 0 <= pa -> 0 <= sec -> epa + SECTSIZE <= 2 ^ 32 ->
  epa - pa <= SECTSIZE * Z.of_nat n -> sec + Z.of_nat n + 1 < 2 ^ 28 ->
  exists m' d' hi, readseg_loop ata_patience n (m, d) pa epa (sec + 1) = Some (m', d') /\
    loaded m m' pa hi (sec * SECTSIZE) /\ (epa <= pa -> hi = pa) /\ (pa < epa -> epa <= hi < epa + SECTSIZE).
Proof.
  induction n as [|n IH]; intros m d pa epa sec Hpa Hsec Hepa Hn Hs; cbn [readseg_loop].
  - rewrite (proj2 (Z.ltb_ge pa epa)) by lia. exists m, d, pa. split_and!; [done| |lia|lia].
    intros a. by rewrite decide_False by lia.
  - destruct (Z.ltb_spec pa epa) as [Hlt|Hge].
    + destruct (readsect_loads m d pa sec Hsec ltac:(lia)) as (m1 & d1 & E1 & L1). rewrite E1. cbn [obind].
      unfold SECTSIZE in *. rewrite !u32_small by lia.
      replace (sec + 1 + 1) with ((sec + 1) + 1) by lia.
      destruct (IH m1 d1 (pa + 512) epa (sec + 1)) as (m' & d' & hi & E2 & L2 & Hhi1 & Hhi2); [lia|lia|lia|lia|lia|].
      exists m', d', hi. split_and!; [done| |lia|lia]. eapply (loaded_next m m1 m' pa (pa + 512)); [split; [lia|]; destruct (Z_le_gt_dec epa (pa + 512)); lia|exact L1|].
      by replace (sec * 512 + (pa + 512 - pa)) with ((sec + 1) * 512) by lia.
    + exists m, d, pa. split_and!; [done| |lia|lia]. intros a. by rewrite decide_False by lia.
Qed.

(** [readseg] puts the bytes where they belong; it writes from the start of the
    first sector to the end of the last one. *)
Lemma readseg_loads m d pa count off : 0 <= count -> 0 <= off < 2 ^ 32 -> off mod SECTSIZE <= pa -> pa + count + SECTSIZE <= 2 ^ 32 ->
  off / SECTSIZE + count / SECTSIZE + 4 < 2 ^ 28 ->
  exists m' d' hi, readseg ata_patience (m, d) pa count off = Some (m', d') /\
    loaded m m' (pa - off mod SECTSIZE) hi (off - off mod SECTSIZE) /\
    pa + count <= hi < Z.max (pa - off mod SECTSIZE) (pa + count) + SECTSIZE.
Proof.
  intros Hc Ho Hpa Hend Hs. unfold readseg. pose proof (Z.mod_pos_bound off SECTSIZE ltac:(unfold SECTSIZE; lia)) as Hm.
  pose proof (Z.div_mod off SECTSIZE ltac:(unfold SECTSIZE; lia)) as Hdm.
  pose proof (Z.div_mod count SECTSIZE ltac:(unfold SECTSIZE; lia)). pose proof (Z.mod_pos_bound count SECTSIZE ltac:(unfold SECTSIZE; lia)).
  assert (Hq : 0 <= off / SECTSIZE) by (apply Z.div_pos; unfold SECTSIZE; lia).
  assert (Hcq : 0 <= count / SECTSIZE) by (apply Z.div_pos; unfold SECTSIZE; lia).
  rewrite !u32_small by (unfold SECTSIZE in *; lia).
  destruct (readseg_loop_loads (Z.to_nat (count / SECTSIZE) + 2) m d (pa - off mod SECTSIZE) (pa + count) (off / SECTSIZE))
    as (m' & d' & hi & E & L & Hhi1 & Hhi2); [lia|lia|lia|unfold SECTSIZE in *; lia|lia|].
  exists m', d', hi. split_and!; [done| |lia|lia]. by replace (off - off mod SECTSIZE) with (off / SECTSIZE * SECTSIZE) by lia.
Qed.

(** ** The kernel as its headers describe it *)

Definition file32 (o : Z) : Z := kbyte o + kbyte (o + 1) * 2 ^ 8 + kbyte (o + 2) * 2 ^ 16 + kbyte (o + 3) * 2 ^ 24.
Definition file16 (o : Z) : Z := kbyte o + kbyte (o + 1) * 2 ^ 8.

Record segment := MkSegment { sg_off : Z; sg_pa : Z; sg_filesz : Z; sg_memsz : Z }.
Definition segment_at (o : Z) : segment := MkSegment (file32 (o + 4)) (file32 (o + 12)) (file32 (o + 16)) (file32 (o + 20)).
Definition segments (o : Z) (n : nat) : list segment := (fun i => segment_at (o + 32 * Z.of_nat i)) <$> seq 0 n.

(** The first byte that the load of a segment writes, and the end of the segment. *)
Definition sg_low (s : segment) : Z := sg_pa s - sg_off s mod SECTSIZE.
Definition sg_end (s : segment) : Z := sg_pa s + Z.max (sg_filesz s) (sg_memsz s).

(** The segment fits the disk and the address space, and lies above the headers. *)
Record fits (s : segment) : Prop := {
  ft_low : ELF + 4096 <= sg_low s;
  ft_end : sg_end s + SECTSIZE <= 2 ^ 32;
  ft_disk : sg_off s / SECTSIZE + sg_filesz s / SECTSIZE + 4 < 2 ^ 28
}.

(** The sectors of a segment start after the segments before it end. *)
Fixpoint ascending (ss : list segment) : Prop :=
  match ss with
  | [] => True
  | s :: ss => Forall (fun t => sg_end s <= sg_low t) ss /\ ascending ss
  end.

(** The segment is in memory: its bytes of the file, then zeros. *)
Definition in_memory (m : mem) (s : segment) : Prop :=
  (forall x, 0 <= x < sg_filesz s -> ld8 m (sg_pa s + x) = kbyte (sg_off s + x)) /\
  (forall x, sg_filesz s <= x < sg_memsz s -> ld8 m (sg_pa s + x) = 0).

(** The page of headers is in memory. *)
Definition headers (m : mem) : Prop := forall a, ELF <= a < ELF + 4096 -> ld8 m a = kbyte (a - ELF).

Lemma kbyte_range i : 0 <= kbyte i < 256.
Proof.
  unfold kbyte. pose proof (Z.mod_pos_bound i SECTSIZE ltac:(unfold SECTSIZE; lia)) as Hm. unfold SECTSIZE in Hm.
  pose proof (sector_bytes (1 + i / SECTSIZE)) as H. rewrite Forall_forall in H. apply H. apply list_elem_of_In, nth_In.
  rewrite sector_length. unfold SECTSIZE. lia.
Qed.

Lemma file32_range o : 0 <= file32 o < 2 ^ 32.
Proof.
  unfold file32. pose proof (kbyte_range o). pose proof (kbyte_range (o + 1)). pose proof (kbyte_range (o + 2)). pose proof (kbyte_range (o + 3)). lia.
Qed.

Lemma headers32 m o : headers m -> 0 <= o -> o + 4 <= 4096 -> ld32 m (ELF + o) = file32 o.
Proof.
  intros H H1 H2. unfold ld32, file32. rewrite !H by lia. repeat f_equal; lia.
Qed.

(** One turn of the loop over the headers. *)
Lemma load_one m d s : fits s -> is_u32 (sg_off s) -> is_u32 (sg_pa s) -> is_u32 (sg_filesz s) -> is_u32 (sg_memsz s) ->
  exists m1 d1, readseg ata_patience (m, d) (sg_pa s) (sg_filesz s) (sg_off s) = Some (m1, d1) /\
    (forall a, a < sg_low s -> ld8 m1 a = ld8 m a) /\
    let m2 := if sg_filesz s <? sg_memsz s then stosb m1 (sg_pa s +u sg_filesz s) 0 (Z.to_nat (sg_memsz s -u sg_filesz s)) else m1 in
    in_memory m2 s /\ (forall a, a < sg_low s -> ld8 m2 a = ld8 m a).
Proof.
  intros [Hlow Hend Hdisk] [Ho1 Ho2] [Hp1 Hp2] [Hf1 Hf2] [Hm1 Hm2]. unfold sg_low, sg_end, ELF in *.
  pose proof (Z.mod_pos_bound (sg_off s) SECTSIZE ltac:(unfold SECTSIZE; lia)) as Hm.
  destruct (readseg_loads m d (sg_pa s) (sg_filesz s) (sg_off s)) as (m1 & d1 & hi & E & L & Hhi); [lia|lia|lia|lia|done|].
  assert (Hbelow : forall a, a < sg_pa s - sg_off s mod SECTSIZE -> ld8 m1 a = ld8 m a).
  { intros a Ha. rewrite L. by rewrite decide_False by lia. }
  assert (Hfile : forall x, 0 <= x < sg_filesz s -> ld8 m1 (sg_pa s + x) = kbyte (sg_off s + x)).
  { intros x Hx. rewrite L. rewrite decide_True by lia. f_equal. lia. }
  exists m1, d1. split; [done|]. split; [done|]. destruct (Z.ltb_spec (sg_filesz s) (sg_memsz s)) as [Hlt|Hge].
  - rewrite !u32_small by (unfold SECTSIZE in *; lia). assert (Hz : forall a, ld8 (stosb m1 (sg_pa s + sg_filesz s) 0 (Z.to_nat (sg_memsz s - sg_filesz s))) a =
      if decide (sg_pa s + sg_filesz s <= a < sg_pa s + sg_memsz s) then 0 else ld8 m1 a).
    { intros a. rewrite ld8_stosb. rewrite Z2Nat.id by lia.
      replace (sg_pa s + sg_filesz s + (sg_memsz s - sg_filesz s)) with (sg_pa s + sg_memsz s) by lia. done. }
    split; [split|].
    + intros x Hx. rewrite Hz, decide_False by lia. auto.
    + intros x Hx. rewrite Hz, decide_True by lia. done.
    + intros a Ha. rewrite Hz, decide_False by lia. auto.
  - split; [split; [done|intros x Hx; lia]|done].
Qed.

Lemma load_segments_loads n : forall o m d, headers m -> 0 <= o -> o + 32 * Z.of_nat n <= 4096 ->
  Forall fits (segments o n) -> ascending (segments o n) ->
  exists m' d', load_segments ata_patience n (m, d) (ELF + o) = Some (m', d') /\ Forall (in_memory m') (segments o n) /\
    (forall a, Forall (fun s => a < sg_low s) (segments o n) -> ld8 m' a = ld8 m a).
Proof.
  induction n as [|n IH]; intros o m d Hh Ho Hn Hf Hasc; [by exists m, d|].
  assert (Es : segments o (S n) = segment_at o :: segments (o + 32) n).
  { unfold segments. rewrite <- cons_seq. cbn [fmap list_fmap]. f_equal; [f_equal; lia|].
    rewrite <- fmap_S_seq, <- list_fmap_compose. apply list_fmap_ext. intros i x _. cbn. f_equal. lia. }
  rewrite Es in *. apply Forall_cons in Hf as [Hs Hf]. destruct Hasc as [Ha Hasc]. set (s := segment_at o) in *.
  destruct (load_one m d s Hs) as (m1 & d1 & E1 & B1 & I2 & B2); [apply file32_range..|].
  assert (Hh1 : headers m1).
  { intros a Hr. rewrite B1, Hh; [done|lia|]. pose proof (ft_low _ Hs). lia. }
  cbn [load_segments fst]. rewrite <- !(Z.add_assoc ELF o). rewrite !(headers32 m) by (done || lia).
  change (file32 (o + 4)) with (sg_off s). change (file32 (o + 12)) with (sg_pa s). change (file32 (o + 16)) with (sg_filesz s).
  rewrite E1. cbn [obind]. rewrite !(headers32 m1) by (done || lia).
  change (file32 (o + 20)) with (sg_memsz s). change (file32 (o + 16)) with (sg_filesz s).
  set (m2 := if sg_filesz s <? sg_memsz s then _ else m1) in *.
  assert (Hh2 : headers m2).
  { intros a Hr. rewrite B2, Hh; [done|lia|]. pose proof (ft_low _ Hs). lia. }
  destruct (IH (o + 32) m2 d1 Hh2 ltac:(lia) ltac:(lia) Hf Hasc) as (m' & d' & E' & I' & B').
  exists m', d'. split_and!; [done| |].
  - constructor; [|done]. assert (Hkeep : forall a, a < sg_end s -> ld8 m' a = ld8 m2 a).
    { intros a Hr. apply B'. eapply Forall_impl; [exact Ha|]. cbv beta. lia. }
    destruct I2 as [I3 I4]. unfold sg_end in Hkeep. split; intros x Hx; rewrite Hkeep by lia; auto.
  - intros a Hlow. apply Forall_cons in Hlow as [H1 H2]. rewrite B' by done. by apply B2.
Qed.

Lemma bootmain_loads m d : let n := Z.to_nat (file16 44) in
  file32 0 = ELF_MAGIC_NUMBER -> file32 28 + 32 * Z.of_nat n <= 4096 ->
  Forall fits (segments (file32 28) n) -> ascending (segments (file32 28) n) ->
  exists m' d', bootmain ata_patience (m, d) = Some (Some (file32 24), (m', d')) /\ Forall (in_memory m') (segments (file32 28) n).
Proof.
  intros n Hmag Hph Hf Hasc. unfold bootmain.
  destruct (readseg_loads m d ELF 4096 0) as (m1 & d1 & hi & E & L & Hhi);
    [lia|lia|vm_compute; discriminate|vm_compute; discriminate|vm_compute; reflexivity|].
  rewrite E. cbn [obind fst]. change (0 mod SECTSIZE) with 0 in L, Hhi. rewrite !Z.sub_0_r in *.
  assert (Hh : headers m1).
  { intros a Ha. rewrite L, decide_True by lia. f_equal. }
  unfold mem_magic, mem_phnum, mem_phoff, mem_entry.
  assert (E0 : ld32 m1 ELF = ELF_MAGIC_NUMBER) by (rewrite <- Hmag; exact (headers32 m1 0 Hh ltac:(lia) ltac:(lia))).
  rewrite E0, Z.eqb_refl. cbn [negb].
  pose proof (file32_range 28). rewrite (headers32 m1 28) by (done || lia).
  assert (E16 : ld16 m1 (ELF + 44) = file16 44).
  { unfold ld16, file16. rewrite !Hh by (unfold ELF; lia). by repeat f_equal. }
  rewrite E16. fold n. rewrite u32_small by (unfold ELF; lia).
  destruct (load_segments_loads n (file32 28) m1 d1 Hh ltac:(lia) Hph Hf Hasc) as (m' & d' & E' & I' & B').
  rewrite E'. cbn [obind fst]. exists m', d'. split; [|done].
  assert (Hh' : headers m').
  { intros a Ha. rewrite B', Hh; [done|lia|]. eapply Forall_impl; [exact Hf|]. intros s Hs. pose proof (ft_low _ Hs). lia. }
  by rewrite (headers32 m' 24) by (done || lia).
Qed.
End disk.
