(* ===== verification/Mkfs.v ===== *)
(** * Building the file system image (mkfs.c)

    The image is a map from sectors to blocks.  A [struct dinode] is its 64
    bytes, and the fields are read and written at their offsets, least
    significant byte first ([xint], [xshort]).  [None] is [exit(1)] or a failed
    assertion: a sector that cannot be read, or a file that is too large. *)

From Stdlib Require Import Ascii String.
From S2P Require Import Prelude State Monad Mem Spinlock ConsoleOut Log Inode Fs.

Definition NINODES : Z := 200.
Definition nbitmap : Z := FSSIZE / (BSIZE * 8) + 1.
Definition ninodeblocks : Z := NINODES / IPB + 1.
Definition nlog : Z := LOGSIZE.
Definition nmeta : Z := 2 + nlog + ninodeblocks + nbitmap.
Definition nblocks : Z := FSSIZE - nmeta.

(** [xshort] and [xint] store the bytes of their argument from the least
    significant one on. *)
Definition xshort (x : Z) : Z := lget16 0 [u8 x; u8 (Z.shiftr x 8)].
Definition xint (x : Z) : Z := lget32 0 [u8 x; u8 (Z.shiftr x 8); u8 (Z.shiftr x 16); u8 (Z.shiftr x 24)].

Record mk := MkMk { mk_img : gmap Z (list Z); mk_freeinode : Z; mk_freeblock : Z }.

Definition zeroes : list Z := replicate (Z.to_nat BSIZE) 0.

Definition mkbind {A B} (m : option A) (f : A -> option B) : option B := match m with Some a => f a | None => None end.
Notation "'let%' x := m 'in' k" := (mkbind m (fun x => k))
  (at level 200, x pattern at level 0, m at level 200, k at level 200, right associativity).

(** A sector that was never written cannot be read: the file ends before it. *)
Definition wsect (st : mk) (sec : Z) (buf : list Z) : mk := MkMk (<[sec := buf]> (mk_img st)) (mk_freeinode st) (mk_freeblock st).
Definition rsect (st : mk) (sec : Z) : option (list Z) := mk_img st !! sec.

(** [struct superblock sb] *)
Definition mk_sb : superblock :=
  MkSuperblock (xint FSSIZE) (xint nblocks) (xint NINODES) (xint nlog) (xint 2) (xint (2 + nlog)) (xint (2 + nlog + ninodeblocks)).

(** [memmove(buf, &sb, sizeof(sb))] into a cleared buffer *)
Definition sb_block : list Z :=
  put_addrs 0 [sb_size mk_sb; sb_nblocks mk_sb; sb_ninodes mk_sb; sb_nlog mk_sb; sb_logstart mk_sb; sb_inodestart mk_sb; sb_bmapstart mk_sb] zeroes.

Definition winode (st : mk) (inum : Z) (ip : list Z) : option mk :=
  let bn := IBLOCK inum mk_sb in
  let% buf := rsect st bn in
  Some (wsect st bn (lput (inum mod IPB * 64) ip buf)).

Definition rinode (st : mk) (inum : Z) : option (list Z) :=
  let bn := IBLOCK inum mk_sb in
  let% buf := rsect st bn in
  Some (lget (inum mod IPB * 64) 64 buf).

(** Fields of a [struct dinode]. *)
Definition din_size (din : list Z) : Z := xint (lget32 8 din).
Definition set_din_size (din : list Z) (v : Z) : list Z := lput32 8 (xint v) din.
Definition din_addr (din : list Z) (k : Z) : Z := xint (lget32 (12 + 4 * k) din).
Definition set_din_addr (din : list Z) (k v : Z) : list Z := lput32 (12 + 4 * k) (xint v) din.

Definition mk_ialloc (st : mk) (type : Z) : option (Z * mk) :=
  let inum := mk_freeinode st in
  let st := MkMk (mk_img st) (inum +u 1) (mk_freeblock st) in
  let din := replicate 64 0 in
  let din := lput16 0 (xshort type) din in
  let din := lput16 6 (xshort 1) din in
  let din := set_din_size din 0 in
  let% st := winode st inum din in
  Some (inum, st).

(** [freeblock++] *)
Definition new_block (st : mk) : Z * mk := (mk_freeblock st, MkMk (mk_img st) (mk_freeinode st) (mk_freeblock st +u 1)).

(** The block for block number [fbn] of the file, which may have to be found. *)
Definition iappend_block (st : mk) (din : list Z) (fbn : Z) : option (Z * list Z * mk) :=
  if fbn <? NDIRECT then
    let '(din, st) :=
      if din_addr din fbn =? 0 then let '(b, st) := new_block st in (set_din_addr din fbn b, st) else (din, st) in
    Some (din_addr din fbn, din, st)
  else
    let '(din, st) :=
      if din_addr din NDIRECT =? 0 then let '(b, st) := new_block st in (set_din_addr din NDIRECT b, st) else (din, st) in
    let% indirect := rsect st (din_addr din NDIRECT) in
    let k := fbn - NDIRECT in
    let '(indirect, st) :=
      if lget32 (4 * k) indirect =? 0 then
        let '(b, st) := new_block st in
        let indirect := lput32 (4 * k) (xint b) indirect in
        (indirect, wsect st (din_addr din NDIRECT) indirect)
      else (indirect, st) in
    Some (xint (lget32 (4 * k) indirect), din, st).

(** [while(n > 0)]; the bytes that are left are [p]. *)
Fixpoint iappend_loop (k : nat) (st : mk) (din : list Z) (off : Z) (p : list Z) : option (list Z * Z * mk) :=
  match p with
  | [] => Some (din, off, st)
  | _ =>
      match k with
      | O => None
      | S k' =>
          let fbn := off / BSIZE in
          if negb (fbn <? MAXFILE) then None
          else
            let% (x, din, st) := iappend_block st din fbn in
            let n1 := Z.min (Z.of_nat (length p)) ((fbn + 1) * BSIZE - off) in
            let% buf := rsect st x in
            let st := wsect st x (lput (off - fbn * BSIZE) (take (Z.to_nat n1) p) buf) in
            iappend_loop k' st din (off + n1) (drop (Z.to_nat n1) p)
      end
  end.

Definition iappend (st : mk) (inum : Z) (p : list Z) : option mk :=
  let% din := rinode st inum in
  let% (din, off, st) := iappend_loop (length p) st din (din_size din) p in
  winode st inum (set_din_size din off).

(** The bitmap: the first [used] bits. *)
Fixpoint mark_used (n : nat) (i : Z) (buf : list Z) : list Z :=
  match n with
  | O => buf
  | S n' => mark_used n' (i + 1) (lput8 (i / 8) (Z.lor (lbyte buf (i / 8)) (Z.shiftl 1 (i mod 8))) buf)
  end.

Definition mk_balloc (st : mk) (used : Z) : option mk :=
  if negb (used <? BSIZE * 8) then None
  else Some (wsect st (sb_bmapstart mk_sb) (mark_used (Z.to_nat used) 0 zeroes)).

(** A directory entry: a cleared struct, the number, and the name. *)
Definition mk_entry (inum : Z) (name : list Z) : list Z := mk_dirent (xshort inum) name.

(** The argument without a leading underscore. *)
Definition skip_underscore (name : list Z) : list Z :=
  match name with c :: name' => if c =? ch "_" then name' else name | [] => [] end.

(** [while((cc = read(fd, buf, sizeof(buf))) > 0) iappend(inum, buf, cc)] *)
Fixpoint append_file (k : nat) (st : mk) (inum : Z) (content : list Z) : option mk :=
  match content with
  | [] => Some st
  | _ =>
      match k with
      | O => None
      | S k' =>
          let% st := iappend st inum (take (Z.to_nat BSIZE) content) in
          append_file k' st inum (drop (Z.to_nat BSIZE) content)
      end
  end.

(** The files that are named on the command line, with their contents; a name
    with a slash in it is refused. *)
Fixpoint add_files (st : mk) (rootino : Z) (files : list (list Z * list Z)) : option mk :=
  match files with
  | [] => Some st
  | (name, content) :: files' =>
      if existsb (Z.eqb (ch "/")) name then None
      else
        let name := skip_underscore name in
        let% (inum, st) := mk_ialloc st T_FILE in
        let% st := iappend st rootino (mk_entry inum name) in
        let% st := append_file (length content) st inum content in
        add_files st rootino files'
  end.

(** The image before the first inode: zeros and the super block. *)
Definition blank : mk :=
  let st := MkMk (list_to_map ((fun i => (Z.of_nat i, zeroes)) <$> seq 0 (Z.to_nat FSSIZE))) 1 nmeta in
  wsect st 1 sb_block.

Definition mkfs (files : list (list Z * list Z)) : option mk :=
  let% (rootino, st) := mk_ialloc blank T_DIR in
  if negb (rootino =? ROOTINO) then None
  else
    let% st := iappend st rootino (mk_entry rootino (bytes ".")) in
    let% st := iappend st rootino (mk_entry rootino (bytes "..")) in
    let% st := add_files st rootino files in
    let% din := rinode st rootino in
    let off := din_size din in
    let off := (off / BSIZE + 1) * BSIZE in
    let% st := winode st rootino (set_din_size din off) in
    mk_balloc st (mk_freeblock st).
