(* ===== verification/MkfsFacts.v ===== *)
(** * Building the file system image: blocks and files

    The blocks of a file are named by slots: twelve in the inode, the indirect
    block, and the entries of that block.  The invariant of the image is that no
    block is in two slots and that the blocks that are not in use are zero. *)

From S2P Require Import Prelude State Monad Mem Spinlock ConsoleOut Log Inode Fs Mkfs.

(** ** Bytes *)

Lemma lget32_four a b c d : lget32 0 [a; b; c; d] = a + 256 * b + 65536 * (c + 256 * d).
Proof. reflexivity. Qed.

Lemma xint_small x : is_u32 x -> xint x = x.
Proof.
  intros [H1 H2]. unfold xint. rewrite lget32_four, !Z.shiftr_div_pow2 by lia. unfold u8.
  change (2 ^ 8) with 256. change (2 ^ 16) with 65536. change (2 ^ 24) with 16777216.
  replace (x / 16777216) with (x / 256 / 256 / 256) by (rewrite !Z.div_div by lia; done).
  replace (x / 65536) with (x / 256 / 256) by (rewrite Z.div_div by lia; done).
  assert (E : x / 256 / 256 / 256 mod 256 = x / 256 / 256 / 256).
  { apply Z.mod_small. rewrite !Z.div_div by lia. split; [apply Z.div_pos; lia|apply Z.div_lt_upper_bound; lia]. }
  rewrite E. pose proof (Z.div_mod x 256). pose proof (Z.div_mod (x / 256) 256). pose proof (Z.div_mod (x / 256 / 256) 256). lia.
Qed.

Lemma xint_0 : xint 0 = 0.
Proof. reflexivity. Qed.

Lemma lget32_range off l : bytes_ok l -> is_u32 (lget32 off l).
Proof.
  intros H. unfold is_u32, lget32, lget16. pose proof (lbyte_range l off H). pose proof (lbyte_range l (off + 1) H).
  pose proof (lbyte_range l (off + 2) H). pose proof (lbyte_range l (off + 2 + 1) H). lia.
Qed.

Lemma bytes_ok_lput off bs l : bytes_ok bs -> bytes_ok l -> bytes_ok (lput off bs l).
Proof. intros H1 H2. unfold bytes_ok, lput. rewrite !Forall_app. split_and!; [by apply Forall_take|done|by apply Forall_drop]. Qed.

Lemma bytes_ok_lget off n l : bytes_ok l -> bytes_ok (lget off n l).
Proof. intros H. by apply Forall_take, Forall_drop. Qed.

Lemma lbyte_zeroes n o : lbyte (replicate n 0) o = 0.
Proof. unfold lbyte. destruct (decide (Z.to_nat o < n)%nat); [by rewrite lookup_replicate_2|by rewrite lookup_ge_None_2 by (rewrite length_replicate; lia)]. Qed.

Lemma lget32_zeroes n o : lget32 o (replicate n 0) = 0.
Proof. unfold lget32, lget16. by rewrite !lbyte_zeroes. Qed.

(** ** Slots *)

Abbreviation image := (gmap Z (list Z)).

Definition blk (img : image) (b : Z) : list Z := default [] (img !! b).

(** The indirect block of a file. *)
Definition indirect_of (din : list Z) : Z := lget32 60 din.

Definition slot (img : image) (din : list Z) (k : Z) : Z :=
  if k <? 13 then lget32 (12 + 4 * k) din
  else if indirect_of din =? 0 then 0
  else lget32 (4 * (k - 13)) (blk img (indirect_of din)).

(** The slot of block number [f] of a file. *)
Definition data_slot (f : Z) : Z := if f <? 12 then f else f + 1.

Definition is_slot (k : Z) : Prop := 0 <= k < 141.

Lemma data_slot_inj f g : 0 <= f -> 0 <= g -> data_slot f = data_slot g -> f = g.
Proof. unfold data_slot. intros Hf Hg. destruct (Z.ltb_spec f 12), (Z.ltb_spec g 12); lia. Qed.
Lemma data_slot_ok f : 0 <= f < 140 -> is_slot (data_slot f) /\ data_slot f <> 12.
Proof. unfold data_slot, is_slot. destruct (Z.ltb_spec f 12); lia. Qed.

Definition image_ok (img : image) : Prop :=
  (forall b, 0 <= b < FSSIZE -> exists l, img !! b = Some l /\ length l = 512%nat /\ bytes_ok l) /\
  (forall b, ~ (0 <= b < FSSIZE) -> img !! b = None).

Lemma image_blk img b : image_ok img -> 0 <= b < FSSIZE -> img !! b = Some (blk img b) /\ length (blk img b) = 512%nat /\ bytes_ok (blk img b).
Proof. intros [H _] Hb. destruct (H b Hb) as (l & E & H1 & H2). unfold blk. rewrite E. done. Qed.

Lemma image_ok_insert img b l : image_ok img -> 0 <= b < FSSIZE -> length l = 512%nat -> bytes_ok l -> image_ok (<[b := l]> img).
Proof.
  intros [H1 H2] Hb Hl Hok. split.
  - intros b' Hb'. destruct (decide (b = b')) as [<-|Hne]; [rewrite lookup_insert_eq; eauto|rewrite lookup_insert_ne by done; auto].
  - intros b' Hb'. rewrite lookup_insert_ne by lia. auto.
Qed.

Lemma blk_insert img b l : blk (<[b := l]> img) b = l.
Proof. unfold blk. by rewrite lookup_insert_eq. Qed.
Lemma blk_insert_ne img b b' l : b <> b' -> blk (<[b := l]> img) b' = blk img b'.
Proof. intros H. unfold blk. by rewrite lookup_insert_ne. Qed.

(** [V i] are the bytes of inode [i], for the inodes below [fi]; blocks below
    [fb] are in use. *)
Record files_inv (img : image) (fi fb : Z) (V : Z -> list Z) : Prop := {
  fv_img : image_ok img;
  fv_fb : nmeta <= fb <= FSSIZE;
  fv_din : forall i, 1 <= i < fi -> length (V i) = 64%nat /\ bytes_ok (V i);
  fv_range : forall i k, 1 <= i < fi -> is_slot k -> slot img (V i) k = 0 \/ nmeta <= slot img (V i) k < fb;
  fv_inj : forall i j k l, 1 <= i < fi -> 1 <= j < fi -> is_slot k -> is_slot l ->
    slot img (V i) k = slot img (V j) l -> slot img (V i) k <> 0 -> i = j /\ k = l;
  fv_free : forall b, fb <= b < FSSIZE -> img !! b = Some zeroes
}.

Definition upd {A} (V : Z -> A) (i : Z) (x : A) : Z -> A := fun j => if decide (j = i) then x else V j.
Lemma mk_upd_eq {A} (V : Z -> A) i x : upd V i x i = x.
Proof. unfold upd. by rewrite decide_True. Qed.
Lemma mk_upd_ne {A} (V : Z -> A) i j x : j <> i -> upd V i x j = V j.
Proof. intros H. unfold upd. by rewrite decide_False. Qed.

(** The next free block goes into slot [k] of inode [i]. *)
Lemma files_inv_alloc img img' fi fb V i k din' :
  files_inv img fi fb V -> fb < FSSIZE -> 1 <= i < fi -> is_slot k -> slot img (V i) k = 0 ->
  image_ok img' -> length din' = 64%nat -> bytes_ok din' ->
  (forall l, is_slot l -> slot img' din' l = if decide (l = k) then fb else slot img (V i) l) ->
  (forall j l, 1 <= j < fi -> j <> i -> is_slot l -> slot img' (V j) l = slot img (V j) l) ->
  (forall b, fb < b < FSSIZE -> img' !! b = img !! b) ->
  files_inv img' fi (fb + 1) (upd V i din').
Proof.
  intros [H1 H2 H3 H4 H5 H6] Hfb Hi Hk H0 Hok Hl Hb Hs Ho Hfree. assert (Hnm : nmeta = 59) by reflexivity.
  assert (Hslot : forall j l, 1 <= j < fi -> is_slot l -> slot img' (upd V i din' j) l = if decide (j = i /\ l = k) then fb else slot img (V j) l).
  { intros j l Hj Hsl. destruct (decide (j = i)) as [->|Hne].
    - rewrite mk_upd_eq, Hs by done. repeat case_decide; tauto.
    - rewrite mk_upd_ne, Ho by done. rewrite decide_False; [done|tauto]. }
  split; [done|lia| | | |].
  - intros j Hj. destruct (decide (j = i)) as [->|Hne]; [by rewrite mk_upd_eq|rewrite mk_upd_ne by done; auto].
  - intros j l Hj Hsl. rewrite Hslot by done. case_decide; [lia|]. destruct (H4 j l Hj Hsl); lia.
  - intros j1 j2 k1 k2 Hj1 Hj2 Hk1 Hk2. rewrite !Hslot by done. pose proof (H4 j1 k1 Hj1 Hk1) as R1. pose proof (H4 j2 k2 Hj2 Hk2) as R2.
    destruct (decide (j1 = i /\ k1 = k)) as [[-> ->]|D1], (decide (j2 = i /\ k2 = k)) as [[-> ->]|D2]; [done|lia|lia|by apply H5].
  - intros b Hb'. rewrite Hfree by lia. apply H6. lia.
Qed.

(** ** Changes to slots *)

Lemma lget32_lput32 off off' v l : is_u32 v -> 0 <= off -> off + 4 <= Z.of_nat (length l) -> 0 <= off' ->
  off' = off \/ off' + 4 <= off \/ off + 4 <= off' ->
  lget32 off' (lput32 off v l) = if decide (off' = off) then v else lget32 off' l.
Proof.
  intros Hv H1 H2 H3 H4. destruct (decide (off' = off)) as [->|Hne].
  - rewrite lget32_lput32_eq by done. by apply u32_small.
  - apply lget32_lput32_ne; [done|done|done|lia].
Qed.

(** A new address in the inode. *)
Lemma slot_set_addr img din k v l : length din = 64%nat -> 0 <= k < 13 -> is_u32 v -> is_slot l ->
  (k = 12 -> indirect_of din = 0 /\ img !! v = Some zeroes) ->
  slot img (set_din_addr din k v) l = if decide (l = k) then v else slot img din l.
Proof.
  intros Hlen Hk Hv Hl H12. unfold set_din_addr. rewrite (xint_small v Hv). unfold slot, indirect_of, is_slot in *.
  assert (E60 : lget32 60 (lput32 (12 + 4 * k) v din) = if decide (k = 12) then v else lget32 60 din).
  { rewrite lget32_lput32 by (done || lia). repeat case_decide; try lia; done. }
  destruct (Z.ltb_spec l 13) as [Hl13|Hl13].
  - rewrite lget32_lput32 by (done || lia). repeat case_decide; try lia; done.
  - rewrite E60. rewrite (decide_False (P := l = k)) by lia. case_decide as Ek; [|done]. destruct (H12 Ek) as [E0 Ez]. rewrite E0. cbn.
    destruct (Z.eqb_spec v 0); [done|]. unfold blk. rewrite Ez. apply lget32_zeroes.
Qed.

(** A new entry in the indirect block. *)
Lemma slot_set_entry img din k v l : length (blk img (indirect_of din)) = 512%nat -> indirect_of din <> 0 -> 13 <= k < 141 ->
  is_u32 v -> is_slot l ->
  slot (<[indirect_of din := lput32 (4 * (k - 13)) v (blk img (indirect_of din))]> img) din l =
  if decide (l = k) then v else slot img din l.
Proof.
  intros Hlen Hne Hk Hv Hl. unfold slot, is_slot in *. destruct (Z.ltb_spec l 13) as [Hl13|Hl13]; [by rewrite decide_False by lia|].
  rewrite (proj2 (Z.eqb_neq _ _) Hne), blk_insert. rewrite lget32_lput32 by (done || lia). repeat case_decide; try lia; done.
Qed.

(** The slots of a file do not depend on other blocks than its indirect one. *)
Lemma slot_same_block img b l din k : (indirect_of din <> 0 -> b <> indirect_of din) -> slot (<[b := l]> img) din k = slot img din k.
Proof.
  intros H. unfold slot. destruct (k <? 13); [done|]. destruct (Z.eqb_spec (indirect_of din) 0) as [E|E]; [done|].
  by rewrite blk_insert_ne by auto.
Qed.

Lemma slot_indirect img din : slot img din 12 = indirect_of din.
Proof. reflexivity. Qed.

(** ** What happens to one file leaves the others alone *)

Record grows (img : image) (din : list Z) (img' : image) (din' : list Z) : Prop := {
  gr_slots : forall k, is_slot k -> slot img din k <> 0 -> slot img' din' k = slot img din k;
  gr_blocks : forall b, img' !! b = img !! b \/ exists k, is_slot k /\ slot img' din' k = b /\ b <> 0;
  gr_head : forall o, 0 <= o < 12 -> lbyte din' o = lbyte din o
}.

Lemma mk_grows_refl img din : grows img din img din.
Proof. split; auto. Qed.

Lemma mk_grows_trans img din img1 din1 img2 din2 : grows img din img1 din1 -> grows img1 din1 img2 din2 -> grows img din img2 din2.
Proof.
  intros [A1 A2 A3] [B1 B2 B3]. split.
  - intros k Hk H. rewrite B1; [by apply A1|done|by rewrite A1].
  - intros b. destruct (B2 b) as [E|?]; [|by right]. rewrite E. destruct (A2 b) as [?|(k & Hk & E' & Hb)]; [by left|].
    right. exists k. split_and!; [done| |done]. rewrite B1; [done|done|by rewrite E'].
  - intros o Ho. by rewrite B3, A3.
Qed.

(** Another inode has the same slots and the same blocks. *)
Lemma grows_other img din img' fi fb V i j : files_inv img' fi fb V -> grows img din img' (V i) -> 1 <= i < fi -> 1 <= j < fi -> j <> i ->
  (forall k, is_slot k -> slot img' (V j) k = slot img (V j) k) /\
  (forall k, is_slot k -> slot img (V j) k <> 0 -> blk img' (slot img (V j) k) = blk img (slot img (V j) k)).
Proof.
  intros Hv [_ Hb _] Hi Hj Hne.
  assert (Hsame : forall k, is_slot k -> slot img' (V j) k <> 0 -> img' !! slot img' (V j) k = img !! slot img' (V j) k).
  { intros k Hk H0. destruct (Hb (slot img' (V j) k)) as [?|(l & Hl & E & _)]; [done|].
    destruct (fv_inj _ _ _ _ Hv i j l k Hi Hj Hl Hk E) as [? _]; [by rewrite E|congruence]. }
  assert (Hslots : forall k, is_slot k -> slot img' (V j) k = slot img (V j) k).
  { intros k Hk. unfold slot. destruct (k <? 13); [done|]. destruct (Z.eqb_spec (indirect_of (V j)) 0) as [E|E]; [done|].
    unfold blk. specialize (Hsame 12 ltac:(unfold is_slot; lia)). rewrite slot_indirect in Hsame. by rewrite Hsame. }
  split; [done|]. intros k Hk H0. unfold blk. rewrite <- (Hslots k Hk) in *. by rewrite Hsame.
Qed.

Lemma files_inv_ext img fi fb V V' : (forall j, 1 <= j < fi -> V j = V' j) -> files_inv img fi fb V -> files_inv img fi fb V'.
Proof.
  intros E [H1 H2 H3 H4 H5 H6]. split; try done.
  - intros i Hi. rewrite <- E by done. auto.
  - intros i k Hi Hk. rewrite <- E by done. auto.
  - intros i j k l Hi Hj. rewrite <- !E by done. by apply H5.
Qed.

Lemma upd_upd img fi fb V i x y : files_inv img fi fb (upd (upd V i x) i y) -> files_inv img fi fb (upd V i y).
Proof. apply files_inv_ext. intros j _. unfold upd. by case_decide. Qed.

(** ** Finding a block for a file *)

Section block.
Variables (fi : Z) (V : Z -> list Z) (i : Z).
Hypothesis Hi : 1 <= i < fi.

(** The file has the bytes [din] in its inode, and the other inodes are as in [V]. *)
Definition growing (img : image) (fb : Z) (din : list Z) : Prop := files_inv img fi fb (upd V i din).

Lemma growing_din img fb din : growing img fb din -> length din = 64%nat /\ bytes_ok din.
Proof. intros H. pose proof (fv_din _ _ _ _ H i Hi) as Hd. by rewrite mk_upd_eq in Hd. Qed.

Lemma growing_slot img fb din k : growing img fb din -> is_slot k -> slot img din k = 0 \/ nmeta <= slot img din k < fb.
Proof. intros H Hk. pose proof (fv_range _ _ _ _ H i k Hi Hk) as Hd. by rewrite mk_upd_eq in Hd. Qed.

Lemma alloc_addr img fb din k : growing img fb din -> fb < FSSIZE -> 0 <= k < 13 -> slot img din k = 0 ->
  let din' := set_din_addr din k fb in
  growing img (fb + 1) din' /\ grows img din img din' /\ forall l, is_slot l -> slot img din' l = if decide (l = k) then fb else slot img din l.
Proof.
  intros H Hfb Hk H0 din'. destruct (growing_din _ _ _ H) as [Hlen Hok]. pose proof (fv_fb _ _ _ _ H) as Hrange.
  assert (Hn : nmeta = 59) by reflexivity. assert (HF : FSSIZE = 1000) by reflexivity.
  assert (Hu : is_u32 fb) by (unfold is_u32; lia).
  assert (Hs : forall l, is_slot l -> slot img din' l = if decide (l = k) then fb else slot img din l).
  { intros l Hl. apply slot_set_addr; [done|done|done|done|]. intros ->. rewrite slot_indirect in H0. split; [done|].
    apply (fv_free _ _ _ _ H). lia. }
  assert (Hlen' : length din' = 64%nat) by (unfold din', set_din_addr; by rewrite length_lput32).
  split_and!; [| |exact Hs].
  - eapply upd_upd. eapply (files_inv_alloc img img fi fb (upd V i din) i k din'); try done.
    + unfold is_slot. lia.
    + by rewrite mk_upd_eq.
    + apply (fv_img _ _ _ _ H).
    + by apply bytes_ok_lput32.
    + intros l Hl. by rewrite mk_upd_eq, Hs.
  - split; [|by left|].
    + intros l Hl Hne. rewrite Hs by done. case_decide; [congruence|done].
    + intros o Ho. unfold din', set_din_addr. rewrite lbyte_lput32_ne; [done|lia|lia|lia|lia].
Qed.

Lemma alloc_entry img fb din k : growing img fb din -> fb < FSSIZE -> 13 <= k < 141 -> indirect_of din <> 0 -> slot img din k = 0 ->
  let img' := <[indirect_of din := lput32 (4 * (k - 13)) fb (blk img (indirect_of din))]> img in
  growing img' (fb + 1) din /\ grows img din img' din /\ forall l, is_slot l -> slot img' din l = if decide (l = k) then fb else slot img din l.
Proof.
  intros H Hfb Hk Hne H0 img'. destruct (growing_din _ _ _ H) as [Hlen Hok]. pose proof (fv_fb _ _ _ _ H) as Hrange.
  assert (Hn : nmeta = 59) by reflexivity. assert (HF : FSSIZE = 1000) by reflexivity.
  assert (Hu : is_u32 fb) by (unfold is_u32; lia).
  destruct (growing_slot img fb din 12 H ltac:(unfold is_slot; lia)) as [E|Hind]; rewrite slot_indirect in *; [done|].
  destruct (image_blk img (indirect_of din) (fv_img _ _ _ _ H) ltac:(lia)) as (_ & Hbl & Hbok).
  assert (Hs : forall l, is_slot l -> slot img' din l = if decide (l = k) then fb else slot img din l).
  { intros l Hl. by apply slot_set_entry. }
  split_and!; [| |exact Hs].
  - eapply upd_upd. eapply (files_inv_alloc img img' fi fb (upd V i din) i k din); try done.
    + unfold is_slot. lia.
    + by rewrite mk_upd_eq.
    + apply image_ok_insert; [apply (fv_img _ _ _ _ H)|lia|by rewrite length_lput32|by apply bytes_ok_lput32].
    + intros l Hl. by rewrite mk_upd_eq, Hs.
    + intros j l Hj Hji Hl. apply slot_same_block. intros Hj0 Ej. rewrite mk_upd_ne in * by done.
      destruct (fv_inj _ _ _ _ H i j 12 12 Hi Hj) as [? _]; [unfold is_slot; lia|unfold is_slot; lia| | |congruence];
        rewrite mk_upd_eq, ?mk_upd_ne, !slot_indirect by done; done.
    + intros b Hb. unfold img'. rewrite lookup_insert_ne by lia. done.
  - split; [| |done].
    + intros l Hl Hl0. rewrite Hs by done. case_decide; [congruence|done].
    + intros b. destruct (decide (b = indirect_of din)) as [->|Hb]; [|left; unfold img'; by rewrite lookup_insert_ne].
      right. exists 12. split_and!; [unfold is_slot; lia|done|done].
Qed.

(** The file has the blocks of its first [n] bytes, and an indirect block if
    they need one. *)
Definition extent (img : image) (din : list Z) (n : Z) : Prop :=
  (forall f, 0 <= f < 140 -> slot img din (data_slot f) <> 0 <-> f * 512 < n) /\ (indirect_of din <> 0 <-> 12 * 512 < n).

(** The number of blocks that a file of [n] bytes takes. *)
Definition cost (n : Z) : Z := (n + 511) / 512 + (if 6144 <? n then 1 else 0).

Lemma din_addr_slot img fb din k : growing img fb din -> 0 <= k < 13 -> din_addr din k = slot img din k.
Proof.
  intros H Hk. unfold din_addr, slot. rewrite (proj2 (Z.ltb_lt k 13)) by lia. apply xint_small, lget32_range.
  by apply (growing_din _ _ _ H).
Qed.

(** The step from a file of [n] bytes to one of [n'], where block [f] is the one
    that the new bytes are in: [x] is that block. *)
Record block_step (st : mk) (din : list Z) (n n' f : Z) (x : Z) (din' : list Z) (st' : mk) : Prop := {
  bs_growing : growing (mk_img st') (mk_freeblock st') din';
  bs_grows : grows (mk_img st) din (mk_img st') din';
  bs_inode : mk_freeinode st' = mk_freeinode st;
  bs_cost : mk_freeblock st' = mk_freeblock st + (cost n' - cost n);
  bs_slot : slot (mk_img st') din' (data_slot f) = x /\ x <> 0;
  bs_extent : extent (mk_img st') din' n';
  bs_data : forall g, 0 <= g < 140 -> slot (mk_img st) din (data_slot g) <> 0 ->
    blk (mk_img st') (slot (mk_img st) din (data_slot g)) = blk (mk_img st) (slot (mk_img st) din (data_slot g));
  bs_new : n mod 512 = 0 -> blk (mk_img st') x = zeroes
}.

Lemma cost_mono n n' : n <= n' -> cost n <= cost n'.
Proof.
  intros H. unfold cost. pose proof (Z.div_le_mono (n + 511) (n' + 511) 512 ltac:(lia) ltac:(lia)).
  destruct (Z.ltb_spec 6144 n), (Z.ltb_spec 6144 n'); lia.
Qed.

Lemma cost_same n n' : 0 < n -> n mod 512 <> 0 -> n < n' <= (n / 512 + 1) * 512 -> cost n' = cost n.
Proof.
  intros H0 Hm Hn. unfold cost. pose proof (Z.div_mod n 512). pose proof (Z.mod_pos_bound n 512).
  replace ((n' + 511) / 512) with ((n + 511) / 512) by (Z.div_mod_to_equations; lia).
  destruct (Z.ltb_spec 6144 n), (Z.ltb_spec 6144 n'); Z.div_mod_to_equations; lia.
Qed.

Lemma cost_next n n' : 0 <= n -> n mod 512 = 0 -> n < n' <= (n / 512 + 1) * 512 ->
  cost n' = cost n + (if decide (n = 6144) then 2 else 1).
Proof.
  intros H0 Hm Hn. unfold cost.
  replace ((n' + 511) / 512) with ((n + 511) / 512 + 1) by (Z.div_mod_to_equations; lia).
  destruct (decide (n = 6144)) as [->|Hne].
  - rewrite (proj2 (Z.ltb_lt 6144 n')) by lia. change (6144 <? 6144) with false. lia.
  - destruct (Z.ltb_spec 6144 n), (Z.ltb_spec 6144 n'); Z.div_mod_to_equations; lia.
Qed.

(** The block is there already. *)
Lemma step_same st din n n' f : growing (mk_img st) (mk_freeblock st) din -> extent (mk_img st) din n ->
  0 < n -> n mod 512 <> 0 -> f = n / 512 -> f < 140 -> n < n' <= (f + 1) * 512 ->
  block_step st din n n' f (slot (mk_img st) din (data_slot f)) din st.
Proof.
  intros Hg [He1 He2] Hn Hm -> Hf Hn'. assert (H0 : 0 <= n / 512) by (apply Z.div_pos; lia).
  pose proof (Z.div_mod n 512). pose proof (Z.mod_pos_bound n 512).
  split; [done|apply mk_grows_refl|done|rewrite (cost_same n n') by done; lia|split; [done|apply He1; lia]| |done|done].
  split.
  - intros g Hgr. rewrite He1 by done. lia.
  - rewrite He2. split; [lia|]. intros H6. destruct (decide (12 * 512 < n)); [done|]. exfalso. Z.div_mod_to_equations. lia.
Qed.

(** A block that is found goes into its slot. *)
Lemma step_alloc st din n n' f img' din' fb' :
  growing (mk_img st) (mk_freeblock st) din -> extent (mk_img st) din n -> 0 <= n -> n mod 512 = 0 -> f = n / 512 -> f < 140 ->
  n < n' <= (f + 1) * 512 -> growing img' fb' din' -> grows (mk_img st) din img' din' -> fb' = mk_freeblock st + (cost n' - cost n) ->
  (forall g, 0 <= g < 140 -> slot img' din' (data_slot g) = if decide (g = f) then fb' - 1 else slot (mk_img st) din (data_slot g)) ->
  (indirect_of din' <> 0 <-> indirect_of din <> 0 \/ f = 12) ->
  (forall b, b <> indirect_of din' -> img' !! b = mk_img st !! b) ->
  block_step st din n n' f (fb' - 1) din' (MkMk img' (mk_freeinode st) fb').
Proof.
  intros Hg [He1 He2] Hn Hm Ef Hf Hn' Hg' Hgr Hfb Hs Hind Hb. assert (H0 : 0 <= f) by (subst f; apply Z.div_pos; lia).
  pose proof (Z.div_mod n 512 ltac:(lia)) as Hdm. rewrite Hm, <- Ef in Hdm. assert (Hnm : nmeta = 59) by reflexivity. pose proof (fv_fb _ _ _ _ Hg) as Hr1.
  pose proof (fv_fb _ _ _ _ Hg') as Hr2. pose proof (cost_next n n' Hn Hm ltac:(lia)) as Hc.
  assert (Hpos : fb' - 1 <> 0) by (rewrite Hfb, Hc; case_decide; lia).
  split; cbn [mk_img mk_freeinode mk_freeblock]; [done|done|done|done| | | |].
  - split; [|done]. rewrite Hs by lia. by rewrite decide_True.
  - split.
    + intros g Hgr'. rewrite Hs by done. destruct (decide (g = f)) as [Eg|Eg]; [split; [lia|done]|]. rewrite He1 by done. lia.
    + rewrite Hind, He2. split; [lia|]. intros H6. destruct (decide (f = 12)); [by right|]. left. lia.
  - intros g Hgr' Hne. unfold blk. rewrite Hb; [done|]. intros E.
    assert (E2 : slot img' din' (data_slot g) = slot img' din' 12).
    { rewrite slot_indirect, <- E. apply (gr_slots _ _ _ _ Hgr); [|done]. by apply data_slot_ok. }
    destruct (data_slot_ok g Hgr') as [Hsl Hn12]. pose proof (fv_inj _ _ _ _ Hg' i i (data_slot g) 12 Hi Hi Hsl ltac:(unfold is_slot; lia)) as Hinj.
    rewrite mk_upd_eq in Hinj. destruct (Hinj E2) as [_ ?]; [|done]. rewrite (gr_slots _ _ _ _ Hgr); done.
  - intros _. destruct (data_slot_ok f (conj H0 Hf)) as [Hsl Hn12]. assert (E : slot img' din' (data_slot f) = fb' - 1) by (rewrite Hs by lia; by rewrite decide_True).
    unfold blk. rewrite Hb, (fv_free _ _ _ _ Hg); [done|rewrite Hfb, Hc in *; case_decide; lia|]. intros E2.
    pose proof (fv_inj _ _ _ _ Hg' i i (data_slot f) 12 Hi Hi Hsl ltac:(unfold is_slot; lia)) as Hinj. rewrite mk_upd_eq, slot_indirect, E in Hinj.
    destruct (Hinj E2 Hpos). lia.
Qed.

(** The second half of [iappend_block]: the entry of the indirect block. *)
Definition entry_block (st : mk) (din : list Z) (f : Z) : option (Z * list Z * mk) :=
  let% indirect := rsect st (din_addr din NDIRECT) in
  let k := f - NDIRECT in
  let '(indirect, st) :=
    if lget32 (4 * k) indirect =? 0 then
      let '(b, st) := new_block st in
      let indirect := lput32 (4 * k) (xint b) indirect in
      (indirect, wsect st (din_addr din NDIRECT) indirect)
    else (indirect, st) in
  Some (xint (lget32 (4 * k) indirect), din, st).

Lemma entry_block_ret st din f : growing (mk_img st) (mk_freeblock st) din -> 12 <= f < 140 -> indirect_of din <> 0 ->
  let s := slot (mk_img st) din (f + 1) in
  entry_block st din f =
    if decide (s = 0) then
      Some (xint (u32 (xint (mk_freeblock st))), din,
        MkMk (<[indirect_of din := lput32 (4 * (f + 1 - 13)) (xint (mk_freeblock st)) (blk (mk_img st) (indirect_of din))]> (mk_img st))
          (mk_freeinode st) (mk_freeblock st +u 1))
    else Some (s, din, st).
Proof.
  intros Hg Hf Hne s. assert (Hnm : nmeta = 59) by reflexivity. pose proof (fv_fb _ _ _ _ Hg) as Hr.
  destruct (growing_slot (mk_img st) _ din 12 Hg ltac:(unfold is_slot; lia)) as [E|Hind]; rewrite slot_indirect in *; [done|].
  destruct (image_blk (mk_img st) (indirect_of din) (fv_img _ _ _ _ Hg) ltac:(lia)) as (Hlk & Hbl & Hbok).
  unfold entry_block, rsect. change NDIRECT with 12. rewrite (din_addr_slot _ _ _ 12 Hg) by lia. rewrite slot_indirect, Hlk. cbn [mkbind].
  assert (Es : lget32 (4 * (f - 12)) (blk (mk_img st) (indirect_of din)) = s).
  { unfold s, slot. rewrite (proj2 (Z.ltb_ge (f + 1) 13)) by lia. rewrite (proj2 (Z.eqb_neq _ _) Hne). f_equal. lia. }
  rewrite Es. replace (4 * (f - 12)) with (4 * (f + 1 - 13)) in * by lia. destruct (Z.eqb_spec s 0) as [E0|E0].
  - rewrite decide_True by done. cbn [new_block wsect mk_img mk_freeinode mk_freeblock]. rewrite lget32_lput32_eq by (rewrite ?Hbl; lia). done.
  - rewrite decide_False by done. rewrite Es, xint_small; [done|]. rewrite <- Es. by apply lget32_range.
Qed.

Lemma entry_block_spec st din n n' f : growing (mk_img st) (mk_freeblock st) din -> extent (mk_img st) din n ->
  12 < f < 140 \/ (f = 12 /\ n mod 512 <> 0) -> 0 <= n -> f = n / 512 -> n < n' <= (f + 1) * 512 ->
  mk_freeblock st + (cost n' - cost n) <= FSSIZE ->
  exists x din' st', entry_block st din f = Some (x, din', st') /\ block_step st din n n' f x din' st'.
Proof.
  intros Hg He Hf Hn Ef Hn' Hroom. assert (Hnm : nmeta = 59) by reflexivity. assert (HF : FSSIZE = 1000) by reflexivity.
  pose proof (fv_fb _ _ _ _ Hg) as Hr. pose proof (Z.div_mod n 512 ltac:(lia)) as Hdm. pose proof (Z.mod_pos_bound n 512 ltac:(lia)) as Hmb.
  assert (Hind : indirect_of din <> 0) by (apply He; lia).
  rewrite entry_block_ret by (done || lia). assert (Eds : data_slot f = f + 1) by (unfold data_slot; destruct (Z.ltb_spec f 12); lia).
  rewrite <- Eds. destruct (decide (n mod 512 = 0)) as [Hm|Hm].
  - assert (Hs0 : slot (mk_img st) din (data_slot f) = 0).
    { destruct (decide (slot (mk_img st) din (data_slot f) = 0)) as [?|Hx]; [done|]. apply He in Hx; lia. }
    rewrite decide_True by done. pose proof (cost_next n n' Hn Hm ltac:(lia)) as Hc. rewrite decide_False in Hc by lia.
    rewrite Eds in Hs0 |- *. destruct (alloc_entry (mk_img st) (mk_freeblock st) din (f + 1) Hg ltac:(lia) ltac:(lia) Hind Hs0) as (A1 & A2 & A3).
    assert (Hu : is_u32 (mk_freeblock st)) by (unfold is_u32; lia). rewrite (xint_small _ Hu), !u32_small, (xint_small _ Hu) by lia.
    exists (mk_freeblock st + 1 - 1), din. eexists (MkMk _ (mk_freeinode st) (mk_freeblock st + 1)). split; [do 3 f_equal; lia|].
    apply step_alloc; [done|done|done|done|done|lia|lia|exact A1|exact A2|lia| | |].
    + intros g Hgr. rewrite A3 by (by apply data_slot_ok). rewrite <- Eds. destruct (decide (g = f)) as [->|Hgf].
      * rewrite decide_True by done. lia.
      * rewrite decide_False; [done|]. intros Eq. apply data_slot_inj in Eq; lia.
    + split; [auto|intros [?|?]; [done|lia]].
    + intros b Hb. by rewrite lookup_insert_ne by done.
  - assert (Hx : slot (mk_img st) din (data_slot f) <> 0) by (apply He; lia).
    rewrite decide_False by done. eexists _, din, st. split; [done|]. apply step_same; try done; lia.
Qed.

(** The first block that is not direct: the indirect block comes with it. *)
Lemma first_indirect_spec st din n' : growing (mk_img st) (mk_freeblock st) din -> extent (mk_img st) din 6144 -> 6144 < n' <= 6656 ->
  mk_freeblock st + 2 <= FSSIZE ->
  exists x din' st', entry_block (MkMk (mk_img st) (mk_freeinode st) (mk_freeblock st + 1)) (set_din_addr din 12 (mk_freeblock st)) 12 = Some (x, din', st') /\
    block_step st din 6144 n' 12 x din' st'.
Proof.
  intros Hg He Hn' Hroom. assert (Hnm : nmeta = 59) by reflexivity. assert (HF : FSSIZE = 1000) by reflexivity.
  pose proof (fv_fb _ _ _ _ Hg) as Hr. set (fb := mk_freeblock st) in *. set (img := mk_img st) in *.
  assert (H0 : slot img din 12 = 0).
  { rewrite slot_indirect. destruct (decide (indirect_of din = 0)); [done|]. destruct He as [_ He]. lia. }
  destruct (alloc_addr img fb din 12 Hg ltac:(lia) ltac:(lia) H0) as (A1 & A2 & A3). set (din1 := set_din_addr din 12 fb) in *.
  assert (Ei : indirect_of din1 = fb) by (rewrite <- (slot_indirect img), A3 by (unfold is_slot; lia); by rewrite decide_True).
  assert (H13 : slot img din1 13 = 0).
  { rewrite A3 by (unfold is_slot; lia). rewrite decide_False by lia. destruct (decide (slot img din 13 = 0)) as [?|Hx]; [done|]. apply (proj1 He 12) in Hx; lia. }
  rewrite entry_block_ret by (done || lia). cbn [mk_img mk_freeblock mk_freeinode]. change (12 + 1) with 13 in *. rewrite decide_True by done.
  destruct (alloc_entry img (fb + 1) din1 13 A1 ltac:(lia) ltac:(lia) ltac:(lia) H13) as (B1 & B2 & B3).
  assert (Hu : is_u32 (fb + 1)) by (unfold is_u32; lia). rewrite (xint_small _ Hu), !u32_small, (xint_small _ Hu) by lia.
  exists (fb + 1 + 1 - 1), din1. eexists (MkMk _ (mk_freeinode st) (fb + 1 + 1)). split; [do 3 f_equal; lia|].
  pose proof (cost_next 6144 n' ltac:(lia) eq_refl ltac:(change (6144 / 512) with 12; lia)) as Hc. rewrite decide_True in Hc by done.
  apply step_alloc; [done|done|lia|done|done|lia|lia|exact B1|by eapply mk_grows_trans|fold fb; lia| | |].
  - intros g Hgr. destruct (data_slot_ok g Hgr) as [Hsl Hn12]. rewrite B3, A3 by done. rewrite (decide_False (P := data_slot g = 12)) by done.
    destruct (decide (g = 12)) as [->|Hgf]; [rewrite decide_True by done; lia|].
    rewrite decide_False; [done|]. intros Eq. apply Hgf, data_slot_inj; [lia|lia|exact Eq].
  - split; [auto|]. rewrite Ei. lia.
  - intros b Hb. by rewrite lookup_insert_ne by done.
Qed.

Lemma direct_spec st din n n' f : growing (mk_img st) (mk_freeblock st) din -> extent (mk_img st) din n -> 0 <= f < 12 -> 0 <= n ->
  f = n / 512 -> n < n' <= (f + 1) * 512 -> mk_freeblock st + (cost n' - cost n) <= FSSIZE ->
  exists x din' st', iappend_block st din f = Some (x, din', st') /\ block_step st din n n' f x din' st'.
Proof.
  intros Hg He Hf Hn Ef Hn' Hroom. assert (Hnm : nmeta = 59) by reflexivity. assert (HF : FSSIZE = 1000) by reflexivity.
  pose proof (fv_fb _ _ _ _ Hg) as Hr. pose proof (Z.div_mod n 512 ltac:(lia)) as Hdm. pose proof (Z.mod_pos_bound n 512 ltac:(lia)) as Hmb.
  assert (Eds : data_slot f = f) by (unfold data_slot; destruct (Z.ltb_spec f 12); lia).
  unfold iappend_block. change NDIRECT with 12. rewrite (proj2 (Z.ltb_lt f 12)) by lia.
  pose proof (din_addr_slot _ _ _ f Hg ltac:(lia)) as Ea. destruct (decide (n mod 512 = 0)) as [Hm|Hm].
  - assert (Hs0 : slot (mk_img st) din f = 0).
    { destruct (decide (slot (mk_img st) din f = 0)) as [?|Hx]; [done|]. rewrite <- Eds in Hx. apply He in Hx; lia. }
    rewrite Ea, Hs0. change (0 =? 0) with true. cbn [new_block]. pose proof (cost_next n n' Hn Hm ltac:(lia)) as Hc. rewrite decide_False in Hc by lia.
    destruct (alloc_addr (mk_img st) (mk_freeblock st) din f Hg ltac:(lia) ltac:(lia) Hs0) as (A1 & A2 & A3).
    rewrite (din_addr_slot _ _ _ f A1), A3, (decide_True (P := f = f)), u32_small by (done || unfold is_slot; lia).
    exists (mk_freeblock st + 1 - 1). do 2 eexists. split; [do 3 f_equal; lia|].
    apply step_alloc; [done|done|done|done|done|lia|lia|exact A1|exact A2|lia| | |done].
    + intros g Hgr. destruct (data_slot_ok g Hgr) as [Hsl Hn12]. rewrite A3 by done. destruct (decide (g = f)) as [->|Hgf].
      * rewrite decide_True by done. lia.
      * rewrite decide_False; [done|]. intros Eq. rewrite <- Eds in Eq. apply data_slot_inj in Eq; lia.
    + rewrite <- (slot_indirect (mk_img st)), A3 by (unfold is_slot; lia). rewrite decide_False, slot_indirect by lia.
      split; [auto|]. intros [?|?]; [done|lia].
  - assert (Hx : slot (mk_img st) din f <> 0) by (rewrite <- Eds; apply He; lia).
    rewrite Ea, (proj2 (Z.eqb_neq _ _) Hx), Ea. do 3 eexists. split; [done|]. rewrite <- Eds at 2. apply step_same; try done; lia.
Qed.

(** [iappend_block] finds the block that byte [n] of the file goes into. *)
Lemma iappend_block_spec st din n n' f : growing (mk_img st) (mk_freeblock st) din -> extent (mk_img st) din n -> 0 <= n ->
  f = n / 512 -> f < 140 -> n < n' <= (f + 1) * 512 -> mk_freeblock st + (cost n' - cost n) <= FSSIZE ->
  exists x din' st', iappend_block st din f = Some (x, din', st') /\ block_step st din n n' f x din' st'.
Proof.
  intros Hg He Hn Ef Hf Hn' Hroom. assert (H0 : 0 <= f) by (subst f; apply Z.div_pos; lia).
  destruct (decide (f < 12)) as [Hd|Hd]; [by apply direct_spec|].
  assert (HF : FSSIZE = 1000) by reflexivity. pose proof (fv_fb _ _ _ _ Hg) as Hr.
  pose proof (Z.div_mod n 512 ltac:(lia)) as Hdm. pose proof (Z.mod_pos_bound n 512 ltac:(lia)) as Hmb.
  unfold iappend_block. change NDIRECT with 12. rewrite (proj2 (Z.ltb_ge f 12)) by lia.
  rewrite (din_addr_slot _ _ _ 12 Hg), slot_indirect by lia. destruct (decide (n = 6144)) as [->|Hne].
  - change (6144 / 512) with 12 in Ef. subst f. pose proof (cost_next 6144 n' ltac:(lia) eq_refl ltac:(change (6144 / 512) with 12; lia)) as Hc.
    rewrite decide_True in Hc by done. rewrite (proj2 (Z.eqb_eq _ _)) by (destruct (decide (indirect_of din = 0)); [done|]; destruct He as [_ He]; lia).
    cbn [new_block]. rewrite u32_small by (assert (nmeta = 59) by reflexivity; lia). apply first_indirect_spec; [done|done|lia|lia].
  - assert (Hind : indirect_of din <> 0) by (apply He; lia). rewrite (proj2 (Z.eqb_neq _ _) Hind).
    apply entry_block_spec; try done. destruct (decide (f = 12)); [right; lia|left; lia].
Qed.

(** ** The bytes of a file *)

(** The blocks of the file hold the bytes [c], and zeros after them. *)
Definition img_bytes (img : image) (din : list Z) (c : list Z) : Prop :=
  forall j, 0 <= j < 140 * 512 -> slot img din (data_slot (j / 512)) <> 0 ->
    lbyte (blk img (slot img din (data_slot (j / 512)))) (j mod 512) = lbyte c j.

Record file_st (img : image) (fb : Z) (din : list Z) (c : list Z) : Prop := {
  fs_growing : growing img fb din;
  fs_extent : extent img din (Z.of_nat (length c));
  fs_bytes : img_bytes img din c
}.

Lemma write_data img fb din f l : growing img fb din -> 0 <= f < 140 -> slot img din (data_slot f) <> 0 -> length l = 512%nat -> bytes_ok l ->
  let img' := <[slot img din (data_slot f) := l]> img in
  growing img' fb din /\ grows img din img' din /\ (forall k, is_slot k -> slot img' din k = slot img din k) /\
  (forall g, 0 <= g < 140 -> g <> f -> blk img' (slot img din (data_slot g)) = blk img (slot img din (data_slot g))).
Proof.
  intros Hg Hf Hne Hl Hok img'. destruct (data_slot_ok f Hf) as [Hsl Hn12]. assert (Hnm : nmeta = 59) by reflexivity.
  pose proof (fv_fb _ _ _ _ Hg) as Hr. destruct (growing_slot _ _ _ _ Hg Hsl) as [?|Hx]; [done|].
  assert (Hs : forall j k, 1 <= j < fi -> is_slot k -> slot img' (upd V i din j) k = slot img (upd V i din j) k).
  { intros j k Hj Hk. apply slot_same_block. intros H0 E.
    destruct (fv_inj _ _ _ _ Hg i j (data_slot f) 12 Hi Hj Hsl ltac:(unfold is_slot; lia)) as [_ ?]; rewrite ?mk_upd_eq, ?slot_indirect; done. }
  split_and!.
  - destruct Hg as [G1 G2 G3 G4 G5 G6]. split; [by apply image_ok_insert; [|lia| |]|done|done| | |].
    + intros j k Hj Hk. rewrite Hs by done. auto.
    + intros j1 j2 k1 k2 Hj1 Hj2 Hk1 Hk2. rewrite !Hs by done. by apply G5.
    + intros b Hb. unfold img'. rewrite lookup_insert_ne by lia. auto.
  - split; [|intros b|done].
    + intros k Hk _. specialize (Hs i k Hi Hk). by rewrite mk_upd_eq in Hs.
    + destruct (decide (b = slot img din (data_slot f))) as [->|Hb]; [|left; unfold img'; by rewrite lookup_insert_ne].
      right. exists (data_slot f). split_and!; [done| |done]. specialize (Hs i (data_slot f) Hi Hsl). by rewrite mk_upd_eq in Hs.
  - intros k Hk. specialize (Hs i k Hi Hk). by rewrite mk_upd_eq in Hs.
  - intros g Hgr Hgf. destruct (decide (slot img din (data_slot g) = slot img din (data_slot f))) as [E|E]; [|by apply blk_insert_ne].
    destruct (data_slot_ok g Hgr) as [Hsg _]. destruct (fv_inj _ _ _ _ Hg i i (data_slot g) (data_slot f) Hi Hi Hsg Hsl) as [_ Eq]; rewrite ?mk_upd_eq; [done|by rewrite E|].
    apply data_slot_inj in Eq; lia.
Qed.

Lemma extent_same img img' din n : (forall k, is_slot k -> slot img' din k = slot img din k) -> extent img din n -> extent img' din n.
Proof. intros H [E1 E2]. split; [|done]. intros f Hf. rewrite H by (by apply data_slot_ok). auto. Qed.

(** The bytes [q] go into the block that the end of the file is in. *)
Lemma append_bytes st din c q f x din1 st1 : file_st (mk_img st) (mk_freeblock st) din c -> bytes_ok q ->
  f = Z.of_nat (length c) / 512 -> f < 140 -> (0 < length q)%nat -> Z.of_nat (length c + length q) <= (f + 1) * 512 ->
  block_step st din (Z.of_nat (length c)) (Z.of_nat (length c + length q)) f x din1 st1 ->
  let img2 := <[x := lput (Z.of_nat (length c) - f * 512) q (blk (mk_img st1) x)]> (mk_img st1) in
  file_st img2 (mk_freeblock st1) din1 (c ++ q) /\ grows (mk_img st) din img2 din1.
Proof.
  intros [Hg He Hb] Hq Ef Hf Hq0 Hqf [B1 B2 B3 B4 [B5 B5'] B6 B7 B8] img2. assert (H0 : 0 <= f) by (subst f; apply Z.div_pos; lia).
  pose proof (Z.div_mod (Z.of_nat (length c)) 512 ltac:(lia)) as Hdm. pose proof (Z.mod_pos_bound (Z.of_nat (length c)) 512 ltac:(lia)) as Hmb.
  rewrite <- Ef in Hdm. assert (Hnm : nmeta = 59) by reflexivity. pose proof (fv_fb _ _ _ _ B1) as Hr.
  assert (Hxr : 0 <= x < FSSIZE) by (destruct (growing_slot _ _ _ _ B1 (proj1 (data_slot_ok f (conj H0 Hf)))); lia).
  destruct (image_blk _ x (fv_img _ _ _ _ B1) Hxr) as (_ & Hbl & Hbok).
  assert (Hlen : length (lput (Z.of_nat (length c) - f * 512) q (blk (mk_img st1) x)) = 512%nat) by (rewrite length_lput; lia).
  rewrite <- B5 in B5'. destruct (write_data (mk_img st1) _ din1 f _ B1 (conj H0 Hf) B5' Hlen (bytes_ok_lput _ _ _ Hq Hbok)) as (W1 & W2 & W3 & W4).
  rewrite B5 in *. fold img2 in W1, W2, W3, W4. split; [|by eapply mk_grows_trans]. split; [done|rewrite length_app; by eapply extent_same|].
  intros j Hj. pose proof (Z.div_mod j 512 ltac:(lia)) as Hjd. pose proof (Z.mod_pos_bound j 512 ltac:(lia)) as Hjm.
  rewrite W3 by (apply data_slot_ok; lia). intros Hne. apply (proj1 B6) in Hne as Hjf; [|lia]. assert (Hjf' : 0 <= j / 512 <= f) by lia.
  assert (Hold : lbyte (blk (mk_img st1) (slot (mk_img st1) din1 (data_slot (j / 512)))) (j mod 512) = lbyte c j).
  { destruct (decide (j / 512 * 512 < Z.of_nat (length c))) as [Hjc|Hjc].
    - assert (Hs : slot (mk_img st) din (data_slot (j / 512)) <> 0) by (apply He; lia).
      rewrite (gr_slots _ _ _ _ B2) by (done || apply data_slot_ok; lia). rewrite B7 by (done || lia). by apply Hb.
    - replace (j / 512) with f by lia. rewrite B5, B8 by lia. unfold zeroes. rewrite lbyte_zeroes. unfold lbyte. by rewrite lookup_ge_None_2 by lia. }
  destruct (decide (j / 512 = f)) as [Ejf|Ejf].
  - rewrite Ejf, B5 in *. unfold img2. rewrite blk_insert, lbyte_lput, lbyte_app by lia.
    destruct (decide (j < Z.of_nat (length c))); [rewrite decide_False by lia; done|]. case_decide; [f_equal; lia|].
    rewrite Hold. unfold lbyte. by rewrite !lookup_ge_None_2 by lia.
  - rewrite W4 by lia. rewrite Hold, lbyte_app by lia. by rewrite decide_True by lia.
Qed.

(** One turn of the loop of [iappend]: the [m] bytes that fit into the block. *)
Lemma iappend_round st din c p : file_st (mk_img st) (mk_freeblock st) din c -> bytes_ok p -> (0 < length p)%nat ->
  Z.of_nat (length c + length p) <= 140 * 512 ->
  mk_freeblock st + (cost (Z.of_nat (length c + length p)) - cost (Z.of_nat (length c))) <= FSSIZE ->
  let n := Z.of_nat (length c) in let f := n / 512 in let m := Z.min (Z.of_nat (length p)) ((f + 1) * 512 - n) in
  0 < m /\ exists x din1 st1, iappend_block st din f = Some (x, din1, st1) /\ rsect st1 x = Some (blk (mk_img st1) x) /\
    let st2 := wsect st1 x (lput (n - f * 512) (take (Z.to_nat m) p) (blk (mk_img st1) x)) in
    file_st (mk_img st2) (mk_freeblock st2) din1 (c ++ take (Z.to_nat m) p) /\ grows (mk_img st) din (mk_img st2) din1 /\
    mk_freeinode st2 = mk_freeinode st /\ mk_freeblock st2 = mk_freeblock st + (cost (n + m) - cost n).
Proof.
  intros Hst Hp Hpl Hmax Hroom n f m. fold n in Hroom. pose proof (Z.div_mod n 512 ltac:(lia)) as Hdm.
  pose proof (Z.mod_pos_bound n 512 ltac:(lia)) as Hmb. fold f in Hdm. assert (Hm : 0 < m <= Z.of_nat (length p)) by lia.
  split; [lia|]. set (q := take (Z.to_nat m) p). assert (Hql : Z.of_nat (length q) = m) by (unfold q; rewrite length_take; lia).
  pose proof (cost_mono (n + m) (Z.of_nat (length c + length p)) ltac:(lia)) as Hcm.
  assert (Hlcq : Z.of_nat (length c + length q) = n + m) by lia.
  destruct (iappend_block_spec st din n (n + m) f (fs_growing _ _ _ _ Hst) (fs_extent _ _ _ _ Hst) ltac:(lia) eq_refl ltac:(lia) ltac:(lia) ltac:(lia)) as (x & din1 & st1 & Eb & Hstep).
  destruct (append_bytes st din c q f x din1 st1 Hst (Forall_take _ _ _ Hp) eq_refl ltac:(lia) ltac:(lia) ltac:(lia) ltac:(by rewrite Hlcq)) as [Hst2 Hgr].
  destruct Hstep as [B1 _ B3 B4 [B5 B5'] _ _ _]. rewrite <- B5 in B5'.
  assert (Hxr : 0 <= x < FSSIZE).
  { pose proof (fv_fb _ _ _ _ B1). assert (nmeta = 59) by reflexivity. destruct (growing_slot _ _ _ _ B1 (proj1 (data_slot_ok f ltac:(lia)))); lia. }
  destruct (image_blk _ x (fv_img _ _ _ _ B1) Hxr) as (Ex & _ & _). exists x, din1, st1. by split_and!.
Qed.

(** The loop of [iappend] puts [p] behind the bytes [c] of the file. *)
Lemma iappend_loop_spec p : forall k st din c, file_st (mk_img st) (mk_freeblock st) din c -> bytes_ok p -> (length p <= k)%nat ->
  Z.of_nat (length c + length p) <= 140 * 512 ->
  mk_freeblock st + (cost (Z.of_nat (length c + length p)) - cost (Z.of_nat (length c))) <= FSSIZE ->
  exists din' st', iappend_loop k st din (Z.of_nat (length c)) p = Some (din', Z.of_nat (length c + length p), st') /\
    file_st (mk_img st') (mk_freeblock st') din' (c ++ p) /\ grows (mk_img st) din (mk_img st') din' /\ mk_freeinode st' = mk_freeinode st /\
    mk_freeblock st' = mk_freeblock st + (cost (Z.of_nat (length c + length p)) - cost (Z.of_nat (length c))).
Proof.
  induction (Nat.lt_wf_0_projected (@length Z) p) as [p _ IH]. intros k st din c Hst Hp Hk Hmax Hroom. destruct p as [|b p'].
  { destruct k; cbn [iappend_loop length]; rewrite app_nil_r, Nat.add_0_r; exists din, st; (split_and!; [done|done|apply mk_grows_refl|done|lia]). }
  set (p := b :: p') in *. destruct k as [|k]; [cbn in Hk; lia|].
  destruct (iappend_round st din c p Hst Hp ltac:(cbn; lia) Hmax Hroom) as (Hm & x & din1 & st1 & Eb & Ex & R1 & R2 & R3 & R4).
  set (n := Z.of_nat (length c)) in *. set (f := n / 512) in *. set (m := Z.min _ _) in *. set (st2 := wsect _ _ _) in *.
  assert (Hq : Z.of_nat (length (c ++ take (Z.to_nat m) p)) = n + m) by (rewrite length_app, length_take; lia).
  assert (Hr : Z.of_nat (length (drop (Z.to_nat m) p)) = Z.of_nat (length p) - m) by (rewrite length_drop; lia).
  destruct (IH (drop (Z.to_nat m) p) ltac:(lia) k st2 din1 (c ++ take (Z.to_nat m) p) R1 (Forall_drop _ _ _ Hp)) as (din' & st' & El & A1 & A2 & A3 & A4);
    [lia|lia|rewrite Nat2Z.inj_add, Hq, Hr, R4; replace (n + m + (Z.of_nat (length p) - m)) with (Z.of_nat (length c + length p)) by lia; lia|].
  rewrite Nat2Z.inj_add, Hq, Hr in El, A4. replace (n + m + (Z.of_nat (length p) - m)) with (Z.of_nat (length c + length p)) in * by lia.
  exists din', st'. split_and!.
  - cbn [iappend_loop]. unfold p at 1. change BSIZE with 512. change MAXFILE with 140. fold f.
    rewrite (proj2 (Z.ltb_lt f 140)) by (apply Z.div_lt_upper_bound; cbn in Hmax; lia). cbn [negb]. rewrite Eb. cbn [mkbind]. rewrite Ex. exact El.
  - rewrite <- app_assoc, take_drop in A1. done.
  - by eapply mk_grows_trans.
  - congruence.
  - rewrite A4, R4. lia.
Qed.
End block.
