(* ===== verification/MkfsImage.v ===== *)
(** * Building the file system image: inodes and the whole run

    The image holds the inodes that [mk_ialloc] has given out, in order, each
    with the bytes that were appended to it.  The operations of [mkfs] change
    that list of files and keep everything else. *)

From Stdlib Require Import Ascii String.
From S2P Require Import Prelude State Monad Mem Spinlock ConsoleOut Log Inode Fs FsFacts Mkfs MkfsFacts.

(** The bytes of inode [j] in the image. *)
Definition inode_of (img : image) (j : Z) : list Z := lget (j mod 8 * 64) 64 (blk img (j / 8 + 32)).

(** A file of type [fst f] with the bytes [snd f]. *)
Record file_is (img : image) (din : list Z) (f : Z * list Z) : Prop := {
  fi_type : lget16 0 din = fst f;
  fi_major : lget16 2 din = 0 /\ lget16 4 din = 0;
  fi_nlink : lget16 6 din = 1;
  fi_size : lget32 8 din = Z.of_nat (length (snd f));
  fi_extent : extent img din (Z.of_nat (length (snd f)));
  fi_bytes : img_bytes img din (snd f)
}.

(** The number of blocks of a list of files. *)
Definition total (cs : list (Z * list Z)) : Z := foldr (fun f n => cost (Z.of_nat (length (snd f))) + n) 0 cs.

Record mk_inv (st : mk) (cs : list (Z * list Z)) : Prop := {
  mi_freeinode : mk_freeinode st = 1 + Z.of_nat (length cs);
  mi_inodes : (length cs <= 199)%nat;
  mi_freeblock : mk_freeblock st = nmeta + total cs;
  mi_files : files_inv (mk_img st) (mk_freeinode st) (mk_freeblock st) (inode_of (mk_img st));
  mi_is : forall i f, cs !! i = Some f -> file_is (mk_img st) (inode_of (mk_img st) (1 + Z.of_nat i)) f;
  mi_unused : forall j, mk_freeinode st <= j < 208 -> inode_of (mk_img st) j = replicate 64 0;
  mi_front : forall b, 0 <= b < 32 -> mk_img st !! b = mk_img blank !! b
}.

(** ** Inodes and blocks *)

Lemma IBLOCK_mk inum : 0 <= inum < 208 -> IBLOCK inum mk_sb = inum / 8 + 32.
Proof.
  intros H. unfold IBLOCK. change IPB with 8. change (sb_inodestart mk_sb) with 32. apply u32_small.
  pose proof (Z.div_pos inum 8 ltac:(lia) ltac:(lia)). pose proof (Z.div_lt_upper_bound inum 8 26 ltac:(lia) ltac:(lia)). lia.
Qed.

Lemma inode_block j : 0 <= j < 208 -> 32 <= j / 8 + 32 < 58 /\ 0 <= j mod 8 * 64 <= 448.
Proof. intros H. Z.div_mod_to_equations. lia. Qed.

Lemma rinode_of st j : image_ok (mk_img st) -> 0 <= j < 208 -> rinode st j = Some (inode_of (mk_img st) j).
Proof.
  intros H Hj. unfold rinode, rsect. rewrite IBLOCK_mk by done. change IPB with 8. destruct (inode_block j Hj).
  assert (HF : FSSIZE = 1000) by reflexivity. destruct (image_blk (mk_img st) (j / 8 + 32) H ltac:(lia)) as (-> & _ & _). done.
Qed.

Definition img_put_inode (img : image) (i : Z) (din : list Z) : image :=
  <[i / 8 + 32 := lput (i mod 8 * 64) din (blk img (i / 8 + 32))]> img.

Lemma winode_of st i din : image_ok (mk_img st) -> 0 <= i < 208 ->
  winode st i din = Some (MkMk (img_put_inode (mk_img st) i din) (mk_freeinode st) (mk_freeblock st)).
Proof.
  intros H Hj. unfold winode, rsect, wsect. rewrite IBLOCK_mk by done. change IPB with 8. destruct (inode_block i Hj).
  assert (HF : FSSIZE = 1000) by reflexivity. destruct (image_blk (mk_img st) (i / 8 + 32) H ltac:(lia)) as (-> & _ & _). done.
Qed.

Lemma img_put_inode_ok img i din : image_ok img -> 0 <= i < 208 -> length din = 64%nat -> bytes_ok din -> image_ok (img_put_inode img i din).
Proof.
  intros H Hi Hl Hok. destruct (inode_block i Hi). assert (HF : FSSIZE = 1000) by reflexivity.
  destruct (image_blk img (i / 8 + 32) H ltac:(lia)) as (_ & Hbl & Hbok).
  apply image_ok_insert; [done|lia|rewrite length_lput; lia|by apply bytes_ok_lput].
Qed.

Lemma inode_of_put img i j din : image_ok img -> 0 <= i < 208 -> 0 <= j < 208 -> length din = 64%nat ->
  inode_of (img_put_inode img i din) j = upd (inode_of img) i din j.
Proof.
  intros H Hi Hj Hl. destruct (inode_block i Hi) as [Hbi Hoi], (inode_block j Hj) as [Hbj Hoj]. assert (HF : FSSIZE = 1000) by reflexivity.
  destruct (image_blk img (i / 8 + 32) H ltac:(lia)) as (_ & Hbl & _). unfold inode_of, img_put_inode.
  destruct (decide (j / 8 = i / 8)) as [E|E].
  - rewrite E, blk_insert. destruct (decide (j = i)) as [->|Hne].
    + rewrite mk_upd_eq. apply list_eq_lbyte; rewrite length_lget by (rewrite ?length_lput; lia); [lia|].
      intros o Ho. rewrite lbyte_lget, decide_True, lbyte_lput, decide_True by lia. f_equal. lia.
    + rewrite mk_upd_ne by done. rewrite E. assert (j mod 8 <> i mod 8) by (Z.div_mod_to_equations; lia).
      apply list_eq_lbyte; rewrite !length_lget by (rewrite ?length_lput; lia); [lia|].
      intros o Ho. rewrite !lbyte_lget by lia. rewrite !decide_True by lia. rewrite lbyte_lput by lia. rewrite decide_False by lia. done.
  - rewrite blk_insert_ne by lia. rewrite mk_upd_ne; [done|]. intros ->. lia.
Qed.

Lemma inode_of_ext img img' j : 0 <= j < 208 -> (forall b, 0 <= b < nmeta -> img' !! b = img !! b) -> inode_of img' j = inode_of img j.
Proof. intros Hj H. destruct (inode_block j Hj). unfold inode_of, blk. rewrite H; [done|]. change nmeta with 59. lia. Qed.

(** ** What a file depends on *)

Lemma lget16_head din din' o : (forall o, 0 <= o < 12 -> lbyte din' o = lbyte din o) -> 0 <= o < 11 -> lget16 o din' = lget16 o din.
Proof. intros H Ho. unfold lget16. by rewrite !H by lia. Qed.

Lemma file_is_same img img' din f : (forall k, is_slot k -> slot img' din k = slot img din k) ->
  (forall k, is_slot k -> slot img din k <> 0 -> blk img' (slot img din k) = blk img (slot img din k)) ->
  file_is img din f -> file_is img' din f.
Proof.
  intros Hs Hb [H1 H2 H3 H4 H5 H6]. split; [done|done|done|done|by eapply extent_same|].
  intros j Hj. assert (0 <= j / 512 < 140) by (Z.div_mod_to_equations; lia). rewrite Hs by (by apply data_slot_ok).
  intros Hne. rewrite Hb by (done || by apply data_slot_ok). by apply H6.
Qed.

(** Files do not depend on the blocks before the data blocks. *)
Definition same_data (img img' : image) : Prop := forall b, nmeta <= b -> img' !! b = img !! b.

Lemma slot_same_data img img' fi fb V i k : files_inv img fi fb V -> same_data img img' -> 1 <= i < fi -> slot img' (V i) k = slot img (V i) k.
Proof.
  intros H Hd Hi. unfold slot. destruct (k <? 13); [done|]. destruct (Z.eqb_spec (indirect_of (V i)) 0) as [E|E]; [done|].
  destruct (fv_range _ _ _ _ H i 12 Hi ltac:(unfold is_slot; lia)) as [?|[Hr _]]; rewrite slot_indirect in *; [done|].
  unfold blk. by rewrite Hd.
Qed.

Lemma files_inv_same_data img img' fi fb V : files_inv img fi fb V -> same_data img img' -> image_ok img' -> files_inv img' fi fb V.
Proof.
  intros H Hd Hok. pose proof (fun i k => slot_same_data img img' fi fb V i k H Hd) as Hs. destruct H as [H1 H2 H3 H4 H5 H6]. split; [done|done|done| | |].
  - intros i k Hi Hk. rewrite Hs by done. auto.
  - intros i j k l Hi Hj Hk Hl. rewrite !Hs by done. auto.
  - intros b Hb. rewrite Hd by lia. auto.
Qed.

Lemma file_is_same_data img img' fi fb V i f : files_inv img fi fb V -> same_data img img' -> 1 <= i < fi -> file_is img (V i) f -> file_is img' (V i) f.
Proof.
  intros H Hd Hi. apply file_is_same; [intros k _; by eapply slot_same_data|].
  intros k Hk Hne. destruct (fv_range _ _ _ _ H i k Hi Hk) as [?|[Hr _]]; [done|]. unfold blk. by rewrite Hd.
Qed.

Lemma put_inode_same_data img i din : 0 <= i < 208 -> same_data img (img_put_inode img i din).
Proof. intros Hi b Hb. destruct (inode_block i Hi). unfold img_put_inode. rewrite lookup_insert_ne; [done|]. change nmeta with 59 in Hb. lia. Qed.

(** ** The size of a file *)

Lemma lget32_set_size din v o : length din = 64%nat -> 12 <= o -> lget32 o (set_din_size din v) = lget32 o din.
Proof. intros Hl Ho. apply lget32_lput32_ne; lia. Qed.

Lemma slot_set_size img din v k : length din = 64%nat -> is_slot k -> slot img (set_din_size din v) k = slot img din k.
Proof.
  intros Hl Hk. unfold slot, indirect_of, is_slot in *. rewrite (lget32_set_size din v 60) by (done || lia).
  destruct (Z.ltb_spec k 13); [by apply lget32_set_size; [|lia]|done].
Qed.

Lemma lbyte_set_size din v o : length din = 64%nat -> 0 <= o < 8 -> lbyte (set_din_size din v) o = lbyte din o.
Proof. intros Hl Ho. unfold set_din_size. rewrite lbyte_lput32_ne; [done|lia|lia|lia|lia]. Qed.

Lemma files_inv_slots img fi fb V i din : files_inv img fi fb V -> length din = 64%nat -> bytes_ok din ->
  (forall k, is_slot k -> slot img din k = slot img (V i) k) -> files_inv img fi fb (upd V i din).
Proof.
  intros [H1 H2 H3 H4 H5 H6] Hl Hok Hs.
  assert (E : forall j k, is_slot k -> slot img (upd V i din j) k = slot img (V j) k).
  { intros j k Hk. unfold upd. case_decide; [subst; auto|done]. }
  split; [done|done| | | |done].
  - intros j Hj. unfold upd. case_decide; auto.
  - intros j k Hj Hk. rewrite E by done. auto.
  - intros j1 j2 k l Hj1 Hj2 Hk Hl2. rewrite !E by done. auto.
Qed.

(** The inode of a file that has grown goes back into the image. *)
Lemma store_inode img fi fb i din v : growing fi (inode_of img) i img fb din -> 1 <= i < fi -> fi <= 208 ->
  let img' := img_put_inode img i (set_din_size din v) in
  files_inv img fi fb (upd (inode_of img) i (set_din_size din v)) /\ files_inv img' fi fb (inode_of img') /\ same_data img img' /\
  forall j, 0 <= j < 208 -> inode_of img' j = upd (inode_of img) i (set_din_size din v) j.
Proof.
  intros Hg Hi Hfi img'. destruct (growing_din _ _ _ Hi _ _ _ Hg) as [Hl Hok]. pose proof (fv_img _ _ _ _ Hg) as Him.
  assert (Hl' : length (set_din_size din v) = 64%nat) by (unfold set_din_size; by rewrite length_lput32).
  assert (Hok' : bytes_ok (set_din_size din v)) by (by apply bytes_ok_lput32).
  assert (Hof : forall j, 0 <= j < 208 -> inode_of img' j = upd (inode_of img) i (set_din_size din v) j).
  { intros j Hj. apply inode_of_put; [done|lia|done|done]. }
  assert (Hd : same_data img img') by (apply put_inode_same_data; lia).
  assert (Hw : files_inv img fi fb (upd (inode_of img) i (set_din_size din v))).
  { eapply (upd_upd _ _ _ _ _ din), files_inv_slots; [exact Hg|done|done|]. intros k Hk. rewrite mk_upd_eq. by apply slot_set_size. }
  split_and!; [done| |done|done]. eapply files_inv_ext; [intros j Hj; symmetry; apply Hof; lia|].
  apply (files_inv_same_data img); [done|done|apply img_put_inode_ok; (done || lia)].
Qed.

Lemma file_is_set_size img din (f : Z * list Z) c : length din = 64%nat -> is_u32 (Z.of_nat (length c)) ->
  lget16 0 din = fst f /\ (lget16 2 din = 0 /\ lget16 4 din = 0) /\ lget16 6 din = 1 -> extent img din (Z.of_nat (length c)) -> img_bytes img din c ->
  file_is img (set_din_size din (Z.of_nat (length c))) (fst f, c).
Proof.
  intros Hl Hu (H1 & [H2 H3] & H4) [E1 E2] Hb.
  assert (Hh : forall o, 0 <= o < 7 -> lget16 o (set_din_size din (Z.of_nat (length c))) = lget16 o din).
  { intros o Ho. unfold lget16. by rewrite !lbyte_set_size by (done || lia). }
  split; cbn [fst snd]; rewrite ?Hh by lia; [done|done|done| | |].
  - unfold set_din_size. rewrite lget32_lput32_eq by lia. rewrite (xint_small _ Hu). by apply u32_small.
  - split.
    + intros g Hg. rewrite slot_set_size by (done || by apply data_slot_ok). auto.
    + unfold indirect_of. by rewrite lget32_set_size by (done || lia).
  - intros j Hj. assert (0 <= j / 512 < 140) by (Z.div_mod_to_equations; lia).
    rewrite slot_set_size by (done || by apply data_slot_ok). auto.
Qed.

Lemma total_cons f cs : total (f :: cs) = cost (Z.of_nat (length (snd f))) + total cs.
Proof. reflexivity. Qed.
Lemma total_insert cs i f g : cs !! i = Some f -> total (<[i := g]> cs) = total cs + (cost (Z.of_nat (length (snd g))) - cost (Z.of_nat (length (snd f)))).
Proof.
  revert i. induction cs as [|h cs IH]; intros [|i] E; [done|done| |].
  - injection E as ->. change (<[0%nat := g]> (f :: cs)) with (g :: cs). rewrite !total_cons. lia.
  - change (<[S i := g]> (h :: cs)) with (h :: <[i := g]> cs). rewrite !total_cons, (IH i E). lia.
Qed.
Lemma total_app cs ds : total (cs ++ ds) = total cs + total ds.
Proof. induction cs as [|h cs IH]; [done|]. cbn [app]. rewrite !total_cons, IH. lia. Qed.

(** The metadata of the image stays as it is while a file grows. *)
Lemma grows_meta fi V i img din img' fb' din' : 1 <= i < fi -> growing fi V i img' fb' din' -> grows img din img' din' ->
  forall b, b < nmeta -> img' !! b = img !! b.
Proof.
  intros Hi Hg Hgr b Hb. destruct (gr_blocks _ _ _ _ Hgr b) as [?|(k & Hk & E & Hne)]; [done|].
  destruct (growing_slot _ _ _ Hi _ _ _ _ Hg Hk); lia.
Qed.

(** ** The operations *)

Lemma mi_range st cs i f : mk_inv st cs -> cs !! i = Some f -> 1 <= 1 + Z.of_nat i < mk_freeinode st /\ mk_freeinode st <= 200.
Proof. intros [H1 H2 _ _ _ _ _] E. apply lookup_lt_Some in E. lia. Qed.

Lemma mi_file_st st cs i ty c : mk_inv st cs -> cs !! i = Some (ty, c) ->
  file_st (mk_freeinode st) (inode_of (mk_img st)) (1 + Z.of_nat i) (mk_img st) (mk_freeblock st) (inode_of (mk_img st) (1 + Z.of_nat i)) c.
Proof.
  intros H E. destruct (mi_is _ _ H i _ E) as [_ _ _ _ Hx Hb]. split; [|done|done]. unfold growing.
  eapply files_inv_ext, (mi_files _ _ H). intros j _. unfold upd. by case_decide; subst.
Qed.

(** [iappend] puts [p] behind the bytes of the file. *)
Lemma iappend_spec st cs i ty c p : mk_inv st cs -> cs !! i = Some (ty, c) -> bytes_ok p -> Z.of_nat (length (c ++ p)) <= 140 * 512 ->
  nmeta + total (<[i := (ty, c ++ p)]> cs) <= FSSIZE ->
  exists st', iappend st (1 + Z.of_nat i) p = Some st' /\ mk_inv st' (<[i := (ty, c ++ p)]> cs).
Proof.
  intros H E Hp Hmax Hroom. pose proof (mi_range _ _ _ _ H E) as [Hi Hfi]. pose proof (mi_files _ _ H) as Hfv. set (inum := 1 + Z.of_nat i) in *.
  pose proof (mi_is _ _ H i _ E) as Hf. fold inum in Hf. rewrite (total_insert _ _ _ _ E) in Hroom. cbn [snd] in Hroom.
  rewrite length_app in Hmax, Hroom. pose proof (mi_freeblock _ _ H) as Hfb. set (V := inode_of (mk_img st)) in *.
  assert (Hu : is_u32 (Z.of_nat (length (c ++ p)))) by (unfold is_u32; rewrite length_app; lia).
  destruct (iappend_loop_spec _ _ _ Hi p (length p) st (V inum) c (mi_file_st _ _ _ _ _ H E) Hp ltac:(lia) Hmax ltac:(lia)) as (din & st1 & El & [G1 G2 G3] & Gr & Ei & Eb).
  assert (Hof : forall j, 0 <= j < 208 -> inode_of (mk_img st1) j = V j).
  { intros j Hj. apply inode_of_ext; [done|]. intros b Hb. eapply grows_meta; [exact Hi|exact G1|exact Gr|lia]. }
  assert (G1' : growing (mk_freeinode st) (inode_of (mk_img st1)) inum (mk_img st1) (mk_freeblock st1) din).
  { eapply files_inv_ext, G1. intros j Hj. unfold upd. case_decide; [done|]. symmetry. apply Hof. lia. }
  destruct (growing_din _ _ _ Hi _ _ _ G1) as [Hdl _]. pose proof (fv_img _ _ _ _ G1) as Him.
  destruct (store_inode _ _ _ _ _ (Z.of_nat (length (c ++ p))) G1' Hi ltac:(lia)) as (S0 & S1 & S2 & S3).
  set (din' := set_din_size din _) in *. eexists (MkMk (img_put_inode (mk_img st1) inum din') (mk_freeinode st) (mk_freeblock st1)). split.
  - unfold iappend. rewrite (rinode_of st inum (fv_img _ _ _ _ Hfv)) by lia. cbn [mkbind]. fold V.
    replace (din_size (V inum)) with (Z.of_nat (length c)) by (unfold din_size; rewrite (fi_size _ _ _ Hf); cbn; rewrite xint_small; [done|unfold is_u32; lia]).
    rewrite El. cbn [mkbind]. rewrite <- length_app, (winode_of st1 inum) by (done || lia). by rewrite Ei.
  - split; cbn [mk_img mk_freeinode mk_freeblock]; [rewrite length_insert; apply H|rewrite length_insert; apply H| |done| | |].
    + rewrite (total_insert _ _ _ _ E). cbn [snd]. rewrite length_app. lia.
    + intros j f Ej. assert (Hj : (j < length cs)%nat) by (apply lookup_lt_Some in Ej; by rewrite length_insert in Ej).
      pose proof (mi_freeinode _ _ H) as Hn. pose proof (mi_inodes _ _ H). rewrite S3 by lia.
      apply (file_is_same_data _ _ _ _ _ (1 + Z.of_nat j) f S0 S2 ltac:(lia)). destruct (decide (j = i)) as [->|Hji].
      * rewrite list_lookup_insert_eq in Ej by done. injection Ej as <-. fold inum. rewrite mk_upd_eq.
        apply (file_is_set_size _ _ (ty, c)); [done|done| |done|done].
        destruct Hf as [F1 F2 F3 _ _ _]. rewrite !(lget16_head (V inum) din) by (exact (gr_head _ _ _ _ Gr) || lia). done.
      * rewrite list_lookup_insert_ne in Ej by done. rewrite mk_upd_ne, Hof by lia.
        destruct (grows_other (mk_img st) (V inum) (mk_img st1) _ _ (upd V inum din) inum (1 + Z.of_nat j) G1) as [O1 O2]; [by rewrite mk_upd_eq|done|lia|lia|].
        rewrite mk_upd_ne in O1, O2 by lia. apply (file_is_same (mk_img st)); [done|done|by apply (mi_is _ _ H)].
    + intros j Hj. rewrite S3 by lia. rewrite mk_upd_ne, Hof by lia. apply (mi_unused _ _ H). lia.
    + intros b Hb. destruct (inode_block inum ltac:(lia)). unfold img_put_inode. rewrite lookup_insert_ne by lia.
      erewrite (grows_meta _ _ _ _ _ _ _ _ Hi G1 Gr); [by apply (mi_front _ _ H)|]. change nmeta with 59. lia.
Qed.

Lemma xshort_small x : 0 <= x < 2 ^ 16 -> xshort x = x.
Proof.
  intros H. unfold xshort. change (lget16 0 [u8 x; u8 (Z.shiftr x 8)]) with (u8 x + 256 * u8 (Z.shiftr x 8)).
  rewrite Z.shiftr_div_pow2 by lia. unfold u8. change (2 ^ 8) with 256. rewrite (Z.mod_small (x / 256)) by (Z.div_mod_to_equations; lia).
  pose proof (Z.div_mod x 256). lia.
Qed.

(** The inode that [mk_ialloc] writes. *)
Definition new_inode (ty : Z) : list Z := lput16 6 1 (lput16 0 ty (replicate 64 0)).

Lemma new_inode_zero ty o : 12 <= o -> lget32 o (set_din_size (new_inode ty) 0) = 0.
Proof.
  intros H. rewrite lget32_set_size by (done || lia). unfold new_inode, lget32, lget16.
  rewrite !lbyte_lput16_ne by (rewrite ?length_lput16; cbn [length replicate]; lia). by rewrite !lbyte_zeroes.
Qed.

Lemma new_inode_slot img ty k : is_slot k -> slot img (set_din_size (new_inode ty) 0) k = 0.
Proof.
  intros Hk. unfold slot, indirect_of, is_slot in *. rewrite !new_inode_zero by lia. by destruct (k <? 13).
Qed.

Lemma new_inode_is img ty : 0 <= ty < 2 ^ 16 -> file_is img (set_din_size (new_inode ty) 0) (ty, []).
Proof.
  intros H. apply (file_is_set_size img (new_inode ty) (ty, []) []); [done|done| | |].
  - unfold new_inode. rewrite lget16_lput16_eq by (rewrite ?length_lput16; cbn; lia).
    rewrite !lget16_lput16_ne by (rewrite ?length_lput16; cbn [length replicate]; lia).
    rewrite lget16_lput16_eq by (cbn; lia). unfold u16. rewrite Z.mod_small by done. split_and!; reflexivity.
  - split.
    + intros f Hf. pose proof (new_inode_slot img ty (data_slot f) (proj1 (data_slot_ok f Hf))) as E.
      rewrite slot_set_size in E by (done || by apply data_slot_ok). rewrite E. cbn. lia.
    + pose proof (new_inode_zero ty 60 ltac:(lia)) as E. rewrite lget32_set_size in E by (done || lia). unfold indirect_of. rewrite E. cbn. lia.
  - intros j Hj. assert (Hf : 0 <= j / 512 < 140) by (Z.div_mod_to_equations; lia).
    pose proof (new_inode_slot img ty (data_slot (j / 512)) (proj1 (data_slot_ok _ Hf))) as E.
    rewrite slot_set_size in E by (done || by apply data_slot_ok). done.
Qed.

Lemma files_inv_new img fi fb V din : 1 <= fi -> files_inv img fi fb V -> length din = 64%nat -> bytes_ok din ->
  (forall k, is_slot k -> slot img din k = 0) -> files_inv img (fi + 1) fb (upd V fi din).
Proof.
  intros Hfi [H1 H2 H3 H4 H5 H6] Hl Hok Hs. split; [done|done| | | |done].
  - intros j Hj. unfold upd. case_decide; [done|]. apply H3. lia.
  - intros j k Hj Hk. unfold upd. case_decide; [left; auto|]. apply H4; [lia|done].
  - intros i j k l Hi Hj Hk Hl'. unfold upd. repeat case_decide; rewrite ?Hs by done; try done; apply H5; (done || lia).
Qed.

(** [mk_ialloc] gives out the next inode, for an empty file. *)
Lemma mk_ialloc_spec st cs ty : mk_inv st cs -> (length cs < 199)%nat -> 0 <= ty < 2 ^ 16 ->
  exists st', mk_ialloc st ty = Some (1 + Z.of_nat (length cs), st') /\ mk_inv st' (cs ++ [(ty, [])]).
Proof.
  intros H Hn Hty. pose proof (mi_freeinode _ _ H) as Hfi. pose proof (mi_files _ _ H) as Hfv. pose proof (fv_img _ _ _ _ Hfv) as Him.
  set (inum := mk_freeinode st) in *. set (din := set_din_size (new_inode ty) 0). set (img' := img_put_inode (mk_img st) inum din).
  assert (Hl : length din = 64%nat) by done. assert (Hz : bytes_ok (replicate 64 0)) by (apply Forall_replicate; lia).
  assert (Hok : bytes_ok din) by (repeat first [apply bytes_ok_lput32|apply bytes_ok_lput16]; exact Hz).
  assert (Hd : same_data (mk_img st) img') by (apply put_inode_same_data; lia).
  assert (Hof : forall j, 0 <= j < 208 -> inode_of img' j = upd (inode_of (mk_img st)) inum din j) by (intros j Hj; apply inode_of_put; (done || lia)).
  assert (Hfv' : files_inv (mk_img st) (inum + 1) (mk_freeblock st) (upd (inode_of (mk_img st)) inum din)).
  { apply files_inv_new; [lia|done|done|done|]. intros k Hk. by apply new_inode_slot. }
  exists (MkMk img' (inum + 1) (mk_freeblock st)). split.
  - unfold mk_ialloc. fold inum. rewrite (xshort_small ty Hty). change (xshort 1) with 1. fold (new_inode ty) din.
    rewrite winode_of by (done || lia). cbn [mkbind mk_img mk_freeinode mk_freeblock]. rewrite u32_small by lia. by rewrite <- Hfi.
  - split; cbn [mk_img mk_freeinode mk_freeblock]; [rewrite length_app; cbn [length]; lia|rewrite length_app; cbn [length]; lia| | | | |].
    + rewrite total_app, (mi_freeblock _ _ H). replace (total [(ty, [])]) with 0 by reflexivity. lia.
    + eapply files_inv_ext; [intros j Hj; symmetry; apply Hof; lia|].
      eapply files_inv_same_data; [done|done|]. apply img_put_inode_ok; (done || lia).
    + intros i f E. assert (Hi : (i < length cs + 1)%nat) by (apply lookup_lt_Some in E; rewrite length_app in E; done).
      rewrite Hof by lia. eapply file_is_same_data; [exact Hfv'|done|lia|]. apply lookup_app_Some in E as [E|[Hge E]].
      * pose proof (lookup_lt_Some _ _ _ E). rewrite mk_upd_ne by lia. by apply (mi_is _ _ H).
      * replace i with (length cs) in * by lia. rewrite Nat.sub_diag in E. injection E as <-. rewrite <- Hfi, mk_upd_eq. by apply new_inode_is.
    + intros j Hj. rewrite Hof, mk_upd_ne by lia. apply (mi_unused _ _ H). lia.
    + intros b Hb. destruct (inode_block inum ltac:(lia)). unfold img', img_put_inode. rewrite lookup_insert_ne by lia. by apply (mi_front _ _ H).
Qed.

Lemma zeroes_ok : length zeroes = 512%nat /\ bytes_ok zeroes.
Proof. split; [done|]. apply Forall_replicate. lia. Qed.

Lemma blank_lookup b : mk_img blank !! b = if decide (b = 1) then Some sb_block else if decide (0 <= b < FSSIZE) then Some zeroes else None.
Proof.
  unfold blank. cbn [wsect mk_img]. destruct (decide (b = 1)) as [->|Hb]; [apply lookup_insert_eq|]. rewrite lookup_insert_ne by done.
  set (l := (fun i : nat => (Z.of_nat i, zeroes)) <$> seq 0 (Z.to_nat FSSIZE)). destruct (decide (0 <= b < FSSIZE)) as [Hr|Hr].
  - apply elem_of_list_to_map_1.
    + unfold l. rewrite <- list_fmap_compose. apply NoDup_fmap_2; [intros x y; cbn; lia|apply NoDup_seq].
    + unfold l. apply list_elem_of_fmap. exists (Z.to_nat b). rewrite elem_of_seq. split; [by rewrite Z2Nat.id by lia|lia].
  - apply not_elem_of_list_to_map_1. unfold l. rewrite <- list_fmap_compose. intros Hin. apply list_elem_of_fmap in Hin as (i & -> & Hi).
    apply elem_of_seq in Hi. cbn in Hr. lia.
Qed.

Lemma blank_inv : mk_inv blank [].
Proof.
  assert (Hsb : length sb_block = 512%nat /\ bytes_ok sb_block).
  { split; [done|]. apply (bool_decide_unpack _). vm_compute. exact I. }
  split; [done|cbn; lia|done| |done| |done].
  2:{ intros j Hj. change (mk_freeinode blank) with 1 in Hj. destruct (inode_block j ltac:(lia)) as [Hb Ho]. unfold inode_of, blk. rewrite blank_lookup.
      rewrite decide_False, decide_True by (change FSSIZE with 1000; lia). cbn [default from_option id]. apply list_eq_lbyte.
      - rewrite length_lget by (rewrite ?(proj1 zeroes_ok); lia). done.
      - rewrite length_lget by (rewrite ?(proj1 zeroes_ok); lia). intros o Hor. rewrite lbyte_lget, decide_True by lia. unfold zeroes. by rewrite !lbyte_zeroes. }
  change (mk_freeinode blank) with 1. change (mk_freeblock blank) with nmeta.
  assert (HF : FSSIZE = 1000) by reflexivity. assert (Hnm : nmeta = 59) by reflexivity. split; [|lia|lia|lia|lia|].
  - split; intros b Hb; rewrite blank_lookup.
    + case_decide; [exists sb_block; by destruct Hsb|]. rewrite decide_True by done. exists zeroes. by destruct zeroes_ok.
    + rewrite !decide_False by lia. done.
  - intros b Hb. rewrite blank_lookup. rewrite decide_False, decide_True by lia. done.
Qed.

(** ** The run *)

Lemma total_le cs i f g : cs !! i = Some f -> (length (snd g) <= length (snd f))%nat -> total (<[i := g]> cs) <= total cs.
Proof. intros E H. rewrite (total_insert _ _ _ _ E). pose proof (cost_mono (Z.of_nat (length (snd g))) (Z.of_nat (length (snd f))) ltac:(lia)). lia. Qed.

(** The content of a file goes into the image a block at a time. *)
Lemma append_file_spec content : forall k st cs i ty c, mk_inv st cs -> cs !! i = Some (ty, c) -> bytes_ok content -> (length content <= k)%nat ->
  Z.of_nat (length (c ++ content)) <= 140 * 512 -> nmeta + total (<[i := (ty, c ++ content)]> cs) <= FSSIZE ->
  exists st', append_file k st (1 + Z.of_nat i) content = Some st' /\ mk_inv st' (<[i := (ty, c ++ content)]> cs).
Proof.
  induction (Nat.lt_wf_0_projected (@length Z) content) as [p _ IH]. intros k st cs i ty c H E Hp Hk Hmax Hroom. destruct p as [|b p'].
  { exists st. rewrite app_nil_r, list_insert_id by done. by destruct k. }
  set (p := b :: p') in *. destruct k as [|k]; [cbn in Hk; lia|]. set (n := Z.to_nat BSIZE). assert (Hn : n = 512%nat) by done.
  assert (Hpl : (0 < length p)%nat) by (cbn; lia). rewrite length_app in Hmax.
  set (cs1 := <[i := (ty, c ++ take n p)]> cs). pose proof (lookup_lt_Some _ _ _ E) as Hi.
  assert (E1 : cs1 !! i = Some (ty, c ++ take n p)) by (by apply list_lookup_insert_eq).
  assert (E2 : <[i := (ty, (c ++ take n p) ++ drop n p)]> cs1 = <[i := (ty, c ++ p)]> cs).
  { unfold cs1. rewrite list_insert_insert_eq. by rewrite <- app_assoc, take_drop. }
  assert (Hroom1 : nmeta + total cs1 <= FSSIZE).
  { pose proof (total_le (<[i := (ty, c ++ p)]> cs) i (ty, c ++ p) (ty, c ++ take n p)) as Hle. rewrite list_insert_insert_eq in Hle. fold cs1 in Hle.
    specialize (Hle ltac:(by apply list_lookup_insert_eq) ltac:(cbn [snd]; rewrite !length_app, length_take; lia)). lia. }
  destruct (iappend_spec st cs i ty c (take n p) H E (Forall_take _ _ _ Hp)) as (st1 & Ea & H1); [rewrite length_app, length_take; lia|done|].
  destruct (IH (drop n p) ltac:(rewrite length_drop; lia) k st1 cs1 i ty (c ++ take n p) H1 E1 (Forall_drop _ _ _ Hp)) as (st2 & Ef & H2).
  { rewrite length_drop. lia. } { rewrite <- app_assoc, take_drop, length_app. lia. } { by rewrite E2. }
  exists st2. rewrite E2 in H2. split; [|done].
  change (append_file (S k) st (1 + Z.of_nat i) p) with (let% st := iappend st (1 + Z.of_nat i) (take n p) in append_file k st (1 + Z.of_nat i) (drop n p)).
  rewrite Ea. exact Ef.
Qed.

(** The entries of the files of the command line, from inode [n] on. *)
Fixpoint entries_from (n : Z) (files : list (list Z * list Z)) : list Z :=
  match files with
  | [] => []
  | (name, _) :: files' => mk_entry n (skip_underscore name) ++ entries_from (n + 1) files'
  end.

(** What the command line has to be like. *)
Record file_ok (f : list Z * list Z) : Prop := {
  fo_name : bytes_ok (fst f) /\ existsb (Z.eqb (ch "/")) (fst f) = false;
  fo_content : bytes_ok (snd f) /\ Z.of_nat (length (snd f)) <= MAXFILE * BSIZE
}.

Definition as_file (f : list Z * list Z) : Z * list Z := (T_FILE, snd f).

Lemma mk_entry_ok inum name : 0 <= inum < 2 ^ 16 -> bytes_ok name -> length (mk_entry inum name) = 16%nat /\ bytes_ok (mk_entry inum name).
Proof.
  intros Hi Hn. unfold mk_entry. split; [by rewrite length_mk_dirent|]. unfold mk_dirent, lstrncpy. apply Forall_app. split.
  - apply bytes_ok_lput16, Forall_replicate. lia.
  - apply Forall_take, Forall_app. split; [|apply Forall_replicate; lia]. clear Hi. induction Hn as [|x l Hx Hl IH]; cbn; [constructor|].
    destruct (x =? 0); [constructor|by constructor].
Qed.

Lemma skip_underscore_ok name : bytes_ok name -> bytes_ok (skip_underscore name).
Proof. destruct name as [|c name]; [done|]. cbn [skip_underscore]. intros H. destruct (c =? ch "_"); [by apply Forall_inv_tail in H|done]. Qed.

Lemma length_entries_from n files : length (entries_from n files) = (16 * length files)%nat.
Proof. revert n. induction files as [|[name c] files IH]; intros n; [done|]. cbn [entries_from length]. unfold mk_entry. rewrite length_app, length_mk_dirent, IH. change (Z.to_nat sizeof_dirent) with 16%nat. lia. Qed.

Lemma total_nonneg cs : 0 <= total cs.
Proof.
  induction cs as [|f cs IH]; [done|]. rewrite total_cons. unfold cost. pose proof (Z.div_pos (Z.of_nat (length (snd f)) + 511) 512 ltac:(lia) ltac:(lia)).
  destruct (6144 <? _); lia.
Qed.

(** One file: an inode, an entry in the root directory, and the content. *)
Lemma add_file_spec st d fs name content : mk_inv st ((T_DIR, d) :: fs) -> file_ok (name, content) -> (length fs < 198)%nat ->
  Z.of_nat (length d) + 16 <= 140 * 512 ->
  let d' := d ++ mk_entry (2 + Z.of_nat (length fs)) (skip_underscore name) in
  nmeta + total ((T_DIR, d') :: fs ++ [(T_FILE, content)]) <= FSSIZE ->
  exists st', (let% (inum, st) := mk_ialloc st T_FILE in
     let% st := iappend st 1 (mk_entry inum (skip_underscore name)) in
     append_file (length content) st inum content) = Some st' /\ mk_inv st' ((T_DIR, d') :: fs ++ [(T_FILE, content)]).
Proof.
  intros H [[N1 N2] [C1 C2]] Hfs Hd d' Hroom. cbn [fst snd] in *. set (inum := 2 + Z.of_nat (length fs)) in *.
  destruct (mk_entry_ok inum (skip_underscore name) ltac:(lia) (skip_underscore_ok _ N1)) as [El Eok].
  rewrite total_cons, total_app, total_cons in Hroom. cbn [snd] in Hroom. change (total []) with 0 in Hroom.
  destruct (mk_ialloc_spec st _ T_FILE H) as (st1 & E1 & H1); [cbn [length]; lia|done|]. cbn [app length] in E1, H1.
  replace (1 + Z.of_nat (S (length fs))) with inum in E1 by lia. rewrite E1. cbn [mkbind].
  pose proof (cost_mono 0 (Z.of_nat (length content)) ltac:(lia)) as Hc0. change (cost 0) with 0 in Hc0.
  destruct (iappend_spec st1 _ 0 T_DIR d (mk_entry inum (skip_underscore name)) H1 eq_refl Eok) as (st2 & E2 & H2); [rewrite length_app; lia| |].
  { cbn [insert list_insert]. fold d'. rewrite total_cons, total_app. cbn [snd]. change (total [(T_FILE, [])]) with 0. lia. }
  change (1 + Z.of_nat 0) with 1 in E2. rewrite E2. cbn [mkbind]. cbn [insert list_insert] in H2. fold d' in H2.
  assert (Eins : <[S (length fs) := (T_FILE, [] ++ content)]> ((T_DIR, d') :: fs ++ [(T_FILE, [])]) = (T_DIR, d') :: fs ++ [(T_FILE, content)]).
  { pose proof (insert_app_r fs [(T_FILE, [])] 0 (T_FILE, content)) as Ei. rewrite Nat.add_0_r in Ei.
    change (?l = ?r) with ((T_DIR, d') :: <[length fs := (T_FILE, content)]> (fs ++ [(T_FILE, [])]) = r). by rewrite Ei. }
  destruct (append_file_spec content (length content) st2 _ (S (length fs)) T_FILE [] H2) as (st3 & E3 & H3); [|done|done|done| |].
  - change (((T_DIR, d') :: fs ++ [(T_FILE, [])]) !! S (length fs)) with ((fs ++ [(T_FILE, [])]) !! length fs). by rewrite lookup_app_r, Nat.sub_diag by lia.
  - rewrite Eins, total_cons, total_app, total_cons. cbn [snd]. change (total []) with 0. lia.
  - rewrite Eins in H3. exists st3. split; [|done]. by replace inum with (1 + Z.of_nat (S (length fs))) by lia.
Qed.

Lemma add_files_spec files : forall st d fs, mk_inv st ((T_DIR, d) :: fs) -> Forall file_ok files -> (length fs + length files <= 198)%nat ->
  Z.of_nat (length d) <= 32 + 16 * Z.of_nat (length fs) ->
  let d' := d ++ entries_from (2 + Z.of_nat (length fs)) files in
  nmeta + total ((T_DIR, d') :: fs ++ map as_file files) <= FSSIZE ->
  exists st', add_files st 1 files = Some st' /\ mk_inv st' ((T_DIR, d') :: fs ++ map as_file files).
Proof.
  induction files as [|[name content] files IH]; intros st d fs H Hok Hn Hd d' Hroom; cbn [length] in Hn.
  { exists st. split; [done|]. unfold d'. cbn [entries_from map]. by rewrite !app_nil_r. }
  inversion Hok as [|? ? Hok1 Hok2]; subst. set (inum := 2 + Z.of_nat (length fs)) in *. set (e := mk_entry inum (skip_underscore name)).
  assert (Ed : (d ++ e) ++ entries_from (inum + 1) files = d') by (by rewrite <- app_assoc).
  assert (Efs : (fs ++ [(T_FILE, content)]) ++ map as_file files = fs ++ map as_file ((name, content) :: files)) by (by rewrite <- app_assoc).
  destruct (add_file_spec st d fs name content H Hok1) as (st1 & E1 & H1); [lia|lia| |].
  { revert Hroom. fold inum e. rewrite <- Ed, <- Efs, !total_cons, !total_app. cbn [snd]. pose proof (total_nonneg (map as_file files)).
    pose proof (cost_mono (Z.of_nat (length (d ++ e))) (Z.of_nat (length ((d ++ e) ++ entries_from (inum + 1) files)))) as Hc.
    rewrite (length_app (d ++ e)) in Hc |- *. specialize (Hc ltac:(lia)). lia. }
  fold inum e in E1, H1. assert (Hl1 : length (fs ++ [(T_FILE, content)]) = S (length fs)) by (rewrite length_app; cbn; lia).
  destruct (IH st1 (d ++ e) (fs ++ [(T_FILE, content)]) H1 Hok2) as (st2 & E2 & H2).
  - lia.
  - rewrite length_app. unfold e, mk_entry. rewrite length_mk_dirent. change (Z.to_nat sizeof_dirent) with 16%nat. lia.
  - rewrite Hl1. replace (2 + Z.of_nat (S (length fs))) with (inum + 1) by lia. by rewrite Ed, Efs.
  - rewrite Hl1 in H2. replace (2 + Z.of_nat (S (length fs))) with (inum + 1) in H2 by lia. rewrite Ed, Efs in H2.
    exists st2. split; [|done]. cbn [add_files]. destruct Hok1 as [[_ Hs] _]. cbn [fst] in Hs. rewrite Hs. revert E1.
    destruct (mk_ialloc st T_FILE) as [[x s1]|]; cbn [mkbind]; [|done]. destruct (iappend s1 1 _) as [s2|]; cbn [mkbind]; [|done].
    intros ->. cbn [mkbind]. done.
Qed.

(** The bitmap has the first [used] bits set. *)
Lemma mark_used_spec n : forall i buf b, 0 <= i -> i + Z.of_nat n <= 8 * Z.of_nat (length buf) -> 0 <= b ->
  bitmap (mark_used n i buf) b = bitmap buf b || ((i <=? b) && (b <? i + Z.of_nat n)) /\ length (mark_used n i buf) = length buf /\
  (bytes_ok buf -> bytes_ok (mark_used n i buf)).
Proof.
  induction n as [|n IH]; intros i buf b Hi Hn Hb; cbn [mark_used].
  { split_and!; [|done|done]. destruct (Z.leb_spec i b), (Z.ltb_spec b (i + Z.of_nat 0)); cbn; try lia; by rewrite orb_false_r. }
  fold (bit_mask i). fold (bit_set i buf). assert (Hl : length (bit_set i buf) = length buf) by (unfold bit_set; apply length_lput8).
  destruct (IH (i + 1) (bit_set i buf) b) as (E & El & Hok); [lia|rewrite Hl; lia|done|]. rewrite El. split_and!; [|done|intros Hb'; by apply Hok, bytes_ok_lput8].
  rewrite E, bitmap_set by lia. rewrite <- orb_assoc. f_equal.
  destruct (Z.eqb_spec i b), (Z.leb_spec (i + 1) b), (Z.leb_spec i b), (Z.ltb_spec b (i + 1 + Z.of_nat n)), (Z.ltb_spec b (i + Z.of_nat (S n))); cbn; lia.
Qed.

(** The bytes of the root directory, and the files of the image. *)
Definition root_dir (files : list (list Z * list Z)) : list Z := mk_entry 1 (bytes ".") ++ mk_entry 1 (bytes "..") ++ entries_from 2 files.
Definition image_files (files : list (list Z * list Z)) : list (Z * list Z) := (T_DIR, root_dir files) :: map as_file files.

(** The first [n] bytes of file [inum], read through its block addresses. *)
Definition read_file (img : image) (inum n : Z) : list Z :=
  map (fun j => lbyte (blk img (slot img (inode_of img inum) (data_slot (j / 512)))) (j mod 512)) (seqZ 0 n).

Lemma read_file_bytes img inum c : extent img (inode_of img inum) (Z.of_nat (length c)) -> img_bytes img (inode_of img inum) c ->
  Z.of_nat (length c) <= 140 * 512 -> read_file img inum (Z.of_nat (length c)) = c.
Proof.
  intros He Hb Hmax. unfold read_file. apply list_eq. intros i. rewrite list_lookup_fmap.
  destruct (decide (i < length c)%nat) as [Hi|Hi].
  - rewrite (proj2 (lookup_seqZ 0 _ i (Z.of_nat i))) by lia. cbn [fmap option_fmap option_map].
    rewrite Hb; [|lia|apply He; Z.div_mod_to_equations; lia]. unfold lbyte. rewrite Nat2Z.id.
    destruct (c !! i) as [x|] eqn:E; [done|]. apply lookup_ge_None in E. lia.
  - rewrite lookup_seqZ_ge by lia. symmetry. apply lookup_ge_None. lia.
Qed.

(** What the image of [mkfs] is: the super block, an empty log, the root
    directory with a size that is rounded up, the files, free inodes, blocks
    that no two files share, and a bitmap of the blocks in use. *)
Record built (img : image) (files : list (list Z * list Z)) : Prop := {
  bt_image : image_ok img;
  bt_super : decode_sb (blk img 1) = mk_sb;
  bt_front : forall b, b = 0 \/ 2 <= b < 32 -> img !! b = Some zeroes;
  bt_file : forall i name content, files !! i = Some (name, content) ->
    let inum := 2 + Z.of_nat i in
    file_is img (inode_of img inum) (T_FILE, content) /\ read_file img inum (lget32 8 (inode_of img inum)) = content;
  bt_root : let din := inode_of img 1 in let n := Z.of_nat (length (root_dir files)) in
    lget16 0 din = T_DIR /\ lget16 6 din = 1 /\ lget32 8 din = (n / BSIZE + 1) * BSIZE /\
    extent img din n /\ img_bytes img din (root_dir files) /\ read_file img 1 n = root_dir files;
  bt_unused : forall j, 2 + Z.of_nat (length files) <= j < 208 -> inode_of img j = replicate 64 0;
  bt_apart : forall i j k l, 1 <= i < 2 + Z.of_nat (length files) -> 1 <= j < 2 + Z.of_nat (length files) -> is_slot k -> is_slot l ->
    slot img (inode_of img i) k = slot img (inode_of img j) l -> slot img (inode_of img i) k <> 0 -> i = j /\ k = l;
  bt_range : forall j k, 1 <= j < 2 + Z.of_nat (length files) -> is_slot k ->
    slot img (inode_of img j) k = 0 \/ nmeta <= slot img (inode_of img j) k < nmeta + total (image_files files);
  bt_room : nmeta + total (image_files files) <= FSSIZE;
  bt_bitmap : forall b, 0 <= b < BPB -> bitmap (blk img (sb_bmapstart mk_sb)) b = (b <? nmeta + total (image_files files))
}.

(** The end of [main]: the size of the root directory and the bitmap. *)
Definition finish (st : mk) : option mk :=
  let% din := rinode st 1 in
  let off := din_size din in
  let off := (off / BSIZE + 1) * BSIZE in
  let% st := winode st 1 (set_din_size din off) in
  mk_balloc st (mk_freeblock st).

Lemma file_is_max st cs i f : mk_inv st cs -> cs !! i = Some f -> nmeta + total cs <= FSSIZE -> Z.of_nat (length (snd f)) < 2 ^ 31.
Proof.
  intros H E Hr. change nmeta with 59 in Hr. change FSSIZE with 1000 in Hr. pose proof (total_insert cs i f (T_FILE, []) E) as Ht.
  pose proof (total_nonneg (<[i := (T_FILE, [])]> cs)). cbn [snd] in Ht. change (cost (Z.of_nat (length []))) with 0 in Ht.
  assert (Hc : cost (Z.of_nat (length (snd f))) <= 941) by lia. unfold cost in Hc. destruct (6144 <? _); Z.div_mod_to_equations; lia.
Qed.

(** The image that [finish] leaves. *)
Definition finished (st : mk) (d : list Z) : image :=
  <[58 := mark_used (Z.to_nat (mk_freeblock st)) 0 zeroes]>
    (img_put_inode (mk_img st) 1 (set_din_size (inode_of (mk_img st) 1) ((Z.of_nat (length d) / BSIZE + 1) * BSIZE))).

Lemma finish_run st d fs : mk_inv st ((T_DIR, d) :: fs) -> nmeta + total ((T_DIR, d) :: fs) <= FSSIZE ->
  finish st = Some (MkMk (finished st d) (mk_freeinode st) (mk_freeblock st)).
Proof.
  intros H Hroom. pose proof (mi_files _ _ H) as Hfv. pose proof (fv_img _ _ _ _ Hfv) as Him. pose proof (fv_fb _ _ _ _ Hfv) as Hr.
  change FSSIZE with 1000 in Hr. change nmeta with 59 in Hr. pose proof (file_is_max _ _ 0 _ H eq_refl Hroom) as Hmax. cbn [snd] in Hmax.
  unfold finish. rewrite (rinode_of st 1 Him) by lia. cbn [mkbind]. unfold din_size.
  pose proof (fi_size _ _ _ (mi_is _ _ H 0 _ eq_refl)) as Esz. change (1 + Z.of_nat 0) with 1 in Esz. rewrite Esz. cbn [snd].
  rewrite xint_small by (unfold is_u32; lia). rewrite winode_of by (done || lia). cbn [mkbind mk_freeblock]. unfold mk_balloc.
  change (BSIZE * 8) with 4096. rewrite (proj2 (Z.ltb_lt _ 4096)) by lia. cbn [negb wsect mk_img mk_freeinode mk_freeblock]. done.
Qed.

Section finish.
Context (st : mk) (files : list (list Z * list Z)).
Hypothesis H : mk_inv st (image_files files).
Hypothesis Hok : Forall file_ok files.
Hypothesis Hroom : nmeta + total (image_files files) <= FSSIZE.
Let d := root_dir files.
Let img := finished st d.
Let din := set_din_size (inode_of (mk_img st) 1) ((Z.of_nat (length d) / BSIZE + 1) * BSIZE).

Lemma root_length : Z.of_nat (length d) = 32 + 16 * Z.of_nat (length files).
Proof.
  unfold d, root_dir. rewrite !length_app, length_entries_from. unfold mk_entry. rewrite !length_mk_dirent. change (Z.to_nat sizeof_dirent) with 16%nat. lia.
Qed.

Lemma few_files : 2 + Z.of_nat (length files) = mk_freeinode st /\ Z.of_nat (length files) <= 198.
Proof.
  pose proof (mi_freeinode _ _ H) as E. pose proof (mi_inodes _ _ H) as E2. unfold image_files in E, E2. cbn [length] in E, E2. rewrite length_map in E, E2. lia.
Qed.

(** The image before the bitmap. *)
Let img1 := img_put_inode (mk_img st) 1 din.

Lemma finish_inodes :
  files_inv (mk_img st) (mk_freeinode st) (mk_freeblock st) (upd (inode_of (mk_img st)) 1 din) /\ same_data (mk_img st) img /\
  (forall j, 0 <= j < 208 -> inode_of img j = upd (inode_of (mk_img st)) 1 din j) /\ image_ok img.
Proof.
  pose proof few_files as [Hf1 Hf2]. pose proof (mi_file_st _ _ 0 _ _ H eq_refl) as [G _ _]. change (1 + Z.of_nat 0) with 1 in G.
  destruct (store_inode _ _ _ _ _ ((Z.of_nat (length d) / BSIZE + 1) * BSIZE) G ltac:(lia) ltac:(lia)) as (S0 & S1 & S2 & S3). fold din img1 in S0, S1, S2, S3.
  assert (Hm : forall b, b <> 58 -> img !! b = img1 !! b) by (intros b Hb; unfold img, finished; by rewrite lookup_insert_ne).
  pose proof (fv_fb _ _ _ _ S1) as Hr. change FSSIZE with 1000 in Hr. change nmeta with 59 in Hr.
  split_and!; [done| | |].
  - intros b Hb. change nmeta with 59 in Hb. rewrite Hm by lia. by apply S2.
  - intros j Hj. rewrite <- S3 by done. destruct (inode_block j Hj). unfold inode_of, blk. by rewrite Hm by lia.
  - apply image_ok_insert; [apply S1|change FSSIZE with 1000; lia| |];
      destruct (mark_used_spec (Z.to_nat (mk_freeblock st)) 0 zeroes 0) as (_ & El & Eok); rewrite ?(proj1 zeroes_ok); try lia; [done|].
    by apply Eok, zeroes_ok.
Qed.

Lemma finish_file i name content : files !! i = Some (name, content) ->
  let inum := 2 + Z.of_nat i in
  file_is img (inode_of img inum) (T_FILE, content) /\ read_file img inum (lget32 8 (inode_of img inum)) = content.
Proof.
  intros E inum. destruct finish_inodes as (S0 & S2 & S3 & _). pose proof few_files as [Hf1 Hf2]. pose proof (lookup_lt_Some _ _ _ E) as Hi.
  assert (Hf : file_is img (inode_of img inum) (T_FILE, content)).
  { rewrite S3 by lia. eapply file_is_same_data; [exact S0|done|lia|]. rewrite mk_upd_ne by lia.
    replace inum with (1 + Z.of_nat (S i)) by lia. apply (mi_is _ _ H). change (map as_file files !! i = Some (T_FILE, content)). by rewrite list_lookup_fmap, E. }
  split; [done|]. destruct (proj1 (Forall_lookup _ _) Hok i _ E) as [_ [_ Hmax]]. destruct Hf as [_ _ _ -> He Hb]. by apply read_file_bytes.
Qed.

Lemma finish_root : let din := inode_of img 1 in let n := Z.of_nat (length d) in
  lget16 0 din = T_DIR /\ lget16 6 din = 1 /\ lget32 8 din = (n / BSIZE + 1) * BSIZE /\
  extent img din n /\ img_bytes img din d /\ read_file img 1 n = d.
Proof.
  intros din0 n. destruct finish_inodes as (S0 & S2 & S3 & _). pose proof few_files as [Hf1 Hf2]. pose proof root_length as Hl. fold n in Hl.
  destruct (mi_is _ _ H 0 _ eq_refl) as [F1 F2 F3 F4 F5 F6]. change (1 + Z.of_nat 0) with 1 in *. cbn [fst snd] in *. fold d in F4, F5, F6. fold n in F4, F5.
  pose proof (fv_din _ _ _ _ (mi_files _ _ H) 1 ltac:(lia)) as [Hdl _].
  assert (E0 : din0 = din) by (unfold din0; rewrite S3 by lia; apply mk_upd_eq).
  assert (Hs : forall k, is_slot k -> slot img din k = slot (mk_img st) (inode_of (mk_img st) 1) k).
  { intros k Hk. pose proof (slot_same_data _ img _ _ _ 1 k S0 S2 ltac:(lia)) as Es. rewrite mk_upd_eq in Es. rewrite Es. by apply slot_set_size. }
  assert (He : extent img din n).
  { destruct F5 as [E1 E2]. split; [intros f Hf; rewrite Hs by (by apply data_slot_ok); auto|]. unfold indirect_of, din. by rewrite lget32_set_size by (done || lia). }
  assert (Hb : img_bytes img din d).
  { intros j Hj. assert (0 <= j / 512 < 140) by (Z.div_mod_to_equations; lia). rewrite Hs by (by apply data_slot_ok). intros Hne. rewrite <- F6 by done.
    unfold blk. rewrite S2; [done|]. destruct (fv_range _ _ _ _ (mi_files _ _ H) 1 (data_slot (j / 512)) ltac:(lia)) as [?|[? _]]; [by apply data_slot_ok|done|done]. }
  rewrite E0. split_and!; [| | |done|done|].
  - rewrite <- F1. unfold lget16, din. by rewrite !lbyte_set_size by (done || lia).
  - rewrite <- F3. unfold lget16, din. by rewrite !lbyte_set_size by (done || lia).
  - unfold din, set_din_size. fold n. change BSIZE with 512. assert (Hu : is_u32 ((n / 512 + 1) * 512)) by (unfold is_u32; Z.div_mod_to_equations; lia).
    rewrite lget32_lput32_eq, (xint_small _ Hu) by lia. by apply u32_small.
  - apply read_file_bytes; [by fold din0; rewrite E0|by fold din0; rewrite E0|lia].
Qed.

Lemma finish_built : built img files.
Proof.
  destruct finish_inodes as (S0 & S2 & S3 & Him). pose proof few_files as [Hf1 Hf2]. pose proof (mi_freeblock _ _ H) as Hfb.
  pose proof (fv_fb _ _ _ _ S0) as Hr. change FSSIZE with 1000 in Hr. change nmeta with 59 in Hr.
  assert (Hfront : forall b, 0 <= b < 32 -> img !! b = mk_img blank !! b).
  { intros b Hb. unfold img, finished, img_put_inode. rewrite !lookup_insert_ne; [by apply (mi_front _ _ H)| |lia]. destruct (inode_block 1); lia. }
  split; [done| | |exact finish_file|exact finish_root| | | |exact Hroom|].
  - unfold blk. rewrite Hfront by lia. rewrite blank_lookup. reflexivity.
  - intros b Hb. rewrite Hfront by lia. rewrite blank_lookup. rewrite decide_False, decide_True by (change FSSIZE with 1000; lia). done.
  - intros j Hj. rewrite S3, mk_upd_ne by lia. apply (mi_unused _ _ H). lia.
  - intros i j k l Hi Hj Hk Hl'. rewrite !S3 by lia. rewrite !(slot_same_data _ img _ _ _ _ _ S0 S2) by lia. apply (fv_inj _ _ _ _ S0); (done || lia).
  - intros j k Hj Hk. rewrite S3, (slot_same_data _ img _ _ _ _ _ S0 S2) by lia. pose proof (fv_range _ _ _ _ S0 j k ltac:(lia) Hk). lia.
  - intros b Hb. change (sb_bmapstart mk_sb) with 58. unfold img, finished. rewrite blk_insert.
    destruct (mark_used_spec (Z.to_nat (mk_freeblock st)) 0 zeroes b) as (-> & _); [lia|rewrite (proj1 zeroes_ok); lia|lia|].
    unfold bitmap at 1, zeroes. rewrite lbyte_zeroes, Z.bits_0, Hfb. cbn [orb]. rewrite (proj2 (Z.leb_le 0 b)) by lia. cbn [andb]. f_equal. lia.
Qed.
End finish.

(** The run of [mkfs] on a command line whose files fit. *)
Lemma mkfs_run files : Forall file_ok files -> (length files <= 198)%nat -> nmeta + total (image_files files) <= FSSIZE ->
  exists st, mkfs files = Some st /\ built (mk_img st) files.
Proof.
  intros Hok Hn Hroom. assert (Edir : root_dir files = (mk_entry 1 (bytes ".") ++ mk_entry 1 (bytes "..")) ++ entries_from 2 files) by (by rewrite <- app_assoc).
  assert (E32 : cost (Z.of_nat 16) = 1 /\ cost (Z.of_nat 32) = 1) by done.
  destruct (mk_ialloc_spec blank [] T_DIR blank_inv) as (st1 & E1 & H1); [cbn; lia|done|]. cbn [app length] in E1, H1.
  assert (Hdots : bytes_ok (mk_entry 1 (bytes ".")) /\ bytes_ok (mk_entry 1 (bytes ".."))) by (split; (apply mk_entry_ok; [lia|]; repeat constructor; lia)).
  destruct (iappend_spec st1 _ 0 T_DIR [] (mk_entry 1 (bytes ".")) H1 eq_refl (proj1 Hdots)) as (st2 & E2 & H2); [done|vm_compute; discriminate|].
  destruct (iappend_spec st2 _ 0 T_DIR _ (mk_entry 1 (bytes "..")) H2 eq_refl (proj2 Hdots)) as (st3 & E3 & H3); [done|vm_compute; discriminate|].
  cbn [insert list_insert app] in H2, H3. set (dots := mk_entry 1 (bytes ".") ++ mk_entry 1 (bytes "..")) in *.
  change (Z.of_nat (length [] )) with 0 in *.
  destruct (add_files_spec files st3 dots [] H3 Hok) as (st4 & E4 & H4); [cbn; lia|done| |].
  { change (2 + Z.of_nat (length [])) with 2. rewrite <- Edir. exact Hroom. }
  change (2 + Z.of_nat (length [])) with 2 in H4. rewrite <- Edir in H4. cbn [app] in H4. fold (image_files files) in H4.
  exists (MkMk (finished st4 (root_dir files)) (mk_freeinode st4) (mk_freeblock st4)). split; [|by apply finish_built].
  unfold mkfs. rewrite E1. cbn [mkbind]. change (1 + Z.of_nat 0) with 1 in *. change (1 =? ROOTINO) with true. cbn [negb].
  rewrite E2. cbn [mkbind]. rewrite E3. cbn [mkbind]. rewrite E4. cbn [mkbind]. exact (finish_run st4 _ _ H4 Hroom).
Qed.
