(* ===== verification/Mount.v ===== *)
(** * The image of mkfs under the kernel

    A kernel whose root device holds the image that [mkfs] has built: the
    root directory and the files are a [tree] of PathFacts, so that [namei]
    finds the files by their names and [readi] reads what was put into them. *)

From Stdlib Require Import Ascii String.
From S2P Require Import Prelude State Monad Mem Spinlock ConsoleOut Kalloc Vm Sched SleepWake Sleeplock Bio Memide Cache Log LogFacts Writes LogSpec Inode LogOps SampleFs Fs FsFacts FileFacts PathFacts WriteFacts Mkfs MkfsFacts MkfsImage.

(** The kernel sees the blocks of the image on its root device. *)
Record mounted {D : BlockDev} (s : kernel) (img : image) : Prop := {
  mt_sb : k_sb s = mk_sb;
  mt_blocks : forall n, 0 < n < FSSIZE -> content s ROOTDEV n = blk img n /\ blk_ok ROOTDEV n = true
}.

Lemma lget16_piece off k l : 0 <= off -> 0 <= k -> k + 2 <= 64 -> lget16 k (lget off 64 l) = lget16 (off + k) l.
Proof. intros H1 H2 H3. unfold lget16. rewrite !lbyte_lget, !decide_True by lia. by rewrite Z.add_assoc. Qed.

Lemma lget32_piece off k l : 0 <= off -> 0 <= k -> k + 4 <= 64 -> lget32 k (lget off 64 l) = lget32 (off + k) l.
Proof. intros H1 H2 H3. unfold lget32. rewrite !lget16_piece by lia. by rewrite Z.add_assoc. Qed.

(** The fields of an inode that is read from a block. *)
Lemma dec_dinode_ok off data j : bytes_ok data -> dinode_ok (dec_dinode off data j).
Proof.
  intros H. assert (Hs : forall z, - 2 ^ 15 <= i16 z < 2 ^ 15) by (intros z; unfold i16; pose proof (Z.mod_pos_bound (z + 2 ^ 15) (2 ^ 16)); lia).
  split; try apply Hs; [by apply lget32_range| |].
  - apply Forall_fmap, Forall_forall. intros k _. by apply lget32_range.
  - change (length (get_addrs (off + 12) data) = Z.to_nat (NDIRECT + 1)). unfold get_addrs. by rewrite length_fmap, length_seq.
Qed.

(** The entries of the root directory. *)
Definition file_entries (n : Z) (files : list (list Z * list Z)) : list (list Z) := imap (fun i f => mk_entry (n + Z.of_nat i) (skip_underscore (fst f))) files.
Definition root_entries (files : list (list Z * list Z)) : list (list Z) := mk_entry 1 (bytes ".") :: mk_entry 1 (bytes "..") :: file_entries 2 files.

Lemma entries_from_concat files : forall n, entries_from n files = concat (file_entries n files).
Proof.
  induction files as [|[name c] files IH]; intros n; [done|]. unfold file_entries in *. cbn [entries_from imap concat fst]. rewrite Z.add_0_r, IH. f_equal.
  f_equal. apply imap_ext. intros j x _. cbn. f_equal. lia.
Qed.

Lemma root_dir_concat files : root_dir files = concat (root_entries files).
Proof. unfold root_dir, root_entries. cbn [concat]. by rewrite entries_from_concat. Qed.

Lemma root_entries_lookup files j e : root_entries files !! j = Some e -> length e = 16%nat /\
  ((j = 0%nat /\ e = mk_entry 1 (bytes ".")) \/ (j = 1%nat /\ e = mk_entry 1 (bytes "..")) \/
   exists i f, j = S (S i) /\ files !! i = Some f /\ e = mk_entry (2 + Z.of_nat i) (skip_underscore (fst f))).
Proof.
  assert (Hl : forall n x, length (mk_entry n x) = 16%nat) by (intros; unfold mk_entry; by rewrite length_mk_dirent).
  destruct j as [|[|i]].
  - intros [= <-]. split; [apply Hl|by left].
  - intros [= <-]. split; [apply Hl|right; by left].
  - intros He. change (file_entries 2 files !! i = Some e) in He. unfold file_entries in He. rewrite list_lookup_imap in He.
    destruct (files !! i) as [f|] eqn:E; [|done]. injection He as <-.
    split; [apply Hl|right; right]. by exists i, f.
Qed.

(** The name of a file of the command line in the root directory. *)
Definition short_name (f : list Z * list Z) : list Z := take (Z.to_nat DIRSIZ) (until_nul (skip_underscore (fst f))).

Lemma entry_inum m name : 0 <= m < 2 ^ 16 -> de_inum (mk_entry m name) = m.
Proof. intros H. unfold mk_entry. rewrite de_inum_mk, xshort_small by done. by apply u16_small. Qed.

Lemma entry_is_named m name e : 0 < m < 2 ^ 16 ->
  is_named e (mk_entry m name) = bool_decide (take (Z.to_nat DIRSIZ) (until_nul name) = take (Z.to_nat DIRSIZ) e).
Proof.
  intros H. unfold is_named. rewrite entry_inum, (proj2 (Z.eqb_neq m 0)) by lia. cbn [negb andb]. unfold mk_entry. rewrite de_name_mk.
  assert (E : take (Z.to_nat DIRSIZ) (lstrncpy (until_nul name) (Z.to_nat DIRSIZ)) = lstrncpy (until_nul name) (Z.to_nat DIRSIZ)).
  { apply take_ge. unfold lstrncpy. rewrite length_take. lia. }
  rewrite E, until_nul_lstrncpy by apply until_nul_nonzero. done.
Qed.

Lemma entry_bytes m name : 0 <= m < 2 ^ 16 -> bytes_ok name -> name_bytes (mk_entry m name).
Proof. intros H Hn. destruct (mk_entry_ok m name H Hn) as [_ Ho]. eapply Forall_impl; [exact Ho|]. intros x Hx. cbn in Hx. lia. Qed.

(** A piece of a concatenation of pieces of 16 bytes. *)
Lemma lget_concat (es : list (list Z)) : Forall (fun e => length e = 16%nat) es -> forall j e rest, es !! j = Some e ->
  lget (16 * Z.of_nat j) 16 (concat es ++ rest) = e.
Proof.
  induction 1 as [|x es Hx _ IH]; intros j e rest He; [done|]. destruct j as [|j]; cbn [concat].
  - injection He as ->. unfold lget. rewrite <- app_assoc. change (Z.to_nat (16 * Z.of_nat 0)) with 0%nat. change (Z.to_nat 16) with 16%nat.
    rewrite drop_0, take_app_le, take_ge by lia. done.
  - rewrite <- (IH j e rest He). unfold lget. rewrite <- app_assoc. replace (Z.to_nat (16 * Z.of_nat (S j))) with (length x + Z.to_nat (16 * Z.of_nat j))%nat by lia.
    by rewrite drop_app_add.
Qed.

(** The bytes of the files are those of the image. *)
Section mounted.
Context {D : BlockDev} (s : kernel) (img : image) (files : list (list Z * list Z)).
Hypothesis (Hb : built img files) (Hm : mounted s img) (Hn : (length files <= 198)%nat) (Hok : Forall file_ok files).

Lemma mounted_inode n : 0 <= n < 208 -> let din := inode_of img n in let ino := disk_inode s ROOTDEV n in
  i_dev ino = ROOTDEV /\ i_type ino = i16 (lget16 0 din) /\ i_nlink ino = i16 (lget16 6 din) /\ i_size ino = lget32 8 din /\
  forall f, 0 <= f < 13 -> iaddr ino f = lget32 (12 + 4 * f) din.
Proof.
  intros H din ino. destruct (inode_block n H) as [B1 B2]. change FSSIZE with 1000 in *.
  destruct (mt_blocks _ _ Hm (n / 8 + 32)) as [Ec _]; [change FSSIZE with 1000; lia|].
  assert (E : ino = dec_dinode (dinode_off n) (blk img (n / 8 + 32)) (MkInode ROOTDEV n 0 (MkSleeplock 0 "" 0) 0 0 0 0 0 0 [])).
  { unfold ino, disk_inode, from_disk. cbn [i_inum i_dev]. rewrite (mt_sb _ _ Hm), IBLOCK_mk by done. by rewrite Ec. }
  unfold din, inode_of. rewrite !lget16_piece, lget32_piece by lia. rewrite E, Z.add_0_r. unfold dinode_off. change IPB with 8.
  split_and!; try done. intros f Hf. rewrite lget32_piece by lia. unfold iaddr. cbn [i_addrs dec_dinode]. unfold_set. cbn.
  unfold get_addrs. rewrite list_lookup_fmap, lookup_seq_lt by (change (Z.to_nat (NDIRECT + 1)) with 13%nat; lia). cbn. f_equal. lia.
Qed.

Definition in_image (n : Z) : Prop := 1 <= n < 2 + Z.of_nat (length files).

Lemma slot_range n k : in_image n -> is_slot k -> slot img (inode_of img n) k = 0 \/ nmeta <= slot img (inode_of img n) k < FSSIZE.
Proof. intros Hi Hk. pose proof (bt_room _ _ Hb). destruct (bt_range _ _ Hb n k Hi Hk); [by left|right; lia]. Qed.

Lemma mounted_block n f : in_image n -> 0 <= f < 140 -> slot img (inode_of img n) (data_slot f) <> 0 ->
  block_of s (disk_inode s ROOTDEV n) f = slot img (inode_of img n) (data_slot f) /\ mapped s (disk_inode s ROOTDEV n) f.
Proof.
  intros Hi Hf Hs. unfold in_image in Hi. destruct (mounted_inode n ltac:(lia)) as (Ed & _ & _ & _ & Ha). cbv zeta in *.
  set (ino := disk_inode s ROOTDEV n) in *. set (din := inode_of img n) in *.
  assert (Hrange : forall k, is_slot k -> slot img din k <> 0 -> 0 < slot img din k < FSSIZE).
  { intros k Hk Hz. destruct (slot_range n k Hi Hk) as [?|[? ?]]; [done|]. change nmeta with 59 in *. unfold din. lia. }
  assert (Hslot : is_slot (data_slot f)) by (by apply data_slot_ok).
  assert (E : block_of s ino f = slot img din (data_slot f) /\ (12 <= f -> iaddr ino NDIRECT <> 0 /\ 0 < iaddr ino NDIRECT < FSSIZE)).
  { unfold block_of, data_slot in *. change NDIRECT with 12. destruct (Z.ltb_spec f 12) as [H|H].
    - rewrite Ha by lia. unfold slot. rewrite (proj2 (Z.ltb_lt f 13)) by lia. split; [done|lia].
    - rewrite Ed, (Ha 12) by lia. unfold slot in *. rewrite (proj2 (Z.ltb_ge (f + 1) 13)) in * by lia. change (12 + 4 * 12) with 60. fold (indirect_of din) in *.
      destruct (Z.eqb_spec (indirect_of din) 0) as [Hz|Hz]; [done|].
      assert (Hi12 : 0 < indirect_of din < FSSIZE) by (apply (Hrange 12); [unfold is_slot; lia|exact Hz]).
      destruct (mt_blocks _ _ Hm _ Hi12) as [-> _]. split; [f_equal; lia|done]. }
  destruct E as [E Hind]. split; [done|]. split; rewrite ?E, ?Ed.
  - done.
  - apply (mt_blocks _ _ Hm), Hrange; done.
  - intros H. destruct (Hind H) as [I1 I2]. split; [done|]. by apply (mt_blocks _ _ Hm).
Qed.

(** A file with [size] bytes all of whose blocks are in the image. *)
Lemma mounted_whole n size : in_image n -> i_size (disk_inode s ROOTDEV n) = size -> 0 <= size <= 71680 ->
  (forall f, 0 <= f < 140 -> f * 512 < size -> slot img (inode_of img n) (data_slot f) <> 0) ->
  whole s (disk_inode s ROOTDEV n) /\ file_data s (disk_inode s ROOTDEV n) = read_file img n size.
Proof.
  intros Hi Es Hs He. split.
  - split; [rewrite Es; exact Hs|]. intros f F1 F2. change BSIZE with 512 in F2. rewrite Es in F2. apply mounted_block; [done|lia|]. apply He; lia.
  - unfold file_data, file_bytes, read_file. rewrite Es. apply map_ext_in. intros x Hx%list_elem_of_In%elem_of_seqZ. unfold file_byte. change BSIZE with 512.
    assert (Hf : 0 <= x / 512 < 140 /\ x / 512 * 512 < size) by (Z.div_mod_to_equations; lia). destruct Hf as [F1 F2]. specialize (He _ F1 F2).
    destruct (mounted_block n (x / 512) Hi F1 He) as [-> _]. destruct (mounted_inode n ltac:(unfold in_image in Hi; lia)) as (-> & _).
    destruct (slot_range n (data_slot (x / 512)) Hi) as [?|[? ?]]; [by apply data_slot_ok|done|]. change nmeta with 59 in *.
    destruct (mt_blocks _ _ Hm (slot img (inode_of img n) (data_slot (x / 512)))) as [-> _]; [lia|done].
Qed.

Lemma mounted_node n : in_image n -> i_type (disk_inode s ROOTDEV n) <> 0 -> i_nlink (disk_inode s ROOTDEV n) <> 0 ->
  whole s (disk_inode s ROOTDEV n) -> node_ok s ROOTDEV n.
Proof.
  intros Hi H1 H2 H3. unfold in_image in Hi. destruct (inode_block n ltac:(lia)) as [B _].
  split; rewrite ?(mt_sb _ _ Hm), ?IBLOCK_mk by lia; [lia| |done..]. apply (mt_blocks _ _ Hm). change FSSIZE with 1000. lia.
Qed.

Lemma mounted_file i name data : files !! i = Some (name, data) -> let n := 2 + Z.of_nat i in let ino := disk_inode s ROOTDEV n in
  node_ok s ROOTDEV n /\ i_type ino = T_FILE /\ file_data s ino = data /\ i_size ino = Z.of_nat (length data).
Proof.
  intros E n ino. pose proof (lookup_lt_Some _ _ _ E) as Hlt. assert (Hi : in_image n) by (unfold in_image; lia).
  destruct (bt_file _ _ Hb i name data E) as [[T1 _ T3 T4 [He _] _] Hread]. cbn [fst snd] in T1, T3, T4, He, Hread. fold n in T1, T3, T4, He, Hread.
  destruct (mounted_inode n ltac:(unfold in_image in Hi; lia)) as (_ & I1 & I2 & I3 & _). fold ino in I1, I2, I3. rewrite T1 in I1. rewrite T3 in I2. rewrite T4 in I3.
  destruct (proj1 (Forall_lookup _ _) Hok i _ E) as [_ [_ Hmax]]. cbn [snd] in Hmax. change (MAXFILE * BSIZE) with 71680 in Hmax.
  destruct (mounted_whole n (Z.of_nat (length data)) Hi I3 ltac:(lia)) as [Hw Hd]; [intros f F1 F2; by apply He|].
  split_and!; [|by rewrite I1|rewrite <- Hread, T4; exact Hd|done]. apply mounted_node; [done|by fold ino; rewrite I1|by fold ino; rewrite I2|done].
Qed.

(** ** Writing to the image *)

(** The log is at the blocks 2 to 31, the inodes begin at block 32. *)
Definition log_start_mk : Z := 2.

Lemma mounted_home z : 32 <= z < FSSIZE -> home ROOTDEV log_start_mk z.
Proof.
  intros Hz. change FSSIZE with 1000 in Hz. split_and!; [lia|lia|apply (mt_blocks _ _ Hm); change FSSIZE with 1000; lia|].
  right. change LOGSIZE with 30. unfold log_start_mk. lia.
Qed.

Lemma BBLOCK_mk b : 0 <= b < FSSIZE -> BBLOCK b mk_sb = 58.
Proof.
  intros H. change FSSIZE with 1000 in H. unfold BBLOCK. change BPB with 4096. change (sb_bmapstart mk_sb) with 58.
  rewrite Z.div_small by lia. done.
Qed.

Lemma mounted_used b : 0 <= b < FSSIZE -> used ROOTDEV s b = (b <? nmeta + total (image_files files)).
Proof.
  intros H. unfold used. rewrite (mt_sb _ _ Hm), BBLOCK_mk by done. destruct (mt_blocks _ _ Hm 58) as [-> _]; [done|].
  pose proof (bt_bitmap _ _ Hb b) as E. change (sb_bmapstart mk_sb) with 58 in E. change BPB with 4096 in *. change FSSIZE with 1000 in H.
  rewrite Z.mod_small by lia. apply E. lia.
Qed.

Lemma mounted_volume : volume ROOTDEV log_start_mk nmeta s.
Proof.
  change nmeta with 59. assert (Es : sb_size (k_sb s) = 1000) by (by rewrite (mt_sb _ _ Hm)).
  split; rewrite ?Es; [lia|lia| | |].
  - intros b Hb'. rewrite (mt_sb _ _ Hm), BBLOCK_mk by done. split; [apply mounted_home; done|lia].
  - intros z Hz. apply mounted_home. change FSSIZE with 1000. lia.
  - intros z Hz. rewrite mounted_used by (change FSSIZE with 1000; lia). apply Z.ltb_lt. change nmeta with 59. pose proof (total_nonneg (image_files files)). lia.
Qed.

(** The blocks after those in use are free. *)
Lemma mounted_free : Z.of_nat (free_blocks ROOTDEV s) = FSSIZE - (nmeta + total (image_files files)).
Proof.
  pose proof (bt_room _ _ Hb) as Hroom. pose proof (total_nonneg (image_files files)) as Ht. change nmeta with 59 in *. change FSSIZE with 1000 in *.
  unfold free_blocks. replace (sb_size (k_sb s)) with 1000 by (by rewrite (mt_sb _ _ Hm)). set (N := 59 + total (image_files files)) in *.
  replace 1000 with (N + (1000 - N)) at 1 by lia. rewrite seqZ_app, filter_app, length_app by lia.
  rewrite (filter_agree (fun b => b <? N) (used ROOTDEV s)) by (intros y Hy%elem_of_seqZ; apply mounted_used; change FSSIZE with 1000; lia).
  rewrite (filter_agree (fun b => b <? N) (used ROOTDEV s) (seqZ (0 + N) _)) by (intros y Hy%elem_of_seqZ; apply mounted_used; change FSSIZE with 1000; lia).
  rewrite (filter_agree (fun _ => true) (fun b => b <? N) (seqZ 0 N)) by (intros y Hy%elem_of_seqZ; apply Z.ltb_lt; lia).
  rewrite (filter_agree (fun _ => false) (fun b => b <? N)) by (intros y Hy%elem_of_seqZ; apply Z.ltb_ge; lia).
  assert (E1 : forall l : list Z, length (filter (fun _ => true = false) l) = 0%nat) by (induction l as [|x l IH]; [done|by rewrite filter_cons_False]).
  assert (E2 : forall l : list Z, length (filter (fun _ => false = false) l) = length l) by (induction l as [|x l IH]; [done|rewrite filter_cons_True by done; cbn; by rewrite IH]).
  rewrite E1, E2, length_seqZ. lia.
Qed.

Lemma mounted_inode_home n : 0 <= n < 208 -> inode_home ROOTDEV log_start_mk nmeta s n.
Proof.
  intros H. destruct (inode_block n H) as [B1 _]. split; rewrite ?(mt_sb _ _ Hm), ?IBLOCK_mk by done; [lia| | |].
  - apply mounted_home. change FSSIZE with 1000. lia.
  - change nmeta with 59. lia.
  - intros b Hb'. change (sb_size mk_sb) with 1000 in Hb'. rewrite BBLOCK_mk by done. lia.
Qed.

(** A cached inode of the image. *)
Section cached.
Context (n : Z) (ino : inode).
Hypothesis (Hi : in_image n) (Hst : ino = from_disk s ino) (Hd : i_dev ino = ROOTDEV) (Hnum : i_inum ino = n).

Lemma cached_same : same_file (disk_inode s ROOTDEV n) ino.
Proof. destruct (from_disk_agrees s ino Hst) as (_ & _ & _ & _ & H). by rewrite Hd, Hnum in H. Qed.

Lemma cached_place k : 0 <= k < 141 -> place ROOTDEV s ino k = slot img (inode_of img n) k.
Proof.
  intros Hk. destruct (mounted_inode n ltac:(unfold in_image in Hi; lia)) as (_ & _ & _ & _ & Ha). cbv zeta in Ha.
  assert (Ha' : forall f, 0 <= f < 13 -> iaddr ino f = lget32 (12 + 4 * f) (inode_of img n)).
  { intros f Hf. rewrite <- Ha by done. unfold iaddr. by destruct cached_same as (_ & _ & ->). }
  unfold place, slot. change NDIRECT with 12. change (12 + 1) with 13. destruct (Z.ltb_spec k 13); [apply Ha'; lia|].
  rewrite (Ha' 12) by lia. change (12 + 4 * 12) with 60. fold (indirect_of (inode_of img n)). destruct (Z.eqb_spec (indirect_of (inode_of img n)) 0) as [?|Hz]; [done|].
  destruct (slot_range n 12 Hi ltac:(unfold is_slot; lia)) as [E|E]; [done|]. change (slot img (inode_of img n) 12) with (indirect_of (inode_of img n)) in E.
  change nmeta with 59 in E. by destruct (mt_blocks _ _ Hm (indirect_of (inode_of img n))) as [-> _]; [lia|].
Qed.

Lemma cached_fields : dinode_ok ino.
Proof.
  unfold in_image in Hi. destruct (inode_block n ltac:(lia)) as [B _].
  assert (Hbk : bytes_ok (content s ROOTDEV (n / 8 + 32))).
  { destruct (mt_blocks _ _ Hm (n / 8 + 32)) as [-> _]; [change FSSIZE with 1000; lia|]. apply (image_blk img _ (bt_image _ _ Hb)). change FSSIZE with 1000. lia. }
  rewrite Hst. unfold from_disk. rewrite Hd, Hnum, (mt_sb _ _ Hm), IBLOCK_mk by lia. by apply dec_dinode_ok.
Qed.

Lemma cached_laid : laid ROOTDEV nmeta s ino.
Proof.
  assert (Es : sb_size (k_sb s) = 1000) by (by rewrite (mt_sb _ _ Hm)). pose proof (bt_room _ _ Hb) as Hroom. change FSSIZE with 1000 in Hroom.
  change places with 141. split; [done|apply cached_fields| |].
  - intros k Hk. rewrite cached_place, Es by done. intros Hz. destruct (bt_range _ _ Hb n k Hi Hk) as [?|Hr]; [done|]. split; [lia|].
    rewrite mounted_used by (change nmeta with 59 in *; change FSSIZE with 1000; lia). apply Z.ltb_lt. lia.
  - intros k l Hk Hl. rewrite !cached_place by done. intros E Hz. by destruct (bt_apart _ _ Hb n n k l Hi Hi Hk Hl E Hz).
Qed.

Lemma cached_sound : whole s (disk_inode s ROOTDEV n) -> sound ROOTDEV log_start_mk nmeta s ino.
Proof.
  intros Hw. split; [apply cached_laid| |rewrite Hnum; apply mounted_inode_home; unfold in_image in Hi; lia|apply cached_fields|exact Hst].
  pose proof cached_same as (_ & E & _). split; [rewrite E; apply Hw|]. rewrite E. intros f F1 F2. eapply mapped_same; [apply cached_same|by apply Hw].
Qed.
End cached.

(** The files of two inodes of the image have no block in common. *)
Lemma cached_apart n m ino ino' k l : in_image n -> in_image m -> n <> m -> ino = from_disk s ino -> i_dev ino = ROOTDEV -> i_inum ino = n ->
  ino' = from_disk s ino' -> i_dev ino' = ROOTDEV -> i_inum ino' = m -> 0 <= k < 141 -> 0 <= l < 141 ->
  place ROOTDEV s ino k = place ROOTDEV s ino' l -> place ROOTDEV s ino k = 0.
Proof.
  intros Hi Hi' Hne S1 D1 N1 S2 D2 N2 Hk Hl. rewrite (cached_place n ino), (cached_place m ino') by done. intros E.
  destruct (decide (slot img (inode_of img n) k = 0)) as [?|Hz]; [done|]. by destruct (bt_apart _ _ Hb n m k l Hi Hi' Hk Hl E Hz).
Qed.
(** ** Reading the image *)

(** The root directory, unless its entries fill their blocks. *)
Hypothesis Hfill : (length files mod 32 <> 30)%nat.

Lemma mounted_root : let ino := disk_inode s ROOTDEV 1 in
  node_ok s ROOTDEV 1 /\ directory s ino /\ exists k, file_data s ino = root_dir files ++ replicate k 0.
Proof.
  intros ino. assert (Hi : in_image 1) by (unfold in_image; lia).
  pose proof (bt_root _ _ Hb) as Hroot. cbv zeta in Hroot. destruct Hroot as (T1 & T3 & T4 & [He _] & Hbytes & _).
  rewrite root_length in T4, He. set (n := 32 + 16 * Z.of_nat (length files)) in *.
  set (size := (n / BSIZE + 1) * BSIZE) in *. change BSIZE with 512 in *.
  assert (Hs : n <= size <= 71680 /\ size mod 16 = 0 /\ forall f, f * 512 < size -> f * 512 < n).
  { assert (Hmod : n mod 512 <> 0).
    { intros Hz. apply Hfill. pose proof (Nat.div_mod (length files) 32 ltac:(lia)) as Hd. pose proof (Nat.mod_upper_bound (length files) 32 ltac:(lia)).
      unfold n in Hz. assert (Hq : (32 + 16 * Z.of_nat (length files mod 32)) mod 512 = 0).
      { rewrite Hd, Nat2Z.inj_add, Nat2Z.inj_mul in Hz. replace (32 + 16 * (Z.of_nat 32 * Z.of_nat (length files / 32) + Z.of_nat (length files mod 32)))
          with (32 + 16 * Z.of_nat (length files mod 32) + Z.of_nat (length files / 32) * 512) in Hz by lia. by rewrite Z.mod_add in Hz. }
      Z.div_mod_to_equations. lia. }
    unfold size. split_and!; [Z.div_mod_to_equations; lia|unfold n; Z.div_mod_to_equations; lia|Z.div_mod_to_equations; lia|].
    intros f Hf. Z.div_mod_to_equations. lia. }
  destruct Hs as (Hs1 & Hs2 & Hs3).
  destruct (mounted_inode 1 ltac:(lia)) as (_ & I1 & I2 & I3 & _). fold ino in I1, I2, I3. rewrite T1 in I1. rewrite T3 in I2. rewrite T4 in I3.
  destruct (mounted_whole 1 size Hi I3 ltac:(lia)) as [Hw Hd]; [intros f F1 F2; apply He; [done|by apply Hs3]|]. fold ino in Hw, Hd.
  split_and!.
  - apply mounted_node; [done|by fold ino; rewrite I1|by fold ino; rewrite I2|done].
  - split; [by rewrite I1|done|by rewrite I3].
  - exists (Z.to_nat (size - n)). rewrite Hd. pose proof (root_length files) as Hl. fold n in Hl.
    assert (Hlr : length (read_file img 1 size) = Z.to_nat size) by (unfold read_file; by rewrite length_map, length_seqZ).
    apply list_eq_lbyte; [rewrite Hlr, length_app, length_replicate; lia|]. rewrite Hlr. intros o Ho.
    rewrite lbyte_app, Hl by lia. transitivity (lbyte (root_dir files) o).
    + unfold lbyte at 1, read_file. rewrite list_lookup_fmap, lookup_seqZ_lt by lia. cbn. rewrite Z2Nat.id by lia.
      assert (F : 0 <= o / 512 < 140 /\ o / 512 * 512 < size) by (Z.div_mod_to_equations; lia). destruct F as [F1 F2].
      apply Hbytes; [lia|]. apply He; [done|by apply Hs3].
    + case_decide; [done|]. rewrite lbyte_zeroes. unfold lbyte. by rewrite lookup_ge_None_2 by lia.
Qed.

(** An entry of the root is one of those that were written, or free. *)
Lemma mounted_entry j de : entries s (disk_inode s ROOTDEV 1) !! j = Some de ->
  root_entries files !! j = Some de \/ ((length (root_entries files) <= j)%nat /\ de_inum de = 0 /\ name_bytes de).
Proof.
  destruct mounted_root as (_ & _ & k & E). unfold entries. rewrite list_lookup_fmap, E, root_dir_concat. intros H.
  destruct (seq 0 _ !! j) as [j'|] eqn:Ej; [|done]. apply lookup_seq in Ej as [-> _]. 
  assert (Hd : lget (16 * Z.of_nat j) 16 (concat (root_entries files) ++ replicate k 0) = de) by (injection H as H; exact H). clear H.
  assert (H16 : Forall (fun e => length e = 16%nat) (root_entries files)).
  { apply Forall_lookup. intros x e He. by apply root_entries_lookup in He as [? _]. }
  destruct (root_entries files !! j) as [e|] eqn:Ee; [left|right].
  - rewrite (lget_concat _ H16 j e _ Ee) in Hd. congruence.
  - apply lookup_ge_None in Ee. split; [done|].
    assert (Hc : length (concat (root_entries files)) = (16 * length (root_entries files))%nat).
    { clear -H16. induction H16 as [|x l Hx _ IH]; [done|]. cbn [concat length]. rewrite length_app. lia. }
    assert (Hz : exists m, de = replicate m 0).
    { exists (Nat.min 16 (k - (16 * j - length (concat (root_entries files))))). rewrite <- Hd. unfold lget. rewrite drop_app_ge by lia.
      rewrite drop_replicate, take_replicate. f_equal. lia. }
    destruct Hz as [m ->]. split; [|by apply Forall_replicate]. unfold de_inum, lget16. by rewrite !lbyte_zeroes.
Qed.

Lemma mounted_tree : tree s ROOTDEV in_image.
Proof.
  intros n Hi. destruct (decide (n = 1)) as [->|Hne].
  - destruct mounted_root as (N & Hd & _). split; [done|]. intros _.
    assert (He : Forall (fun de => name_bytes de /\ (de_inum de <> 0 -> in_image (de_inum de))) (entries s (disk_inode s ROOTDEV 1))).
    { apply Forall_lookup. intros j de [Hj|(_ & Hz & Hbs)]%mounted_entry; [|by split].
      apply root_entries_lookup in Hj as [_ [[_ ->]|[[_ ->]|(k & f & _ & Hk & ->)]]].
      - split; [apply entry_bytes; [lia|repeat constructor; lia]|]. rewrite entry_inum by lia. by intros _.
      - split; [apply entry_bytes; [lia|repeat constructor; lia]|]. rewrite entry_inum by lia. by intros _.
      - pose proof (lookup_lt_Some _ _ _ Hk). destruct (proj1 (Forall_lookup _ _) Hok k _ Hk) as [[Hnm _] _].
        split; [apply entry_bytes; [lia|by apply skip_underscore_ok]|]. rewrite entry_inum by lia. intros _. unfold in_image. lia. }
    split_and!; [done|by eapply Forall_impl; [exact He|]; intros ? [? _]|by eapply Forall_impl; [exact He|]; intros ? [_ ?]].
  - unfold in_image in Hi. destruct (lookup_lt_is_Some_2 files (Z.to_nat (n - 2)) ltac:(lia)) as [[name data] E].
    destruct (mounted_file _ _ _ E) as (N & T & _). replace (2 + Z.of_nat (Z.to_nat (n - 2))) with n in * by lia. split; [done|].
    rewrite T. discriminate.
Qed.

(** The file of the command line that [e] names. *)
Definition named_file (e : list Z) : option (nat * (list Z * list Z)) := list_find (fun f => short_name f = take (Z.to_nat DIRSIZ) e) files.

(** An entry of the root that has the name of a file. *)
Lemma mounted_named j de e : entries s (disk_inode s ROOTDEV 1) !! j = Some de -> take (Z.to_nat DIRSIZ) e <> bytes "." -> take (Z.to_nat DIRSIZ) e <> bytes ".." ->
  (is_named e de = true <-> exists i f, j = S (S i) /\ files !! i = Some f /\ short_name f = take (Z.to_nat DIRSIZ) e /\ de_inum de = 2 + Z.of_nat i) /\
  (forall i f, j = S (S i) -> files !! i = Some f -> is_named e de = bool_decide (short_name f = take (Z.to_nat DIRSIZ) e)).
Proof.
  intros Hj H1 H2. apply mounted_entry in Hj as [Hj|(Hge & Hz & _)].
  - apply root_entries_lookup in Hj as [_ [[-> ->]|[[-> ->]|(i & f & -> & Hi & ->)]]].
    1, 2: rewrite entry_is_named by lia; rewrite bool_decide_eq_false_2 by (intros E0; by rewrite <- E0 in H1, H2); (split; [|lia]);
      (split; [done|]); intros (i & f & ? & _); lia.
    pose proof (lookup_lt_Some _ _ _ Hi). rewrite entry_is_named, entry_inum by lia. fold (short_name f). split.
    + rewrite bool_decide_eq_true. split; [intros E; by exists i, f|]. intros (i' & f' & ? & Hi' & E & _). assert (i' = i) as -> by lia. congruence.
    + intros i' f' ? Hi'. assert (i' = i) as -> by lia. by assert (f' = f) as -> by congruence.
  - unfold root_entries, file_entries in Hge. cbn [length] in Hge. rewrite length_imap in Hge. unfold is_named. rewrite Hz. cbn. split.
    + split; [done|]. intros (i & f & -> & Hi%lookup_lt_Some & _). lia.
    + intros i f -> Hi%lookup_lt_Some. lia.
Qed.

Lemma root_room i : (i < length files)%nat -> is_Some (entries s (disk_inode s ROOTDEV 1) !! S (S i)).
Proof.
  intros Hlt. destruct mounted_root as (_ & _ & k & Ed). pose proof (root_length files) as Hl. apply lookup_lt_is_Some.
  unfold entries. rewrite length_map, length_seq.
  assert (El : length (file_data s (disk_inode s ROOTDEV 1)) = (length (root_dir files) + k)%nat) by (by rewrite Ed, length_app, length_replicate).
  unfold file_data in El. rewrite length_file_bytes in El. Z.div_mod_to_equations. lia.
Qed.

Lemma mounted_lookup e : take (Z.to_nat DIRSIZ) e <> bytes "." -> take (Z.to_nat DIRSIZ) e <> bytes ".." ->
  lookup_name s ROOTDEV 1 e = (fun '(i, _) => 2 + Z.of_nat i) <$> named_file e.
Proof.
  intros H1 H2. unfold lookup_name, named_file. destruct (list_find (fun f => _ = _) files) as [[i f]|] eqn:E; cbn [fmap option_fmap option_map].
  - apply list_find_Some in E as (Hi & Ef & Hj). destruct (root_room i (lookup_lt_Some _ _ _ Hi)) as [de Hde].
    destruct (mounted_named _ _ e Hde H1 H2) as [Hnm Hb1]. assert (E1 : is_named e de = true) by (rewrite (Hb1 i f eq_refl Hi); by apply bool_decide_eq_true).
    rewrite (proj2 (list_find_Some _ _ (S (S i)) de)).
    + apply Hnm in E1 as (i' & f' & ? & _ & _ & ->). f_equal. lia.
    + split_and!; [done|done|]. intros m x Hx Hlt En. apply (mounted_named _ _ e Hx H1 H2) in En as (j & g & -> & Hg & Eg & _).
      by apply (Hj j g Hg ltac:(lia)).
  - apply list_find_None in E. rewrite (proj2 (list_find_None _ _)); [done|]. apply Forall_lookup. intros j de Hde En.
    apply (mounted_named _ _ e Hde H1 H2) in En as (i & f & _ & Hi & Ef & _). rewrite Forall_lookup in E. by apply (E i f Hi).
Qed.

(** A path with one name. *)
Lemma elements_one e : e <> [] -> SLASH ∉ e -> elements (SLASH :: e) = [e].
Proof.
  intros Hne Hs. assert (E : split_slash e = [e]).
  { clear Hne. induction e as [|c e IH]; [done|]. apply not_elem_of_cons in Hs as [Hc Hs]. cbn [split_slash].
    rewrite (proj2 (Z.eqb_neq c SLASH)) by congruence. by rewrite IH. }
  unfold elements. cbn [split_slash]. rewrite Z.eqb_refl, E. rewrite filter_cons_False by auto. by rewrite filter_cons_True by done.
Qed.

(** A file of the image, read by its path. *)
Lemma mounted_read {F : Fuel} {HD : SyncDev D} i p e off n : (0 < fuel)%nat -> ready s i p -> icache_ok s -> (2 <= free_slots s)%nat -> unlocked_but None s ->
  e <> [] -> SLASH ∉ e -> path_ok e -> take (Z.to_nat DIRSIZ) e <> bytes "." -> take (Z.to_nat DIRSIZ) e <> bytes ".." -> 0 <= off -> 0 <= n -> off + n < 2 ^ 32 ->
  exists s', given_up i p s s' /\ read_path (SLASH :: e) off n s =
    Ret ((fun '(_, (_, data)) => let len := Z.of_nat (length data) in if len <? off then (-1, []) else (Z.min n (len - off), lget off (Z.min n (len - off)) data))
         <$> named_file e) s'.
Proof.
  intros Hf Hr Hok0 Hfree Hu He Hs Hp H1 H2 Ho Hn0 Hsum.
  assert (Hg : in_image ROOTINO) by (unfold in_image; change ROOTINO with 1; lia).
  pose proof (read_path_ret Hf i p s ROOTDEV in_image Hok0 Hfree mounted_tree (SLASH :: e) off n Hr Hu eq_refl Hg) as R.
  specialize (R ltac:(constructor; [done|exact Hp]) eq_refl ltac:(lia) ltac:(lia)).
  rewrite (elements_one e He Hs) in R. cbn [walk] in R. change ROOTINO with 1 in R.
  destruct mounted_root as (_ & [Td _ _] & _). rewrite Td, Z.eqb_refl, (mounted_lookup e H1 H2) in R.
  destruct (named_file e) as [[k [name data]]|] eqn:En; cbn [fmap option_fmap option_map] in R |- *.
  2: { destruct R as (s' & R & Hs'). by exists s'. }
  apply list_find_Some in En as (Hk & _ & _). destruct (mounted_file _ _ _ Hk) as (_ & T & Dk & Sk).
  cbv zeta in R. rewrite T, Dk, Sk, (proj2 (Z.leb_gt (2 ^ 32) (off + n)) Hsum), orb_false_r in R. destruct (R ltac:(done)) as (s' & Hs' & E). by exists s'.
Qed.
End mounted.

(** ** A concrete one *)

Definition two_files : list (list Z * list Z) := [(bytes "README", bytes "xv6 is"); (bytes "_sh", replicate (Z.to_nat 7000) 7)].

Lemma two_files_ok : Forall file_ok two_files.
Proof.
  assert (Hb : forall s, bool_decide (Forall (fun b => 0 <= b < 2 ^ 8) (bytes s)) = true -> bytes_ok (bytes s)).
  { intros s H. by apply bool_decide_eq_true in H. }
  repeat apply Forall_cons_2; [| |apply Forall_nil_2]; split; cbn [fst snd].
  - split; [by apply Hb|done].
  - split; [by apply Hb|done].
  - split; [by apply Hb|done].
  - split; [apply Forall_replicate; lia|]. rewrite length_replicate. change (MAXFILE * BSIZE) with 71680. lia.
Qed.

(** The machine of SampleFs with an image on its disk. *)
Definition mount (img : image) : kernel := SampleFs.kern <| k_disk := fin_maps.kmap (fun b => (ROOTDEV, b)) img |> <| k_sb := mk_sb |>.

#[local] Instance root_inj : Inj (=) (=) (fun b : Z => (ROOTDEV, b)).
Proof. by intros x y [= ->]. Qed.

Lemma mount_block img n : image_ok img -> 0 <= n < FSSIZE -> disk_block (mount img) ROOTDEV n = blk img n.
Proof.
  intros Hi Hn. unfold disk_block. change (k_disk (mount img)) with (fin_maps.kmap (M2 := gmap (Z * Z)) (fun b : Z => (ROOTDEV, b)) img). rewrite lookup_kmap by apply _.
  by destruct (image_blk img n Hi Hn) as [-> _].
Qed.

Lemma mount_length img d n : image_ok img -> length (disk_block (mount img) d n) = block_size.
Proof.
  intros Hi. unfold disk_block. destruct (k_disk (mount img) !! (d, n)) as [l|] eqn:E; [|apply length_replicate].
  change (k_disk (mount img)) with (fin_maps.kmap (M2 := gmap (Z * Z)) (fun b : Z => (ROOTDEV, b)) img) in E. apply lookup_kmap_Some in E as (b & _ & Hl); [|apply _].
  destruct (decide (0 <= b < FSSIZE)) as [Hb|Hb]; [|by rewrite (proj2 Hi b Hb) in Hl].
  destruct (image_blk img b Hi Hb) as (E & Hlen & _). rewrite E in Hl. injection Hl as <-. exact Hlen.
Qed.

Lemma mount_inode img a ia : k_inodes (mount img) !! a = Some ia -> ia = SampleFs.inode0.
Proof. intros H. by apply lookup_replicate in H as [-> _]. Qed.

(** While nothing is cached, the contents of the disk do not matter. *)
Lemma ready_disk s i p x y : ready s i p -> (forall b bf, k_bufs s !! b = Some bf -> valid bf = false) -> (forall d n, length (disk_block (s <| k_disk := x |>) d n) = block_size) -> ready (s <| k_disk := x |> <| k_sb := y |>) i p.
Proof.
  intros [[l [Hc [H1 H2 H3 _] H5]] Hs] Hv Hd. split; [|done]. exists l.
  split; [by eapply calm_same; [exact Hc|done|apply Hc..]|split; [done|done| |done]|done].
  intros b bf Hb. destruct (H3 b bf Hb). split; [done..|]. intros V. by rewrite (Hv b bf Hb) in V.
Qed.

Lemma mount_ready img : image_ok img -> ready (mount img) 0 SampleFs.running.
Proof.
  intros Hi. apply ready_disk; [|by intros b bf ->%SampleFs.kern_buf|intros d n; by apply (mount_length img)]. split; [eexists; apply SampleFs.kern_alone|].
  exists 0%nat, (SampleFs.buffer 0). by split.
Qed.

Lemma mount_icache img : icache_ok (mount img) /\ unlocked_but None (mount img) /\ free_slots (mount img) = NINODE.
Proof.
  split_and!; [split| |reflexivity].
  - reflexivity.
  - by intros a ia ->%mount_inode.
  - by intros a b ia ib ->%mount_inode.
  - by intros a ia ->%mount_inode.
  - by intros a ia ->%mount_inode.
Qed.

Lemma bufs_disk s x y : k_bufs (s <| k_disk := x |> <| k_sb := y |>) = k_bufs s.
Proof. done. Qed.

Lemma mount_bufs img : k_bufs (mount img) = k_bufs SampleFs.kern.
Proof. apply bufs_disk. Qed.

Lemma mount_mounted img : image_ok img -> mounted (D := memide (I := SampleFs.image)) (mount img) img.
Proof.
  intros Hi. split; [done|]. intros n Hn. split.
  - rewrite <- mount_block by (done || lia). unfold content. destruct (list_find _ _) as [[b bf]|] eqn:E; [|done].
    apply list_find_Some in E as (Hb & [_ Hv] & _). rewrite mount_bufs in Hb. by apply SampleFs.kern_buf in Hb as ->.
  - cbn. change (disksize (I := SampleFs.image)) with 1000. apply Z.ltb_lt. change FSSIZE with 1000 in Hn. lia.
Qed.

(** The same with inode [n] in the first slot of the inode cache. *)
Definition cached_file (img : image) (n : Z) : inode :=
  from_disk (mount img) (SampleFs.inode0 <| i_dev := ROOTDEV |> <| i_inum := n |> <| i_ref := 1 |> <| i_flags := I_VALID |>).
Definition mount_with (img : image) (n : Z) : kernel := (mount img) <| k_inodes := cached_file img n :: replicate (NINODE - 1) SampleFs.inode0 |>.

Lemma mounted_inodes {D : BlockDev} s x img : mounted s img -> mounted (s <| k_inodes := x |>) img.
Proof. intros [H1 H2]. by split. Qed.

Lemma quiet_inodes d st l s i p x : quiet d st l s i p -> quiet d st l (s <| k_inodes := x |>) i p.
Proof. intros [H1 H2 H3 H4 H5 H6 H7 H8]. split; try done. by apply alone_inodes. Qed.

Lemma quiet_disk d st l s i p x y : quiet d st l s i p -> (forall b bf, k_bufs s !! b = Some bf -> valid bf = false) ->
  (forall d n, length (disk_block (s <| k_disk := x |>) d n) = block_size) -> head_n (disk_block (s <| k_disk := x |>) d st) = 0 ->
  quiet d st l (s <| k_disk := x |> <| k_sb := y |>) i p.
Proof.
  intros [[Hc [H1 H2 H3 _] H5] Q2 Q3 Q4 Q5 Q6 Q7 _] Hv Hd Hh. split; try done.
  split; [by eapply calm_same; [exact Hc|done|apply Hc..]|split; [done|done| |done]|done].
  intros b bf Hb. destruct (H3 b bf Hb). split; [done..|]. intros V. by rewrite (Hv b bf Hb) in V.
Qed.

Lemma mount_quiet img files : built img files -> quiet ROOTDEV log_start_mk (reverse (seq 0 NBUF)) (mount img) 0 SampleFs.running.
Proof.
  intros Hb. apply quiet_disk; [apply SampleFs.kern_quiet|by intros b bf ->%SampleFs.kern_buf|intros d n; by apply (mount_length img), (bt_image _ _ Hb)|].
  change (head_n (disk_block (mount img) ROOTDEV log_start_mk) = 0). rewrite mount_block by (apply (bt_image _ _ Hb) || done).
  unfold blk. rewrite (bt_front _ _ Hb log_start_mk) by (unfold log_start_mk; lia). reflexivity.
Qed.
