(* ===== verification/SchedTheorems.v ===== *)
(** * Scheduling and synchronisation: the theorems

    The rounds of the other strategies, the quantum, the guards of [sched],
    sleeping and waking up, [kill], [sys_nice], and the two kinds of locks.
    Each theorem is followed by its instance at a concrete machine. *)

From S2P Require Import Prelude State Monad Mem Spinlock Sample ConsoleOut Ports Kalloc Vm User.
From S2P Require Import Sched Policy SleepWake Sleeplock Bio Memide BioFacts Cache Log LogFacts Writes.
From S2P Require Import LogSpec Inode LogOps SampleFs Console Input Ide Fs Pipe File Proc Exec.
From S2P Require Import Syscall Sysfile Trap TrapFacts.

(** ** The other strategies *)

(** C14: under strategy 1 a round runs the first runnable process of the table
    and, when it comes back, goes on with the slots behind it; the lock of the
    table is released only after the last slot. *)
Theorem rr_schedules {L : Linker} s :
  idle s -> k_strategy s = 1 ->
  exists o, rr_result runnable (enter s) o /\
    scheduler_round s = obind o (fun _ => release L_ptable).
Proof. apply rr_round. Qed.

Lemma rr_schedules_witness :
  let s := Sample.machine 1 10 [Sample.job 1 5 2; Sample.job 2 3 2] in
  exists o, rr_result (L := Sample.linker) runnable (enter s) o /\
    scheduler_round (L := Sample.linker) s = obind o (fun _ => release L_ptable).
Proof.
  intros s. apply (rr_schedules (L := Sample.linker) s); [|reflexivity].
  apply machine_idle; [vm_compute; lia|by repeat constructor].
Defined.

(** C15: under strategy 3 a round stores [GRT] in every runnable process and
    runs the one with the least [GRT] below the current tick, the first of
    them in the table; if there is none, no process runs. *)
Theorem guaranteed_schedules {L : Linker} s :
  idle s -> k_strategy s = 3 ->
  exists r, picks runnable (grt (k_ticks s)) (k_ticks s) (k_procs s) r /\
    match r with
    | Some i => runs s (grt_table runnable (enter s)) i
    | None => scheduler_round s = Ret tt (grt_table runnable (leave s))
    end.
Proof.
  intros Hi Hs. destruct (picks_exists runnable (grt (k_ticks s)) (k_ticks s) (k_procs s)) as [r Hr].
  exists r. split; [done|]. by apply guaranteed_round.
Qed.

Lemma guaranteed_schedules_witness :
  let s := Sample.machine 3 10 [(Sample.job 1 5 2) <| p_rtime := 10 |>; Sample.job 2 3 2] in
  runs (L := Sample.linker) s (grt_table runnable (enter s)) 1.
Proof.
  intros s. assert (Hi : idle s) by (apply machine_idle; [vm_compute; lia|by repeat constructor]).
  destruct (guaranteed_schedules (L := Sample.linker) s Hi eq_refl) as (r & Hr & H).
  assert (Hp : picks runnable (grt 10) 10 (k_procs s) (Some 1%nat))
    by (apply (scan_picks_eq _ _ _ _ 0); vm_compute; reflexivity).
  rewrite (picks_functional _ _ _ _ _ _ Hr Hp) in H. exact H.
Defined.

(** C4: under strategy 4 the process of queue 3 with the least [GRT] runs;
    only if queue 3 offers none, the one of queue 2 that has waited longest;
    only if that queue offers none either, a round-robin pass over queue 1. *)
Theorem mlq_schedules {L : Linker} s :
  idle s -> k_strategy s = 4 ->
  exists r, picks (runnable_at 3) (grt (k_ticks s)) (k_ticks s) (k_procs s) r /\
    match r with
    | Some i => runs s (grt_table (runnable_at 3) (enter s)) i
    | None => lower_queues s (grt_table (runnable_at 3) (enter s))
    end.
Proof. apply mlq_round. Qed.

Lemma mlq_schedules_witness :
  let s := Sample.machine 4 10 [Sample.job 1 5 2; Sample.job 2 3 2; Sample.job 3 0 1] in
  lower_queues (L := Sample.linker) s (grt_table (runnable_at 3) (enter s)).
Proof.
  intros s. assert (Hi : idle s) by (apply machine_idle; [vm_compute; lia|by repeat constructor]).
  destruct (mlq_schedules (L := Sample.linker) s Hi eq_refl) as (r & Hr & H).
  assert (Hp : picks (runnable_at 3) (grt 10) 10 (k_procs s) None)
    by (apply (scan_picks_eq _ _ _ _ 10); vm_compute; reflexivity).
  rewrite (picks_functional _ _ _ _ _ _ Hr Hp) in H. exact H.
Defined.

(** The share that strategy 3 compares is an integer quotient, 0 for every
    process that has ever waited.  So a round runs the first such process of
    the table, however much processor time the others are owed. *)
Theorem guaranteed_first_in_table {L : Linker} s i p :
  idle s -> k_strategy s = 3 -> 1 < k_ticks s -> k_procs s !! i = Some p -> runnable p = true ->
  (forall j q, k_procs s !! j = Some q -> runnable q = true ->
     0 <= p_rtime q <= k_ticks s -u p_ctime q) ->
  p_rtime p < k_ticks s -u p_ctime p ->
  (forall j q, (j < i)%nat -> k_procs s !! j = Some q -> runnable q = true ->
     0 < k_ticks s -u p_ctime q /\ p_rtime q = k_ticks s -u p_ctime q) ->
  runs s (grt_table runnable (enter s)) i.
Proof. intros Hi Hs Ht Hp Hr Hb Hw Hf. exact (guaranteed_round s (Some i) Hi Hs (picks_grt_first _ _ _ _ Ht Hp Hr Hb Hw Hf)). Qed.

(** Process 1 has had 999 of the 1000 ticks, process 2 none: process 1 runs. *)
Lemma guaranteed_first_in_table_witness :
  let s := Sample.machine 3 1000 [(Sample.job 1 5 2) <| p_rtime := 999 |>; Sample.job 2 3 2] in
  runs (L := Sample.linker) s (grt_table runnable (enter s)) 0.
Proof.
  intros s. apply (guaranteed_first_in_table (L := Sample.linker) s 0
    ((Sample.job 1 5 2) <| p_rtime := 999 |>)); try reflexivity.
  - apply machine_idle; [vm_compute; lia|by repeat constructor].
  - intros [|[|j]] q Hq Hr; [injection Hq as <-; vm_compute; split; discriminate..|].
    apply (lookup_replicate_1 62 proc_zero) in Hq as [-> _]. discriminate Hr.
  - intros j q Hj. lia.
Defined.

(** ** The timer *)

(** A timer interrupt under strategy [n], with the trap frame at address 0. *)
Definition with_timer (n : Z) (s : kernel) : kernel :=
  s <| k_strategy := n |> <| k_mem := st32 (k_mem s) TF_TRAPNO (T_IRQ0 + IRQ_TIMER) |>.
Definition interrupted (n : Z) : kernel := with_timer n SampleFs.kern.

Lemma calm_with_timer n s i p : calm s i p -> calm (with_timer n s) i p.
Proof. intros Hc. apply (calm_same s _ i p p Hc); [done|apply Hc..]. Qed.

Lemma interrupted_calm n : calm (interrupted n) 0 SampleFs.running.
Proof. apply calm_with_timer, SampleFs.kern_calm. Qed.

Lemma interrupted_cons n : cons_ready (interrupted n).
Proof.
  split; [vm_compute; by repeat split|]. right.
  split; [eapply calm_wf; apply interrupted_calm|].
  by apply (calm_locks _ _ _ (interrupted_calm n) L_cons).
Qed.

Section timer_theorems.
Context {P : Ports} {L : Linker} {F : Fuel} {D : BlockDev} {I : DiskIntr} `{!MmioQuiet P}.

(** C13: under strategy 1 a process that has just been given the processor
    keeps it for [QUANTA - 1] timer interrupts and gives it up at the
    [QUANTA]-th: it is then runnable again and has been charged exactly
    [QUANTA] ticks. *)
Theorem quantum_exact s i p tf cr2 :
  calm s i p -> p_killed p = 0 -> ld32 (k_mem s) (tf + TF_TRAPNO) = T_IRQ0 + IRQ_TIMER ->
  k_strategy s = 1 -> p_myquantum p = 0 -> is_u32 (p_rtime p) ->
  exists s1 s2 k q, interrupts (Z.to_nat QUANTA - 1) tf cr2 s = Ret tt s1 /\
    calm s1 i (used (QUANTA - 1) p) /\ trap tf cr2 s1 = Swtch s2 k /\ lock_held L_ptable s2 /\
    k_procs s2 !! i = Some q /\ p_state q = RUNNABLE /\ p_rtime q = p_rtime p +u QUANTA.
Proof.
  intros Hc Hk Ht Hs Hq Hr.
  destruct (interrupts_go_on 4 s i p tf cr2 Hc Hk Ht Hs) as (s1 & H1 & H2 & H3 & H4);
    [lia|rewrite Hq; reflexivity|done|].
  destruct (trap_yields s1 i (used 4 p) tf cr2 H2 Hk) as (s2 & k & H5 & H6 & H7).
  { by rewrite H4. }
  { unfold preempts. rewrite H3. cbn. by rewrite Hq. }
  { rewrite H3. discriminate. }
  exists s1, s2, k. eexists. split_and!; [exact H1|exact H2|exact H5|exact H6| | |].
  - rewrite H7. apply list_lookup_insert_eq. pose proof (calm_proc _ _ _ (calm_ticked _ _ _ H2)).
    by eapply lookup_lt_Some.
  - done.
  - cbn. autorewrite with cint. f_equal. unfold QUANTA. lia.
Qed.

(** Under strategies 2, 3 and 4 every timer interrupt takes the processor
    from the process it finds: the process is charged one tick, becomes
    runnable with the current tick as its priority, the processes that sleep
    on the clock are woken, and the processor switches to the scheduler with
    the lock of the table held. *)
Theorem timer_preempts s i p tf cr2 :
  calm s i p -> p_killed p = 0 -> ld32 (k_mem s) (tf + TF_TRAPNO) = T_IRQ0 + IRQ_TIMER ->
  k_strategy s <> 1 -> (k_strategy s = 2 -> cons_ready s) ->
  exists s1 k, trap tf cr2 s = Swtch s1 k /\ lock_held L_ptable s1 /\
    k_procs s1 = <[i := yielded (k_ticks (ticked s)) (charge p)]> (k_procs (ticked s)).
Proof.
  intros Hc Hk Ht Hs Hcons. apply trap_yields; [done..| |done].
  unfold preempts. by rewrite (proj2 (Z.eqb_neq _ _) Hs).
Qed.
End timer_theorems.

Lemma quantum_exact_witness :
  exists s1 s2 k q,
    interrupts (P := SamplePorts.ports (fun _ => 0)) (L := Sample.linker) (F := SampleFs.fuel1)
      (D := memide (I := SampleFs.image)) (I := ret tt) (Z.to_nat QUANTA - 1) 0 0 (interrupted 1) = Ret tt s1 /\
    calm s1 0 (used (QUANTA - 1) SampleFs.running) /\
    trap (P := SamplePorts.ports (fun _ => 0)) (L := Sample.linker) (F := SampleFs.fuel1)
      (D := memide (I := SampleFs.image)) (I := ret tt) 0 0 s1 = Swtch s2 k /\ lock_held L_ptable s2 /\
    k_procs s2 !! 0%nat = Some q /\ p_state q = RUNNABLE /\ p_rtime q = 0 +u QUANTA.
Proof.
  pose proof (SamplePorts.ports_quiet (fun _ => 0)) as Hq.
  apply (quantum_exact (interrupted 1) 0 SampleFs.running); try reflexivity.
  - apply interrupted_calm.
  - split; reflexivity.
Defined.

Lemma timer_preempts_witness :
  exists s1 k,
    trap (P := SamplePorts.ports (fun _ => 0)) (L := Sample.linker) (F := SampleFs.fuel1)
      (D := memide (I := SampleFs.image)) (I := ret tt) 0 0 (interrupted 2) = Swtch s1 k /\
    lock_held L_ptable s1 /\
    k_procs s1 = <[0%nat := yielded (k_ticks (ticked (interrupted 2))) (charge SampleFs.running)]>
      (k_procs (ticked (interrupted 2))).
Proof.
  pose proof (SamplePorts.ports_quiet (fun _ => 0)) as Hq.
  apply (timer_preempts (interrupted 2) 0 SampleFs.running); try reflexivity.
  - apply interrupted_calm.
  - discriminate.
  - intros _. apply interrupted_cons.
Defined.

(** ** Giving up the processor *)

(** [sched] switches to the scheduler if and only if the caller holds the
    lock of the table and no other, its process is no longer running, and
    interrupts are off; the process table is as the caller left it.  Each
    violated condition is a panic of its own, before anything is changed. *)
Theorem sched_guards s c i p :
  k_cpus s !! k_cpunum s = Some c -> c_proc c = Some i -> k_procs s !! i = Some p ->
  (k_strategy s = 2 -> cons_ready s) ->
  (may_sched s c i p -> exists co, sched s = Swtch (s <| k_cons := co |>) (resume c)) /\
  (~ lock_held L_ptable s -> lk_locked (getlock L_ptable s) = 1 ->
     sched s = Fault (FPanic "sched ptable.lock") s) /\
  (lock_held L_ptable s -> c_ncli c <> 1 -> sched s = Fault (FPanic "sched locks") s) /\
  (lock_held L_ptable s -> c_ncli c = 1 -> p_state p = RUNNING ->
     sched s = Fault (FPanic "sched running") s) /\
  (lock_held L_ptable s -> c_ncli c = 1 -> p_state p <> RUNNING -> c_if c = true ->
     sched s = Fault (FPanic "sched interruptible") s).
Proof.
  intros Hc Hi Hp Hcons. split; [|by apply (sched_panics s c i p)].
  intros Hms. destruct (sched_swtch s c i p Hms Hcons) as (co & H & _). eauto.
Qed.

(** A process that has taken the lock of the table and become runnable. *)
Definition giving_up (i : nat) (s : kernel) : kernel := on_proc i (yielded (k_ticks s)) (acq L_ptable s).

Lemma calm_may_sched s i p :
  calm s i p -> exists c, may_sched (giving_up i s) c i (yielded (k_ticks s) p).
Proof.
  intros Hc. pose proof (calm_wf _ _ _ Hc) as Hwf. destruct Hc as [(c & Hc & Hn & _ & Hi) Hp _ _].
  exists (cpu_push c). split; [apply (acq_in_cs L_ptable s Hwf)| |cbn; lia|done|done| |done].
  - cbn. by rewrite list_lookup_alter_eq, Hc.
  - by apply on_proc_lookup.
Qed.

Lemma sched_guards_witness :
  exists c co, sched (giving_up 0 SampleFs.kern) = Swtch ((giving_up 0 SampleFs.kern) <| k_cons := co |>) (resume c).
Proof.
  destruct (calm_may_sched _ _ _ SampleFs.kern_calm) as [c Hms]. exists c.
  apply (sched_guards (giving_up 0 SampleFs.kern) c 0 (yielded 5 SampleFs.running));
    [apply Hms..|intros E; discriminate E|exact Hms].
Defined.




(** [wakeup] makes runnable exactly the processes that sleep on the
    channel, gives these the current tick as their priority, and changes
    nothing else in the table. *)
Theorem wakeup_exact ch s :
  on_cpu_wf s -> lock_free L_ptable s ->
  exists s', wakeup ch s = Ret tt s' /\ length (k_procs s') = length (k_procs s) /\
    forall i p, k_procs s !! i = Some p ->
      k_procs s' !! i = Some (if decide (p_state p = SLEEPING /\ p_chan p = ch)
        then p <| p_state := RUNNABLE |> <| p_priority := k_ticks s |> else p).
Proof.
  intros Hwf Hl. eexists. split; [by apply wakeup_ret|]. cbn. rewrite length_fmap. split; [done|].
  intros i p Hp. rewrite list_lookup_fmap, Hp. cbn. unfold wake, is_state.
  f_equal. by repeat case_decide || case_bool_decide; try naive_solver.
Qed.

Lemma wakeup_exact_witness :
  exists s', wakeup CTicks SampleFs.kern = Ret tt s' /\
    k_procs s' !! 0%nat = Some SampleFs.running.
Proof.
  destruct (wakeup_exact CTicks SampleFs.kern) as (s' & H & _ & Hp).
  - exact (calm_wf _ _ _ SampleFs.kern_calm).
  - apply (calm_locks _ _ _ SampleFs.kern_calm). exact I.
  - exists s'. split; [exact H|]. exact (Hp 0%nat SampleFs.running eq_refl).
Defined.

(** ** kill and nice *)

(** [kill] marks the first slot with the given pid and no other, makes
    its process runnable if it sleeps, and returns 0; it returns -1 and
    changes nothing if no slot has the pid. *)
Theorem kill_branches pid s :
  on_cpu_wf s -> lock_free L_ptable s ->
  match list_find (fun p => p_pid p = pid) (k_procs s) with
  | Some (i, p) => exists s', kill pid s = Ret 0 s' /\
      k_procs s' = <[i := if decide (p_state p = SLEEPING)
        then p <| p_killed := 1 |> <| p_state := RUNNABLE |> <| p_priority := k_ticks s |>
        else p <| p_killed := 1 |>]> (k_procs s)
  | None => exists s', kill pid s = Ret (-1) s' /\ k_procs s' = k_procs s
  end.
Proof.
  intros Hwf Hl. destruct (list_find _ _) as [[i p]|] eqn:E.
  - apply list_find_Some in E as (Hp & Hpid & Hno).
    eexists. split; [eapply kill_found; [done..|]|].
    + intros j q Hj Hq. by eapply Hno.
    + cbn. unfold kill_proc, is_state. cbn. by repeat case_decide || case_bool_decide.
  - apply list_find_None in E. rewrite Forall_lookup in E.
    eexists. split; [by apply kill_missing|done].
Qed.

Lemma kill_branches_witness :
  let s := Sample.machine 1 10 [(Sample.job 3 0 3) <| p_state := SLEEPING |>] in
  exists s', kill 3 s = Ret 0 s' /\ k_procs s' !! 0%nat = Some ((Sample.job 3 10 3) <| p_killed := 1 |>).
Proof.
  intros s. destruct (kill_branches 3 s) as (s' & H & Hp).
  - exists Sample.cpu0. split; [reflexivity|]. split; [discriminate|intros H; discriminate H].
  - by exists "ptable".
  - exists s'. split; [exact H|]. rewrite Hp. reflexivity.
Defined.

(** [kill(0)] finds the first slot whose pid is 0, which is one that no
    process uses: it reports success and leaves the slot marked as killed.
    [allocproc] does not reset the mark, so the next process that gets the
    slot is killed before it runs. *)
Theorem kill_unused s i p :
  on_cpu_wf s -> lock_free L_ptable s ->
  list_find (fun p => p_pid p = 0) (k_procs s) = Some (i, p) -> p_state p = UNUSED ->
  exists s', kill 0 s = Ret 0 s' /\ k_procs s' = <[i := p <| p_killed := 1 |>]> (k_procs s) /\
    forall pid ticks, p_killed (embryo pid ticks (p <| p_killed := 1 |>)) = 1.
Proof.
  intros Hwf Hl E Hst. apply list_find_Some in E as (Hp & Hpid & Hno).
  eexists. split; [eapply kill_found; [done..|]|].
  - intros j q Hj Hq. by eapply Hno.
  - cbn. unfold kill_proc, is_state. cbn. by rewrite Hst.
Qed.

Lemma kill_unused_witness :
  exists s', kill 0 SampleFs.kern = Ret 0 s' /\
    k_procs s' = <[1%nat := proc_zero <| p_killed := 1 |>]> (k_procs SampleFs.kern).
Proof.
  destruct (kill_unused SampleFs.kern 1 proc_zero) as (s' & H & Hp & _).
  - exact (calm_wf _ _ _ SampleFs.kern_calm).
  - apply (calm_locks _ _ _ SampleFs.kern_calm). exact Logic.I.
  - vm_compute. reflexivity.
  - reflexivity.
  - exists s'. exact (conj H Hp).
Defined.

Lemma leave_queue_3 t p :
  p_queuelevel p = 3 ->
  leave_queue t p = p <| p_q3rtime := p_rtime p |> <| p_q3tatime := t -u p_ctime p |> <| p_queuelevel := 2 |>.
Proof. intros Hq. destruct p. cbn in Hq. subst. reflexivity. Qed.

Lemma leave_queue_2 t p :
  p_queuelevel p = 2 ->
  leave_queue t p = p <| p_q2rtime := p_rtime p -u p_q3rtime p |>
    <| p_q2tatime := t -u p_ctime p -u p_q3tatime p |> <| p_queuelevel := 1 |>.
Proof. intros Hq. destruct p. cbn in Hq. subst. reflexivity. Qed.

(** [sys_nice] moves the calling process one queue down, from 3 to 2 to 1
    and no further.  The times it records on the way are those of each stay:
    the running times of queues 3 and 2 add up to the running time, and the
    turnaround times to the time since creation, both modulo 2^32. *)
Theorem nice_accounts t1 t2 p r :
  p_queuelevel p = 3 ->
  let p1 := leave_queue t1 p in
  let p2 := leave_queue t2 (p1 <| p_rtime := r |>) in
  p_queuelevel p1 = 2 /\ p_q3rtime p1 = p_rtime p /\ p_q3tatime p1 = t1 -u p_ctime p /\
  p_queuelevel p2 = 1 /\ p_q3rtime p2 +u p_q2rtime p2 = u32 r /\
  p_q3tatime p2 +u p_q2tatime p2 = t2 -u p_ctime p /\
  forall s i, calm s i p2 -> sys_nice s = Ret 0 s.
Proof.
  intros Hq p1 p2. subst p1 p2. rewrite (leave_queue_3 t1 p Hq).
  rewrite leave_queue_2 by done. split_and!; [done..| | |].
  - cbn. autorewrite with cint. f_equal. lia.
  - cbn. autorewrite with cint. f_equal. lia.
  - intros s i [(c & Hc & _ & _ & Hi) Hp _ _]. unfold sys_nice, thisproc.
    erewrite bind_ret; [|rewrite (bind_ret _ _ _ _ _ (curproc_ret _ _ _ Hc Hi)),
      (bind_ret _ _ _ _ _ (getproc_ret _ _ _ Hp)); reflexivity]. reflexivity.
Qed.

Lemma nice_accounts_witness :
  p_queuelevel (leave_queue 8 (Sample.job 1 0 3)) = 2 /\
  p_q3tatime (leave_queue 8 (Sample.job 1 0 3)) = 8.
Proof.
  destruct (nice_accounts 8 20 (Sample.job 1 0 3) 5 eq_refl) as (H1 & _ & H2 & _).
  exact (conj H1 H2).
Defined.

(** ** Locks *)

(** C12: at most one processor is between [acquire] and [release] of a spin
    lock, whatever the interleaving of their memory accesses; [holding] is
    true for exactly that processor, and neither [acquire] nor [release]
    panics when each processor calls them in turn. *)
Theorem spinlock_mutual_exclusion st c d :
  Machine.reachable st ->
  (Machine.at_pc st c = Machine.Critical -> Machine.at_pc st d = Machine.Critical -> c = d) /\
  (Machine.holds st c = true <-> Machine.at_pc st c = Machine.Critical) /\
  Machine.at_pc st c <> Machine.Panicked.
Proof.
  intros H. apply Machine.inv_reachable in H. split_and!.
  - intros Hc Hd. apply (Machine.inv_one _ H); by rewrite ?Hc, ?Hd.
  - by apply Machine.inv_holding.
  - apply (Machine.inv_no_panic _ H).
Qed.

Lemma spinlock_mutual_exclusion_witness :
  exists st, Machine.at_pc st 1%nat = Machine.Critical /\ Machine.holds st 1 = true.
Proof.
  set (st1 := Machine.MkState 0 None (Machine.goto (fun _ => Machine.Outside) 1 Machine.Spinning)).
  set (st2 := Machine.MkState 1 None (Machine.goto (Machine.at_pc st1) 1 Machine.Taken)).
  set (st3 := Machine.MkState 1 (Some 1%nat) (Machine.goto (Machine.at_pc st2) 1 Machine.Critical)).
  assert (Hr : Machine.reachable st3).
  { eapply rtc_l; [exact (Machine.step_enter Machine.initial 1 eq_refl eq_refl)|].
    eapply rtc_l; [exact (Machine.step_xchg st1 1 eq_refl eq_refl)|].
    eapply rtc_l; [exact (Machine.step_record st2 1 eq_refl)|]. apply rtc_refl. }
  exists st3. destruct (spinlock_mutual_exclusion st3 1 1 Hr) as (_ & H & _).
  split; [reflexivity|]. apply H. reflexivity.
Defined.

(** [pushcli] and [popcli] nest.  After [n] pushes and [m <= n] pops
    interrupts are on only if all pushes are undone and they were on before;
    a [popcli] without a [pushcli] panics. *)
Theorem cli_nesting n m s c :
  k_cpus s !! k_cpunum s = Some c -> cpu_wf c -> (0 < m <= n)%nat ->
  exists s1 s2 c2, times n pushcli s = Ret tt s1 /\ times m popcli s1 = Ret tt s2 /\
    s2 = on_cpu (fun _ => c2) s /\ c_ncli c2 = c_ncli c + Z.of_nat n - Z.of_nat m /\
    c_if c2 = bool_decide (m = n) && c_if c /\
    (c_ncli c2 = 0 -> c_if c2 = false -> exists s3, popcli s2 = Fault (FPanic "popcli") s3).
Proof.
  intros Hc Hwf Hm. destruct (times_pushcli n s c Hc Hwf) as (s1 & c1 & H1 & H2 & H3 & H4 & H5 & H6); [lia|].
  exists s1. do 2 eexists. split; [exact H1|]. split; [eapply times_popcli; [done|done| |lia]|].
  { destruct Hwf. lia. }
  assert (Hif : (c_ncli c1 =? Z.of_nat m) && c_intena c1 = bool_decide (m = n) && c_if c).
  { destruct Hwf as [Hw0 Hw1]. rewrite H4, H6. cbn. case_bool_decide as E; cbn [andb].
    - destruct (Z.eqb_spec (c_ncli c) 0) as [E0|E0].
      + rewrite E0, E, Z.eqb_refl. done.
      + rewrite (proj2 (Z.eqb_neq _ _)) by lia. by rewrite Hw1 by lia.
    - by rewrite (proj2 (Z.eqb_neq _ _)) by lia. }
  set (c2 := c1 <| c_ncli := c_ncli c1 - Z.of_nat m |> <| c_if := (c_ncli c1 =? Z.of_nat m) && c_intena c1 |>).
  assert (E2 : on_cpu (fun c0 => c0 <| c_ncli := c_ncli c0 - Z.of_nat m |>
    <| c_if := (c_ncli c0 =? Z.of_nat m) && c_intena c0 |>) s1 = on_cpu (fun _ => c2) s).
  { etrans; [by apply (on_cpu_ext _ (fun _ => c2) s1 c1 H2)|]. rewrite H3. by rewrite on_cpu_on_cpu. }
  rewrite E2. split; [reflexivity|]. split; [cbn; lia|]. split; [exact Hif|].
  intros Hn0 Hif0. eapply (popcli_unbalanced _ c2); [by apply (on_cpu_lookup (fun _ => c2) s c)|done|].
  exact (Z.eq_le_incl _ _ Hn0).
Qed.

Lemma cli_nesting_witness :
  exists s1 s2 c2, times 3 pushcli SampleFs.kern = Ret tt s1 /\ times 3 popcli s1 = Ret tt s2 /\
    s2 = on_cpu (fun _ => c2) SampleFs.kern /\ c_if c2 = true.
Proof.
  destruct (cli_nesting 3 3 SampleFs.kern SampleFs.cpu1 eq_refl) as (s1 & s2 & c2 & H1 & H2 & H3 & _ & H4 & _).
  - split; [discriminate|intros H; discriminate H].
  - lia.
  - exists s1, s2, c2. exact (conj H1 (conj H2 (conj H3 H4))).
Defined.

(** [acquire] of a free lock takes it and turns interrupts off; a
    processor that acquires a lock it holds, or releases one it does not
    hold, panics before it changes the lock; and releasing what was acquired
    gives back the lock and the depth of [pushcli]. *)
Theorem spinlock_branches l s s' :
  on_cpu_wf s -> lock_free l s ->
  acquire l s = Ret tt (acq l s) /\ lock_held l (acq l s) /\
  acquire l (acq l s) = Fault (FPanic "acquire") (on_cpu cpu_push (acq l s)) /\
  release l s = Fault (FPanic "release") s /\
  (same_locks (acq l s) s' ->
   release l s' = Ret tt (s' <| k_cpus := k_cpus (settle s) |> <| k_locks := k_locks s |>)).
Proof.
  intros Hwf Hl. pose proof (acq_in_cs l s Hwf) as [Hh _].
  assert (Hc : on_chip (acq l s)) by (by apply on_cpu_wf_chip, acq_wf).
  split_and!; [apply acquire_ret; auto|done|by apply acquire_held| |].
  - apply release_not_held. destruct Hl as [nm Hl]. by rewrite (getlock_some _ _ _ Hl).
  - intros Hs. by apply release_acq.
Qed.

Lemma spinlock_branches_witness :
  acquire L_kmem SampleFs.kern = Ret tt (acq L_kmem SampleFs.kern) /\
  release L_kmem SampleFs.kern = Fault (FPanic "release") SampleFs.kern.
Proof.
  destruct (spinlock_branches L_kmem SampleFs.kern SampleFs.kern) as (H1 & _ & _ & H2 & _).
  - exact (calm_wf _ _ _ SampleFs.kern_calm).
  - apply (calm_locks _ _ _ SampleFs.kern_calm). exact Logic.I.
  - exact (conj H1 H2).
Defined.

(** A sleep lock that is free is taken, with the pid of the caller
    recorded; one that is held puts the caller to sleep with the lock
    untouched.  A later [releasesleep], by whatever process runs then, frees
    the lock and makes the sleeper runnable. *)
Theorem sleeplock_branches {F : Fuel} sl s i p l n :
  calm s i p -> slookup sl s = Some l -> lock_free (sl_spin sl) s -> fuel = S n ->
  (k_strategy s = 2 -> cons_ready s) ->
  (sl_locked l = 0 -> holdingsleep sl s = Ret false s /\
   exists s', acquiresleep sl s = Ret tt s' /\
     slookup sl s' = Some (l <| sl_locked := 1 |> <| sl_pid := p_pid p |>)) /\
  (sl_locked l <> 0 -> holdingsleep sl s = Ret true s /\
   exists s1 k, acquiresleep sl s = Swtch s1 k /\ slookup sl s1 = Some l /\
     k_procs s1 !! i = Some (asleep (sl_chan sl) p)) /\
  (forall s2 j q l2, calm s2 j q -> slookup sl s2 = Some l2 -> lock_free (sl_spin sl) s2 ->
     k_procs s2 !! i = Some (asleep (sl_chan sl) p) ->
     exists s3, releasesleep sl s2 = Ret tt s3 /\
       slookup sl s3 = Some (l2 <| sl_locked := 0 |> <| sl_pid := 0 |>) /\
       k_procs s3 !! i = Some ((asleep (sl_chan sl) p) <| p_state := RUNNABLE |> <| p_priority := k_ticks s2 |>)).
Proof.
  intros Hc Hsl Hf Hfuel Hcons. pose proof (holdingsleep_calm sl s i p l Hc Hsl Hf) as Hh. split_and!.
  - intros E. rewrite E in Hh. split; [exact Hh|].
    eexists. split; [eapply acquiresleep_calm; [done..|lia]|]. by erewrite slookup_on_sl by exact Hsl.
  - intros E. rewrite (proj2 (Z.eqb_neq _ _) E) in Hh. split; [exact Hh|].
    destruct (acquiresleep_held sl s i p l Hc Hsl Hf n E Hfuel Hcons) as (s1 & k & H1 & H2 & H3 & _). eauto.
  - intros s2 j q l2 Hc2 Hl2 Hf2 Hp2. eexists. split; [by eapply releasesleep_calm|]. split.
    + unfold drop_sl. by destruct sl; cbn in *; rewrite list_lookup_alter_eq;
        destruct (_ !! _) in Hl2 |- *; simplify_eq/=.
    + unfold drop_sl. cbn. rewrite list_lookup_fmap, Hp2. cbn. unfold wake, is_state.
      by rewrite !bool_decide_eq_true_2.
Qed.

Lemma sleeplock_branches_witness :
  exists s', acquiresleep (F := SampleFs.fuel1) (SL_buf 3) SampleFs.kern = Ret tt s' /\
    slookup (SL_buf 3) s' = Some (MkSleeplock 1 "buffer" 7).
Proof.
  destruct (sleeplock_branches (F := SampleFs.fuel1) (SL_buf 3) SampleFs.kern 0 SampleFs.running
    (MkSleeplock 0 "buffer" 0) 0) as ((_ & H) & _).
  - exact SampleFs.kern_calm.
  - reflexivity.
  - apply SampleFs.freeb_free. vm_compute. reflexivity.
  - reflexivity.
  - intros E. discriminate E.
  - reflexivity.
  - exact H.
Defined.

(** The queue that [sched] prints under strategy 2 holds exactly the
    runnable processes, in the order in which that strategy would run them:
    by their priorities. *)
Theorem print_queue_order ps :
  sort_queue (run_queue ps) ≡ₚ
    ((fun p => (p_priority p, p_pid p)) <$> filter (fun p => p_state p = RUNNABLE) ps) /\
  forall a b x y, (a < b)%nat -> sort_queue (run_queue ps) !! a = Some x ->
    sort_queue (run_queue ps) !! b = Some y -> fst x <= fst y.
Proof. destruct (sort_queue_spec (run_queue ps)) as [H1 H2]. exact (conj H2 H1). Qed.
