(* ===== verification/FsTheorems.v ===== *)
(** * The file system: the theorems

    From the disk driver up: the buffer cache, the log, the structures on the
    disk, path names, and pipes.  Each theorem with hypotheses is followed by
    its instance at a concrete machine. *)

From S2P Require Import Prelude State Monad Mem Spinlock Sample ConsoleOut Ports Kalloc Vm User.
From S2P Require Import Sched SleepWake Sleeplock Bio Memide BioFacts Cache Log LogFacts Writes LogSpec.
From S2P Require Import Inode LogOps SampleFs Console Fs FsFacts FileFacts PathFacts WriteFacts Pipe PipeFacts Mkfs MkfsFacts MkfsImage Mount.

(** ** Transactions *)

(** C1: a transaction is atomic.  [begin_op], updates of blocks that fit in
    the log, [end_op]: when it returns, the home blocks on the disk are the
    updated ones.  If the machine stops between any two of the disk writes,
    what [recover_from_log] makes of the disk after the reboot is, on all
    home blocks together, either the state before or the state after. *)
Theorem transaction_atomic {F : Fuel} {D : BlockDev} {HD : SyncDev D} (Hfuel : (0 < fuel)%nat)
    d st ups l s i p :
  log_region d st -> quiet d st l s i p -> Forall (update_ok d st) ups ->
  Z.of_nat (length ups) <= log_size (k_log s) - 1 ->
  exists l' s' ws, transaction d ups s = Ret tt s' /\ quiet d st l' s' i p /\
    (forall z, home d st z -> disk_block s' d z = apply_ups d ups (disk_block s) d z) /\
    k_writes s' = k_writes s ++ ws /\
    forall ws1 ws2, ws = ws1 ++ ws2 ->
    forall lb sb ib pb, booted d st (upd_all ws1 (disk_block s)) lb sb ib pb ->
    exists sr, recover_from_log sb = Ret tt sr /\
      ((forall z, home d st z -> disk_block sr d z = disk_block s d z) \/
       (forall z, home d st z -> disk_block sr d z = apply_ups d ups (disk_block s) d z)).
Proof. intros Hreg. by apply (transaction_ret Hfuel d st Hreg). Qed.

Lemma transaction_atomic_witness :
  exists l' s' ws,
    transaction (F := SampleFs.fuel1) (D := memide (I := SampleFs.image)) 1
      [(100, fun _ => replicate 512 7); (200, fun _ => replicate 512 8)] SampleFs.kern = Ret tt s' /\
    quiet 1 2 l' s' 0 SampleFs.running /\ k_writes s' = k_writes SampleFs.kern ++ ws.
Proof.
  destruct (transaction_atomic (F := SampleFs.fuel1) (D := memide (I := SampleFs.image))
    (HD := memide_sync) (le_n 1) 1 2 [(100, fun _ => replicate 512 7); (200, fun _ => replicate 512 8)]
    (reverse (seq 0 NBUF)) SampleFs.kern 0 SampleFs.running) as (l' & s' & ws & H1 & H2 & _ & H3 & _).
  - apply SampleFs.image_region.
  - apply SampleFs.kern_quiet.
  - repeat apply Forall_cons_2; [| |apply Forall_nil_2]; (split; [apply SampleFs.image_home; cbn; lia|intros data _; apply length_replicate]).
  - vm_compute. discriminate.
  - exists l', s', ws. exact (conj H1 (conj H2 H3)).
Defined.

(** The header block of the log round-trips: what [write_head] encodes is
    what [read_head] decodes, the number of blocks and the block numbers. *)
Theorem log_header_roundtrip bl data :
  length data = block_size -> Z.of_nat (length bl) <= LOGSIZE -> Forall (fun z => 0 <= z < 2 ^ 31) bl ->
  head_n (head_block bl data) = Z.of_nat (length bl) /\ head_blocks (head_block bl data) = bl.
Proof. intros H1 H2 H3. split; [by apply head_n_block|by apply head_blocks_block]. Qed.

Lemma log_header_roundtrip_witness :
  head_blocks (head_block [100; 200; 7] (replicate 512 9)) = [100; 200; 7].
Proof. apply log_header_roundtrip; [reflexivity|vm_compute; discriminate|repeat constructor; lia]. Defined.



(** [begin_op] admits an operation if no commit is under way and the log
    has room for [MAXOPBLOCKS] blocks of every operation in progress, and
    counts it; otherwise the process sleeps on the log and the count is
    unchanged.  [end_op] of an operation that is not the last one only counts
    down and wakes the sleepers. *)
Theorem begin_op_admission {F : Fuel} {D : BlockDev} (Hfuel : (0 < fuel)%nat) s i p :
  calm s i p -> (k_strategy s = 2 -> cons_ready s) ->
  (admits (k_log s) -> exists s', begin_op s = Ret tt s' /\
     log_outstanding (k_log s') = log_outstanding (k_log s) + 1 /\ k_procs s' = k_procs s) /\
  (~ admits (k_log s) -> exists s1 k, begin_op s = Swtch s1 k /\ k_log s1 = k_log s /\
     k_procs s1 = <[i := asleep CLog p]> (k_procs s) /\ lock_free L_log s1) /\
  (log_committing (k_log s) = 0 -> log_outstanding (k_log s) <> 1 -> exists s', end_op s = Ret tt s' /\
     log_outstanding (k_log s') = log_outstanding (k_log s) - 1 /\ k_disk s' = k_disk s /\
     k_procs s' = wake (k_ticks s) CLog <$> k_procs s).
Proof.
  intros Hc Hcons. split_and!.
  - intros H. eexists. split; [by eapply begin_op_ret|done].
  - intros H. by eapply begin_op_blocks.
  - intros H1 H2. eexists. split; [by eapply end_op_others|done].
Qed.

Lemma begin_op_admission_witness :
  exists s', begin_op (F := SampleFs.fuel1) SampleFs.kern = Ret tt s' /\
    log_outstanding (k_log s') = 1.
Proof.
  destruct (begin_op_admission (F := SampleFs.fuel1) (D := memide (I := SampleFs.image)) (le_n 1) SampleFs.kern 0
    SampleFs.running) as (H & _).
  - apply SampleFs.kern_calm.
  - intros E. discriminate E.
  - destruct H as (s' & H1 & H2 & _); [split; [reflexivity|vm_compute; discriminate]|].
    exists s'. exact (conj H1 H2).
Defined.

(** ** The buffer cache *)

Lemma synced_flags f : valid (f <| b_flags := Z.lor (Z.land (b_flags f) (Z.lnot B_DIRTY)) B_VALID |>) = true /\
  dirty (f <| b_flags := Z.lor (Z.land (b_flags f) (Z.lnot B_DIRTY)) B_VALID |>) = false.
Proof.
  rewrite valid_bit, dirty_bit.
  change (Z.testbit (Z.lor (Z.land (b_flags f) (Z.lnot B_DIRTY)) B_VALID) 1 = true /\
    Z.testbit (Z.lor (Z.land (b_flags f) (Z.lnot B_DIRTY)) B_VALID) 2 = false).
  rewrite !Z.lor_spec, !Z.land_spec. split; [apply orb_true_r|by rewrite andb_false_r].
Qed.

(** The in-memory driver serves a request before it returns: it writes a
    dirty buffer to its block and no other, or fills the buffer from its
    block, and leaves it valid and clean.  This is what the cache and the log
    rely on. *)
Theorem memide_serves {I : FsImage} s i p b bf :
  calm s i p -> request (D := memide) s b bf ->
  exists s' bf', iderw (BlockDev := memide) b s = Ret tt s' /\ k_bufs s' = <[b := bf']> (k_bufs s) /\
    valid bf' = true /\
    (if dirty bf
     then dirty bf' = false /\ b_data bf' = b_data bf /\
       k_disk s' = <[(b_dev bf, b_blockno bf) := b_data bf]> (k_disk s) /\
       k_writes s' = k_writes s ++ [(b_dev bf, b_blockno bf, b_data bf)]
     else k_disk s' = k_disk s /\ k_writes s' = k_writes s /\
       b_data bf' = disk_block s (b_dev bf) (b_blockno bf)).
Proof.
  intros Hc Hr. pose proof (rq_buf _ _ _ Hr) as Hb.
  pose proof (memide_sync s i p b bf Hc Hr) as H. unfold sync in H.
  destruct (dirty bf) eqn:Hd; eexists _, _; (split; [exact H|]); (split; [by apply list_alter_insert|]).
  - split; [apply synced_flags|]. split; [apply synced_flags|done].
  - split; [exact (filled_valid _ bf)|done].
Qed.

(** Buffer 0, locked for block 100 of device 1, not yet read. *)
Definition wanted (bf : buf) : buf :=
  bf <| b_dev := 1 |> <| b_blockno := 100 |> <| b_lock := MkSleeplock 1 "buffer" 7 |>.
Definition requested (bf : buf) (s : kernel) : kernel := put_buf 0 (wanted bf) s.

Lemma requested_ok {I : FsImage} s i p bf :
  calm s i p -> k_bufs s !! 0%nat = Some bf -> b_flags bf = 0 -> 100 < disksize ->
  calm (requested bf s) i p /\ request (D := memide) (requested bf s) 0 (wanted bf).
Proof.
  intros Hc Hb Hf Hd. split; [by apply (calm_bufs s)|].
  split; [by eapply put_buf_lookup| |done|right|].
  - apply (calm_locks _ _ _ Hc (L_buf 0)). unfold static_lock, NBUF. lia.
  - unfold valid. cbn. by rewrite Hf.
  - by apply Z.ltb_lt.
Qed.

Lemma memide_serves_witness :
  exists s', iderw (BlockDev := memide (I := SampleFs.image)) 0
      (requested (SampleFs.buffer 0) SampleFs.kern) = Ret tt s' /\
    k_disk s' = k_disk SampleFs.kern.
Proof.
  destruct (requested_ok (I := SampleFs.image) SampleFs.kern 0 SampleFs.running (SampleFs.buffer 0)
    SampleFs.kern_calm eq_refl eq_refl eq_refl) as [Hc Hr].
  destruct (memide_serves _ 0 SampleFs.running 0 _ Hc Hr) as (s' & bf' & H1 & _ & _ & H2 & _).
  exists s'. exact (conj H1 H2).
Defined.

(** C7: the cache is transparent and keeps its buffers in the order of last
    use.  [bread] returns a locked buffer with the current content of the
    block, whether it was cached or not; after [brelse] no block has changed,
    on the disk or in the cache, the invariant of the cache holds, and the
    buffer is the first of the list, the last to be recycled. *)
Theorem bread_transparent {F : Fuel} {D : BlockDev} {HD : SyncDev D} (Hfuel : (0 < fuel)%nat) l s i p d n :
  alone l s i p -> (d, n) <> (0, 0) -> blk_ok d n = true -> (exists b, spare s b) ->
  exists b s1 bf s2, bread d n s = Ret b s1 /\ owns s1 (p_pid p) d n b bf /\
    b_data bf = content s d n /\ brelse b s1 = Ret tt s2 /\
    alone (b :: filter (fun c => c <> b) l) s2 i p /\ k_disk s2 = k_disk s /\
    forall d' n', (d', n') <> (0, 0) -> content s2 d' n' = content s d' n'.
Proof.
  intros Hal Hdn Hok Hsp.
  destruct (first_bread Hfuel l s i p d n Hal Hdn Hok Hsp) as (b & f0 & bf & H1 & Hf & Hi1 & Hc1).
  pose proof Hf as [Hb0 Hown Hdat Href Hkept _ _].
  destruct (release_block l s i p d n b f0 bf Hal Hf Hi1 Hc1) as (s2 & H2 & W & _).
  assert (Hcalm : calm (put_buf b bf s) i p) by (eapply calm_bufs; [apply Hal|done]).
  destruct (brelse_ret l _ i p (p_pid p) d n b bf Hcalm Hi1 Hown Hkept) as (s2' & H2' & R & Hi2 & Hc2 & _).
  assert (s2' = s2) as -> by congruence. unfold touch in Hi2. rewrite Href in Hi2.
  destruct W as [[l' Hal'] _ _ _ Hco _].
  exists b, (put_buf b bf s), bf, s2. split_and!; [done..| | |].
  - split; [done|done|apply Hal'].
  - destruct R as [-> _]. done.
  - intros d' n' Hd. by rewrite Hco.
Qed.

Lemma bread_transparent_witness :
  exists b s1 s2, bread (F := SampleFs.fuel1) (D := memide (I := SampleFs.image)) 1 100 SampleFs.kern = Ret b s1 /\
    brelse b s1 = Ret tt s2 /\ alone (b :: filter (fun c => c <> b) (reverse (seq 0 NBUF))) s2 0 SampleFs.running.
Proof.
  destruct (bread_transparent (F := SampleFs.fuel1) (D := memide (I := SampleFs.image)) (HD := memide_sync)
    (le_n 1) (reverse (seq 0 NBUF)) SampleFs.kern 0 SampleFs.running 1 100)
    as (b & s1 & bf & s2 & H1 & _ & _ & H2 & H3 & _).
  - apply SampleFs.kern_alone.
  - discriminate.
  - reflexivity.
  - exists 0%nat, (SampleFs.buffer 0). split; reflexivity.
  - exists b, s1, s2. exact (conj H1 (conj H2 H3)).
Defined.

(** [bget] returns the cached buffer of the block if there is one, with
    one more reference; otherwise it recycles the least recently used buffer
    that is neither in use nor dirty; if there is none it panics. *)
Theorem bget_policy {F : Fuel} {D : BlockDev} (Hfuel : (0 < fuel)%nat) l s i p d n :
  calm s i p -> ring l s -> (forall b bf, k_bufs s !! b = Some bf -> sl_locked (b_lock bf) = 0) ->
  match bfirst (caches d n) s l, bfirst recyclable s (reverse l) with
  | Some b, _ => exists bf, k_bufs s !! b = Some bf /\ bget d n s = Ret b (put_buf b (got (p_pid p) bf) s)
  | None, Some b => exists bf, k_bufs s !! b = Some bf /\
      b_refcnt bf = 0 /\ dirty bf = false /\
      bget d n s = Ret b (put_buf b (recycled (p_pid p) d n bf) s)
  | None, None => bget d n s = Fault (FPanic "bget: no buffers") (acq L_bcache s)
  end.
Proof.
  intros Hc Hr Hu. destruct (bfirst (caches d n) s l) as [b|] eqn:E1.
  - destruct (bfirst_Some _ _ _ _ E1) as (_ & bf & Hb & _). exists bf. split; [done|].
    by eapply (bget_cached Hfuel l s i p Hc Hr); eauto.
  - destruct (bfirst recyclable s (reverse l)) as [b|] eqn:E2.
    + destruct (bfirst_Some _ _ _ _ E2) as (_ & bf & Hb & Hrec). exists bf. split; [done|].
      split; [|split; [by apply recyclable_clean|by eapply (bget_recycled Hfuel l s i p Hc Hr); eauto]].
      unfold recyclable in Hrec. apply andb_prop in Hrec as [H _]. by apply Z.eqb_eq.
    + by apply (bget_full Hfuel l s i p Hc Hr).
Qed.

Lemma bget_policy_witness :
  bget (F := SampleFs.fuel1) 1 100 SampleFs.kern
  = Ret 0%nat (put_buf 0 (recycled 7 1 100 (SampleFs.buffer 0)) SampleFs.kern).
Proof.
  pose proof (bget_policy (F := SampleFs.fuel1) (D := memide (I := SampleFs.image)) (le_n 1)
    (reverse (seq 0 NBUF)) SampleFs.kern 0 SampleFs.running 1 100 SampleFs.kern_calm SampleFs.kern_ring) as H.
  assert (E1 : bfirst (caches 1 100) SampleFs.kern (reverse (seq 0 NBUF)) = None) by (vm_compute; reflexivity).
  assert (E2 : bfirst recyclable SampleFs.kern (reverse (reverse (seq 0 NBUF))) = Some 0%nat)
    by (vm_compute; reflexivity).
  rewrite E1, E2 in H. destruct H as (bf & Hb & _ & _ & H).
  - intros b bf Hb. apply SampleFs.kern_buf in Hb as ->. reflexivity.
  - apply SampleFs.kern_buf in Hb as ->. exact H.
Defined.

(** ** Structures on the disk *)

(** An inode that [iupdate] stores in its block is the one that [ilock]
    loads from it, and storing it leaves the other inodes of the block as
    they are. *)
Theorem dinode_roundtrip inum i j data :
  dinode_ok i -> length data = block_size ->
  dec_dinode (dinode_off inum) (enc_dinode (dinode_off inum) i data) j = on_disk i j /\
  length (enc_dinode (dinode_off inum) i data) = block_size /\
  forall inum', inum' mod IPB <> inum mod IPB ->
    dec_dinode (dinode_off inum') (enc_dinode (dinode_off inum) i data) j
    = dec_dinode (dinode_off inum') data j.
Proof.
  intros Hi Hlen. destruct (dinode_off_range inum) as [H0 H1].
  assert (HB : Z.of_nat (length data) = BSIZE) by (by rewrite Hlen).
  split_and!.
  - apply dec_enc_dinode; [done|done|lia].
  - unfold enc_dinode. by rewrite length_put_addrs, length_lput32, !length_lput16.
  - intros inum' Hne. destruct (dinode_off_range inum') as [H2 _].
    apply dec_enc_dinode_ne; [apply Hi|done|lia|done|]. apply dinode_off_apart. congruence.
Qed.

Lemma dinode_roundtrip_witness :
  dec_dinode (dinode_off 3) (enc_dinode (dinode_off 3)
    (SampleFs.inode0 <| i_type := 2 |> <| i_nlink := -1 |> <| i_size := 70000 |>) (replicate 512 0)) SampleFs.inode0
  = on_disk (SampleFs.inode0 <| i_type := 2 |> <| i_nlink := -1 |> <| i_size := 70000 |>) SampleFs.inode0.
Proof.
  apply (dinode_roundtrip 3); [|reflexivity].
  constructor; cbn; unfold is_u32; try lia; [repeat constructor; lia|reflexivity].
Defined.

(** The search of [balloc] in a bitmap block finds the first free bit
    below the size of the file system, if and only if there is one; setting
    and clearing a bit changes that bit only. *)
Theorem bitmap_operations data b bi size :
  length data = block_size -> 0 <= bi < BPB ->
  (match find_free (Z.to_nat BPB) data b 0 size with
   | Some bj => 0 <= bj < BPB /\ b + bj < size /\ bitmap data bj = false /\
       forall k, 0 <= k < bj -> bitmap data k = true
   | None => forall k, 0 <= k < BPB -> b + k < size -> bitmap data k = true
   end) /\
  (forall bj, 0 <= bj -> bitmap (bit_set bi data) bj = bitmap data bj || (bi =? bj)) /\
  (forall bj, 0 <= bj -> bitmap (bit_clear bi data) bj = bitmap data bj && negb (bi =? bj)).
Proof.
  intros Hlen Hbi. assert (HB : 0 <= bi < 8 * Z.of_nat (length data)).
  { rewrite Hlen. unfold BPB, block_size in *. change (BSIZE * 8) with 4096 in Hbi.
    change (Z.of_nat (Z.to_nat BSIZE)) with 512. lia. }
  split_and!.
  - pose proof (find_free_spec (Z.to_nat BPB) data b 0 size (Z.le_refl 0)) as H.
    rewrite Z2Nat.id in H by (vm_compute; discriminate). exact H.
  - intros. by apply bitmap_set.
  - intros. by apply bitmap_clear.
Qed.

Lemma bitmap_operations_witness :
  bitmap (bit_set 9 (replicate 512 0)) 9 = true /\ bitmap (bit_set 9 (replicate 512 0)) 8 = false.
Proof.
  destruct (bitmap_operations (replicate 512 0) 0 9 1000) as (_ & H & _).
  - reflexivity.
  - vm_compute. split; [discriminate|reflexivity].
  - rewrite !H by lia. split; vm_compute; reflexivity.
Defined.

(** A directory entry holds the inode number and the first [DIRSIZ]
    characters of the name; [namecmp] finds it by exactly the names that agree
    with it on these characters. *)
Theorem dirent_lookup name name' inum :
  name_bytes name -> name_bytes name' -> 0 <= inum < 2 ^ 16 ->
  de_inum (mk_dirent inum name') = inum /\ length (mk_dirent inum name') = Z.to_nat sizeof_dirent /\
  (namecmp name (de_name (mk_dirent inum name')) = 0 <->
   take (Z.to_nat DIRSIZ) (until_nul name) = take (Z.to_nat DIRSIZ) (until_nul name')).
Proof.
  intros H1 H2 Hi. split_and!; [|apply length_mk_dirent|by apply namecmp_mk].
  rewrite de_inum_mk. by apply u16_small.
Qed.

Lemma dirent_lookup_witness :
  de_inum (mk_dirent 17 (bytes "usertests")) = 17 /\
  namecmp (bytes "usertests") (de_name (mk_dirent 17 (bytes "usertests"))) = 0.
Proof.
  destruct (dirent_lookup (bytes "usertests") (bytes "usertests") 17) as (H1 & _ & H2).
  - vm_compute. repeat constructor; discriminate.
  - vm_compute. repeat constructor; discriminate.
  - lia.
  - split; [exact H1|]. apply H2. reflexivity.
Defined.

(** [skipelem] splits off the first element of a path: it returns 0 only
    if the path has no element, otherwise the rest of the path is shorter and
    has the remaining elements, it is empty if these are none, and [name]
    holds the first [DIRSIZ] characters of the element. *)
Theorem skipelem_splits path name :
  length name = Z.to_nat DIRSIZ -> Forall (fun c => c <> 0) path ->
  match skipelem path name with
  | None => elements path = []
  | Some (rest, name') => exists e, elements path = e :: elements rest /\
      (rest = [] <-> elements rest = []) /\ (length rest < length path)%nat /\
      length name' = Z.to_nat DIRSIZ /\ until_nul name' = take (Z.to_nat DIRSIZ) e
  end.
Proof. exact (skipelem_ret path name). Qed.

Lemma skipelem_splits_witness :
  exists e, elements (bytes "//a/bb/c") = e :: elements (bytes "bb/c") /\
    until_nul (bytes "a" ++ replicate 13 0) = take (Z.to_nat DIRSIZ) e.
Proof.
  pose proof (skipelem_splits (bytes "//a/bb/c") (replicate 14 0)) as H.
  assert (E : skipelem (bytes "//a/bb/c") (replicate 14 0) = Some (bytes "bb/c", bytes "a" ++ replicate 13 0))
    by (vm_compute; reflexivity).
  rewrite E in H. destruct H as (e & H1 & _ & _ & _ & H2).
  - reflexivity.
  - vm_compute. repeat constructor; discriminate.
  - exists e. exact (conj H1 H2).
Defined.

(** ** Pipes *)

(** A machine with a page of user memory at address 0, which holds "hello",
    and a pipe with the two bytes "ab" whose counters are about to wrap. *)
Definition user_cr3 : Z := 0x300000.
Definition user_mem : mem :=
  foldl (fun m '(k, c) => st8 m (P2V 0x302000 + Z.of_nat k) c)
    (st32 (st32 ∅ (P2V 0x300000) (0x301000 + 7)) (P2V 0x301000) (0x302000 + 7))
    (imap pair (bytes "hello")).
Definition the_pipe : Z := P2V 0x304000.
Definition ab_pipe : pipe :=
  MkPipe (<[511%nat := 97]> (<[0%nat := 98]> (replicate 512 0))) (2 ^ 32 - 1) 1 1 1.
Definition with_pipe (x : pipe) (s : kernel) : kernel :=
  s <| k_cpus := (fun c => c <| c_cr3 := user_cr3 |>) <$> k_cpus s |> <| k_mem := user_mem |>
    <| k_pipes := {[the_pipe := x]} |>
    <| k_locks := <[L_pipe the_pipe := Sample.free_lock "pipe"]> (k_locks s) |>.

Lemma calm_with_pipe x s i p : calm s i p -> calm (with_pipe x s) i p.
Proof.
  intros [(c & Hc & H1 & H2 & H3) Hp Hr Hl]. split; [|done|done|].
  - exists (c <| c_cr3 := user_cr3 |>). cbn. by rewrite list_lookup_fmap, Hc.
  - intros l Hs. destruct (Hl l Hs) as [nm Hn]. exists nm. cbn. rewrite lookup_insert_ne; [done|].
    intros <-. done.
Qed.

Lemma with_pipe_lock x s : lock_free (L_pipe the_pipe) (with_pipe x s).
Proof. exists "pipe". cbn. by rewrite lookup_insert_eq. Qed.

Lemma ab_pipe_ok : pipe_ok ab_pipe.
Proof. by split; vm_compute. Qed.

Section pipe_theorems.
Context {F : Fuel} (Hfuel : (0 < fuel)%nat).
Context (p : Z) (s : kernel) (i : nat) (pr : proc) (x : pipe).
Hypothesis (Hcalm : calm s i pr) (Hlock : lock_free (L_pipe p) s) (Hpipe : k_pipes s !! p = Some x).
Hypothesis (Hok : pipe_ok x).

(** C16: a pipe is a queue: [pipewrite] of bytes for which there is room
    appends them to the bytes in the pipe, in order, also when the counters
    wrap around, wakes the readers and returns their number. *)
Theorem pipewrite_appends addr bs :
  is_u32 addr -> uload addr (length bs) s = Ret bs s -> count x + Z.of_nat (length bs) <= PIPESIZE ->
  exists s' x', pipewrite p (from_user addr) (Z.of_nat (length bs)) s = Ret (Z.of_nat (length bs)) s' /\
    k_pipes s' = <[p := x']> (k_pipes s) /\ pipe_ok x' /\ contents x' = contents x ++ bs /\
    k_procs s' = wake (k_ticks s) (CPipeRead p) <$> k_procs s.
Proof.
  intros Ha Hu Hr. destruct (put_list_ok x bs Hok Hr) as (H1 & H2 & _).
  eexists _, (put_list x bs). split; [|split_and!].
  { apply (pipewrite_fits p s i pr x Hcalm Hlock Hpipe Hok Hfuel); [|done]. by apply (gives_user p s i pr Hcalm). }
  all: done.
Qed.

(** C17: [piperead] of a pipe with bytes in it, or whose write end is closed,
    takes the first [n] bytes (or all, if there are fewer) from the front of
    the queue, stores them in order at the user's address, wakes the writers
    and returns how many they are. *)
Theorem piperead_takes addr n m' :
  is_u32 addr -> 0 < count x \/ pi_writeopen x = 0 ->
  ustore addr (take n (contents x)) s = Ret tt (s <| k_mem := m' |>) ->
  exists s' x', piperead p (to_user addr) (Z.of_nat n) s
      = Ret (Z.of_nat (Nat.min n (length (contents x)))) s' /\
    k_pipes s' = <[p := x']> (k_pipes s) /\ pipe_ok x' /\ contents x' = drop n (contents x) /\
    k_mem s' = m' /\ k_procs s' = wake (k_ticks s) (CPipeWrite p) <$> k_procs s.
Proof.
  intros Ha Hne Hu. pose proof (piperead_ret p s i pr x Hcalm Hlock Hpipe Hok Hfuel addr n m' Ha Hne Hu) as H.
  cbn zeta in H. rewrite length_take in H.
  destruct (skip_n_ok Hfuel (Nat.min n (length (contents x))) x Hok) as [H1 H2]; [lia|].
  eexists _, (skip_n (Nat.min n (length (contents x))) x). split; [exact H|].
  split_and!; [done|done| |done|done].
  rewrite H2. destruct (Nat.min_spec n (length (contents x))) as [[_ ->]|[Hle ->]]; [done|].
  by rewrite !drop_ge by lia.
Qed.

(** A reader of an empty pipe that can still be written sleeps until a
    writer wakes it; a writer that fills the pipe wakes the readers and sleeps;
    if no reader is left, or the writer has been killed, it gets -1. *)
Theorem pipe_blocks addr bs rest :
  is_u32 addr -> uload addr (length bs) s = Ret bs s -> (0 < rest)%nat ->
  (k_strategy s = 2 -> cons_ready s) ->
  (count x = 0 -> pi_writeopen x <> 0 -> p_killed pr = 0 ->
   exists s1 k, piperead p (to_user addr) (Z.of_nat rest) s = Swtch s1 k /\
     k_procs s1 = <[i := asleep (CPipeRead p) pr]> (k_procs s) /\ lock_free (L_pipe p) s1) /\
  (count x + Z.of_nat (length bs) = PIPESIZE ->
   (pi_readopen x <> 0 -> p_killed pr = 0 ->
    exists s1 k x', pipewrite p (from_user addr) (Z.of_nat (length bs + rest)) s = Swtch s1 k /\
      k_pipes s1 = <[p := x']> (k_pipes s) /\ contents x' = contents x ++ bs /\
      k_procs s1 = <[i := asleep (CPipeWrite p) pr]> (wake (k_ticks s) (CPipeRead p) <$> k_procs s) /\
      lock_free (L_pipe p) s1) /\
   (pi_readopen x = 0 \/ p_killed pr <> 0 ->
    exists s', pipewrite p (from_user addr) (Z.of_nat (length bs + rest)) s = Ret (-1) s')).
Proof.
  intros Ha Hu Hrest Hcons. pose proof (gives_user p s i pr Hcalm addr bs Ha Hu) as Hg. split; [|intros Hfull; split].
  - intros H1 H2 H3.
    destruct (piperead_blocks p s i pr x Hcalm Hlock Hpipe Hok Hfuel (to_user addr) (Z.of_nat rest) H1 H2 H3 Hcons)
      as (s1 & k & E1 & _ & E2 & E3). eauto.
  - intros H1 H2.
    destruct (pipewrite_blocks p s i pr x Hcalm Hlock Hpipe Hok Hfuel (from_user addr) bs rest Hg Hfull Hrest H1 H2 Hcons)
      as (s1 & k & E1 & E2 & E3 & E4).
    destruct (put_list_ok x bs Hok) as (_ & E5 & _); [lia|]. by exists s1, k, (put_list x bs).
  - intros H1. eexists.
    exact (pipewrite_broken p s i pr x Hcalm Hlock Hpipe Hok Hfuel (from_user addr) bs rest Hg Hfull Hrest H1).
Qed.
End pipe_theorems.

Lemma pipewrite_appends_witness :
  exists s' x', pipewrite (F := SampleFs.fuel1) the_pipe (from_user 1) 4 (with_pipe ab_pipe SampleFs.kern) = Ret 4 s' /\
    k_pipes s' !! the_pipe = Some x' /\ contents x' = bytes "abello".
Proof.
  destruct (pipewrite_appends (F := SampleFs.fuel1) (le_n 1)
    the_pipe (with_pipe ab_pipe SampleFs.kern) 0 SampleFs.running ab_pipe
    (calm_with_pipe _ _ _ _ SampleFs.kern_calm) (with_pipe_lock _ _) (lookup_singleton_eq _ _) ab_pipe_ok
    1 (bytes "ello")) as (s' & x' & H1 & H2 & _ & H3 & _).
  - unfold is_u32. lia.
  - vm_compute. reflexivity.
  - vm_compute. discriminate.
  - exists s', x'. split; [exact H1|]. rewrite H2, lookup_insert_eq. split; [reflexivity|exact H3].
Defined.

Lemma piperead_takes_witness :
  exists s' x', piperead (F := SampleFs.fuel1) the_pipe (to_user 0) 1 (with_pipe ab_pipe SampleFs.kern) = Ret 1 s' /\
    k_pipes s' !! the_pipe = Some x' /\ contents x' = bytes "b".
Proof.
  destruct (piperead_takes (F := SampleFs.fuel1) (le_n 1)
    the_pipe (with_pipe ab_pipe SampleFs.kern) 0 SampleFs.running ab_pipe
    (calm_with_pipe _ _ _ _ SampleFs.kern_calm) (with_pipe_lock _ _) (lookup_singleton_eq _ _) ab_pipe_ok
    0 1 (st8 user_mem (P2V 0x302000) 97)) as (s' & x' & H1 & H2 & _ & H3 & _).
  - unfold is_u32. lia.
  - left. vm_compute. reflexivity.
  - vm_compute. reflexivity.
  - exists s', x'. split; [exact H1|]. rewrite H2, lookup_insert_eq. split; [reflexivity|exact H3].
Defined.

Definition empty_pipe : pipe := MkPipe (replicate 512 0) 0 0 1 1.
Lemma empty_pipe_ok : pipe_ok empty_pipe.
Proof. by split; vm_compute. Qed.

Lemma pipe_blocks_witness :
  exists s1 k, piperead (F := SampleFs.fuel1) the_pipe (to_user 0) 5 (with_pipe empty_pipe SampleFs.kern) = Swtch s1 k /\
    k_procs s1 = <[0%nat := asleep (CPipeRead the_pipe) SampleFs.running]> (k_procs SampleFs.kern).
Proof.
  destruct (pipe_blocks (F := SampleFs.fuel1) (le_n 1)
    the_pipe (with_pipe empty_pipe SampleFs.kern) 0 SampleFs.running empty_pipe
    (calm_with_pipe _ _ _ _ SampleFs.kern_calm) (with_pipe_lock _ _) (lookup_singleton_eq _ _) empty_pipe_ok
    0 [] 5) as (H & _).
  - unfold is_u32. lia.
  - reflexivity.
  - lia.
  - intros E. discriminate E.
  - destruct H as (s1 & k & H1 & H2 & _); [reflexivity|discriminate|reflexivity|].
    exists s1, k. exact (conj H1 H2).
Defined.

(** * Reading files: theorems *)

(** C9: [readi] of a file or a directory whose blocks are there, by a process
    that does not have to wait for buffers, delivers the bytes of the file:
    those from [off] on, [n] of them or as many as there are.  It refuses an
    offset beyond the end and an [off + n] that overflows.  It writes nothing
    and changes the contents of no block. *)
Theorem readi_reads {F : Fuel} {D : BlockDev} {HD : SyncDev D} s i p ip ino off n :
  (0 < fuel)%nat -> ready s i p -> k_inodes s !! ip = Some ino -> i_type ino <> T_DEV -> whole s ino ->
  0 <= off < 2 ^ 32 -> 0 <= n < 2 ^ 32 ->
  if (i_size ino <? off) || (2 ^ 32 <=? off + n) then readi ip local off n s = Ret (-1, []) s
  else let n' := Z.min n (i_size ino - off) in
    exists s', readi ip local off n s = Ret (n', lget off n' (file_data s ino)) s' /\ reads i p s s'.
Proof. intros Hf. by apply readi_ret. Qed.

(** An inode of 700 bytes in the blocks 100 and 101. *)
Definition small_file : inode := SampleFs.inode0 <| i_dev := 1 |> <| i_inum := 5 |> <| i_ref := 1 |> <| i_type := T_FILE |> <| i_size := 700 |> <| i_addrs := [100; 101] ++ replicate 11 0 |>.
Definition with_file : kernel := SampleFs.kern <| k_inodes := small_file :: replicate (NINODE - 1) SampleFs.inode0 |>.

Lemma with_file_whole : whole (D := memide (I := SampleFs.image)) with_file small_file.
Proof.
  split; [by vm_compute|]. intros f H1 H2. change (i_size small_file) with 700 in H2. change BSIZE with 512 in H2.
  assert (f = 0 \/ f = 1) as [-> | ->] by lia; (split; [by vm_compute|by vm_compute|]); change NDIRECT with 12; lia.
Qed.

Lemma readi_reads_witness :
  exists s', readi (F := SampleFs.fuel1) (D := memide (I := SampleFs.image)) 0 local 500 300 with_file = Ret (200, lget 500 200 (file_data with_file small_file)) s'.
Proof.
  destruct (readi_reads (F := SampleFs.fuel1) (D := memide (I := SampleFs.image)) (HD := memide_sync) with_file 0 SampleFs.running 0 small_file 500 300
    (le_n 1)) as (s' & R & _).
  - apply ready_inodes. split; [eexists; apply SampleFs.kern_alone|]. exists 0%nat, (SampleFs.buffer 0). by split.
  - reflexivity.
  - done.
  - apply with_file_whole.
  - lia.
  - lia.
  - exists s'. exact R.
Defined.

(** C8: [namei] of an absolute path finds the inode that the names of the
    path lead to through the directories on the disk.  The caller gets one
    reference more to that inode and nothing else: every inode is unlocked
    again, every other count is what it was, no block has changed.  When a name
    is missing, or a name before the last is not a directory, it returns 0
    and all the references are given back. *)
Theorem namei_walks {F : Fuel} {D : BlockDev} {HD : SyncDev D} s i p G path :
  (0 < fuel)%nat -> ready s i p -> icache_ok s -> unlocked_but None s -> (2 <= free_slots s)%nat ->
  tree s ROOTDEV G -> G ROOTINO -> path_ok path -> head path = Some SLASH ->
  match walk s ROOTDEV ROOTINO (elements path) with
  | Some m => exists c ino s', namei path s = Ret (Some c) s' /\ at_node i p s ROOTDEV s' m c ino
  | None => exists s', namei path s = Ret None s' /\ given_up i p s s'
  end.
Proof. intros Hf Hr Hok Hu Hfree Ht Hg Hp Hh. by apply (namei_ret Hf i p s ROOTDEV G). Qed.

Lemma namei_walks_witness : exists st c s', mkfs two_files = Some st /\
  namei (F := SampleFs.fuel1) (D := memide (I := SampleFs.image)) (bytes "//sh") (mount (mk_img st)) = Ret (Some c) s'.
Proof.
  destruct (mkfs_run two_files two_files_ok) as (st & E & Hb); [cbn; lia|vm_compute; discriminate|]. pose proof (bt_image _ _ Hb) as Hi.
  destruct (mount_icache (mk_img st)) as (I1 & I2 & I3). pose proof (mount_mounted _ Hi) as Hm.
  assert (Hn : (length two_files <= 198)%nat) by (cbn; lia). assert (Hfill : (length two_files mod 32 <> 30)%nat) by done.
  pose proof (namei_walks (F := SampleFs.fuel1) (D := memide (I := SampleFs.image)) (HD := memide_sync) (mount (mk_img st)) 0 SampleFs.running
    (in_image two_files) (bytes "//sh") (le_n 1) (mount_ready _ Hi) I1 I2 ltac:(rewrite I3; unfold NINODE; lia)
    (mounted_tree _ _ _ Hb Hm Hn two_files_ok Hfill)) as H.
  specialize (H ltac:(unfold in_image; change ROOTINO with 1; cbn; lia) ltac:(apply (bool_decide_unpack (Forall (fun c => 0 < c) (bytes "//sh"))); by vm_compute) eq_refl).
  replace (elements (bytes "//sh")) with [bytes "sh"] in H by reflexivity. cbn [walk] in H. change ROOTINO with 1 in H.
  destruct (mounted_root _ _ _ Hb Hm Hn Hfill) as (_ & [Td _ _] & _).
  rewrite Td, Z.eqb_refl, (mounted_lookup _ _ _ Hb Hm Hn Hfill (bytes "sh") ltac:(by vm_compute) ltac:(by vm_compute)) in H.
  replace (named_file two_files (bytes "sh")) with (Some (1%nat, (bytes "_sh", replicate (Z.to_nat 7000) 7))) in H by reflexivity.
  destruct H as (c & ino & s' & R & _). exists st, c, s'. exact (conj E R).
Defined.

(** C40: the files that [mkfs] has put into the image are what the kernel
    reads back.  On a kernel that has the image on its root device, a name [e]
    other than [.] and [..] is looked up as [/e]: the first file of the command
    line with that name, up to 14 characters and without the leading
    underscore, is found, and reading from it returns its bytes; a name that is
    not on the command line is not found.  Afterwards the process holds no
    inode that it did not hold before.  The command line must not fill the last
    block of the root directory. *)
Theorem mkfs_files_read {F : Fuel} {D : BlockDev} {HD : SyncDev D} files st s i p e off n :
  (0 < fuel)%nat -> Forall file_ok files -> (length files <= 198)%nat -> nmeta + total (image_files files) <= FSSIZE -> (length files mod 32 <> 30)%nat ->
  mkfs files = Some st -> mounted s (mk_img st) ->
  ready s i p -> icache_ok s -> unlocked_but None s -> (2 <= free_slots s)%nat ->
  e <> [] -> SLASH ∉ e -> path_ok e -> take (Z.to_nat DIRSIZ) e <> bytes "." -> take (Z.to_nat DIRSIZ) e <> bytes ".." ->
  0 <= off -> 0 <= n -> off + n < 2 ^ 32 ->
  exists s', given_up i p s s' /\ read_path (SLASH :: e) off n s =
    Ret (match named_file files e with
         | Some (_, (_, data)) => let len := Z.of_nat (length data) in
             Some (if len <? off then (-1, []) else (Z.min n (len - off), lget off (Z.min n (len - off)) data))
         | None => None
         end) s'.
Proof.
  intros Hf Hok Hn Hroom Hfill E Hm Hr Hi Hu Hfree He Hs Hp H1 H2 Ho Hn0 Hsum.
  destruct (mkfs_run files Hok Hn Hroom) as (st' & E' & Hb). assert (st' = st) as -> by congruence.
  destruct (mounted_read _ _ _ Hb Hm Hn Hok Hfill i p e off n Hf Hr Hi Hfree Hu He Hs Hp H1 H2 Ho Hn0 Hsum) as (s' & Hg & R).
  exists s'. split; [done|]. rewrite R. by destruct (named_file files e) as [[? [? ?]]|].
Qed.

Lemma mkfs_files_read_witness : exists st s', mkfs two_files = Some st /\
  read_path (F := SampleFs.fuel1) (D := memide (I := SampleFs.image)) (SLASH :: bytes "README") 4 100 (mount (mk_img st)) = Ret (Some (2, bytes "is")) s'.
Proof.
  destruct (mkfs_run two_files two_files_ok) as (st & E & Hb); [cbn; lia|vm_compute; discriminate|]. pose proof (bt_image _ _ Hb) as Hi.
  destruct (mount_icache (mk_img st)) as (I1 & I2 & I3).
  destruct (mkfs_files_read (F := SampleFs.fuel1) (D := memide (I := SampleFs.image)) (HD := memide_sync) two_files st (mount (mk_img st)) 0 SampleFs.running
    (bytes "README") 4 100 (le_n 1) two_files_ok) as (s' & _ & R).
  - cbn; lia.
  - vm_compute; discriminate.
  - done.
  - exact E.
  - by apply mount_mounted.
  - by apply mount_ready.
  - exact I1.
  - exact I2.
  - rewrite I3. unfold NINODE. lia.
  - done.
  - apply (bool_decide_unpack (SLASH ∉ bytes "README")). by vm_compute.
  - apply (bool_decide_unpack (Forall (fun c => 0 < c) (bytes "README"))). by vm_compute.
  - done.
  - done.
  - lia.
  - lia.
  - lia.
  - exists st, s'. split; [exact E|exact R].
Defined.

(** * Writing files: theorems *)



(** The file [README] of the image. *)
Section readme.
Context (img : image) (Hb : built img two_files).





End readme.



