(* ===== verification/MemTheorems.v ===== *)
(** * Memory, strings and the console: the theorems

    The page allocator as a stack of pages, the memory and string functions
    of string.c, the output of numbers, and the scan of the MP table. *)

From S2P Require Import Prelude State Monad Mem Spinlock Sample Kalloc ConsoleOut Ports.

(** ** The page allocator *)

Lemma mem_ok_empty : mem_ok ∅.
Proof. intros a b H. by rewrite lookup_empty in H. Qed.

(** A machine whose allocator holds no page yet and uses no lock. *)
Definition no_pages : kernel := (Sample.machine 1 0 []) <| k_use_lock := 0 |> <| k_freelist := 0 |>.

Lemma no_pages_ok : kmem_ready no_pages /\ kmem_inv (L := Sample.linker) no_pages [].
Proof.
  split; [by left|]. split; [apply mem_ok_empty|constructor|constructor|constructor].
Qed.

(** C11: [kalloc] and [kfree] implement a stack of pages: any sequence of
    allocations, and of frees of pages that are not free, gives the results of
    the same operations on a stack.  In particular no page is handed out twice
    before it is freed, and the free list stays well formed. *)
Theorem kalloc_refines_stack {L : Linker} {LO : LinkerOk L} ops s l :
  kmem_ready s -> kmem_inv s l -> legal l ops ->
  exists s', kops_run ops s = Ret (fst (stack_run l ops)) s' /\
    kmem_inv s' (snd (stack_run l ops)) /\ kmem_ready s'.
Proof. apply kops_run_refines. Qed.

Lemma kalloc_refines_stack_witness :
  exists s', kops_run (L := Sample.linker) [OFree (KERNBASE + 0x300000); OFree (KERNBASE + 0x301000); OAlloc; OAlloc; OAlloc]
    no_pages = Ret [0; 0; KERNBASE + 0x301000; KERNBASE + 0x300000; 0] s'.
Proof.
  destruct no_pages_ok as [H1 H2].
  destruct (kalloc_refines_stack (LO := Sample.linker_ok)
    [OFree (KERNBASE + 0x300000); OFree (KERNBASE + 0x301000); OAlloc; OAlloc; OAlloc] no_pages [] H1 H2)
    as (s' & H & _).
  - cbn [legal]. split_and!; try exact I; try (split_and!; vm_compute; (reflexivity || discriminate)).
    + apply not_elem_of_nil.
    + intros Hin. apply list_elem_of_singleton in Hin. discriminate Hin.
  - exists s'. exact H.
Defined.

(** [freerange] frees exactly the whole pages of its range, each once. *)
Theorem freerange_frees {L : Linker} {LO : LinkerOk L} vstart vend n s l :
  sym_end <= vstart <= vend -> vend <= KERNBASE + PHYSTOP ->
  let p := PGROUNDUP vstart in
  p + PGSIZE * Z.of_nat n <= vend < p + PGSIZE * (Z.of_nat n + 1) ->
  kmem_ready s -> kmem_inv s l -> (forall q, q ∈ pages p n -> q ∉ l) ->
  exists s', freerange vstart vend s = Ret tt s' /\
    kmem_inv s' (reverse (pages p n) ++ l) /\ kmem_ready s'.
Proof. apply freerange_spec. Qed.

Lemma freerange_frees_witness :
  exists s', freerange (L := Sample.linker) (KERNBASE + 0x300001) (KERNBASE + 0x303fff) no_pages = Ret tt s' /\
    kmem_inv (L := Sample.linker) s' [KERNBASE + 0x302000; KERNBASE + 0x301000].
Proof.
  destruct no_pages_ok as [H1 H2].
  destruct (freerange_frees (LO := Sample.linker_ok) (KERNBASE + 0x300001) (KERNBASE + 0x303fff) 2 no_pages [])
    as (s' & H3 & H4 & _).
  - vm_compute. split; discriminate.
  - vm_compute. discriminate.
  - vm_compute. split; [discriminate|reflexivity].
  - exact H1.
  - exact H2.
  - intros q _. apply not_elem_of_nil.
  - exists s'. exact (conj H3 H4).
Defined.

(** [kfree] accepts exactly the page-aligned addresses between the end of
    the kernel and the top of physical memory, and panics on every other
    without touching memory. *)
Theorem kfree_checks {L : Linker} {LO : LinkerOk L} v s :
  is_u32 v -> kmem_ready s ->
  (v mod PGSIZE = 0 /\ sym_end <= v /\ v < KERNBASE + PHYSTOP ->
   exists s', kfree v s = Ret tt s' /\ k_freelist s' = v) /\
  (~ (v mod PGSIZE = 0 /\ sym_end <= v /\ v < KERNBASE + PHYSTOP) ->
   kfree v s = Fault (FPanic "kfree") s).
Proof.
  intros Hv Hr. split.
  - intros Hp. eexists. split; [by apply kfree_ret|done].
  - intros Hp. by apply kfree_panic.
Qed.

Lemma kfree_checks_witness :
  kfree (L := Sample.linker) (KERNBASE + 0x300004) no_pages = Fault (FPanic "kfree") no_pages.
Proof.
  destruct no_pages_ok as [H1 _].
  apply (kfree_checks (LO := Sample.linker_ok) (KERNBASE + 0x300004) no_pages).
  - split; vm_compute; [discriminate|reflexivity].
  - exact H1.
  - intros (E & _). vm_compute in E. discriminate E.
Defined.

(** ** string.c *)

(** [memmove] copies the [n] bytes at [src] as they were before the call,
    also when the two areas overlap, and changes no byte outside [dst]. *)
Theorem memmove_copies m dst src n a :
  mem_ok m -> 0 <= n ->
  ld8 (memmove m dst src n) a =
    if decide (dst <= a < dst + n) then ld8 m (src + (a - dst)) else ld8 m a.
Proof. apply ld8_memmove. Qed.

Definition abcd : mem := foldl (fun m '(k, c) => st8 m (100 + Z.of_nat k) c) ∅ (imap pair (bytes "abcd")).

Lemma abcd_ok : mem_ok abcd.
Proof. repeat apply mem_ok_st8. apply mem_ok_empty. Qed.

Lemma memmove_copies_witness :
  ld8 (memmove abcd 101 100 3) 103 = ld8 abcd 102.
Proof. rewrite memmove_copies; [reflexivity|apply abcd_ok|lia]. Defined.

(** [memset] stores the low byte of its argument in every byte of the
    area and nowhere else, whether it goes by words or by bytes. *)
Theorem memset_fills m dst c n a :
  0 <= n -> ld8 (memset m dst c n) a = if decide (dst <= a < dst + n) then u8 c else ld8 m a.
Proof. apply ld8_memset. Qed.

Lemma memset_fills_witness : ld8 (memset abcd 100 0x1ff 8) 107 = 255.
Proof. rewrite memset_fills; [reflexivity|lia]. Defined.

Lemma arr_nonneg m a n : mem_ok m -> Forall (fun c => 0 <= c) (arr m a n).
Proof.
  intros Hm. apply Forall_fmap, Forall_forall. intros i _. apply (ld8_range m _ Hm).
Qed.

(** [strncpy] fills its array with the string, cut or padded with NULs;
    [safestrcpy] leaves a NUL-terminated string in it; [strncmp] is 0 exactly
    if the two strings agree on their first [n] characters. *)
Theorem string_functions m s t n l p q :
  mem_ok m -> cstr m t l -> s + Z.of_nat (S n) <= t \/ t + Z.of_nat (length l) < s ->
  arr (strncpy m s t (Z.of_nat n)) s n = take n (l ++ replicate n 0) /\
  (let w := take n (l ++ [0]) ++ [0] in
   arr (safestrcpy m s t (Z.of_nat (S n))) s (S n) = w ++ drop (length w) (arr m s (S n))) /\
  (strncmp m p q (Z.of_nat n) = 0 <-> until_nul (arr m p n) = until_nul (arr m q n)).
Proof.
  intros Hm Hl Hd. split_and!.
  - unfold strncpy. rewrite Nat2Z.id. apply strncpy_loop_list; [done|done|lia].
  - unfold safestrcpy. rewrite (proj2 (Z.leb_gt _ _)) by lia.
    replace (Z.to_nat (Z.of_nat (S n) - 1)) with n by lia.
    rewrite (safestrcpy_loop_list m s t n l Hm Hl Hd). unfold lsafestrcpy.
    rewrite decide_False by done. replace (S n - 1)%nat with n by lia. done.
  - unfold strncmp. rewrite Nat2Z.id, strncmp_loop_list, lstrncmp_0.
    + by rewrite !firstn_all2 by (by rewrite length_arr).
    + apply arr_nonneg, Hm.
    + apply arr_nonneg, Hm.
Qed.

Lemma string_functions_witness :
  arr (strncpy abcd 50 100 6) 50 6 = bytes "abcd" ++ [0; 0].
Proof.
  apply (string_functions abcd 50 100 6 (bytes "abcd") 0 0).
  - apply abcd_ok.
  - split_and!; [vm_compute; reflexivity|vm_compute; repeat constructor; discriminate|vm_compute; reflexivity].
  - left. vm_compute. discriminate.
Defined.

(** ** Output *)

Lemma digit_loop_length j n x base :
  2 <= base -> (0 < j)%nat -> 0 <= x < base ^ Z.of_nat j ->
  (length (digit_loop n digits x base) <= j)%nat.
Proof.
  intros Hb. revert j x. induction n as [|n IH]; intros j x Hj Hx; [cbn; lia|].
  cbn [digit_loop length]. destruct (Z.eqb_spec (x / base) 0) as [E|E]; [cbn; lia|].
  destruct j as [|j]; [lia|]. rewrite Nat2Z.inj_succ, Z.pow_succ_r in Hx by lia.
  assert (0 <= x / base) by (apply Z.div_pos; lia).
  assert (x / base < base ^ Z.of_nat j) by (apply Z.div_lt_upper_bound; lia).
  destruct j as [|j]; [change (base ^ Z.of_nat 0) with 1 in *; lia|].
  pose proof (IH (S j) (x / base) ltac:(lia) ltac:(lia)). lia.
Qed.

(** The digits that [printint] puts in [buf], least significant first and
    followed by the sign, are those of the number: its 32-bit value as an
    unsigned number, or with [sign] set the magnitude of a negative one, also
    that of the least integer, whose negation overflows.  The 16 bytes of
    [buf] are enough. *)
Theorem printint_digits xx base sign :
  base = 10 \/ base = 16 -> - 2 ^ 31 <= xx < 2 ^ 31 ->
  let neg := sign && (xx <? 0) in
  exists ds, printint_buf xx base sign = ds ++ (if neg then [ch "-"] else []) /\
    digits_value digits base ds = (if neg then - xx else xx mod 2 ^ 32) /\
    (length (printint_buf xx base sign) <= 16)%nat.
Proof.
  intros Hb Hx neg. unfold printint_buf. fold neg.
  set (x := if neg then u32 (- xx) else u32 xx). exists (digit_loop 16 digits x base).
  assert (H0 : 0 <= x < 2 ^ 32) by (subst x; destruct neg; apply u32_range).
  assert (Hlen : (length (digit_loop 16 digits x base) <= 10)%nat).
  { apply digit_loop_length; [lia|lia|]. destruct Hb as [-> | ->]; cbn -[Z.pow x]; lia. }
  split; [done|]. split.
  - rewrite digit_loop_value; [|lia|destruct Hb as [-> | ->]; cbn -[Z.pow x]; lia|lia].
    subst x. destruct neg eqn:E; [|done]. apply u32_small.
    unfold neg in E. apply andb_prop in E as [_ E%Z.ltb_lt]. lia.
  - rewrite length_app. destruct neg; cbn [length]; lia.
Qed.

Lemma printint_digits_witness :
  exists ds, printint_buf (-2147483648) 10 true = ds ++ [ch "-"] /\ digits_value digits 10 ds = 2147483648.
Proof.
  destruct (printint_digits (-2147483648) 10 true) as (ds & H1 & H2 & _); [by left|lia|].
  exists ds. exact (conj H1 H2).
Defined.

(** [cprintf] with a format that matches its arguments always returns: it
    takes and releases the lock of the console (if locking is on), keeps the
    cursor on the screen, and changes nothing but the devices. *)
Theorem cprintf_returns fmt args s :
  fmt_ok fmt args = true -> cons_ready s ->
  exists co, cprintf (Some fmt) args s = Ret tt ((after_cons s) <| k_cons := co |>) /\
    0 <= crt_pos co < 24 * 80 /\ cons_same (k_cons s) co.
Proof.
  intros Hf Hr. destruct (cprintf_ret fmt args s Hf Hr) as (co & H1 & [_ H2] & H3). eauto.
Qed.

Lemma cprintf_returns_witness :
  exists co, cprintf (Some (bytes "pid %d %s")) [AInt 7; AStr (Some (bytes "sh"))] no_pages
    = Ret tt (no_pages <| k_cons := co |>) /\ 0 <= crt_pos co < 24 * 80.
Proof.
  destruct (cprintf_returns (bytes "pid %d %s") [AInt 7; AStr (Some (bytes "sh"))] no_pages) as (co & H1 & H2 & _).
  - reflexivity.
  - split; [vm_compute; by repeat split|]. left. reflexivity.
  - exists co. exact (conj H1 H2).
Defined.

(** ** The MP table *)

(** The entries between [p] and [e] are of types that [mpinit] knows. *)
Inductive entries (m : mem) (e : Z) : Z -> Prop :=
| entries_end p : e <= p -> entries m e p
| entries_proc p : ld8 m p = 0 -> entries m e (p + sizeof_mpproc) -> entries m e p
| entries_other p : 1 <= ld8 m p <= 4 -> entries m e (p + 8) -> entries m e p.

Lemma mpinit_loop_ret m e p :
  entries m e p -> forall k s, k_mem s = m -> (e - p) / 8 < Z.of_nat k ->
  exists s', mpinit_loop k p e s = Ret tt s' /\ k_ismp s' = k_ismp s.
Proof.
  induction 1 as [p Hp|p Ht _ IH|p Ht _ IH]; intros k s Hm Hk.
  - exists s. split; [|done]. destruct k; cbn; by rewrite (proj2 (Z.ltb_ge _ _)).
  - destruct (Z.ltb_spec p e) as [Hlt|Hge].
    2: { exists s. split; [|done]. destruct k; cbn; by rewrite (proj2 (Z.ltb_ge _ _)). }
    assert (0 <= (e - p) / 8) by (apply Z.div_pos; lia). destruct k as [|k]; [lia|].
    cbn [mpinit_loop]. rewrite (proj2 (Z.ltb_lt _ _)) by lia. kget. rewrite Hm, Ht. cbn [Z.eqb].
    destruct (IH k (add_cpu (ld8 m (p + 1)) s)) as (s' & H1 & H2).
    + unfold add_cpu. by case_match.
    + unfold sizeof_mpproc.
      assert (H8 : (e - (p + 20)) / 8 <= (e - p + (-1) * 8) / 8) by (apply Z.div_le_mono; lia).
      rewrite Z.div_add in H8 by lia. lia.
    + exists s'. split; [exact H1|]. rewrite H2. unfold add_cpu. by case_match.
  - destruct (Z.ltb_spec p e) as [Hlt|Hge].
    2: { exists s. split; [|done]. destruct k; cbn; by rewrite (proj2 (Z.ltb_ge _ _)). }
    assert (0 <= (e - p) / 8) by (apply Z.div_pos; lia). destruct k as [|k]; [lia|].
    cbn [mpinit_loop]. rewrite (proj2 (Z.ltb_lt _ _)) by lia. kget. rewrite Hm.
    rewrite (proj2 (Z.eqb_neq _ 0)) by lia.
    assert (Hk' : (e - (p + 8)) / 8 < Z.of_nat k).
    { replace (e - (p + 8)) with (e - p + (-1) * 8) by lia. rewrite Z.div_add by lia. lia. }
    destruct (Z.eqb_spec (ld8 m p) 2) as [E2|E2].
    + set (s1 := s <| k_ioapicid := ld8 m (p + 1) |>).
      destruct (IH k s1 Hm Hk') as (s' & H1 & H2). exists s'. split; [exact H1|done].
    + replace ((ld8 m p =? 1) || (ld8 m p =? 3) || (ld8 m p =? 4)) with true; [exact (IH k s Hm Hk')|].
      symmetry. rewrite !orb_true_iff, !Z.eqb_eq. lia.
Qed.

Lemma mpinit_loop_stuck k p e s :
  p < e -> 4 < ld8 (k_mem s) p -> exists s', mpinit_loop k p e s = Fault FFuel s'.
Proof.
  revert s. induction k as [|k IH]; intros s Hp Ht; cbn [mpinit_loop]; rewrite (proj2 (Z.ltb_lt _ _)) by done.
  - by eexists.
  - kget. rewrite !(proj2 (Z.eqb_neq _ _)) by lia. cbn [orb]. kget. by apply IH.
Qed.

(** The scan of the MP table by [mpinit] ends if all entries are of the
    known types, after at most one step for each 8 bytes of the table.  At an
    entry of another type it does not advance: the [break] of the default
    case leaves the [switch] only, and the loop runs for ever. *)
Theorem mpinit_scan k p e s :
  (entries (k_mem s) e p -> (e - p) / 8 < Z.of_nat k -> exists s', mpinit_loop k p e s = Ret tt s') /\
  (p < e -> 4 < ld8 (k_mem s) p -> exists s', mpinit_loop k p e s = Fault FFuel s').
Proof.
  split; [|apply mpinit_loop_stuck]. intros He Hk.
  destruct (mpinit_loop_ret _ _ _ He k s eq_refl Hk) as (s' & H & _). eauto.
Qed.

(** A table with a processor entry, and one with an entry of type 7. *)
Definition good_table : kernel := no_pages <| k_mem := st8 ∅ 1000 0 |>.
Definition bad_table : kernel := no_pages <| k_mem := st8 ∅ 1000 7 |>.

Lemma mpinit_scan_witness :
  (exists s', mpinit_loop 3 1000 1020 good_table = Ret tt s') /\
  (exists s', mpinit_loop 1000 1000 1020 bad_table = Fault FFuel s').
Proof.
  split.
  - apply (mpinit_scan 3 1000 1020 good_table).
    + apply entries_proc; [reflexivity|]. apply entries_end. vm_compute. discriminate.
    + vm_compute. reflexivity.
  - apply (mpinit_scan 1000 1000 1020 bad_table); vm_compute; reflexivity.
Defined.
