(* ===== verification/VmTheorems.v ===== *)
(** * Address spaces: the theorems

    What the operations of vm.c do to an address space, its user pages and the
    free pages, stated on the page tables in memory and on what the processor
    makes of them. *)

From S2P Require Import Prelude State Monad Mem Spinlock Sample ConsoleOut Kalloc Vm VmFacts Uvm Kvm.
From S2P Require Import User UserFacts Sched SleepWake Sleeplock SampleFs File Proc ProcFacts ForkFacts.

Section vm.
Context {L : Linker} {LO : LinkerOk L}.


(** C20: [allocuvm] grows an address space of [oldsz] bytes to [newsz]: the old
    pages stay as they are, the new ones are writable user pages filled with
    zeros, no page is lost or used twice, and the kernel's half does not
    change.  If memory runs out it returns 0 with the old pages only.  It
    refuses sizes in the kernel's half, ignores smaller sizes, and succeeds when
    there are two free pages for every new one. *)
Theorem allocuvm_grows s sp up l oldsz newsz :
  vm_state s sp up l -> cready s -> 0 <= oldsz < KERNBASE -> length up = npages oldsz ->
  (KERNBASE <= newsz -> allocuvm (sp_dir sp) oldsz newsz s = Ret 0 s) /\
  (newsz < oldsz -> allocuvm (sp_dir sp) oldsz newsz s = Ret oldsz s) /\
  (oldsz <= newsz < KERNBASE -> exists r s' sp' up' l',
    allocuvm (sp_dir sp) oldsz newsz s = Ret r s' /\ vm_step [] [] s sp up l s' sp' up' l' /\
    ((2 * (npages newsz - npages oldsz) <= length l)%nat -> r = newsz) /\
    (forall x, 0 <= x < PGSIZE * Z.of_nat (length up) -> ubyte (k_mem s') up' x = ubyte (k_mem s) up x) /\
    ((r = newsz /\ length up' = npages newsz /\
      exists fresh, up' = up ++ fresh /\ Forall (fresh_page (k_mem s')) fresh) \/
     (r = 0 /\ up' = up))).
Proof.
  intros Hv Hc Ho Hl. split_and!.
  - intros Hn. unfold allocuvm. by rewrite (proj2 (Z.leb_le _ _) Hn).
  - intros Hn. unfold allocuvm. rewrite (proj2 (Z.leb_gt _ _)) by lia. by rewrite (proj2 (Z.ltb_lt _ _) Hn).
  - intros [H1 H2]. destruct (allocuvm_spec s sp up l oldsz newsz Hv Hc ltac:(lia) H2 Hl)
      as (r & s' & sp' & up' & l' & H3 & H4 & H5). exists r, s', sp', up', l'.
    assert (Hst : vm_step [] [] s sp up l s' sp' up' l' /\ up `prefix_of` up').
    { destruct H5 as [(_ & H5 & _ & fresh & -> & _)|(_ & H5 & ->)]; [split; [done|by eexists]|].
      rewrite <- Hl, firstn_all, drop_all in *. done. }
    destruct Hst as [Hst [ext ->]]. split_and!; [done|done|done| |].
    + intros x Hx. unfold ubyte. rewrite lookup_app_l by (unfold PGSIZE in *; Z.div_mod_to_equations; lia).
      destruct (up !! _) as [[p f]|] eqn:E; [|done]. f_equal.
      apply (vm_step_kept _ _ _ _ _ _ _ _ _ p Hst Hv); [|by apply not_elem_of_nil|constructor|].
      * apply list_elem_of_fmap. exists (p, f). split; [done|]. by eapply list_elem_of_lookup_2.
      * unfold in_page. pose proof (Z.mod_pos_bound x PGSIZE). unfold PGSIZE in *. lia.
    + destruct H5 as [(-> & _ & H6 & H7)|(-> & _ & H6)]; [by left|right]. split; [done|].
      by rewrite H6, <- Hl, firstn_all.
Qed.

(** C21: [deallocuvm] to [newsz] bytes frees exactly the pages above, clears
    their entries and keeps the others, their contents and the kernel's half. *)
Theorem deallocuvm_shrinks s sp up l oldsz newsz :
  vm_state s sp up l -> 0 <= newsz < oldsz -> oldsz <= KERNBASE -> length up = npages oldsz ->
  let j := npages newsz in
  exists s', deallocuvm (sp_dir sp) oldsz newsz s = Ret newsz s' /\
    vm_step (drop j up).*1 [] s sp up l s' sp (take j up) (reverse (drop j up).*1 ++ l) /\
    (forall x, PGSIZE * Z.of_nat j <= x < KERNBASE -> forall w, translate (k_mem s') (sp_dir sp) x w = None) /\
    (forall x, 0 <= x < PGSIZE * Z.of_nat j -> ubyte (k_mem s') up x = ubyte (k_mem s) up x).
Proof.
  intros Hv Hn Ho Hl j. destruct (deallocuvm_step s sp up l oldsz newsz Hv Hn Ho ltac:(lia)) as (s' & H1 & _ & H2).
  exists s'. split_and!; [done|done| |].
  - intros x Hx w. rewrite (translate_user _ _ _ x w (vs_uvm _ _ _ _ (vt_state _ _ _ _ _ _ _ _ _ _ H2))) by (unfold PGSIZE in *; lia).
    rewrite lookup_take_ge; [done|]. unfold PGSIZE in *. Z.div_mod_to_equations. lia.
  - intros x Hx. unfold ubyte. destruct (up !! _) as [[p f]|] eqn:E; [|done]. f_equal.
    pose proof (vs_nodup _ _ _ _ Hv) as Hnd. apply NoDup_app in Hnd as (_ & _ & Hnd). apply NoDup_app in Hnd as (Hnd & _).
    assert (Hi : (Z.to_nat (x / PGSIZE) < j)%nat) by (unfold PGSIZE in *; Z.div_mod_to_equations; lia).
    apply (vm_step_kept _ _ _ _ _ _ _ _ _ p H2 Hv).
    + apply list_elem_of_fmap. exists (p, f). split; [done|]. by eapply list_elem_of_lookup_2.
    + rewrite <- (take_drop j up), fmap_app in Hnd. apply NoDup_app in Hnd as (_ & Hnd & _). apply Hnd.
      apply list_elem_of_fmap. exists (p, f). split; [done|]. apply (list_elem_of_lookup_2 _ (Z.to_nat (x / PGSIZE))).
      by rewrite lookup_take_lt.
    + pose proof (vm_state_pages _ _ _ _ Hv) as Hok. rewrite <- (take_drop_pages up j), !Forall_app in Hok. tauto.
    + unfold in_page. pose proof (Z.mod_pos_bound x PGSIZE). unfold PGSIZE in *. lia.
Qed.

(** C22: [copyuvm] makes an address space with the same bytes and the same
    rights in pages that were free, so that no later change of the copy's pages
    is visible in the original, nor the other way round.  If memory runs out it
    returns 0, which cannot happen with 1026 free pages besides one for each
    page of the original; the original is unchanged in both cases. *)
Theorem copyuvm_clones s sp up l sz :
  vm_state s sp up l -> length up = npages sz -> 0 <= sz <= KERNBASE ->
  exists r s', copyuvm (sp_dir sp) sz s = Ret r s' /\ mem_only s s' /\ framed l (k_mem s) (k_mem s') /\
    uvm (k_mem s') sp up /\ (forall x, 0 <= x -> ubyte (k_mem s') up x = ubyte (k_mem s) up x) /\
    ((r = 0 /\ (length l <= 1026 + npages sz)%nat) \/ exists spc upc l', r = sp_dir spc /\ vm_state s' spc upc l' /\ kvm (k_mem s') spc /\
      upc.*2 = up.*2 /\ (forall x, 0 <= x -> ubyte (k_mem s') upc x = ubyte (k_mem s) up x) /\
      (forall m', framed upc.*1 (k_mem s') m' -> forall x, 0 <= x -> ubyte m' up x = ubyte (k_mem s) up x) /\
      (forall m', framed up.*1 (k_mem s') m' -> forall x, 0 <= x -> ubyte m' upc x = ubyte (k_mem s) up x)).
Proof.
  intros Hv Hl Hsz. destruct (copyuvm_spec s sp up l sz Hv Hl Hsz) as (r & s' & H1 & H2 & H3 & H4).
  pose proof (vm_state_pages _ _ _ _ Hv) as Hok. rewrite app_assoc in Hok. apply Forall_app in Hok as [Hok Hokl].
  pose proof (vs_nodup _ _ _ _ Hv) as Hnd. rewrite app_assoc in Hnd. apply NoDup_app in Hnd as (_ & Hap & _).
  pose proof (framed_apart l _ _ _ H3 Hokl Hok Hap) as Hsame.
  assert (Hsu : forall x, 0 <= x -> ubyte (k_mem s') up x = ubyte (k_mem s) up x).
  { apply ubyte_same. intros p Hp. apply Hsame, elem_of_app. by right. }
  exists r, s'. split_and!; [done|done|done| |done|].
  { eapply uvm_same; [apply Hv|]. intros p Hp. apply Hsame, elem_of_app. by left. }
  destruct H4 as [(spc & upc & l' & -> & [Hc Hp Ha Hd _] & Hlen & Hk & Hperm)|(-> & Hfew & _)]; [right|by left].
  exists spc, upc, l'. rewrite Hlen, firstn_all in Hd.
  assert (Hcop : forall x, 0 <= x -> ubyte (k_mem s') upc x = ubyte (k_mem s) up x).
  { intros x Hx. rewrite <- (Hsu x Hx). by apply copied_ubyte. }
  pose proof (vm_state_pages _ _ _ _ Hc) as Hokc. rewrite Forall_app in Hok. rewrite !Forall_app in Hokc.
  split_and!; [done|done|done|by eapply copied_flags|done| |].
  - intros m' Hf x Hx. rewrite <- (Hsu x Hx). revert x Hx. apply ubyte_same.
    eapply framed_apart; [exact Hf|apply Hokc|apply Hok|]. intros q Hq Hx.
    apply NoDup_app in Ha as (_ & Ha & _). apply (Ha q); rewrite !elem_of_app; tauto.
  - intros m' Hf x Hx. rewrite <- (Hcop x Hx). revert x Hx. apply ubyte_same.
    eapply framed_apart; [exact Hf|apply Hok|apply Hokc|]. intros q Hq Hx.
    apply NoDup_app in Ha as (_ & Ha & _). apply (Ha q); rewrite !elem_of_app; tauto.
Qed.

(** C23: [freevm] returns the directory, the page tables and the user pages to
    the allocator, each exactly once, and changes no other memory.  So when a
    copy made by [copyuvm] is freed, the free pages are those from before and
    the original address space is intact. *)
Theorem freevm_returns s sp up l :
  vm_state s sp up l -> (length up <= npages KERNBASE)%nat ->
  (exists s' l', freevm (sp_dir sp) s = Ret tt s' /\ mem_only s s' /\ kmem_inv s' l' /\
    l' ≡ₚ sp_pages sp ++ up.*1 ++ l /\ framed (sp_pages sp ++ up.*1) (k_mem s) (k_mem s')) /\
  (forall sz, length up = npages sz -> 0 <= sz <= KERNBASE ->
    exists r s1, copyuvm (sp_dir sp) sz s = Ret r s1 /\
      (r <> 0 -> exists s2 l2, freevm r s1 = Ret tt s2 /\ kmem_inv s2 l2 /\ l2 ≡ₚ l /\
        uvm (k_mem s2) sp up /\ forall x, 0 <= x -> ubyte (k_mem s2) up x = ubyte (k_mem s) up x)).
Proof.
  intros Hv Hlen. split; [by apply freevm_spec|]. intros sz Hl Hsz.
  destruct (copyuvm_spec s sp up l sz Hv Hl Hsz) as (r & s1 & H1 & H2 & H3 & H4).
  exists r, s1. split; [done|]. intros Hr. destruct H4 as [(spc & upc & l' & -> & [Hc Hp Ha Hd _] & Hlc & Hk & Hperm)|[-> _]]; [|done].
  destruct (freevm_spec s1 spc upc l' Hc ltac:(lia)) as (s2 & l2 & F1 & F2 & F3 & F4 & F5).
  pose proof (vm_state_pages _ _ _ _ Hv) as Hok. rewrite app_assoc in Hok. apply Forall_app in Hok as [Hok Hokl].
  assert (Hfr : framed l (k_mem s) (k_mem s2)).
  { eapply framed_trans; [exact H3|]. eapply framed_sub; [exact F5|]. intros q Hq. rewrite <- Hperm. rewrite !elem_of_app in *. tauto. }
  pose proof (vs_nodup _ _ _ _ Hv) as Hnd. rewrite app_assoc in Hnd. apply NoDup_app in Hnd as (_ & Hap & _).
  pose proof (framed_apart l _ _ _ Hfr Hokl Hok Hap) as Hsame.
  exists s2, l2. split_and!; [done|done|by rewrite F4| |].
  - eapply uvm_same; [apply Hv|]. intros p Hq. apply Hsame, elem_of_app. by left.
  - apply ubyte_same. intros p Hq. apply Hsame, elem_of_app. by right.
Qed.

(** C24: [copyout] to user memory writes the buffer at the user's address,
    across pages, and no other user byte; it refuses a page without the
    user flag. *)
Theorem copyout_writes s sp up l va buf :
  vm_state s sp up l -> 0 <= va -> va + Z.of_nat (length buf) <= KERNBASE ->
  (user_range up va (Z.of_nat (length buf)) ->
    exists m', copyout (sp_dir sp) va buf s = Ret 0 (s <| k_mem := m' |>) /\
      vm_state (s <| k_mem := m' |>) sp up l /\
      forall x, 0 <= x -> ubyte m' up x =
        if decide (va <= x < va + Z.of_nat (length buf)) then Some (u8 (nth (Z.to_nat (x - va)) buf 0))
        else ubyte (k_mem s) up x) /\
  (forall p f, buf <> [] -> up !! Z.to_nat (va / PGSIZE) = Some (p, f) -> Z.land f PTE_U = 0 ->
    copyout (sp_dir sp) va buf s = Ret (-1) s).
Proof.
  intros Hv Hva Hlen. split.
  - intros Hu. destruct (copyout_loop_spec (length buf) s sp up l va buf Hv Hva Hlen Hu (le_n _)) as (m' & H1 & H2 & H3 & H4).
    exists m'. split_and!; [exact H1|by apply vm_state_write|exact H4].
  - intros p f Hb Hup Hf. unfold copyout. destruct buf as [|b buf]; [done|]. cbn [length copyout_loop].
    assert (Hd : PGROUNDDOWN va = PGSIZE * Z.of_nat (Z.to_nat (va / PGSIZE))).
    { rewrite PGROUNDDOWN_eq. unfold PGSIZE in *. Z.div_mod_to_equations. lia. }
    rewrite Hd. erewrite bind_ret; [|apply (uva2ka_user s sp up _ p f (vs_uvm _ _ _ _ Hv) Hup)].
    + by rewrite Hf.
    + rewrite <- Hd, PGROUNDDOWN_eq. cbn [length] in Hlen. unfold PGSIZE in *. Z.div_mod_to_equations. lia.
Qed.
End vm.

(** ** Witnesses *)


Lemma allocuvm_grows_witness :
  exists s sp up l s', SampleVm.ready s sp up l /\
    allocuvm (L := Sample.linker) (sp_dir sp) PGSIZE KERNBASE s = Ret 0 s'.
Proof.
  destruct SampleVm.one_page as (s & sp & up & l & H). pose proof H as [_ Hc Hk [Hv Hd Hl Hu] _ _].
  exists s, sp, up, l, s. split; [done|].
  apply (allocuvm_grows (LO := Sample.linker_ok) s sp up l PGSIZE KERNBASE Hv (calm_cready _ _ _ Hc Hk));
    [unfold PGSIZE, KERNBASE; lia|exact Hl|lia].
Defined.

Lemma deallocuvm_shrinks_witness :
  exists s sp up l s', SampleVm.ready s sp up l /\
    deallocuvm (L := Sample.linker) (sp_dir sp) PGSIZE 0 s = Ret 0 s'.
Proof.
  destruct SampleVm.one_page as (s & sp & up & l & H). pose proof H as [_ Hc Hk [Hv Hd Hl Hu] _ _].
  destruct (deallocuvm_shrinks (LO := Sample.linker_ok) s sp up l PGSIZE 0 Hv) as (s' & H1 & _);
    [unfold PGSIZE; lia|unfold PGSIZE, KERNBASE; lia|exact Hl|].
  by exists s, sp, up, l, s'.
Defined.

Lemma copyuvm_clones_witness :
  exists s sp up l r s', SampleVm.ready s sp up l /\ copyuvm (L := Sample.linker) (sp_dir sp) PGSIZE s = Ret r s'.
Proof.
  destruct SampleVm.one_page as (s & sp & up & l & H). pose proof H as [_ Hc Hk [Hv Hd Hl Hu] _ _].
  destruct (copyuvm_clones (LO := Sample.linker_ok) s sp up l PGSIZE Hv Hl) as (r & s' & H1 & _);
    [unfold PGSIZE, KERNBASE; lia|].
  by exists s, sp, up, l, r, s'.
Defined.

Lemma freevm_returns_witness :
  exists s sp up l s', SampleVm.ready s sp up l /\ freevm (L := Sample.linker) (sp_dir sp) s = Ret tt s'.
Proof.
  destruct SampleVm.one_page as (s & sp & up & l & H). pose proof H as [_ Hc Hk [Hv Hd Hl Hu] [pg H1] _].
  destruct (freevm_returns (LO := Sample.linker_ok) s sp up l Hv) as [(s' & _ & H2 & _) _].
  - rewrite H1. apply npages_le; cbn [length]; unfold PGSIZE, KERNBASE; lia.
  - by exists s, sp, up, l, s'.
Defined.

(** Four bytes at the user's address 8. *)
Lemma copyout_writes_witness :
  exists s sp up l m', SampleVm.ready s sp up l /\
    copyout (sp_dir sp) 8 [1; 2; 3; 4] s = Ret 0 (s <| k_mem := m' |>) /\
    ubyte m' up 10 = Some 3.
Proof.
  destruct SampleVm.one_page as (s & sp & up & l & H). pose proof H as [_ Hc Hk [Hv Hd Hl Hu] [pg H1] _].
  destruct (copyout_writes (LO := Sample.linker_ok) s sp up l 8 [1; 2; 3; 4] Hv) as [Hw _]; [lia|cbn; unfold KERNBASE; lia|].
  destruct Hw as (m' & H2 & _ & H3).
  { intros x Hx. cbn in Hx. exists pg, (PTE_P + PTE_W + PTE_U). split; [|done].
    rewrite H1. by replace (Z.to_nat (x / PGSIZE)) with 0%nat by (unfold PGSIZE in *; Z.div_mod_to_equations; lia). }
  exists s, sp, up, l, m'. split_and!; [done|done|]. rewrite (H3 10) by lia. done.
Defined.
