(* ===== verification/ProcTheorems.v ===== *)
(** * Processes: the theorems

    sbrk() and the size of a process, fork() and wait() on every branch, and the
    hand-over of a process from exit() to wait(). *)

From S2P Require Import Prelude State Monad Mem Spinlock Sample ConsoleOut Kalloc Vm VmFacts Uvm Kvm.
From S2P Require Import User UserFacts Sched SleepWake Sleeplock SampleFs File Proc ProcFacts ForkFacts ExitFacts.

Section processes.
Context {L : Linker} {LO : LinkerOk L}.

(** C25: [fork] on every branch.  With a free slot, a kernel stack and memory it
    returns the new pid and leaves the child as [forked] says: a copy of the
    parent's memory in pages that were free, the parent's trap frame with 0 in
    %eax on the new kernel stack, the parent's open files and directory with one
    more reference each, RUNNABLE with the current tick as its priority.
    Without a slot nothing changes; without memory, which is only possible when
    there are at most 1026 free pages besides one for each page of the parent,
    the slot is UNUSED again and the kernel stack is back in the free list. *)
Theorem fork_creates s cur p sp up l cwd ino :
  calm s cur p -> proc_space s p sp up l -> has_frame p l ->
  files_open (p_ofile p) (k_files s) -> p_cwd p = Some cwd -> k_inodes s !! cwd = Some ino ->
  match list_find (fun p => p_state p = UNUSED) (k_procs s), l with
  | None, _ => fork s = Ret (-1) s
  | Some (k, x), [] =>
      exists y, p_state y = UNUSED /\
        fork s = Ret (-1) (s <| k_procs := <[k := y]> (k_procs s) |> <| k_nextpid := i32 (k_nextpid s + 1) |>)
  | Some (k, x), ks :: l =>
      exists r s', fork s = Ret r s' /\
        ((r = k_nextpid s /\ forked s cur p k x sp up ks l cwd s') \/
         (r = -1 /\ (length l <= 1026 + npages (p_sz p))%nat /\ exists y l' out, p_state y = UNUSED /\ k_procs s' = <[k := y]> (k_procs s) /\
            kmem_inv s' (ks :: l') /\ l' ++ out ≡ₚ l /\ uvm (k_mem s') sp up))
  end.
Proof. apply fork_cases. Qed.

(** C26: the end of [exit].  The process gives up the processor for good, with
    the lock of the process table held, as a zombie that carries the time of its
    end; its parent is runnable if it slept in [wait], and the next look of the
    parent at the table finds a zombie.  Its children belong to init, which is
    woken if one of them is a zombie already; nobody else changes. *)
Theorem exit_hands_over s cur p par q :
  calm s cur p -> (k_strategy s = 2 -> cons_ready s) -> p_parent p = Some par -> par <> cur ->
  k_procs s !! par = Some q ->
  exists s1 k, exit_zombie cur s = Swtch s1 k /\ lock_held L_ptable s1 /\ (forall s', exists f s'', k s' = Fault f s'') /\
    (exists z, k_procs s1 !! cur = Some z /\ zombie_of par z /\ p_etime z = k_ticks s /\ p_pid z = p_pid p) /\
    list_find (zombie_of par) (k_procs s1) <> None /\
    (p_state q = SLEEPING -> p_chan q = CProc par -> exists q', k_procs s1 !! par = Some q' /\ p_state q' = RUNNABLE) /\
    (forall i r j c, k_initproc s = Some i -> i <> cur -> k_procs s !! i = Some r -> p_state r = SLEEPING -> p_chan r = CProc i ->
      j <> cur -> k_procs s !! j = Some c -> zombie_of cur c ->
      (exists r', k_procs s1 !! i = Some r' /\ p_state r' = RUNNABLE) /\
      (exists c', k_procs s1 !! j = Some c' /\ zombie_of i c')) /\
    (forall j x, j <> cur -> k_procs s !! j = Some x ->
      exists x', k_procs s1 !! j = Some x' /\ after_exit s cur p x x').
Proof.
  intros H Hco Hpar Hne Hq. destruct (exit_zombie_swtch s cur p H Hco) as (s1 & k & H1 & H2 & H3 & H4).
  pose proof (calm_proc _ _ _ H) as Hp.
  set (F := fun x => left_behind (k_ticks s) cur (k_initproc s) (wake (k_ticks s) (proc_chan (p_parent p)) <$> k_procs s)
    (wake (k_ticks s) (proc_chan (p_parent p)) x)).
  assert (Hoth : forall j x, j <> cur -> k_procs s !! j = Some x -> k_procs s1 !! j = Some (F x)).
  { intros j x Hj Hx. rewrite H3, list_lookup_alter_ne by done. by apply bereaved_lookup. }
  assert (Hcur : k_procs s1 !! cur = Some (zombie (k_ticks s) (F p))).
  { rewrite H3, list_lookup_alter_eq, (bereaved_lookup s cur p cur p Hp). done. }
  pose proof (left_behind_after s cur p p (wake (k_ticks s) (proc_chan (p_parent p)) <$> k_procs s)) as [Epid Epar _].
  assert (Hz : zombie_of par (zombie (k_ticks s) (F p))).
  { split; [|done]. cbn. unfold F. rewrite Epar, Hpar, bool_decide_false by congruence. done. }
  exists s1, k. split_and!; [done|done|done| | | | |].
  - eexists. split_and!; [exact Hcur|apply Hz..|done|done].
  - intros Hf. rewrite list_find_None in Hf. rewrite Forall_forall in Hf. apply (Hf (zombie (k_ticks s) (F p))); [|done].
    by eapply list_elem_of_lookup_2.
  - intros Hs Hc. exists (F q). split; [by apply Hoth|]. apply left_behind_woken, wake_sleeper; [done|]. by rewrite Hpar.
  - intros i r j c Hi Hic Hr Hrs Hrc Hj Hcj Hzc. split.
    + exists (F r). split; [by apply Hoth|]. unfold F, left_behind. rewrite (zombie_child_seen s cur p j c Hcj Hzc).
      destruct (orphan_core cur (k_initproc s) (wake (k_ticks s) (proc_chan (p_parent p)) r)) as (E1 & E2 & _).
      destruct (wake_cases (k_ticks s) (proc_chan (p_parent p)) r) as [E|(_ & _ & E)]; rewrite E in *.
      * apply wake_sleeper; [congruence|]. rewrite E2, Hrc, Hi. done.
      * apply wake_runnable. by rewrite E1.
    + exists (F c). split; [by apply Hoth|]. destruct Hzc as [Hz1 Hz2].
      pose proof (left_behind_after s cur p c (wake (k_ticks s) (proc_chan (p_parent p)) <$> k_procs s)) as [_ E1 E2].
      split; [unfold F; by rewrite E1, bool_decide_true|]. unfold F. destruct E2 as [E2|(E2 & _)]; congruence.
  - intros j x Hj Hx. exists (F x). split; [by apply Hoth|]. apply left_behind_after.
Qed.

(** [growproc], the work of sbrk(), keeps the process and its memory in
    step.  Growing adds zeroed pages and the size, or returns -1 with everything
    as before, and succeeds when there is memory; shrinking to a positive size
    frees exactly the pages above it.  The processor then uses the process's
    page directory. *)
Theorem growproc_resizes n s i p sp up l :
  calm s i p -> cons_ok (k_cons s) -> proc_space s p sp up l ->
  (0 < n < 2 ^ 31 -> exists r s' p' sp' up' l', growproc n s = Ret r s' /\ calm s' i p' /\ proc_space s' p' sp' up' l' /\
    ((r = 0 /\ p' = p <| p_sz := p_sz p + n |> /\ reloaded s' p' /\
      exists fresh, up' = up ++ fresh /\ Forall (fresh_page (k_mem s')) fresh) \/
     (r = -1 /\ p' = p /\ up' = up)) /\
    (p_sz p + n < KERNBASE -> (2 * (npages (p_sz p + n) - npages (p_sz p)) <= length l)%nat -> r = 0)) /\
  (- p_sz p < n < 0 ->
    let p' := p <| p_sz := p_sz p + n |> in let j := npages (p_sz p + n) in
    exists s', growproc n s = Ret 0 s' /\ calm s' i p' /\ reloaded s' p' /\
      proc_space s' p' sp (take j up) (reverse (drop j up).*1 ++ l)).
Proof.
  intros H Hc Hs. split; [exact (growproc_up n s i p sp up l H Hc Hs)|]. intros Hn. pose proof (ps_user _ _ _ _ _ Hs) as Hu.
  apply (growproc_down n s i p sp up l H Hs); unfold KERNBASE in *; lia.
Qed.

(** [growproc] with minus the size of the process frees all its memory,
    takes the new size 0 for an error and returns -1 with the old size in the
    process, whose pages are free; with less than that it does nothing and
    returns 0. *)
Theorem growproc_to_zero n s i p sp up l :
  calm s i p -> proc_space s p sp up l -> 0 < p_sz p -> - 2 ^ 31 <= n ->
  (n = - p_sz p -> exists s', growproc n s = Ret (-1) s' /\ calm s' i p /\ vm_state s' sp [] (reverse up.*1 ++ l)) /\
  (n < - p_sz p -> exists s', growproc n s = Ret 0 s' /\ calm s' i p /\ reloaded s' p /\ proc_space s' p sp up l).
Proof.
  intros H Hs Hpos Hn. split; intros Hz; apply (growproc_down n s i p sp up l H Hs); lia.
Qed.

Context {F : Fuel} (Hfuel : (0 < fuel)%nat).

(** C27: [wait] on every branch.  The first zombie child in the table is
    collected: its pid is returned, its kernel stack, page tables and pages are
    free, its slot is UNUSED, and nothing else changes.  Without children, or
    when it has been killed, the process gets -1; otherwise it sleeps on its own
    slot. *)
Theorem wait_collects s i p :
  calm s i p -> (k_strategy s = 2 -> cons_ready s) ->
  (forall k x sp up l, list_find (zombie_of i) (k_procs s) = Some (k, x) -> owns_memory s x sp up l ->
    exists s' l', wait s = Ret (p_pid x) s' /\ kmem_inv s' l' /\ l' ≡ₚ p_kstack x :: sp_pages sp ++ up.*1 ++ l /\
      framed (p_kstack x :: sp_pages sp ++ up.*1) (k_mem s) (k_mem s') /\
      s' = s <| k_mem := k_mem s' |> <| k_freelist := k_freelist s' |> <| k_procs := <[k := reaped_slot x]> (k_procs s) |>) /\
  (list_find (zombie_of i) (k_procs s) = None ->
    let havekids := existsb (fun q => bool_decide (p_parent q = Some i)) (k_procs s) in
    (havekids = false \/ p_killed p <> 0 -> wait s = Ret (-1) s) /\
    (havekids = true -> p_killed p = 0 ->
      exists s1 k, wait s = Swtch s1 k /\ k_procs s1 = <[i := asleep (CProc i) p]> (k_procs s))).
Proof.
  intros H Hco. split.
  - intros k x sp up l Hf Ho.
    destruct (wait_for_found Hfuel (fun _ => ret tt) s i p k x sp up l (acq L_ptable s) H Hf eq_refl) as (m' & fl & l' & H1 & H2 & H3 & H4);
      [done|done|by eapply owns_memory_acq|].
    eexists _, l'. split_and!; [exact H1|exact H2|exact H3|exact H4|]. unfold leave_cs. by destruct s.
  - intros Hf. by apply wait_for_none.
Qed.
End processes.

(** ** Witnesses *)

Lemma fork_creates_witness :
  exists s sp up l r s', SampleVm.ready s sp up l /\ fork (L := Sample.linker) s = Ret r s'.
Proof.
  destruct SampleVm.one_page as (s & sp & up & l & H). exists s, sp, up, l.
  pose proof H as [(m & fl & co & E) Hc Hk Hs _ [Hst1 Hst2]].
  assert (Hf : has_frame (L := Sample.linker) SampleVm.user l).
  { exists SampleVm.stack. split_and!; [done|done|]. intros Hx. apply Hst2. rewrite !elem_of_app. tauto. }
  assert (Hof : files_open (p_ofile SampleVm.user) (k_files s)).
  { intros j f Hj. change (p_ofile SampleVm.user) with (replicate 16 (@None nat)) in Hj.
    apply lookup_replicate in Hj as [Hj _]. done. }
  assert (Hi : k_inodes s !! 0%nat = Some SampleFs.inode0) by (by rewrite E).
  pose proof (fork_creates (LO := Sample.linker_ok) s 0 SampleVm.user sp up l 0%nat SampleFs.inode0 Hc Hs Hf Hof eq_refl Hi) as Hw.
  destruct (list_find _ (k_procs s)) as [[k x]|]; [destruct l as [|ks l]|].
  - destruct Hw as (y & _ & Hw). by eexists _, _.
  - destruct Hw as (r & s' & Hw & _). by exists r, s'.
  - by eexists _, _.
Defined.

(** Process 0 is the child of process 1, which waits for it. *)
Definition waiting : proc := (Sample.job 1 0 3) <| p_state := SLEEPING |> <| p_chan := CProc 1 |>.
Definition dying : proc := SampleFs.running <| p_parent := Some 1%nat |>.
Definition family (s : kernel) : kernel := s <| k_procs := <[1%nat := waiting]> (<[0%nat := dying]> (k_procs s)) |>.

Lemma family_calm s : calm s 0 SampleFs.running -> calm (family s) 0 dying.
Proof.
  intros H. apply (calm_same s _ 0 SampleFs.running dying H); [done| |done].
  cbn. rewrite list_lookup_insert_ne by done. apply list_lookup_insert_eq. eapply lookup_lt_Some, H.
Qed.

Lemma exit_hands_over_witness :
  exists s1 k q', exit_zombie 0 (family SampleFs.kern) = Swtch s1 k /\ k_procs s1 !! 1%nat = Some q' /\ p_state q' = RUNNABLE.
Proof.
  destruct (exit_hands_over (family SampleFs.kern) 0 dying 1 waiting (family_calm _ SampleFs.kern_calm))
    as (s1 & k & H1 & _ & _ & _ & _ & H2 & _); [intros E; discriminate E|done|done|done|].
  destruct (H2 eq_refl eq_refl) as (q' & H3 & H4). by exists s1, k, q'.
Defined.

Lemma growproc_resizes_witness :
  exists s sp up l s', SampleVm.ready s sp up l /\ growproc (L := Sample.linker) (-96) s = Ret 0 s'.
Proof.
  destruct SampleVm.one_page as (s & sp & up & l & H). pose proof H as [_ Hc Hk Hs _ _]. exists s, sp, up, l.
  destruct (growproc_resizes (LO := Sample.linker_ok) (-96) s 0 SampleVm.user sp up l Hc Hk Hs) as [_ Hd].
  destruct Hd as (s' & Hd & _); [split; reflexivity|]. by exists s'.
Defined.

Lemma growproc_to_zero_witness :
  exists s sp up l s', SampleVm.ready s sp up l /\ growproc (L := Sample.linker) (-4096) s = Ret (-1) s'.
Proof.
  destruct SampleVm.one_page as (s & sp & up & l & H). pose proof H as [_ Hc Hk Hs _ _]. exists s, sp, up, l.
  destruct (growproc_to_zero (LO := Sample.linker_ok) (-4096) s 0 SampleVm.user sp up l Hc Hs) as [Hd _];
    [reflexivity|vm_compute; discriminate|].
  destruct Hd as (s' & Hd & _); [done|]. by exists s'.
Defined.

(** Process 0 has a zombie child in slot 1. *)
Definition child : proc := SampleVm.user <| p_pid := 8 |> <| p_state := ZOMBIE |> <| p_parent := Some 0%nat |>.
Definition with_child (s : kernel) : kernel := s <| k_procs := <[1%nat := child]> (k_procs s) |>.

Lemma with_child_calm s p : calm s 0 p -> calm (with_child s) 0 p.
Proof.
  intros H. apply (calm_same s _ 0 p p H); [done| |apply H]. cbn. rewrite list_lookup_insert_ne by done. apply H.
Qed.

Lemma with_child_owns s sp up l :
  SampleVm.ready s sp up l -> owns_memory (L := Sample.linker) (with_child s) child sp up l.
Proof.
  intros [_ Hc _ [Hv Hd Hl Hu] _ [Hs1 Hs2]]. split; [|done| |done|done].
  - eapply vm_state_ext; [exact Hv|eapply calm_kready, with_child_calm, Hc|done|done].
  - rewrite Hl. change (p_sz SampleVm.user) with PGSIZE. change (npages PGSIZE) with 1%nat.
    apply npages_le; unfold PGSIZE, KERNBASE; lia.
Qed.

Lemma wait_collects_witness :
  exists s sp up l s', SampleVm.ready s sp up l /\
    wait (L := Sample.linker) (F := SampleFs.fuel1) (with_child s) = Ret 8 s'.
Proof.
  destruct SampleVm.one_page as (s & sp & up & l & H). exists s, sp, up, l. pose proof H as [(m & fl & co & E) Hc _ _ _ _].
  destruct (wait_collects (LO := Sample.linker_ok) (F := SampleFs.fuel1) (Nat.lt_0_1) (with_child s) 0 SampleVm.user
    (with_child_calm _ _ Hc)) as [Hw _]; [by rewrite E|].
  destruct (Hw 1%nat child sp up l) as (s' & l' & H1 & _); [by rewrite E|by apply with_child_owns|].
  by exists s'.
Defined.
