(* ===== verification/UserTheorems.v ===== *)
(** * The shell, the allocator, grep and the library: the theorems

    From the text of a line to the programs that it runs; what [malloc] and
    [free] promise; what grep, cat, wc and printf write. *)

From Stdlib Require Import Ascii String.
From S2P Require Import Prelude State Monad Mem Spinlock ConsoleOut Regex UserProg Ulib UlibFacts Programs ProgramFacts Shell ShellFacts Grammar ShellWords ShellRun.
From S2P Require Import ShellRun Umalloc UmallocFacts MallocFacts.


(** [(ls < a | wc > b) & ; echo hi] *)
Definition sample_line : sline :=
  LSeq (POne (EBlock (LEnd (PBar (ESimple [] [(bytes "ls", [RIn (bytes "a")])])
                                 (POne (ESimple [] [(bytes "wc", [ROut (bytes "b")])]))) 0) [])) 1
       (LEnd (POne (ESimple [] [(bytes "echo", []); (bytes "hi", [])])) 0).



(** C29: every line without a NUL is read or refused, and nothing else: the
    parser ends within its bound; it returns a command all of whose words are
    non-empty strings of the line that [nulterminate] has ended at exactly the
    place where the parser ended the word, or one of its four messages, or the
    left-over text. *)
Theorem parsecmd_total buf : Forall (fun c => c <> 0) buf ->
  match parsecmd buf with
  | Parsed (c, b) => length b = length buf /\ Forall (fun w => string_at b w = content buf w /\ content buf w <> []) (cmd_words c)
  | Panicked msg => msg ∈ syntax_errors
  | Leftovers l => l <> []
  | TooDeep => False
  end.
Proof. exact (parsecmd_words buf). Qed.

Lemma parsecmd_total_witness :
  match parsecmd (bytes "a|b>c;(d)") with
  | Parsed (c, b) => b = [97; 0; 98; 0; 99; 0; 40; 100; 0] /\ Forall (fun w => string_at b w <> []) (cmd_words c)
  | _ => False
  end.
Proof.
  assert (Hnz : Forall (fun c => c <> 0) (bytes "a|b>c;(d)")) by (repeat constructor; discriminate).
  pose proof (parsecmd_total (bytes "a|b>c;(d)") Hnz) as H. vm_compute in H |- *. destruct H as [_ H].
  split; [reflexivity|]. repeat (constructor; [discriminate|]). constructor.
Defined.

(** C30: the parser undoes the printer: the tokens of a line of the grammar,
    printed with spaces, are parsed to the command of that line. *)
Theorem parse_print l : few_line l = true -> words_ok (toks_line l) = true ->
  exists c, parsecmd (print_line l) = Parsed (c, nulterminate c (print_line l)) /\
    cmd_map (string_at (nulterminate c (print_line l))) c = cmd_line l.
Proof.
  intros Hf Hw. destruct (parsecmd_syntax (print_line l) l Hf (lexes_print _ Hw)) as (c & Hp & Hc). exists c. split; [done|].
  pose proof (parsecmd_words (print_line l) (print_no_nul _ Hw)) as H. rewrite Hp in H. destruct H as [_ H].
  rewrite <- Hc. apply cmd_map_ext. eapply Forall_impl; [exact H|]. by intros w [].
Qed.

Lemma parse_print_witness :
  match parsecmd (print_line sample_line) with
  | Parsed (c, b) => cmd_map (string_at b) c = cmd_line sample_line
  | _ => False
  end.
Proof. destruct (parse_print sample_line eq_refl eq_refl) as (c & H1 & H2). rewrite H1. exact H2. Defined.

(** * User programs and their library: the theorems

    The allocator, grep, cat and wc, [printf] and the string functions. *)

#[local] Strategy opaque [printf bytes].

(** ** The allocator *)

(** A break that may go up to 1 MB. *)
Definition brk_1mb (brk n : Z) : option Z := if brk + n <=? 2 ^ 20 then Some (brk + n) else None.

Lemma brk_1mb_grows brk n brk' : 0 <= n -> brk_1mb brk n = Some brk' -> brk' = brk + n /\ brk' <= 2 ^ 31.
Proof. intros Hn. unfold brk_1mb. destruct (Z.leb_spec (brk + n) (2 ^ 20)); [|done]. intros [= <-]. lia. Qed.

#[local] Instance sample_sbrk : Sbrk := {| sbrk := brk_1mb; sbrk_grows := brk_1mb_grows |}.

Definition sample_heap : heap := MkHeap ∅ 0 8192.

Lemma sample_fresh : fresh_heap 4096 sample_heap.
Proof. split; cbn; lia. Qed.

(** C31: what a program that keeps to its arrays may expect of [malloc] and
    [free]: whatever calls it makes, in any order, and whatever it writes to the
    bytes it was given, every call returns, the arrays it holds never overlap,
    and each byte it wrote to an array is still there. *)
Theorem allocator_arrays `{Sbrk} base h os fuel :
  fresh_heap base h -> Forall op_ok os -> (4 * length os + 8 < fuel)%nat ->
  exists h' rs, run_ops base fuel (h, []) os = Some (h', rs) /\
    (forall i j r r', rs !! i = Some r -> rs !! j = Some r' -> i <> j ->
       r_ptr r + r_len r <= r_ptr r' \/ r_ptr r' + r_len r' <= r_ptr r) /\
    (forall i r off v, rs !! i = Some r -> r_bytes r !! off = Some v -> ld8 (h_mem h') (r_ptr r + off) = v).
Proof.
  intros Hf Hos Hfuel. assert (H0 : state_ok base 0 (h, [])) by (exists [], []; split_and!; [by right|constructor|done]).
  destruct (run_ops_ok base os 0 (h, []) fuel H0 Hos ltac:(lia)) as ([h' rs] & E & Hst).
  exists h', rs. split; [done|]. by eapply state_ok_regions.
Qed.

Definition sample_ops : list op := [OMalloc 10; OMalloc 20; OWrite 0 3 77; OFree 1; OMalloc 5; OWrite 0 4 9].

Lemma allocator_arrays_witness :
  exists h r1 r2, run_ops 4096 40 (sample_heap, []) sample_ops = Some (h, [r1; r2]) /\
    r_ptr r1 = 40952 /\ r_ptr r2 = 40912 /\ r_bytes r2 = {[3 := 77]} /\ ld8 (h_mem h) (40912 + 3) = 77.
Proof.
  destruct (allocator_arrays 4096 sample_heap sample_ops 40 sample_fresh) as (h & rs & H1 & H2 & H3);
    [repeat constructor; cbn; lia|cbn; lia|].
  pose proof H1 as Hc. vm_compute in Hc. injection Hc as Hh Hrs.
  destruct rs as [|r1 [|r2 [|]]]; try discriminate Hrs. injection Hrs as E1 E2.
  exists h, r1, r2. split; [exact H1|]. rewrite <- E1, <- E2. split_and!; [reflexivity..|].
  rewrite <- (H3 1%nat r2 3 77); [by rewrite <- E2|reflexivity|by rewrite <- E2].
Defined.

(** C32: [malloc] of less than 2 GB returns, and gives a block that was free or is
    new memory: the bytes of the free blocks before, with those that [sbrk]
    added, are exactly those of the free blocks and of the new block after; the
    block has room for the bytes and wastes less than a header, is apart from
    all the program's other blocks (the invariant), and their bytes are
    unchanged; or the kernel has refused, no free block is large enough, 0 is
    returned and nothing of the program's has changed. *)
Theorem malloc_hands_out `{Sbrk} base h F A nbytes fuel :
  heap_ready base h F A -> 0 <= nbytes < 2 ^ 31 - 16 -> (4 * length F + 8 < fuel)%nat ->
  nbytes + 8 <= 8 * units nbytes < nbytes + 16 /\
  ((exists b h' F', malloc base fuel h nbytes = Some (b + 8, h') /\ heap_inv base h' F' ((b, units nbytes) :: A) /\
      (forall a, covers F a \/ h_brk h <= a < h_brk h' <-> covers F' a \/ b <= a < b + 8 * units nbytes) /\
      (forall a, covers A a -> ld8 (h_mem h') a = ld8 (h_mem h) a)) \/
   (exists h', malloc base fuel h nbytes = Some (0, h') /\ heap_inv base h' F A /\
      sbrk (h_brk h) (8 * more_units (units nbytes)) = None /\ Forall (fun b => snd b < units nbytes) F /\
      (forall a, covers A a -> ld8 (h_mem h') a = ld8 (h_mem h) a))).
Proof.
  intros Hr Hn Hfuel. split; [by apply units_spec|].
  destruct (malloc_spec base h F A nbytes fuel Hr Hn Hfuel) as [(b & h' & F' & E & [H1 _ H2 H3 _])|(h' & E & H1 & H2 & H3 & _ & H4)].
  - left. by exists b, h', F'.
  - right. by exists h'.
Qed.

Lemma malloc_hands_out_witness :
  exists b h' F', malloc 4096 20 sample_heap 10 = Some (b + 8, h') /\ heap_inv 4096 h' F' [(b, 3)].
Proof.
  destruct (malloc_hands_out 4096 sample_heap [] [] 10 20) as [_ [(b & h' & F' & E & Hi & _)|(h' & E & _)]];
    [right; by split_and!; [apply sample_fresh|..]|lia|cbn; lia| |].
  - exists b, h', F'. split; [exact E|exact Hi].
  - vm_compute in E. discriminate E.
Defined.

(** [free] of a block returns and takes it back: its bytes, and nothing else,
    are added to those of the free blocks, which stay in order and never touch
    each other (the neighbours are joined); the program's other blocks keep
    their bytes. *)
Theorem free_takes_back base h F A bp sb fuel :
  heap_inv base h F ((bp, sb) :: A) -> (2 * length F + 2 < fuel)%nat ->
  exists h' F', free fuel h (bp + 8) = Some h' /\ heap_inv base h' F' A /\
    (forall a, covers F' a <-> covers F a \/ bp <= a < bp + 8 * sb) /\
    (forall a, covers A a -> ld8 (h_mem h') a = ld8 (h_mem h) a).
Proof.
  intros Hi Hf. destruct (free_spec base h F A bp sb fuel Hi ltac:(cbn [ring length]; lia)) as (h' & F' & E & H1 & _ & H2 & H3 & _).
  by exists h', F'.
Qed.

Lemma free_takes_back_witness :
  exists b h F h' F', malloc 4096 20 sample_heap 10 = Some (b + 8, h) /\ heap_inv 4096 h F [(b, 3)] /\
    free 40 h (b + 8) = Some h' /\ heap_inv 4096 h' F' [].
Proof.
  destruct (malloc_spec 4096 sample_heap [] [] 10 20) as [(b & h & F & E & [Hi _ _ _ Hl])|(h' & E & _)];
    [right; by split_and!; [apply sample_fresh|..]|lia|cbn; lia| |vm_compute in E; discriminate E].
  cbn in Hl. destruct (free_takes_back 4096 h F [] b (units 10) 40 Hi ltac:(lia)) as (h' & F' & E' & Hi' & _).
  exists b, h, F, h', F'. split_and!; [exact E|exact Hi|exact E'|exact Hi'].
Defined.

(** The number of units is computed modulo 2^32: a request for almost 4 GB is
    answered with a block of one header, which has no byte for the program. *)
Theorem malloc_wraps `{Sbrk} base h F A nbytes fuel :
  heap_inv base h F A -> 2 ^ 32 - 7 <= nbytes < 2 ^ 32 -> (4 * length F + 8 < fuel)%nat ->
  malloc_result base h F A 1 (malloc base fuel h nbytes).
Proof.
  intros Hi Hn Hfuel. assert (Hu : units nbytes = 1).
  { unfold units. replace (u32 (nbytes + 8 - 1)) with (nbytes + 7 - 2 ^ 32).
    - rewrite Z.div_small by lia. reflexivity.
    - unfold u32. rewrite <- (Z_mod_plus_full _ (-1)). rewrite Z.mod_small; lia. }
  unfold malloc. rewrite Hu, (proj2 (Z.eqb_neq _ _) (freep_nonzero _ _ _ _ Hi)).
  apply malloc_loop_spec; [done|lia|cbn [ring length]; lia].
Qed.

(** ** grep *)

(** C33: [match] decides the language of the pattern: the text has a part that
    the items of the pattern denote, at its start if the pattern begins with a
    '^' and at its end if it ends in a '$'. *)
Theorem match_denotes re text :
  match_ re text = true <->
  match re with
  | c :: re' => if c =? CARET then prefix_match (items re') text else exists u v, text = u ++ v /\ prefix_match (items re) v
  | [] => True
  end.
Proof.
  unfold match_. destruct re as [|c re].
  - split; [done|]. intros _. apply match_from_spec. exists [], text. split; [done|]. apply prefix_nil.
  - destruct (c =? CARET); [apply matchhere_spec|apply match_from_spec].
Qed.




(** ** cat and wc *)

(** Cat copies: whenever it comes to its end, in whatever pieces its input
    arrives, it has written to its standard output exactly the bytes it has
    read, in order; it stops before only if a call has failed, and then the
    program exits; and it does come to its end when the input does. *)
Theorem cat_copies turns fd :
  (forall t o, runs (cat turns fd) t o -> trace_ok t -> fd <> 1 ->
     (o = Finished tt /\ written 1 t = readin fd t) \/ (o = Exited /\ Exists (fun e => r_val (snd e) = -1) t)) /\
  (forall chunks rs, Forall (fun c => c <> []) chunks -> (length chunks < turns)%nat ->
     exists t, play (cat_replies chunks ++ rs) (cat turns fd) = Some (t, Finished tt, rs) /\
       written 1 t = concat chunks /\ readin fd t = concat chunks).
Proof. split; [exact (cat_runs turns fd)|]. intros chunks rs. apply cat_play. Qed.

(** Wc counts: for an input of less than 2 GB, in whatever pieces it
    arrives, it prints the number of newlines, of words (maximal runs of bytes
    that are not white space, also across the pieces) and of bytes. *)
Theorem wc_counts chunks turns fd name l ws rs :
  Forall (fun c => c <> []) chunks -> (length chunks < turns)%nat ->
  let text := concat chunks in
  Z.of_nat (length text) < 2 ^ 31 ->
  render (directives (line "%d %d %d %s"))
    [AInt (Z.of_nat (nlines text)); AInt (Z.of_nat (nwords text)); AInt (Z.of_nat (length text)); AStr (Some name)] = Some l ->
  length ws = length l ->
  exists t, play (wc_replies chunks ++ ws ++ rs) (wc turns fd name) = Some (t, Finished tt, rs) /\
    written 1 t = map u8 l /\ readin fd t = text.
Proof.
  intros Hc Ht text Hlen Hl Hws. unfold wc. apply wc_play; [done|done| |done].
  rewrite (wc_count_spec (concat chunks) Hlen). exact Hl.
Qed.

Lemma wc_counts_witness :
  exists t, play (wc_replies [bytes "two wo"; bytes "rds" ++ [NL]] ++ replicate 9 eof) (wc 3 0 (bytes "f")) = Some (t, Finished tt, []) /\
    written 1 t = line "1 2 10 f".
Proof.
  destruct (wc_counts [bytes "two wo"; bytes "rds" ++ [NL]] 3 0 (bytes "f") (line "1 2 10 f") (replicate 9 eof) []) as (t & H1 & H2 & _).
  - constructor; [discriminate|]. constructor; [discriminate|constructor].
  - cbn. lia.
  - vm_compute. reflexivity.
  - vm_compute. reflexivity.
  - vm_compute. reflexivity.
  - exists t. rewrite app_nil_r in H1. split; [exact H1|]. rewrite H2. vm_compute. reflexivity.
Defined.

(** ** The library *)

(** [printf] writes what its format means: the directives with their
    arguments, byte by byte, to the descriptor it is given and nothing else, and
    always returns, whatever [write] replies. *)
Theorem printf_renders fd fmt args l : render (directives fmt) args = Some l ->
  forall t o, runs (printf fd fmt args) t o <-> o = Finished tt /\ t.*1 = writes fd l.
Proof. exact (printf_prints fd fmt args l). Qed.

Lemma printf_renders_witness :
  render (directives (bytes "%d%%: %s %x")) [AInt (-12); AStr (Some (bytes "ok")); AInt 255] = Some (bytes "-12%: ok FF") /\
  forall t o, runs (printf 2 (bytes "%d%%: %s %x") [AInt (-12); AStr (Some (bytes "ok")); AInt 255]) t o ->
    t.*1 = writes 2 (bytes "-12%: ok FF").
Proof.
  split; [vm_compute; reflexivity|]. intros t o H.
  apply (printf_renders 2 (bytes "%d%%: %s %x") [AInt (-12); AStr (Some (bytes "ok")); AInt 255] (bytes "-12%: ok FF")) in H as [_ H];
    [exact H|vm_compute; reflexivity].
Defined.

(** [atoi] reads what [printint] prints in decimal: every non-negative int
    comes back. *)
Theorem atoi_printint n : 0 <= n < 2 ^ 31 -> atoi (uprintint_chars n 10 true) = n.
Proof.
  intros Hn. unfold atoi, uprintint_chars. rewrite (proj2 (Z.ltb_ge n 0)) by lia. cbn [andb]. rewrite u32_small, app_nil_r by lia.
  apply atoi_digits; lia.
Qed.

Lemma atoi_printint_witness : uprintint_chars 2147483647 10 true = bytes "2147483647" /\ atoi (uprintint_chars 2147483647 10 true) = 2147483647.
Proof. split; [vm_compute; reflexivity|]. apply (atoi_printint 2147483647). lia. Defined.

(** The string functions of the user library on C strings: [strcpy] copies
    the string and its NUL and nothing beyond, [strcmp] is zero exactly on equal
    strings, [strlen] is the length and [strchr] finds the first occurrence;
    each ends for every bound that is longer than the string. *)
Theorem ulib_strings m s p q l1 l2 c bound :
  mem_ok m -> cstr m p l1 -> cstr m q l2 -> (length l1 < bound)%nat -> (length l2 < bound)%nat -> 0 < p -> 0 <= c < 256 ->
  ustrlen bound m p = Some (Z.of_nat (length l1)) /\
  (exists z, ustrcmp bound m p q = Some z /\ (z = 0 <-> l1 = l2)) /\
  ustrchr bound m p c = Some (match list_find (fun x => x = c) l1 with Some (i, _) => p + Z.of_nat i | None => 0 end) /\
  (s + Z.of_nat (length l1) < p \/ p + Z.of_nat (length l1) < s ->
   exists m', ustrcpy bound m s p = Some m' /\ cstr m' s l1 /\
     forall a, ~ (s <= a <= s + Z.of_nat (length l1)) -> ld8 m' a = ld8 m a).
Proof.
  intros Hm H1 H2 Hb1 Hb2 Hp Hc. split_and!.
  - unfold ustrlen. rewrite (ustrlen_loop_cstr bound m p 0 l1); [done|by rewrite Z.add_0_r|done].
  - by apply ustrcmp_equal.
  - by apply ustrchr_cstr.
  - by apply ustrcpy_cstr.
Qed.

(** "ab" at 100 and "ad" at 200. *)
Definition two_strings : mem := {[100 := 97; 101 := 98; 102 := 0; 200 := 97; 201 := 100; 202 := 0]}.

Lemma two_strings_ok : mem_ok two_strings /\ cstr two_strings 100 [97; 98] /\ cstr two_strings 200 [97; 100].
Proof.
  split_and!.
  - unfold mem_ok. apply (bool_decide_eq_true_1 _). vm_compute. reflexivity.
  - rewrite !cstr_cons, cstr_nil. split_and!; try done; vm_compute; reflexivity.
  - rewrite !cstr_cons, cstr_nil. split_and!; try done; vm_compute; reflexivity.
Qed.

Lemma ulib_strings_witness :
  ustrlen 5 two_strings 100 = Some 2 /\ ustrcmp 5 two_strings 100 200 = Some (-2) /\ ustrchr 5 two_strings 100 98 = Some 101 /\
  exists m', ustrcpy 5 two_strings 300 100 = Some m' /\ cstr m' 300 [97; 98].
Proof.
  destruct two_strings_ok as (H1 & H2 & H3).
  destruct (ulib_strings two_strings 300 100 200 [97; 98] [97; 100] 98 5 H1 H2 H3) as (K1 & (z & K2 & K3) & K4 & K5);
    [cbn; lia|cbn; lia|lia|lia|].
  destruct K5 as (m' & K5 & K6 & _); [cbn; lia|]. split_and!; [exact K1| |exact K4|by exists m'].
  rewrite K2. vm_compute in K2. exact (eq_sym K2).
Defined.
