(* ===== verification/BootTheorems.v ===== *)
(** * From the disk image to the first process: the theorems

    The boot loader, the assembly code of switches, traps and start-up, and the
    file system image that mkfs builds. *)

From Stdlib Require Import Ascii String.
From S2P Require Import Prelude State Monad Mem Spinlock Kalloc ConsoleOut Vm VmFacts Uvm Kvm User UserFacts Sched Sample SampleFs Log Inode Fs FsFacts Proc ProcFacts ForkFacts.
From S2P Require Import Ports Bio Exec Syscall Sysfile Trap Boot Asm AsmFacts BootLoader Mkfs MkfsFacts MkfsImage Mount.

(** C35: the boot loader loads the kernel: when the file on the disk is an ELF
    file whose headers fit the first page and whose segments ascend above it,
    [bootmain] returns its entry point with every segment in memory, its bytes
    of the file at their physical address and then zeros up to its size, although
    whole sectors are read and the segments may start in the middle of one. *)
Theorem bootmain_loads_kernel {P : AtaPorts} {D : AtaDisk P} m d : let n := Z.to_nat (file16 44) in
  file32 0 = ELF_MAGIC_NUMBER -> file32 28 + 32 * Z.of_nat n <= 4096 ->
  Forall fits (segments (file32 28) n) -> ascending (segments (file32 28) n) ->
  exists m' d', bootmain ata_patience (m, d) = Some (Some (file32 24), (m', d')) /\ Forall (in_memory m') (segments (file32 28) n).
Proof. exact (bootmain_loads m d). Qed.

(** ** A disk

    It keeps the four bytes of the sector number and is never busy. *)
Record registers := MkRegs { rg0 : Z; rg1 : Z; rg2 : Z; rg3 : Z }.

(** An ELF file with two segments: five bytes of which four are in the file, at
    physical address 0x100064, and two bytes at 0x100264. *)
Definition elf_file : list Z :=
  [127; 69; 76; 70] ++ replicate 12 0 ++ [2; 0; 3; 0] ++ [1; 0; 0; 0] ++ [12; 0; 16; 0] ++ [52; 0; 0; 0] ++ replicate 8 0 ++
  [52; 0; 32; 0; 2; 0; 0; 0; 0; 0; 0; 0] ++
  [1; 0; 0; 0; 100; 0; 0; 0; 100; 0; 16; 128; 100; 0; 16; 0; 4; 0; 0; 0; 5; 0; 0; 0] ++ replicate 8 0 ++
  [1; 0; 0; 0; 100; 2; 0; 0; 100; 2; 16; 128; 100; 2; 16; 0; 2; 0; 0; 0; 2; 0; 0; 0] ++ replicate 8 0 ++
  replicate 504 7.

Definition image_sector (n : Z) : list Z :=
  let l := take 512 (drop (Z.to_nat ((n - 1) * 512)) elf_file) in l ++ replicate (512 - length l) 0.

#[local] Instance sample_ports : AtaPorts := {|
  ata := registers;
  ata_inb d _ := (0x40, d);
  ata_outb d p v := if p =? 0x1F3 then MkRegs v (rg1 d) (rg2 d) (rg3 d) else if p =? 0x1F4 then MkRegs (rg0 d) v (rg2 d) (rg3 d)
    else if p =? 0x1F5 then MkRegs (rg0 d) (rg1 d) v (rg3 d) else if p =? 0x1F6 then MkRegs (rg0 d) (rg1 d) (rg2 d) v else d;
  ata_insl d _ _ := (image_sector (rg0 d + rg1 d * 2 ^ 8 + rg2 d * 2 ^ 16 + (rg3 d - 0xE0) * 2 ^ 24), d)
|}.

Lemma image_sector_length n : length (image_sector n) = 512%nat.
Proof. unfold image_sector. rewrite length_app, length_replicate, length_take. lia. Qed.

Lemma image_sector_bytes n : Forall (fun b => 0 <= b < 256) (image_sector n).
Proof.
  unfold image_sector. apply Forall_app. split; [|by apply Forall_replicate].
  apply Forall_take, Forall_drop. apply (bool_decide_eq_true_1 _). vm_compute. reflexivity.
Qed.

Lemma sample_reads (d : registers) n : 0 <= n < 2 ^ 28 ->
  exists d1 d2 d3, waitdisk 1 d = Some d1 /\
    waitdisk 1 (ata_outb (ata_outb (ata_outb (ata_outb (ata_outb (ata_outb d1 0x1F2 1)
      0x1F3 (n mod 2 ^ 8)) 0x1F4 (n / 2 ^ 8 mod 2 ^ 8)) 0x1F5 (n / 2 ^ 16 mod 2 ^ 8)) 0x1F6 (0xE0 + n / 2 ^ 24)) 0x1F7 0x20) = Some d2 /\
    ata_insl d2 0x1F0 128 = (image_sector n, d3).
Proof.
  intros Hn. assert (En : n mod 2 ^ 8 + n / 2 ^ 8 mod 2 ^ 8 * 2 ^ 8 + n / 2 ^ 16 mod 2 ^ 8 * 2 ^ 16 + (0xE0 + n / 2 ^ 24 - 0xE0) * 2 ^ 24 = n).
  { change (2 ^ 8) with 256. change (2 ^ 16) with 65536. change (2 ^ 24) with 16777216.
    replace (n / 16777216) with (n / 256 / 256 / 256) by (rewrite !Z.div_div by lia; done).
    replace (n / 65536) with (n / 256 / 256) by (rewrite Z.div_div by lia; done).
    pose proof (Z.div_mod n 256). pose proof (Z.div_mod (n / 256) 256). pose proof (Z.div_mod (n / 256 / 256) 256). lia. }
  do 3 eexists. split; [reflexivity|]. split; [reflexivity|]. 
  cbn -[Z.pow Z.div Z.modulo Z.add Z.mul Z.sub image_sector]. rewrite En. reflexivity.
Qed.

#[local] Instance sample_disk : AtaDisk sample_ports := {|
  sector := image_sector; ata_patience := 1%nat;
  sector_length := image_sector_length; sector_bytes := image_sector_bytes; ata_reads := sample_reads
|}.

Lemma bootmain_loads_kernel_witness :
  exists m' d', bootmain (P := sample_ports) 1 (∅, MkRegs 0 0 0 0) = Some (Some 0x10000C, (m', d')) /\
    ld8 m' 0x100064 = 2 /\ ld8 m' 0x100068 = 0 /\ ld8 m' 0x100265 = 7.
Proof.
  destruct (bootmain_loads_kernel (P := sample_ports) (D := sample_disk) ∅ (MkRegs 0 0 0 0)) as (m' & d' & H1 & H2).
  - vm_compute. reflexivity.
  - vm_compute. discriminate.
  - repeat constructor; vm_compute; (reflexivity || discriminate).
  - repeat constructor; vm_compute; (reflexivity || discriminate).
  - apply Forall_cons in H2 as [[I1 I2] [[I3 _] _]%Forall_cons]. exists m', d'. split_and!.
    + exact H1.
    + apply (I1 0). vm_compute. by split.
    + apply (I2 4). vm_compute. by split.
    + apply (I3 1). vm_compute. by split.
Defined.

(** * The assembly code: theorems *)

(** C36: [swtch(&old, new)] saves the context of its caller at the top of the
    caller's stack, stores its address in [old], and continues where the thread
    of [new] was, with that thread's registers and stack; nothing else in
    memory changes.  Whenever any thread later switches to the saved context,
    the caller continues behind its call of [swtch] with the registers that it
    had. *)
Theorem swtch_switches {A : CodeAddr} m old new : words_ok m -> swtch_call m old new ->
  let sp := regs m ESP in let pc := ld32 (bytes_at m) sp in
  exists m', run swtch m = (m', Goes (ld32 (bytes_at m) (new + CTX_EIP)), []) /\
    context_at (bytes_at m) new m' (ld32 (bytes_at m) (new + CTX_EIP)) /\ regs m' ESP = new + sizeof_context /\
    ld32 (bytes_at m') old = sp - 16 /\ context_at (bytes_at m') (sp - 16) m pc /\
    (forall a, ~ (sp - 16 <= a < sp) -> ~ (old <= a < old + 4) -> ld8 (bytes_at m') a = ld8 (bytes_at m) a) /\
    forall m2 old2, words_ok m2 -> swtch_call m2 old2 (sp - 16) -> context_at (bytes_at m2) (sp - 16) m pc ->
      exists m3, run swtch m2 = (m3, Goes pc, []) /\ regs m3 ESP = sp + 4 /\ forall r, r ∈ [EDI; ESI; EBX; EBP] -> regs m3 r = regs m r.
Proof.
  intros Hw Hc sp pc. destruct (swtch_run m old new Hw Hc) as (m' & R & C & S & C' & O & _ & _ & _ & F).
  exists m'. split_and!; try done. intros m2 old2 Hw2 Hc2 [D1 D2 D3 D4 D5].
  destruct (swtch_run m2 old2 (sp - 16) Hw2 Hc2) as (m3 & R3 & [E1 E2 E3 E4 _] & S3 & _). rewrite D5 in R3.
  exists m3. split_and!; [done|rewrite S3; unfold sizeof_context; lia|]. intros r Hr. rewrite !elem_of_cons, elem_of_nil in Hr.
  destruct Hr as [->|[->|[->|[->|[]]]]]; congruence.
Qed.

(** A machine with two threads: one runs, the context of the other is at 0x2000. *)
#[local] Instance sample_code : CodeAddr := fun _ => 0x1234.

Definition put_words (a : Z) (ws : list Z) (b : mem) : mem := foldr (fun '(i, w) b => st32 b (a + 4 * i) w) b (zip (seqZ 0 (Z.of_nat (length ws))) ws).

Definition two_threads : machine :=
  MkMachine 5 6 7 8 0x1000 9 10 11 8 16 16 24 24 16 0 0 0 0x200
    (put_words 0x1000 [0x11; 0x3000; 0x2000] (put_words 0x2000 [1; 2; 3; 4; 0x22] ∅)).

Lemma swtch_switches_witness : exists m', run swtch two_threads = (m', Goes 0x22, []) /\ regs m' EBX = 3.
Proof.
  destruct (swtch_switches two_threads 0x3000 0x2000) as (m' & R & [_ _ C _ _] & _).
  - intros []; vm_compute; split; congruence.
  - split; try (vm_compute; reflexivity); [cbn; lia|unfold sizeof_context; lia|unfold apart, sizeof_context; cbn; lia].
  - exists m'. split; [exact R|]. rewrite <- C. vm_compute. reflexivity.
Defined.




(** C38: the first return of a forked child.  When the scheduler switches to the
    context of the process that [fork] made, it continues in [forkret], which
    returns to [trapret]; and that resumes user code with the parent's
    registers, segments and program counter, except that %eax is 0. *)
Theorem child_starts {A : CodeAddr} {L : Linker} {LO : LinkerOk L} s cur p k x sp up ks l cwd s' m old :
  forked s cur p k x sp up ks l cwd s' -> words_ok m -> page_ok ks -> (forall a, ks <= a < ks + PGSIZE -> ld8 (bytes_at m) a = ld8 (k_mem s') a) ->
  swtch_call m old (ks + CTX_OFF) ->
  apart (regs m ESP - 16) 16 ks PGSIZE -> apart old 4 ks PGSIZE ->
  exists m1, run swtch m = (m1, Goes (u32 sym_forkret), []) /\ ld32 (bytes_at m1) (regs m1 ESP) = u32 sym_trapret /\
    forall m2, regs m2 ESP = regs m1 ESP + 4 -> Z.land (segs m2 CS) 3 = 0 -> Z.land (u16 (ld32 (k_mem s) (p_tf p + TF_CS))) 3 = 3 ->
      (forall j, 0 <= j < sizeof_tf -> ld8 (bytes_at m2) (ks + TF_OFF + j) = ld8 (bytes_at m1) (ks + TF_OFF + j)) ->
      exists m3, run trapret m2 = (m3, Goes (ld32 (k_mem s) (p_tf p + TF_EIP)), []) /\ regs m3 EAX = 0 /\
        (forall r, r <> EAX -> regs m3 r = ld32 (k_mem s) (p_tf p + tf_reg r)) /\
        (forall g, segs m3 g = u16 (ld32 (k_mem s) (p_tf p + tf_seg g))) /\ eflags m3 = ld32 (k_mem s) (p_tf p + TF_EFLAGS).
Proof.
  intros Hf Hw Hks Hb Hc A1 A2. apply page_ok_range in Hks as Hksr. destruct (swtch_run m old _ Hw Hc) as (m1 & R & _ & S & _ & _ & _ & _ & _ & F).
  destruct (fk_resume _ _ _ _ _ _ _ _ _ _ _ Hf) as [Ft Fr]. unfold apart, PGSIZE, KERNBASE, PHYSTOP in *.
  assert (Hpage : forall a, ks <= a < ks + 4096 -> ld8 (bytes_at m1) a = ld8 (k_mem s') a) by (intros a Ha; rewrite F, Hb by lia; done).
  assert (Er : ld32 (bytes_at m) (ks + CTX_OFF + CTX_EIP) = u32 sym_forkret).
  { rewrite <- Fr. apply ld32_agree. intros j Hj. apply Hb. unfold CTX_OFF, TF_OFF, KSTACKSIZE, sizeof_tf, sizeof_context, CTX_EIP. lia. }
  rewrite Er in R.
  assert (Esp : regs m1 ESP = ks + TF_OFF - 4) by (rewrite S; unfold CTX_OFF; lia).
  exists m1. split_and!; [done| |].
  { rewrite Esp, <- Ft. apply ld32_agree. intros j Hj. apply Hpage. unfold TF_OFF, KSTACKSIZE, sizeof_tf. lia. }
  intros m2 E2 Hk Hu Hfr. set (tf := ks + TF_OFF) in *.
  destruct (copied_frame (k_mem s) (bytes_at m2) tf (p_tf p)) as [Hax Hword].
  { intros j Hj. rewrite Hfr, Hpage by (unfold tf, TF_OFF, KSTACKSIZE, sizeof_tf in *; lia). by apply (fk_frame _ _ _ _ _ _ _ _ _ _ _ Hf). }
  unfold sizeof_tf in Hword. rewrite Esp, Z.sub_add in E2. fold tf in E2.
  destruct (trapret_run m2 tf E2) as (m3 & R3 & G1 & G2 & G3 & _); [unfold tf, TF_OFF, KSTACKSIZE, sizeof_tf; lia..|done| |].
  { by rewrite Hword by (unfold TF_CS, TF_EAX; lia). }
  exists m3. rewrite Hword in R3, G3 by (unfold TF_EIP, TF_EFLAGS, TF_EAX; lia). split_and!; [done|by rewrite G1| | |done].
  - intros r Hr. rewrite G1. destruct r; try done; apply Hword; unfold tf_reg, TF_EAX, TF_ESP; lia.
  - intros g. rewrite G2. f_equal. destruct g; apply Hword; unfold tf_seg, TF_EAX, TF_ES, TF_DS, TF_CS, TF_SS; lia.
Qed.

(** A scheduler that calls [swtch] for the child of the sample process. *)
Definition scheduler_machine (b : mem) (ctx : Z) : machine :=
  MkMachine 0 0 0 0 0x1000 0 0 0 8 16 16 24 24 16 0 0 0 0 (st32 (st32 b 0x1004 0x3000) 0x1008 ctx).

Lemma child_starts_witness :
  exists s r s' ks m1, fork (L := Sample.linker) s = Ret r s' /\
    run swtch (scheduler_machine (k_mem s') (ks + CTX_OFF)) = (m1, Goes (u32 (sym_forkret (Linker := Sample.linker))), []).
Proof.
  destruct SampleVm.one_page as (s & sp & up & l & H). pose proof H as [(b & fl & co & E) Hc Hk Hs _ [Hst1 Hst2] Hroom].
  assert (Hf : has_frame (L := Sample.linker) SampleVm.user l).
  { exists SampleVm.stack. split_and!; [done|done|]. intros Hx. apply Hst2. rewrite !elem_of_app. tauto. }
  assert (Hof : files_open (p_ofile SampleVm.user) (k_files s)).
  { intros j f Hj. change (p_ofile SampleVm.user) with (replicate 16 (@None nat)) in Hj. apply lookup_replicate in Hj as [Hj _]. done. }
  assert (Hi : k_inodes s !! 0%nat = Some SampleFs.inode0) by (by rewrite E).
  assert (Hu : exists q, k_procs s !! 5%nat = Some q /\ p_state q = UNUSED) by (rewrite E; eexists; split; reflexivity).
  pose proof (fork_cases (LO := Sample.linker_ok) s 0 SampleVm.user sp up l 0%nat SampleFs.inode0 Hc Hs Hf Hof eq_refl Hi) as Hw.
  destruct (list_find _ (k_procs s)) as [[k x]|] eqn:El.
  2:{ destruct Hu as (q & Hq & Hs5). rewrite list_find_None, Forall_forall in El. destruct (El q); [by eapply list_elem_of_lookup_2|done]. }
  destruct l as [|ks l]; [cbn in Hroom; lia|]. destruct Hw as (r & s' & R & [[_ Hfork]|(_ & Hfew & _)]).
  2:{ exfalso. change (npages (p_sz SampleVm.user)) with 1%nat in Hfew. cbn [length] in Hroom. lia. }
  assert (Hks : page_ok (L := Sample.linker) ks) by (destruct Hs as [Hv _ _ _]; eapply vs_free_ok; [exact Hv|apply list_elem_of_here]).
  pose proof (page_ok_range (LO := Sample.linker_ok) _ Hks) as Hr. unfold KERNBASE, PHYSTOP, PGSIZE in Hr. set (m := scheduler_machine (k_mem s') (ks + CTX_OFF)).
  change CTX_OFF with 3996 in *.
  destruct (child_starts (LO := Sample.linker_ok) s 0 SampleVm.user k x sp up ks l 0%nat s' m 0x3000 Hfork) as (m1 & Rm & _).
  - intros []; cbn; unfold is_u32; lia.
  - done.
  - intros a Ha. cbn. unfold PGSIZE in Ha. by rewrite !ld8_st32_ne by lia.
  - change CTX_OFF with 3996. assert (Hu32 : is_u32 (ks + 3996)) by (unfold is_u32; lia).
    split; cbn; unfold sizeof_context, apart; [by mem_word|by mem_word|lia|lia|lia].
  - unfold apart, PGSIZE. cbn. lia.
  - unfold apart, PGSIZE. lia.
  - exists s, r, s', ks, m1. split; [exact R|exact Rm].
Defined.

(** The number of every stub of usys.S selects the function of the same name
    in the kernel's table. *)
Theorem usys_dispatch {P : Ports} {L : Linker} {F : Fuel} {D : BlockDev} :
  map (fun e => (fst e, syscalls (snd e))) usys_table =
  [("fork", Some sys_fork); ("exit", Some sys_exit); ("wait", Some sys_wait); ("pipe", Some sys_pipe); ("read", Some sys_read);
   ("write", Some sys_write); ("close", Some sys_close); ("kill", Some sys_kill); ("exec", Some sys_exec); ("open", Some sys_open);
   ("mknod", Some sys_mknod); ("unlink", Some sys_unlink); ("fstat", Some sys_fstat); ("link", Some sys_link); ("mkdir", Some sys_mkdir);
   ("chdir", Some sys_chdir); ("dup", Some sys_dup); ("getpid", Some sys_getpid); ("sbrk", Some sys_sbrk); ("sleep", Some sys_sleep);
   ("uptime", Some sys_uptime); ("getppid", Some sys_getppid); ("nice", Some sys_nice); ("wait2", Some sys_wait2);
   ("setcid", Some sys_setcid); ("wait3", Some sys_wait3)]%string.
Proof. reflexivity. Qed.

(** A processor that is started finds what [startother] has stored for it: with
    the first 4 megabytes of memory where the entry code sees them, it uses
    [entrypgdir] and the new stack and goes to [mpenter]. *)
Theorem ap_starts {A : CodeAddr} {E : EntryImage} km stack m :
  mem_ok km -> is_u32 (stack + KSTACKSIZE) -> 0 < stack -> is_u32 sym_mpenter -> is_u32 (V2P sym_entrypgdir) ->
  let code := P2V 0x7000 in
  let km' := st32 (st32 (st32 km (code - 4) (stack +u KSTACKSIZE)) (code - 8) sym_mpenter) (code - 12) (V2P sym_entrypgdir) in
  (forall a, 0 <= a < 4 * 1024 * 1024 -> ld8 (bytes_at m) a = ld8 km' (P2V a)) ->
  exists m', run (start32 0x7000) m = (m', Goes sym_mpenter, []) /\ regs m' ESP = stack + KSTACKSIZE - 4 /\ ctl m' CR3 = V2P sym_entrypgdir.
Proof.
  intros Hm Hs Hpos He Hd code km' Hb. unfold is_u32 in Hs. assert (Hst : stack +u KSTACKSIZE = stack + KSTACKSIZE) by (apply u32_small; lia).
  assert (Hw : forall o, 0 <= o -> o + 4 <= 4 * 1024 * 1024 -> ld32 (bytes_at m) o = ld32 km' (P2V o)).
  { intros o H1 H2. apply ld32_shift. intros i Hi. rewrite Hb by lia. f_equal. unfold P2V, KERNBASE. rewrite !u32_small by lia. lia. }
  change code with (KERNBASE + 0x7000) in *. unfold KERNBASE in *.
  assert (E1 : ld32 (bytes_at m) (0x7000 - 4) = stack + KSTACKSIZE) by (rewrite Hw by lia; change (P2V (0x7000 - 4)) with (0x80007000 - 4); unfold km'; mem_word; done).
  assert (E2 : ld32 (bytes_at m) (0x7000 - 8) = sym_mpenter) by (rewrite Hw by lia; change (P2V (0x7000 - 8)) with (0x80007000 - 8); unfold km'; mem_word; done).
  assert (E3 : ld32 (bytes_at m) (0x7000 - 12) = V2P sym_entrypgdir) by (rewrite Hw by lia; change (P2V (0x7000 - 12)) with (0x80007000 - 12); unfold km'; mem_word; done).
  destruct (start32_run 0x7000 m ltac:(lia)) as (m' & R & S & C & _); [rewrite E1; unfold KSTACKSIZE in *; lia|].
  rewrite E1 in S. rewrite E2 in R. rewrite E3 in C. by exists m'.
Qed.

(** * The file system image: theorems *)

(** C39: [mkfs], on files that fit (at most 198 of them, names without a slash,
    contents of at most 140 blocks, and no more blocks in all than the disk
    has), succeeds and leaves an image that the kernel can use.  The super
    block describes the layout and the log is empty.  File number [i] of the
    command line is inode [2 + i] and reads back as its content; the root
    directory is inode 1 and lists [.], [..] and the files.  The other inodes
    are free, no block is in two places of two files, and the bitmap has
    exactly the blocks in use. *)
Theorem mkfs_builds files :
  Forall file_ok files -> (length files <= 198)%nat -> nmeta + total (image_files files) <= FSSIZE ->
  exists st, mkfs files = Some st /\ built (mk_img st) files.
Proof. apply mkfs_run. Qed.

Lemma mkfs_builds_witness : exists st, mkfs two_files = Some st /\ built (mk_img st) two_files.
Proof. apply mkfs_builds; [exact two_files_ok|cbn; lia|vm_compute; discriminate]. Defined.

(** When the entries of the root directory fill its last block, its size
    counts one block more than it has: the rounding is to the next multiple of
    the block size, not to the nearest one. *)
Theorem mkfs_root_hole files st : Forall file_ok files -> (length files <= 198)%nat -> nmeta + total (image_files files) <= FSSIZE ->
  (length files mod 32 = 30)%nat -> mkfs files = Some st ->
  let din := inode_of (mk_img st) 1 in let f := lget32 8 din / BSIZE - 1 in
  0 <= f < NDIRECT /\ slot (mk_img st) din (data_slot f) = 0.
Proof.
  intros Hok Hn Hroom Hm E. destruct (mkfs_run files Hok Hn Hroom) as (st' & E' & Hb). assert (st' = st) as -> by congruence.
  destruct (bt_root _ _ Hb) as (_ & _ & Hsz & [He _] & _). intros din f. change BSIZE with 512 in *.
  rewrite root_length in Hsz, He. fold din in Hsz, He. set (n := 32 + 16 * Z.of_nat (length files)) in *.
  assert (Hn512 : n = n / 512 * 512 /\ n / 512 < 12) by (pose proof (Nat.div_mod (length files) 32 ltac:(lia)); unfold n; Z.div_mod_to_equations; lia).
  assert (Ef : f = n / 512) by (unfold f; rewrite Hsz, Z.div_mul by lia; lia). assert (H0 : 0 <= n / 512) by (apply Z.div_pos; lia).
  change NDIRECT with 12. split; [lia|]. destruct (decide (slot (mk_img st) din (data_slot f) = 0)) as [?|Hs]; [done|]. apply He in Hs; lia.
Qed.
